(* ===== verification/_CoqProject ===== *)
-Q . S2P
Prelude.v
Store.v
Baselines.v
Users.v
RecordUsage.v
Wallet.v
UsageBilling.v
Metering.v
Tariffs.v
Packages.v
Caps.v
Portal.v
Payments.v
Endpoints.v
Review.v
UserBulk.v
Ipv4.v
AddressPool.v
Shards.v
Outbox.v
CoreSync.v
SyncApply.v
Base64.v
Tokens.v
SubLinks.v
BulkCreate.v
System.v
Resellers.v
LoginLimit.v
FamilyGuard.v
Devices.v
Leases.v
Platform.v
Json.v
Warp.v
Reports.v
Gateways.v
Storefront.v
Edge.v
