(* ===== verification/Prelude.v ===== *)
(** * Shahkar: a verification development of the panel

    Shahkar is a VPN panel.  Administrators (sudo) and resellers sell accounts;
    nodes report traffic; usage is metered, charged against prepaid wallets and
    enforced; customers sign up, renew and buy in a storefront and a portal, and pay
    by card or through gateways; changes of accounts are queued and pushed to the
    running Xray core.  This library models the parts of [src/app] that decide who
    pays what, who is served and who is let in: metering, quota, ledger, tariffs,
    packages, caps, portal, payments and gateways, reports, bulk operations, the jobs
    on users, the sync outbox with the hot sync of the core, the configurations of
    WARP exits and CDN fronts, WireGuard address pools and shards, device limits,
    session tokens, subscription links, roles, resellers and their storefronts, API
    keys, login limits, the family guard and the leases of the instances.

    ** How the program is modelled

    The code is Python on an SQLAlchemy session.  [Store] has one record per ORM
    class, with the columns the modelled code uses, and [DB], the tuple of
    tables (maps by primary key, append-only tables as lists).  A request runs
    in the session monad [M] of this file: [work] is the state seen through the
    session's objects, [saved] the committed database; [gets] and [modify] are
    attribute access, [commit] saves, [query] is a filtered query (autoflush is
    off: it sees committed rows), [raise] is an exception with its class and
    status, [swallow] and [try_default] are the [except Exception] clauses.
    [run_session] opens a session, runs, and drops what was not committed.
    [preserves I m] says that [m] keeps the invariant [I] of view and committed
    state on every path, errors included.  Integers are unbounded as in Python;
    [option Z] is a nullable column; [now] is the clock reading of the call.
    Times are seconds in the billing files and microseconds where the code
    compares datetimes ([Outbox], [Tokens], [SubLinks]).

    Tables that only one component uses are states of that component's file:
    the queue of [Outbox], the registry and the core of [CoreSync], the peers
    of [AddressPool] and [Shards], the sessions file of [Tokens], the links of
    [SubLinks], the counters of [LoginLimit], the controls of [FamilyGuard], the
    device table of [Devices], the keys of [Leases], the settings, flags and API keys
    of [Platform], the role and tenant columns of [Resellers], the applications and
    invite codes of [Storefront], the registry of providers of [Gateways].
    Configurations of the core are JSON values ([Json], [Warp], [Edge]).

    ** Files, and the sources they model

    - [Prelude]: record update, Python values, sums, the session monad, the
      [preserves] logic with its hint database [session], strings, sorting.
    - [Store]: [db/models.py], settings and feature flags.
    - [Baselines]: [usage_baselines.py], cumulative counters to deltas, with
      the commit-after-bill protocol of [jobs/record_usages.py].
    - [Users]: the row helpers of [quota.py] (module [Quota]) and the row
      operations of [db/crud.py] (module [Lifecycle]).
    - [RecordUsage]: the database side of a usage tick,
      [jobs/record_usages.py] and [db/usage_upsert.py].
    - [Wallet]: [billing/__init__.py] and [billing/commission.py]; module
      [Ledger] states what a posting does to the books.
    - [UsageBilling]: [billing/usage_billing.py], the pay-as-you-go job.
    - [Metering]: the audit trail of usage charges, an invariant across
      [RecordUsage], [UsageBilling] and the ledger.
    - [Tariffs]: [billing/reseller_tariffs.py], [billing/unlimited_create.py].
    - [Packages]: [billing/traffic_packages.py].
    - [Caps]: [enforce_reseller_traffic_caps] of [quota.py].
    - [Portal]: [portal/__init__.py], [portal/username_check.py], the account
      operations of [db/crud.py], and [tenant/plan_ops.py] (module [PlanOps]).
    - [Payments]: [billing/payments.py].  What a gateway answers is an argument.
    - [Endpoints]: handlers of [routers/billing.py] and [routers/user.py] that
      move money.
    - [Review]: the jobs [jobs/review_users.py], [jobs/reset_user_data_usage.py]
      and [jobs/remove_expired_users.py] over the row operations of [Users].
    - [UserBulk]: the bulk operations of [services/user_bulk.py] with the list
      filters of [db/crud.py], the deletion jobs of
      [services/bulk_delete_jobs.py] and their handlers.
    - [System]: the operations of all components on the billing database as
      steps, the interface [BooksInvariant] an invariant of the books has to
      offer, and the invariants of every reachable database.
    - [Ipv4]: what the code uses of Python's [ipaddress], for IPv4.
    - [AddressPool]: [wireguard/pool.py], [wireguard/capacity.py], and the
      address operations of [wireguard/operations.py] and
      [wireguard/address_authority.py].
    - [Shards]: [wireguard/finalmask_shard.py].
    - [Outbox]: [sync/outbox.py]; the abstract life of a row, the step relations
      of the queue with one worker ([outbox_step]) and with a fleet of them
      ([fleet_step]: drains run on every worker at start-up and on wake), the drain.
    - [CoreSync]: [xray/serving.py], against the interface [HandlerService] of the
      core's API with its laws [HandlerLaws].
    - [SyncApply]: [sync/hot_apply.py] and [sync/ack.py], what an outbox row does
      to the core and how it is acknowledged; uses [Outbox] and [CoreSync].
    - [Base64]: Base64 and UTF-8 texts, as [base64] encodes and decodes them.
    - [Tokens]: the session tokens of [utils/jwt.py], [utils/admin_sessions.py],
      and the dependencies and handlers of [models/admin.py],
      [routers/admin.py], [routers/portal.py], [routers/client_v2.py].
    - [SubLinks]: the subscription links of [utils/jwt.py], [dependencies.py],
      [subscription/endpoint_resolver.py] and [db/crud.py].
    - [BulkCreate]: creation of many accounts ([services/user_bulk.py]) and the
      balancing of subscription panels ([subscription/panel_balance.py], module
      [PanelBalance]).
    - [Resellers]: [rbac.py], admin rows and their handlers, tenants
      ([tenant/__init__.py]), sub-resellers ([tenant/sub_reseller.py]) and the
      scoping of nodes ([tenant/reseller_ops.py]).
    - [LoginLimit]: [login_limit.py].
    - [FamilyGuard]: [family_guard/policy.py], [family_guard/schedule.py],
      [jobs/family_guard_enforce.py] and the portal request that edits controls.
    - [Devices]: [utils/device_limit.py], [utils/device_exclusivity.py],
      [utils/session_limit.py] and the guards of [routers/subscription.py].
    - [Leases]: the leader lock of [ha.py], command by command, and the failure
      detector of [cluster/__init__.py].
    - [Platform]: [feature_flags.py] and [platform_settings.py] with their caches,
      [api_keys.py], [billing_guard.py].
    - [Json]: configuration values as Python objects.
    - [Warp]: [xray/warp_routing.py].
    - [Reports]: [billing/mrr.py] and [billing/gateway_income.py].
    - [Gateways]: [billing/providers.py], cards (module [Cards]), the registry, the
      creation and verification of payments, and the callbacks of
      [routers/billing.py] and [routers/portal.py] over [Payments].
    - [Storefront]: [storefront/__init__.py] and [routers/storefront.py], over
      [Resellers] and [Portal].
    - [Edge]: the routes and the running configuration of
      [services/edge_proxy.py].

    Each file has a module of definitions, in the order of the source and with
    its names, and a module of facts; the later ones have a module of examples
    that runs the theorems on concrete states.

    ** What the theorems show

    - The books ([System], [Wallet]): each wallet is the sum of its
      transactions and each top-up is credited exactly when completed, after any
      sequence of operations; usage charges never bill a byte twice and never
      more than was metered.  A posting moves its amount, one bounded
      commission, and nothing else; an invoice is paid once.
    - Metering ([Baselines], [RecordUsage], [Users]): serial ticks bill a rising
      counter exactly plus what failed bills had committed, and lose nothing; a tick adds the reported bytes
      clamped to the limit and meters resellers for exactly that; the batched
      and the row-by-row writer agree; quota states do not flap.
    - Charging ([UsageBilling], [Tariffs], [Packages]): a charge is taken once
      or held without loss; rounding bounds; tariff matching is nearest, then
      cheapest; creations are covered before they are charged; limits locked by
      tariffs hold; purchases move price and bytes together; price floors hold.
    - Enforcement ([Caps], [Review], [Devices]): no active account under a blocked
      reseller, manual disables untouched; two reviews leave no account active
      that is not entitled to it; resets fire once a period; only due accounts
      are deleted; the platforms that count never exceed the device limit, and one
      platform is never locked out.
    - Portal and payments ([Portal], [Payments], [Gateways], [Reports]): renewal
      arithmetic with the exact effect of a renewal on the database, account creation and deletion, catalogue isolation, closed
      payments stay closed, only the entitled admin reviews a card payment; a
      completion request or callback changes the database only with the provider's
      confirmation or for an intent whose provider is not registered, which the manual
      fallback settles; a paid order arrives; saved cards are read back; the reports add
      up and are scoped to their reader.
    - Bulk ([UserBulk], [BulkCreate]): a reseller's request touches the reseller's
      accounts only; deleting in batches is deleting at once; creating many accounts
      respects the limits, the balance and the names; balancing from one snapshot
      agrees with counting each time.
    - Synchronisation ([Outbox], [CoreSync], [SyncApply], [Leases]): the queue
      refines the life of a row under every interleaving of any number of workers with
      crashes, as long as none is slower than the reclaim threshold; spaced drains
      settle every row, except those left running with all attempts used; both claims agree; the chunked scan reads the whole table; a
      hot sync of an answering core converges; disable and add rows do what they
      say; with timely instances at most one leads.
    - Configurations ([Warp], [Edge]): after the WARP guards no rule names an outbound
      that does not exist; only escapes, the API rule and the panel's QUIC
      block come before the sensitive split; removal leaves no trace of WARP; nginx and the running core
      agree on every CDN route, and no inbound is left open without TLS.
    - WireGuard ([AddressPool], [Shards]): widening ends, is safe and keeps the
      gateway; addresses stay unique; shard slots are sticky and capped, and the
      search for one ends exactly for positive caps.
    - Access ([Tokens], [SubLinks], [LoginLimit], [FamilyGuard], [Resellers],
      [Storefront], [Platform]): a token opens only its own door and a revocation is
      final; signed links lead back to their owner
      at any offset from UTC and revoked users are served only
      by newer links; the login budget in memory is exact; schedule windows are arcs of the
      clock and stored controls are well formed; account tables stay well formed and
      sub-accounts confined; an application is decided once and nobody becomes a
      reseller by himself; an API key stays within the role of its maker; caches are
      transparent in one process.
    - Deviations, each proved on the model of the code as it is.  Payments: a provider
      name in another case, or of a gateway that is switched off, is settled by the
      manual provider without any payment.  Billing:
      overlapping ticks, a bill that fails after some chunks and the tick that hits a
      limit count bytes twice, a usage reset forfeits the own-node share, mixed
      user keys meter twice, two unlocked completions credit twice, a renewal is
      applied before it is charged, a purchased name can be lost to an admin,
      some extensions are never priced, a release is not committed, the
      next-plan carry-over flag is inverted, and a row it raises on stops the
      review.  Accounts: a public sign-up without a free plan is unlimited, a
      reviewer without a row cannot decide on an application, a patch with null
      lifts a child's quota, a worker whose admin is gone deletes everybody's users,
      the recovery of the billing guard revives expired accounts.
      Synchronisation: a row can be stranded, its verdict overturned by a
      slow worker, or a change lost by coalescing, connection errors are recorded as success, the ACK is skipped
      when the core is down, a delayed leader and an unconditional renewal give two
      leaders, other processes keep old flags.  Configurations: balancer rules survive
      the removal of WARP, a single account drops the operator's balancers, a route at
      the root path repeats a location, default settings pass TLS inbounds on in
      plain.  WireGuard: with a pinned
      interface host outside the subnet the gateway's address is handed out.  Access:
      refresh and application tokens survive a
      password change, a racing log-in undoes a revocation, times of different
      precision or zone are compared, revoking kills the new link, rotating
      revives the old one, short ids are unreachable, the client address can be
      forged, the session limit has no effect, the family guard passes ids where rows
      are expected and so cuts nobody.

    ** Bounds

    All definitions are total.  Fuel is used where the source has a loop that is
    not structural, and is proved to suffice: [free_variant] has 98, the exact
    length of the source's [range] (the fallback name after it is part of the
    model); [widen_loop] has [widen_fuel], more than the 33 prefix lengths;
    [scan_users] takes one more than the number of users, each chunk but the
    last having at least one; [_lowest_open_slot] takes one more than the number
    of used slots, with a theorem that no fuel is enough for caps of zero or
    less; [free_slug] takes one more than the number of tenants; [delete_batches]
    the number of ids, each batch taking at least one; the removal of URL prefixes
    takes the length of the text.

    ** What is left out

    Not modelled, because what they do is outside the sources or only shown: node
    agents and their commands, the processes of Xray and sing-box and the generation
    of their full configurations ([xray/config.py], [xray/operations.py]), the
    WireGuard kernel interface and its shard reloads, tunnels and provisioning over
    SSH, updates of the panel itself, Telegram and Discord bots, push messages,
    rendering of subscriptions, pages and nginx files, migrations, imports and
    backups, uploaded receipts, advisory locks of the database.  The gateways' HTTP
    answers, the core behind the Xray API, Redis where a failure is the point, the JWT
    library, SHA-1, SHA-256, HMAC and password hashing are parameters; theorems
    that rely on them have their documented behaviour as hypotheses, which the
    examples instantiate.  Reads and writes of different sessions interleave
    only where a theorem says so ([topup_race], [overlapping_ticks_bill_twice],
    the step relations of [Outbox], [Leases] and the caches of [Platform],
    [racing_login_undoes_revocation]); elsewhere
    each request runs alone.  Usage coefficients, a float column, are exact
    rationals.  IPv6 is not modelled.  Texts of log and error messages keep
    their fixed part.  The usage reset of a reseller ([reset_admin_usage]) is
    modelled but is not a step of [System]: it restarts the metering on purpose. *)
From stdpp Require Export base list gmap strings sorting fin_maps.
From Stdlib Require Export ZArith Lia.

(** ** Record update

    The ORM code assigns single attributes of a row object.  [r <| f := v |>]
    is the row [r] with attribute [f] replaced; the update function is computed
    from the record's eta-expansion, given once per record type. *)
Class Eta (R : Type) := eta : R → R.
Class Field {R T : Type} (proj : R → T) := over : (T → T) → R → R.
Arguments over {R T} proj {_} _ _ /.

Ltac derive_field :=
  match goal with
  | |- @Field ?R ?T ?p =>
      let inst := constr:(_ : Eta R) in
      let body := eval red in inst in
      let ab := eval pattern p in body in
      match ab with
      | ?h _ =>
          let u := eval cbv beta in
            (fun (g : T → T) (r : R) => h (fun x : R => g (p x)) r) in
          exact u
      end
  end.

#[export] Hint Extern 1 (Field _) => derive_field : typeclass_instances.

Declare Scope row_scope.
Delimit Scope row_scope with row.
Notation "r <| f := v |>" := (over f (λ _, v) r)
  (at level 1, left associativity, f at next level, v at level 200) : row_scope.
Open Scope row_scope.
Open Scope Z_scope.

(** Reading an attribute another update did not touch.  The update is not
    unfolded, so rows stay small. *)
Ltac row_frame :=
  repeat match goal with
  | |- context [?p (@over ?R ?T ?f ?i ?g ?r)] =>
      progress change (p (@over R T f i g r)) with (p r)
  end.

(** An assignment guarded by [if x is not None]. *)
Definition if_some {A R} (o : option A) (f : A → R → R) (r : R) : R :=
  match o with Some a => f a r | None => r end.

Lemma if_some_frame {A R T} (p : R → T) (o : option A) f r :
  (∀ a, p (f a r) = p r) → p (if_some o f r) = p r.
Proof. destruct o; cbn; auto. Qed.

Lemma if_frame {R T} (p : R → T) (b : bool) r1 r2 :
  p r1 = p r2 → p (if b then r1 else r2) = p r2.
Proof. by destruct b. Qed.

(** ** Python values

    [option Z] is a nullable integer column; [None] is Python's [None] (SQL
    NULL).  [truthy] is Python truth of such a value, [or0 x] is [x or 0]. *)
Definition truthy (o : option Z) : bool :=
  match o with Some n => negb (n =? 0) | None => false end.

Definition or0 (o : option Z) : Z :=
  match o with Some n => n | None => 0 end.

Definition is_none {A} (o : option A) : bool :=
  match o with Some _ => false | None => true end.

Lemma default_Some {A} (d x : A) : default d (Some x) = x.
Proof. done. Qed.

(** [x or None] on a nullable integer: zero becomes [None]. *)
Definition or_none (o : option Z) : option Z :=
  match o with Some n => if n =? 0 then None else Some n | None => None end.

(** [not x or x <= 0] negated: a limit that is set and positive. *)
Definition pos_limit (o : option Z) : bool :=
  match o with Some n => 0 <? n | None => false end.

(** [int(round(a / b))] with [b > 0]: Python rounds halves to even. *)
Definition py_round_div (a b : Z) : Z :=
  let q := a / b in
  let r2 := 2 * (a mod b) in
  if r2 <? b then q
  else if b <? r2 then q + 1
  else if Z.even q then q else q + 1.

Lemma py_round_div_near (a b : Z) :
  0 < b → 2 * Z.abs (py_round_div a b * b - a) ≤ b.
Proof.
  intros Hb. unfold py_round_div.
  pose proof (Z.div_mod a b ltac:(lia)) as Hd.
  pose proof (Z.mod_pos_bound a b Hb) as Hm.
  destruct (Z.ltb_spec (2 * (a mod b)) b); [nia|].
  destruct (Z.ltb_spec b (2 * (a mod b))); [nia|].
  destruct (Z.even (a / b)); nia.
Qed.

(** ** Sums over lists *)
Definition sumZ {A} (f : A → Z) (l : list A) : Z :=
  foldr (λ x acc, f x + acc) 0 l.
Arguments sumZ : simpl never.

Section sumZ.
Context {A : Type}.
Implicit Types (f g : A → Z) (l : list A).

Lemma sumZ_nil f : sumZ f [] = 0.
Proof. reflexivity. Qed.
Lemma sumZ_cons f x l : sumZ f (x :: l) = f x + sumZ f l.
Proof. reflexivity. Qed.
Lemma sumZ_app f l1 l2 : sumZ f (l1 ++ l2) = sumZ f l1 + sumZ f l2.
Proof. induction l1; [done|]. rewrite <-app_comm_cons, !sumZ_cons, IHl1. lia. Qed.
Lemma sumZ_ext f g l : (∀ x, x ∈ l → f x = g x) → sumZ f l = sumZ g l.
Proof.
  induction l as [|x l IH]; intros H; [done|].
  rewrite !sumZ_cons, (H x) by constructor. rewrite IH; [done|].
  intros y Hy. apply H. by constructor.
Qed.
Lemma sumZ_nonneg f l : (∀ x, x ∈ l → 0 ≤ f x) → 0 ≤ sumZ f l.
Proof.
  induction l as [|x l IH]; intros H; [done|].
  rewrite sumZ_cons. assert (0 ≤ f x) by (apply H; constructor).
  assert (0 ≤ sumZ f l) by (apply IH; intros; apply H; by constructor). lia.
Qed.
Lemma sumZ_le f g l : (∀ x, x ∈ l → f x ≤ g x) → sumZ f l ≤ sumZ g l.
Proof.
  induction l as [|x l IH]; intros H; [done|].
  rewrite !sumZ_cons. assert (f x ≤ g x) by (apply H; constructor).
  assert (sumZ f l ≤ sumZ g l) by (apply IH; intros; apply H; by constructor). lia.
Qed.
Lemma sumZ_add f g l : sumZ (λ x, f x + g x) l = sumZ f l + sumZ g l.
Proof. induction l; rewrite ?sumZ_cons, ?sumZ_nil in *; lia. Qed.
Lemma sumZ_zero f l : (∀ x, x ∈ l → f x = 0) → sumZ f l = 0.
Proof.
  induction l as [|x l IH]; intros H; [done|].
  rewrite sumZ_cons, (H x) by constructor. rewrite IH; [done|].
  intros y Hy. apply H. by constructor.
Qed.
Lemma sumZ_elem f l x : (∀ y, y ∈ l → 0 ≤ f y) → x ∈ l → f x ≤ sumZ f l.
Proof.
  intros H. induction 1 as [x l|x y l Hx IH]; rewrite sumZ_cons.
  - pose proof (sumZ_nonneg f l (λ z Hz, H z (list_elem_of_further _ _ _ Hz))). lia.
  - pose proof (H y (list_elem_of_here _ _)). pose proof (IH (λ z Hz, H z (list_elem_of_further _ _ _ Hz))). lia.
Qed.
Lemma sumZ_lt f g l x :
  (∀ y, y ∈ l → f y ≤ g y) → x ∈ l → f x < g x → sumZ f l < sumZ g l.
Proof.
  intros H Hx. revert H. induction Hx as [x l|x y l Hx IH]; intros H Hlt; rewrite !sumZ_cons.
  - pose proof (sumZ_le f g l (λ z Hz, H z (list_elem_of_further _ _ _ Hz))). lia.
  - pose proof (H y (list_elem_of_here _ _)).
    pose proof (IH (λ z Hz, H z (list_elem_of_further _ _ _ Hz)) Hlt). lia.
Qed.
Lemma sumZ_bound f l b : (∀ y, y ∈ l → f y ≤ b) → sumZ f l ≤ b * Z.of_nat (length l).
Proof.
  intros H. induction l as [|y l IH]; [rewrite sumZ_nil; cbn; lia|]. rewrite sumZ_cons. cbn [length].
  pose proof (H y (list_elem_of_here _ _)). pose proof (IH (λ z Hz, H z (list_elem_of_further _ _ _ Hz))). lia.
Qed.
Lemma sumZ_perm f l1 l2 : l1 ≡ₚ l2 → sumZ f l1 = sumZ f l2.
Proof. induction 1; rewrite ?sumZ_cons in *; lia. Qed.
End sumZ.

#[export] Hint Rewrite @sumZ_nil @sumZ_cons @sumZ_app : sumZ.

#[export] Instance sumZ_Permutation {A} (f : A → Z) :
  Proper ((≡ₚ) ==> (=)) (sumZ f).
Proof. intros l1 l2 H. by apply sumZ_perm. Qed.

(** ** Errors

    An exception is its class, its HTTP status where the class carries one and
    its message.  Values interpolated into messages are dropped. *)
Inductive err :=
  | HTTPException (status : Z) (detail : string)
  | ResellerTariffError (status : Z) (detail : string)
  | TrafficPackageError (status : Z) (detail : string)
  | InsufficientWalletBalance
  | ValueError (detail : string)
  | TypeError.

Inductive result (A : Type) :=
  | Ok (a : A)
  | Raise (e : err).
Arguments Ok {A} a.
Arguments Raise {A} e.

Definition is_ok {A} (r : result A) : bool :=
  match r with Ok _ => true | Raise _ => false end.

(** ** Sessions

    An SQLAlchemy session (autoflush off, autocommit off).  [work] is the state
    the code sees through the session's row objects, [saved] the last committed
    database.  Closing the session drops what was not committed; an exception
    that escapes the request closes it. *)
Record Session (D : Type) := mkSession { work : D; saved : D }.
Arguments mkSession {D} _ _.
Arguments work {D} _.
Arguments saved {D} _.

Definition M (D A : Type) : Type := Session D → result A * Session D.

Definition ret {D A} (a : A) : M D A := λ s, (Ok a, s).
Definition raise {D A} (e : err) : M D A := λ s, (Raise e, s).
Definition bind {D A B} (m : M D A) (k : A → M D B) : M D B := λ s,
  match m s with
  | (Ok a, s') => k a s'
  | (Raise e, s') => (Raise e, s')
  end.

(** Read through the session, modify the session's objects, commit. *)
Definition gets {D A} (f : D → A) : M D A := λ s, (Ok (f (work s)), s).
Definition modify {D} (f : D → D) : M D unit := λ s,
  (Ok tt, mkSession (f (work s)) (saved s)).
Definition commit {D} : M D unit := λ s,
  (Ok tt, mkSession (work s) (work s)).

(** A query filtered on column values: with autoflush off it sees the committed
    rows, not pending changes of the session's objects. *)
Definition query {D A} (f : D → A) : M D A := λ s, (Ok (f (saved s)), s).

(** [try: x = m except Exception: x = dflt] *)
Definition try_default {D A} (m : M D A) (dflt : A) : M D A := λ s,
  match m s with
  | (Ok a, s') => (Ok a, s')
  | (Raise _, s') => (Ok dflt, s')
  end.

(** [try: m except Exception: pass]: the exception is swallowed, session kept. *)
Definition swallow {D} (m : M D unit) : M D unit := λ s,
  match m s with
  | (Ok _, s') => (Ok tt, s')
  | (Raise _, s') => (Ok tt, s')
  end.

Definition when {D} (b : bool) (m : M D unit) : M D unit :=
  if b then m else ret tt.

Fixpoint for_each {D A} (l : list A) (f : A → M D unit) : M D unit :=
  match l with
  | [] => ret tt
  | x :: l => bind (f x) (λ _, for_each l f)
  end.

Declare Scope session_scope.
Delimit Scope session_scope with session.
Notation "'let*' x ':=' c 'in' k" := (bind c (λ x, k))
  (at level 10, x name, c at level 100, k at level 200)
  : session_scope.
Notation "c1 ;;; c2" := (bind c1 (λ _, c2))
  (at level 199, right associativity) : session_scope.
Open Scope session_scope.

Lemma bind_ok {D A B} (m : M D A) (k : A → M D B) s a s' :
  m s = (Ok a, s') → bind m k s = k a s'.
Proof. intros H. unfold bind. by rewrite H. Qed.

Lemma bind_raise {D A B} (m : M D A) (k : A → M D B) s e s' :
  m s = (Raise e, s') → bind m k s = (Raise e, s').
Proof. intros H. unfold bind. by rewrite H. Qed.

Lemma bind_when {D B} b (f : D → D) (k : unit → M D B) s :
  bind (when b (modify f)) k s =
  k tt (if b then mkSession (f (work s)) (saved s) else s).
Proof. by destruct b. Qed.

Lemma bind_query {D A B} (f : D → A) (k : A → M D B) s :
  bind (query f) k s = k (f (saved s)) s.
Proof. done. Qed.

Lemma bind_gets {D A B} (f : D → A) (k : A → M D B) s :
  bind (gets f) k s = k (f (work s)) s.
Proof. done. Qed.

Lemma bind_modify {D B} (f : D → D) (k : unit → M D B) s :
  bind (modify f) k s = k tt (mkSession (f (work s)) (saved s)).
Proof. done. Qed.

(** Run the first command of the program on the right of [E]; [tac] proves what
    it returns. *)
Ltac bind_step E tac :=
  match type of E with
  | _ = bind ?m ?k ?s =>
      let H := fresh in
      eassert (H : m s = (Ok _, _)) by tac;
      rewrite (bind_ok m k s _ _ H) in E; clear H; cbv beta in E
  end.

(** A request: open a session on [db], run, close.  What is left is the
    committed database. *)
Definition run_session {D A} (m : M D A) (db : D) : result A * D :=
  let '(r, s) := m (mkSession db db) in (r, saved s).

(** ** Invariants of committed databases

    [preserves I m]: from a session whose view and committed state satisfy [I],
    [m] ends in such a session, whether it returns or raises. *)
Definition good {D} (I : D → Prop) (s : Session D) : Prop :=
  I (work s) ∧ I (saved s).

Definition preserves {D A} (I : D → Prop) (m : M D A) : Prop :=
  ∀ s, good I s → good I (m s).2.

Create HintDb session.

Section preserves.
Context {D : Type} (I : D → Prop).

Lemma preserves_ret {A} (a : A) : preserves I (ret (D:=D) a).
Proof. intros s H. exact H. Qed.
Lemma preserves_raise {A} e : preserves I (raise (D:=D) (A:=A) e).
Proof. intros s H. exact H. Qed.
Lemma preserves_gets {A} (f : D → A) : preserves I (gets f).
Proof. intros s H. exact H. Qed.
Lemma preserves_query {A} (f : D → A) : preserves I (query f).
Proof. intros s H. exact H. Qed.
Lemma preserves_try_default {A} (m : M D A) x : preserves I m → preserves I (try_default m x).
Proof.
  intros Hm s Hs. unfold try_default. specialize (Hm s Hs).
  destruct (m s) as [[a|e] s']; exact Hm.
Qed.
Lemma preserves_commit : preserves I commit.
Proof. intros s [H _]. split; exact H. Qed.
Lemma preserves_modify (f : D → D) : (∀ d, I d → I (f d)) → preserves I (modify f).
Proof. intros Hf s [H1 H2]. split; cbn; auto. Qed.
Lemma preserves_bind {A B} (m : M D A) (k : A → M D B) :
  preserves I m → (∀ a, preserves I (k a)) → preserves I (bind m k).
Proof.
  intros Hm Hk s Hs. unfold bind. specialize (Hm s Hs).
  destruct (m s) as [[a|e] s']; [|exact Hm]. apply Hk, Hm.
Qed.
Lemma preserves_swallow (m : M D unit) : preserves I m → preserves I (swallow m).
Proof.
  intros Hm s Hs. unfold swallow. specialize (Hm s Hs).
  destruct (m s) as [[a|e] s']; exact Hm.
Qed.
Lemma preserves_when b (m : M D unit) : preserves I m → preserves I (when b m).
Proof. intros H. destruct b; [exact H | apply preserves_ret]. Qed.
Lemma preserves_for_each {A} (l : list A) (f : A → M D unit) :
  (∀ x, preserves I (f x)) → preserves I (for_each l f).
Proof.
  intros Hf. induction l; cbn; auto using preserves_ret.
  apply preserves_bind; auto.
Qed.
Lemma preserves_run {A} (m : M D A) db :
  preserves I m → I db → I (run_session m db).2.
Proof.
  intros Hm H. unfold run_session.
  specialize (Hm (mkSession db db) (conj H H)).
  destruct (m _) as [r s]. apply Hm.
Qed.
End preserves.

(** [tidy m]: [m] leaves nothing uncommitted behind. *)
Definition synced {D} (s : Session D) : Prop := work s = saved s.
Definition tidy {D A} (m : M D A) : Prop := ∀ s, synced s → synced (m s).2.

Lemma tidy_bind {D A B} (m : M D A) (k : A → M D B) :
  tidy m → (∀ a, tidy (k a)) → tidy (bind m k).
Proof.
  intros Hm Hk s Hs. unfold bind. specialize (Hm s Hs).
  destruct (m s) as [[a|e] s']; [by apply Hk|exact Hm].
Qed.
Lemma tidy_ret {D A} (a : A) : tidy (ret (D:=D) a).
Proof. by intros s. Qed.
Lemma tidy_raise {D A} e : tidy (raise (D:=D) (A:=A) e).
Proof. by intros s. Qed.
Lemma tidy_gets {D A} (f : D → A) : tidy (gets f).
Proof. by intros s. Qed.
Lemma tidy_modify_commit {D A} (f : D → D) (k : M D A) :
  tidy k → tidy (modify f ;;; commit ;;; k).
Proof. intros Hk s Hs. by apply Hk. Qed.

#[export] Hint Resolve preserves_ret preserves_raise preserves_gets
  preserves_commit preserves_bind preserves_swallow preserves_when
  preserves_for_each preserves_query preserves_try_default : session.

(** Follow the program text: split binds, matches and conditionals. *)
Ltac solve_preserves :=
  repeat (intros; match goal with
  | |- preserves _ (bind _ _) => apply preserves_bind
  | |- preserves _ (ret _) => apply preserves_ret
  | |- preserves _ (raise _) => apply preserves_raise
  | |- preserves _ (gets _) => apply preserves_gets
  | |- preserves _ commit => apply preserves_commit
  | |- preserves _ (query _) => apply preserves_query
  | |- preserves _ (try_default _ _) => apply preserves_try_default
  | |- preserves _ (when _ _) => apply preserves_when
  | |- preserves _ (swallow _) => apply preserves_swallow
  | |- preserves _ (for_each _ _) => apply preserves_for_each
  | |- preserves _ (match ?x with _ => _ end) => destruct x
  | |- preserves _ (let '(_, _) := ?x in _) => destruct x
  | |- _ => solve [eauto with session]
  end).

(** Case analysis on the scrutinee of the first conditional or match. *)
Ltac split_match :=
  match goal with
  | |- context [match ?x with _ => _ end] =>
      lazymatch x with context [match _ with _ => _ end] => fail | _ => destruct x eqn:? end
  | H : context [match ?x with _ => _ end] |- _ =>
      lazymatch x with context [match _ with _ => _ end] => fail | _ => destruct x eqn:? end
  end.

(** Booleans of the code to propositions. *)
Ltac boolp :=
  repeat match goal with
  | H : negb _ = true |- _ => apply negb_true_iff in H
  | H : negb _ = false |- _ => apply negb_false_iff in H
  | H : (_ && _)%bool = true |- _ => apply andb_true_iff in H as [? ?]
  | H : (_ || _)%bool = false |- _ => apply orb_false_iff in H as [? ?]
  | H : bool_decide _ = true |- _ => apply bool_decide_eq_true in H
  | H : bool_decide _ = false |- _ => apply bool_decide_eq_false in H
  end.

(** ** Python strings *)
Definition is_space (c : Ascii.ascii) : bool :=
  let n := Ascii.nat_of_ascii c in
  ((n =? 32) || ((9 <=? n) && (n <=? 13)) || ((28 <=? n) && (n <=? 31)))%nat.

Fixpoint drop_spaces (l : list Ascii.ascii) : list Ascii.ascii :=
  match l with
  | c :: l' => if is_space c then drop_spaces l' else l
  | [] => []
  end.

(** [s.strip()] on ASCII text. *)
Definition strip (s : string) : string :=
  String.string_of_list_ascii
    (rev (drop_spaces (rev (drop_spaces (String.list_ascii_of_string s))))).

Definition lower_ascii (c : Ascii.ascii) : Ascii.ascii :=
  let n := Ascii.nat_of_ascii c in
  if ((65 <=? n) && (n <=? 90))%nat then Ascii.ascii_of_nat (n + 32) else c.

(** [s.lower()] on ASCII text; also the key of the NOCASE columns. *)
Definition lower (s : string) : string :=
  String.string_of_list_ascii (map lower_ascii (String.list_ascii_of_string s)).

Lemma length_append x y : String.length (x ++ y)%string = (String.length x + String.length y)%nat.
Proof. induction x as [|c x IH]; [done|]. change (S (String.length (x ++ y)) = S (String.length x + String.length y))%nat. by rewrite IH. Qed.

(** Literal search in text: [s.startswith(p)], [p in s] and the first hit of several. *)
Fixpoint is_prefix (p l : list Ascii.ascii) : bool :=
  match p, l with
  | [], _ => true
  | c :: p, d :: l => Ascii.eqb c d && is_prefix p l
  | _, [] => false
  end.

Fixpoint has_sub (p l : list Ascii.ascii) : bool :=
  is_prefix p l || match l with [] => false | _ :: l' => has_sub p l' end.

Definition startswith (p s : string) : bool :=
  is_prefix (String.list_ascii_of_string p) (String.list_ascii_of_string s).
Definition contains (p s : string) : bool :=
  has_sub (String.list_ascii_of_string p) (String.list_ascii_of_string s).

(** ** Sorting by a Boolean order *)
Definition sort_by {A} (leb : A → A → bool) (l : list A) : list A :=
  merge_sort (λ x y, leb x y) l.

(** Orders given by the comparison of a key: total and transitive. *)
Class TotalOrder {A} (leb : A → A → bool) := {
  leb_total : ∀ x y, leb x y ∨ leb y x;
  leb_trans : ∀ x y z, leb x y → leb y z → leb x z }.

Section sort_by.
Context {A : Type} (leb : A → A → bool) `{TO : !TotalOrder leb}.

Lemma sort_by_perm l : sort_by leb l ≡ₚ l.
Proof. apply merge_sort_Permutation. Qed.

Lemma elem_of_sort_by x l : x ∈ sort_by leb l ↔ x ∈ l.
Proof. by rewrite sort_by_perm. Qed.

Lemma sort_by_sorted l : StronglySorted (λ x y, leb x y) (sort_by leb l).
Proof.
  apply Sorted_StronglySorted; [intros x y z; apply leb_trans|].
  assert (Total (λ x y, leb x y)) by (intros x y; apply leb_total).
  by apply (Sorted_merge_sort _).
Qed.

(** [sorted(l)[0]] is a least element. *)
Lemma sort_by_head l :
  match head (sort_by leb l) with
  | Some x => x ∈ l ∧ ∀ y, y ∈ l → leb x y
  | None => l = []
  end.
Proof.
  pose proof (sort_by_perm l) as Hp. pose proof (sort_by_sorted l) as Hs.
  destruct (sort_by leb l) as [|x k]; cbn.
  - by apply Permutation_nil_l in Hp.
  - split; [rewrite <-Hp; constructor|]. intros y Hy. rewrite <-Hp in Hy.
    apply elem_of_cons in Hy as [->|Hy].
    + by destruct (leb_total x x).
    + inversion Hs as [|? ? _ Hall]; subst. by eapply Forall_forall in Hall.
Qed.
End sort_by.

(** ** Row maps *)
Lemma alter_eq_insert {A} (f : A → A) (m : gmap Z A) i x :
  m !! i = Some x → alter f i m = <[i := f x]> m.
Proof.
  intros H. apply map_eq. intros j. rewrite lookup_alter, lookup_insert.
  case_decide; subst; [by rewrite H|done].
Qed.
