(* ===== verification/Store.v ===== *)
(** * Store: the rows and tables the billing core reads and writes

    One record per ORM class of [app/db/models.py] that the modelled code
    touches, with the columns it uses, and the database [DB] as the tuple of
    tables.  Times are seconds since the epoch.  Free-text columns that no code
    reads back (descriptions, notes) are left out; the transaction [reference],
    a formatted string in the source, is kept as the data it formats. *)
From S2P Require Import Prelude.

(** ** Users *)
Inductive UserStatus := active | disabled | limited | expired | on_hold.
#[export] Instance UserStatus_eq_dec : EqDecision UserStatus.
Proof. solve_decision. Defined.

Definition status_eqb (a b : UserStatus) : bool :=
  match a, b with
  | active, active | disabled, disabled | limited, limited
  | expired, expired | on_hold, on_hold => true
  | _, _ => false
  end.

(** Python's [status in (...)]. *)
Definition status_in (a : UserStatus) (l : list UserStatus) : bool :=
  existsb (status_eqb a) l.

Lemma status_eqb_eq a b : status_eqb a b = true ↔ a = b.
Proof. destruct a, b; cbn; split; done. Qed.
Lemma status_eqb_neq a b : status_eqb a b = false ↔ a ≠ b.
Proof. destruct a, b; cbn; split; done. Qed.

Record NextPlan := mkNextPlan {
  np_data_limit : Z;
  np_expire : option Z;
  np_add_remaining_traffic : bool;
  np_fire_on_either : bool }.

Record User := mkUser {
  u_username : string;
  u_status : UserStatus;
  u_used_traffic : Z;
  u_overage_traffic : Z;
  u_used_traffic_up : Z;
  u_used_traffic_down : Z;
  u_data_limit : option Z;
  u_expire : option Z;
  u_admin_id : option Z;
  u_online_at : option Z;
  u_on_hold_expire_duration : option Z;
  u_on_hold_timeout : option Z;
  u_edit_at : option Z;
  u_created_at : Z;
  u_last_status_change : option Z;
  u_capped_by_reseller : bool;
  u_reseller_tariff_charged_id : option Z;
  u_reseller_tariff_charged_expire : option Z;
  u_device_limit : option Z;
  u_speed_limit_up : option Z;
  u_speed_limit_down : option Z;
  u_portal_owner_user_id : option Z;
  u_next_plan : option NextPlan;
  (* [UserUsageResetLogs]: used_traffic_at_reset, oldest first *)
  u_usage_logs : list Z;
  u_sync_state : string;
  u_sync_error : option string;
  u_sync_acked_at : option Z;
  u_data_limit_reset_strategy : string;
  u_auto_delete_in_days : option Z;
  (* [usage_logs[-1].reset_at], [None] without logs *)
  u_last_reset_at : option Z }.

#[export] Instance eta_User : Eta User := λ u, mkUser (u_username u) (u_status u)
  (u_used_traffic u) (u_overage_traffic u) (u_used_traffic_up u)
  (u_used_traffic_down u) (u_data_limit u) (u_expire u) (u_admin_id u)
  (u_online_at u) (u_on_hold_expire_duration u) (u_on_hold_timeout u)
  (u_edit_at u) (u_created_at u) (u_last_status_change u)
  (u_capped_by_reseller u) (u_reseller_tariff_charged_id u)
  (u_reseller_tariff_charged_expire u) (u_device_limit u)
  (u_speed_limit_up u) (u_speed_limit_down u) (u_portal_owner_user_id u)
  (u_next_plan u) (u_usage_logs u) (u_sync_state u) (u_sync_error u)
  (u_sync_acked_at u) (u_data_limit_reset_strategy u) (u_auto_delete_in_days u)
  (u_last_reset_at u).

(** ** Admins (resellers), tenants, nodes *)
Record Admin := mkAdmin {
  a_username : string;
  a_is_sudo : bool;
  a_users_usage : Z;
  a_max_users : option Z;
  a_max_total_traffic : option Z;
  a_prepaid_traffic_remaining : Z;
  a_usage_rate_per_gb : option Z;
  a_tenant_id : option Z;
  a_parent_admin_id : option Z;
  a_commission_percent : Z }.

#[export] Instance eta_Admin : Eta Admin := λ a, mkAdmin (a_username a)
  (a_is_sudo a) (a_users_usage a) (a_max_users a) (a_max_total_traffic a)
  (a_prepaid_traffic_remaining a) (a_usage_rate_per_gb a) (a_tenant_id a)
  (a_parent_admin_id a) (a_commission_percent a).

Record Node := mkNode {
  n_tenant_id : option Z;
  n_owner_admin_id : option Z }.

(** Hourly usage row; [nu_node_id = None] is panel-local traffic. *)
Record NodeUserUsage := mkNodeUserUsage {
  nu_user_id : Z;
  nu_node_id : option Z;
  nu_created_at : Z;
  nu_used_traffic : Z }.

#[export] Instance eta_NodeUserUsage : Eta NodeUserUsage := λ r, mkNodeUserUsage
  (nu_user_id r) (nu_node_id r) (nu_created_at r) (nu_used_traffic r).

(** ** Money *)
Inductive Reference :=
  | RefNone
  | RefText (s : string)
  | RefTx (id : Z)
  | RefInvoice (id : Z)
  | RefUsage (last current until : Z)
  | RefPackage (id : Z)
  | RefPayment (id : Z)
  | RefTariff (event : string) (tariff : Z) (n : nat) (user : string).

#[export] Instance Reference_eq_dec : EqDecision Reference.
Proof. solve_decision. Defined.

Record Transaction := mkTransaction {
  tx_admin_id : Z;
  tx_amount : Z;
  tx_type : string;
  tx_reference : Reference }.

Record Invoice := mkInvoice {
  i_admin_id : Z;
  i_amount : Z;
  i_plan_id : option Z;
  i_provider : option string;
  i_status : string;
  i_paid_at : option Z }.

#[export] Instance eta_Invoice : Eta Invoice := λ i, mkInvoice (i_admin_id i)
  (i_amount i) (i_plan_id i) (i_provider i) (i_status i) (i_paid_at i).

Record Checkpoint := mkCheckpoint {
  ck_last_billed_at : Z;
  ck_last_billed_users_usage : Z }.

#[export] Instance eta_Checkpoint : Eta Checkpoint := λ c,
  mkCheckpoint (ck_last_billed_at c) (ck_last_billed_users_usage c).

Record Event := mkEvent { ev_type : string; ev_admin_id : Z; ev_created_at : Z }.

(** ** Catalogues *)
Record Plan := mkPlan {
  p_id : Z;
  p_name : string;
  p_price : Z;
  p_data_limit : option Z;
  p_duration_days : option Z;
  p_device_limit : option Z;
  p_enabled : bool;
  p_tenant_id : option Z;
  p_owner_admin_id : option Z }.

Record ResellerPlanTariff := mkTariff {
  t_id : Z;
  t_name : string;
  t_price : Z;
  t_data_limit : option Z;
  t_duration_days : option Z;
  t_device_limit : option Z;
  t_speed_limit_up : option Z;
  t_speed_limit_down : option Z;
  t_enabled : bool }.

#[export] Instance eta_Tariff : Eta ResellerPlanTariff := λ t, mkTariff (t_id t)
  (t_name t) (t_price t) (t_data_limit t) (t_duration_days t)
  (t_device_limit t) (t_speed_limit_up t) (t_speed_limit_down t) (t_enabled t).

Record ResellerTrafficPackage := mkPackage {
  pk_id : Z;
  pk_name : string;
  pk_bytes : Z;
  pk_price : Z;
  pk_enabled : bool }.

#[export] Instance eta_Package : Eta ResellerTrafficPackage := λ p,
  mkPackage (pk_id p) (pk_name p) (pk_bytes p) (pk_price p) (pk_enabled p).

Record PackageOverride := mkPackageOverride {
  po_price : option Z;
  po_bytes : option Z }.

Record ResellerTrafficPurchase := mkPurchase {
  pu_admin_id : Z;
  pu_package_id : option Z;
  pu_bytes : Z;
  pu_price_paid : Z;
  pu_source : string;
  pu_created_by : option Z }.

(** ** Portal orders and payment intents *)
Record UserOrder := mkOrder {
  o_user_id : Z;
  o_plan_id : Z;
  o_amount : Z;
  o_status : string;
  o_paid_at : option Z;
  o_applied_at : option Z }.

#[export] Instance eta_UserOrder : Eta UserOrder := λ o, mkOrder (o_user_id o)
  (o_plan_id o) (o_amount o) (o_status o) (o_paid_at o) (o_applied_at o).

(** The keys of the JSON column [extra] the payment code reads back. *)
Record Extra := mkExtra {
  x_action : option string;
  x_new_username : option string;
  x_target_username : option string;
  x_created_username : option string;
  x_portal_user_id : option Z;
  x_expires_at : option Z;
  x_expired_at : option Z;
  x_rejected_at : option Z;
  x_submitted_at : option Z;
  x_create_error : option string }.

#[export] Instance eta_Extra : Eta Extra := λ x, mkExtra (x_action x)
  (x_new_username x) (x_target_username x) (x_created_username x)
  (x_portal_user_id x) (x_expires_at x) (x_expired_at x) (x_rejected_at x)
  (x_submitted_at x) (x_create_error x).

Definition no_extra : Extra :=
  mkExtra None None None None None None None None None None.

Record PaymentIntent := mkIntent {
  pi_kind : string;
  pi_admin_id : Z;
  pi_user_id : option Z;
  pi_plan_id : option Z;
  pi_amount : Z;
  pi_provider : string;
  pi_status : string;
  pi_extra : Extra;
  pi_created_at : Z;
  pi_completed_at : option Z }.

#[export] Instance eta_PaymentIntent : Eta PaymentIntent := λ p, mkIntent
  (pi_kind p) (pi_admin_id p) (pi_user_id p) (pi_plan_id p) (pi_amount p)
  (pi_provider p) (pi_status p) (pi_extra p) (pi_created_at p)
  (pi_completed_at p).

(** ** The database

    Keyed tables are finite maps from primary key (or the unique key the code
    looks rows up by) to row; append-only ledgers are lists, newest last.
    [settings] holds the integer platform settings and [flags] the feature
    flags. *)
Record DB := mkDB {
  users : gmap Z User;
  admins : gmap Z Admin;
  tenants : gmap Z Z;                 (* byo_node_discount_percent *)
  nodes : gmap Z Node;
  node_user_usages : list NodeUserUsage;
  wallets : gmap Z Z;                 (* unique admin_id to balance *)
  transactions : list Transaction;
  invoices : gmap Z Invoice;
  checkpoints : gmap Z Checkpoint;
  events : list Event;
  plans : list Plan;
  tariffs : list ResellerPlanTariff;
  tariff_overrides : gmap (Z * Z) (option Z);  (* (admin, tariff) to price *)
  packages : list ResellerTrafficPackage;
  package_overrides : gmap (Z * Z) PackageOverride;
  purchases : list ResellerTrafficPurchase;
  orders : list UserOrder;
  intents : gmap Z PaymentIntent;
  settings : gmap string Z;
  flags : gmap string bool }.

#[export] Instance eta_DB : Eta DB := λ d, mkDB (users d) (admins d) (tenants d)
  (nodes d) (node_user_usages d) (wallets d) (transactions d) (invoices d)
  (checkpoints d) (events d) (plans d) (tariffs d) (tariff_overrides d)
  (packages d) (package_overrides d) (purchases d) (orders d) (intents d)
  (settings d) (flags d).

Definition empty_db : DB :=
  mkDB ∅ ∅ ∅ ∅ [] ∅ [] ∅ ∅ [] [] [] ∅ [] ∅ [] [] ∅ ∅ ∅.

(** [platform_settings.get_int] and [feature_flags.is_enabled] (no per-admin
    override). *)
Definition get_int (d : DB) (key : string) (dflt : Z) : Z :=
  default dflt (settings d !! key).

Definition is_enabled (d : DB) (name : string) : bool :=
  default false (flags d !! name).

(** Primary keys of ledger rows: autoincrement from 1. *)
Definition next_tx_id (d : DB) : Z := Z.of_nat (length (transactions d)) + 1.

Definition update_user_row (uid : Z) (f : User → User) (d : DB) : DB :=
  d <| users := alter f uid (users d) |>.

Definition update_admin_row (aid : Z) (f : Admin → Admin) (d : DB) : DB :=
  d <| admins := alter f aid (admins d) |>.

Definition update_intent_row (pid : Z) (f : PaymentIntent → PaymentIntent) (d : DB) : DB :=
  d <| intents := alter f pid (intents d) |>.
