(* ===== verification/Baselines.v ===== *)
(** * Baselines: cumulative counters to billable deltas

    [CumulativeByteTracker] of [app/usage_baselines.py].  The cores report
    cumulative byte counters; a tick bills the difference to the last reading
    whose bill succeeded.  [_last] is the in-process cache, the store is Redis
    (its calls succeed and its entries do not expire during a run; a tracker
    without a store has [None]).  A reading is the sum of the two directions. *)
From S2P Require Import Prelude.

Module Baselines.

Notation Key := (option Z * string)%type.

Record Tracker := mkTracker {
  tr_last : gmap Key Z;
  tr_store : option (gmap Key Z) }.

#[export] Instance eta_Tracker : Eta Tracker := λ t, mkTracker (tr_last t) (tr_store t).

Definition _load_last (key : Key) (t : Tracker) : option Z * Tracker :=
  match tr_last t !! key with
  | Some v => (Some v, t)
  | None =>
      match tr_store t with
      | None => (None, t)
      | Some store =>
          match store !! key with
          | None => (None, t)
          | Some v => (Some v, t <| tr_last := <[key := v]> (tr_last t) |>)
          end
      end
  end.

Definition _save_last (key : Key) (total : Z) (t : Tracker) : Tracker :=
  t <| tr_last := <[key := total]> (tr_last t) |>
    <| tr_store := <[key := total]> <$> (tr_store t) |>.

(** One counter of the loop of [peek_deltas]: the delta to bill, if any. *)
Definition peek_one (cap : Z) (key : Key) (total : Z) (t : Tracker) : option Z * Tracker :=
  let '(last, t) := _load_last key t in
  match last with
  | None => (None, t)
  | Some last =>
      let delta := if total <? last then total else total - last in
      if delta <=? 0 then (None, t)
      else if negb (cap =? 0) && (cap <? delta) then (None, _save_last key total t)
      else (Some delta, t)
  end.

(** [peek_deltas]: [transfer] maps names to readings; returns the deltas, the
    pending baselines and the tracker. *)
Fixpoint peek_loop (cap : Z) (group_id : option Z) (transfer : list (string * Z))
    (out : list (string * Z)) (new_last : gmap Key Z) (t : Tracker)
    : list (string * Z) * gmap Key Z * Tracker :=
  match transfer with
  | [] => (out, new_last, t)
  | (name, total) :: transfer =>
      let key := (group_id, name) in
      let '(delta, t) := peek_one cap key total t in
      peek_loop cap group_id transfer
        (match delta with Some x => out ++ [(name, x)] | None => out end)
        (<[key := total]> new_last) t
  end.

Definition peek_deltas (cap : Z) (group_id : option Z) (transfer : list (string * Z)) (t : Tracker)
    : list (string * Z) * gmap Key Z * Tracker :=
  peek_loop cap group_id transfer [] ∅ t.

Definition commit_pending (new_last : gmap Key Z) (t : Tracker) : Tracker :=
  map_fold _save_last t new_last.

(** Only keys cached in this process are forgotten. *)
Definition forget_group (group_id : option Z) (t : Tracker) : Tracker :=
  let keys := filter (λ k : Key, k.1 = group_id) (map_to_list (tr_last t)).*1 in
  foldl (λ t key, t <| tr_last := delete key (tr_last t) |>
                    <| tr_store := delete key <$> (tr_store t) |>) t keys.

Definition commit_pending_list (pending : list (gmap Key Z)) (t : Tracker) : Tracker :=
  foldl (λ t p, commit_pending p t) t pending.

(** How the bill of a tick ended.  The counters are written in chunks, each in its
    own commit ([record_aggregated_user_usages]); a later statement may then fail,
    and the names of the chunks [written] before have been charged. *)
Inductive Bill := Billed | FailedAfter (written : string → bool).

(** What a bill charged of the deltas it was given. *)
Definition bill (b : Bill) (deltas : list (string * Z)) : list (string * Z) :=
  match b with
  | Billed => deltas
  | FailedAfter written => filter (λ p, written p.1 = true) deltas
  end.

(** One tick of the usage job on one group: collect, bill, and commit the pending
    baselines only if the bill went through to its end. *)
Definition usage_tick (cap : Z) (group_id : option Z) (transfer : list (string * Z))
    (b : Bill) (t : Tracker) : list (string * Z) * Tracker :=
  let '(out, pending, t) := peek_deltas cap group_id transfer t in
  (bill b out, match b with Billed => commit_pending pending t | FailedAfter _ => t end).

Fixpoint run_ticks (cap : Z) (group_id : option Z) (ticks : list (list (string * Z) * Bill))
    (t : Tracker) : list (string * Z) * Tracker :=
  match ticks with
  | [] => ([], t)
  | (transfer, b) :: ticks =>
      let '(out, t) := usage_tick cap group_id transfer b t in
      let '(more, t) := run_ticks cap group_id ticks t in
      (out ++ more, t)
  end.

End Baselines.

Module BaselineFacts.
Import Baselines.

(** The reading the next delta is counted from. *)
Definition baseline (t : Tracker) (key : Key) : option Z :=
  match tr_last t !! key with
  | Some v => Some v
  | None => tr_store t ≫= λ s, s !! key
  end.

Lemma load_last_spec key t :
  (_load_last key t).1 = baseline t key ∧
  ∀ k, baseline (_load_last key t).2 k = baseline t k.
Proof.
  destruct t as [last store]. unfold _load_last, baseline. cbn.
  destruct (last !! key) as [v|] eqn:E; [done|]. destruct store as [s|]; [|done]. cbn.
  destruct (s !! key) as [v|] eqn:Ev; [|done]. cbn. split; [done|].
  intros k. rewrite lookup_insert. case_decide; subst; [by rewrite E|done].
Qed.

Lemma save_last_spec key total t k :
  baseline (_save_last key total t) k = if decide (key = k) then Some total else baseline t k.
Proof.
  unfold baseline, _save_last. cbn. rewrite lookup_insert. case_decide; subst; [done|].
  destruct (tr_last t !! k); [done|]. destruct (tr_store t); cbn; [|done].
  by rewrite lookup_insert_ne.
Qed.

Lemma commit_pending_spec new_last t k :
  baseline (commit_pending new_last t) k =
  match new_last !! k with Some v => Some v | None => baseline t k end.
Proof.
  unfold commit_pending.
  apply (map_fold_weak_ind (λ r m, baseline r k =
    match m !! k with Some v => Some v | None => baseline t k end)).
  - by rewrite lookup_empty.
  - intros i x m r Hi IH. rewrite save_last_spec, lookup_insert. by case_decide.
Qed.

(** The delta a reading yields against a baseline; an implausible jump is
    discarded and moves the baseline at once. *)
Definition raw_delta (last total : Z) : Z := if total <? last then total else total - last.
Definition discards (cap last total : Z) : bool :=
  (0 <? raw_delta last total) && negb (cap =? 0) && (cap <? raw_delta last total).
Definition delta_of (cap : Z) (last : option Z) (total : Z) : Z :=
  match last with
  | None => 0
  | Some last => if discards cap last total then 0 else Z.max 0 (raw_delta last total)
  end.
Definition after_peek (cap : Z) (last : option Z) (total : Z) : option Z :=
  match last with
  | None => None
  | Some last => if discards cap last total then Some total else Some last
  end.

Lemma peek_one_spec cap key total t :
  or0 (peek_one cap key total t).1 = delta_of cap (baseline t key) total ∧
  (∀ k, baseline (peek_one cap key total t).2 k =
    if decide (key = k) then after_peek cap (baseline t key) total else baseline t k).
Proof.
  unfold peek_one, delta_of, after_peek, discards. destruct (load_last_spec key t) as [H1 H2].
  destruct (_load_last key t) as [last t']. cbn in H1, H2. subst last.
  destruct (baseline t key) as [last|] eqn:Eb; cbn [fst snd].
  2: { split; [done|]. intros k. rewrite H2. case_decide; by subst. }
  fold (raw_delta last total). set (x := raw_delta last total).
  destruct (Z.leb_spec x 0), (Z.ltb_spec 0 x); try lia; cbn [andb fst snd or0].
  { split; [lia|]. intros k. rewrite H2. case_decide; by subst. }
  destruct (_ && _); cbn [fst snd or0].
  - split; [done|]. intros k. rewrite save_last_spec, H2. by case_decide.
  - split; [lia|]. intros k. rewrite H2. case_decide; by subst.
Qed.

(** What a list of billed deltas charges to one name. *)
Definition charged (n : string) (out : list (string * Z)) : Z :=
  sumZ (λ p, if String.eqb p.1 n then p.2 else 0) out.

Lemma charged_app n l k : charged n (l ++ k) = charged n l + charged n k.
Proof. unfold charged. autorewrite with sumZ. lia. Qed.

Lemma charged_one n name (o : option Z) out :
  charged n (match o with Some x => out ++ [(name, x)] | None => out end) =
  charged n out + if String.eqb name n then or0 o else 0.
Proof.
  destruct o as [x|]; cbn [or0].
  - rewrite charged_app. unfold charged at 2. autorewrite with sumZ. cbn. lia.
  - destruct (String.eqb name n); lia.
Qed.

(** A name that does not occur is not affected; one that occurs is billed the
    delta of its reading. *)
Lemma peek_loop_spec cap g transfer out nl t n :
  NoDup transfer.*1 →
  let '(out', nl', t') := peek_loop cap g transfer out nl t in
  (n ∉ transfer.*1 → charged n out' = charged n out ∧ nl' !! (g, n) = nl !! (g, n) ∧
     baseline t' (g, n) = baseline t (g, n)) ∧
  (∀ total, (n, total) ∈ transfer →
     charged n out' = charged n out + delta_of cap (baseline t (g, n)) total ∧
     nl' !! (g, n) = Some total ∧
     baseline t' (g, n) = after_peek cap (baseline t (g, n)) total).
Proof.
  revert out nl t. induction transfer as [|[name x] tr IH]; intros out nl t Hnd; cbn.
  { split; [done|]. intros total Hin. by apply elem_of_nil in Hin. }
  cbn in Hnd. apply NoDup_cons in Hnd as [Hx Hnd].
  destruct (peek_one_spec cap (g, name) x t) as [Hd Hb].
  destruct (peek_one cap (g, name) x t) as [delta t1]. cbn [fst snd] in Hd, Hb.
  set (out1 := match delta with Some _ => _ | None => _ end).
  specialize (IH out1 (<[(g, name) := x]> nl) t1 Hnd).
  destruct (peek_loop cap g tr out1 _ t1) as [[out' nl'] t']. destruct IH as [IH1 IH2].
  assert (Ho : charged n out1 = charged n out + if String.eqb name n then or0 delta else 0)
    by apply charged_one.
  split.
  - intros Hn. apply not_elem_of_cons in Hn as [Hne Hn].
    destruct (IH1 Hn) as (H1 & H2 & H3). rewrite H1, H2, H3, Ho, Hb.
    rewrite lookup_insert_ne by congruence. rewrite decide_False by congruence.
    destruct (String.eqb_spec name n); [congruence|]. split; [lia|done].
  - intros total Hin. apply elem_of_cons in Hin as [[= -> ->]|Hin].
    + destruct (IH1 Hx) as (H1 & H2 & H3). rewrite H1, H2, H3, Ho, Hb, Hd.
      rewrite lookup_insert_eq, decide_True, String.eqb_refl by done. done.
    + assert (Hne : name ≠ n).
      { intros ->. apply Hx. apply list_elem_of_fmap. by exists (n, total). }
      destruct (IH2 total Hin) as (H1 & H2 & H3). rewrite H1, H2, H3, Ho, Hb.
      rewrite decide_False by congruence. destruct (String.eqb_spec name n); [done|].
      split; [lia|done].
Qed.

Lemma peek_deltas_spec cap g transfer t n total :
  NoDup transfer.*1 → (n, total) ∈ transfer →
  let '(out, pend, t') := peek_deltas cap g transfer t in
  charged n out = delta_of cap (baseline t (g, n)) total ∧ pend !! (g, n) = Some total ∧
  baseline t' (g, n) = after_peek cap (baseline t (g, n)) total.
Proof.
  intros Hnd Hin. unfold peek_deltas.
  pose proof (peek_loop_spec cap g transfer [] ∅ t n Hnd) as H.
  destruct (peek_loop _ _ _ _ _ _) as [[out pend] t']. apply (proj2 H total Hin).
Qed.

Definition through (b : Bill) : bool := match b with Billed => true | FailedAfter _ => false end.

(** The last reading whose bill went through, [b] if there is none. *)
Fixpoint last_billed (b : Z) (ticks : list (list (string * Z) * Bill)) (rs : list Z) : Z :=
  match ticks, rs with
  | tk :: ticks, r :: rs => last_billed (if through tk.2 then r else b) ticks rs
  | _, _ => b
  end.

(** The bytes failed bills charged to [n] before they failed; the baseline stays, so
    a later bill charges them again. *)
Fixpoint charged_by_failures (n : string) (b : Z) (ticks : list (list (string * Z) * Bill)) (rs : list Z) : Z :=
  match ticks, rs with
  | tk :: ticks, r :: rs =>
      match tk.2 with
      | Billed => charged_by_failures n r ticks rs
      | FailedAfter written =>
          (if written n then r - b else 0) + charged_by_failures n b ticks rs
      end
  | _, _ => 0
  end.

Lemma charged_bill n b out :
  charged n (bill b out) =
  match b with Billed => charged n out | FailedAfter written => if written n then charged n out else 0 end.
Proof.
  destruct b as [|written]; [done|]. cbn. unfold charged.
  induction out as [|[m x] out IH]; [cbn; by destruct (written n)|].
  rewrite filter_cons. cbn [fst]. case_decide as Hw; autorewrite with sumZ; cbn [fst snd]; rewrite IH;
    (destruct (String.eqb_spec m n) as [->|]; [rewrite ?Hw|]).
  - lia.
  - destruct (written n); lia.
  - destruct (written n); [done|lia].
  - destruct (written n); lia.
Qed.

Lemma delta_of_rising cap b r :
  b ≤ r → (cap = 0 ∨ r - b ≤ cap) →
  delta_of cap (Some b) r = r - b ∧ after_peek cap (Some b) r = Some b.
Proof.
  intros Hr Hc. unfold delta_of, after_peek, discards, raw_delta.
  destruct (Z.ltb_spec r b); [lia|].
  assert (H0 : (0 <? r - b) && negb (cap =? 0) && (cap <? r - b) = false).
  { destruct (Z.eqb_spec cap 0); [by rewrite andb_false_r|].
    destruct (Z.ltb_spec cap (r - b)); [lia|by rewrite andb_false_r]. }
  rewrite H0. split; [lia|done].
Qed.

Lemma usage_tick_rising cap g tr bl t n b r :
  baseline t (g, n) = Some b → NoDup tr.*1 → (n, r) ∈ tr → b ≤ r → (cap = 0 ∨ r - b ≤ cap) →
  let '(out, t') := usage_tick cap g tr bl t in
  charged n out = match bl with Billed => r - b | FailedAfter written => if written n then r - b else 0 end
  ∧ baseline t' (g, n) = Some (if through bl then r else b).
Proof.
  intros Hb Hnd Hin Hr Hc. unfold usage_tick.
  pose proof (peek_deltas_spec cap g tr t n r Hnd Hin) as H.
  destruct (peek_deltas cap g tr t) as [[out pend] t']. destruct H as (H1 & H2 & H3).
  rewrite Hb in H1, H3. destruct (delta_of_rising cap b r Hr Hc) as [Hd Ha].
  rewrite charged_bill, H1, Hd. destruct bl; cbn; [|by rewrite H3, Ha].
  by rewrite commit_pending_spec, H2.
Qed.

(** C9. No byte is lost across ticks and failures, and the ones billed twice are known:
    while a counter rises (within the plausibility cap) over serial ticks, the bytes
    they charge to a name together are the difference between the last reading whose
    bill went through and the initial baseline, plus what failed bills had committed
    for the name before they failed; without such a commit, exactly the difference. *)
Theorem ticks_bill_exactly cap g n ticks rs t b :
  baseline t (g, n) = Some b →
  Forall (λ tk, NoDup tk.1.*1) ticks → Forall2 (λ tk r, (n, r) ∈ tk.1) ticks rs →
  StronglySorted Z.le (b :: rs) → (∀ r, r ∈ rs → cap = 0 ∨ r - b ≤ cap) →
  let '(out, t') := run_ticks cap g ticks t in
  let e := last_billed b ticks rs in
  let twice := charged_by_failures n b ticks rs in
  charged n out = (e - b) + twice ∧ baseline t' (g, n) = Some e ∧ b ≤ e ∧ 0 ≤ twice
  ∧ (Forall (λ tk, ∀ written, tk.2 = FailedAfter written → written n = false) ticks → twice = 0).
Proof.
  revert rs t b. induction ticks as [|[tr bl] ticks IH]; intros rs t b Hb Hnd Hrs Hs Hc;
    inversion Hrs as [|? r ? rs' Hin Hrs']; subst; cbn [run_ticks].
  { cbn. unfold charged. autorewrite with sumZ. split_and!; (done || lia). }
  inversion Hnd as [|? ? Hnd1 Hnd']; subst. apply StronglySorted_inv in Hs as [Hs Hall].
  inversion Hall as [|? ? Hr Hall']; subst. apply StronglySorted_inv in Hs as [Hs Hall2].
  pose proof (usage_tick_rising cap g tr bl t n b r Hb Hnd1 Hin Hr
    (Hc r (list_elem_of_here _ _))) as Ht.
  destruct (usage_tick cap g tr bl t) as [out t1]. destruct Ht as [Hch Hb1].
  specialize (IH rs' t1 _ Hb1 Hnd' Hrs').
  assert (Hs1 : StronglySorted Z.le ((if through bl then r else b) :: rs'))
    by (destruct bl; by constructor).
  specialize (IH Hs1).
  assert (Hc1 : ∀ r', r' ∈ rs' → cap = 0 ∨ r' - (if through bl then r else b) ≤ cap).
  { intros r' Hr'. destruct (Hc r') as [?|?]; [by constructor|by left|right].
    destruct bl; cbn; lia. }
  specialize (IH Hc1). destruct (run_ticks cap g ticks t1) as [more t2].
  cbv zeta in IH |- *. destruct IH as (H1 & H2 & H3 & H4 & H5). rewrite charged_app, Hch, H1.
  cbn [last_billed charged_by_failures snd]. destruct bl as [|written]; cbn [through] in *.
  - split_and!; [lia|done|lia|lia|]. intros [_ Hf]%Forall_cons. by apply H5.
  - assert (0 ≤ if written n then r - b else 0) by (destruct (written n); lia).
    split_and!; [lia|done|lia|lia|]. intros [Hw Hf]%Forall_cons. rewrite (Hw written eq_refl), H5 by done. done.
Qed.

(** The second bill fails before the user's chunk, the third after it. *)
Lemma ticks_bill_exactly_witness :
  let ticks := [([("u"%string, 150)], Billed); ([("u"%string, 180)], FailedAfter (λ _, false));
                ([("u"%string, 190)], FailedAfter (λ _, true)); ([("u"%string, 200)], Billed)] in
  let t := mkTracker {[ (Some 3, "u"%string) := 100 ]} None in
  charged "u" (run_ticks 1000 (Some 3) ticks t).1 = 100 + 40.
Proof.
  pose proof (ticks_bill_exactly 1000 (Some 3) "u" [([("u"%string, 150)], Billed);
    ([("u"%string, 180)], FailedAfter (λ _, false)); ([("u"%string, 190)], FailedAfter (λ _, true));
    ([("u"%string, 200)], Billed)] [150; 180; 190; 200]
    (mkTracker {[ (Some 3, "u"%string) := 100 ]} None) 100 eq_refl) as H.
  cbv zeta. destruct (run_ticks _ _ _ _) as [out t']. apply H.
  - repeat constructor; apply not_elem_of_nil.
  - repeat constructor.
  - repeat constructor; lia.
  - intros r Hr. right. repeat (apply elem_of_cons in Hr as [->|Hr]; [lia|]).
    by apply elem_of_nil in Hr.
Defined.

(** The job collects the next tick while the previous one is still being
    billed, and both count from the same committed baseline: the bytes of the
    first interval are charged twice, although both bills succeed and the
    baseline ends at the last reading. *)
Theorem overlapping_ticks_bill_twice cap g n tr1 tr2 t b r1 r2 :
  baseline t (g, n) = Some b → NoDup tr1.*1 → NoDup tr2.*1 →
  (n, r1) ∈ tr1 → (n, r2) ∈ tr2 → b ≤ r1 → r1 ≤ r2 → (cap = 0 ∨ r2 - b ≤ cap) →
  let '(out1, pend1, t1) := peek_deltas cap g tr1 t in
  let '(out2, pend2, t2) := peek_deltas cap g tr2 t1 in
  let t' := commit_pending pend2 (commit_pending pend1 t2) in
  charged n (out1 ++ out2) = (r2 - b) + (r1 - b) ∧ baseline t' (g, n) = Some r2.
Proof.
  intros Hb Hn1 Hn2 H1 H2 Hr1 Hr2 Hc.
  pose proof (peek_deltas_spec cap g tr1 t n r1 Hn1 H1) as P1.
  destruct (peek_deltas cap g tr1 t) as [[out1 pend1] t1]. destruct P1 as (Hc1 & _ & Hb1).
  rewrite Hb in Hc1, Hb1. destruct (delta_of_rising cap b r1) as [Hd1 Ha1]; [done|lia|].
  pose proof (peek_deltas_spec cap g tr2 t1 n r2 Hn2 H2) as P2.
  destruct (peek_deltas cap g tr2 t1) as [[out2 pend2] t2]. destruct P2 as (Hc2 & Hp2 & _).
  rewrite Hb1, Ha1 in Hc2. destruct (delta_of_rising cap b r2) as [Hd2 _]; [lia|done|].
  cbv zeta. rewrite charged_app, Hc1, Hc2, Hd1, Hd2, commit_pending_spec, Hp2.
  split; [lia|done].
Qed.

Lemma overlapping_ticks_bill_twice_witness :
  let t := mkTracker {[ (Some 3, "u"%string) := 100 ]} None in
  let '(out1, _, t1) := peek_deltas 1000 (Some 3) [("u"%string, 150)] t in
  let '(out2, _, _) := peek_deltas 1000 (Some 3) [("u"%string, 200)] t1 in
  charged "u" (out1 ++ out2) = 150.
Proof.
  pose proof (overlapping_ticks_bill_twice 1000 (Some 3) "u" [("u"%string, 150)] [("u"%string, 200)]
    (mkTracker {[ (Some 3, "u"%string) := 100 ]} None) 100 150 200 eq_refl) as H.
  cbv zeta. destruct (peek_deltas _ _ _ (mkTracker _ _)) as [[out1 pend1] t1].
  destruct (peek_deltas _ _ _ t1) as [[out2 pend2] t2]. apply H; try lia.
  - repeat constructor; apply not_elem_of_nil.
  - repeat constructor; apply not_elem_of_nil.
  - constructor.
  - constructor.
Defined.

End BaselineFacts.
