(* ===== verification/Users.v ===== *)
(** * Users: data limits, quota states and the lifecycle of a user row

    [app/quota.py] (the per-user helpers) and the row operations of
    [app/db/crud.py] that move a user between statuses.  A function that
    mutates the ORM object [dbuser] is a function returning the new row; [now]
    is the value of [datetime.utcnow()] during the call. *)
From S2P Require Import Prelude Store.

(** A fresh active account, the base of the concrete examples. *)
Definition sample_user : User := mkUser "alice" active 0 0 0 0 None None None None
  None None None 0 None false None None None None None None None [] "live" None None
  "no_reset" None None.

(** Live-path calls issued by row operations (network I/O, run after commit). *)
Inductive live_call := DisconnectUser (username : string).

Module Quota.

Definition quota_exhausted (u : User) : bool :=
  if pos_limit (u_data_limit u) then or0 (u_data_limit u) <=? u_used_traffic u
  else false.

Definition reactivate_if_quota_available (now : Z) (u : User) : bool * User :=
  if negb (status_eqb (u_status u) limited) || quota_exhausted u then (false, u)
  else if 0 <? u_overage_traffic u then (false, u)
  else (true, u <| u_status := active |> <| u_last_status_change := Some now |>).

Definition apply_overage_on_recharge (u : User) (new_data_limit : option Z) : User :=
  let overage := u_overage_traffic u in
  if overage <=? 0 then u
  else if negb (pos_limit new_data_limit) then
    u <| u_used_traffic := u_used_traffic u + overage |> <| u_overage_traffic := 0 |>
  else
    let limit := or0 new_data_limit in
    let total_consumed := u_used_traffic u + overage in
    u <| u_used_traffic := Z.min total_consumed limit |>
      <| u_overage_traffic := Z.max 0 (total_consumed - limit) |>.

Definition remaining_traffic (u : User) : option Z :=
  if pos_limit (u_data_limit u)
  then Some (Z.max 0 (or0 (u_data_limit u) - u_used_traffic u))
  else None.

Definition clamp_usage_delta (used : Z) (limit : option Z) (delta : Z) : Z :=
  if negb (pos_limit limit) || (delta <=? 0) then Z.max 0 delta
  else
    let remaining := Z.max 0 (or0 limit - used) in
    Z.min delta remaining.

Definition enforce_usage_cap (u : User) : bool * User :=
  if negb (pos_limit (u_data_limit u)) then (false, u)
  else
    let capped := Z.min (u_used_traffic u) (or0 (u_data_limit u)) in
    if capped =? u_used_traffic u then (false, u)
    else (true, u <| u_used_traffic := capped |>).

(** [crud.update_user_status] *)
Definition update_user_status (now : Z) (st : UserStatus) (u : User) : User :=
  let u := u <| u_status := st |> in
  let u := if status_in st [disabled; expired; limited]
           then u <| u_online_at := None |> else u in
  u <| u_last_status_change := Some now |>.

Definition limit_user_quota (now : Z) (cap_usage disconnect : bool) (u : User)
    : bool * list live_call * User :=
  let u := if cap_usage then (enforce_usage_cap u).2 else u in
  if negb (status_eqb (u_status u) active) then (false, [], u)
  else if negb (truthy (u_data_limit u)) || (u_used_traffic u <? or0 (u_data_limit u))
  then (false, [], u)
  else
    let u := update_user_status now limited u in
    (true, (if disconnect then [DisconnectUser (u_username u)] else []), u).

(** [clamp_usage_entries]: entries are [(uid, value)], [rows] are
    [(uid, used, limit)]; a later row for the same uid wins, as in the dict. *)
Definition usage_meta (rows : list (Z * Z * option Z)) : gmap Z (Z * option Z) :=
  foldl (λ m '(uid, used, limit), <[uid := (used, limit)]> m) ∅ rows.

Definition clamp_usage_entries (users_usage : list (Z * Z))
    (rows : list (Z * Z * option Z)) : list (Z * Z) * list Z :=
  let meta := usage_meta rows in
  foldl (λ '(out, hit) '(uid, raw),
    let '(used, limit) := default (0, None) (meta !! uid) in
    let value := clamp_usage_delta used limit raw in
    let hit := if truthy limit && (0 <? value) && (or0 limit <=? used + value)
               then hit ++ [uid] else hit in
    let out := if 0 <? value then out ++ [(uid, value)] else out in
    (out, hit)) ([], []) users_usage.

End Quota.

Module Lifecycle.
Import Quota.

(** What [crud.reset_user_data_usage] does to the row. *)
Definition reset_user_row (now : Z) (u : User) : User :=
  let u := u <| u_usage_logs := u_usage_logs u ++ [u_used_traffic u] |>
             <| u_last_reset_at := Some now |> in
  let u := u <| u_used_traffic := 0 |> <| u_used_traffic_up := 0 |>
             <| u_used_traffic_down := 0 |> <| u_overage_traffic := 0 |> in
  let u := if status_in (u_status u) [expired; disabled] then u
           else u <| u_status := active |> in
  u <| u_next_plan := None |>.

(** [dbuser.node_usages.clear()]: the relation deletes its orphans, so the hourly rows
    of the user go. *)
Definition clear_node_usages (uid : Z) (d : DB) : DB :=
  d <| node_user_usages := filter (λ r, nu_user_id r ≠ uid) (node_user_usages d) |>.

(** [crud.reset_user_data_usage], committed *)
Definition reset_user_data_usage (now uid : Z) (d : DB) : DB :=
  clear_node_usages uid (update_user_row uid (reset_user_row now) d).

(** What [crud.reset_user_by_next] does to the row: [None] is the early [return]; a row
    whose [data_limit] is NULL makes the subtraction raise [TypeError] unless
    [add_remaining_traffic] skips it. *)
Definition next_plan_row (now : Z) (u : User) : result (option User) :=
  match u_next_plan u with
  | None => Ok None
  | Some np =>
      let u1 := u <| u_usage_logs := u_usage_logs u ++ [u_used_traffic u] |>
                  <| u_last_reset_at := Some now |> <| u_status := active |> in
      let carry := if np_add_remaining_traffic np then Ok 0
                   else match u_data_limit u with
                        | None => Raise TypeError
                        | Some dl => Ok (dl - u_used_traffic u)
                        end in
      match carry with
      | Raise e => Raise e
      | Ok c =>
          let u2 := u1 <| u_data_limit := Some (np_data_limit np + c) |> in
          let u3 := u2 <| u_expire := if truthy (np_expire np)
                                      then Some (now + or0 (np_expire np)) else None |> in
          Ok (Some (u3 <| u_used_traffic := 0 |> <| u_used_traffic_up := 0 |>
                       <| u_used_traffic_down := 0 |> <| u_overage_traffic := 0 |>
                       <| u_next_plan := None |>))
      end
  end.

(** [crud.reset_user_by_next] of a stored user, committed; a raise leaves the database
    as it was. *)
Definition reset_user_by_next (now uid : Z) (u : User) (d : DB) : result DB :=
  match next_plan_row now u with
  | Ok (Some u') => Ok (clear_node_usages uid (d <| users := <[uid := u']> (users d) |>))
  | Ok None => Ok d
  | Raise e => Raise e
  end.

(** [crud.start_user_expire]: [int + None] raises. *)
Definition start_user_expire (now : Z) (u : User) : result User :=
  match u_on_hold_expire_duration u with
  | None => Raise TypeError
  | Some dur =>
      Ok (u <| u_expire := Some (now + dur) |>
            <| u_on_hold_expire_duration := None |> <| u_on_hold_timeout := None |>)
  end.

(** [crud.reset_all_users_data_usage], [disable_all_active_users],
    [activate_all_disabled_users] on one selected row. *)
Definition reset_all_row (u : User) : User :=
  let u := u <| u_used_traffic := 0 |> <| u_used_traffic_up := 0 |>
             <| u_used_traffic_down := 0 |> <| u_overage_traffic := 0 |> in
  let u := if status_in (u_status u) [on_hold; expired; disabled]
           then u else u <| u_status := active |> in
  u <| u_usage_logs := [] |> <| u_last_reset_at := None |> <| u_next_plan := None |>.

Definition owned_by (admin : option Z) (u : User) : bool :=
  match admin with None => true | Some a => bool_decide (u_admin_id u = Some a) end.

Definition reset_all_users_data_usage (admin : option Z) (d : DB) : DB :=
  d <| users := (λ u, if owned_by admin u then reset_all_row u else u) <$> users d |>
    <| node_user_usages := filter (λ r,
         from_option (owned_by admin) false (users d !! nu_user_id r) = false) (node_user_usages d) |>.

Definition disable_all_active_users (now : Z) (admin : option Z) (d : DB) : DB :=
  d <| users := (λ u,
    if status_in (u_status u) [active; on_hold] && owned_by admin u
    then u <| u_status := disabled |> <| u_last_status_change := Some now |> else u)
    <$> users d |>.

(** Two bulk UPDATEs in this order: the on-hold one first, then the active one
    on the rows still [disabled]. *)
Definition activate_all_disabled_users (now : Z) (admin : option Z) (d : DB) : DB :=
  let to_on_hold u :=
    if status_eqb (u_status u) disabled && is_none (u_expire u)
       && negb (is_none (u_on_hold_expire_duration u))
       && is_none (u_online_at u) && owned_by admin u
    then u <| u_status := on_hold |> <| u_last_status_change := Some now |> else u in
  let to_active u :=
    if status_eqb (u_status u) disabled && owned_by admin u
    then u <| u_status := active |> <| u_last_status_change := Some now |> else u in
  let d := d <| users := to_on_hold <$> users d |> in
  d <| users := to_active <$> users d |>.

(** [crud.autodelete_expired_users]: the rows it removes.  A NULL
    [last_status_change] makes the comparison raise in the source; such a row
    is reported as [None]. *)
Definition autodelete_due (now global_days : Z) (include_limited : bool)
    (auto_delete_in_days : option Z) (u : User) : option bool :=
  let days := default global_days auto_delete_in_days in
  if (0 <=? days) && (status_eqb (u_status u) expired
       || (include_limited && status_eqb (u_status u) limited))
  then match u_last_status_change u with
       | None => None
       | Some t => Some (t + days * 86400 <=? now)
       end
  else Some false.

(** The fields of [UserModify] that drive limits and status.  [md_device_limit]
    and the speed limits are [None] when the field is absent from
    [model_fields_set]. *)
Record UserModify := mkUserModify {
  md_status : option UserStatus;
  md_data_limit : option Z;
  md_expire : option Z;
  md_on_hold_expire_duration : option Z;
  md_on_hold_timeout : option Z;
  md_next_plan : option NextPlan;
  md_device_limit : option (option Z);
  md_speed_limit_up : option (option Z);
  md_speed_limit_down : option (option Z) }.

(** [crud.update_user], the status part: an explicit status is stored, ends the
    session of a blocked account and clears the on-hold timer. *)
Definition update_user_explicit_status (now : Z) (m : UserModify) (u : User) : bool * User :=
  match md_status m with
  | None => (false, u)
  | Some st =>
      let u := u <| u_status := st |> in
      let cut := status_in st [disabled; expired; limited] in
      let u := if cut then u <| u_online_at := None |> else u in
      let u := if negb (status_eqb st on_hold) then
          let u := if is_none (md_on_hold_expire_duration m)
                   then u <| u_on_hold_expire_duration := None |> else u in
          if is_none (md_on_hold_timeout m)
          then u <| u_on_hold_timeout := None |> else u
        else u in
      (cut, u <| u_last_status_change := Some now |>)
  end.

(** [crud.update_user], the data-limit part (a recharge): the new limit absorbs
    the overage and caps the counter, ... *)
Definition recharge_usage (dl : Z) (u : User) : User :=
  let u := u <| u_data_limit := or_none (Some dl) |> in
  match or_none (Some dl) with
  | Some lim =>
      let u := apply_overage_on_recharge u (Some lim) in
      if lim <? u_used_traffic u then u <| u_used_traffic := lim |> else u
  | None => apply_overage_on_recharge u (Some 0)
  end.

(** ... then, without an explicit status, the status follows the quota. *)
Definition recharge_status (needs_disconnect : bool) (u : User) : bool * User :=
  if negb (truthy (u_data_limit u)) || (u_used_traffic u <? or0 (u_data_limit u)) then
    (needs_disconnect,
     if negb (status_eqb (u_status u) on_hold) then u <| u_status := active |> else u)
  else (true, u <| u_status := limited |>).

Definition update_user_data_limit (m : UserModify) (needs_disconnect : bool) (u : User)
    : bool * User :=
  match md_data_limit m with
  | None => (needs_disconnect, u)
  | Some dl =>
      let u := recharge_usage dl u in
      if is_none (md_status m) && negb (status_in (u_status u) [expired; disabled])
      then recharge_status needs_disconnect u
      else (needs_disconnect, u)
  end.

(** [crud.update_user], the expiry part. *)
Definition update_user_expire (now : Z) (m : UserModify) (u : User) : User :=
  match md_expire m with
  | None => u
  | Some e =>
      let u := u <| u_expire := or_none (Some e) |> in
      if is_none (md_status m)
         && status_in (u_status u) [active; expired] then
        if negb (truthy (u_expire u)) || (now <? or0 (u_expire u))
        then u <| u_status := active |> else u <| u_status := expired |>
      else u
  end.

(** [crud.update_user], the remaining limit fields and the final status pass. *)
Definition update_user_finish (now : Z) (m : UserModify) (needs_disconnect : bool) (u : User)
    : bool * User :=
  let u := if_some (md_on_hold_timeout m) (λ t u, u <| u_on_hold_timeout := Some t |>) u in
  let u := if_some (md_on_hold_expire_duration m)
             (λ t u, u <| u_on_hold_expire_duration := Some t |>) u in
  let u := u <| u_next_plan := md_next_plan m |> in
  let u := if_some (md_device_limit m) (λ v u, u <| u_device_limit := or_none v |>) u in
  let u := if_some (md_speed_limit_up m) (λ v u, u <| u_speed_limit_up := or_none v |>) u in
  let u := if_some (md_speed_limit_down m) (λ v u, u <| u_speed_limit_down := or_none v |>) u in
  let u := u <| u_edit_at := Some now |> in
  let u := if bool_decide (md_status m ≠ Some limited) || negb (is_none (md_data_limit m))
           then (reactivate_if_quota_available now u).2 else u in
  (if status_eqb (u_status u) active then false else needs_disconnect, u).

Definition update_user (now : Z) (m : UserModify) (u : User) : bool * User :=
  let '(nd, u) := update_user_explicit_status now m u in
  let '(nd, u) := update_user_data_limit m nd u in
  let u := update_user_expire now m u in
  update_user_finish now m nd u.

(** [User.lifetime_used_traffic] *)
Definition lifetime_used_traffic (u : User) : Z :=
  sumZ (λ x, x) (u_usage_logs u) + u_used_traffic u.

(** [crud.reset_admin_usage] *)
Definition reset_admin_usage (a : Admin) : Admin :=
  if a_users_usage a =? 0 then a else a <| a_users_usage := 0 |>.

End Lifecycle.

(** ** Properties of the quota helpers *)
Module QuotaFacts.
Import Quota Lifecycle.

Lemma pos_limit_Some o : pos_limit o = true ↔ ∃ l, o = Some l ∧ 0 < l.
Proof. destruct o as [l|]; cbn; split; intros H; naive_solver lia. Qed.

Lemma quota_exhausted_true u :
  quota_exhausted u = true ↔
  ∃ l, u_data_limit u = Some l ∧ 0 < l ∧ l ≤ u_used_traffic u.
Proof.
  unfold quota_exhausted. destruct (u_data_limit u) as [l|]; cbn; [|naive_solver].
  destruct (Z.ltb_spec 0 l); split; intros H0; [exists l|..]; naive_solver lia.
Qed.

(** For a finite limit the billed part of a delta is between 0 and the delta,
    never moves the counter past the limit, and is the whole delta unless the
    limit is reached exactly. *)
Lemma clamp_bounds (used l delta : Z) :
  0 < l → used ≤ l →
  let r := clamp_usage_delta used (Some l) delta in
  0 ≤ r ∧ r ≤ Z.max 0 delta ∧ used + r ≤ l ∧ (r = Z.max 0 delta ∨ used + r = l).
Proof.
  intros Hl Hu. cbn. unfold clamp_usage_delta; cbn.
  destruct (Z.ltb_spec 0 l); [|lia]. destruct (Z.leb_spec delta 0); cbn; lia.
Qed.

Lemma clamp_nonneg used limit delta : 0 ≤ clamp_usage_delta used limit delta.
Proof. unfold clamp_usage_delta. repeat split_match; lia. Qed.

(** The fold as two independent passes over the entries. *)
Definition entry_value (meta : gmap Z (Z * option Z)) (e : Z * Z) : Z :=
  let '(used, limit) := default (0, None) (meta !! e.1) in
  clamp_usage_delta used limit e.2.
Definition entry_hits (meta : gmap Z (Z * option Z)) (e : Z * Z) : bool :=
  let '(used, limit) := default (0, None) (meta !! e.1) in
  truthy limit && (0 <? entry_value meta e) && (or0 limit <=? used + entry_value meta e).

Lemma clamp_usage_entries_passes us rows :
  clamp_usage_entries us rows =
  (omap (λ e, if 0 <? entry_value (usage_meta rows) e
              then Some (e.1, entry_value (usage_meta rows) e) else None) us,
   omap (λ e, if entry_hits (usage_meta rows) e then Some e.1 else None) us).
Proof.
  unfold clamp_usage_entries. set (meta := usage_meta rows). clearbody meta.
  match goal with |- foldl ?f _ _ = (omap ?g _, omap ?h _) =>
    enough (H : ∀ out hit, foldl f (out, hit) us = (out ++ omap g us, hit ++ omap h us))
      by (rewrite H; done) end.
  induction us as [|[uid raw] us IH]; intros out hit; cbn.
  { by rewrite !app_nil_r. }
  unfold entry_hits, entry_value; cbn.
  destruct (default (0, None) (meta !! uid)) as [used limit] eqn:E; cbn.
  rewrite IH. destruct (0 <? clamp_usage_delta used limit raw); cbn;
    destruct (truthy limit); cbn; try destruct (or0 limit <=? _); cbn;
    by rewrite <-?(assoc_L (++)).
Qed.

Lemma usage_meta_lookup rows uid used limit :
  (uid, used, limit) ∈ rows → NoDup (rows.*1.*1) →
  usage_meta rows !! uid = Some (used, limit).
Proof.
  unfold usage_meta.
  enough (H : ∀ m, (uid, used, limit) ∈ rows → NoDup (rows.*1.*1) →
    foldl (λ m '(uid, used, limit), <[uid := (used, limit)]> m) m rows !! uid
    = Some (used, limit)) by apply H.
  assert (Hne : ∀ l m, uid ∉ l.*1.*1 →
    foldl (λ m '(uid, used, limit), <[uid := (used, limit)]> m) m l !! uid
    = (m : gmap Z (Z * option Z)) !! uid).
  { induction l as [|[[x y] z] l IH]; intros m Hn; cbn in *; [done|].
    rewrite not_elem_of_cons in Hn. rewrite IH by naive_solver.
    by rewrite lookup_insert_ne by naive_solver. }
  induction rows as [|[[x y] z] rows IH]; intros m Hin Hnd; [by apply elem_of_nil in Hin|].
  cbn in *. apply NoDup_cons in Hnd as [Hx Hnd].
  apply elem_of_cons in Hin as [[= <- <- <-]|Hin].
  - rewrite Hne by done. by rewrite lookup_insert_eq.
  - by apply IH.
Qed.

(** Clamping a tick: for distinct reporting users and one row per user, the
    bytes billed to a capped user keep its counter within the limit, every
    billed value is positive, and the users reported as having hit the limit
    are exactly those whose counter the tick takes to the limit. *)
Theorem clamp_usage_entries_respects_limits us rows uid used l :
  NoDup (us.*1) → NoDup (rows.*1.*1) → (uid, used, Some l) ∈ rows → 0 < l → used ≤ l →
  let '(out, hit) := clamp_usage_entries us rows in
  (∀ v, (uid, v) ∈ out → 0 < v ∧ used + v ≤ l) ∧
  (uid ∈ hit ↔ ∃ v, (uid, v) ∈ out ∧ used + v = l).
Proof.
  intros Hus Hrows Hin Hl Hused. rewrite clamp_usage_entries_passes.
  pose proof (usage_meta_lookup _ _ _ _ Hin Hrows) as Hm.
  set (meta := usage_meta rows) in *. clearbody meta.
  assert (Hv : ∀ raw, entry_value meta (uid, raw) = clamp_usage_delta used (Some l) raw)
    by (intros raw; unfold entry_value; cbn; by rewrite Hm).
  assert (Hh : ∀ raw, entry_hits meta (uid, raw) =
    (0 <? clamp_usage_delta used (Some l) raw)
    && (l <=? used + clamp_usage_delta used (Some l) raw)).
  { intros raw. unfold entry_hits. cbn. rewrite Hm. cbn. rewrite !Hv.
    destruct (Z.eqb_spec l 0); [lia|done]. }
  split.
  - intros v Hout. apply list_elem_of_omap in Hout as ([u raw] & Hu & Hs). cbn in Hs.
    destruct (0 <? _) eqn:E; [|done]. injection Hs as -> <-. rewrite Hv in E |- *.
    pose proof (clamp_bounds used l raw Hl Hused). cbn in H. lia.
  - rewrite list_elem_of_omap. split.
    + intros ([u raw] & Hu & Hs). destruct (entry_hits _ _) eqn:E; [|done].
      injection Hs as ->. rewrite Hh in E.
      exists (clamp_usage_delta used (Some l) raw).
      pose proof (clamp_bounds used l raw Hl Hused). cbn in H. split; [|lia].
      apply list_elem_of_omap. exists (uid, raw). split; [done|]. cbn. rewrite Hv.
      destruct (0 <? _) eqn:E2; [done|lia].
    + intros (v & Hout & Hsum). apply list_elem_of_omap in Hout as ([u raw] & Hu & Hs).
      cbn in Hs. destruct (0 <? _) eqn:E; [|done]. injection Hs as -> <-.
      exists (uid, raw). split; [done|]. rewrite Hh. rewrite Hv in *.
      destruct (_ && _) eqn:E2; [done|]. cbn. lia.
Qed.

Lemma clamp_usage_entries_respects_limits_witness :
  let '(out, hit) := clamp_usage_entries [(7, 50); (8, 5)] [(7, 80, Some 100); (8, 0, None)] in
  (∀ v, (7, v) ∈ out → 0 < v ∧ 80 + v ≤ 100) ∧
  (7 ∈ hit ↔ ∃ v, (7, v) ∈ out ∧ 80 + v = 100).
Proof.
  apply (clamp_usage_entries_respects_limits
    [(7, 50); (8, 5)] [(7, 80, Some 100); (8, 0, None)] 7 80 100).
  - cbn. apply (bool_decide_unpack _). vm_compute. exact I.
  - cbn. apply (bool_decide_unpack _). vm_compute. exact I.
  - constructor.
  - lia.
  - lia.
Defined.

(** Recharging applies every byte consumed past the old limit exactly once:
    used and overage together are conserved, the counter ends within the new
    finite limit, and what does not fit stays as overage. *)
Theorem apply_overage_conserves u new_limit :
  0 ≤ u_used_traffic u →
  let u' := apply_overage_on_recharge u new_limit in
  (0 < u_overage_traffic u →
   u_used_traffic u' + u_overage_traffic u' = u_used_traffic u + u_overage_traffic u ∧
   0 ≤ u_overage_traffic u' ∧
   (∀ l, new_limit = Some l → 0 < l → u_used_traffic u' ≤ l ∧
     (0 < u_overage_traffic u' → u_used_traffic u' = l))) ∧
  (u_overage_traffic u ≤ 0 → u' = u).
Proof.
  intros Hu. cbn. unfold apply_overage_on_recharge.
  destruct (Z.leb_spec (u_overage_traffic u) 0); [split; [lia|done]|].
  split; [intros _|lia]. destruct (pos_limit new_limit) eqn:E; cbn.
  - apply pos_limit_Some in E as (l & -> & Hl). cbn.
    repeat split; intros; simplify_eq; lia.
  - repeat split; intros; simplify_eq; cbn in E; lia.
Qed.

Lemma apply_overage_conserves_witness :
  ∃ u, u_used_traffic u = 80 ∧ u_overage_traffic u = 30 ∧
  u_used_traffic (apply_overage_on_recharge u (Some 100)) +
  u_overage_traffic (apply_overage_on_recharge u (Some 100)) = 110.
Proof.
  exists (sample_user <| u_used_traffic := 80 |> <| u_overage_traffic := 30 |>).
  split; [reflexivity|]. split; [reflexivity|].
  refine (proj1 (proj1 (apply_overage_conserves
    (sample_user <| u_used_traffic := 80 |> <| u_overage_traffic := 30 |>) (Some 100) _) _));
  cbn; lia.
Defined.

(** A status change leaves the counters and limits alone. *)
Lemma update_user_status_frame now st u :
  update_user_status now st u =
  u <| u_status := st |>
    <| u_online_at := if status_in st [active; on_hold] then u_online_at u else None |>
    <| u_last_status_change := Some now |>.
Proof. by destruct st. Qed.

(** Quota status does not flap: a user the review reactivates is not due for
    limiting again, and a user that was just limited is not reactivated. *)
Theorem quota_status_stable now c dc u :
  0 ≤ or0 (u_data_limit u) →
  ((reactivate_if_quota_available now u).1 = true →
   let u' := (reactivate_if_quota_available now u).2 in
   u_status u' = active ∧ limit_user_quota now c dc u' = (false, [], u')) ∧
  ((limit_user_quota now c dc u).1.1 = true →
   let u' := (limit_user_quota now c dc u).2 in
   u_status u' = limited ∧ reactivate_if_quota_available now u' = (false, u')).
Proof.
  intros Hdl. split.
  - unfold reactivate_if_quota_available.
    destruct (negb (status_eqb (u_status u) limited) || quota_exhausted u) eqn:E; [done|].
    destruct (0 <? u_overage_traffic u); [done|]. intros _. split; [done|]. boolp.
    assert (Hq : ∀ l, u_data_limit u = Some l → l = 0 ∨ u_used_traffic u < l).
    { intros l Hl. rewrite Hl in Hdl. cbn in Hdl.
      destruct (decide (l ≤ u_used_traffic u ∧ 0 < l)) as [[]|]; [|lia].
      rewrite (proj2 (quota_exhausted_true u)) in *; naive_solver. }
    unfold limit_user_quota, enforce_usage_cap; cbn.
    destruct (u_data_limit u) as [l|]; cbn in *; [|by destruct c].
    specialize (Hq l eq_refl). destruct (Z.ltb_spec 0 l); cbn.
    + destruct (Z.eqb_spec (Z.min (u_used_traffic u) l) (u_used_traffic u)); [|lia].
      destruct c; cbn; destruct (Z.eqb_spec l 0); cbn; try lia;
      destruct (Z.ltb_spec (u_used_traffic u) l); cbn; (lia || done).
    + assert (l = 0) as -> by lia. by destruct c.
  - unfold limit_user_quota. intros H.
    set (v := if c then (enforce_usage_cap u).2 else u) in *.
    assert (Hv : u_data_limit v = u_data_limit u).
    { subst v. unfold enforce_usage_cap. destruct c; [|done]. by repeat split_match. }
    destruct (negb (status_eqb (u_status v) active)) eqn:E1; cbn in H; [done|].
    destruct (negb (truthy (u_data_limit v)) || _) eqn:E2; cbn in H; [done|]. boolp.
    rewrite update_user_status_frame. cbn -[reactivate_if_quota_available].
    split; [done|]. unfold reactivate_if_quota_available.
    rewrite (proj2 (quota_exhausted_true _)); [done|]. cbn. rewrite Hv in *.
    destruct (u_data_limit u) as [l|]; cbn in *; [|done]. boolp.
    exists l. split; [done|]. lia.
Qed.

Lemma quota_status_stable_witness :
  let u := sample_user <| u_status := limited |> <| u_data_limit := Some 10 |> in
  limit_user_quota 5 true true (reactivate_if_quota_available 5 u).2
  = (false, [], (reactivate_if_quota_available 5 u).2).
Proof.
  refine (proj2 (proj1 (quota_status_stable 5 true true
    (sample_user <| u_status := limited |> <| u_data_limit := Some 10 |>) _) _));
  [cbn; lia | vm_compute; reflexivity].
Defined.

End QuotaFacts.

Module LifecycleFacts.
Import Quota Lifecycle QuotaFacts.

(** A usage reset archives the counter: lifetime usage is unchanged, the
    counters are zero, the row is no longer over quota, and an expired or
    disabled account keeps its status. *)
Theorem reset_user_data_usage_archives now u :
  let u' := reset_user_row now u in
  lifetime_used_traffic u' = lifetime_used_traffic u ∧
  u_used_traffic u' = 0 ∧ u_overage_traffic u' = 0 ∧
  quota_exhausted u' = false ∧ u_next_plan u' = None ∧
  u_status u' = (match u_status u with expired => expired | disabled => disabled
                                     | _ => active end).
Proof.
  cbn. assert (Hq : quota_exhausted (reset_user_row now u) = false).
  { apply not_true_is_false. rewrite quota_exhausted_true.
    unfold reset_user_row; cbn. destruct (u_status u); cbn; naive_solver lia. }
  rewrite Hq. unfold reset_user_row, lifetime_used_traffic.
  destruct u as [un []]; cbn; autorewrite with sumZ; repeat split; first [done | lia].
Qed.

(** *** Node usage rows *)
Lemma rows_of_nobody (rows : list NodeUserUsage) :
  filter (λ r, nu_user_id r ∉ ([] : list Z)) rows = rows.
Proof.
  induction rows as [|r rows IH]; [done|]. rewrite filter_cons_True by apply not_elem_of_nil. by rewrite IH.
Qed.

Lemma clear_all_frame ids d :
  foldl (λ d uid, clear_node_usages uid d) d ids
  = d <| node_user_usages := filter (λ r, nu_user_id r ∉ ids) (node_user_usages d) |>.
Proof.
  revert d. induction ids as [|i ids IH]; intros d; cbn [foldl].
  - rewrite rows_of_nobody. by destruct d.
  - rewrite IH. unfold clear_node_usages. cbn. f_equal.
    rewrite list_filter_filter. apply list_filter_iff. intros r. cbn. rewrite not_elem_of_cons. naive_solver.
Qed.

(** A run of resets over distinct users. *)
Lemma reset_each now (l : list (Z * User)) d : NoDup l.*1 →
  let d' := foldl (λ d p, reset_user_data_usage now p.1 d) d l in
  (∀ j, users d' !! j = (λ u, if bool_decide (j ∈ l.*1) then reset_user_row now u else u) <$> users d !! j)
  ∧ d' = d <| users := users d' |>
           <| node_user_usages := filter (λ r, nu_user_id r ∉ l.*1) (node_user_usages d) |>.
Proof.
  cbv zeta. revert d. induction l as [|[i v] l IH]; intros d Hnd; cbn [foldl fst].
  - split; [intros j; rewrite bool_decide_false by apply not_elem_of_nil; by destruct (users d !! j)|].
    rewrite rows_of_nobody. by destruct d.
  - cbn in Hnd. apply NoDup_cons in Hnd as [Hi Hnd]. destruct (IH (reset_user_data_usage now i d) Hnd) as [H1 H2].
    split.
    + intros j. rewrite H1. unfold reset_user_data_usage, clear_node_usages, update_user_row. cbn.
      rewrite lookup_alter. case_decide as Hj.
      * subst j. rewrite (bool_decide_true (i ∈ i :: _)) by constructor. rewrite bool_decide_false by done.
        by destruct (users d !! i).
      * assert (bool_decide (j ∈ i :: l.*1) = bool_decide (j ∈ l.*1)) as ->; [|done].
        apply bool_decide_ext. rewrite elem_of_cons. naive_solver.
    + rewrite H2 at 1. unfold reset_user_data_usage, clear_node_usages, update_user_row. cbn. f_equal.
      rewrite list_filter_filter. apply list_filter_iff. intros r. cbn. rewrite not_elem_of_cons. naive_solver.
Qed.

(** Activating the next plan: with [add_remaining_traffic] set the unused
    traffic of the old package is dropped, and with the flag unset it is added
    to the new limit, the reverse of what the flag's name says; on an account
    without a data limit the unset flag makes the operation raise. *)
Theorem reset_user_by_next_carry now u np :
  u_next_plan u = Some np →
  (np_add_remaining_traffic np = true →
   ∃ u', next_plan_row now u = Ok (Some u') ∧
         u_data_limit u' = Some (np_data_limit np)) ∧
  (np_add_remaining_traffic np = false → ∀ dl, u_data_limit u = Some dl →
   ∃ u', next_plan_row now u = Ok (Some u') ∧
         u_data_limit u' = Some (np_data_limit np + (dl - u_used_traffic u)) ∧
         lifetime_used_traffic u' = lifetime_used_traffic u) ∧
  (np_add_remaining_traffic np = false → u_data_limit u = None →
   next_plan_row now u = Raise TypeError).
Proof.
  intros Hnp. unfold next_plan_row. rewrite Hnp. repeat split; intros Hf.
  - rewrite Hf. eexists. split; [done|]. cbn. f_equal. lia.
  - intros dl Hdl. rewrite Hf, Hdl. eexists. split; [done|]. split; [done|].
    unfold lifetime_used_traffic. cbn. autorewrite with sumZ. lia.
  - intros Hdl. by rewrite Hf, Hdl.
Qed.

Lemma reset_user_by_next_carry_witness :
  let np := mkNextPlan 100 None false true in
  next_plan_row 5 (sample_user <| u_next_plan := Some np |>) = Raise TypeError.
Proof.
  refine (proj2 (proj2 (reset_user_by_next_carry 5
    (sample_user <| u_next_plan := Some (mkNextPlan 100 None false true) |>)
    (mkNextPlan 100 None false true) _)) _ _); reflexivity.
Defined.

Lemma recharge_usage_caps dl u :
  0 < dl → u_data_limit (recharge_usage dl u) = Some dl ∧
           u_used_traffic (recharge_usage dl u) ≤ dl.
Proof.
  intros Hdl. unfold recharge_usage, or_none. destruct (Z.eqb_spec dl 0); [lia|].
  cbv zeta iota. set (v := apply_overage_on_recharge _ _).
  assert (Hv : u_data_limit v = Some dl).
  { subst v. unfold apply_overage_on_recharge. by repeat split_match. }
  destruct (Z.ltb_spec dl (u_used_traffic v)); cbn; rewrite ?Hv; split; (done || lia).
Qed.

Lemma recharge_usage_status dl u : u_status (recharge_usage dl u) = u_status u.
Proof.
  unfold recharge_usage, apply_overage_on_recharge. by repeat (split_match; cbn).
Qed.

Lemma data_limit_step_caps m nd u dl :
  md_data_limit m = Some dl → 0 < dl →
  let u' := (update_user_data_limit m nd u).2 in
  u_data_limit u' = Some dl ∧ u_used_traffic u' ≤ dl ∧
  (md_status m = None → u_status u' = active → u_used_traffic u' < dl).
Proof.
  intros Hm Hdl. unfold update_user_data_limit. rewrite Hm.
  destruct (recharge_usage_caps dl u Hdl) as [H1 H2].
  pose proof (recharge_usage_status dl u) as Hs.
  set (v := recharge_usage dl u) in *. clearbody v.
  unfold recharge_status. rewrite H1. cbn.
  destruct (md_status m), (u_status v) eqn:Est; cbn; rewrite ?H1, ?Est; cbn;
    try (split; [done|split; [lia|done]]);
    destruct (Z.eqb_spec dl 0); cbn; try lia;
    destruct (Z.ltb_spec (u_used_traffic v) dl); cbn; rewrite ?H1, ?Est; cbn;
    (split; [done|split; [lia|intros; (done || lia)]]).
Qed.

Lemma expire_step_frame now m u :
  let u' := update_user_expire now m u in
  u_data_limit u' = u_data_limit u ∧ u_used_traffic u' = u_used_traffic u.
Proof. unfold update_user_expire. cbn. by repeat split_match. Qed.

Lemma reactivate_frame {T} (p : User → T) now u :
  p (u <| u_status := active |> <| u_last_status_change := Some now |>) = p u →
  p (reactivate_if_quota_available now u).2 = p u.
Proof. intros H. unfold reactivate_if_quota_available. by repeat split_match. Qed.

Lemma finish_step_frame now m nd u :
  let u' := (update_user_finish now m nd u).2 in
  u_data_limit u' = u_data_limit u ∧ u_used_traffic u' = u_used_traffic u.
Proof.
  unfold update_user_finish. cbv zeta. cbn [snd].
  split; (rewrite if_frame; [|by apply reactivate_frame]);
    repeat (row_frame; rewrite if_some_frame by done); row_frame; done.
Qed.

(** Recharging through [update_user]: whatever else the edit changes, the
    stored limit is the requested one and the counter ends within it. *)
Theorem update_user_recharge_caps now m u dl :
  md_data_limit m = Some dl → 0 < dl →
  let u' := (update_user now m u).2 in
  u_data_limit u' = Some dl ∧ u_used_traffic u' ≤ dl.
Proof.
  intros Hm Hdl. unfold update_user.
  destruct (update_user_explicit_status now m u) as [nd1 u1].
  pose proof (data_limit_step_caps m nd1 u1 dl Hm Hdl) as (H1 & H2 & _).
  destruct (update_user_data_limit m nd1 u1) as [nd2 u2]. cbn in *.
  destruct (expire_step_frame now m u2) as [H3 H4].
  destruct (finish_step_frame now m nd2 (update_user_expire now m u2)) as [H5 H6].
  cbn in *. rewrite H5, H6, H3, H4. done.
Qed.

Lemma update_user_recharge_caps_witness :
  let m := mkUserModify None (Some 100) None None None None None None None in
  let u := sample_user <| u_used_traffic := 90 |> <| u_overage_traffic := 40 |> in
  u_used_traffic (update_user 5 m u).2 ≤ 100.
Proof.
  exact (proj2 (update_user_recharge_caps 5
    (mkUserModify None (Some 100) None None None None None None None)
    (sample_user <| u_used_traffic := 90 |> <| u_overage_traffic := 40 |>) 100
    eq_refl ltac:(lia))).
Defined.

End LifecycleFacts.
