(* ===== verification/RecordUsage.v ===== *)
(** * RecordUsage: what one usage tick writes

    The database side of [app/jobs/record_usages.py] and the batched writes of
    [app/db/usage_upsert.py]: per-user deltas of all cores and nodes are summed,
    clamped to the data limit, added to the user counters, to the reseller's
    metered usage and to the hourly node rows.  Collecting the deltas is network
    I/O; their baselines are in [Baselines].  Statements run one after another
    (the retries of [safe_execute] succeed); the per-protocol breakdown, an
    informational copy of the node rows, is left out. *)
From S2P Require Import Prelude Store Users.

Module RecordUsage.
Import Quota.

(** ** Deltas

    The Xray collector emits the user id as a string, the WireGuard and
    sing-box collectors as an integer: two keys of a Python dict, one user. *)
Record Uid := mkUid { uid_is_str : bool; uid_int : Z }.
#[export] Instance Uid_eq_dec : EqDecision Uid.
Proof. solve_decision. Defined.

Record Param := mkParam {
  pm_uid : Uid;
  pm_value : Z;
  pm_up : Z;     (* [param.get("up", 0)] *)
  pm_down : Z }.

(** [usage_coefficient], a float column, as the rational it stands for; products
    are taken exactly. *)
Record Coef := mkCoef { cf_num : Z; cf_den : Z }.

(** [int(value * coefficient)]: towards zero. *)
Definition scale (c : Coef) (value : Z) : Z := Z.quot (value * cf_num c) (cf_den c).

Definition api_params : Type := list (option Z * list Param).
Definition coefficients : Type := gmap (option Z) Coef.

(** [usage_coefficient.get(node_id, 1)] *)
Definition coefficient_of (cs : coefficients) (node_id : option Z) : Coef :=
  default (mkCoef 1 1) (cs !! node_id).

(** [d[k] += v] on a [defaultdict(int)], keys in insertion order. *)
Fixpoint dict_add {K} `{EqDecision K} (k : K) (v : Z) (l : list (K * Z)) : list (K * Z) :=
  match l with
  | [] => [(k, v)]
  | (k', v') :: l => if decide (k' = k) then (k', v' + v) :: l else (k', v') :: dict_add k v l
  end.

(** [f] summed over every parameter of every source, by user. *)
Definition sum_by_uid (f : Coef → Param → Z) (api : api_params) (cs : coefficients)
    : list (Uid * Z) :=
  foldl (λ acc np, foldl (λ acc p, dict_add (pm_uid p) (f (coefficient_of cs np.1) p) acc)
    acc np.2) [] api.

Definition aggregate_user_usage : api_params → coefficients → list (Uid * Z) :=
  sum_by_uid (λ c p, scale c (pm_value p)).

Definition split_up (c : Coef) (p : Param) : Z := scale c (pm_up p).
Definition split_down (c : Coef) (p : Param) : Z :=
  if (scale c (pm_up p) =? 0) && (scale c (pm_down p) =? 0)
  then scale c (pm_value p) else scale c (pm_down p).

Definition aggregate_user_split (api : api_params) (cs : coefficients)
    : list (Uid * Z) * list (Uid * Z) :=
  (sum_by_uid split_up api cs, sum_by_uid split_down api cs).

Definition BILLABLE_STATUSES : list UserStatus := [active; on_hold].
Definition billable (u : User) : bool := status_in (u_status u) BILLABLE_STATUSES.

Definition ints (l : list (Uid * Z)) : list (Z * Z) := map (λ p, (uid_int p.1, p.2)) l.

(** ** Hourly node rows *)
Definition hour_of (now : Z) : Z := now - now mod 3600.

Definition in_bucket (uid : Z) (node_id : option Z) (hour : Z) (r : NodeUserUsage) : bool :=
  (nu_user_id r =? uid) && bool_decide (nu_node_id r = node_id) && (nu_created_at r =? hour).

Definition add_to_bucket (uid : Z) (node_id : option Z) (hour v : Z) (rows : list NodeUserUsage)
    : list NodeUserUsage :=
  map (λ r, if in_bucket uid node_id hour r
            then r <| nu_used_traffic := nu_used_traffic r + v |> else r) rows.

(** [INSERT ... ON CONFLICT DO UPDATE] of one row. *)
Definition upsert_row (node_id : option Z) (hour : Z) (rows : list NodeUserUsage) (e : Z * Z)
    : list NodeUserUsage :=
  if existsb (in_bucket e.1 node_id hour) rows then add_to_bucket e.1 node_id hour e.2 rows
  else rows ++ [mkNodeUserUsage e.1 node_id hour e.2].

(** [_coalesce_rows] on the rows of one node and hour. *)
Definition _coalesce_rows (rows : list (Z * Z)) : list (Z * Z) :=
  foldl (λ acc e, dict_add e.1 e.2 acc) [] rows.

(** [None]: the [RuntimeError] that sends the caller to its fallback. *)
Definition upsert_node_user_usage (postgresql : bool) (params : list Param) (node_id : option Z)
    (hour : Z) (factor : Coef) (rows : list NodeUserUsage) : option (list NodeUserUsage) :=
  let new := omap (λ p, if 0 <? pm_value p
                        then Some (uid_int (pm_uid p), scale factor (pm_value p)) else None) params in
  match new with
  | [] => Some rows
  | _ =>
      if is_none node_id then None
      else if postgresql then Some (foldl (upsert_row node_id hour) rows (_coalesce_rows new))
      else None
  end.

(** The fallback: a zero row for each new user, then one UPDATE per parameter.
    [sql_mul] is the server's [value * factor] stored in an integer column. *)
Definition record_rows (sql_mul : Coef → Z → Z) (params : list Param) (node_id : option Z)
    (hour : Z) (factor : Coef) (rows : list NodeUserUsage) : list NodeUserUsage :=
  let existings := map nu_user_id (filter (λ r,
    nu_node_id r = node_id ∧ nu_created_at r = hour) rows) in
  let uids_to_insert := remove_dups
    (filter (λ uid, uid ∉ existings) (map (λ p, uid_int (pm_uid p)) params)) in
  let rows := rows ++ map (λ uid, mkNodeUserUsage uid node_id hour 0) uids_to_insert in
  foldl (λ rows p, add_to_bucket (uid_int (pm_uid p)) node_id hour (sql_mul factor (pm_value p)) rows)
    rows params.

Definition record_user_stats (postgresql : bool) (sql_mul : Coef → Z → Z) (now : Z)
    (params : list Param) (node_id : option Z) (factor : Coef) (rows : list NodeUserUsage)
    : list NodeUserUsage :=
  match params with
  | [] => rows
  | _ =>
      let hour := hour_of now in
      match upsert_node_user_usage postgresql params node_id hour factor rows with
      | Some rows => rows
      | None => record_rows sql_mul params node_id hour factor rows
      end
  end.

(** ** The tick *)

(** The UPDATE of [users]: add, but never past a positive data limit. *)
Definition add_traffic (value : Z) (u : User) : User :=
  if pos_limit (u_data_limit u) && (or0 (u_data_limit u) <? u_used_traffic u + value)
  then u <| u_used_traffic := or0 (u_data_limit u) |>
  else u <| u_used_traffic := u_used_traffic u + value |>.

Definition add_all {V} (f : V → User → User) (l : list (Z * V)) (us : gmap Z User) : gmap Z User :=
  foldl (λ us e, alter (f e.2) e.1 us) us l.

(** A reseller pays per byte only for accounts with a data limit. *)
Definition payg_admin (us : gmap Z User) (uid : Z) : option Z :=
  match us !! uid with
  | Some u => if truthy (u_admin_id u) && pos_limit (u_data_limit u) then u_admin_id u else None
  | None => None
  end.

Definition admin_usage_of (us : gmap Z User) (users_usage : list (Z * Z)) : list (Z * Z) :=
  foldl (λ acc e, match payg_admin us e.1 with
                  | Some admin_id => dict_add admin_id e.2 acc
                  | None => acc
                  end) [] users_usage.

(** The users an UPDATE took to their limit, as the query after it finds them. *)
Definition at_limit (u : User) : bool :=
  pos_limit (u_data_limit u) && (or0 (u_data_limit u) <=? u_used_traffic u)
  && status_eqb (u_status u) active.

Definition limit_step (now : Z) (acc : gmap Z User * list Z) (uid : Z) : gmap Z User * list Z :=
  match acc.1 !! uid with
  | None => acc
  | Some u =>
      let r := limit_user_quota now true false u in
      (<[uid := r.2]> acc.1, if r.1.1 then acc.2 ++ [uid] else acc.2)
  end.

Definition limit_rows (now : Z) (uids : list Z) (us : gmap Z User) : gmap Z User * list Z :=
  foldl (limit_step now) (us, []) uids.

Definition by_uid (x y : Z * Z) : bool := x.1 <=? y.1.

Definition add_split (v : Z * Z) (u : User) : User :=
  u <| u_used_traffic_up := u_used_traffic_up u + v.1 |>
    <| u_used_traffic_down := u_used_traffic_down u + v.2 |>.

(** The split rows: one per key of either dict, of billable users with traffic. *)
Definition split_rows (billable_ids : list Z) (api : api_params) (cs : coefficients)
    : list (Z * (Z * Z)) :=
  let '(ups, downs) := aggregate_user_split api cs in
  let get (l : list (Uid * Z)) k := from_option snd 0 (head (filter (λ e, e.1 = k) l)) in
  omap (λ k, if bool_decide (uid_int k ∈ billable_ids)
                && negb ((get ups k =? 0) && (get downs k =? 0))
             then Some (uid_int k, (get ups k, get downs k)) else None)
    (remove_dups (ups.*1 ++ downs.*1)).

(** [record_aggregated_user_usages]: the new database and the users whose
    sessions are dropped after it. *)
Definition record_aggregated_user_usages (postgresql : bool) (sql_mul : Coef → Z → Z)
    (disable_node_usage : bool) (now : Z) (api : api_params) (cs : coefficients) (d : DB)
    : DB * list Z :=
  match aggregate_user_usage api cs with
  | [] => (d, [])
  | all_usage =>
      let uids := (ints all_usage).*1 in
      let billable_rows := filter (λ p, p.1 ∈ uids ∧ billable p.2 = true) (map_to_list (users d)) in
      let billable_ids := billable_rows.*1 in
      match filter (λ e, e.1 ∈ billable_ids) (ints all_usage) with
      | [] => (d, [])
      | users_usage =>
          let '(users_usage, hit) := clamp_usage_entries users_usage
            (map (λ p, (p.1, u_used_traffic p.2, u_data_limit p.2)) billable_rows) in
          match users_usage, hit with
          | [], [] => (d, [])
          | _, _ =>
              let admin_usage := admin_usage_of (users d) users_usage in
              let us := add_all add_traffic (sort_by by_uid users_usage) (users d) in
              let hit := match users_usage with
                         | [] => hit
                         | _ => (filter (λ p, p.1 ∈ users_usage.*1 ∧ at_limit p.2 = true)
                                   (map_to_list us)).*1
                         end in
              let '(us, newly_limited) := limit_rows now hit us in
              let adm := foldl (λ m e, alter (λ a, a <| a_users_usage := a_users_usage a + e.2 |>)
                                         e.1 m) (admins d) admin_usage in
              let us := add_all add_split (split_rows billable_ids api cs) us in
              let d := d <| users := us |> <| admins := adm |> in
              let rows := if disable_node_usage then node_user_usages d
                else foldl (λ rows np, record_user_stats postgresql sql_mul now
                       (filter (λ p, uid_int (pm_uid p) ∈ billable_ids) np.2) np.1
                       (coefficient_of cs np.1) rows) (node_user_usages d) api in
              (d <| node_user_usages := rows |>, newly_limited)
          end
      end
  end.

Definition add_overage (value : Z) (u : User) : User :=
  u <| u_overage_traffic := u_overage_traffic u + value |>.

Definition record_overage_usages (api : api_params) (cs : coefficients) (d : DB) : DB :=
  let users_usage := ints (aggregate_user_usage api cs) in
  let overage_usage := filter (λ e, (billable <$> users d !! e.1) = Some false ∧ 0 < e.2)
    users_usage in
  d <| users := add_all add_overage overage_usage (users d) |>.

(** The two writers in the order of [_bill_usage_tick_payload]. *)
Definition bill_usage_tick (postgresql : bool) (sql_mul : Coef → Z → Z) (disable_node_usage : bool)
    (now : Z) (api : api_params) (cs : coefficients) (d : DB) : DB :=
  record_overage_usages api cs
    (record_aggregated_user_usages postgresql sql_mul disable_node_usage now api cs d).1.

End RecordUsage.

Module RecordUsageFacts.
Import Quota QuotaFacts RecordUsage.

(** *** Dicts *)
Definition sum_at (k : Z) (l : list (Z * Z)) : Z :=
  sumZ (λ e, if decide (e.1 = k) then e.2 else 0) l.

Lemma sum_dict_add {K} `{EqDecision K} (g : K → Z) k v (l : list (K * Z)) :
  sumZ (λ e, g e.1 * e.2) (dict_add k v l) = sumZ (λ e, g e.1 * e.2) l + g k * v.
Proof.
  induction l as [|[k' v'] l IH]; cbn; [autorewrite with sumZ; cbn; lia|].
  case_decide; subst; autorewrite with sumZ; cbn; [lia|]. rewrite IH. lia.
Qed.

Lemma dict_add_keys {K} `{EqDecision K} k v (l : list (K * Z)) :
  NoDup l.*1 → NoDup (dict_add k v l).*1 ∧ ∀ x, x ∈ (dict_add k v l).*1 ↔ x = k ∨ x ∈ l.*1.
Proof.
  induction l as [|[k' v'] l IH]; cbn; intros Hnd.
  - split; [apply NoDup_singleton|]. intros x. by rewrite elem_of_cons.
  - apply NoDup_cons in Hnd as [Hk Hnd]. case_decide; subst; cbn.
    + split; [by constructor|]. intros x. rewrite elem_of_cons. tauto.
    + destruct (IH Hnd) as [H1 H2]. split.
      * constructor; [|done]. rewrite H2. intros [->|?]; done.
      * intros x. rewrite !elem_of_cons, H2. tauto.
Qed.

(** *** Adding a list of entries to the rows *)
Lemma add_all_lookup {V} (f : V → User → User) (l : list (Z * V)) us k :
  NoDup l.*1 →
  add_all f l us !! k =
  match (list_to_map l : gmap Z V) !! k with Some v => f v <$> us !! k | None => us !! k end.
Proof.
  unfold add_all. revert us. induction l as [|[k0 v] l IH]; intros us Hnd; cbn.
  { by rewrite lookup_empty. }
  cbn in Hnd. apply NoDup_cons in Hnd as [Hk Hnd]. rewrite IH by done. clear IH.
  rewrite lookup_insert, lookup_alter. case_decide; subst; [|done].
  by rewrite (not_elem_of_list_to_map_1 l k Hk).
Qed.

Lemma add_all_frame {V T} (p : User → T) (f : V → User → User) l us k :
  (∀ v u, p (f v u) = p u) → p <$> add_all f l us !! k = p <$> us !! k.
Proof.
  intros Hp. unfold add_all. revert us. induction l as [|[k0 v] l IH]; intros us; cbn; [done|].
  rewrite IH, lookup_alter. case_decide; subst; [|done]. destruct (us !! k); cbn; by rewrite ?Hp.
Qed.

(** *** Sums over a table *)
Lemma sum_imap (g : Z * User → Z) (f : Z → User → User) (m m' : gmap Z User) :
  (∀ k, m' !! k = f k <$> m !! k) →
  sumZ g (map_to_list m') = sumZ (λ p, g (p.1, f p.1 p.2)) (map_to_list m).
Proof.
  intros H. assert (Hp : map_to_list m' ≡ₚ map (λ p, (p.1, f p.1 p.2)) (map_to_list m)).
  { apply NoDup_Permutation.
    - apply NoDup_map_to_list.
    - apply NoDup_fmap_1 with (f := fst). rewrite <-list_fmap_compose.
      apply NoDup_fst_map_to_list.
    - intros [k u]. rewrite elem_of_map_to_list, H, list_elem_of_fmap, fmap_Some. split.
      + intros (u0 & Hu & ->). exists (k, u0). by rewrite elem_of_map_to_list.
      + intros ([k0 u0] & [= -> ->] & Hu). apply elem_of_map_to_list in Hu. by exists u0. }
  rewrite Hp. clear. induction (map_to_list m) as [|p l IH]; [done|]. cbn.
  autorewrite with sumZ. by rewrite IH.
Qed.

Lemma sum_single (g : User → Z) (m : gmap Z User) k :
  sumZ (λ p, if decide (p.1 = k) then g p.2 else 0) (map_to_list m) =
  match m !! k with Some u => g u | None => 0 end.
Proof.
  induction m as [|i x m Hi IH] using map_ind.
  { by rewrite map_to_list_empty, lookup_empty. }
  rewrite map_to_list_insert by done. autorewrite with sumZ. rewrite IH, lookup_insert. cbn.
  case_decide; subst; [rewrite Hi; lia|done].
Qed.

(** Distinct entries, each counted at its row. *)
Lemma sum_entries (w : User → Z) (m : gmap Z User) (l : list (Z * Z)) :
  NoDup l.*1 →
  sumZ (λ p, w p.2 * default 0 ((list_to_map l : gmap Z Z) !! p.1)) (map_to_list m) =
  sumZ (λ e, match m !! e.1 with Some u => w u * e.2 | None => 0 end) l.
Proof.
  induction l as [|[k v] l IH]; intros Hnd.
  { rewrite sumZ_nil. apply sumZ_zero. intros p _. cbn. rewrite lookup_empty. cbn. lia. }
  cbn in Hnd. apply NoDup_cons in Hnd as [Hk Hnd]. autorewrite with sumZ. rewrite <-IH by done.
  cbn [fst snd]. rewrite <-(sum_single (λ u, w u * v) m k), <-sumZ_add.
  apply sumZ_ext. intros [i u] _. cbn. rewrite lookup_insert. destruct (decide (i = k)) as [->|Hne].
  - rewrite decide_True by done. rewrite (not_elem_of_list_to_map_1 l k Hk). cbn. lia.
  - rewrite decide_False by done. lia.
Qed.

(** *** Reported bytes *)

(** Everything the cores report for a user in a tick, scaled per source. *)
Definition reported (api : api_params) (cs : coefficients) (uid : Z) : Z :=
  sumZ (λ np, sumZ (λ p, if uid_int (pm_uid p) =? uid
    then scale (coefficient_of cs np.1) (pm_value p) else 0) np.2) api.

Lemma sum_by_uid_spec (g : Uid → Z) f api cs :
  sumZ (λ e, g e.1 * e.2) (sum_by_uid f api cs) =
  sumZ (λ np, sumZ (λ p, g (pm_uid p) * f (coefficient_of cs np.1) p) np.2) api.
Proof.
  unfold sum_by_uid.
  assert (Hin : ∀ c ps acc, sumZ (λ e, g e.1 * e.2)
      (foldl (λ acc p, dict_add (pm_uid p) (f c p) acc) acc ps) =
    sumZ (λ e, g e.1 * e.2) acc + sumZ (λ p, g (pm_uid p) * f c p) ps).
  { intros c ps. induction ps as [|p ps IH]; intros acc; cbn [foldl]; autorewrite with sumZ; [lia|].
    rewrite IH, sum_dict_add. lia. }
  enough (H : ∀ acc, sumZ (λ e, g e.1 * e.2) (foldl (λ acc np,
      foldl (λ acc p, dict_add (pm_uid p) (f (coefficient_of cs np.1) p) acc) acc np.2) acc api) =
    sumZ (λ e, g e.1 * e.2) acc +
    sumZ (λ np, sumZ (λ p, g (pm_uid p) * f (coefficient_of cs np.1) p) np.2) api)
    by (rewrite H; autorewrite with sumZ; lia).
  induction api as [|np api IH]; intros acc; cbn [foldl]; autorewrite with sumZ; [lia|].
  rewrite IH, Hin. lia.
Qed.

Lemma sum_at_ints uid api cs :
  sum_at uid (ints (aggregate_user_usage api cs)) = reported api cs uid.
Proof.
  pose (g := λ k : Uid, if uid_int k =? uid then 1 else 0).
  transitivity (sumZ (λ e, g e.1 * e.2) (aggregate_user_usage api cs)).
  - unfold sum_at, ints. induction (aggregate_user_usage api cs) as [|[k v] l IH]; [done|].
    cbn [map]. autorewrite with sumZ. rewrite IH. unfold g. cbn [fst snd].
    destruct (Z.eqb_spec (uid_int k) uid); case_decide; lia || done.
  - unfold aggregate_user_usage. rewrite sum_by_uid_spec. apply sumZ_ext. intros np _.
    apply sumZ_ext. intros p _. unfold g. destruct (_ =? _); lia.
Qed.

Lemma sum_at_notin k l : k ∉ l.*1 → sum_at k l = 0.
Proof.
  intros H. apply sumZ_zero. intros [k' v] Hin. cbn. case_decide; [|done]. subst.
  destruct H. apply list_elem_of_fmap. by exists (k, v).
Qed.

Lemma sum_at_in k v l : NoDup l.*1 → (k, v) ∈ l → sum_at k l = v.
Proof.
  induction l as [|[k' v'] l IH]; intros Hnd Hin; [by apply elem_of_nil in Hin|].
  cbn in Hnd. apply NoDup_cons in Hnd as [Hk Hnd]. unfold sum_at in *. autorewrite with sumZ. cbn.
  apply elem_of_cons in Hin as [[= <- <-]|Hin].
  - rewrite decide_True by done. fold (sum_at k l). rewrite sum_at_notin by done. lia.
  - rewrite IH by done. case_decide; [|lia]. subst. destruct Hk. apply list_elem_of_fmap. by exists (k, v).
Qed.

Lemma sum_at_lookup k l : NoDup l.*1 → default 0 ((list_to_map l : gmap Z Z) !! k) = sum_at k l.
Proof.
  intros Hnd. destruct ((list_to_map l : gmap Z Z) !! k) as [v|] eqn:E; cbn.
  - apply elem_of_list_to_map_2 in E. symmetry. by apply sum_at_in.
  - apply not_elem_of_list_to_map_2 in E. symmetry. by apply sum_at_notin.
Qed.

(** *** Clamping *)
Definition clamped (us : gmap Z User) (e : Z * Z) : option (Z * Z) :=
  match us !! e.1 with
  | Some u =>
      let v := clamp_usage_delta (u_used_traffic u) (u_data_limit u) e.2 in
      if 0 <? v then Some (e.1, v) else None
  | None => None
  end.

Lemma clamp_entries_rows us rows L :
  rows ⊆ map_to_list us → NoDup rows.*1 → (∀ e, e ∈ L → e.1 ∈ rows.*1) →
  (clamp_usage_entries L (map (λ p, (p.1, u_used_traffic p.2, u_data_limit p.2)) rows)).1
  = omap (clamped us) L.
Proof.
  intros Hsub Hnd HL. rewrite clamp_usage_entries_passes. cbn [fst].
  apply list_omap_ext. apply Forall_Forall2_diag, Forall_forall. intros [k raw] He.
  specialize (HL _ He). cbn in HL. apply list_elem_of_fmap in HL as ([k' u] & -> & Hin). cbn [fst snd].
  assert (Hm : usage_meta (map (λ p : Z * User, (p.1, u_used_traffic p.2, u_data_limit p.2)) rows)
    !! k' = Some (u_used_traffic u, u_data_limit u)).
  { apply usage_meta_lookup.
    - apply list_elem_of_fmap. by exists (k', u).
    - rewrite <-!list_fmap_compose. exact Hnd. }
  unfold entry_value, clamped. cbn [fst snd]. rewrite Hm. cbn.
  apply Hsub, elem_of_map_to_list in Hin. by rewrite Hin.
Qed.

Lemma clamped_key us e e' : clamped us e = Some e' → e'.1 = e.1.
Proof. unfold clamped. destruct (us !! e.1); [|done]. by destruct (0 <? _); intros [= <-]. Qed.

Lemma clamped_keys us L : NoDup L.*1 → NoDup (omap (clamped us) L).*1.
Proof.
  induction L as [|e L IH]; intros Hnd; [constructor|]. cbn in *. apply NoDup_cons in Hnd as [Hk Hnd].
  destruct (clamped us e) as [e'|] eqn:E; [|by apply IH]. cbn. constructor; [|by apply IH].
  rewrite (clamped_key _ _ _ E). intros Hin. apply Hk.
  apply list_elem_of_fmap in Hin as (x & -> & Hx). apply list_elem_of_omap in Hx as (y & Hy & Hx).
  rewrite (clamped_key _ _ _ Hx). apply list_elem_of_fmap. by exists y.
Qed.

(** What the tick adds to a row. *)
Definition growth (u : User) (raw : Z) : Z := clamp_usage_delta (u_used_traffic u) (u_data_limit u) raw.

Lemma growth_bounds u raw :
  0 ≤ growth u raw ∧ (pos_limit (u_data_limit u) = true →
    u_used_traffic u ≤ or0 (u_data_limit u) → u_used_traffic u + growth u raw ≤ or0 (u_data_limit u)) ∧
  (pos_limit (u_data_limit u) = true → 0 < growth u raw →
    u_used_traffic u + growth u raw ≤ or0 (u_data_limit u)).
Proof.
  unfold growth, clamp_usage_delta.
  destruct (pos_limit (u_data_limit u)); cbn; [|lia].
  destruct (Z.leb_spec raw 0); lia.
Qed.

Lemma growth_zero u : growth u 0 = 0.
Proof. unfold growth, clamp_usage_delta. by rewrite orb_true_r. Qed.

Lemma sum_at_clamped us L k u :
  NoDup L.*1 → us !! k = Some u → sum_at k (omap (clamped us) L) = growth u (sum_at k L).
Proof.
  intros Hnd Hu. destruct (decide (k ∈ L.*1)) as [Hin|Hn].
  - apply list_elem_of_fmap in Hin as ([k' raw] & -> & Hin). cbn [fst] in *.
    rewrite (sum_at_in k' raw L Hnd Hin).
    destruct (growth_bounds u raw) as (Hg & _).
    destruct (Z.ltb_spec 0 (growth u raw)) as [Hp|Hz].
    + apply sum_at_in; [by apply clamped_keys|]. apply list_elem_of_omap. exists (k', raw).
      split; [done|]. unfold clamped. cbn. rewrite Hu. fold (growth u raw).
      by destruct (Z.ltb_spec 0 (growth u raw)); [|lia].
    + rewrite sum_at_notin; [lia|]. intros Hi. apply list_elem_of_fmap in Hi as ([k2 v] & -> & Hi).
      apply list_elem_of_omap in Hi as ([k3 raw'] & Hy & Hx). pose proof (clamped_key _ _ _ Hx) as Hk.
      cbn in Hk. subst k3. assert (raw' = raw) as ->.
      { rewrite <-(sum_at_in _ _ _ Hnd Hy). by apply sum_at_in. }
      unfold clamped in Hx. cbn in Hx, Hu. rewrite Hu in Hx. fold (growth u raw) in Hx.
      by destruct (Z.ltb_spec 0 (growth u raw)); [lia|].
  - rewrite (sum_at_notin k L Hn), growth_zero. apply sum_at_notin. intros Hi.
    apply list_elem_of_fmap in Hi as (x & -> & Hi). apply list_elem_of_omap in Hi as (y & Hy & Hx).
    rewrite (clamped_key _ _ _ Hx) in Hn. apply Hn, list_elem_of_fmap. by exists y.
Qed.

Lemma no_hit_without_entry L rows :
  (clamp_usage_entries L rows).1 = [] → (clamp_usage_entries L rows).2 = [].
Proof.
  rewrite clamp_usage_entries_passes. cbn [fst snd].
  induction L as [|e L IH]; cbn; [done|].
  destruct (0 <? entry_value (usage_meta rows) e) eqn:E; [done|].
  assert (entry_hits (usage_meta rows) e = false) as ->.
  { unfold entry_hits. destruct (default _ _) as [used limit]. rewrite E. by rewrite andb_false_r. }
  done.
Qed.

(** *** The tables after a tick *)
Definition tick_entries (api : api_params) (cs : coefficients) (d : DB) : list (Z * Z) :=
  filter (λ e, (billable <$> users d !! e.1) = Some true) (ints (aggregate_user_usage api cs)).
Definition tick_added (api : api_params) (cs : coefficients) (d : DB) : list (Z * Z) :=
  omap (clamped (users d)) (tick_entries api cs d).
Definition counted (api : api_params) (cs : coefficients) (d : DB) : gmap Z User :=
  add_all add_traffic (sort_by by_uid (tick_added api cs d)) (users d).
Definition add_admin_usage (l : list (Z * Z)) (m : gmap Z Admin) : gmap Z Admin :=
  foldl (λ m e, alter (λ a, a <| a_users_usage := a_users_usage a + e.2 |>) e.1 m) m l.

Lemma filter_eq_iff {A} (P Q : A → Prop) `{∀ x, Decision (P x)} `{∀ x, Decision (Q x)} (l : list A) :
  (∀ x, x ∈ l → P x ↔ Q x) → filter P l = filter Q l.
Proof.
  induction l as [|x l IH]; intros HPQ; [done|]. rewrite !filter_cons, IH.
  - assert (P x ↔ Q x) by (apply HPQ; constructor). repeat case_decide; tauto.
  - intros y Hy. apply HPQ. by constructor.
Qed.

Lemma NoDup_filtered_keys (P : Z * User → Prop) `{∀ p, Decision (P p)} (us : gmap Z User) :
  NoDup (filter P (map_to_list us)).*1.
Proof.
  eapply sublist_NoDup; [apply (NoDup_fst_map_to_list us)|].
  apply fmap_sublist, sublist_filter.
Qed.

Lemma elem_of_filtered_keys (P : Z → Prop) (f : User → bool)
    `{∀ p : Z * User, Decision (P p.1 ∧ f p.2 = true)} (us : gmap Z User) k :
  k ∈ (filter (λ p : Z * User, P p.1 ∧ f p.2 = true) (map_to_list us)).*1 ↔
  P k ∧ (f <$> us !! k) = Some true.
Proof.
  rewrite list_elem_of_fmap. split.
  - intros ([k' u] & -> & Hin). apply list_elem_of_filter in Hin as [[HP Hf] Hin].
    apply elem_of_map_to_list in Hin. cbn in *. by rewrite Hin, <-Hf.
  - intros [HP Hf]. destruct (us !! k) as [u|] eqn:Hu; [|done]. injection Hf as Hf.
    exists (k, u). split; [done|]. apply list_elem_of_filter. by rewrite elem_of_map_to_list.
Qed.

Lemma tick_tables pg sm dis now api cs d :
  let d' := (record_aggregated_user_usages pg sm dis now api cs d).1 in
  ∃ hit spl, users d' = add_all add_split spl (limit_rows now hit (counted api cs d)).1 ∧
    NoDup hit ∧
    (∀ k, k ∈ hit ↔ k ∈ (tick_added api cs d).*1 ∧
       (at_limit <$> counted api cs d !! k) = Some true) ∧
    admins d' = add_admin_usage (admin_usage_of (users d) (tick_added api cs d)) (admins d).
Proof.
  cbv zeta. unfold record_aggregated_user_usages, counted.
  set (E := ints (aggregate_user_usage api cs)).
  set (rows := filter (λ p : Z * User, p.1 ∈ E.*1 ∧ billable p.2 = true) (map_to_list (users d))).
  assert (Hrows : ∀ k, k ∈ E.*1 → k ∈ rows.*1 ↔ (billable <$> users d !! k) = Some true).
  { intros k HkE. unfold rows. rewrite (elem_of_filtered_keys (λ k, k ∈ E.*1)). tauto. }
  assert (HL : filter (λ e : Z * Z, e.1 ∈ rows.*1) E = tick_entries api cs d).
  { apply filter_eq_iff. intros e He. apply Hrows, list_elem_of_fmap. by exists e. }
  assert (Hnone : ∃ hit spl, users d = add_all add_split spl
      (limit_rows now hit (add_all add_traffic (sort_by by_uid []) (users d))).1 ∧ NoDup hit ∧
    (∀ k, k ∈ hit ↔ k ∈ ([] : list (Z * Z)).*1 ∧
       (at_limit <$> add_all add_traffic (sort_by by_uid []) (users d) !! k) = Some true) ∧
    admins d = add_admin_usage (admin_usage_of (users d) []) (admins d)).
  { exists [], []. split; [done|]. split; [constructor|]. split; [|done].
    intros k. split; [intros Hk; by apply elem_of_nil in Hk|]. intros [Hk _]. by apply elem_of_nil in Hk. }
  unfold tick_added. destruct (aggregate_user_usage api cs) as [|e0 es] eqn:Eagg.
  { assert (tick_entries api cs d = []) as -> by (unfold tick_entries; by rewrite Eagg).
    exact Hnone. }
  fold E. fold rows. rewrite HL. destruct (tick_entries api cs d) as [|x L] eqn:EL; [exact Hnone|].
  rewrite <-EL in *.
  assert (Hc : (clamp_usage_entries (tick_entries api cs d) (map (λ p : Z * User,
      (p.1, u_used_traffic p.2, u_data_limit p.2)) rows)).1 = omap (clamped (users d)) (tick_entries api cs d)).
  { apply clamp_entries_rows.
    - intros p Hp. by apply list_elem_of_filter in Hp as [_ Hp].
    - apply NoDup_filtered_keys.
    - intros e He. rewrite <-HL in He. by apply list_elem_of_filter in He as [He _]. }
  pose proof (no_hit_without_entry (tick_entries api cs d) (map (λ p : Z * User,
      (p.1, u_used_traffic p.2, u_data_limit p.2)) rows)) as Hh.
  destruct (clamp_usage_entries _ _) as [out hit]. cbn [fst snd] in Hc, Hh. rewrite <-Hc.
  destruct out as [|o out]; [rewrite Hh by done; exact Hnone|].
  set (C := o :: out). set (us1 := add_all add_traffic (sort_by by_uid C) (users d)).
  exists (filter (λ p, p.1 ∈ C.*1 ∧ at_limit p.2 = true) (map_to_list us1)).*1, (split_rows rows.*1 api cs).
  split_and!; [|apply NoDup_filtered_keys|intros k; by rewrite (elem_of_filtered_keys (λ k, k ∈ C.*1))|].
  - by destruct (limit_rows _ _ _).
  - by destruct (limit_rows _ _ _).
Qed.

Lemma sum_at_filter (P : Z → Prop) `{∀ k, Decision (P k)} `{∀ e : Z * Z, Decision (P e.1)}
    k (l : list (Z * Z)) :
  sum_at k (filter (λ e, P e.1) l) = if decide (P k) then sum_at k l else 0.
Proof.
  induction l as [|[k' v] l IH]; [by case_decide|].
  destruct (decide (P k')) as [HP|HP];
    [rewrite filter_cons_True by done|rewrite filter_cons_False by done];
    unfold sum_at in *; autorewrite with sumZ; cbn [fst snd]; rewrite IH;
    repeat case_decide; subst; try done; lia.
Qed.

Lemma entries_NoDup api cs d :
  NoDup (ints (aggregate_user_usage api cs)).*1 → NoDup (tick_entries api cs d).*1.
Proof.
  intros H. eapply sublist_NoDup; [exact H|]. apply fmap_sublist, sublist_filter.
Qed.

(** What a tick adds to the counter of a row. *)
Definition tick_growth (api : api_params) (cs : coefficients) (k : Z) (u : User) : Z :=
  if billable u then growth u (reported api cs k) else 0.

Lemma sum_at_added api cs d k u :
  NoDup (ints (aggregate_user_usage api cs)).*1 → users d !! k = Some u →
  sum_at k (tick_added api cs d) = tick_growth api cs k u.
Proof.
  intros Hnd Hu. unfold tick_added. rewrite (sum_at_clamped _ _ _ u) by (auto using entries_NoDup).
  unfold tick_entries. rewrite (sum_at_filter (λ k, (billable <$> users d !! k) = Some true)).
  rewrite sum_at_ints, Hu. unfold tick_growth. change (billable <$> Some u) with (Some (billable u)).
  destruct (billable u); case_decide; try congruence. apply growth_zero.
Qed.

Lemma added_positive api cs d k :
  NoDup (ints (aggregate_user_usage api cs)).*1 →
  (k ∈ (tick_added api cs d).*1 ↔ 0 < sum_at k (tick_added api cs d)).
Proof.
  intros Hnd. split.
  - intros Hin. apply list_elem_of_fmap in Hin as ([k' v] & -> & Hin). cbn [fst].
    rewrite (sum_at_in k' v); [|by apply clamped_keys, entries_NoDup|done].
    apply list_elem_of_omap in Hin as (e & _ & He). unfold clamped in He.
    destruct (users d !! e.1); [|done]. destruct (Z.ltb_spec 0 (clamp_usage_delta
      (u_used_traffic u) (u_data_limit u) e.2)); [|done]. by injection He as <- <-.
  - intros Hp. destruct (decide (k ∈ (tick_added api cs d).*1)); [done|].
    rewrite sum_at_notin in Hp by done. lia.
Qed.

Lemma add_traffic_exact u v :
  (pos_limit (u_data_limit u) = true → u_used_traffic u + v ≤ or0 (u_data_limit u)) →
  add_traffic v u = u <| u_used_traffic := u_used_traffic u + v |>.
Proof.
  intros H. unfold add_traffic. destruct (pos_limit (u_data_limit u)); [|done]. cbn.
  destruct (Z.ltb_spec (or0 (u_data_limit u)) (u_used_traffic u + v)); [|done].
  specialize (H eq_refl). lia.
Qed.

Lemma counted_row api cs d k u :
  NoDup (ints (aggregate_user_usage api cs)).*1 → users d !! k = Some u →
  counted api cs d !! k = Some (u <| u_used_traffic := u_used_traffic u + tick_growth api cs k u |>).
Proof.
  intros Hnd Hu. unfold counted.
  assert (HC : NoDup (tick_added api cs d).*1) by (by apply clamped_keys, entries_NoDup).
  assert (Hs : NoDup (sort_by by_uid (tick_added api cs d)).*1) by (by rewrite sort_by_perm).
  rewrite add_all_lookup, Hu by done.
  rewrite (list_to_map_proper _ (tick_added api cs d) Hs (sort_by_perm _ _)).
  rewrite <-(sum_at_added api cs d k u Hnd Hu).
  destruct ((list_to_map (tick_added api cs d) : gmap Z Z) !! k) as [v|] eqn:E; cbn.
  - apply elem_of_list_to_map_2 in E. pose proof (sum_at_in _ _ _ HC E) as Hv. rewrite Hv.
    f_equal. apply add_traffic_exact. intros Hp.
    assert (Hpos : 0 < v).
    { rewrite <-Hv. apply added_positive; [done|]. apply list_elem_of_fmap. by exists (k, v). }
    rewrite (sum_at_added api cs d k u Hnd Hu) in Hv. unfold tick_growth in Hv.
    destruct (billable u); [|lia]. rewrite <-Hv in Hpos |- *. by apply growth_bounds.
  - apply not_elem_of_list_to_map_2 in E. rewrite sum_at_notin, Z.add_0_r by done. by destruct u.
Qed.

Lemma limit_rows_lookup now hit us k :
  NoDup hit →
  (limit_rows now hit us).1 !! k =
  if decide (k ∈ hit) then (λ u, (limit_user_quota now true false u).2) <$> us !! k else us !! k.
Proof.
  unfold limit_rows. generalize (@nil Z) as acc. revert us.
  induction hit as [|x hit IH]; intros us acc Hnd; cbn [foldl fst].
  { by rewrite decide_False by apply not_elem_of_nil. }
  apply NoDup_cons in Hnd as [Hx Hnd]. unfold limit_step at 2. cbn [fst].
  destruct (us !! x) as [u|] eqn:E; rewrite IH by done.
  - cbn [snd]. destruct (decide (k = x)) as [->|Hne].
    + rewrite decide_False, decide_True, lookup_insert_eq, E by (done || constructor). done.
    + rewrite lookup_insert_ne by done.
      destruct (decide (k ∈ hit)); [rewrite decide_True by (by constructor); done|].
      rewrite decide_False; [done|]. by intros [?|?]%elem_of_cons.
  - destruct (decide (k = x)) as [->|Hne].
    + rewrite decide_False, decide_True, E by (done || constructor). done.
    + destruct (decide (k ∈ hit)); [rewrite decide_True by (by constructor); done|].
      rewrite decide_False; [done|]. by intros [?|?]%elem_of_cons.
Qed.

(** The columns of a row a tick is judged by. *)
Definition cols (u : User) : Z * UserStatus * option Z * option Z * Z :=
  (u_used_traffic u, u_status u, u_data_limit u, u_admin_id u, u_overage_traffic u).

(** Limiting a row that stands exactly at its limit only changes the status. *)
Lemma limit_row_cols now u :
  at_limit u = true → u_used_traffic u ≤ or0 (u_data_limit u) →
  cols (limit_user_quota now true false u).2 =
  (u_used_traffic u, limited, u_data_limit u, u_admin_id u, u_overage_traffic u).
Proof.
  unfold at_limit. intros [[Hp Hl]%andb_prop Hs]%andb_prop Hle.
  unfold limit_user_quota, enforce_usage_cap. rewrite Hp. cbn [negb].
  destruct (Z.eqb_spec (Z.min (u_used_traffic u) (or0 (u_data_limit u))) (u_used_traffic u)); [|lia].
  cbn [snd]. rewrite Hs. cbn [negb].
  assert (truthy (u_data_limit u) = true) as ->.
  { destruct (u_data_limit u) as [l|]; [|done]. cbn in *. destruct (Z.eqb_spec l 0); [lia|done]. }
  cbn [negb orb]. destruct (Z.ltb_spec (u_used_traffic u) (or0 (u_data_limit u))); [lia|].
  done.
Qed.

Definition tick_status (api : api_params) (cs : coefficients) (k : Z) (u : User) : UserStatus :=
  if (0 <? tick_growth api cs k u)
     && at_limit (u <| u_used_traffic := u_used_traffic u + tick_growth api cs k u |>)
  then limited else u_status u.

Lemma tick_row pg sm dis now api cs d k u :
  NoDup (ints (aggregate_user_usage api cs)).*1 → users d !! k = Some u →
  let d' := (record_aggregated_user_usages pg sm dis now api cs d).1 in
  cols <$> users d' !! k =
  Some (u_used_traffic u + tick_growth api cs k u, tick_status api cs k u, u_data_limit u,
        u_admin_id u, u_overage_traffic u).
Proof.
  intros Hnd Hu d'. destruct (tick_tables pg sm dis now api cs d) as (hit & spl & Hus & Hh & Hin & _).
  fold d' in Hus. rewrite Hus, add_all_frame by done. rewrite limit_rows_lookup by done.
  pose proof (counted_row api cs d k u Hnd Hu) as Hc. specialize (Hin k). rewrite Hc in *.
  rewrite (added_positive api cs d k Hnd), (sum_at_added api cs d k u Hnd Hu) in Hin.
  unfold tick_status. set (g := tick_growth api cs k u) in *.
  set (u1 := u <| u_used_traffic := u_used_traffic u + g |>) in *.
  change (at_limit <$> Some u1) with (Some (at_limit u1)) in Hin.
  destruct (Z.ltb_spec 0 g) as [Hg|Hg]; cbn [andb].
  2: { rewrite decide_False; [done|]. rewrite Hin. lia. }
  destruct (at_limit u1) eqn:Ha.
  - rewrite decide_True by (by rewrite Hin). cbn [fmap option_fmap option_map].
    rewrite limit_row_cols; [done|done|]. cbn. subst g. unfold tick_growth in *.
    destruct (billable u); [|lia]. apply growth_bounds; [|done].
    unfold at_limit in Ha. cbn in Ha. by destruct (pos_limit (u_data_limit u)).
  - rewrite decide_False; [done|]. rewrite Hin. by intros [_ ?].
Qed.

Lemma tick_row_None pg sm dis now api cs d k :
  users d !! k = None →
  users (record_aggregated_user_usages pg sm dis now api cs d).1 !! k = None.
Proof.
  intros Hu. destruct (tick_tables pg sm dis now api cs d) as (hit & spl & Hus & Hh & _).
  apply (fmap_None (λ _, tt)). rewrite Hus, add_all_frame by done.
  rewrite limit_rows_lookup by done.
  assert (counted api cs d !! k = None) as ->.
  { apply (fmap_None u_data_limit). unfold counted. rewrite add_all_frame, Hu; [done|].
    intros v u. unfold add_traffic. by destruct (_ && _). }
  by case_decide.
Qed.

(** *** The reseller's meter *)
Definition pays (aid : Z) (u : User) : Z :=
  if truthy (u_admin_id u) && pos_limit (u_data_limit u) && bool_decide (u_admin_id u = Some aid)
  then 1 else 0.

(** What the counters of a reseller's metered customers add up to. *)
Definition metered (aid : Z) (d : DB) : Z :=
  sumZ (λ p, pays aid p.2 * u_used_traffic p.2) (map_to_list (users d)).

Lemma add_admin_usage_lookup l m aid :
  add_admin_usage l m !! aid =
  (λ a, a <| a_users_usage := a_users_usage a + sum_at aid l |>) <$> m !! aid.
Proof.
  unfold add_admin_usage. revert m. induction l as [|[k v] l IH]; intros m; cbn [foldl].
  { unfold sum_at. rewrite sumZ_nil. destruct (m !! aid) as [a|]; [|done]. cbn.
    rewrite Z.add_0_r. by destruct a. }
  rewrite IH, lookup_alter. unfold sum_at. autorewrite with sumZ. cbn [fst snd].
  repeat case_decide; subst; try done; destruct (m !! aid) as [a|]; cbn; try done.
  by rewrite Z.add_assoc.
Qed.

Lemma sum_admin_usage us l aid :
  sum_at aid (admin_usage_of us l) =
  sumZ (λ e, match us !! e.1 with Some u => pays aid u * e.2 | None => 0 end) l.
Proof.
  unfold admin_usage_of, sum_at.
  pose (g := λ k : Z, if decide (k = aid) then 1 else 0).
  enough (H : ∀ acc, sumZ (λ e, g e.1 * e.2) (foldl (λ acc e, match payg_admin us e.1 with
      | Some admin_id => dict_add admin_id e.2 acc | None => acc end) acc l) =
    sumZ (λ e, g e.1 * e.2) acc +
    sumZ (λ e, match us !! e.1 with Some u => pays aid u * e.2 | None => 0 end) l).
  { specialize (H []). rewrite sumZ_nil, Z.add_0_l in H. rewrite <-H. apply sumZ_ext.
    intros e _. unfold g. case_decide; lia. }
  induction l as [|e l IH]; intros acc; cbn [foldl]; autorewrite with sumZ; [lia|].
  rewrite IH. unfold payg_admin, pays. destruct (us !! e.1) as [u|]; [|lia].
  destruct (truthy (u_admin_id u) && pos_limit (u_data_limit u)); cbn [andb]; [|lia].
  destruct (u_admin_id u) as [a|]; cbn.
  - rewrite sum_dict_add. unfold g. case_decide; case_bool_decide; simplify_eq; lia.
  - case_bool_decide; [done|lia].
Qed.

(** C5. One tick accounts for every byte.  When no user is reported under both
    key types, each billable user's counter grows by the bytes reported for it
    over all cores and nodes, clamped to the data limit; other users are not
    touched; a user the tick takes to its limit becomes limited; and a
    reseller's metered usage grows by exactly what the counters of its
    customers with a data limit grew. *)
Theorem record_tick_conserves pg sm dis now api cs d :
  NoDup (ints (aggregate_user_usage api cs)).*1 →
  let d' := (record_aggregated_user_usages pg sm dis now api cs d).1 in
  (∀ k u, users d !! k = Some u → ∃ u', users d' !! k = Some u' ∧
     u_used_traffic u' = u_used_traffic u +
       (if billable u
        then clamp_usage_delta (u_used_traffic u) (u_data_limit u) (reported api cs k) else 0) ∧
     u_overage_traffic u' = u_overage_traffic u ∧ u_data_limit u' = u_data_limit u ∧
     u_status u' = (if (u_used_traffic u <? u_used_traffic u') && at_limit (u' <| u_status := u_status u |>)
                    then limited else u_status u)) ∧
  (∀ aid a, admins d !! aid = Some a → ∃ a', admins d' !! aid = Some a' ∧
     a_users_usage a' - a_users_usage a = metered aid d' - metered aid d).
Proof.
  intros Hnd d'. assert (Hrow : ∀ k u, users d !! k = Some u → ∃ u', users d' !! k = Some u' ∧
    cols u' = (u_used_traffic u + tick_growth api cs k u, tick_status api cs k u, u_data_limit u,
               u_admin_id u, u_overage_traffic u)).
  { intros k u Hu. pose proof (tick_row pg sm dis now api cs d k u Hnd Hu) as H. fold d' in H.
    apply fmap_Some in H as (u' & H1 & H2). by exists u'. }
  split.
  - intros k u Hu. destruct (Hrow k u Hu) as (u' & H1 & H2). exists u'. split; [done|].
    injection H2 as E1 E2 E3 E4 E5. rewrite E1, E2, E3, E5. split_and!; try done.
    unfold tick_status, at_limit. cbn. rewrite E1, E3.
    destruct (Z.ltb_spec 0 (tick_growth api cs k u)), (Z.ltb_spec (u_used_traffic u)
      (u_used_traffic u + tick_growth api cs k u)); try lia; done.
  - intros aid a Ha.
    destruct (tick_tables pg sm dis now api cs d) as (hit & spl & _ & _ & _ & Hadm). fold d' in Hadm.
    rewrite Hadm, add_admin_usage_lookup, Ha. eexists. split; [done|]. cbn.
    rewrite sum_admin_usage, <-sum_entries by (by apply clamped_keys, entries_NoDup).
    unfold metered. rewrite (sum_imap _ (λ k u, default u (users d' !! k)) (users d) (users d')).
    2: { intros k. destruct (users d !! k) as [u|] eqn:Hu.
         - destruct (Hrow k u Hu) as (u' & -> & _). done.
         - by apply tick_row_None. }
    set (f := λ p : Z * User, pays aid p.2 * u_used_traffic p.2).
    match goal with |- _ + ?x - _ = ?y - ?z => enough (y = x + z) by lia end.
    rewrite <-sumZ_add. apply sumZ_ext. intros [k u] Hin. apply elem_of_map_to_list in Hin.
    destruct (Hrow k u Hin) as (u' & H1 & H2). cbn [fst snd]. rewrite H1. change (default u (Some u')) with u'.
    rewrite sum_at_lookup, (sum_at_added api cs d k u) by (try done; by apply clamped_keys, entries_NoDup).
    injection H2 as E1 E2 E3 E4 E5. unfold f, pays. cbn [fst snd]. rewrite E1, E3, E4. lia.
Qed.

Lemma record_tick_conserves_witness :
  let u := sample_user <| u_admin_id := Some 7 |> <| u_data_limit := Some 100 |>
             <| u_used_traffic := 80 |> in
  let d := empty_db <| users := {[ 1 := u ]} |>
             <| admins := {[ 7 := mkAdmin "r" false 500 None None 0 None None None 0 ]} |> in
  let api := [(Some 3, [mkParam (mkUid false 1) 50 0 0])] in
  let d' := (record_aggregated_user_usages true (λ _ v, v) false 7200 api ∅ d).1 in
  (∃ u', users d' !! 1 = Some u' ∧ u_used_traffic u' = 100 ∧ u_status u' = limited) ∧
  (a_users_usage <$> admins d' !! 7) = Some 520.
Proof.
  split; [|vm_compute; reflexivity].
  destruct (proj1 (record_tick_conserves true (λ _ v, v) false 7200
    [(Some 3, [mkParam (mkUid false 1) 50 0 0])] ∅
    (empty_db <| users := {[ 1 := sample_user <| u_admin_id := Some 7 |> <| u_data_limit := Some 100 |>
             <| u_used_traffic := 80 |> ]} |>
             <| admins := {[ 7 := mkAdmin "r" false 500 None None 0 None None None 0 ]} |>)
    ltac:(apply (bool_decide_unpack _); vm_compute; exact I)) 1 _ eq_refl)
    as (u' & H1 & H2 & _ & H3 & H4).
  exists u'. split; [exact H1|]. split; [exact H2|].
  change (_ = _) with (u_used_traffic u' = 100) in H2.
  rewrite H4. unfold at_limit. cbn. rewrite H2, H3. reflexivity.
Defined.

(** A tick writes users, resellers and node rows, nothing else. *)
Lemma tick_frame {T} (p : DB → T) pg sm dis now api cs d :
  (∀ d x, p (d <| users := x |>) = p d) → (∀ d x, p (d <| admins := x |>) = p d) →
  (∀ d x, p (d <| node_user_usages := x |>) = p d) →
  p (bill_usage_tick pg sm dis now api cs d) = p d.
Proof.
  intros H1 H2 H3. unfold bill_usage_tick, record_overage_usages. rewrite H1.
  unfold record_aggregated_user_usages. destruct (aggregate_user_usage api cs); [done|].
  destruct (filter _ _); [done|]. destruct (clamp_usage_entries _ _) as [out hit].
  destruct out, hit; try done; destruct (limit_rows _ _ _) as [us newly]; cbn [fst];
    by rewrite H3, H2, H1.
Qed.

Lemma tick_admins pg sm dis now api cs d :
  admins (bill_usage_tick pg sm dis now api cs d) =
  add_admin_usage (admin_usage_of (users d) (tick_added api cs d)) (admins d).
Proof.
  unfold bill_usage_tick, record_overage_usages. row_frame.
  by destruct (tick_tables pg sm dis now api cs d) as (hit & spl & _ & _ & _ & ->).
Qed.

Lemma tick_admin_usage_nonneg api cs d aid :
  0 ≤ sum_at aid (admin_usage_of (users d) (tick_added api cs d)).
Proof.
  rewrite sum_admin_usage. apply sumZ_nonneg. intros e He.
  apply list_elem_of_omap in He as (e0 & _ & Hc). unfold clamped in Hc.
  destruct (users d !! e0.1) as [u|]; [|done]. destruct (Z.ltb_spec 0 (clamp_usage_delta
    (u_used_traffic u) (u_data_limit u) e0.2)); [|done]. injection Hc as <-. cbn.
  destruct (users d !! e0.1) as [v|]; [|done]. unfold pays. destruct (_ && _); lia.
Qed.

(** *** Two ways bytes are counted twice *)
Lemma add_overage_lookup l us k :
  add_all add_overage l us !! k =
  (λ u, u <| u_overage_traffic := u_overage_traffic u + sum_at k l |>) <$> us !! k.
Proof.
  unfold add_all. revert us. induction l as [|[j v] l IH]; intros us; cbn [foldl].
  { unfold sum_at. rewrite sumZ_nil. destruct (us !! k) as [u|]; [|done]. cbn.
    rewrite Z.add_0_r. by destruct u. }
  rewrite IH, lookup_alter. unfold sum_at. autorewrite with sumZ. cbn [fst snd].
  repeat case_decide; subst; try done; destruct (us !! k) as [u|]; cbn; try done.
  by rewrite Z.add_assoc.
Qed.

(** The tick in which an active user reaches the data limit counts the bytes
    that still fitted twice: they are billed up to the limit, and then, the user
    being limited by the time the overage writer runs, the whole reported
    amount is recorded as overage. *)
Theorem limit_tick_counts_twice pg sm dis now api cs d k u l :
  NoDup (ints (aggregate_user_usage api cs)).*1 → users d !! k = Some u →
  u_status u = active → u_data_limit u = Some l → 0 < l → u_used_traffic u < l →
  l - u_used_traffic u ≤ reported api cs k →
  let d' := bill_usage_tick pg sm dis now api cs d in
  ∃ u', users d' !! k = Some u' ∧ u_used_traffic u' = l ∧ u_status u' = limited ∧
    u_overage_traffic u' = u_overage_traffic u + reported api cs k ∧
    u_used_traffic u' + u_overage_traffic u' =
      u_used_traffic u + u_overage_traffic u + reported api cs k + (l - u_used_traffic u).
Proof.
  intros Hnd Hu Hs Hl Hpos Hlt Hrep d'.
  assert (Hg : tick_growth api cs k u = l - u_used_traffic u).
  { unfold tick_growth, billable, growth, clamp_usage_delta. rewrite Hs, Hl. cbn.
    destruct (Z.ltb_spec 0 l); [|lia]. cbn. destruct (Z.leb_spec (reported api cs k) 0); lia. }
  pose proof (tick_row pg sm dis now api cs d k u Hnd Hu) as H.
  apply fmap_Some in H as (u1 & Hu1 & Hc). symmetry in Hc. injection Hc as E1 E2 E3 E4 E5.
  rewrite Hg in E1. unfold tick_status in E2. rewrite Hg in E2. unfold at_limit in E2. cbn in E2.
  rewrite Hs, Hl in E2. cbn in E2.
  destruct (Z.ltb_spec 0 (l - u_used_traffic u)), (Z.ltb_spec 0 l),
    (Z.leb_spec l (u_used_traffic u + (l - u_used_traffic u))); try lia. cbn in E2.
  subst d'. unfold bill_usage_tick, record_overage_usages.
  set (d1 := (record_aggregated_user_usages pg sm dis now api cs d).1) in *. cbn [over users].
  set (E := ints (aggregate_user_usage api cs)) in *.
  assert (Hsum : sum_at k (filter (λ e, (billable <$> users d1 !! e.1) = Some false ∧ 0 < e.2) E)
    = reported api cs k).
  { pose proof (sum_at_ints k api cs) as Hr. fold E in Hr.
    destruct (decide (k ∈ E.*1)) as [Hin|Hn]; [|rewrite sum_at_notin in Hr by done; lia].
    apply list_elem_of_fmap in Hin as ([k' v] & -> & Hin). cbn [fst] in *.
    rewrite (sum_at_in k' v E Hnd Hin) in Hr. subst v. apply sum_at_in.
    - eapply sublist_NoDup; [exact Hnd|]. apply fmap_sublist, sublist_filter.
    - apply list_elem_of_filter. split; [|done]. cbn. split; [|lia].
      change (billable <$> users d1 !! k' = Some false). rewrite Hu1. cbn. unfold billable. by rewrite E2. }
  change (users (d1 <| users := ?x |>)) with x.
  rewrite add_overage_lookup, Hu1, Hsum. eexists. split; [done|]. cbn. rewrite E1, E2, E5.
  split_and!; (done || lia).
Qed.

Lemma limit_tick_counts_twice_witness :
  let d := empty_db <| users := {[ 1 := sample_user <| u_data_limit := Some 100 |>
             <| u_used_traffic := 80 |> ]} |> in
  let d' := bill_usage_tick true (λ _ v, v) true 0 [(Some 3, [mkParam (mkUid false 1) 20 0 0])] ∅ d in
  ∃ u', users d' !! 1 = Some u' ∧ u_used_traffic u' = 100 ∧ u_overage_traffic u' = 20.
Proof.
  destruct (limit_tick_counts_twice true (λ _ v, v) true 0 [(Some 3, [mkParam (mkUid false 1) 20 0 0])] ∅
    (empty_db <| users := {[ 1 := sample_user <| u_data_limit := Some 100 |>
             <| u_used_traffic := 80 |> ]} |>) 1
    (sample_user <| u_data_limit := Some 100 |> <| u_used_traffic := 80 |>) 100)
    as (u' & H1 & H2 & _ & H3 & _); try (vm_compute; (reflexivity || discriminate)).
  - apply (bool_decide_unpack _). vm_compute. exact I.
  - exists u'. split; [exact H1|]. split; [exact H2|exact H3].
Defined.

(** A user reported by an Xray core (string id) and by another collector
    (integer id) in one tick. *)
Definition two_sources (n1 n2 : option Z) (k v1 v2 : Z) : api_params :=
  [(n1, [mkParam (mkUid true k) v1 0 0]); (n2, [mkParam (mkUid false k) v2 0 0])].

Lemma scale_one v : scale (mkCoef 1 1) v = v.
Proof. unfold scale. cbn. by rewrite Z.mul_1_r, Z.quot_1_r. Qed.

Lemma two_sources_added n1 n2 k v1 v2 d u l :
  users d !! k = Some u → u_status u = active → u_data_limit u = Some l → 0 < l →
  u_used_traffic u < l → l - u_used_traffic u ≤ v1 → l - u_used_traffic u ≤ v2 →
  tick_added (two_sources n1 n2 k v1 v2) ∅ d =
  [(k, l - u_used_traffic u); (k, l - u_used_traffic u)].
Proof.
  intros Hu Hs Hl Hpos Hlt H1 H2. unfold tick_added, tick_entries.
  assert (ints (aggregate_user_usage (two_sources n1 n2 k v1 v2) ∅) = [(k, v1); (k, v2)]) as ->.
  { unfold aggregate_user_usage, sum_by_uid, two_sources. cbn -[coefficient_of scale decide].
    rewrite decide_False by done. change (coefficient_of ∅ n1) with (mkCoef 1 1).
    change (coefficient_of ∅ n2) with (mkCoef 1 1). by rewrite !scale_one. }
  rewrite !filter_cons_True, filter_nil by (cbn; by rewrite Hu; cbn; unfold billable; rewrite Hs).
  assert (Hc : ∀ v, l - u_used_traffic u ≤ v →
    clamped (users d) (k, v) = Some (k, l - u_used_traffic u)).
  { intros v Hv. unfold clamped. cbn. rewrite Hu, Hl. unfold clamp_usage_delta. cbn.
    destruct (Z.ltb_spec 0 l), (Z.leb_spec v 0); try lia. cbn.
    replace (Z.min v (Z.max 0 (l - u_used_traffic u))) with (l - u_used_traffic u) by lia.
    by destruct (Z.ltb_spec 0 (l - u_used_traffic u)); [|lia]. }
  cbn. by rewrite !Hc.
Qed.

(** A user that transfers through an Xray core and through another protocol
    in the same tick is two keys of the aggregation, and each is clamped to the
    same remaining quota: the user's counter stops at the limit, but the
    reseller is metered for the remainder twice. *)
Theorem mixed_keys_meter_twice pg sm dis now n1 n2 k v1 v2 d u l aid a :
  users d !! k = Some u → u_status u = active → u_data_limit u = Some l → 0 < l →
  u_used_traffic u < l → l - u_used_traffic u ≤ v1 → l - u_used_traffic u ≤ v2 →
  u_admin_id u = Some aid → aid ≠ 0 → admins d !! aid = Some a →
  let d' := (record_aggregated_user_usages pg sm dis now (two_sources n1 n2 k v1 v2) ∅ d).1 in
  (u_used_traffic <$> users d' !! k) = Some l ∧
  (a_users_usage <$> admins d' !! aid) = Some (a_users_usage a + 2 * (l - u_used_traffic u)).
Proof.
  intros Hu Hs Hl Hpos Hlt H1 H2 Ha Ha0 Had d'. set (r := l - u_used_traffic u) in *.
  destruct (tick_tables pg sm dis now (two_sources n1 n2 k v1 v2) ∅ d)
    as (hit & spl & Hus & Hh & _ & Hadm). fold d' in Hus, Hadm.
  pose proof (two_sources_added n1 n2 k v1 v2 d u l Hu Hs Hl Hpos Hlt H1 H2) as HC. fold r in HC.
  rewrite HC in Hadm. split.
  - rewrite Hus, add_all_frame by done. rewrite limit_rows_lookup by done.
    assert (Hc : ∃ u1, counted (two_sources n1 n2 k v1 v2) ∅ d !! k = Some u1 ∧
      u_used_traffic u1 = l ∧ u_data_limit u1 = Some l).
    { unfold counted. rewrite HC.
      assert (sort_by by_uid [(k, r); (k, r)] = [(k, r); (k, r)]) as ->.
      { pose proof (sort_by_perm by_uid [(k, r); (k, r)]) as Hp.
        by destruct (Permutation_length_2_inv (Permutation_sym Hp)). }
      unfold add_all. cbn [foldl fst snd]. rewrite !lookup_alter_eq, Hu.
      eexists. split; [done|]. unfold add_traffic. rewrite Hl. cbn.
      repeat (match goal with |- context [?x <? ?y] => destruct (Z.ltb_spec x y); try lia end;
        cbn; rewrite ?Hl; cbn). done. }
    destruct Hc as (u1 & -> & Hu1 & Hd1). case_decide; cbn; [|by rewrite Hu1].
    unfold limit_user_quota, enforce_usage_cap. rewrite Hd1. cbn.
    destruct (Z.ltb_spec 0 l); [|lia]. cbn. rewrite Hu1, Z.min_id, Z.eqb_refl. cbn.
    destruct (negb _); cbn; [by rewrite Hu1|]. destruct (_ || _); cbn; by rewrite Hu1.
  - rewrite Hadm, add_admin_usage_lookup, Had, sum_admin_usage. autorewrite with sumZ. cbn [fst snd]. rewrite Hu.
    unfold pays. rewrite Ha, Hl, bool_decide_true by done. cbn.
    destruct (Z.eqb_spec aid 0); [done|]. destruct (Z.ltb_spec 0 l); [|lia]. cbn. f_equal. lia.
Qed.

Lemma mixed_keys_meter_twice_witness :
  let u := sample_user <| u_admin_id := Some 7 |> <| u_data_limit := Some 100 |>
             <| u_used_traffic := 80 |> in
  let d := empty_db <| users := {[ 1 := u ]} |>
             <| admins := {[ 7 := mkAdmin "r" false 500 None None 0 None None None 0 ]} |> in
  let d' := (record_aggregated_user_usages true (λ _ v, v) true 0
               (two_sources None (Some 3) 1 25 30) ∅ d).1 in
  (u_used_traffic <$> users d' !! 1) = Some 100 ∧ (a_users_usage <$> admins d' !! 7) = Some 540.
Proof.
  refine (mixed_keys_meter_twice true (λ _ v, v) true 0 None (Some 3) 1 25 30
    (empty_db <| users := {[ 1 := sample_user <| u_admin_id := Some 7 |>
       <| u_data_limit := Some 100 |> <| u_used_traffic := 80 |> ]} |>
       <| admins := {[ 7 := mkAdmin "r" false 500 None None 0 None None None 0 ]} |>)
    (sample_user <| u_admin_id := Some 7 |> <| u_data_limit := Some 100 |> <| u_used_traffic := 80 |>)
    100 7 (mkAdmin "r" false 500 None None 0 None None None 0) _ _ _ _ _ _ _ _ _ _);
    vm_compute; (reflexivity || discriminate).
Defined.

(** *** Hourly rows: the batched and the row-by-row writer *)
Definition bucket_total (u : Z) (n : option Z) (h : Z) (rows : list NodeUserUsage) : Z :=
  sumZ (λ r, if in_bucket u n h r then nu_used_traffic r else 0) rows.
Definition bucket_rows (u : Z) (n : option Z) (h : Z) (rows : list NodeUserUsage) : Z :=
  sumZ (λ r, if in_bucket u n h r then 1 else 0) rows.

(** The unique constraint (created_at, user_id, node_id). *)
Definition unique_buckets (rows : list NodeUserUsage) : Prop :=
  ∀ u n h, bucket_rows u n h rows ≤ 1.

Definition same_bucket (u : Z) (n : option Z) (h u' : Z) (n' : option Z) (h' : Z) : bool :=
  (u =? u') && bool_decide (n = n') && (h =? h').

Lemma in_bucket_same u n h u' n' h' r :
  in_bucket u n h r = true → in_bucket u' n' h' r = same_bucket u n h u' n' h'.
Proof.
  unfold in_bucket, same_bucket. intros [[H1 H2]%andb_prop H3]%andb_prop.
  apply bool_decide_eq_true in H2. apply Z.eqb_eq in H1, H3. by subst.
Qed.

Lemma same_bucket_refl u n h : same_bucket u n h u n h = true.
Proof. unfold same_bucket. by rewrite !Z.eqb_refl, bool_decide_true. Qed.

Lemma bucket_rows_nonneg u n h rows : 0 ≤ bucket_rows u n h rows.
Proof. apply sumZ_nonneg. intros r _. destruct (in_bucket u n h r); lia. Qed.

Lemma add_to_bucket_total u n h v rows u' n' h' :
  bucket_total u' n' h' (add_to_bucket u n h v rows) =
  bucket_total u' n' h' rows + (if same_bucket u n h u' n' h' then v * bucket_rows u n h rows else 0).
Proof.
  unfold bucket_total, add_to_bucket, bucket_rows.
  induction rows as [|r rows IH]; cbn [map]; autorewrite with sumZ; [destruct (same_bucket _ _ _ _ _ _); lia|].
  rewrite IH. destruct (in_bucket u n h r) eqn:E.
  - change (in_bucket u' n' h' (r <| nu_used_traffic := ?x |>)) with (in_bucket u' n' h' r).
    rewrite (in_bucket_same _ _ _ u' n' h' r E). destruct (same_bucket _ _ _ _ _ _); cbn; lia.
  - destruct (same_bucket _ _ _ _ _ _); lia.
Qed.

Lemma add_to_bucket_rows u n h v rows u' n' h' :
  bucket_rows u' n' h' (add_to_bucket u n h v rows) = bucket_rows u' n' h' rows.
Proof.
  unfold bucket_rows, add_to_bucket.
  induction rows as [|r rows IH]; cbn [map]; autorewrite with sumZ; [done|].
  rewrite IH. by destruct (in_bucket u n h r).
Qed.

Lemma bucket_exists u n h rows : existsb (in_bucket u n h) rows = (0 <? bucket_rows u n h rows).
Proof.
  unfold bucket_rows. induction rows as [|r rows IH]; cbn [existsb]; autorewrite with sumZ; [done|].
  rewrite IH. pose proof (bucket_rows_nonneg u n h rows) as Hn. unfold bucket_rows in Hn.
  destruct (in_bucket u n h r); cbn [orb]; symmetry; [apply Z.ltb_lt; lia|]. by rewrite Z.add_0_l.
Qed.

Lemma in_bucket_new u n h v u' n' h' :
  in_bucket u' n' h' (mkNodeUserUsage u n h v) = same_bucket u n h u' n' h'.
Proof. done. Qed.

Lemma upsert_row_spec n h rows e :
  unique_buckets rows → unique_buckets (upsert_row n h rows e) ∧
  ∀ u' n' h', bucket_total u' n' h' (upsert_row n h rows e) =
    bucket_total u' n' h' rows + (if same_bucket e.1 n h u' n' h' then e.2 else 0).
Proof.
  intros Hu. unfold upsert_row. rewrite bucket_exists.
  destruct (Z.ltb_spec 0 (bucket_rows e.1 n h rows)) as [Hp|Hz].
  - split; [intros u' n' h'; rewrite add_to_bucket_rows; apply Hu|]. intros u' n' h'.
    rewrite add_to_bucket_total. specialize (Hu e.1 n h).
    assert (bucket_rows e.1 n h rows = 1) as -> by lia. destruct (same_bucket _ _ _ _ _ _); lia.
  - split.
    + intros u' n' h'. unfold bucket_rows. autorewrite with sumZ. rewrite in_bucket_new.
      fold (bucket_rows u' n' h' rows). specialize (Hu u' n' h').
      destruct (same_bucket e.1 n h u' n' h') eqn:E; [|lia].
      assert (bucket_rows u' n' h' rows = bucket_rows e.1 n h rows); [|lia].
      unfold same_bucket in E. apply andb_prop in E as [[E1 E2]%andb_prop E3].
      apply bool_decide_eq_true in E2. apply Z.eqb_eq in E1, E3. by subst.
    + intros u' n' h'. unfold bucket_total. autorewrite with sumZ. rewrite in_bucket_new. cbn.
      destruct (same_bucket _ _ _ _ _ _); lia.
Qed.

(** What a list of (user, bytes) adds to a bucket of node [n] and hour [h]. *)
Definition adds_to (n : option Z) (h : Z) (l : list (Z * Z)) (u' : Z) (n' : option Z) (h' : Z) : Z :=
  sumZ (λ e, (if same_bucket e.1 n h u' n' h' then 1 else 0) * e.2) l.

Lemma upsert_rows_spec n h l rows :
  unique_buckets rows → unique_buckets (foldl (upsert_row n h) rows l) ∧
  ∀ u' n' h', bucket_total u' n' h' (foldl (upsert_row n h) rows l) =
    bucket_total u' n' h' rows + adds_to n h l u' n' h'.
Proof.
  unfold adds_to. revert rows. induction l as [|e l IH]; intros rows Hu; cbn [foldl].
  { split; [done|]. intros. autorewrite with sumZ. lia. }
  destruct (upsert_row_spec n h rows e Hu) as [H1 H2]. destruct (IH _ H1) as [H3 H4].
  split; [done|]. intros u' n' h'. rewrite H4, H2. autorewrite with sumZ.
  destruct (same_bucket _ _ _ _ _ _); lia.
Qed.

Lemma coalesce_adds n h l u' n' h' : adds_to n h (_coalesce_rows l) u' n' h' = adds_to n h l u' n' h'.
Proof.
  unfold adds_to, _coalesce_rows.
  pose (g := λ u, if same_bucket u n h u' n' h' then 1 else 0).
  enough (H : ∀ acc, sumZ (λ e, g e.1 * e.2) (foldl (λ acc e, dict_add e.1 e.2 acc) acc l) =
    sumZ (λ e, g e.1 * e.2) acc + sumZ (λ e, g e.1 * e.2) l) by (apply (H [])).
  induction l as [|e l IH]; intros acc; cbn [foldl]; autorewrite with sumZ; [lia|].
  rewrite IH, sum_dict_add. lia.
Qed.

(** One UPDATE per parameter, each user having its one row. *)
Lemma update_rows_spec n h f (ps : list Param) rows :
  (∀ p, p ∈ ps → bucket_rows (uid_int (pm_uid p)) n h rows = 1) →
  ∀ u' n' h', bucket_total u' n' h' (foldl (λ rows p,
      add_to_bucket (uid_int (pm_uid p)) n h (f p) rows) rows ps) =
    bucket_total u' n' h' rows + adds_to n h (map (λ p, (uid_int (pm_uid p), f p)) ps) u' n' h'.
Proof.
  unfold adds_to. revert rows. induction ps as [|p ps IH]; intros rows H1 u' n' h'; cbn [foldl map].
  { autorewrite with sumZ. lia. }
  rewrite IH.
  - rewrite add_to_bucket_total, (H1 p) by constructor. autorewrite with sumZ. cbn [fst snd].
    destruct (same_bucket _ _ _ _ _ _); lia.
  - intros q Hq. rewrite add_to_bucket_rows. apply H1. by constructor.
Qed.

Lemma bucket_rows_inserted u n h ins :
  NoDup ins →
  bucket_rows u n h (map (λ uid, mkNodeUserUsage uid n h 0) ins) = if decide (u ∈ ins) then 1 else 0.
Proof.
  unfold bucket_rows. induction ins as [|x ins IH]; intros Hnd; cbn [map]; autorewrite with sumZ.
  { by rewrite decide_False by apply not_elem_of_nil. }
  apply NoDup_cons in Hnd as [Hx Hnd]. rewrite IH by done. rewrite in_bucket_new.
  unfold same_bucket. rewrite Z.eqb_refl, bool_decide_true, andb_true_r, andb_true_r by done.
  destruct (Z.eqb_spec x u) as [->|Hne].
  - rewrite decide_False, decide_True by (done || constructor). done.
  - destruct (decide (u ∈ ins)); [rewrite decide_True by (by constructor); lia|].
    rewrite decide_False; [lia|]. by intros [?|?]%elem_of_cons.
Qed.

Lemma existing_uid u n h rows :
  u ∈ map nu_user_id (filter (λ r, nu_node_id r = n ∧ nu_created_at r = h) rows) ↔
  0 < bucket_rows u n h rows.
Proof.
  rewrite <-Z.ltb_lt, <-bucket_exists, existsb_exists. split.
  - intros Hin. apply list_elem_of_fmap in Hin as (r & -> & Hr).
    apply list_elem_of_filter in Hr as [[<- <-] Hr]. exists r. split; [by apply list_elem_of_In|].
    unfold in_bucket. by rewrite !Z.eqb_refl, bool_decide_true.
  - intros (r & Hr & Hb). apply list_elem_of_In in Hr. unfold in_bucket in Hb.
    apply andb_prop in Hb as [[H1 H2]%andb_prop H3]. apply bool_decide_eq_true in H2.
    apply Z.eqb_eq in H1, H3. apply list_elem_of_fmap. exists r. split; [done|].
    by apply list_elem_of_filter.
Qed.

Lemma record_rows_spec sm ps n h c rows :
  unique_buckets rows →
  ∀ u' n' h', bucket_total u' n' h' (record_rows sm ps n h c rows) = bucket_total u' n' h' rows +
    adds_to n h (map (λ p, (uid_int (pm_uid p), sm c (pm_value p))) ps) u' n' h'.
Proof.
  intros Hu u' n' h'. unfold record_rows.
  set (ex := map nu_user_id _). set (ins := remove_dups _).
  rewrite (update_rows_spec n h (λ p, sm c (pm_value p))).
  - f_equal. unfold bucket_total. autorewrite with sumZ.
    rewrite (sumZ_zero _ (map _ ins)); [lia|]. intros r Hr.
    apply list_elem_of_fmap in Hr as (uid & -> & _). by destruct (in_bucket _ _ _ _).
  - intros p Hp. set (u := uid_int (pm_uid p)).
    unfold bucket_rows. autorewrite with sumZ. fold (bucket_rows u n h rows).
    fold (bucket_rows u n h (map (λ uid, mkNodeUserUsage uid n h 0) ins)).
    rewrite bucket_rows_inserted by apply NoDup_remove_dups.
    assert (Hins : u ∈ ins ↔ ¬ 0 < bucket_rows u n h rows).
    { unfold ins. rewrite elem_of_remove_dups, list_elem_of_filter. unfold ex.
      rewrite existing_uid. split; [tauto|]. intros H. split; [done|].
      apply list_elem_of_fmap. by exists p. }
    specialize (Hu u n h). pose proof (bucket_rows_nonneg u n h rows).
    case_decide as Hd; rewrite Hins in Hd; lia.
Qed.

(** C38. The batched PostgreSQL writer and the portable row-by-row writer record
    the same hourly totals: for positive byte counts, a whole-number
    coefficient, a node of its own and one row per bucket before, every (user, node, hour) bucket ends with the same sum under
    both, duplicate users in one batch included, and the batched one keeps one
    row per bucket. *)
Theorem upsert_agrees_with_row_by_row sm now ps nd c rows :
  (∀ v, sm (mkCoef c 1) v = c * v) → (∀ p, p ∈ ps → 0 < pm_value p) → unique_buckets rows →
  let batched := record_user_stats true sm now ps (Some nd) (mkCoef c 1) rows in
  let row_by_row := record_user_stats false sm now ps (Some nd) (mkCoef c 1) rows in
  unique_buckets batched ∧
  ∀ u n h, bucket_total u n h batched = bucket_total u n h row_by_row.
Proof.
  intros Hsm Hpos Hu. unfold record_user_stats, upsert_node_user_usage. set (h := hour_of now).
  assert (Hnew : omap (λ p, if 0 <? pm_value p
      then Some (uid_int (pm_uid p), scale (mkCoef c 1) (pm_value p)) else None) ps =
    map (λ p, (uid_int (pm_uid p), sm (mkCoef c 1) (pm_value p))) ps).
  { clear -Hsm Hpos. induction ps as [|p ps IH]; [done|]. cbn [omap list_omap map].
    rewrite IH by (intros q Hq; apply Hpos; by constructor).
    assert (0 < pm_value p) by (apply Hpos; constructor).
    destruct (Z.ltb_spec 0 (pm_value p)); [|lia]. do 2 f_equal. rewrite Hsm. unfold scale. cbn.
    rewrite Z.quot_1_r. lia. }
  destruct ps as [|p ps]; [done|]. rewrite Hnew. cbn [map is_none].
  set (new := (_, _) :: _).
  destruct (upsert_rows_spec (Some nd) h (_coalesce_rows new) rows Hu) as [H1 H2].
  split; [exact H1|]. intros u n h'. rewrite H2, coalesce_adds.
  rewrite (record_rows_spec sm (p :: ps) (Some nd) h (mkCoef c 1) rows Hu). done.
Qed.

Lemma upsert_agrees_with_row_by_row_witness :
  let ps := [mkParam (mkUid true 1) 5 0 0; mkParam (mkUid false 1) 7 0 0] in
  let rows := [mkNodeUserUsage 1 (Some 3) 3600 10] in
  bucket_total 1 (Some 3) 3600 (record_user_stats true (λ c v, cf_num c * v) 4000 ps (Some 3) (mkCoef 2 1) rows)
  = bucket_total 1 (Some 3) 3600 (record_user_stats false (λ c v, cf_num c * v) 4000 ps (Some 3) (mkCoef 2 1) rows).
Proof.
  refine (proj2 (upsert_agrees_with_row_by_row (λ c v, cf_num c * v) 4000
    [mkParam (mkUid true 1) 5 0 0; mkParam (mkUid false 1) 7 0 0] 3 2
    [mkNodeUserUsage 1 (Some 3) 3600 10] _ _ _) 1 (Some 3) 3600).
  - reflexivity.
  - intros p Hp. repeat (apply elem_of_cons in Hp as [->|Hp]; [cbn; lia|]). by apply elem_of_nil in Hp.
  - intros u n h. unfold bucket_rows. autorewrite with sumZ. destruct (in_bucket _ _ _ _); lia.
Defined.

End RecordUsageFacts.
