(* ===== verification/Wallet.v ===== *)
(** * Wallet: the prepaid ledger

    [app/billing/__init__.py] (wallets, transactions, invoices, bring-your-own
    node rates) and [app/billing/commission.py].  Operations run in a session
    ([M DB]); the ledger's equations are stated on [apply_tx], the effect of one
    committed transaction. *)
From S2P Require Import Prelude Store.

Module Wallet.

Definition get_or_create_wallet (admin_id : Z) : M DB Z :=
  let* w := gets (λ d, wallets d !! admin_id) in
  match w with
  | Some balance => ret balance
  | None =>
      modify (λ d, d <| wallets := <[admin_id := 0]> (wallets d) |>) ;;;
      commit ;;;
      ret 0
  end.

(** The part of [add_transaction] before the commission hook; with
    [skip_commission=True] it is the whole function. *)
Definition post_transaction (admin_id amount : Z) (type : string) (reference : Reference)
    : M DB Transaction :=
  get_or_create_wallet admin_id ;;;
  let tx := mkTransaction admin_id amount type reference in
  modify (λ d, d <| transactions := transactions d ++ [tx] |>
                 <| wallets := alter (λ b, b + amount) admin_id (wallets d) |>) ;;;
  commit ;;;
  ret tx.

(** [commission.credit_parent_commission] *)
Definition credit_parent_commission (admin_id debit_amount : Z) (reference : Reference)
    : M DB unit :=
  if 0 <=? debit_amount then ret tt
  else
    let* child := gets (λ d, admins d !! admin_id) in
    match child with
    | None => ret tt
    | Some child =>
        if negb (truthy (a_parent_admin_id child)) then ret tt
        else
          let* pct := gets (λ d,
            if a_commission_percent child <=? 0
            then get_int d "reseller.default_commission_percent" 0
            else a_commission_percent child) in
          if pct <=? 0 then ret tt
          else
            let commission := Z.abs debit_amount * pct / 100 in
            if commission <=? 0 then ret tt
            else
              post_transaction (or0 (a_parent_admin_id child)) commission
                "commission" reference ;;;
              ret tt
    end.

Definition add_transaction (admin_id amount : Z) (type : string) (reference : Reference)
    (skip_commission : bool) : M DB Transaction :=
  let* tx := post_transaction admin_id amount type reference in
  let* id := gets (λ d, Z.of_nat (length (transactions d))) in
  when (negb skip_commission && (amount <? 0)
        && negb (String.eqb type "commission" || String.eqb type "invoice"))
    (credit_parent_commission admin_id amount
       (match reference with RefNone => RefTx id | r => r end)) ;;;
  ret tx.

(** Autoincrement key of a keyed table. *)
Definition next_key {A} (m : gmap Z A) : Z :=
  map_fold (λ k _ acc, Z.max k acc) 0 m + 1.

Definition create_invoice (admin_id amount : Z) (plan_id : option Z)
    (provider : option string) : M DB Z :=
  let* iid := gets (λ d, next_key (invoices d)) in
  modify (λ d, d <| invoices :=
    <[iid := mkInvoice admin_id amount plan_id provider "pending" None]> (invoices d) |>) ;;;
  commit ;;;
  ret iid.

Definition pay_invoice (now : Z) (iid : Z) (provider_name : option string) : M DB unit :=
  let* inv := gets (λ d, invoices d !! iid) in
  match inv with
  | None => raise (HTTPException 404 "Invoice not found")
  | Some inv =>
      if String.eqb (i_status inv) "paid" then ret tt
      else if String.eqb (i_status inv) "canceled" then raise (ValueError "Invoice is canceled")
      else
        let* balance := get_or_create_wallet (i_admin_id inv) in
        if balance <? i_amount inv then raise InsufficientWalletBalance
        else
          modify (λ d, d <| invoices := alter (λ i,
            if_some provider_name (λ p i, i <| i_provider := Some p |>)
              (i <| i_status := "paid" |> <| i_paid_at := Some now |>)) iid (invoices d) |>) ;;;
          add_transaction (i_admin_id inv) (- i_amount inv) "invoice" (RefInvoice iid) false ;;;
          ret tt
  end.

(** Newest first; ledger order is creation order. *)
Definition list_transactions (d : DB) (admin_id : Z) (limit : nat) : list Transaction :=
  take limit (rev (filter (λ t, tx_admin_id t = admin_id) (transactions d))).

Definition effective_rate (base_rate discount_percent : Z) : Z :=
  let pct := Z.max 0 (Z.min 100 discount_percent) in
  Z.max 0 (base_rate * (100 - pct) / 100).

Definition usage_cost (base_rate owned_units foreign_units discount_percent : Z) : Z :=
  Z.max 0 owned_units * effective_rate base_rate discount_percent
  + Z.max 0 foreign_units * base_rate.

End Wallet.

(** ** The ledger as a specification *)
Module Ledger.
Import Wallet.

Definition balance (d : DB) (a : Z) : Z := default 0 (wallets d !! a).

Definition ledger_sum (a : Z) (l : list Transaction) : Z :=
  sumZ (λ t, if tx_admin_id t =? a then tx_amount t else 0) l.

(** Every wallet is the running sum of its transactions. *)
Definition ledger_ok (d : DB) : Prop :=
  ∀ a, balance d a = ledger_sum a (transactions d).

(** One committed ledger entry. *)
Definition apply_tx (t : Transaction) (d : DB) : DB :=
  d <| transactions := transactions d ++ [t] |>
    <| wallets := <[tx_admin_id t := balance d (tx_admin_id t) + tx_amount t]> (wallets d) |>.

(** The commission entry a debit triggers, if any. *)
Definition commission_tx (d : DB) (admin_id debit : Z) (reference : Reference)
    : option Transaction :=
  match admins d !! admin_id with
  | None => None
  | Some child =>
      let pct := if a_commission_percent child <=? 0
                 then get_int d "reseller.default_commission_percent" 0
                 else a_commission_percent child in
      let commission := Z.abs debit * pct / 100 in
      if (0 <=? debit) || negb (truthy (a_parent_admin_id child)) || (pct <=? 0)
         || (commission <=? 0) then None
      else Some (mkTransaction (or0 (a_parent_admin_id child)) commission "commission" reference)
  end.

Definition apply_opt_tx (o : option Transaction) (d : DB) : DB :=
  match o with Some t => apply_tx t d | None => d end.

Lemma balance_apply_tx t d a :
  balance (apply_tx t d) a = balance d a + if tx_admin_id t =? a then tx_amount t else 0.
Proof.
  unfold balance, apply_tx. cbn. rewrite lookup_insert.
  destruct (Z.eqb_spec (tx_admin_id t) a); case_decide; subst; cbn; try done; lia.
Qed.

Lemma ledger_sum_snoc a l t :
  ledger_sum a (l ++ [t]) = ledger_sum a l + if tx_admin_id t =? a then tx_amount t else 0.
Proof. unfold ledger_sum. autorewrite with sumZ. lia. Qed.

Lemma ledger_ok_apply_tx t d : ledger_ok d → ledger_ok (apply_tx t d).
Proof.
  intros H a. rewrite balance_apply_tx, (H a). cbn. by rewrite ledger_sum_snoc.
Qed.

(** A session operation with a closed-form effect on the session view: it
    returns [a] and leaves view and committed state equal to [f view]. *)
Definition commits {A} (m : M DB A) (s : Session DB) (a : A) (d' : DB) : Prop :=
  m s = (Ok a, mkSession d' d').

Lemma post_transaction_commits s aid amount type ref :
  commits (post_transaction aid amount type ref) s
    (mkTransaction aid amount type ref)
    (apply_tx (mkTransaction aid amount type ref) (work s)).
Proof.
  unfold commits, post_transaction, get_or_create_wallet, apply_tx, balance. cbn.
  destruct s as [d sd]. unfold bind, gets, modify, commit, ret. cbn.
  destruct (wallets d !! aid) as [b|] eqn:E; cbn.
  - assert (alter (λ b, b + amount) aid (wallets d) = <[aid := b + amount]> (wallets d)) as ->.
    { apply map_eq. intros i. rewrite lookup_alter, lookup_insert.
      case_decide; subst; [by rewrite E|done]. }
    done.
  - rewrite alter_insert_eq. done.
Qed.

Lemma credit_parent_commission_effect s aid debit ref :
  credit_parent_commission aid debit ref s =
  (Ok tt, match commission_tx (work s) aid debit ref with
          | Some t => mkSession (apply_tx t (work s)) (apply_tx t (work s))
          | None => s
          end).
Proof.
  unfold credit_parent_commission, commission_tx. destruct s as [d sd0]; cbn.
  destruct (Z.leb_spec 0 debit) as [Hd|Hd]; [by destruct (admins d !! aid)|].
  unfold bind, gets, ret; cbn. destruct (admins d !! aid) as [child|]; cbn; [|done].
  destruct (truthy (a_parent_admin_id child)); cbn; [|done].
  set (pct := if a_commission_percent child <=? 0 then _ else _). clearbody pct.
  destruct (pct <=? 0); cbn; [done|]. destruct (_ <=? 0); cbn; [done|].
  match goal with |- context [post_transaction ?a ?b ?c ?e ?s] =>
    rewrite (post_transaction_commits s a b c e) end. done.
Qed.

(** The database after a complete [add_transaction]. *)
Definition add_tx_state (aid amount : Z) (type : string) (ref : Reference) (skip : bool) (d : DB)
    : DB :=
  let t := mkTransaction aid amount type ref in
  let d1 := apply_tx t d in
  if negb skip && (amount <? 0)
     && negb (String.eqb type "commission" || String.eqb type "invoice")
  then apply_opt_tx (commission_tx d1 aid amount
         (match ref with RefNone => RefTx (Z.of_nat (length (transactions d1))) | r => r end)) d1
  else d1.

(** Nothing but the ledger tables changes. *)
Lemma add_tx_state_frame {T} (p : DB → T) aid amount type ref skip d :
  (∀ d x y, p (d <| transactions := x |> <| wallets := y |>) = p d) →
  p (add_tx_state aid amount type ref skip d) = p d.
Proof.
  intros H. assert (Ha : ∀ t d, p (apply_tx t d) = p d) by (intros; apply H).
  unfold add_tx_state. destruct (_ && _); [|apply Ha].
  destruct (commission_tx _ _ _ _); cbn -[apply_tx]; by rewrite !Ha.
Qed.

Lemma add_transaction_commits s aid amount type ref skip :
  commits (add_transaction aid amount type ref skip) s
    (mkTransaction aid amount type ref) (add_tx_state aid amount type ref skip (work s)).
Proof.
  unfold commits, add_transaction, add_tx_state. unfold bind at 1.
  rewrite (post_transaction_commits s). unfold bind, gets. cbn [work].
  set (d1 := apply_tx _ _). unfold when.
  destruct (negb skip && (amount <? 0) && _); [|done].
  rewrite credit_parent_commission_effect. cbn [work].
  by destruct (commission_tx _ _ _ _).
Qed.

Lemma preserves_add_transaction aid amount type ref skip :
  preserves ledger_ok (add_transaction aid amount type ref skip).
Proof.
  intros s [Hw _]. rewrite (add_transaction_commits s). cbn [snd].
  assert (ledger_ok (add_tx_state aid amount type ref skip (work s))); [|done].
  unfold add_tx_state. destruct (_ && _); [|by apply ledger_ok_apply_tx].
  destruct (commission_tx _ _ _ _); cbn; by repeat apply ledger_ok_apply_tx.
Qed.

Lemma preserves_get_or_create_wallet aid : preserves ledger_ok (get_or_create_wallet aid).
Proof.
  unfold get_or_create_wallet. intros s [Hw Hs]. unfold bind, gets. cbn.
  destruct (wallets (work s) !! aid) eqn:E; [done|].
  assert (ledger_ok ((work s) <| wallets := <[aid := 0]> (wallets (work s)) |>)); [|done].
  intros a. etransitivity; [|exact (Hw a)]. unfold balance. cbn. rewrite lookup_insert.
  case_decide; subst; [by rewrite E|done].
Qed.

Lemma preserves_ledger_modify (f : DB → DB) :
  (∀ d, wallets (f d) = wallets d ∧ transactions (f d) = transactions d) →
  preserves ledger_ok (modify f).
Proof.
  intros Hf. apply preserves_modify. intros d H a. unfold balance in *.
  destruct (Hf d) as [-> ->]. apply H.
Qed.

#[export] Hint Resolve preserves_add_transaction preserves_get_or_create_wallet : session.
#[export] Hint Extern 5 (preserves ledger_ok (modify _)) =>
  apply preserves_ledger_modify; intros; split; reflexivity : session.

Lemma next_key_fresh {A} (m : gmap Z A) : m !! next_key m = None.
Proof.
  destruct (m !! next_key m) as [x|] eqn:E; [|done]. exfalso.
  assert (H : ∀ (m : gmap Z A) k x, m !! k = Some x → k ≤ map_fold (λ k _ acc, Z.max k acc) 0 m).
  { clear. intros m. apply (map_fold_weak_ind (λ r m, ∀ k x, m !! k = Some x → k ≤ r)).
    - intros k x. by rewrite lookup_empty.
    - intros i x m' r Hi IH k y. rewrite lookup_insert. case_decide; subst; [lia|].
      intros Hy. specialize (IH k y Hy). lia. }
  unfold next_key in E. specialize (H _ _ _ E). lia.
Qed.

End Ledger.

Module WalletFacts.
Import Wallet Ledger.

Lemma length_apply_opt_tx o d :
  length (transactions (apply_opt_tx o d)) =
  (length (transactions d) + if o then 1 else 0)%nat.
Proof. destruct o; cbn; rewrite ?length_app; cbn; lia. Qed.

Lemma commission_tx_bounds d aid debit ref t :
  commission_tx d aid debit ref = Some t →
  debit < 0 ∧ 0 < tx_amount t ∧ tx_type t = "commission" ∧
  ∃ child pct, admins d !! aid = Some child ∧
    a_parent_admin_id child = Some (tx_admin_id t) ∧
    0 < pct ∧ 100 * tx_amount t ≤ - debit * pct ∧
    pct = (if a_commission_percent child <=? 0
           then get_int d "reseller.default_commission_percent" 0
           else a_commission_percent child).
Proof.
  unfold commission_tx. destruct (admins d !! aid) as [child|]; [|done].
  set (pct := if a_commission_percent child <=? 0 then _ else _). destruct (_ || _) eqn:E; [done|]. intros [= <-]. cbn.
  boolp. repeat split; try lia. exists child, pct.
  destruct (a_parent_admin_id child); [|done]. repeat split; try lia.
  rewrite Z.abs_neq by lia. apply Z.mul_div_le. lia.
Qed.

(** C11. A ledger entry moves exactly its amount: posting a transaction changes
    the payer's balance by [amount], credits at most one commission to the
    payer's parent, which is positive, at most the configured percentage of the
    debit and itself earns no commission, and touches no other wallet. *)
Theorem add_transaction_moves_exactly d aid amount type ref skip :
  let '(r, d') := run_session (add_transaction aid amount type ref skip) d in
  r = Ok (mkTransaction aid amount type ref) ∧
  ∃ c : option Transaction,
    (∀ a, balance d' a = balance d a + (if aid =? a then amount else 0)
            + match c with Some t => if tx_admin_id t =? a then tx_amount t else 0
                         | None => 0 end) ∧
    transactions d' = transactions d ++ [mkTransaction aid amount type ref]
                        ++ match c with Some t => [t] | None => [] end ∧
    (∀ t, c = Some t → amount < 0 ∧ 0 < tx_amount t ∧
       ∃ child pct, admins d !! aid = Some child ∧
         a_parent_admin_id child = Some (tx_admin_id t) ∧
         100 * tx_amount t ≤ - amount * pct ∧
         pct = (if a_commission_percent child <=? 0
                then get_int d "reseller.default_commission_percent" 0
                else a_commission_percent child)).
Proof.
  unfold run_session. rewrite (add_transaction_commits (mkSession d d)).
  cbn [work saved]. split; [done|].
  unfold add_tx_state. destruct (_ && _).
  2: { exists None. cbn -[apply_tx]. split; [|done].
       intros a. rewrite balance_apply_tx. cbn. lia. }
  destruct (commission_tx _ _ _ _) as [t|] eqn:E; cbn -[apply_tx].
  - exists (Some t). split; [|split].
    + intros a. rewrite !balance_apply_tx. cbn. lia.
    + cbn. by rewrite <-app_assoc.
    + intros ? [= <-]. apply commission_tx_bounds in E as (? & ? & _ & child & pct & ?).
      destruct_and!. eauto 10.
  - exists None. cbn -[apply_tx]. split; [|done].
    intros a. rewrite balance_apply_tx. cbn. lia.
Qed.

Lemma add_tx_state_balance aid amount type ref skip d :
  type = "invoice" → balance (add_tx_state aid amount type ref skip d) aid = balance d aid + amount.
Proof.
  intros ->. unfold add_tx_state. cbn. rewrite andb_false_r.
  rewrite balance_apply_tx. cbn. by rewrite Z.eqb_refl.
Qed.

Lemma add_tx_state_balance_self aid amount type ref skip d :
  (∀ child, admins d !! aid = Some child → a_parent_admin_id child ≠ Some aid) →
  balance (add_tx_state aid amount type ref skip d) aid = balance d aid + amount.
Proof.
  intros Hp. unfold add_tx_state. destruct (_ && _).
  2: { rewrite balance_apply_tx. cbn. by rewrite Z.eqb_refl. }
  destruct (commission_tx _ _ _ _) as [t|] eqn:E; cbn -[apply_tx];
    rewrite !balance_apply_tx; cbn; rewrite Z.eqb_refl; [|done].
  apply commission_tx_bounds in E as (_ & _ & _ & child & pct & Hc & Hpar & _).
  change (admins d !! aid = Some child) in Hc. specialize (Hp child Hc).
  destruct (Z.eqb_spec (tx_admin_id t) aid); [congruence|lia].
Qed.

Lemma get_or_create_wallet_reads s aid :
  ∃ s', get_or_create_wallet aid s = (Ok (balance (work s) aid), s') ∧
    (∀ a, balance (work s') a = balance (work s) a) ∧
    (∀ a, balance (saved s') a = balance (work s) a ∨ s' = s) ∧
    invoices (work s') = invoices (work s) ∧
    (s' = s ∨ work s' = saved s').
Proof.
  unfold get_or_create_wallet, bind, gets, balance; cbn.
  destruct (wallets (work s) !! aid) as [b|] eqn:E; cbn; [by eauto 10|].
  eexists. split; [done|]. cbn.
  assert (H : ∀ a, default 0 (<[aid:=0]> (wallets (work s)) !! a)
                 = default 0 (wallets (work s) !! a)).
  { intros a. rewrite lookup_insert. case_decide; subst; [by rewrite E|done]. }
  auto 10.
Qed.

(** The database once the wallet row of [aid] exists. *)
Definition open_wallet (aid : Z) (d : DB) : DB :=
  match wallets d !! aid with
  | Some _ => d
  | None => d <| wallets := <[aid := 0]> (wallets d) |>
  end.

Lemma get_or_create_wallet_opens d aid :
  get_or_create_wallet aid (mkSession d d) =
  (Ok (balance d aid), mkSession (open_wallet aid d) (open_wallet aid d)).
Proof.
  unfold get_or_create_wallet, open_wallet, balance, bind, gets. cbn.
  by destruct (wallets d !! aid).
Qed.

Lemma balance_open_wallet aid d a : balance (open_wallet aid d) a = balance d a.
Proof.
  unfold open_wallet, balance. destruct (wallets d !! aid) eqn:E; [done|]. cbn.
  rewrite lookup_insert. case_decide; subst; [by rewrite E|done].
Qed.

Lemma open_wallet_frame {T} (p : DB → T) aid d :
  (∀ d w, p (d <| wallets := w |>) = p d) → p (open_wallet aid d) = p d.
Proof. intros H. unfold open_wallet. destruct (wallets d !! aid); [done|apply H]. Qed.

(** Paying an invoice: a pending invoice the wallet covers is marked paid
    and debited once, never below zero; paying it again changes nothing; an
    uncovered or canceled invoice is refused and no balance moves. *)
Theorem pay_invoice_spec now d iid inv prov :
  invoices d !! iid = Some inv →
  let '(r, d') := run_session (pay_invoice now iid prov) d in
  match r with
  | Ok _ =>
      (i_status inv = "paid" ∧ d' = d) ∨
      (i_status inv ≠ "canceled" ∧ i_amount inv ≤ balance d (i_admin_id inv) ∧
       balance d' (i_admin_id inv) = balance d (i_admin_id inv) - i_amount inv ∧
       0 ≤ balance d' (i_admin_id inv) ∧
       (i_status <$> invoices d' !! iid) = Some "paid" ∧
       run_session (pay_invoice now iid prov) d' = (Ok tt, d'))
  | Raise e =>
      (∀ a, balance d' a = balance d a) ∧
      (e = ValueError "Invoice is canceled" ∨
       (e = InsufficientWalletBalance ∧ balance d (i_admin_id inv) < i_amount inv))
  end.
Proof.
  intros Hinv. unfold run_session at 1, pay_invoice at 1.
  unfold bind at 1, gets; cbn [work]. rewrite Hinv.
  destruct (String.eqb_spec (i_status inv) "paid") as [Hp|Hp]; [by left|].
  destruct (String.eqb_spec (i_status inv) "canceled") as [Hc|Hc]; [cbn; by auto|].
  destruct (get_or_create_wallet_reads (mkSession d d) (i_admin_id inv))
    as (s' & Hg & Hb & Hs & Hi & Hss). unfold bind at 1. rewrite Hg. cbn [work saved] in *.
  destruct (Z.ltb_spec (balance d (i_admin_id inv)) (i_amount inv)) as [Hlt|Hge].
  { cbn. split; [|auto]. intros a. destruct (Hs a) as [H| ->]; [done|done]. }
  unfold bind at 1, modify; cbn [work saved]. unfold bind at 1.
  rewrite (add_transaction_commits _). cbn [work saved ret]. right.
  set (d1 := over invoices _ _).
  set (d2 := add_tx_state _ _ _ _ _ d1).
  assert (Hd2 : balance d2 (i_admin_id inv) = balance d (i_admin_id inv) - i_amount inv).
  { subst d2. rewrite add_tx_state_balance by done.
    change (balance d1 (i_admin_id inv)) with (balance (work s') (i_admin_id inv)).
    rewrite Hb. lia. }
  assert (Hst : ∃ inv', invoices d2 !! iid = Some inv' ∧ i_status inv' = "paid").
  { subst d2. rewrite add_tx_state_frame by done. subst d1. cbn. rewrite Hi.
    rewrite lookup_alter_eq, Hinv. eexists. split; [done|]. by destruct prov. }
  destruct Hst as (inv' & Hl & Hst).
  repeat split; [done|done|done|lia|by rewrite Hl; cbn; rewrite Hst|].
  unfold run_session, pay_invoice, bind at 1, gets. cbn [work]. rewrite Hl, Hst. done.
Qed.

Lemma pay_invoice_spec_witness :
  let d := empty_db <| wallets := {[ 7 := 50 ]} |>
             <| invoices := {[ 1 := mkInvoice 7 30 None None "pending" None ]} |> in
  balance (run_session (pay_invoice 9 1 None) d).2 7 = 20.
Proof.
  pose proof (pay_invoice_spec 9 (empty_db <| wallets := {[ 7 := 50 ]} |>
             <| invoices := {[ 1 := mkInvoice 7 30 None None "pending" None ]} |>)
             1 (mkInvoice 7 30 None None "pending" None) None eq_refl) as H.
  vm_compute in H |- *. destruct H as [[H _]|(_ & _ & Hb & _)]; [discriminate H|exact Hb].
Defined.

End WalletFacts.
