(* ===== verification/UsageBilling.v ===== *)
(** * UsageBilling: pay-as-you-go charging of resellers

    [app/billing/usage_billing.py] and the effective rate of
    [app/billing/traffic_packages.py].  The job charges the growth of
    [Admin.users_usage] since the checkpoint, first against the prepaid pool,
    the rest from the wallet at the owned/shared node rates. *)
From S2P Require Import Prelude Store Wallet.

Module UsageBilling.
Import Wallet.

Definition GB : Z := 1024 ^ 3.

Record UsageSplit := mkSplit { owned_bytes : Z; foreign_bytes : Z }.
Definition total_bytes (s : UsageSplit) : Z := owned_bytes s + foreign_bytes s.
Definition no_split : UsageSplit := mkSplit 0 0.

Definition traffic_to_gb_units (byte_count : Z) : Z :=
  if byte_count <=? 0 then 0 else byte_count / GB.

Definition billing_lookback_seconds (d : DB) : Z :=
  let v := get_int d "billing.job_interval_seconds" 30 in
  Z.max 15 (if v =? 0 then 30 else v).

Definition node_owned_by_reseller (n : Node) (admin_id : Z) (tenant_id : option Z) : bool :=
  if negb (is_none tenant_id) && bool_decide (n_tenant_id n = tenant_id) then true
  else bool_decide (n_owner_admin_id n = Some admin_id).

(** One hourly row of the join/filter, added to the split. *)
Definition add_usage_row (d : DB) (admin_id : Z) (tenant_id : option Z) (since until : Z)
    (split : UsageSplit) (r : NodeUserUsage) : UsageSplit :=
  match users d !! nu_user_id r with
  | None => split
  | Some u =>
      if bool_decide (u_admin_id u = Some admin_id) && pos_limit (u_data_limit u)
         && (since <? nu_created_at r) && (nu_created_at r <=? until) then
        let traffic := nu_used_traffic r in
        if traffic <=? 0 then split
        else
          let owned := match nu_node_id r ≫= λ nid, nodes d !! nid with
                       | Some n => node_owned_by_reseller n admin_id tenant_id
                       | None => false
                       end in
          if owned then mkSplit (owned_bytes split + traffic) (foreign_bytes split)
          else mkSplit (owned_bytes split) (foreign_bytes split + traffic)
      else split
  end.

Definition aggregate_reseller_usage (d : DB) (admin_id : Z) (tenant_id : option Z)
    (since until : Z) : UsageSplit :=
  foldl (add_usage_row d admin_id tenant_id since until) no_split (node_user_usages d).

Definition resolve_discount_percent (d : DB) (a : Admin) : Z :=
  match a_tenant_id a with
  | None => 0
  | Some t => default 0 (tenants d !! t)
  end.

Definition the_admin (admin_id : Z) : M DB Admin :=
  let* a := gets (λ d, admins d !! admin_id) in
  match a with
  | Some a => ret a
  | None => raise (HTTPException 404 "Admin not found")
  end.

Definition get_or_create_checkpoint (now admin_id : Z) : M DB Checkpoint :=
  let* row := gets (λ d, checkpoints d !! admin_id) in
  match row with
  | Some ck => ret ck
  | None =>
      let* ck := gets (λ d,
        mkCheckpoint (now - billing_lookback_seconds d)
          (match admins d !! admin_id with Some a => a_users_usage a | None => 0 end)) in
      modify (λ d, d <| checkpoints := <[admin_id := ck]> (checkpoints d) |>) ;;;
      commit ;;;
      ret ck
  end.

Definition compute_charge (split : UsageSplit) (rate_per_gb discount_percent : Z) : Z :=
  let rate := rate_per_gb in
  if rate <=? 0 then 0
  else
    let owned_rate := effective_rate rate discount_percent in
    let owned := owned_bytes split * owned_rate / GB in
    let foreign := foreign_bytes split * rate / GB in
    owned + foreign.

Definition apply_prepaid_cover (split : UsageSplit) (prepaid_remaining : Z) : UsageSplit * Z :=
  let prepaid := Z.max 0 prepaid_remaining in
  if (prepaid <=? 0) || (total_bytes split <=? 0) then (split, 0)
  else
    let foreign := foreign_bytes split in
    let owned := owned_bytes split in
    let cover_foreign := Z.min foreign prepaid in
    let remain := prepaid - cover_foreign in
    let cover_owned := Z.min owned remain in
    (mkSplit (owned - cover_owned) (foreign - cover_foreign), cover_foreign + cover_owned).

Definition wallet_is_low (d : DB) (balance : option Z) (threshold : option Z) : bool :=
  match balance with
  | None => false
  | Some b => b <? match threshold with
                   | Some t => t
                   | None => get_int d "billing.wallet_low_threshold" 10000
                   end
  end.

Definition ownership_ratio_split (d : DB) (now admin_id : Z) (tenant_id : option Z)
    (delta_bytes : Z) : UsageSplit :=
  let delta := Z.max 0 delta_bytes in
  if delta <=? 0 then no_split
  else
    let ratio := aggregate_reseller_usage d admin_id tenant_id (now - 24 * 3600) now in
    let total := total_bytes ratio in
    if total <=? 0 then mkSplit 0 delta
    else
      let owned := delta * owned_bytes ratio / total in
      mkSplit owned (delta - owned).

(** Returns [(split, current_users_usage, last_billed_users_usage)]. *)
Definition unbilled_usage_split (now admin_id : Z) (a : Admin) : M DB (UsageSplit * Z * Z) :=
  let* ck := get_or_create_checkpoint now admin_id in
  let current := a_users_usage a in
  let last := ck_last_billed_users_usage ck in
  let last := if current <? last then current else last in
  let delta := Z.max 0 (current - last) in
  let* split := gets (λ d, ownership_ratio_split d now admin_id (a_tenant_id a) delta) in
  ret (split, current, last).

Definition effective_usage_rate_per_gb (d : DB) (a : Admin) : Z :=
  match a_usage_rate_per_gb a with
  | Some r => r
  | None => get_int d "billing.usage_rate_per_gb" 0
  end.

Definition resolve_usage_rate_per_gb (d : DB) (a : Admin) (rate_per_gb : option Z) : Z :=
  match rate_per_gb with Some r => r | None => effective_usage_rate_per_gb d a end.

Definition _log_low_balance_event (now admin_id : Z) : M DB unit :=
  let* rows := gets (λ d, take 80 (rev (filter (λ e,
    ev_type e = "wallet.low_balance" ∧ now - 30 * 60 ≤ ev_created_at e) (events d)))) in
  if existsb (λ e, ev_admin_id e =? admin_id) rows then ret tt
  else
    modify (λ d, d <| events := events d ++ [mkEvent "wallet.low_balance" admin_id now] |>) ;;;
    commit.

Definition set_checkpoint (admin_id : Z) (f : Checkpoint → Checkpoint) : M DB unit :=
  modify (λ d, d <| checkpoints := alter f admin_id (checkpoints d) |>).

Definition burn_prepaid (admin_id prepaid covered : Z) : M DB unit :=
  modify (update_admin_row admin_id
    (λ a, a <| a_prepaid_traffic_remaining := Z.max 0 (prepaid - covered) |>)).

Definition bill_reseller_usage (now admin_id : Z) (rate_per_gb : option Z)
    : M DB (option Transaction * UsageSplit) :=
  let* a := the_admin admin_id in
  if a_is_sudo a then ret (None, no_split)
  else
  let* rate := gets (λ d, resolve_usage_rate_per_gb d a rate_per_gb) in
  if rate <=? 0 then ret (None, no_split)
  else
  let* ck := get_or_create_checkpoint now admin_id in
  let* a := the_admin admin_id in
  let* scl := unbilled_usage_split now admin_id a in
  let split := scl.1.1 in let current_usage := scl.1.2 in let last_usage := scl.2 in
  when (current_usage <? ck_last_billed_users_usage ck)
    (set_checkpoint admin_id (λ c, c <| ck_last_billed_users_usage := current_usage |>)) ;;;
  let* discount := gets (λ d, resolve_discount_percent d a) in
  let prepaid := a_prepaid_traffic_remaining a in
  let overflow := (apply_prepaid_cover split prepaid).1 in
  let covered := (apply_prepaid_cover split prepaid).2 in
  let cost := compute_charge overflow rate discount in
  let advance := set_checkpoint admin_id (λ _, mkCheckpoint now current_usage) in
  if cost <=? 0 then
    if 0 <? covered then
      burn_prepaid admin_id prepaid covered ;;; advance ;;; commit ;;; ret (None, split)
    else if total_bytes split <=? 0 then
      advance ;;; commit ;;; ret (None, split)
    else
      set_checkpoint admin_id (λ c, c <| ck_last_billed_at := now |>) ;;;
      commit ;;;
      ret (None, split)
  else
    let* balance := get_or_create_wallet admin_id in
    if balance <? cost then
      _log_low_balance_event now admin_id ;;;
      commit ;;;
      ret (None, split)
    else
      when (0 <? covered) (burn_prepaid admin_id prepaid covered) ;;;
      advance ;;;
      let* tx := add_transaction admin_id (- cost) "usage_billing"
                   (RefUsage last_usage current_usage now) false in
      let* low := gets (λ d, wallet_is_low d (wallets d !! admin_id) None) in
      when low (_log_low_balance_event now admin_id) ;;;
      ret (Some tx, split).

(** [resellers_with_unpaid_usage]: the admins whose unbilled charge the wallet
    cannot cover, among the non-sudo rows. *)
Definition unpaid_usage (now admin_id : Z) (a : Admin) : M DB bool :=
  let* rate := gets (λ d, resolve_usage_rate_per_gb d a None) in
  if rate <=? 0 then ret false
  else
  let* scl := unbilled_usage_split now admin_id a in
  let split := scl.1.1 in
  if total_bytes split <=? 0 then ret false
  else
  let* discount := gets (λ d, resolve_discount_percent d a) in
  let overflow := (apply_prepaid_cover split (a_prepaid_traffic_remaining a)).1 in
  let cost := compute_charge overflow rate discount in
  if cost <=? 0 then ret false
  else
  let* balance := get_or_create_wallet admin_id in
  ret (balance <? cost).

Definition non_sudo (d : DB) : list (Z * Admin) :=
  filter (λ p, a_is_sudo p.2 = false) (map_to_list (admins d)).

Fixpoint collect_unpaid (now : Z) (l : list (Z * Admin)) (blocked : gset Z) : M DB (gset Z) :=
  match l with
  | [] => ret blocked
  | (aid, a) :: l =>
      let* b := unpaid_usage now aid a in
      collect_unpaid now l (if b then {[ aid ]} ∪ blocked else blocked)
  end.

Definition resellers_with_unpaid_usage (now : Z) : M DB (gset Z) :=
  let* on := gets (λ d, is_enabled d "billing") in
  if negb on then ret ∅
  else
    let* rows := gets non_sudo in
    collect_unpaid now rows ∅.

Fixpoint bill_all (now : Z) (l : list (Z * Admin)) (charged : Z) : M DB Z :=
  match l with
  | [] => ret charged
  | (aid, a) :: l =>
      let* rate := gets (λ d, resolve_usage_rate_per_gb d a None) in
      if rate <=? 0 then bill_all now l charged
      else
        let* r := bill_reseller_usage now aid None in
        bill_all now l (match r.1 with Some _ => charged + 1 | None => charged end)
  end.

Definition run_usage_billing (now : Z) : M DB Z :=
  let* on := gets (λ d, is_enabled d "billing") in
  if negb on then ret 0
  else
    let* rows := gets non_sudo in
    bill_all now rows 0.

End UsageBilling.

Module UsageBillingFacts.
Import Wallet Ledger WalletFacts UsageBilling.

Definition split_nonneg (s : UsageSplit) : Prop := 0 ≤ owned_bytes s ∧ 0 ≤ foreign_bytes s.

Lemma GB_pos : 0 < GB.
Proof. reflexivity. Qed.

Lemma apply_prepaid_cover_spec' s prepaid :
  split_nonneg s → 0 ≤ (apply_prepaid_cover s prepaid).2 ≤ Z.max 0 prepaid.
Proof.
  unfold split_nonneg, apply_prepaid_cover, total_bytes. intros [H1 H2].
  destruct (Z.leb_spec (Z.max 0 prepaid) 0); cbn; [lia|].
  destruct (Z.leb_spec (owned_bytes s + foreign_bytes s) 0); cbn; lia.
Qed.

(** Prepaid traffic is consumed before money, shared-node bytes first: the
    covered bytes are the smaller of the pool and the usage, covered plus
    overflow is the usage, and owned bytes are only covered once every shared
    byte is. *)
Theorem apply_prepaid_cover_spec s prepaid :
  split_nonneg s →
  let '(o, covered) := apply_prepaid_cover s prepaid in
  covered = Z.min (Z.max 0 prepaid) (total_bytes s) ∧
  split_nonneg o ∧ total_bytes o + covered = total_bytes s ∧
  owned_bytes o ≤ owned_bytes s ∧ foreign_bytes o ≤ foreign_bytes s ∧
  (owned_bytes o < owned_bytes s → foreign_bytes o = 0).
Proof.
  unfold split_nonneg, apply_prepaid_cover, total_bytes. intros [H1 H2].
  destruct (Z.leb_spec (Z.max 0 prepaid) 0); cbn; [lia|].
  destruct (Z.leb_spec (owned_bytes s + foreign_bytes s) 0); cbn; lia.
Qed.

Lemma apply_prepaid_cover_spec_witness :
  let '(o, covered) := apply_prepaid_cover (mkSplit 40 60) 80 in
  covered = 80 ∧ owned_bytes o = 20 ∧ foreign_bytes o = 0.
Proof.
  pose proof (apply_prepaid_cover_spec (mkSplit 40 60) 80 ltac:(split; cbn; lia)) as H.
  vm_compute in H |- *. destruct H as (Hc & _ & _ & _ & _ & Hf).
  split; [exact Hc|]. split; [reflexivity|exact (Hf eq_refl)].
Defined.

Lemma effective_rate_bounds base pct :
  0 ≤ base → 0 ≤ effective_rate base pct ≤ base ∧
  100 * effective_rate base pct ≤ base * (100 - Z.max 0 (Z.min 100 pct)) ∧
  base * (100 - Z.max 0 (Z.min 100 pct)) < 100 * effective_rate base pct + 100.
Proof.
  intros Hb. unfold effective_rate. set (p := Z.max 0 (Z.min 100 pct)).
  assert (0 ≤ p ≤ 100) by lia. clearbody p.
  assert (0 ≤ base * (100 - p) / 100) by (apply Z.div_pos; nia).
  pose proof (Z.mul_div_le (base * (100 - p)) 100 ltac:(lia)).
  pose proof (Z.mul_succ_div_gt (base * (100 - p)) 100 ltac:(lia)). nia.
Qed.

Lemma effective_rate_mono base p q :
  0 ≤ base → p ≤ q → effective_rate base q ≤ effective_rate base p.
Proof.
  intros Hb Hpq. unfold effective_rate.
  apply Z.max_le_compat_l, Z.div_le_mono; [lia|]. nia.
Qed.

Lemma compute_charge_bounds' s rate pct :
  split_nonneg s → 0 < rate →
  0 ≤ compute_charge s rate pct ∧ compute_charge s rate pct * GB ≤ total_bytes s * rate.
Proof.
  intros [H1 H2] Hr. unfold compute_charge, total_bytes.
  destruct (Z.leb_spec rate 0); [lia|]. pose proof GB_pos as HG.
  set (G := GB) in *. clearbody G.
  destruct (effective_rate_bounds rate pct ltac:(lia)) as [He _].
  set (e := effective_rate rate pct) in *. clearbody e.
  set (o := owned_bytes s) in *. set (f := foreign_bytes s) in *.
  assert (0 ≤ o * e / G) by (apply Z.div_pos; nia).
  assert (0 ≤ f * rate / G) by (apply Z.div_pos; nia).
  pose proof (Z.mul_div_le (o * e) G HG). pose proof (Z.mul_div_le (f * rate) G HG). nia.
Qed.

(** The charge is proportional and never rounds up: it is non-negative, at
    most the full-rate price of all bytes, less than two units below the exact
    price at zero discount, and a larger own-node discount never charges more. *)
Theorem compute_charge_bounds s rate pct pct' :
  split_nonneg s → 0 < rate → pct ≤ pct' →
  0 ≤ compute_charge s rate pct ∧
  compute_charge s rate pct * GB ≤ total_bytes s * rate ∧
  total_bytes s * rate < (compute_charge s rate 0 + 2) * GB ∧
  compute_charge s rate pct' ≤ compute_charge s rate pct.
Proof.
  intros Hs Hr Hp. destruct (compute_charge_bounds' s rate pct Hs Hr) as [Hc0 Hc1].
  split; [done|]. split; [done|]. destruct Hs as [H1 H2]. unfold compute_charge, total_bytes.
  destruct (Z.leb_spec rate 0); [lia|]. pose proof GB_pos as HG.
  set (G := GB) in *. clearbody G.
  pose proof (effective_rate_mono rate pct pct' ltac:(lia) Hp) as Hm.
  assert (H0 : effective_rate rate 0 = rate).
  { unfold effective_rate. cbn. rewrite Z.div_mul by lia. lia. }
  rewrite H0. pose proof (Z.mul_succ_div_gt (owned_bytes s * rate) G HG).
  pose proof (Z.mul_succ_div_gt (foreign_bytes s * rate) G HG). split; [nia|].
  apply Z.add_le_mono_r, Z.div_le_mono; nia.
Qed.

Lemma compute_charge_bounds_witness :
  compute_charge (mkSplit GB GB) 1000 0 = 2000 ∧
  compute_charge (mkSplit GB GB) 1000 50 ≤ compute_charge (mkSplit GB GB) 1000 0.
Proof.
  split; [vm_compute; reflexivity|].
  refine (proj2 (proj2 (proj2 (compute_charge_bounds (mkSplit GB GB) 1000 0 50 _ _ _))));
    [split; vm_compute; discriminate | lia | lia].
Defined.

Lemma aggregate_nonneg d aid tid since until :
  split_nonneg (aggregate_reseller_usage d aid tid since until).
Proof.
  unfold aggregate_reseller_usage.
  enough (H : ∀ l s, split_nonneg s → split_nonneg (foldl (add_usage_row d aid tid since until) s l))
    by (apply H; split; cbn; lia).
  induction l as [|r l IH]; intros s Hs; cbn; [done|]. apply IH.
  unfold add_usage_row, split_nonneg in *. repeat split_match; cbn; lia.
Qed.

Lemma ratio_split_conserves d now aid tid delta :
  let s := ownership_ratio_split d now aid tid delta in
  split_nonneg s ∧ total_bytes s = Z.max 0 delta.
Proof.
  cbn. unfold ownership_ratio_split.
  destruct (Z.leb_spec (Z.max 0 delta) 0); [unfold split_nonneg, total_bytes; cbn; lia|].
  destruct (aggregate_nonneg d aid tid (now - 24 * 3600) now) as [H1 H2].
  set (r := aggregate_reseller_usage _ _ _ _ _) in *. clearbody r.
  unfold split_nonneg, total_bytes in *.
  destruct (Z.leb_spec (owned_bytes r + foreign_bytes r) 0); cbn; [lia|].
  set (t := owned_bytes r + foreign_bytes r) in *.
  assert (0 ≤ Z.max 0 delta * owned_bytes r / t) by (apply Z.div_pos; nia).
  assert (Z.max 0 delta * owned_bytes r / t ≤ Z.max 0 delta).
  { apply Z.div_le_upper_bound; nia. }
  lia.
Qed.

(** *** The job preserves the ledger *)
Lemma preserves_the_admin aid : preserves ledger_ok (the_admin aid).
Proof. unfold the_admin. solve_preserves. Qed.
Lemma preserves_get_or_create_checkpoint now aid :
  preserves ledger_ok (get_or_create_checkpoint now aid).
Proof. unfold get_or_create_checkpoint. solve_preserves. Qed.
#[export] Hint Resolve preserves_the_admin preserves_get_or_create_checkpoint : session.
Lemma preserves_unbilled now aid a : preserves ledger_ok (unbilled_usage_split now aid a).
Proof. unfold unbilled_usage_split. solve_preserves. Qed.
Lemma preserves_log_low now aid : preserves ledger_ok (_log_low_balance_event now aid).
Proof. unfold _log_low_balance_event. solve_preserves. Qed.
Lemma preserves_set_checkpoint aid f : preserves ledger_ok (set_checkpoint aid f).
Proof. unfold set_checkpoint. solve_preserves. Qed.
Lemma preserves_burn_prepaid aid p c : preserves ledger_ok (burn_prepaid aid p c).
Proof. unfold burn_prepaid. solve_preserves. Qed.
#[export] Hint Resolve preserves_unbilled preserves_log_low preserves_set_checkpoint
  preserves_burn_prepaid : session.
Lemma preserves_bill_reseller_usage now aid rate :
  preserves ledger_ok (bill_reseller_usage now aid rate).
Proof. unfold bill_reseller_usage. solve_preserves. Qed.

(** *** What one billing run does

    [quote]: what the job computes for an admin with a checkpoint. *)
Definition last_of (a : Admin) (ck : Checkpoint) : Z :=
  Z.min (a_users_usage a) (ck_last_billed_users_usage ck).

Definition quote_split (d : DB) (now aid : Z) (a : Admin) (ck : Checkpoint) : UsageSplit :=
  ownership_ratio_split d now aid (a_tenant_id a) (a_users_usage a - last_of a ck).

Definition quote_covered d now aid a ck : Z :=
  (apply_prepaid_cover (quote_split d now aid a ck) (a_prepaid_traffic_remaining a)).2.

Definition quote_cost (d : DB) (now aid : Z) (a : Admin) (ck : Checkpoint) (rate : Z) : Z :=
  compute_charge
    (apply_prepaid_cover (quote_split d now aid a ck) (a_prepaid_traffic_remaining a)).1
    rate (resolve_discount_percent d a).

Lemma same_checkpoints (d : DB) : d <| checkpoints := checkpoints d |> = d.
Proof. by destruct d. Qed.

Section billing_run.
Context (d : DB) (now aid : Z) (a : Admin) (ck : Checkpoint) (b rate : Z).
Hypothesis Ha : admins d !! aid = Some a.
Hypothesis Hck : checkpoints d !! aid = Some ck.
Hypothesis Hb : wallets d !! aid = Some b.

Lemma the_admin_run sd : the_admin aid (mkSession d sd) = (Ok a, mkSession d sd).
Proof. unfold the_admin. rewrite bind_gets. cbn. by rewrite Ha. Qed.

Lemma checkpoint_run sd :
  get_or_create_checkpoint now aid (mkSession d sd) = (Ok ck, mkSession d sd).
Proof. unfold get_or_create_checkpoint. rewrite bind_gets. cbn. by rewrite Hck. Qed.

Lemma ownership_ratio_split_max tid x :
  ownership_ratio_split d now aid tid (Z.max 0 x) = ownership_ratio_split d now aid tid x.
Proof. unfold ownership_ratio_split. by rewrite Z.max_assoc, Z.max_id. Qed.

Lemma unbilled_run sd :
  unbilled_usage_split now aid a (mkSession d sd) =
  (Ok (quote_split d now aid a ck, a_users_usage a, last_of a ck), mkSession d sd).
Proof.
  unfold unbilled_usage_split. erewrite bind_ok by apply checkpoint_run.
  rewrite bind_gets. cbn [work]. rewrite ownership_ratio_split_max.
  unfold quote_split, last_of, ret.
  destruct (Z.ltb_spec (a_users_usage a) (ck_last_billed_users_usage ck)).
  - by rewrite Z.min_l by lia.
  - by rewrite Z.min_r by lia.
Qed.

Lemma quote_nonneg : split_nonneg (quote_split d now aid a ck) ∧
  total_bytes (quote_split d now aid a ck) = a_users_usage a - last_of a ck.
Proof.
  destruct (ratio_split_conserves d now aid (a_tenant_id a)
    (a_users_usage a - last_of a ck)) as [H1 H2].
  split; [done|]. unfold quote_split. rewrite H2. unfold last_of. lia.
Qed.

Lemma wallet_run s : wallets (work s) = wallets d → get_or_create_wallet aid s = (Ok b, s).
Proof.
  intros H. unfold get_or_create_wallet. rewrite bind_gets, H, Hb. done.
Qed.

(** The watermark repair after a usage reset only touches the checkpoint row. *)
Lemma repair_run (c : bool) v sd :
  ∃ cks, (if c then mkSession (d <| checkpoints := alter v aid (checkpoints d) |>) sd
          else mkSession d sd) = mkSession (d <| checkpoints := cks |>) sd ∧
    (∃ ck', cks !! aid = Some ck') ∧ (c = false → cks = checkpoints d).
Proof.
  destruct c.
  - eexists. split; [done|]. rewrite lookup_alter_eq, Hck. split; [by eexists|done].
  - exists (checkpoints d). rewrite same_checkpoints. split; [done|]. split; [by eexists|done].
Qed.
End billing_run.

Lemma log_low_run now aid dd :
  ∃ evs, _log_low_balance_event now aid (mkSession dd dd) =
    (Ok tt, mkSession (dd <| events := evs |>) (dd <| events := evs |>)).
Proof.
  unfold _log_low_balance_event. rewrite bind_gets. destruct (existsb _ _).
  - exists (events dd). by destruct dd.
  - by eexists.
Qed.

Lemma when_log_run now aid dd low :
  ∃ evs, when low (_log_low_balance_event now aid) (mkSession dd dd) =
    (Ok tt, mkSession (dd <| events := evs |>) (dd <| events := evs |>)).
Proof.
  destruct low; [apply log_low_run|]. exists (events dd). by destruct dd.
Qed.

Lemma if_session (c : bool) (x y z : DB) :
  (if c then mkSession x z else mkSession y z) = mkSession (if c then x else y) z.
Proof. by destruct c. Qed.

(** The rest of the run once the cost is known to be positive. *)
Definition bill_positive (now aid : Z) (a : Admin) (ck : Checkpoint) (split : UsageSplit)
    (covered cost : Z) : M DB (option Transaction * UsageSplit) :=
  let* balance := get_or_create_wallet aid in
  if balance <? cost then
    _log_low_balance_event now aid ;;; commit ;;; ret (None, split)
  else
    when (0 <? covered) (burn_prepaid aid (a_prepaid_traffic_remaining a) covered) ;;;
    set_checkpoint aid (λ _, mkCheckpoint now (a_users_usage a)) ;;;
    let* tx := add_transaction aid (- cost) "usage_billing"
                 (RefUsage (last_of a ck) (a_users_usage a) now) false in
    let* low := gets (λ d, wallet_is_low d (wallets d !! aid) None) in
    when low (_log_low_balance_event now aid) ;;;
    ret (Some tx, split).

(** The rest of the run when there is nothing to pay. *)
Definition bill_free (now aid : Z) (a : Admin) (split : UsageSplit) (covered : Z)
    : M DB (option Transaction * UsageSplit) :=
  let advance := set_checkpoint aid (λ _, mkCheckpoint now (a_users_usage a)) in
  if 0 <? covered then
    burn_prepaid aid (a_prepaid_traffic_remaining a) covered ;;; advance ;;; commit ;;;
    ret (None, split)
  else if total_bytes split <=? 0 then
    advance ;;; commit ;;; ret (None, split)
  else
    set_checkpoint aid (λ c, c <| ck_last_billed_at := now |>) ;;; commit ;;; ret (None, split).

(** The run up to the point where the cost is known. *)
Lemma bill_split d sd now aid a ck r :
  admins d !! aid = Some a → checkpoints d !! aid = Some ck → a_is_sudo a = false →
  let rate := resolve_usage_rate_per_gb d a r in
  0 < rate →
  ∃ cks, (∃ ck', cks !! aid = Some ck') ∧
    (ck_last_billed_users_usage ck ≤ a_users_usage a → cks = checkpoints d) ∧
    bill_reseller_usage now aid r (mkSession d sd) =
    (if quote_cost d now aid a ck rate <=? 0
     then bill_free now aid a (quote_split d now aid a ck) (quote_covered d now aid a ck)
     else bill_positive now aid a ck (quote_split d now aid a ck) (quote_covered d now aid a ck)
            (quote_cost d now aid a ck rate)) (mkSession (d <| checkpoints := cks |>) sd).
Proof.
  intros Ha Hck Hs rate Hr. unfold bill_reseller_usage.
  rewrite (bind_ok _ _ _ _ _ (the_admin_run d aid a Ha sd)), Hs, bind_gets.
  cbn [work]. fold rate. destruct (Z.leb_spec rate 0); [lia|].
  rewrite (bind_ok _ _ _ _ _ (checkpoint_run d now aid ck Hck sd)).
  rewrite (bind_ok _ _ _ _ _ (the_admin_run d aid a Ha sd)).
  rewrite (bind_ok _ _ _ _ _ (unbilled_run d now aid a ck Hck sd)). cbv zeta. cbn [fst snd].
  unfold set_checkpoint at 1. rewrite bind_when. cbn [work saved].
  destruct (repair_run d aid ck Hck (a_users_usage a <? ck_last_billed_users_usage ck)
    (λ c, c <| ck_last_billed_users_usage := a_users_usage a |>) sd) as (cks & -> & Hex & Hc).
  exists cks. split; [done|]. split; [intros; apply Hc; lia|].
  rewrite bind_gets. unfold quote_cost, quote_covered in *.
  change (resolve_discount_percent (work _) a) with (resolve_discount_percent d a).
  by destruct (_ <=? 0).
Qed.

Lemma bill_prefix d sd now aid a ck r :
  admins d !! aid = Some a → checkpoints d !! aid = Some ck → a_is_sudo a = false →
  let rate := resolve_usage_rate_per_gb d a r in
  0 < rate → 0 < quote_cost d now aid a ck rate →
  ∃ cks, (∃ ck', cks !! aid = Some ck') ∧
    (ck_last_billed_users_usage ck ≤ a_users_usage a → cks = checkpoints d) ∧
    bill_reseller_usage now aid r (mkSession d sd) =
    bill_positive now aid a ck (quote_split d now aid a ck) (quote_covered d now aid a ck)
      (quote_cost d now aid a ck rate) (mkSession (d <| checkpoints := cks |>) sd).
Proof.
  intros Ha Hck Hs rate Hr Hcost.
  destruct (bill_split d sd now aid a ck r Ha Hck Hs Hr) as (cks & H1 & H2 & H3).
  exists cks. split; [done|]. split; [done|]. fold rate in H3. rewrite H3.
  by destruct (Z.leb_spec (quote_cost d now aid a ck rate) 0); [lia|].
Qed.

(** A positive cost bills at least one byte. *)
Lemma cost_bills_bytes d now aid a ck rate :
  0 < rate → 0 < quote_cost d now aid a ck rate → 0 < total_bytes (quote_split d now aid a ck).
Proof.
  intros Hr Hc. destruct (quote_nonneg d now aid a ck) as [Hn _].
  destruct (Z.leb_spec (total_bytes (quote_split d now aid a ck)) 0) as [Hz|]; [|done].
  exfalso. unfold quote_cost, apply_prepaid_cover in Hc.
  destruct (Z.leb_spec (total_bytes (quote_split d now aid a ck)) 0); [|lia].
  rewrite orb_true_r in Hc. cbn [fst] in Hc.
  destruct (compute_charge_bounds' (quote_split d now aid a ck) rate
    (resolve_discount_percent d a)) as [_ Hub]; [done|lia|].
  pose proof GB_pos. nia.
Qed.

(** Nothing accrued since the checkpoint: the run only stamps the checkpoint. *)
Lemma bill_idle d now aid a ck :
  admins d !! aid = Some a → checkpoints d !! aid = Some ck → a_is_sudo a = false →
  0 < resolve_usage_rate_per_gb d a None →
  ck_last_billed_users_usage ck = a_users_usage a →
  run_session (bill_reseller_usage now aid None) d =
    (Ok (None, no_split),
     d <| checkpoints := alter (λ _, mkCheckpoint now (a_users_usage a)) aid (checkpoints d) |>).
Proof.
  intros Ha Hck Hs Hr Hl. unfold run_session, bill_reseller_usage.
  rewrite (bind_ok _ _ _ _ _ (the_admin_run d aid a Ha d)), Hs, bind_gets.
  cbn [work]. destruct (Z.leb_spec (resolve_usage_rate_per_gb d a None) 0); [lia|].
  rewrite (bind_ok _ _ _ _ _ (checkpoint_run d now aid ck Hck d)).
  rewrite (bind_ok _ _ _ _ _ (the_admin_run d aid a Ha d)).
  rewrite (bind_ok _ _ _ _ _ (unbilled_run d now aid a ck Hck d)). cbv zeta. cbn [fst snd].
  rewrite Hl, Z.ltb_irrefl. unfold quote_split, last_of. rewrite Hl, Z.min_id, Z.sub_diag.
  change (ownership_ratio_split d now aid (a_tenant_id a) 0) with no_split.
  assert (Hcov : apply_prepaid_cover no_split (a_prepaid_traffic_remaining a) = (no_split, 0)).
  { unfold apply_prepaid_cover. cbn. by rewrite orb_true_r. }
  rewrite Hcov. cbn [fst snd].
  assert (H0 : ∀ r p, compute_charge no_split r p = 0).
  { intros r p. unfold compute_charge. by destruct (r <=? 0). }
  unfold set_checkpoint at 1. rewrite bind_when, bind_gets, H0. done.
Qed.

(** The rows a covered charge updates before it is posted. *)
Definition advanced (now aid : Z) (a : Admin) (covered : Z) (d : DB) : DB :=
  let d1 := if 0 <? covered
            then update_admin_row aid (λ x, x <| a_prepaid_traffic_remaining :=
                   Z.max 0 (a_prepaid_traffic_remaining a - covered) |>) d
            else d in
  d1 <| checkpoints := alter (λ _, mkCheckpoint now (a_users_usage a)) aid (checkpoints d1) |>.

Lemma advanced_frame {T} (p : DB → T) now aid a covered d :
  (∀ d x y, p (d <| admins := x |> <| checkpoints := y |>) = p d) →
  p (advanced now aid a covered d) = p d.
Proof.
  intros H. unfold advanced, update_admin_row. destruct (0 <? covered); [apply H|].
  etransitivity; [|apply (H d (admins d))]. by destruct d.
Qed.

Lemma advanced_admin now aid a covered d :
  admins d !! aid = Some a → (0 < covered → covered ≤ a_prepaid_traffic_remaining a) →
  admins (advanced now aid a covered d) !! aid =
  Some (a <| a_prepaid_traffic_remaining := if 0 <? covered
             then a_prepaid_traffic_remaining a - covered else a_prepaid_traffic_remaining a |>).
Proof.
  intros Ha Hc. unfold advanced, update_admin_row. row_frame.
  destruct (Z.ltb_spec 0 covered); cbn.
  - rewrite lookup_alter_eq, Ha. cbn. rewrite Z.max_r by lia. done.
  - rewrite Ha. by destruct a.
Qed.

Lemma advanced_checkpoint now aid a covered d ck :
  checkpoints d !! aid = Some ck →
  checkpoints (advanced now aid a covered d) !! aid = Some (mkCheckpoint now (a_users_usage a)).
Proof.
  intros Hck. unfold advanced. cbn. rewrite lookup_alter_eq.
  destruct (0 <? covered); cbn; by rewrite Hck.
Qed.

(** A covered charge, from any session. *)
Lemma positive_covered now aid a ck split covered cost d sd b :
  wallets d !! aid = Some b → cost ≤ b →
  let ref := RefUsage (last_of a ck) (a_users_usage a) now in
  ∃ evs, let d' := (add_tx_state aid (- cost) "usage_billing" ref false
                      (advanced now aid a covered d)) <| events := evs |> in
    bill_positive now aid a ck split covered cost (mkSession d sd) =
    (Ok (Some (mkTransaction aid (- cost) "usage_billing" ref), split), mkSession d' d').
Proof.
  intros Hb Hcb ref. remember (bill_positive now aid a ck split covered cost (mkSession d sd)) as R eqn:E.
  unfold bill_positive in E. bind_step E ltac:(by apply (wallet_run d aid b Hb)).
  destruct (Z.ltb_spec b cost); [lia|].
  unfold burn_prepaid, set_checkpoint in E. rewrite bind_when in E. cbn [work saved] in E.
  rewrite if_session, bind_modify in E. cbn [work saved] in E.
  fold (advanced now aid a covered d) in E. fold ref in E.
  bind_step E ltac:(apply add_transaction_commits). rewrite bind_gets in E. cbn [work] in E.
  set (d3 := add_tx_state _ _ _ _ _ _) in E.
  destruct (when_log_run now aid d3 (wallet_is_low d3 (wallets d3 !! aid) None)) as (evs & Hl).
  bind_step E ltac:(exact Hl). exists evs. exact E.
Qed.

(** C6. A charge the wallet covers is taken exactly once: the reseller is
    debited the quoted cost and never below zero, the prepaid pool loses the
    covered bytes, the checkpoint moves to the billed usage, and running the
    job again at the same usage debits nothing. *)
Theorem bill_reseller_usage_charges d now now' aid a ck b :
  admins d !! aid = Some a → checkpoints d !! aid = Some ck → wallets d !! aid = Some b →
  a_is_sudo a = false → a_parent_admin_id a ≠ Some aid →
  let rate := resolve_usage_rate_per_gb d a None in
  let cost := quote_cost d now aid a ck rate in
  0 < rate → 0 < cost → cost ≤ b →
  ∃ tx d', run_session (bill_reseller_usage now aid None) d
             = (Ok (Some tx, quote_split d now aid a ck), d') ∧
    tx_amount tx = - cost ∧ balance d' aid = b - cost ∧ 0 ≤ balance d' aid ∧
    checkpoints d' !! aid = Some (mkCheckpoint now (a_users_usage a)) ∧
    (∃ a', admins d' !! aid = Some a' ∧ a_users_usage a' = a_users_usage a ∧
       a_prepaid_traffic_remaining a' =
         if 0 <? quote_covered d now aid a ck
         then a_prepaid_traffic_remaining a - quote_covered d now aid a ck
         else a_prepaid_traffic_remaining a) ∧
    (∃ d'', run_session (bill_reseller_usage now' aid None) d' = (Ok (None, no_split), d'') ∧
       wallets d'' = wallets d' ∧ transactions d'' = transactions d').
Proof.
  intros Ha Hck Hb Hs Hp rate cost Hr Hc Hcb.
  destruct (bill_prefix d d now aid a ck None Ha Hck Hs Hr Hc) as (cks & [ck' Hck'] & _ & E).
  set (cov := quote_covered d now aid a ck) in *. set (d0 := d <| checkpoints := cks |>) in E.
  destruct (positive_covered now aid a ck (quote_split d now aid a ck) cov cost d0 d b Hb Hcb)
    as (evs & Hrun).
  fold rate in E. fold cost in E. rewrite Hrun in E. set (d2 := advanced now aid a cov d0) in *.
  set (d4 := over events _ _) in E. clear Hrun.
  assert (Hadm : admins d2 !! aid = Some (a <| a_prepaid_traffic_remaining := if 0 <? cov
             then a_prepaid_traffic_remaining a - cov else a_prepaid_traffic_remaining a |>)).
  { apply advanced_admin; [done|]. intros Hcov.
    destruct (apply_prepaid_cover_spec' _ (a_prepaid_traffic_remaining a)
      (proj1 (quote_nonneg d now aid a ck))) as [_ Hle].
    fold (quote_covered d now aid a ck) in Hle. fold cov in Hle. lia. }
  assert (Hframe : admins d4 = admins d2 ∧ settings d4 = settings d ∧ checkpoints d4 = checkpoints d2).
  { unfold d4, d2. row_frame. by rewrite !add_tx_state_frame, (advanced_frame settings) by done. }
  destruct Hframe as (Hd4a & Hd4s & Hd4c).
  assert (Hbal : balance d4 aid = b - cost).
  { change (balance d4 aid) with (balance (add_tx_state aid (- cost) "usage_billing"
      (RefUsage (last_of a ck) (a_users_usage a) now) false d2) aid).
    rewrite add_tx_state_balance_self.
    - unfold balance, d2. rewrite (advanced_frame wallets) by done. unfold d0. row_frame. rewrite Hb. cbn. lia.
    - intros child. rewrite Hadm. by intros [= <-]. }
  assert (Hck4 : checkpoints d4 !! aid = Some (mkCheckpoint now (a_users_usage a)))
    by (rewrite Hd4c; by apply (advanced_checkpoint now aid a cov d0 ck')).
  eexists _, d4. unfold run_session at 1. rewrite E. rewrite <-Hd4a in Hadm.
  split_and!; try done; [lia|by eexists|].
  eexists. rewrite (bill_idle d4 now' aid _ _ Hadm Hck4 Hs).
  - done.
  - unfold resolve_usage_rate_per_gb, effective_usage_rate_per_gb, get_int. rewrite Hd4s. exact Hr.
  - done.
Qed.

(** A reseller with 2 GiB unbilled at 1000 per GiB and 5000 in the wallet. *)
Definition sample_admin : Admin :=
  mkAdmin "r" false (3 * GB) None None 0 (Some 1000) None (Some 1) 10.
Definition sample_db : DB :=
  empty_db <| admins := {[ 7 := sample_admin ]} |> <| wallets := {[ 7 := 5000 ]} |>
    <| checkpoints := {[ 7 := mkCheckpoint 0 GB ]} |>.

Lemma bill_reseller_usage_charges_witness :
  ∃ tx d', run_session (bill_reseller_usage 100 7 None) sample_db
             = (Ok (Some tx, mkSplit 0 (2 * GB)), d') ∧ tx_amount tx = - 2000 ∧
    balance d' 7 = 3000.
Proof.
  destruct (bill_reseller_usage_charges sample_db 100 200 7 sample_admin (mkCheckpoint 0 GB) 5000)
    as (tx & d' & H1 & H2 & H3 & _);
    try (vm_compute; (reflexivity || discriminate)).
  exists tx, d'. split; [exact H1|]. split; [exact H2|exact H3].
Defined.

(** C7. A charge the wallet cannot cover is held and not lost: nothing is
    debited, the prepaid pool keeps its bytes and the watermark does not move,
    so the same bytes are still unbilled at the next run; and the reseller is
    one that [resellers_with_unpaid_usage] reports. *)
Theorem bill_reseller_usage_held d now aid a ck b :
  admins d !! aid = Some a → checkpoints d !! aid = Some ck → wallets d !! aid = Some b →
  a_is_sudo a = false → ck_last_billed_users_usage ck ≤ a_users_usage a →
  let rate := resolve_usage_rate_per_gb d a None in
  let cost := quote_cost d now aid a ck rate in
  0 < rate → 0 < cost → b < cost →
  ∃ evs, run_session (bill_reseller_usage now aid None) d
           = (Ok (None, quote_split d now aid a ck), d <| events := evs |>) ∧
    total_bytes (quote_split d now aid a ck) = a_users_usage a - ck_last_billed_users_usage ck ∧
    unpaid_usage now aid a (mkSession d d) = (Ok true, mkSession d d).
Proof.
  intros Ha Hck Hb Hs Hle rate cost Hr Hc Hcb.
  destruct (bill_prefix d d now aid a ck None Ha Hck Hs Hr Hc) as (cks & _ & Hcks & E).
  unfold bill_positive in E.
  rewrite (Hcks Hle), same_checkpoints in E. fold rate in E. fold cost in E.
  bind_step E ltac:(by apply (wallet_run d aid b Hb)).
  destruct (Z.ltb_spec b cost); [|lia].
  destruct (log_low_run now aid d) as (evs & Hl). bind_step E ltac:(exact Hl).
  exists evs. unfold run_session. rewrite E. split; [done|].
  destruct (quote_nonneg d now aid a ck) as [Hn Ht]. split.
  { rewrite Ht. unfold last_of. lia. }
  unfold unpaid_usage. rewrite bind_gets. cbn [work]. fold rate.
  destruct (Z.leb_spec rate 0); [lia|].
  rewrite (bind_ok _ _ _ _ _ (unbilled_run d now aid a ck Hck d)). cbv zeta. cbn [fst snd].
  pose proof (cost_bills_bytes d now aid a ck rate Hr Hc).
  destruct (Z.leb_spec (total_bytes (quote_split d now aid a ck)) 0); [lia|].
  rewrite bind_gets. cbn [work]. fold (quote_cost d now aid a ck rate). fold cost.
  destruct (Z.leb_spec cost 0); [lia|].
  rewrite (bind_ok _ _ _ _ _ (wallet_run d aid b Hb (mkSession d d) eq_refl)).
  unfold ret. by destruct (Z.ltb_spec b cost); [|lia].
Qed.

Lemma bill_reseller_usage_held_witness :
  ∃ evs, run_session (bill_reseller_usage 100 7 None) (sample_db <| wallets := {[ 7 := 5 ]} |>)
   = (Ok (None, mkSplit 0 (2 * GB)), sample_db <| wallets := {[ 7 := 5 ]} |> <| events := evs |>).
Proof.
  destruct (bill_reseller_usage_held (sample_db <| wallets := {[ 7 := 5 ]} |>) 100 7
    sample_admin (mkCheckpoint 0 GB) 5) as (evs & H & _);
    try (vm_compute; (reflexivity || discriminate)).
  exists evs. exact H.
Defined.

End UsageBillingFacts.
