(* ===== verification/Metering.v ===== *)
(** * Metering: what usage charges say they charge for

    Each usage charge of [usage_billing.bill_reseller_usage] carries the span of
    the reseller's metered bytes it bills, [usage:<last>-<current>] in its
    reference.  This file states the audit-trail invariant of these spans and
    that every operation of the billing job keeps it. *)
From S2P Require Import Prelude Store Wallet UsageBilling.

Module Metering.
Import Wallet Ledger WalletFacts UsageBilling UsageBillingFacts.

(** The span a transaction bills to [aid]. *)
Definition span_of (aid : Z) (t : Transaction) : option (Z * Z) :=
  match tx_reference t with
  | RefUsage lo hi _ =>
      if (tx_admin_id t =? aid) && String.eqb (tx_type t) "usage_billing" then Some (lo, hi) else None
  | _ => None
  end.

Definition spans (aid : Z) (d : DB) : list (Z * Z) := omap (span_of aid) (transactions d).

(** Successive spans do not overlap and end below [top]. *)
Definition disjoint_upto (l : list (Z * Z)) (top : Z) : Prop :=
  StronglySorted (λ i j, i.2 ≤ j.1) l ∧ Forall (λ i, 0 ≤ i.1 ∧ i.1 < i.2 ∧ i.2 ≤ top) l.

(** The watermark of a reseller: a missing checkpoint is created at the current
    usage. *)
Definition watermark (d : DB) (aid : Z) (a : Admin) : Z :=
  match checkpoints d !! aid with
  | Some ck => ck_last_billed_users_usage ck
  | None => a_users_usage a
  end.

Definition metered_ok (d : DB) : Prop :=
  ∀ aid a, admins d !! aid = Some a →
    0 ≤ watermark d aid a ≤ a_users_usage a ∧ disjoint_upto (spans aid d) (watermark d aid a).

(** *** Spans *)
Lemma disjoint_weaken l top top' : top ≤ top' → disjoint_upto l top → disjoint_upto l top'.
Proof.
  intros Ht [H1 H2]. split; [done|]. eapply Forall_impl; [exact H2|]. cbn. intros i. lia.
Qed.

Lemma disjoint_snoc l lo hi :
  0 ≤ lo → lo < hi → disjoint_upto l lo → disjoint_upto (l ++ [(lo, hi)]) hi.
Proof.
  intros H0 Hlt [Hs Hf]. split.
  - induction l as [|x l IH]; cbn; [by repeat constructor|].
    apply StronglySorted_inv in Hs as [Hs Hall]. inversion Hf as [|? ? Hx Hf']; subst.
    constructor; [by apply IH|]. apply Forall_app. split; [done|]. constructor; [|done]. cbn. lia.
  - apply Forall_app. split; [|by repeat constructor].
    eapply Forall_impl; [exact Hf|]. cbn. intros i. lia.
Qed.

(** The bytes of disjoint spans add up to at most the watermark. *)
Lemma disjoint_sum l top :
  0 ≤ top → disjoint_upto l top → 0 ≤ sumZ (λ i, i.2 - i.1) l ≤ top.
Proof.
  intros H0 [Hs Hf].
  assert (Hlo : ∀ b, Forall (λ i, b ≤ i.1) l → b ≤ top → 0 ≤ sumZ (λ i, i.2 - i.1) l ≤ top - b).
  { clear H0. revert Hs Hf. induction l as [|x l IH]; intros Hs Hf b Hb Hbt.
    - rewrite sumZ_nil. lia.
    - apply StronglySorted_inv in Hs as [Hs Hall]. inversion Hf as [|? ? Hx Hf']; subst.
      inversion Hb as [|? ? Hbx Hb']; subst. rewrite sumZ_cons.
      specialize (IH Hs Hf' x.2). destruct IH; [|lia|lia].
      eapply Forall_impl; [exact Hall|]. cbn. lia. }
  specialize (Hlo 0). destruct Hlo; [|done|lia].
  eapply Forall_impl; [exact Hf|]. cbn. lia.
Qed.

Lemma spans_frame aid d t :
  span_of aid t = None → omap (span_of aid) (transactions d ++ [t]) = spans aid d.
Proof. intros H. unfold spans. rewrite omap_app. cbn. rewrite H. by rewrite app_nil_r. Qed.

Lemma commission_span aid aid' d debit ref t :
  commission_tx d aid' debit ref = Some t → span_of aid t = None.
Proof.
  intros H. apply commission_tx_bounds in H as (_ & _ & Ht & _). unfold span_of. rewrite Ht.
  destruct (tx_reference t); try done. by rewrite andb_false_r.
Qed.

(** A posting adds at most the span of its own entry. *)
Lemma spans_add_tx aid aid' amount type ref skip d :
  spans aid (add_tx_state aid' amount type ref skip d) =
  spans aid d ++ omap (span_of aid) [mkTransaction aid' amount type ref].
Proof.
  unfold add_tx_state. set (t := mkTransaction aid' amount type ref). set (d1 := apply_tx t d).
  assert (H1 : spans aid d1 = spans aid d ++ omap (span_of aid) [t]) by apply omap_app.
  destruct (_ && _); [|done]. destruct (commission_tx _ _ _ _) as [c|] eqn:E; [|done].
  cbn [apply_opt_tx]. rewrite <-H1. apply (spans_frame aid d1 c). by eapply commission_span.
Qed.

(** *** Updates that keep the invariant *)
Lemma metered_frame d d' :
  (∀ aid a', admins d' !! aid = Some a' →
     ∃ a, admins d !! aid = Some a ∧ a_users_usage a' = a_users_usage a) →
  checkpoints d' = checkpoints d → (∀ aid, spans aid d' = spans aid d) →
  metered_ok d → metered_ok d'.
Proof.
  intros Ha Hc Ht H aid a' Ha'. destruct (Ha aid a' Ha') as (a & Had & Hu).
  specialize (H aid a Had). unfold watermark in *. rewrite Hc, Ht. by rewrite Hu.
Qed.

Lemma metered_same_tables d d' :
  admins d' = admins d → checkpoints d' = checkpoints d → transactions d' = transactions d →
  metered_ok d → metered_ok d'.
Proof.
  intros Ha Hc Ht. apply metered_frame; [|done|].
  - rewrite Ha. intros aid a' H. by exists a'.
  - intros aid. unfold spans. by rewrite Ht.
Qed.

(** Moving one watermark within its bounds. *)
Lemma metered_checkpoint d aid a ck :
  admins d !! aid = Some a → metered_ok d →
  watermark d aid a ≤ ck_last_billed_users_usage ck ≤ a_users_usage a →
  metered_ok (d <| checkpoints := <[aid := ck]> (checkpoints d) |>).
Proof.
  intros Ha H Hck aid' a' Ha'. cbn in Ha'. specialize (H aid' a' Ha').
  destruct (decide (aid = aid')) as [->|Hne].
  - rewrite Ha in Ha'. injection Ha' as <-. unfold watermark in *. cbn. rewrite lookup_insert_eq.
    destruct H as [H1 H2]. split; [lia|]. eapply disjoint_weaken; [|exact H2]. lia.
  - unfold watermark in *. cbn. by rewrite lookup_insert_ne.
Qed.

(** *** Operations that keep the invariant *)
Lemma preserves_metered_modify (f : DB → DB) :
  (∀ d, admins (f d) = admins d ∧ checkpoints (f d) = checkpoints d ∧
        transactions (f d) = transactions d) → preserves metered_ok (modify f).
Proof.
  intros Hf. apply preserves_modify. intros d. destruct (Hf d) as (H1 & H2 & H3).
  by apply metered_same_tables.
Qed.
#[export] Hint Extern 5 (preserves metered_ok (modify _)) =>
  apply preserves_metered_modify; intros; split_and!; reflexivity : session.

Lemma metered_wallet aid : preserves metered_ok (get_or_create_wallet aid).
Proof. unfold get_or_create_wallet. solve_preserves. Qed.
Lemma metered_log now aid : preserves metered_ok (_log_low_balance_event now aid).
Proof. unfold _log_low_balance_event. solve_preserves. Qed.
#[export] Hint Resolve metered_wallet metered_log : session.

Lemma metered_add_tx_state aid amount type ref skip d :
  (∀ aid', span_of aid' (mkTransaction aid amount type ref) = None) →
  metered_ok d → metered_ok (add_tx_state aid amount type ref skip d).
Proof.
  intros Hs. apply metered_frame.
  - rewrite add_tx_state_frame by done. intros aid' a' H. by exists a'.
  - by rewrite add_tx_state_frame.
  - intros aid'. rewrite spans_add_tx. cbn. rewrite Hs. by rewrite app_nil_r.
Qed.

(** A posting that is not a usage charge. *)
Lemma preserves_metered_tx aid amount type ref skip :
  String.eqb type "usage_billing" = false →
  preserves metered_ok (add_transaction aid amount type ref skip).
Proof.
  intros Ht s [Hw _]. rewrite (add_transaction_commits s). cbn [snd].
  assert (metered_ok (add_tx_state aid amount type ref skip (work s))); [|done].
  apply metered_add_tx_state; [|done]. intros aid'. unfold span_of. cbn [tx_reference tx_admin_id tx_type].
  destruct ref; try done. by rewrite Ht, andb_false_r.
Qed.
#[export] Hint Extern 4 (preserves metered_ok (add_transaction _ _ _ _ _)) =>
  apply preserves_metered_tx; reflexivity : session.

Lemma metered_prepaid d aid f :
  (∀ a, a_users_usage (f a) = a_users_usage a) →
  metered_ok d → metered_ok (update_admin_row aid f d).
Proof.
  intros Hf. apply metered_frame; [|done|done]. intros aid' a'. cbn. rewrite lookup_alter.
  case_decide; subst; [|by eauto]. destruct (admins d !! aid'); [|done].
  cbn. intros [= <-]. eexists. split; [done|]. by rewrite Hf.
Qed.

(** Stamping an existing checkpoint with the current usage or only the time. *)
Lemma metered_stamp d aid a ck v :
  admins d !! aid = Some a → checkpoints d !! aid = Some ck →
  ck_last_billed_users_usage ck ≤ ck_last_billed_users_usage (v ck) ≤ a_users_usage a →
  metered_ok d → metered_ok (d <| checkpoints := alter v aid (checkpoints d) |>).
Proof.
  intros Ha Hck Hv Hd. rewrite (alter_eq_insert v (checkpoints d) aid ck Hck).
  apply (metered_checkpoint d aid a); [done|done|]. unfold watermark. by rewrite Hck.
Qed.

Section bill_metered.
Context (now aid : Z) (a : Admin) (ck : Checkpoint) (d : DB).
Hypothesis Ha : admins d !! aid = Some a.
Hypothesis Hck : checkpoints d !! aid = Some ck.
Hypothesis Hd : metered_ok d.

Lemma mark_bounds : 0 ≤ ck_last_billed_users_usage ck ≤ a_users_usage a ∧
  disjoint_upto (spans aid d) (ck_last_billed_users_usage ck).
Proof. pose proof (Hd aid a Ha) as H. unfold watermark in H. by rewrite Hck in H. Qed.

(** The rows of a covered charge: the watermark is at the current usage. *)
Lemma metered_advanced covered : metered_ok (advanced now aid a covered d).
Proof.
  destruct mark_bounds as [Hm _]. unfold advanced. destruct (0 <? covered).
  - apply (metered_stamp _ aid (a <| a_prepaid_traffic_remaining :=
      Z.max 0 (a_prepaid_traffic_remaining a - covered) |>) ck); cbn; [|done|lia|].
    + by rewrite lookup_alter_eq, Ha.
    + by apply metered_prepaid.
  - apply (metered_stamp d aid a ck); cbn; (done || lia).
Qed.

Lemma metered_free sd split covered :
  metered_ok sd → good metered_ok (bill_free now aid a split covered (mkSession d sd)).2.
Proof.
  intros Hsd. destruct mark_bounds as [Hm _]. pose proof (metered_advanced covered) as Hadv.
  unfold bill_free, burn_prepaid, set_checkpoint. unfold advanced in Hadv.
  destruct (0 <? covered); [done|].
  destruct (total_bytes split <=? 0); [done|].
  split; apply (metered_stamp d aid a ck); cbn; (done || lia).
Qed.

(** The charge appends the span from the old watermark to the new one. *)
Lemma metered_charge covered cost :
  last_of a ck < a_users_usage a →
  metered_ok (add_tx_state aid (- cost) "usage_billing"
    (RefUsage (last_of a ck) (a_users_usage a) now) false (advanced now aid a covered d)).
Proof.
  intros Hlt aid' a' Ha'. destruct mark_bounds as [Hm Hsp].
  assert (Hlast : last_of a ck = ck_last_billed_users_usage ck) by (unfold last_of; lia).
  rewrite (add_tx_state_frame admins) in Ha' by done.
  pose proof (metered_advanced covered aid' a' Ha') as [H1 H2].
  unfold watermark in *. rewrite (add_tx_state_frame checkpoints), spans_add_tx by done.
  split; [done|]. cbn [omap list_omap]. unfold span_of at 1. cbn [tx_reference tx_admin_id tx_type].
  rewrite andb_true_r. destruct (Z.eqb_spec aid aid') as [<-|Hne]; [|by rewrite app_nil_r].
  rewrite (advanced_checkpoint now aid a covered d ck Hck). cbn [ck_last_billed_users_usage].
  assert (spans aid (advanced now aid a covered d) = spans aid d) as ->.
  { unfold spans. by rewrite (advanced_frame transactions). }
  rewrite Hlast. apply disjoint_snoc; [lia|lia|done].
Qed.
End bill_metered.

Lemma metered_positive now aid a ck d sd split covered cost :
  admins d !! aid = Some a → checkpoints d !! aid = Some ck → metered_ok d → metered_ok sd →
  last_of a ck < a_users_usage a →
  good metered_ok (bill_positive now aid a ck split covered cost (mkSession d sd)).2.
Proof.
  intros Ha Hck Hd Hsd Hlt.
  assert (Hw : ∃ b d1 sd1, get_or_create_wallet aid (mkSession d sd) = (Ok b, mkSession d1 sd1) ∧
    wallets d1 !! aid = Some b ∧ admins d1 = admins d ∧ checkpoints d1 = checkpoints d ∧
    metered_ok d1 ∧ metered_ok sd1).
  { pose proof (metered_wallet aid (mkSession d sd) (conj Hd Hsd)) as Hg.
    unfold get_or_create_wallet in *. rewrite bind_gets in *. cbn [work] in *.
    destruct (wallets d !! aid) as [b|] eqn:Eb.
    - by exists b, d, sd.
    - do 3 eexists. split; [done|]. cbn. rewrite lookup_insert_eq. split_and!; try done; apply Hg. }
  destruct Hw as (b & d1 & sd1 & Hrun & Hb & Ha1 & Hc1 & Hd1 & Hsd1).
  destruct (Z.ltb_spec b cost) as [Hlow|Hcov].
  - unfold bill_positive. rewrite (bind_ok _ _ _ _ _ Hrun).
    destruct (Z.ltb_spec b cost); [|lia].
    assert (Hp : preserves metered_ok (_log_low_balance_event now aid ;;; commit ;;;
      ret (A:=option Transaction * UsageSplit) (None, split))) by solve_preserves.
    apply Hp. done.
  - assert (E : bill_positive now aid a ck split covered cost (mkSession d sd) =
                bill_positive now aid a ck split covered cost (mkSession d1 sd1)).
    { unfold bill_positive. rewrite (bind_ok _ _ _ _ _ Hrun).
      by rewrite (bind_ok _ _ _ _ _ (wallet_run d1 aid b Hb (mkSession d1 sd1) eq_refl)). }
    destruct (positive_covered now aid a ck split covered cost d1 sd1 b Hb Hcov) as (evs & Hr).
    rewrite E, Hr. rewrite <-Ha1 in Ha. rewrite <-Hc1 in Hck.
    pose proof (metered_charge now aid a ck d1 Ha Hck Hd1 covered cost Hlt) as Hm.
    split; by apply (metered_same_tables _ _ eq_refl eq_refl eq_refl Hm).
Qed.

(** A checkpoint created on first use. *)
Definition opened (now aid : Z) (d : DB) : DB :=
  d <| checkpoints := <[aid := mkCheckpoint (now - billing_lookback_seconds d)
         (match admins d !! aid with Some a => a_users_usage a | None => 0 end)]> (checkpoints d) |>.

Lemma metered_opened now aid d :
  checkpoints d !! aid = None → metered_ok d → metered_ok (opened now aid d).
Proof.
  intros Hck Hd. unfold opened. destruct (admins d !! aid) as [a|] eqn:Ha.
  - apply (metered_checkpoint d aid a); [done|done|]. unfold watermark. rewrite Hck. cbn. lia.
  - intros aid' a' Ha'. cbn in Ha'. pose proof (Hd aid' a' Ha') as H.
    unfold watermark in *. cbn. rewrite lookup_insert_ne by congruence. exact H.
Qed.

Lemma metered_get_checkpoint now aid : preserves metered_ok (get_or_create_checkpoint now aid).
Proof.
  intros [d sd] [Hd Hsd]. unfold get_or_create_checkpoint. rewrite bind_gets. cbn [work].
  destruct (checkpoints d !! aid) as [ck|] eqn:Hck; [done|].
  pose proof (metered_opened now aid d Hck Hd). done.
Qed.
#[export] Hint Resolve metered_get_checkpoint : session.

Lemma metered_unbilled now aid a : preserves metered_ok (unbilled_usage_split now aid a).
Proof. unfold unbilled_usage_split. solve_preserves. Qed.
#[export] Hint Resolve metered_unbilled : session.

(** A run that has to create its checkpoint is the run on the opened database. *)
Lemma bill_opens now aid a r d sd :
  admins d !! aid = Some a → checkpoints d !! aid = None → a_is_sudo a = false →
  0 < resolve_usage_rate_per_gb d a r →
  bill_reseller_usage now aid r (mkSession d sd) =
  bill_reseller_usage now aid r (mkSession (opened now aid d) (opened now aid d)).
Proof.
  intros Ha Hck Hs Hr. set (d1 := opened now aid d).
  assert (Ha1 : admins d1 !! aid = Some a) by done.
  unfold bill_reseller_usage at 1 2.
  rewrite (bind_ok _ _ _ _ _ (the_admin_run d aid a Ha sd)).
  rewrite (bind_ok _ _ _ _ _ (the_admin_run d1 aid a Ha1 d1)), Hs, !bind_gets. cbn [work].
  change (resolve_usage_rate_per_gb d1 a r) with (resolve_usage_rate_per_gb d a r).
  destruct (_ <=? 0) eqn:E; [lia|].
  assert (H1 : get_or_create_checkpoint now aid (mkSession d sd) =
    (Ok (mkCheckpoint (now - billing_lookback_seconds d) (a_users_usage a)), mkSession d1 d1)).
  { unfold get_or_create_checkpoint. rewrite bind_gets. cbn [work]. rewrite Hck, bind_gets. cbn [work].
    unfold d1, opened. by rewrite Ha. }
  assert (H2 : get_or_create_checkpoint now aid (mkSession d1 d1) =
    (Ok (mkCheckpoint (now - billing_lookback_seconds d) (a_users_usage a)), mkSession d1 d1)).
  { apply checkpoint_run. unfold d1, opened. rewrite Ha. cbn. by rewrite lookup_insert_eq. }
  by rewrite (bind_ok _ _ _ _ _ H1), (bind_ok _ _ _ _ _ H2).
Qed.

Lemma bill_metered_ck now aid a r ck d sd :
  admins d !! aid = Some a → checkpoints d !! aid = Some ck → a_is_sudo a = false →
  0 < resolve_usage_rate_per_gb d a r → metered_ok d → metered_ok sd →
  good metered_ok (bill_reseller_usage now aid r (mkSession d sd)).2.
Proof.
  intros Ha Hck Hs Hr Hd Hsd. destruct (mark_bounds aid a ck d Ha Hck Hd) as [Hm _].
  destruct (bill_split d sd now aid a ck r Ha Hck Hs Hr) as (cks & _ & Hcks & ->).
  rewrite Hcks, same_checkpoints by lia.
  destruct (Z.leb_spec (quote_cost d now aid a ck (resolve_usage_rate_per_gb d a r)) 0) as [Hz|Hp].
  - by apply (metered_free now aid a ck).
  - apply metered_positive; try done.
    pose proof (cost_bills_bytes d now aid a ck _ Hr Hp) as Hb.
    rewrite (proj2 (quote_nonneg d now aid a ck)) in Hb. lia.
Qed.

Lemma bill_metered now aid r : preserves metered_ok (bill_reseller_usage now aid r).
Proof.
  intros [d sd] [Hd Hsd]. cbn in Hd, Hsd. destruct (admins d !! aid) as [a|] eqn:Ha.
  2: { unfold bill_reseller_usage, the_admin, bind at 1. rewrite bind_gets. cbn [work]. by rewrite Ha. }
  destruct (a_is_sudo a) eqn:Hs.
  { unfold bill_reseller_usage. by rewrite (bind_ok _ _ _ _ _ (the_admin_run d aid a Ha sd)), Hs. }
  destruct (Z.leb_spec (resolve_usage_rate_per_gb d a r) 0) as [Hr|Hr].
  { unfold bill_reseller_usage. rewrite (bind_ok _ _ _ _ _ (the_admin_run d aid a Ha sd)), Hs, bind_gets.
    cbn [work]. by destruct (Z.leb_spec (resolve_usage_rate_per_gb d a r) 0); [|lia]. }
  destruct (checkpoints d !! aid) as [ck|] eqn:Hck; [by apply (bill_metered_ck now aid a r ck)|].
  rewrite (bill_opens now aid a r d sd) by done. pose proof (metered_opened now aid d Hck Hd).
  eapply (bill_metered_ck now aid a r); try done. unfold opened. cbn. by rewrite lookup_insert_eq.
Qed.
#[export] Hint Resolve bill_metered : session.

Lemma metered_bill_all now l n : preserves metered_ok (bill_all now l n).
Proof. revert n. induction l as [|[aid a] l IH]; intros n; cbn; solve_preserves. Qed.
Lemma metered_collect now l b : preserves metered_ok (collect_unpaid now l b).
Proof.
  revert b. induction l as [|[aid a] l IH]; intros b; cbn; [solve_preserves|].
  apply preserves_bind; [|auto]. unfold unpaid_usage. solve_preserves.
Qed.
#[export] Hint Resolve metered_bill_all metered_collect : session.

End Metering.
