(* ===== verification/Tariffs.v ===== *)
(** * Tariffs: wholesale plan tariffs of resellers

    [app/billing/reseller_tariffs.py] and the wrappers of
    [app/billing/unlimited_create.py].  Tariff matching, the limits a tariff
    locks, the shape checks and the wallet debit of a create, modify or portal
    purchase.  [now] is [int(datetime.utcnow().timestamp())]. *)
From S2P Require Import Prelude Store Users Wallet.

Module Tariffs.
Import Wallet.

Definition normalize_data_limit (data_limit : option Z) : option Z :=
  match data_limit with
  | None => None
  | Some n => if n <=? 0 then None else Some n
  end.

Definition is_unlimited_data_limit (data_limit : option Z) : bool :=
  is_none (normalize_data_limit data_limit).

(** [asc().nullslast()] *)
Definition nulls_last (x y : option Z) : comparison :=
  match x, y with
  | Some a, Some b => Z.compare a b
  | Some _, None => Lt
  | None, Some _ => Gt
  | None, None => Eq
  end.

Definition tariff_order (t1 t2 : ResellerPlanTariff) : bool :=
  match nulls_last (t_duration_days t1) (t_duration_days t2) with
  | Lt => true
  | Gt => false
  | Eq => match nulls_last (t_data_limit t1) (t_data_limit t2) with
          | Lt => true
          | Gt => false
          | Eq => t_id t1 <=? t_id t2
          end
  end.

Definition list_tariffs (d : DB) (enabled_only : bool) : list ResellerPlanTariff :=
  sort_by tariff_order
    (if enabled_only then filter (λ t, t_enabled t = true) (tariffs d) else tariffs d).

Definition get_tariff (d : DB) (tariff_id : Z) : option ResellerPlanTariff :=
  head (filter (λ t, t_id t = tariff_id) (tariffs d)).

Definition _normalize_positive_int (value : option Z) (allow_zero : bool) : option Z :=
  match value with
  | None => None
  | Some n => if n <? 0 then None else if (n =? 0) && negb allow_zero then None else Some n
  end.

Definition next_tariff_id (d : DB) : Z :=
  foldr (λ t acc, Z.max (t_id t) acc) 0 (tariffs d) + 1.

Definition create_tariff (name : string) (price : option Z)
    (data_limit duration_days device_limit speed_limit_up speed_limit_down : option Z)
    (enabled : bool) : M DB Z :=
  let name := strip name in
  if String.eqb name "" then raise (ResellerTariffError 400 "Name is required")
  else
    let* tid := gets next_tariff_id in
    let duration := match duration_days with
                    | Some x => if x <=? 0 then None else Some x
                    | None => None
                    end in
    modify (λ d, d <| tariffs := tariffs d ++ [mkTariff tid (String.substring 0 128 name)
      (Z.max 0 (or0 price)) (normalize_data_limit data_limit) duration
      (_normalize_positive_int device_limit false)
      (_normalize_positive_int speed_limit_up false)
      (_normalize_positive_int speed_limit_down false) enabled] |>) ;;;
    commit ;;;
    ret tid.

(** The keyword arguments of [update_tariff]; [None] at the outer option is
    the Ellipsis sentinel (argument not given). *)
Record TariffPatch := mkTariffPatch {
  tp_name : option string;
  tp_price : option Z;
  tp_data_limit : option (option Z);
  tp_duration_days : option (option Z);
  tp_device_limit : option (option Z);
  tp_speed_limit_up : option (option Z);
  tp_speed_limit_down : option (option Z);
  tp_enabled : option bool }.

Definition patch_tariff (p : TariffPatch) (t : ResellerPlanTariff) : ResellerPlanTariff :=
  let t := if_some (tp_name p) (λ n t, t <| t_name := String.substring 0 128 (strip n) |>) t in
  let t := if_some (tp_price p) (λ x t, t <| t_price := Z.max 0 x |>) t in
  let t := if_some (tp_data_limit p) (λ x t, t <| t_data_limit := normalize_data_limit x |>) t in
  let t := if_some (tp_duration_days p) (λ x t, t <| t_duration_days :=
             match x with Some v => if 0 <? v then Some v else None | None => None end |>) t in
  let t := if_some (tp_device_limit p)
             (λ x t, t <| t_device_limit := _normalize_positive_int x false |>) t in
  let t := if_some (tp_speed_limit_up p)
             (λ x t, t <| t_speed_limit_up := _normalize_positive_int x false |>) t in
  let t := if_some (tp_speed_limit_down p)
             (λ x t, t <| t_speed_limit_down := _normalize_positive_int x false |>) t in
  if_some (tp_enabled p) (λ b t, t <| t_enabled := b |>) t.

Definition update_tariff (tariff_id : Z) (p : TariffPatch) : M DB unit :=
  match tp_name p with
  | Some n =>
      if String.eqb (strip n) "" then raise (ResellerTariffError 400 "Name is required")
      else ret tt
  | None => ret tt
  end ;;;
  modify (λ d, d <| tariffs :=
    map (λ t, if t_id t =? tariff_id then patch_tariff p t else t) (tariffs d) |>) ;;;
  commit.

Definition delete_tariff (tariff_id : Z) : M DB unit :=
  modify (λ d, d <| tariff_overrides := filter (λ kv, kv.1.2 ≠ tariff_id) (tariff_overrides d) |>) ;;;
  modify (λ d, d <| tariffs := filter (λ t, t_id t ≠ tariff_id) (tariffs d) |>) ;;;
  commit.

(** [get_tariff_override(...).price]; the outer option is the row. *)
Definition get_tariff_override (d : DB) (admin_id tariff_id : Z) : option (option Z) :=
  tariff_overrides d !! (admin_id, tariff_id).

Definition effective_tariff_price (d : DB) (admin : option (Z * Admin))
    (t : ResellerPlanTariff) : Z :=
  match admin with
  | None => t_price t
  | Some (aid, _) =>
      match get_tariff_override d aid (t_id t) with
      | Some (Some price) => price
      | _ => t_price t
      end
  end.

Record TariffOffer := mkTariffOffer {
  of_tariff : ResellerPlanTariff;
  of_is_unlimited : bool;
  of_catalog_price : Z;
  of_price : Z;
  of_overridden : bool }.

Definition effective_tariff_offer (d : DB) (admin_id : Z) (t : ResellerPlanTariff) : TariffOffer :=
  match get_tariff_override d admin_id (t_id t) with
  | Some (Some price) =>
      mkTariffOffer t (is_unlimited_data_limit (t_data_limit t)) (t_price t) price true
  | _ =>
      mkTariffOffer t (is_unlimited_data_limit (t_data_limit t)) (t_price t) (t_price t) false
  end.

Definition list_tariffs_for_admin (d : DB) (admin_id : Z) (enabled_only : bool)
    : list TariffOffer :=
  map (effective_tariff_offer d admin_id) (list_tariffs d enabled_only).

Definition upsert_tariff_override (admin_id tariff_id : Z) (price : option Z)
    (do_commit : bool) (min_price : option Z) : M DB unit :=
  match price with
  | None =>
      let* ov := gets (λ d, get_tariff_override d admin_id tariff_id) in
      match ov with
      | None => ret tt
      | Some _ =>
          modify (λ d, d <| tariff_overrides := delete (admin_id, tariff_id) (tariff_overrides d) |>) ;;;
          when do_commit commit
      end
  | Some price =>
      if price <? 0 then raise (ResellerTariffError 400 "Override price cannot be negative")
      else if match min_price with Some m => price <? m | None => false end
      then raise (ResellerTariffError 400 "Price cannot be below master catalog price")
      else
        modify (λ d, d <| tariff_overrides :=
          <[(admin_id, tariff_id) := Some price]> (tariff_overrides d) |>) ;;;
        when do_commit commit
  end.

(** ** Locked limits: a dict from field name to the locked value *)
Notation Locks := (gmap string Z).

Definition set_if_positive (key : string) (v : option Z) (out : Locks) : Locks :=
  match v with
  | Some n => if 0 <? n then <[key := n]> out else out
  | None => out
  end.

Definition locked_limit_overrides (tariff : option ResellerPlanTariff) : Locks :=
  match tariff with
  | None => ∅
  | Some t =>
      set_if_positive "speed_limit_down" (t_speed_limit_down t)
        (set_if_positive "speed_limit_up" (t_speed_limit_up t)
          (set_if_positive "device_limit" (t_device_limit t) ∅))
  end.

Definition locked_limit_overrides_from_plan (plan : option Plan) : Locks :=
  match plan with
  | None => ∅
  | Some p => set_if_positive "device_limit" (p_device_limit p) ∅
  end.

Definition _normalize_duration_days (duration_days : option Z) : option Z :=
  match duration_days with
  | None => None
  | Some x => if 0 <? x then Some x else None
  end.

Definition merge_lock (key : string) (n : Z) (out : Locks) : Locks :=
  if n <=? 0 then out
  else match out !! key with
       | None => <[key := n]> out
       | Some m => if n <? m then <[key := n]> out else out
       end.

Definition _merge_limit_locks (parts : list Locks) : Locks :=
  foldl (λ out part, map_fold merge_lock out part) ∅ parts.

Definition plan_order (p1 p2 : Plan) : bool := p_id p1 <=? p_id p2.

Definition match_plans_for_limits (d : DB) (data_limit duration_days : option Z) : list Plan :=
  filter (λ p, normalize_data_limit (p_data_limit p) = normalize_data_limit data_limit ∧
               _normalize_duration_days (p_duration_days p) = _normalize_duration_days duration_days)
    (sort_by plan_order (filter (λ p, p_enabled p = true) (plans d))).

Definition resolve_plan_limit_locks (d : DB) (data_limit duration_days : option Z) : Locks :=
  foldl (λ locks plan, _merge_limit_locks [locks; locked_limit_overrides_from_plan (Some plan)])
    ∅ (match_plans_for_limits d data_limit duration_days).

Definition default_unlimited_tariff_locks (d : DB) : Locks :=
  foldl (λ locks t,
      if is_unlimited_data_limit (t_data_limit t)
      then _merge_limit_locks [locks; locked_limit_overrides (Some t)] else locks)
    ∅ (list_tariffs d true).

(** ** Durations *)
Definition DAY : Z := 86400.

Definition days_of_seconds (secs : Z) : option Z :=
  if secs <=? 0 then None
  else
    let days := py_round_div secs DAY in
    if 0 <? days then Some days else None.

Definition duration_days_from_expire (now : Z) (expire : option Z) : option Z :=
  match expire with
  | None => None
  | Some ts => if ts <=? 0 then None else days_of_seconds (ts - now)
  end.

Definition duration_days_from_on_hold (on_hold_expire_duration : option Z) : option Z :=
  match on_hold_expire_duration with
  | None => None
  | Some secs => days_of_seconds secs
  end.

Definition duration_days_for_create_payload (now : Z) (on_hold expire : option Z) : option Z :=
  match duration_days_from_on_hold on_hold with
  | Some hold => Some hold
  | None => duration_days_from_expire now expire
  end.

Definition _DURATION_SNAP_TOLERANCE_DAYS : Z := 1.

Definition snap_order (want x y : Z) : bool :=
  (Z.abs (x - want) <? Z.abs (y - want))
  || ((Z.abs (x - want) =? Z.abs (y - want)) && (x <=? y)).

Definition snap_duration_to_catalog (want_days : option Z) (catalog_days : list Z)
    (tolerance : Z) : option Z :=
  match want_days with
  | None => None
  | Some want =>
      if want <=? 0 then None
      else
        let catalog := sort_by Z.leb (remove_dups (filter (λ x, 0 < x) catalog_days)) in
        match catalog with
        | [] => Some want
        | _ =>
            if bool_decide (want ∈ catalog) then Some want
            else
              let near := filter (λ x, Z.abs (x - want) ≤ tolerance) catalog in
              match head (sort_by (snap_order want) near) with
              | None => Some want
              | Some x => Some x
              end
        end
  end.

(** ** Matching *)
Definition price_id_order (t1 t2 : ResellerPlanTariff) : bool :=
  (t_price t1 <? t_price t2) || ((t_price t1 =? t_price t2) && (t_id t1 <=? t_id t2)).

Definition cheapest (l : list ResellerPlanTariff) : option ResellerPlanTariff :=
  head (sort_by price_id_order l).

Definition match_tariff (d : DB) (data_limit duration_days : option Z)
    : option ResellerPlanTariff :=
  let want_dl := normalize_data_limit data_limit in
  let want_dur := match duration_days with
                  | Some x => if x <=? 0 then None else Some x
                  | None => None
                  end in
  let rows := list_tariffs d true in
  let same_volume := filter (λ t, normalize_data_limit (t_data_limit t) = want_dl) rows in
  match same_volume with
  | [] => None
  | _ =>
      match want_dur with
      | Some _ =>
          let catalog_durs := omap (λ t, _normalize_duration_days (t_duration_days t)) same_volume in
          let snapped := snap_duration_to_catalog want_dur catalog_durs
                           _DURATION_SNAP_TOLERANCE_DAYS in
          cheapest (filter (λ t, is_Some (t_duration_days t) ∧ t_duration_days t = snapped)
                      same_volume)
      | None =>
          cheapest (filter (λ t, t_duration_days t = None) same_volume)
      end
  end.

Definition match_tariff_for_plan (d : DB) (plan : Plan) : option ResellerPlanTariff :=
  match_tariff d (p_data_limit plan) (p_duration_days plan).

(** Whether the caller is a (non-sudo) reseller. *)
Definition is_reseller (admin : option (Z * Admin)) : bool :=
  match admin with Some (_, a) => negb (a_is_sudo a) | None => false end.

Definition resolve_locked_limits_for_admin (d : DB) (now : Z) (admin : option (Z * Admin))
    (data_limit duration_days expire : option Z) (commercial_plan : option Plan) : Locks :=
  if negb (is_reseller admin) then ∅
  else
    let data_limit := match commercial_plan with Some p => p_data_limit p | None => data_limit end in
    let dur :=
      match commercial_plan with
      | Some p => _normalize_duration_days (p_duration_days p)
      | None => match _normalize_duration_days duration_days with
                | Some x => Some x
                | None => duration_days_from_expire now expire
                end
      end in
    let tariff := match_tariff d data_limit dur in
    let locks := _merge_limit_locks [resolve_plan_limit_locks d data_limit dur;
                   locked_limit_overrides_from_plan commercial_plan;
                   locked_limit_overrides tariff] in
    if is_none (locks !! "device_limit") && is_unlimited_data_limit data_limit
    then _merge_limit_locks [locks; default_unlimited_tariff_locks d]
    else locks.

(** The fields of [UserCreate] the locks read and write. *)
Record UserCreate := mkUserCreate {
  uc_data_limit : option Z;
  uc_expire : option Z;
  uc_on_hold_expire_duration : option Z;
  uc_device_limit : option Z;
  uc_speed_limit_up : option Z;
  uc_speed_limit_down : option Z }.

(** [payload.model_copy(update=overrides)] *)
Definition apply_locked_limits_to_user_payload (u : UserCreate) (overrides : Locks) : UserCreate :=
  let get k old := match overrides !! k with Some n => Some n | None => old end in
  mkUserCreate (uc_data_limit u) (uc_expire u) (uc_on_hold_expire_duration u)
    (get "device_limit" (uc_device_limit u))
    (get "speed_limit_up" (uc_speed_limit_up u))
    (get "speed_limit_down" (uc_speed_limit_down u)).

Definition enforce_reseller_create_locks (d : DB) (now : Z) (admin : option (Z * Admin))
    (new_user : UserCreate) : UserCreate * option Z :=
  let duration_days := duration_days_for_create_payload now
                         (uc_on_hold_expire_duration new_user) (uc_expire new_user) in
  let locks := resolve_locked_limits_for_admin d now admin (uc_data_limit new_user)
                 duration_days (uc_expire new_user) None in
  (apply_locked_limits_to_user_payload new_user locks, duration_days).

(** ** Shape checks and charges *)
Definition _norm_expire (expire : option Z) : option Z :=
  match expire with
  | None => None
  | Some ts => if 0 <? ts then Some ts else None
  end.

Definition assert_reseller_shape_allowed (admin : option (Z * Admin))
    (data_limit duration_days : option Z) : M DB unit :=
  if negb (is_reseller admin) then ret tt
  else
  let* on := gets (λ d, is_enabled d "billing") in
  if negb on then ret tt
  else
  let* ts := gets (λ d, list_tariffs d true) in
  match ts with
  | [] => ret tt
  | _ =>
      let* m := gets (λ d, match_tariff d data_limit duration_days) in
      match m with
      | Some _ => ret tt
      | None =>
          if is_unlimited_data_limit data_limit then
            if existsb (λ t, is_unlimited_data_limit (t_data_limit t)) ts
            then raise (ResellerTariffError 400
              "Unlimited accounts must use a duration that matches a wholesale tariff")
            else ret tt
          else if existsb (λ t, negb (is_unlimited_data_limit (t_data_limit t))) ts
          then raise (ResellerTariffError 400
            "No wholesale tariff matches this data limit / duration.")
          else ret tt
      end
  end.

Definition prepare_reseller_tariff_charge (admin : option (Z * Admin))
    (data_limit duration_days : option Z) (commercial_plan : option Plan)
    (count : Z) (require_match : bool) : M DB (option ResellerPlanTariff * Z) :=
  match admin with
  | None => ret (None, 0)
  | Some (aid, a) =>
      if a_is_sudo a then ret (None, 0)
      else if count <? 1 then ret (None, 0)
      else
      let* on := gets (λ d, is_enabled d "billing") in
      if negb on then ret (None, 0)
      else
      let data_limit := match commercial_plan with
                        | Some p => p_data_limit p | None => data_limit end in
      let duration_days := match commercial_plan with
                           | Some p => p_duration_days p | None => duration_days end in
      let* tariff := gets (λ d,
        match commercial_plan with
        | Some p => match_tariff_for_plan d p
        | None => match_tariff d data_limit duration_days
        end) in
      match tariff with
      | None =>
          when require_match
            (assert_reseller_shape_allowed (Some (aid, a)) data_limit duration_days) ;;;
          ret (None, 0)
      | Some t =>
          let* price := gets (λ d, effective_tariff_price d (Some (aid, a)) t) in
          if price <=? 0 then ret (Some t, 0)
          else
            let total := price * count in
            let* balance := get_or_create_wallet aid in
            if balance <? total
            then raise (ResellerTariffError 402 "Insufficient wallet balance")
            else ret (Some t, price)
      end
  end.

Definition billable_duration_candidates (now : Z) (old_expire new_expire : option Z) : list Z :=
  let old_e := _norm_expire old_expire in
  match _norm_expire new_expire with
  | None => []
  | Some new_e =>
      let from_now := py_round_div (new_e - now) DAY in
      let out := if 0 <? from_now then [from_now] else [] in
      match old_e with
      | Some o =>
          if (now <? o) && (o + 3600 <? new_e) then
            let added := py_round_div (new_e - o) DAY in
            if (0 <? added) && negb (existsb (Z.eqb added) out) then out ++ [added] else out
          else out
      | None => out
      end
  end.

Fixpoint first_match (d : DB) (data_limit : option Z) (durs : list Z)
    : option ResellerPlanTariff :=
  match durs with
  | [] => None
  | dur :: durs =>
      match match_tariff d data_limit (Some dur) with
      | Some hit => Some hit
      | None => first_match d data_limit durs
      end
  end.

Definition match_tariff_for_modify (d : DB) (now : Z) (data_limit old_expire new_expire : option Z)
    : option ResellerPlanTariff :=
  match first_match d data_limit (billable_duration_candidates now old_expire new_expire) with
  | Some hit => Some hit
  | None =>
      let old_e := _norm_expire old_expire in
      let new_e := _norm_expire new_expire in
      if bool_decide (old_e = new_e)
         || match old_e, new_e with
            | Some o, Some n => Z.abs (n - o) <=? 3600
            | _, _ => false
            end
      then match_tariff d data_limit (duration_days_from_expire now new_expire)
      else None
  end.

Definition assert_reseller_modify_shape_allowed (now : Z) (admin : option (Z * Admin))
    (old_data_limit old_expire next_data_limit next_expire : option Z) : M DB unit :=
  if negb (is_reseller admin) then ret tt
  else
  let* on := gets (λ d, is_enabled d "billing") in
  if negb on then ret tt
  else
  let* ts := gets (λ d, list_tariffs d true) in
  match ts with
  | [] => ret tt
  | _ =>
    let old_e := _norm_expire old_expire in
    let new_e := _norm_expire next_expire in
    when (negb (is_none old_e) && is_none new_e && is_unlimited_data_limit next_data_limit
          && existsb (λ t, is_unlimited_data_limit (t_data_limit t) && pos_limit (t_duration_days t)) ts)
      (raise (ResellerTariffError 400 "Cannot remove expiry on unlimited accounts")) ;;;
    let candidates := billable_duration_candidates now old_expire next_expire in
    let same_data := bool_decide
      (normalize_data_limit old_data_limit = normalize_data_limit next_data_limit) in
    if match candidates with [] => same_data | _ => false end then ret tt
    else
      let* m := gets (λ d, match_tariff_for_modify d now next_data_limit old_expire next_expire) in
      match m with
      | Some _ => ret tt
      | None =>
          when (match candidates with [] => false | _ => true end
                && is_unlimited_data_limit next_data_limit
                && existsb (λ t, is_unlimited_data_limit (t_data_limit t)) ts)
            (raise (ResellerTariffError 400 "Expiry must match a wholesale tariff duration")) ;;;
          when (negb same_data)
            (assert_reseller_shape_allowed admin next_data_limit
               (duration_days_from_expire now next_expire))
      end
  end.

Definition should_charge_reseller_modify (now : Z) (dbuser : User) (tariff : ResellerPlanTariff)
    (next_expire old_expire old_data_limit next_data_limit : option Z) : bool :=
  let paid_id := u_reseller_tariff_charged_id dbuser in
  let paid_expire := _norm_expire (u_reseller_tariff_charged_expire dbuser) in
  let new_e := _norm_expire next_expire in
  let old_e := _norm_expire old_expire in
  let extended :=
    match new_e with
    | None => false
    | Some n => match old_e with
                | None => true
                | Some o => (o <=? now) || (o + 3600 <? n)
                end
    end in
  let data_changed := negb (bool_decide
    (normalize_data_limit old_data_limit = normalize_data_limit next_data_limit)) in
  match paid_id with
  | None => extended || data_changed
  | Some paid =>
      if extended then
        match paid_expire with
        | None => true
        | Some p => match new_e with Some n => p + 3600 <? n | None => false end
        end
      else data_changed && negb (paid =? t_id tariff)
  end.

Definition mark_user_tariff_charged (tariff : ResellerPlanTariff) (u : User) : User :=
  u <| u_reseller_tariff_charged_id := Some (t_id tariff) |>
    <| u_reseller_tariff_charged_expire := _norm_expire (u_expire u) |>.

(** Usernames are compared under the case-insensitive collation. *)
Definition same_username (x y : string) : bool := String.eqb (lower x) (lower y).

Definition find_user (d : DB) (username : string) : option (Z * User) :=
  head (filter (λ p, same_username (u_username p.2) username = true) (map_to_list (users d))).

Definition mark_users_tariff_charged (usernames : list string) (tariff : ResellerPlanTariff)
    : M DB unit :=
  match usernames with
  | [] => ret tt
  | _ =>
      modify (λ d, d <| users := (λ u,
        if existsb (same_username (u_username u)) usernames
        then mark_user_tariff_charged tariff u else u) <$> users d |>) ;;;
      commit
  end.

Definition prepare_reseller_modify_charge (now : Z) (admin : option (Z * Admin)) (dbuser : User)
    (next_data_limit next_expire : option Z) : M DB (option ResellerPlanTariff * Z) :=
  match admin with
  | None => ret (None, 0)
  | Some (aid, a) =>
      if a_is_sudo a then ret (None, 0)
      else
      let* on := gets (λ d, is_enabled d "billing") in
      if negb on then ret (None, 0)
      else
      let old_data := u_data_limit dbuser in
      let old_expire := u_expire dbuser in
      assert_reseller_modify_shape_allowed now (Some (aid, a)) old_data old_expire
        next_data_limit next_expire ;;;
      let* tariff := gets (λ d,
        match_tariff_for_modify d now next_data_limit old_expire next_expire) in
      match tariff with
      | None => ret (None, 0)
      | Some t =>
          if negb (should_charge_reseller_modify now dbuser t next_expire old_expire
                     old_data next_data_limit)
          then ret (None, 0)
          else
            let* price := gets (λ d, effective_tariff_price d (Some (aid, a)) t) in
            if price <=? 0 then ret (Some t, 0)
            else
              let* balance := get_or_create_wallet aid in
              if balance <? price
              then raise (ResellerTariffError 402 "Insufficient wallet balance")
              else ret (Some t, price)
      end
  end.

Definition charge_reseller_tariff (admin : option (Z * Admin)) (tariff : ResellerPlanTariff)
    (unit_price : Z) (usernames : list string) (event : string) : M DB (option Transaction) :=
  match usernames with
  | [] => ret None
  | first :: _ =>
      if unit_price <=? 0 then ret None
      else
        match admin with
        | None => ret None
        | Some (aid, a) =>
            if a_is_sudo a then ret None
            else
              let n := length usernames in
              let total := unit_price * Z.of_nat n in
              let* tx := add_transaction aid (- total) "plan_sale"
                           (RefTariff event (t_id tariff) n first) false in
              ret (Some tx)
        end
  end.

Definition charge_portal_plan_tariff (reseller_admin_id : option Z) (commercial_plan : Plan)
    (username event : string) : M DB (option Transaction) :=
  if negb (truthy reseller_admin_id) then ret None
  else
  let aid := or0 reseller_admin_id in
  let* adm := gets (λ d, admins d !! aid) in
  match adm with
  | None => ret None
  | Some a =>
      if a_is_sudo a then ret None
      else
      let* tu := prepare_reseller_tariff_charge (Some (aid, a)) None None
                   (Some commercial_plan) 1 true in
      match tu.1 with
      | None => ret None
      | Some tariff =>
          let* tx := (if 0 <? tu.2
                      then charge_reseller_tariff (Some (aid, a)) tariff tu.2 [username] event
                      else ret None) in
          let* dbuser := gets (λ d, find_user d username) in
          match dbuser with
          | None => ret tx
          | Some (uid, _) =>
              modify (update_user_row uid (mark_user_tariff_charged tariff)) ;;;
              commit ;;;
              ret tx
          end
      end
  end.

(** *** [unlimited_create.py] *)
Definition get_plan_by_id (d : DB) (plan_id : Z) : option Plan :=
  head (filter (λ p, p_id p = plan_id) (plans d)).

Definition prepare_unlimited_create_charge (admin : option (Z * Admin))
    (data_limit : option Z) (count : Z) (plan_id duration_days : option Z)
    (commercial_plan : option Plan) : M DB (option ResellerPlanTariff * Z) :=
  let* plan := gets (λ d,
    match commercial_plan, plan_id with
    | None, Some pid => get_plan_by_id d pid
    | _, _ => commercial_plan
    end) in
  prepare_reseller_tariff_charge admin
    (match plan with None => data_limit | Some p => p_data_limit p end)
    (match plan with None => duration_days | Some p => p_duration_days p end)
    plan count true.

Definition charge_unlimited_creates (admin : option (Z * Admin)) (plan : ResellerPlanTariff)
    (unit_price : Z) (usernames : list string) (event : string) : M DB (option Transaction) :=
  let* tx := (if 0 <? unit_price
              then charge_reseller_tariff admin plan unit_price usernames event
              else ret None) in
  mark_users_tariff_charged usernames plan ;;;
  ret tx.

End Tariffs.

Module TariffFacts.
Import Wallet Ledger WalletFacts Tariffs.

#[export] Instance Zleb_total : TotalOrder Z.leb.
Proof. split; intros; rewrite ?Is_true_true, ?Z.leb_le in *; lia. Qed.

#[export] Instance snap_order_total w : TotalOrder (snap_order w).
Proof.
  split; unfold snap_order; intros;
    rewrite ?Is_true_true, ?orb_true_iff, ?andb_true_iff, ?Z.ltb_lt, ?Z.eqb_eq, ?Z.leb_le in *;
    lia.
Qed.

#[export] Instance price_id_order_total : TotalOrder price_id_order.
Proof.
  split; unfold price_id_order; intros;
    rewrite ?Is_true_true, ?orb_true_iff, ?andb_true_iff, ?Z.ltb_lt, ?Z.eqb_eq, ?Z.leb_le in *;
    lia.
Qed.

Lemma snap_Some want cat tol :
  0 < want → 0 ≤ tol →
  ∃ r, snap_duration_to_catalog (Some want) cat tol = Some r ∧ 0 < r ∧
    Z.abs (r - want) ≤ tol ∧ (r ≠ want → r ∈ cat) ∧
    (∀ c, c ∈ cat → 0 < c → Z.abs (c - want) ≤ tol →
       r ∈ cat ∧ Z.abs (r - want) ≤ Z.abs (c - want)).
Proof.
  intros Hw Ht. unfold snap_duration_to_catalog.
  destruct (Z.leb_spec want 0); [lia|]. cbv zeta.
  set (k := sort_by Z.leb _).
  assert (Hk : ∀ x, x ∈ k ↔ x ∈ cat ∧ 0 < x).
  { intros x. subst k. rewrite elem_of_sort_by, elem_of_remove_dups, list_elem_of_filter. naive_solver. }
  assert (Hnone : (∀ c, c ∈ cat → 0 < c → ¬ Z.abs (c - want) ≤ tol) → ∃ r, Some want = Some r ∧
    0 < r ∧ Z.abs (r - want) ≤ tol ∧ (r ≠ want → r ∈ cat) ∧
    (∀ c, c ∈ cat → 0 < c → Z.abs (c - want) ≤ tol →
       r ∈ cat ∧ Z.abs (r - want) ≤ Z.abs (c - want))).
  { intros Hno. exists want. rewrite Z.sub_diag. cbn. split_and!; try done.
    intros c Hc H0 Hcl. by destruct (Hno c Hc H0). }
  destruct k as [|k0 k'] eqn:Ek.
  { apply Hnone. intros c Hc H0. specialize (proj2 (Hk c) (conj Hc H0)). by intros ?%elem_of_nil. }
  rewrite <-Ek in *. clear Ek k0 k'. case_bool_decide as Hin.
  { exists want. rewrite Z.sub_diag. cbn. apply Hk in Hin as [? ?].
    split_and!; try done. intros. split; [done|lia]. }
  assert (Hf : ∀ c, c ∈ cat → 0 < c → Z.abs (c - want) ≤ tol →
    c ∈ filter (λ x, Z.abs (x - want) ≤ tol) k).
  { intros c Hc H0 Hcl. apply list_elem_of_filter. split; [done|]. by apply Hk. }
  pose proof (sort_by_head (snap_order want) (filter (λ x, Z.abs (x - want) ≤ tol) k)) as Hh.
  destruct (head _) as [r|].
  - destruct Hh as [Hr Hmin]. apply list_elem_of_filter in Hr as [Htol Hr].
    apply Hk in Hr as [Hrc Hr0]. exists r. split_and!; try done.
    intros c Hc H0 Hcl. split; [done|].
    specialize (Hmin c (Hf c Hc H0 Hcl)). unfold snap_order in Hmin.
    rewrite Is_true_true, orb_true_iff, andb_true_iff, Z.ltb_lt, Z.eqb_eq in Hmin. lia.
  - apply Hnone. intros c Hc H0 Hcl. specialize (Hf c Hc H0 Hcl).
    rewrite Hh in Hf. by apply elem_of_nil in Hf.
Qed.

(** A tariff that sells the requested volume. *)
Definition sells (d : DB) (dl : option Z) (t : ResellerPlanTariff) : Prop :=
  t ∈ tariffs d ∧ t_enabled t = true ∧
  normalize_data_limit (t_data_limit t) = normalize_data_limit dl.

Definition same_volume (d : DB) (dl : option Z) : list ResellerPlanTariff :=
  filter (λ t, normalize_data_limit (t_data_limit t) = normalize_data_limit dl)
    (list_tariffs d true).

Lemma elem_of_same_volume d dl t : t ∈ same_volume d dl ↔ sells d dl t.
Proof.
  unfold same_volume, sells, list_tariffs.
  rewrite list_elem_of_filter, elem_of_sort_by, list_elem_of_filter. naive_solver.
Qed.

Lemma cheapest_spec (P : ResellerPlanTariff → Prop) `{∀ t, Decision (P t)} l :
  match cheapest (filter P l) with
  | Some t => t ∈ l ∧ P t ∧ ∀ t', t' ∈ l → P t' →
      t_price t < t_price t' ∨ (t_price t = t_price t' ∧ t_id t ≤ t_id t')
  | None => ∀ t, t ∈ l → ¬ P t
  end.
Proof.
  unfold cheapest. pose proof (sort_by_head price_id_order (filter P l)) as Hh.
  destruct (head _) as [t|].
  - destruct Hh as [Hin Hmin]. apply list_elem_of_filter in Hin as [HP Hin].
    repeat split; try done. intros t' Hl HP'.
    specialize (Hmin t' ltac:(by apply list_elem_of_filter)). unfold price_id_order in Hmin.
    rewrite Is_true_true, orb_true_iff, andb_true_iff, Z.ltb_lt, Z.eqb_eq, Z.leb_le in Hmin. lia.
  - intros t Hl HP. assert (Ht : t ∈ filter P l) by (by apply list_elem_of_filter).
    rewrite Hh in Ht. by apply elem_of_nil in Ht.
Qed.

Lemma match_tariff_unfold d dl dur :
  match_tariff d dl dur =
  match _normalize_duration_days dur with
  | Some w =>
      cheapest (filter (λ t, is_Some (t_duration_days t) ∧ t_duration_days t =
        snap_duration_to_catalog (Some w)
          (omap (λ t, _normalize_duration_days (t_duration_days t)) (same_volume d dl))
          _DURATION_SNAP_TOLERANCE_DAYS) (same_volume d dl))
  | None => cheapest (filter (λ t, t_duration_days t = None) (same_volume d dl))
  end.
Proof.
  unfold match_tariff. fold (same_volume d dl).
  assert (match dur with Some x => if x <=? 0 then None else Some x | None => None end
          = _normalize_duration_days dur) as ->.
  { unfold _normalize_duration_days. destruct dur as [x|]; [|done].
    destruct (Z.leb_spec x 0), (Z.ltb_spec 0 x); done || lia. }
  destruct (same_volume d dl) as [|t l]; [|by destruct (_normalize_duration_days dur)].
  by destruct (_normalize_duration_days dur).
Qed.

Lemma elem_of_catalog (x : Z) (l : list ResellerPlanTariff) :
  x ∈ omap (λ t, _normalize_duration_days (t_duration_days t)) l ↔
  0 < x ∧ ∃ t, t ∈ l ∧ t_duration_days t = Some x.
Proof.
  rewrite list_elem_of_omap. unfold _normalize_duration_days. split.
  - intros (t & Hl & Hx). destruct (t_duration_days t) as [y|] eqn:E; [|done].
    destruct (Z.ltb_spec 0 y); [|done]. simplify_eq. eauto.
  - intros (Hp & t & Hl & Hx). exists t. rewrite Hx.
    destruct (Z.ltb_spec 0 x); [done|lia].
Qed.

(** Tariff matching never crosses packages and never overlooks one.  A
    timed request gets a tariff of the same volume at most one day away, no
    farther than any other tariff of that volume, and the cheapest (then
    oldest) at that duration; an open-ended request only gets an open-ended
    tariff; no match means no such tariff is on sale. *)
Theorem match_tariff_spec d dl w :
  (0 < w →
   match match_tariff d dl (Some w) with
   | Some t => sells d dl t ∧ ∃ x, t_duration_days t = Some x ∧ Z.abs (x - w) ≤ 1 ∧
       ∀ t' x', sells d dl t' → t_duration_days t' = Some x' → 0 < x' →
         (Z.abs (x - w) ≤ Z.abs (x' - w)) ∧
         (x' = x → t_price t < t_price t' ∨ (t_price t = t_price t' ∧ t_id t ≤ t_id t'))
   | None => ∀ t' x', sells d dl t' → t_duration_days t' = Some x' → 0 < x' →
       1 < Z.abs (x' - w)
   end) ∧
  match match_tariff d dl None with
  | Some t => sells d dl t ∧ t_duration_days t = None
  | None => ∀ t', sells d dl t' → t_duration_days t' ≠ None
  end.
Proof.
  split.
  2: { rewrite match_tariff_unfold. cbn.
       pose proof (cheapest_spec (λ t, t_duration_days t = None) (same_volume d dl)) as H.
       destruct (cheapest _) as [t|]; setoid_rewrite elem_of_same_volume in H; naive_solver. }
  intros Hw. rewrite match_tariff_unfold. unfold _normalize_duration_days at 1.
  destruct (Z.ltb_spec 0 w); [|lia].
  set (cat := omap _ _).
  destruct (snap_Some w cat _DURATION_SNAP_TOLERANCE_DAYS) as (r & -> & Hr0 & Htol & Hne & Hnear);
    [done | by vm_compute |].
  unfold _DURATION_SNAP_TOLERANCE_DAYS in *.
  pose proof (cheapest_spec (λ t, is_Some (t_duration_days t) ∧ t_duration_days t = Some r)
    (same_volume d dl)) as Hc.
  assert (Hcat : ∀ t x, sells d dl t → t_duration_days t = Some x → 0 < x → x ∈ cat).
  { intros t x Ht Hx Hp. apply elem_of_catalog. split; [done|]. exists t.
    by rewrite elem_of_same_volume. }
  destruct (cheapest _) as [t|]; setoid_rewrite elem_of_same_volume in Hc.
  - destruct Hc as (Hs & [_ Hd] & Hmin). split; [done|]. exists r. repeat split; try done.
    + destruct (Z.le_gt_cases (Z.abs (x' - w)) 1); [|lia].
      by apply (Hnear x'); [eapply Hcat| |].
    + intros ->. apply Hmin; [done|]. split; [by eexists|done].
  - intros t' x' Hs' Hx' Hp'. destruct (Z.le_gt_cases (Z.abs (x' - w)) 1); [exfalso|lia].
    destruct (Hnear x') as [Hrc _]; [by eapply Hcat|done|done|].
    apply elem_of_catalog in Hrc as (_ & t & Ht & Htr). rewrite elem_of_same_volume in Ht.
    apply (Hc t Ht). split; [by eexists|done].
Qed.

Definition sample_tariffs : DB :=
  empty_db <| tariffs := [mkTariff 1 "30d" 500 None (Some 30) (Some 2) None None true;
                          mkTariff 2 "60d" 900 None (Some 60) None None None true;
                          mkTariff 3 "30d cheap" 400 None (Some 30) None None None true] |>
           <| flags := {[ "billing" := true ]} |>.

Lemma match_tariff_spec_witness :
  (t_id <$> match_tariff sample_tariffs None (Some 31)) = Some 3 ∧
  match_tariff sample_tariffs None (Some 40) = None ∧
  (∀ x', sells sample_tariffs None (mkTariff 2 "60d" 900 None (Some 60) None None None true) →
     x' = 60 → 1 < Z.abs (x' - 40)).
Proof.
  split; [vm_compute; reflexivity|]. split; [vm_compute; reflexivity|].
  intros x' Hs ->.
  pose proof (proj1 (match_tariff_spec sample_tariffs None 40) ltac:(lia)) as H.
  assert (E : match_tariff sample_tariffs None (Some 40) = None) by (vm_compute; reflexivity).
  rewrite E in H. by apply (H _ _ Hs eq_refl).
Defined.

(** *** Limits a tariff locks *)
Lemma lookup_merge_part k (part out : Locks) :
  map_fold merge_lock out part !! k =
  match part !! k with
  | Some n => if n <=? 0 then out !! k
              else Some (match out !! k with Some m => Z.min n m | None => n end)
  | None => out !! k
  end.
Proof.
  revert part. apply (map_fold_weak_ind (λ r m, r !! k = match m !! k with
    | Some n => if n <=? 0 then out !! k
                else Some (match out !! k with Some m => Z.min n m | None => n end)
    | None => out !! k end)); [done|].
  intros i x m r Hi IH. unfold merge_lock. rewrite lookup_insert. case_decide; subst.
  - rewrite Hi in IH. destruct (x <=? 0); [done|]. rewrite IH.
    destruct (out !! k) as [v|]; rewrite ?lookup_insert_eq; [|done].
    destruct (Z.ltb_spec x v); rewrite ?lookup_insert_eq, ?IH; f_equal; lia.
  - rewrite <-IH. destruct (x <=? 0); [done|].
    destruct (r !! i) as [v|]; [destruct (x <? v)|]; by rewrite ?lookup_insert_ne.
Qed.

Lemma merge_strictest parts k :
  match _merge_limit_locks parts !! k with
  | Some n => 0 < n ∧ (∃ p, p ∈ parts ∧ p !! k = Some n) ∧
      ∀ p v, p ∈ parts → p !! k = Some v → 0 < v → n ≤ v
  | None => ∀ p v, p ∈ parts → p !! k = Some v → v ≤ 0
  end.
Proof.
  induction parts as [|part parts IH] using rev_ind.
  { unfold _merge_limit_locks. cbn [foldl]. rewrite lookup_empty.
    intros p v Hp. by apply elem_of_nil in Hp. }
  unfold _merge_limit_locks in *. rewrite foldl_snoc, lookup_merge_part.
  set (out := foldl _ _ _) in *. destruct (part !! k) as [n|] eqn:E.
  - destruct (Z.leb_spec n 0).
    + destruct (out !! k) as [m|]; setoid_rewrite elem_of_app; setoid_rewrite list_elem_of_singleton;
        naive_solver lia.
    + destruct (out !! k) as [m|]; setoid_rewrite elem_of_app; setoid_rewrite list_elem_of_singleton.
      * destruct IH as (Hm & (p & Hp & Hpm) & Hle). split; [lia|]. split.
        -- destruct (Z.min_spec n m) as [[? ->]|[? ->]]; eauto 10.
        -- intros q v [Hq| ->] Hv H0; [specialize (Hle q v Hq Hv H0); lia|].
           simplify_eq. lia.
      * split; [lia|]. split; [by eauto|]. intros q v [Hq| ->] Hv H0; [|simplify_eq; lia].
        specialize (IH q v Hq Hv). lia.
  - destruct (out !! k) as [m|]; setoid_rewrite elem_of_app; setoid_rewrite list_elem_of_singleton;
      naive_solver.
Qed.

(** [L] caps field [k] at [v] or below. *)
Definition caps (L : Locks) (k : string) (v : Z) : Prop :=
  ∃ n, L !! k = Some n ∧ 0 < n ≤ v.

Lemma merge_caps parts k v p : p ∈ parts → caps p k v → caps (_merge_limit_locks parts) k v.
Proof.
  intros Hp (n & Hn & Hb). pose proof (merge_strictest parts k) as H. unfold caps.
  destruct (_merge_limit_locks parts !! k) as [m|].
  - destruct H as (Hm & _ & Hle). specialize (Hle p n Hp Hn). exists m. split; [done|lia].
  - specialize (H p n Hp Hn). lia.
Qed.

(** A fold that only merges keeps every cap it has seen. *)
Lemma fold_caps {A} (step : Locks → A → Locks) (l : list A) L k v :
  (∀ L x, caps L k v → caps (step L x) k v) →
  caps L k v ∨ (∃ x, x ∈ l ∧ ∀ L, caps (step L x) k v) → caps (foldl step L l) k v.
Proof.
  intros Hmono. revert L. induction l as [|y l IH]; intros L [H|(x & Hx & Hs)]; cbn.
  - done.
  - by apply elem_of_nil in Hx.
  - apply IH. left. by apply Hmono.
  - apply elem_of_cons in Hx as [->|Hx]; apply IH; [left; apply Hs|right; eauto].
Qed.

Lemma plan_locks_cap d dl dur p v :
  p ∈ match_plans_for_limits d dl dur → p_device_limit p = Some v → 0 < v →
  caps (resolve_plan_limit_locks d dl dur) "device_limit" v.
Proof.
  intros Hp Hv H0. unfold resolve_plan_limit_locks. apply fold_caps.
  - intros L x HL. apply (merge_caps _ _ _ L); [set_solver|done].
  - right. exists p. split; [done|]. intros L.
    apply (merge_caps _ _ _ (locked_limit_overrides_from_plan (Some p))); [set_solver|].
    unfold caps. cbn. rewrite Hv. cbn. destruct (Z.ltb_spec 0 v); [|lia].
    rewrite lookup_insert_eq. eauto with lia.
Qed.

Lemma tariff_locks_cap t v :
  t_device_limit t = Some v → 0 < v → caps (locked_limit_overrides (Some t)) "device_limit" v.
Proof.
  intros Hv H0. unfold caps, locked_limit_overrides, set_if_positive. rewrite Hv.
  destruct (Z.ltb_spec 0 v); [|lia]. exists v. split; [|lia].
  destruct (t_speed_limit_down t) as [y|]; [destruct (0 <? y)|];
    rewrite ?lookup_insert_ne by done;
    (destruct (t_speed_limit_up t) as [x|]; [destruct (0 <? x)|]);
    rewrite ?lookup_insert_ne by done; by rewrite lookup_insert_eq.
Qed.

Lemma unlimited_floor_cap d t v :
  t ∈ tariffs d → t_enabled t = true → is_unlimited_data_limit (t_data_limit t) = true →
  t_device_limit t = Some v → 0 < v → caps (default_unlimited_tariff_locks d) "device_limit" v.
Proof.
  intros Ht He Hu Hv H0. unfold default_unlimited_tariff_locks. apply fold_caps.
  - intros L x HL. destruct (is_unlimited_data_limit (t_data_limit x)); [|done].
    apply (merge_caps _ _ _ L); [set_solver|done].
  - right. exists t. split.
    { unfold list_tariffs. by rewrite elem_of_sort_by, list_elem_of_filter. }
    intros L. rewrite Hu. apply (merge_caps _ _ _ (locked_limit_overrides (Some t)));
      [set_solver|]. by apply tariff_locks_cap.
Qed.

(** A reseller cannot create an account above the master's device cap: the
    payload's device limit is forced to at most the limit of the matching
    wholesale tariff and of every enabled retail plan of the same shape, and an
    unlimited account is never left without a cap while any unlimited tariff on
    sale has one. *)
Theorem create_device_limit_capped d now aid a u dur :
  a_is_sudo a = false →
  dur = duration_days_for_create_payload now (uc_on_hold_expire_duration u) (uc_expire u) →
  let u' := (enforce_reseller_create_locks d now (Some (aid, a)) u).1 in
  (∀ p v, p ∈ match_plans_for_limits d (uc_data_limit u) dur → p_device_limit p = Some v → 0 < v →
     ∃ n, uc_device_limit u' = Some n ∧ 0 < n ≤ v) ∧
  (∀ t v, match_tariff d (uc_data_limit u) dur = Some t → t_device_limit t = Some v → 0 < v →
     ∃ n, uc_device_limit u' = Some n ∧ 0 < n ≤ v) ∧
  (∀ t v, is_unlimited_data_limit (uc_data_limit u) = true → t ∈ tariffs d → t_enabled t = true →
     is_unlimited_data_limit (t_data_limit t) = true → t_device_limit t = Some v → 0 < v →
     ∃ n, uc_device_limit u' = Some n ∧ 0 < n).
Proof.
  intros Hs ->. unfold enforce_reseller_create_locks. cbn [fst].
  set (dur := duration_days_for_create_payload _ _ _).
  set (L := resolve_locked_limits_for_admin _ _ _ _ _ _ _).
  assert (Hcap : ∀ v, caps L "device_limit" v → ∃ n,
    uc_device_limit (apply_locked_limits_to_user_payload u L) = Some n ∧ 0 < n ≤ v).
  { intros v (n & Hn & Hb). exists n. cbn. by rewrite Hn. }
  assert (HL : L = let l0 := _merge_limit_locks [resolve_plan_limit_locks d (uc_data_limit u) dur;
      ∅; locked_limit_overrides (match_tariff d (uc_data_limit u) dur)] in
    if is_none (l0 !! "device_limit") && is_unlimited_data_limit (uc_data_limit u)
    then _merge_limit_locks [l0; default_unlimited_tariff_locks d] else l0).
  { subst L. unfold resolve_locked_limits_for_admin. cbn [is_reseller]. rewrite Hs. cbn [negb].
    assert (match _normalize_duration_days dur with Some x => Some x
            | None => duration_days_from_expire now (uc_expire u) end = dur) as ->; [|done].
    subst dur. unfold duration_days_for_create_payload, duration_days_from_on_hold,
      duration_days_from_expire, days_of_seconds, _normalize_duration_days.
    repeat (split_match; simplify_eq; try done). }
  clearbody L. cbv zeta in HL. set (l0 := _merge_limit_locks _) in HL.
  assert (Hl0 : ∀ v, caps l0 "device_limit" v → caps L "device_limit" v).
  { intros v Hv. rewrite HL. destruct (_ && _); [|done].
    apply (merge_caps _ _ _ l0); [set_solver|done]. }
  split_and!.
  - intros p v Hp Hv H0. apply Hcap, Hl0. apply (merge_caps _ _ _ (resolve_plan_limit_locks d (uc_data_limit u) dur));
      [set_solver|]. by eapply plan_locks_cap.
  - intros t v Ht Hv H0. apply Hcap, Hl0. apply (merge_caps _ _ _ (locked_limit_overrides (match_tariff d (uc_data_limit u) dur)));
      [set_solver|]. rewrite Ht. by apply tariff_locks_cap.
  - intros t v Hu Ht He Htu Hv H0. destruct (l0 !! "device_limit") as [n|] eqn:E.
    + pose proof (merge_strictest [resolve_plan_limit_locks d (uc_data_limit u) dur;
        ∅; locked_limit_overrides (match_tariff d (uc_data_limit u) dur)] "device_limit") as H.
      fold l0 in H. rewrite E in H. destruct (Hcap n) as (m & Hm & ?); [|eauto with lia].
      apply Hl0. exists n. split; [done|]. lia.
    + destruct (Hcap v) as (m & Hm & ?); [|eauto with lia].
      rewrite HL, Hu. cbn [is_none andb]. eapply (merge_caps _ _ _ (default_unlimited_tariff_locks d)); [set_solver|].
      by eapply unlimited_floor_cap.
Qed.

Lemma create_device_limit_capped_witness :
  let a := mkAdmin "r" false 0 None None 0 None None None 0 in
  ∃ n, uc_device_limit (enforce_reseller_create_locks sample_tariffs 0 (Some (7, a))
         (mkUserCreate None None None (Some 50) None None)).1 = Some n ∧ 0 < n.
Proof.
  refine (proj2 (proj2 (create_device_limit_capped sample_tariffs 0 7
    (mkAdmin "r" false 0 None None 0 None None None 0)
    (mkUserCreate None None None (Some 50) None None) None eq_refl eq_refl))
    (mkTariff 1 "30d" 500 None (Some 30) (Some 2) None None true) 2 eq_refl _ eq_refl eq_refl
    eq_refl _); [left | lia].
Defined.

(** *** Charging *)
Lemma same_wallets (d : DB) : d <| wallets := wallets d |> = d.
Proof. by destruct d. Qed.

Lemma shape_run admin dl dur s :
  ∃ r, assert_reseller_shape_allowed admin dl dur s = (r, s) ∧
    match r with Ok _ => True | Raise e => ∃ m, e = ResellerTariffError 400 m end.
Proof.
  unfold assert_reseller_shape_allowed, bind, gets, ret, raise.
  repeat (split_match; simplify_eq; try (eexists; split; [reflexivity|]; cbn; by eauto)).
Qed.

(** What a price check establishes before anything is created. *)
Lemma prepare_run d aid a dl dur plan count req :
  a_is_sudo a = false →
  let dl' := match plan with Some p => p_data_limit p | None => dl end in
  let dur' := match plan with Some p => p_duration_days p | None => dur end in
  ∃ r d', prepare_reseller_tariff_charge (Some (aid, a)) dl dur plan count req (mkSession d d)
            = (r, mkSession d' d') ∧ (d' = d ∨ d' = open_wallet aid d) ∧
    match r with
    | Ok (Some t, price) =>
        match_tariff d dl' dur' = Some t ∧
        price = Z.max 0 (effective_tariff_price d (Some (aid, a)) t) ∧
        (0 < price → price * count ≤ balance d aid)
    | Ok (None, price) => price = 0
    | Raise e => ∃ st m, e = ResellerTariffError st m ∧ (st = 400 ∨ st = 402)
    end.
Proof.
  intros Hs dl' dur'. unfold prepare_reseller_tariff_charge. rewrite Hs.
  destruct (count <? 1); [by eauto 10|]. rewrite bind_gets. cbn [work].
  destruct (negb _); [by eauto 10|]. rewrite bind_gets. cbn [work].
  fold dl' dur'.
  assert ((match plan with Some p => match_tariff_for_plan d p | None => match_tariff d dl' dur' end)
          = match_tariff d dl' dur') as -> by (by destruct plan).
  destruct (match_tariff d dl' dur') as [t|].
  - rewrite bind_gets. cbn [work]. set (pr := effective_tariff_price _ _ _).
    destruct (Z.leb_spec pr 0).
    { eexists _, d. split; [done|]. split; [auto|]. split_and!; done || lia. }
    rewrite (bind_ok _ _ _ _ _ (get_or_create_wallet_opens d aid)).
    destruct (Z.ltb_spec (balance d aid) (pr * count)).
    + eexists _, _. split; [done|]. split; [auto|]. eauto.
    + eexists _, _. split; [done|]. split; [auto|]. split_and!; done || lia.
  - destruct req; cbn [when].
    + destruct (shape_run (Some (aid, a)) dl' dur' (mkSession d d)) as (r & Hr & He).
      unfold bind. rewrite Hr. destruct r as [x|e].
      * eexists _, d. split; [done|]. auto.
      * destruct He as [m ->]. eexists _, d. split; [done|]. eauto 10.
    + eexists _, d. split; [done|]. auto.
Qed.

Lemma charge_run d aid a t price names ev :
  a_is_sudo a = false → 0 < price → names ≠ [] →
  let total := price * Z.of_nat (length names) in
  ∃ tx, charge_reseller_tariff (Some (aid, a)) t price names ev (mkSession d d)
    = (Ok (Some tx), mkSession (add_tx_state aid (- total) "plan_sale" (tx_reference tx) false d)
                       (add_tx_state aid (- total) "plan_sale" (tx_reference tx) false d)) ∧
    tx_amount tx = - total ∧ tx_admin_id tx = aid.
Proof.
  intros Hs Hu Hn total. unfold charge_reseller_tariff. destruct names as [|x names]; [done|].
  destruct (Z.leb_spec price 0); [lia|]. rewrite Hs. fold total.
  rewrite (bind_ok _ _ _ _ _ (add_transaction_commits (mkSession d d) aid (- total) "plan_sale" _ false)).
  exists (mkTransaction aid (- total) "plan_sale" (RefTariff ev (t_id t) (length (x :: names)) x)).
  done.
Qed.

(** A create that passed the price check never overdraws the wallet: with
    the quoted tariff and price price, charging the created accounts debits
    exactly price times accounts (nothing for a free tariff) and leaves a
    non-negative balance, and every created account is marked as paid up to its
    own expiry. *)
Theorem create_charge_covered d d1 d2 aid a dl dur plan names t price tx ev :
  admins d !! aid = Some a → a_is_sudo a = false → a_parent_admin_id a ≠ Some aid →
  names ≠ [] →
  run_session (prepare_reseller_tariff_charge (Some (aid, a)) dl dur plan
    (Z.of_nat (length names)) true) d = (Ok (Some t, price), d1) →
  run_session (charge_unlimited_creates (Some (aid, a)) t price names ev) d1 = (Ok tx, d2) →
  balance d2 aid = balance d aid - price * Z.of_nat (length names) ∧
  (0 < price → 0 ≤ balance d2 aid ∧ (tx_amount <$> tx) = Some (- (price * Z.of_nat (length names)))) ∧
  (price = 0 → tx = None) ∧
  (∀ uid u, users d !! uid = Some u → existsb (same_username (u_username u)) names = true →
     ∃ u', users d2 !! uid = Some u' ∧ u_reseller_tariff_charged_id u' = Some (t_id t) ∧
       u_reseller_tariff_charged_expire u' = _norm_expire (u_expire u)).
Proof.
  intros Ha Hs Hp Hn H1 H2. set (n := Z.of_nat (length names)) in *.
  destruct (prepare_run d aid a dl dur plan n true Hs) as (r & d' & E & Hd' & Hr).
  unfold run_session in H1. rewrite E in H1. cbn in H1. simplify_eq.
  destruct Hr as (_ & Hpr & Hcov). assert (Hp0 : 0 ≤ price) by lia. clear Hpr.
  assert (Hb : ∀ x, balance d1 x = balance d x).
  { intros x. destruct Hd' as [->| ->]; [done|apply balance_open_wallet]. }
  assert (Had : admins d1 = admins d ∧ users d1 = users d).
  { destruct Hd' as [->| ->]; [done|]. by rewrite !open_wallet_frame. }
  destruct Had as [Had Hus].
  assert (Hmark : ∀ d0, mark_users_tariff_charged names t (mkSession d0 d0) =
    (Ok tt, let d3 := d0 <| users := (λ u, if existsb (same_username (u_username u)) names
        then mark_user_tariff_charged t u else u) <$> users d0 |> in mkSession d3 d3)).
  { intros d0. unfold mark_users_tariff_charged. by destruct names. }
  assert (Husers : ∀ d3, users d3 = users d → ∀ uid u, users d !! uid = Some u →
    existsb (same_username (u_username u)) names = true →
    ∃ u', ((λ u, if existsb (same_username (u_username u)) names
        then mark_user_tariff_charged t u else u) <$> users d3) !! uid = Some u' ∧
      u_reseller_tariff_charged_id u' = Some (t_id t) ∧
      u_reseller_tariff_charged_expire u' = _norm_expire (u_expire u)).
  { intros d3 -> uid u Hu' He. rewrite lookup_fmap, Hu'. cbn. rewrite He. by eexists. }
  unfold run_session, charge_unlimited_creates in H2. revert H2.
  destruct (Z.ltb_spec 0 price) as [Hpos|Hz]; intros H2.
  - destruct (charge_run d1 aid a t price names ev Hs Hpos Hn) as (tx' & Hc & Hamt & _).
    rewrite (bind_ok _ _ _ _ _ Hc) in H2. rewrite (bind_ok _ _ _ _ _ (Hmark _)) in H2.
    cbn in H2. simplify_eq. fold n.
    set (d3 := add_tx_state _ _ _ _ _ d1).
    assert (Hbal : balance d3 aid = balance d aid - price * n).
    { subst d3. rewrite add_tx_state_balance_self; [fold n; rewrite Hb; lia|].
      intros child. rewrite Had, Ha. congruence. }
    change (balance (over users _ d3) aid) with (balance d3 aid).
    specialize (Hcov Hpos). split_and!; [exact Hbal | | lia |].
    + intros _. split; [change (0 ≤ balance d3 aid); lia|]. cbn. by rewrite Hamt.
    + apply Husers. subst d3. by rewrite add_tx_state_frame.
  - rewrite (bind_ok (ret None) _ _ _ _ eq_refl), (bind_ok _ _ _ _ _ (Hmark _)) in H2.
    cbn in H2. simplify_eq. pose proof (Hb aid).
    assert (price = 0) by lia.
    split_and!; [change (balance d1 aid = balance d aid - price * n); nia | lia | done |].
    by apply Husers.
Qed.

Definition sample_reseller : Admin := mkAdmin "r" false 0 None None 0 None None None 0.

Lemma create_charge_covered_witness :
  let d := sample_tariffs <| admins := {[ 7 := sample_reseller ]} |>
             <| wallets := {[ 7 := 1000 ]} |> in
  let t := mkTariff 3 "30d cheap" 400 None (Some 30) None None None true in
  balance (run_session (charge_unlimited_creates (Some (7, sample_reseller)) t 400
    ["a"%string; "b"%string] "create") d).2 7 = 200.
Proof.
  refine (proj1 (create_charge_covered
    (sample_tariffs <| admins := {[ 7 := sample_reseller ]} |> <| wallets := {[ 7 := 1000 ]} |>)
    _ _ 7 sample_reseller None (Some 30) None ["a"%string; "b"%string]
    (mkTariff 3 "30d cheap" 400 None (Some 30) None None None true) 400 _ "create"
    _ _ _ _ _ _)); try (vm_compute; (reflexivity || discriminate)).
Defined.

(** *** Portal sales *)
Lemma find_user_ext d d' name : users d = users d' → find_user d name = find_user d' name.
Proof. unfold find_user. by intros ->. Qed.

Lemma find_user_lookup d name uid u : find_user d name = Some (uid, u) → users d !! uid = Some u.
Proof.
  unfold find_user. intros H. apply elem_of_map_to_list.
  destruct (filter _ _) as [|p l] eqn:E; [done|]. cbn in H. simplify_eq.
  assert (Hin : (uid, u) ∈ (uid, u) :: l) by constructor.
  rewrite <-E in Hin. by apply list_elem_of_filter in Hin as [_ ?].
Qed.

(** The row the sale marks. *)
Definition mark_by_name (t : ResellerPlanTariff) (name : string) (d : DB) : DB :=
  match find_user d name with
  | Some (uid, _) => update_user_row uid (mark_user_tariff_charged t) d
  | None => d
  end.

Lemma mark_by_name_run t name tx d :
  (let* dbuser := gets (λ d, find_user d name) in
   match dbuser with
   | None => ret tx
   | Some (uid, _) =>
       modify (update_user_row uid (mark_user_tariff_charged t)) ;;; commit ;;; ret tx
   end) (mkSession d d) =
  (Ok (A:=option Transaction) tx, mkSession (mark_by_name t name d) (mark_by_name t name d)).
Proof.
  rewrite bind_gets. unfold mark_by_name. cbn [work]. by destruct (find_user d name) as [[uid u]|].
Qed.

Lemma mark_by_name_balance t name d x : balance (mark_by_name t name d) x = balance d x.
Proof. unfold mark_by_name. by destruct (find_user d name) as [[uid u]|]. Qed.

Lemma mark_by_name_marks t name d uid u :
  find_user d name = Some (uid, u) →
  users (mark_by_name t name d) !! uid = Some (mark_user_tariff_charged t u).
Proof.
  intros H. unfold mark_by_name. rewrite H. cbn. rewrite lookup_alter_eq.
  by rewrite (find_user_lookup d name uid u H).
Qed.

(** A portal sale charges the reseller once, at the price of the matching
    tariff: either it is refused (400 no tariff, 402 wallet too low) and no
    balance or user changes, or the wallet loses exactly the tariff price and
    stays non-negative, or the sale is free; in both latter cases the customer
    is marked as paid for that tariff. *)
Theorem charge_portal_plan_tariff_spec d aid a plan name ev :
  admins d !! aid = Some a → a_is_sudo a = false → aid ≠ 0 → a_parent_admin_id a ≠ Some aid →
  let '(r, d') := run_session (charge_portal_plan_tariff (Some aid) plan name ev) d in
  match r with
  | Raise e => (∃ st m, e = ResellerTariffError st m ∧ (st = 400 ∨ st = 402)) ∧
      (∀ x, balance d' x = balance d x) ∧ users d' = users d
  | Ok tx =>
      (tx = None ∧ users d' = users d ∧ ∀ x, balance d' x = balance d x) ∨
      ∃ t, match_tariff_for_plan d plan = Some t ∧
        let price := Z.max 0 (effective_tariff_price d (Some (aid, a)) t) in
        balance d' aid = balance d aid - price ∧ (0 < price → 0 ≤ balance d' aid) ∧
        (tx_amount <$> tx) = (if 0 <? price then Some (- price) else None) ∧
        (∀ uid u, find_user d name = Some (uid, u) →
           users d' !! uid = Some (mark_user_tariff_charged t u))
  end.
Proof.
  intros Ha Hs H0 Hp. unfold run_session, charge_portal_plan_tariff. cbn [truthy or0].
  destruct (Z.eqb_spec aid 0); [done|]. cbn [negb]. rewrite bind_gets. cbn [work].
  rewrite Ha, Hs.
  destruct (prepare_run d aid a None None (Some plan) 1 true Hs) as (r & d1 & E & Hd1 & Hr).
  assert (Hb : ∀ x, balance d1 x = balance d x).
  { intros x. destruct Hd1 as [->| ->]; [done|apply balance_open_wallet]. }
  assert (Hus : users d1 = users d ∧ admins d1 = admins d).
  { destruct Hd1 as [->| ->]; [done|]. by rewrite !open_wallet_frame. }
  destruct Hus as [Hus Had]. clear Hd1.
  destruct r as [[[t|] price]|e]; [|rewrite (bind_ok _ _ _ _ _ E); cbn; subst; by auto|
    rewrite (bind_raise _ _ _ _ _ E); cbn; by auto].
  rewrite (bind_ok _ _ _ _ _ E). cbn [fst snd]. clear E. destruct Hr as (Hm & Hpr & Hcov).
  destruct (Z.ltb_spec 0 price) as [Hpos|Hz].
  - destruct (charge_run d1 aid a t price [name] ev Hs Hpos ltac:(done)) as (tx & Hc & Hamt & _).
    rewrite (bind_ok _ _ _ _ _ Hc), mark_by_name_run. specialize (Hcov Hpos).
    set (d3 := add_tx_state _ _ _ _ _ d1) in *. cbn [saved].
    assert (Hb3 : balance d3 aid = balance d aid - price).
    { subst d3. rewrite add_tx_state_balance_self; [rewrite Hb; cbn; lia|].
      intros child. rewrite Had, Ha. congruence. }
    assert (Hu3 : users d3 = users d) by (subst d3; by rewrite add_tx_state_frame).
    right. exists t. rewrite <-Hpr, mark_by_name_balance. split_and!; [done|lia|lia| |].
    + cbn. rewrite Hamt. destruct (Z.ltb_spec 0 price); [cbn; f_equal; lia|lia].
    + intros uid u Hf. apply mark_by_name_marks. by rewrite (find_user_ext d3 d).
  - rewrite (bind_ok (ret None) _ _ _ _ eq_refl), mark_by_name_run. cbn [saved].
    right. exists t. rewrite <-Hpr, mark_by_name_balance, Hb.
    split_and!; [done|lia|lia| |].
    + by destruct (Z.ltb_spec 0 price); [lia|].
    + intros uid u Hf. apply mark_by_name_marks. by rewrite (find_user_ext d1 d).
Qed.

Lemma charge_portal_plan_tariff_spec_witness :
  let d := sample_tariffs <| admins := {[ 7 := sample_reseller ]} |>
             <| wallets := {[ 7 := 1000 ]} |> in
  balance (run_session (charge_portal_plan_tariff (Some 7)
    (mkPlan 1 "p" 10 None (Some 30) None true None None) "bob" "portal_renew") d).2 7 = 600.
Proof.
  pose proof (charge_portal_plan_tariff_spec
    (sample_tariffs <| admins := {[ 7 := sample_reseller ]} |> <| wallets := {[ 7 := 1000 ]} |>)
    7 sample_reseller (mkPlan 1 "p" 10 None (Some 30) None true None None) "bob" "portal_renew"
    eq_refl eq_refl ltac:(discriminate) ltac:(discriminate)) as H.
  cbv zeta. destruct (run_session _ _) as [r d'] eqn:E. vm_compute in E. injection E as <- <-.
  destruct H as [[H _]|(t & Ht & Hb & _)]; [discriminate H|].
  vm_compute in Ht. injection Ht as <-. exact Hb.
Defined.

(** *** Edits *)
Lemma norm_expire_pos n : 0 < n → _norm_expire (Some n) = Some n.
Proof. intros. cbn. destruct (Z.ltb_spec 0 n); [done|lia]. Qed.

(** No double charge: once an account is marked as paid, an edit that keeps
    its data limit is charged again exactly when it moves the expiry more than
    an hour past the paid one, whatever tariff it matches. *)
Theorem marked_account_charged_once now u t t' e n dl' :
  0 < n → 0 < now → now < e → u_expire u = Some e →
  normalize_data_limit (u_data_limit u) = normalize_data_limit dl' →
  let u' := mark_user_tariff_charged t u in
  should_charge_reseller_modify now u' t' (Some n) (u_expire u') (u_data_limit u') dl'
  = (e + 3600 <? n).
Proof.
  intros Hn Hnow He Hu Hdl. unfold should_charge_reseller_modify, mark_user_tariff_charged.
  cbn [u_expire u_data_limit over u_reseller_tariff_charged_id u_reseller_tariff_charged_expire].
  rewrite Hu, Hdl, bool_decide_true, !norm_expire_pos by (done || lia).
  cbn [negb andb]. destruct (Z.leb_spec e now); [lia|]. cbn [orb].
  by destruct (e + 3600 <? n).
Qed.

Lemma marked_account_charged_once_witness :
  let u := sample_user <| u_expire := Some 1000000 |> in
  let t := mkTariff 3 "30d" 400 None (Some 30) None None None true in
  should_charge_reseller_modify 500 (mark_user_tariff_charged t u) t
    (Some 1003600) (Some 1000000) None None = false.
Proof.
  refine (marked_account_charged_once 500 (sample_user <| u_expire := Some 1000000 |>)
    (mkTariff 3 "30d" 400 None (Some 30) None None None true)
    (mkTariff 3 "30d" 400 None (Some 30) None None None true) 1000000 1003600 None
    _ _ _ eq_refl eq_refl); lia.
Defined.

(** The tolerance is relative to the current expiry, not to the paid one:
    an account marked as paid until [e] can be moved an hour at a time, and no
    step of the sequence is ever charged, however far the expiry has travelled;
    the same move in one edit is charged. *)
Theorem hourly_extension_never_charged now u t t' e dl k :
  0 < now → now < e → u_expire u = Some e →
  let paid := mark_user_tariff_charged t u in
  let at_hour i := paid <| u_expire := Some (e + 3600 * Z.of_nat i) |> in
  should_charge_reseller_modify now (at_hour k) t' (u_expire (at_hour (S k)))
    (u_expire (at_hour k)) dl dl = false ∧
  (2 ≤ k → should_charge_reseller_modify now paid t' (u_expire (at_hour k))
             (u_expire paid) dl dl = true)%nat.
Proof.
  intros H0 Hnow Hu paid at_hour. subst at_hour paid.
  unfold should_charge_reseller_modify, mark_user_tariff_charged.
  cbn [u_expire over u_reseller_tariff_charged_id u_reseller_tariff_charged_expire].
  rewrite Hu, bool_decide_true, !norm_expire_pos by (done || lia). cbn [negb andb].
  split.
  - destruct (Z.leb_spec (e + 3600 * Z.of_nat k) now); [lia|]. cbn [orb].
    by destruct (Z.ltb_spec (e + 3600 * Z.of_nat k + 3600) (e + 3600 * Z.of_nat (S k))); [lia|].
  - intros Hk.
    destruct (Z.ltb_spec (e + 3600) (e + 3600 * Z.of_nat k)); [|lia].
    by destruct (Z.leb_spec e now).
Qed.

Lemma hourly_extension_never_charged_witness :
  let u := mark_user_tariff_charged (mkTariff 3 "30d" 400 None (Some 30) None None None true)
             (sample_user <| u_expire := Some 1000000 |>) in
  should_charge_reseller_modify 500 (u <| u_expire := Some (1000000 + 3600 * 720) |>)
    (mkTariff 3 "30d" 400 None (Some 30) None None None true)
    (Some (1000000 + 3600 * 721)) (Some (1000000 + 3600 * 720)) None None = false.
Proof.
  refine (proj1 (hourly_extension_never_charged 500 (sample_user <| u_expire := Some 1000000 |>)
    (mkTariff 3 "30d" 400 None (Some 30) None None None true)
    (mkTariff 3 "30d" 400 None (Some 30) None None None true) 1000000 None 720 _ _ eq_refl)); lia.
Defined.

(** An extension no tariff matches: on an unlimited account it is refused
    with 400 while unlimited tariffs are on sale, but on an account with a data
    limit it passes the check unpriced, whatever its length. *)
Theorem unmatched_extension d now aid a u dl' n :
  a_is_sudo a = false → is_enabled d "billing" = true → list_tariffs d true ≠ [] →
  normalize_data_limit (u_data_limit u) = normalize_data_limit dl' →
  0 < n → billable_duration_candidates now (u_expire u) (Some n) ≠ [] →
  match_tariff_for_modify d now dl' (u_expire u) (Some n) = None →
  let r := run_session (prepare_reseller_modify_charge now (Some (aid, a)) u dl' (Some n)) d in
  (is_unlimited_data_limit dl' = false → r = (Ok (None, 0), d)) ∧
  (is_unlimited_data_limit dl' = true →
   existsb (λ t, is_unlimited_data_limit (t_data_limit t)) (list_tariffs d true) = true →
   ∃ m, r = (Raise (ResellerTariffError 400 m), d)).
Proof.
  intros Hs Hon Hts Hdl Hn Hc Hm. cbv zeta.
  unfold run_session, prepare_reseller_modify_charge. rewrite Hs, bind_gets. cbn [work].
  rewrite Hon. cbn [negb].
  assert (Hshape : assert_reseller_modify_shape_allowed now (Some (aid, a)) (u_data_limit u)
      (u_expire u) dl' (Some n) (mkSession d d) =
    (if is_unlimited_data_limit dl' &&
        existsb (λ t, is_unlimited_data_limit (t_data_limit t)) (list_tariffs d true)
     then Raise (ResellerTariffError 400 "Expiry must match a wholesale tariff duration")
     else Ok tt, mkSession d d)).
  { unfold assert_reseller_modify_shape_allowed. cbn [is_reseller]. rewrite Hs.
    cbn [negb]. rewrite bind_gets. cbn [work]. rewrite Hon. cbn [negb].
    rewrite bind_gets. cbn [work]. set (ts := list_tariffs d true) in *.
    rewrite bool_decide_true, (norm_expire_pos n) by done.
    set (cands := billable_duration_candidates _ _ _) in *.
    destruct ts as [|t0 ts0] eqn:Ets; [done|]. rewrite <-Ets. clear Ets.
    cbn [is_none]. rewrite andb_false_r. cbn [andb when].
    rewrite (bind_ok (ret tt) _ _ _ _ eq_refl).
    destruct cands as [|c cs]; [done|]. rewrite bind_gets. cbn [work]. rewrite Hm.
    cbn [andb negb]. by destruct (is_unlimited_data_limit dl' && _). }
  split.
  - intros Hl. rewrite Hl in Hshape. cbn [andb] in Hshape.
    rewrite (bind_ok _ _ _ _ _ Hshape), bind_gets. cbn [work]. by rewrite Hm.
  - intros Hl He. rewrite Hl, He in Hshape. cbn [andb] in Hshape.
    rewrite (bind_raise _ _ _ _ _ Hshape). by eexists.
Qed.

Lemma unmatched_extension_witness :
  let d := empty_db <| tariffs := [mkTariff 1 "10 GB 30 days" 500 (Some 10) (Some 30) None None None true] |>
             <| flags := {[ "billing" := true ]} |> in
  run_session (prepare_reseller_modify_charge 1000 (Some (7, sample_reseller))
    (sample_user <| u_data_limit := Some 10 |> <| u_expire := Some 2000 |>)
    (Some 10) (Some (1000 + 45 * 86400))) d = (Ok (None, 0), d).
Proof.
  refine (proj1 (unmatched_extension
    (empty_db <| tariffs := [mkTariff 1 "10 GB 30 days" 500 (Some 10) (Some 30) None None None true] |>
      <| flags := {[ "billing" := true ]} |>) 1000 7 sample_reseller
    (sample_user <| u_data_limit := Some 10 |> <| u_expire := Some 2000 |>)
    (Some 10) (1000 + 45 * 86400) _ _ _ _ _ _ _) _);
    vm_compute; (reflexivity || discriminate).
Defined.

End TariffFacts.
