(* ===== verification/Packages.v ===== *)
(** * Packages: prepaid traffic packages and per-reseller pricing

    [app/billing/traffic_packages.py].  A purchase moves money from the wallet
    and bytes into [Admin.prepaid_traffic_remaining], which the usage billing
    job burns first. *)
From S2P Require Import Prelude Store Wallet UsageBilling Tariffs.

Module Packages.
Import Wallet UsageBilling Tariffs.

Definition pk_order (p1 p2 : ResellerTrafficPackage) : bool := pk_id p1 <=? pk_id p2.

Definition list_packages (d : DB) (enabled_only : bool) : list ResellerTrafficPackage :=
  sort_by pk_order
    (if enabled_only then filter (λ p, pk_enabled p = true) (packages d) else packages d).

Definition get_package (d : DB) (package_id : Z) : option ResellerTrafficPackage :=
  head (filter (λ p, pk_id p = package_id) (packages d)).

Definition get_override (d : DB) (admin_id package_id : Z) : option PackageOverride :=
  package_overrides d !! (admin_id, package_id).

Record PackageOffer := mkPackageOffer {
  pf_package : ResellerTrafficPackage;
  pf_price : Z;
  pf_bytes : Z;
  pf_price_overridden : bool;
  pf_bytes_overridden : bool }.

Definition effective_package_offer (d : DB) (admin_id : Z) (pkg : ResellerTrafficPackage)
    : PackageOffer :=
  match get_override d admin_id (pk_id pkg) with
  | None => mkPackageOffer pkg (pk_price pkg) (pk_bytes pkg) false false
  | Some ov =>
      mkPackageOffer pkg (default (pk_price pkg) (po_price ov)) (default (pk_bytes pkg) (po_bytes ov))
        (negb (is_none (po_price ov))) (negb (is_none (po_bytes ov)))
  end.

Definition list_packages_for_admin (d : DB) (admin_id : Z) (enabled_only : bool)
    : list PackageOffer :=
  map (effective_package_offer d admin_id) (list_packages d enabled_only).

Definition upsert_package_override (admin_id package_id : Z) (price bytes : option Z)
    (do_commit : bool) (min_price : option Z) : M DB unit :=
  if match price with Some p => p <? 0 | None => false end
  then raise (TrafficPackageError 400 "Override price cannot be negative")
  else if match bytes with Some b => b <=? 0 | None => false end
  then raise (TrafficPackageError 400 "Override bytes must be positive")
  else if match price, min_price with Some p, Some m => p <? m | _, _ => false end
  then raise (TrafficPackageError 400 "Price cannot be below master catalog price")
  else
    match price, bytes with
    | None, None =>
        let* ov := gets (λ d, get_override d admin_id package_id) in
        match ov with
        | None => ret tt
        | Some _ =>
            modify (λ d, d <| package_overrides :=
              delete (admin_id, package_id) (package_overrides d) |>) ;;;
            when do_commit commit
        end
    | _, _ =>
        modify (λ d, d <| package_overrides :=
          <[(admin_id, package_id) := mkPackageOverride price bytes]> (package_overrides d) |>) ;;;
        when do_commit commit
    end.

Definition next_package_id (d : DB) : Z :=
  foldr (λ p acc, Z.max (pk_id p) acc) 0 (packages d) + 1.

Definition create_package (name : string) (bytes price : option Z) (enabled : bool) : M DB Z :=
  if String.eqb (strip name) "" then raise (TrafficPackageError 400 "Package name is required")
  else
    let* resolved_bytes := gets (λ d,
      match bytes with Some b => b | None => get_int d "billing.default_package_bytes" 0 end) in
    let* resolved_price := gets (λ d,
      match price with Some p => p | None => get_int d "billing.default_package_price" 0 end) in
    if resolved_bytes <=? 0 then raise (TrafficPackageError 400 "Package bytes must be positive")
    else if resolved_price <? 0
    then raise (TrafficPackageError 400 "Package price cannot be negative")
    else
      let* pid := gets next_package_id in
      modify (λ d, d <| packages := packages d ++
        [mkPackage pid (strip name) resolved_bytes resolved_price enabled] |>) ;;;
      commit ;;;
      ret pid.

Definition on_package (package_id : Z) (f : ResellerTrafficPackage → ResellerTrafficPackage)
    : M DB unit :=
  modify (λ d, d <| packages :=
    map (λ p, if pk_id p =? package_id then f p else p) (packages d) |>).

Definition update_package (package_id : Z) (name : option string) (bytes price : option Z)
    (enabled : option bool) : M DB unit :=
  match name with
  | Some n =>
      if String.eqb (strip n) "" then raise (TrafficPackageError 400 "Package name is required")
      else on_package package_id (λ p, p <| pk_name := strip n |>)
  | None => ret tt
  end ;;;
  match bytes with
  | Some b =>
      if b <=? 0 then raise (TrafficPackageError 400 "Package bytes must be positive")
      else on_package package_id (λ p, p <| pk_bytes := b |>)
  | None => ret tt
  end ;;;
  match price with
  | Some x =>
      if x <? 0 then raise (TrafficPackageError 400 "Package price cannot be negative")
      else on_package package_id (λ p, p <| pk_price := x |>)
  | None => ret tt
  end ;;;
  match enabled with
  | Some b => on_package package_id (λ p, p <| pk_enabled := b |>)
  | None => ret tt
  end ;;;
  commit.

Definition delete_package (package_id : Z) : M DB unit :=
  let* used := gets (λ d, filter (λ p, pu_package_id p = Some package_id) (purchases d)) in
  match used with
  | _ :: _ =>
      on_package package_id (λ p, p <| pk_enabled := false |>) ;;;
      commit
  | [] =>
      modify (λ d, d <| package_overrides :=
        filter (λ kv, kv.1.2 ≠ package_id) (package_overrides d) |>) ;;;
      modify (λ d, d <| packages := filter (λ p, pk_id p ≠ package_id) (packages d) |>) ;;;
      commit
  end.

Definition grant_bytes (admin_id bytes : Z) : M DB unit :=
  modify (update_admin_row admin_id
    (λ a, a <| a_prepaid_traffic_remaining := a_prepaid_traffic_remaining a + bytes |>)).

(** A reseller row: [Admin.id == admin_id, Admin.is_sudo.is_(False)]. *)
Definition find_reseller (d : DB) (admin_id : Z) : option Admin :=
  match admins d !! admin_id with
  | Some a => if a_is_sudo a then None else Some a
  | None => None
  end.

Definition purchase_package (admin_id package_id : Z) (created_by_admin_id : option Z)
    : M DB ResellerTrafficPurchase :=
  get_or_create_wallet admin_id ;;;
  let* pkg := gets (λ d,
    head (filter (λ p, pk_id p = package_id ∧ pk_enabled p = true) (packages d))) in
  match pkg with
  | None => raise (TrafficPackageError 404 "Traffic package not found or disabled")
  | Some pkg =>
      let* admin := gets (λ d, find_reseller d admin_id) in
      match admin with
      | None => raise (TrafficPackageError 404 "Reseller not found")
      | Some _ =>
          let* wallet := gets (λ d, wallets d !! admin_id) in
          match wallet with
          | None => raise (TrafficPackageError 404 "Wallet not found")
          | Some balance =>
              let* offer := gets (λ d, effective_package_offer d admin_id pkg) in
              let price := pf_price offer in
              let granted_bytes := pf_bytes offer in
              if granted_bytes <=? 0
              then raise (TrafficPackageError 400 "Package bytes must be positive")
              else if balance <? price
              then raise (TrafficPackageError 400 "Insufficient wallet balance")
              else
                when (0 <? price) (modify (λ d,
                  d <| transactions := transactions d ++
                         [mkTransaction admin_id (- price) "traffic_package"
                            (RefPackage (pk_id pkg))] |>
                    <| wallets := <[admin_id := balance - price]> (wallets d) |>)) ;;;
                grant_bytes admin_id granted_bytes ;;;
                let purchase := mkPurchase admin_id (Some (pk_id pkg)) granted_bytes price
                  "purchase" (if truthy created_by_admin_id then created_by_admin_id
                              else Some admin_id) in
                modify (λ d, d <| purchases := purchases d ++ [purchase] |>) ;;;
                commit ;;;
                when (0 <? price)
                  (credit_parent_commission admin_id (- price) (RefPackage (pk_id pkg))) ;;;
                ret purchase
          end
      end
  end.

Definition credit_traffic (admin_id bytes : Z) (created_by_admin_id : option Z)
    : M DB ResellerTrafficPurchase :=
  if bytes <=? 0 then raise (TrafficPackageError 400 "Credit bytes must be positive")
  else
    let* admin := gets (λ d, find_reseller d admin_id) in
    match admin with
    | None => raise (TrafficPackageError 404 "Reseller not found")
    | Some _ =>
        grant_bytes admin_id bytes ;;;
        let purchase := mkPurchase admin_id None bytes 0 "manual" created_by_admin_id in
        modify (λ d, d <| purchases := purchases d ++ [purchase] |>) ;;;
        commit ;;;
        ret purchase
    end.

Definition list_purchases (d : DB) (admin_id : option Z) (limit : Z)
    : list ResellerTrafficPurchase :=
  take (Z.to_nat (Z.max 1 (Z.min limit 500)))
    (rev (filter (λ p, match admin_id with Some a => pu_admin_id p =? a | None => true end = true)
            (purchases d))).

(** The request items of [set_reseller_pricing].  Package and tariff ids are
    each named at most once per request. *)
Record PackageItem := mkPackageItem {
  ip_package_id : Z;
  ip_price : option Z;
  ip_bytes : option Z }.

Record TariffItem := mkTariffItem { it_tariff_id : Z; it_price : option Z }.

Definition set_package_item (admin_id : Z) (floor : bool) (item : PackageItem) : M DB unit :=
  let* pkg := gets (λ d, get_package d (ip_package_id item)) in
  match pkg with
  | None => raise (TrafficPackageError 404 "Traffic package not found")
  | Some pkg =>
      upsert_package_override admin_id (ip_package_id item) (ip_price item) (ip_bytes item)
        false (if floor then Some (pk_price pkg) else None)
  end.

(** [except ResellerTariffError as exc: raise TrafficPackageError(...)] *)
Definition as_package_error {D A} (m : M D A) : M D A := λ s,
  match m s with
  | (Raise (ResellerTariffError st msg), s') => (Raise (TrafficPackageError st msg), s')
  | r => r
  end.

Definition set_tariff_item (admin_id : Z) (floor : bool) (item : TariffItem) : M DB unit :=
  let* row := gets (λ d, get_tariff d (it_tariff_id item)) in
  match row with
  | None => raise (TrafficPackageError 404 "Reseller tariff not found")
  | Some row =>
      as_package_error (upsert_tariff_override admin_id (it_tariff_id item) (it_price item)
        false (if floor then Some (t_price row) else None))
  end.

Definition set_usage_rate (admin_id : Z) (rate : option Z) : M DB unit :=
  modify (update_admin_row admin_id (λ a, a <| a_usage_rate_per_gb := rate |>)).

Definition set_reseller_pricing (admin_id : Z) (usage_rate_per_gb : option Z)
    (clear_usage_rate : bool) (items : list PackageItem) (titems : list TariffItem)
    (enforce_master_floor : bool) : M DB unit :=
  let* platform_rate := gets (λ d, get_int d "billing.usage_rate_per_gb" 0) in
  (if clear_usage_rate then set_usage_rate admin_id None
   else
     match usage_rate_per_gb with
     | None => ret tt
     | Some r =>
         if r <? 0 then raise (TrafficPackageError 400 "usage_rate_per_gb cannot be negative")
         else if enforce_master_floor && (r <? platform_rate)
         then raise (TrafficPackageError 400 "usage_rate_per_gb cannot be below master rate")
         else set_usage_rate admin_id (Some r)
     end) ;;;
  for_each items (set_package_item admin_id enforce_master_floor) ;;;
  for_each titems (set_tariff_item admin_id enforce_master_floor) ;;;
  commit.

Record ResellerPricing := mkResellerPricing {
  rp_username : string;
  rp_usage_rate_per_gb : option Z;
  rp_effective_usage_rate_per_gb : Z;
  rp_platform_usage_rate_per_gb : Z;
  rp_packages : list PackageOffer;
  rp_tariffs : list TariffOffer }.

Definition get_reseller_pricing (d : DB) (admin_id : Z) (a : Admin) : ResellerPricing :=
  mkResellerPricing (a_username a) (a_usage_rate_per_gb a) (effective_usage_rate_per_gb d a)
    (get_int d "billing.usage_rate_per_gb" 0) (list_packages_for_admin d admin_id false)
    (list_tariffs_for_admin d admin_id false).

End Packages.

Module PackageFacts.
Import Wallet Ledger WalletFacts UsageBilling Tariffs TariffFacts Packages.

Lemma open_wallet_lookup aid d : wallets (open_wallet aid d) !! aid = Some (balance d aid).
Proof.
  unfold open_wallet, balance. destruct (wallets d !! aid) eqn:E; [done|]. cbn.
  by rewrite lookup_insert_eq.
Qed.

Lemma head_filter_Some {A} (P : A → Prop) `{∀ x, Decision (P x)} (l : list A) x :
  head (filter P l) = Some x → x ∈ l ∧ P x.
Proof.
  destruct (filter P l) as [|y k] eqn:E; [done|]. intros [= ->].
  assert (Hin : x ∈ filter P l) by (rewrite E; constructor).
  apply list_elem_of_filter in Hin. naive_solver.
Qed.

(** The committed state of a sale, before the commission. *)
Definition sold (aid : Z) (pu : ResellerTrafficPurchase) (pid : Z) (d : DB) : DB :=
  update_admin_row aid
    (λ a, a <| a_prepaid_traffic_remaining := a_prepaid_traffic_remaining a + pu_bytes pu |>)
    (if 0 <? pu_price_paid pu
     then apply_tx (mkTransaction aid (- pu_price_paid pu) "traffic_package" (RefPackage pid)) d
     else d) <| purchases := purchases d ++ [pu] |>.

Lemma sold_ledger aid pu pid d : ledger_ok d → ledger_ok (sold aid pu pid d).
Proof.
  intros H. unfold sold. destruct (0 <? pu_price_paid pu); [|exact H].
  exact (ledger_ok_apply_tx _ _ H).
Qed.

Lemma sold_balance aid pu pid d x :
  balance (sold aid pu pid d) x = balance d x - if aid =? x then Z.max 0 (pu_price_paid pu) else 0.
Proof.
  unfold sold. destruct (Z.ltb_spec 0 (pu_price_paid pu)).
  - etransitivity; [exact (balance_apply_tx (mkTransaction aid (- pu_price_paid pu)
      "traffic_package" (RefPackage pid)) d x)|]. cbn. destruct (aid =? x); lia.
  - transitivity (balance d x); [done|]. destruct (aid =? x); lia.
Qed.

Definition offers (d : DB) (aid pid : Z) (pkg : ResellerTrafficPackage) (o : PackageOffer) : Prop :=
  pkg ∈ packages d ∧ pk_id pkg = pid ∧ pk_enabled pkg = true ∧ o = effective_package_offer d aid pkg.

Definition paid_purchase (aid pid : Z) (o : PackageOffer) (by_ : option Z) : ResellerTrafficPurchase :=
  mkPurchase aid (Some pid) (pf_bytes o) (pf_price o) "purchase"
    (if truthy by_ then by_ else Some aid).

(** Every way a purchase can end. *)
Lemma purchase_run d aid pid by_ :
  let d1 := open_wallet aid d in
  (∃ st m, purchase_package aid pid by_ (mkSession d d)
     = (Raise (TrafficPackageError st m), mkSession d1 d1)) ∨
  (∃ pkg a o, offers d aid pid pkg o ∧ admins d !! aid = Some a ∧ a_is_sudo a = false ∧
     0 < pf_bytes o ∧ pf_price o ≤ balance d aid ∧
     let p := paid_purchase aid pid o by_ in
     let d2 := sold aid p pid d1 in
     let d3 := if 0 <? pf_price o
               then apply_opt_tx (commission_tx d2 aid (- pf_price o) (RefPackage pid)) d2 else d2 in
     purchase_package aid pid by_ (mkSession d d) = (Ok p, mkSession d3 d3)).
Proof.
  intros d1. remember (purchase_package aid pid by_ (mkSession d d)) as R eqn:E.
  unfold purchase_package in E.
  rewrite (bind_ok _ _ _ _ _ (get_or_create_wallet_opens d aid)), bind_gets in E.
  fold d1 in E. cbn [work] in E.
  assert (Hpk : packages d1 = packages d) by (by apply open_wallet_frame).
  assert (Had : admins d1 = admins d) by (by apply open_wallet_frame).
  assert (Hov : package_overrides d1 = package_overrides d) by (by apply open_wallet_frame).
  destruct (head _) as [pkg|] eqn:Eh; [|left; by eauto].
  apply head_filter_Some in Eh as [Hin [Hid He]]. rewrite Hpk in Hin.
  rewrite bind_gets in E. unfold find_reseller in E. cbn [work] in E. rewrite Had in E.
  destruct (admins d !! aid) as [a|] eqn:Ea; [|left; by eauto].
  destruct (a_is_sudo a) eqn:Es; [left; by eauto|].
  rewrite bind_gets in E. cbn [work] in E.
  rewrite (open_wallet_lookup aid d : wallets d1 !! aid = _), bind_gets in E. cbn [work] in E.
  assert (Heo : effective_package_offer d1 aid pkg = effective_package_offer d aid pkg).
  { unfold effective_package_offer, get_override. by rewrite Hov. }
  rewrite Heo in E. clear Heo. set (o := effective_package_offer d aid pkg) in E.
  destruct (pf_bytes o <=? 0) eqn:?; [left; by eauto|].
  destruct (balance d aid <? pf_price o) eqn:?; [left; by eauto|].
  right. exists pkg, a, o. split; [done|]. split_and!; try done; [lia|lia|].
  cbv zeta. rewrite bind_when in E. unfold grant_bytes in E. rewrite !bind_modify in E.
  rewrite E. clear E. cbn [work saved].
  unfold sold, paid_purchase, apply_tx. cbn [pu_price_paid pu_bytes tx_admin_id tx_amount].
  rewrite (balance_open_wallet aid d aid : balance d1 aid = _), Hid.
  destruct (Z.ltb_spec 0 (pf_price o)); cbn [work when]; [|done].
  unfold commit at 1, bind at 1. unfold bind at 1. cbn [work].
  rewrite credit_parent_commission_effect. cbn [work].
  replace (balance d aid + - pf_price o) with (balance d aid - pf_price o) by lia.
  by destruct (commission_tx _ _ _ _).
Qed.

Lemma apply_opt_tx_frame {T} (p : DB → T) o d :
  (∀ d x y, p (d <| transactions := x |> <| wallets := y |>) = p d) → p (apply_opt_tx o d) = p d.
Proof. intros H. destruct o; [apply H|done]. Qed.

Lemma commission_other d aid debit ref a x :
  admins d !! aid = Some a → a_parent_admin_id a ≠ Some x →
  balance (apply_opt_tx (commission_tx d aid debit ref) d) x = balance d x.
Proof.
  intros Ha Hp. destruct (commission_tx d aid debit ref) as [t|] eqn:E; [|done].
  cbn [apply_opt_tx]. rewrite balance_apply_tx.
  apply commission_tx_bounds in E as (_ & _ & _ & child & pct & Hc & Hpar & _).
  destruct (Z.eqb_spec (tx_admin_id t) x); [congruence|lia].
Qed.

(** Buying a traffic package is all or nothing: a completed purchase takes
    the effective price from the wallet, which covered it, adds exactly the
    effective bytes to the prepaid pool and records both; a refused one (404 or
    400) changes no balance, no admin, no purchase and no ledger row. *)
Theorem purchase_package_spec d aid pid by_ :
  (∀ a, admins d !! aid = Some a → a_parent_admin_id a ≠ Some aid) →
  let '(r, d') := run_session (purchase_package aid pid by_) d in
  match r with
  | Raise e => (∃ st m, e = TrafficPackageError st m) ∧ (∀ x, balance d' x = balance d x) ∧
      admins d' = admins d ∧ purchases d' = purchases d ∧ transactions d' = transactions d
  | Ok p => ∃ pkg a o, offers d aid pid pkg o ∧ admins d !! aid = Some a ∧ a_is_sudo a = false ∧
      pu_bytes p = pf_bytes o ∧ 0 < pf_bytes o ∧
      pu_price_paid p = pf_price o ∧ pf_price o ≤ balance d aid ∧
      balance d' aid = balance d aid - Z.max 0 (pf_price o) ∧
      admins d' !! aid = Some (a <| a_prepaid_traffic_remaining :=
                                      a_prepaid_traffic_remaining a + pf_bytes o |>) ∧
      purchases d' = purchases d ++ [p]
  end.
Proof.
  intros Hpar. unfold run_session.
  destruct (purchase_run d aid pid by_) as [(st & m & ->)|(pkg & a & o & Ho & Ha & Hs & Hb & Hle & ->)].
  { cbn [saved]. split; [by eauto|]. split; [intros; apply balance_open_wallet|].
    by rewrite !open_wallet_frame. }
  cbn [saved]. set (p := paid_purchase aid pid o by_). set (d2 := sold aid p pid (open_wallet aid d)).
  exists pkg, a, o. split_and!; try done.
  - assert (Hb2 : balance d2 aid = balance d aid - Z.max 0 (pf_price o)).
    { subst d2. by rewrite sold_balance, Z.eqb_refl, balance_open_wallet. }
    destruct (0 <? pf_price o); [|done].
    rewrite (commission_other _ _ _ _ (a <| a_prepaid_traffic_remaining :=
      a_prepaid_traffic_remaining a + pf_bytes o |>)); [done| |exact (Hpar a Ha)].
    subst d2. unfold sold. cbn [over admins update_admin_row]. destruct (0 <? _);
      cbn [apply_tx over admins]; rewrite open_wallet_frame, lookup_alter_eq by done; by rewrite Ha.
  - transitivity (admins d2 !! aid);
      [destruct (0 <? pf_price o); [by apply (apply_opt_tx_frame (λ d, admins d !! aid))|done]|].
    subst d2. unfold sold. cbn [over admins update_admin_row]. destruct (0 <? _);
      cbn [apply_tx over admins]; rewrite open_wallet_frame, lookup_alter_eq by done; by rewrite Ha.
  - transitivity (purchases d2);
      [destruct (0 <? pf_price o); [by apply (apply_opt_tx_frame purchases)|done]|].
    subst d2. unfold sold. cbn [over purchases]. by rewrite (open_wallet_frame purchases).
Qed.

Lemma purchase_package_spec_witness :
  let d := empty_db <| admins := {[ 7 := mkAdmin "r" false 0 None None 5 None None (Some 1) 10 ]} |>
     <| wallets := {[ 7 := 100 ]} |> <| packages := [mkPackage 2 "10G" 10 60 true] |> in
  let d' := (run_session (purchase_package 7 2 None) d).2 in
  balance d' 7 = 40 ∧ balance d' 1 = 6.
Proof.
  pose proof (purchase_package_spec
    (empty_db <| admins := {[ 7 := mkAdmin "r" false 0 None None 5 None None (Some 1) 10 ]} |>
     <| wallets := {[ 7 := 100 ]} |> <| packages := [mkPackage 2 "10G" 10 60 true] |>) 7 2 None) as H.
  assert (Hp : ∀ a, ({[ 7 := mkAdmin "r" false 0 None None 5 None None (Some 1) 10 ]} : gmap Z Admin) !! 7
    = Some a → a_parent_admin_id a ≠ Some 7) by (intros a; vm_compute; intros [= <-]; discriminate).
  specialize (H Hp). split; [|vm_compute; reflexivity].
  destruct (run_session _ _) as [r d'] eqn:E. vm_compute in E. injection E as <- <-.
  destruct H as (pkg & a & o & (Hk & _ & _ & ->) & _ & _ & _ & _ & _ & _ & Hb & _).
  apply list_elem_of_singleton in Hk as ->. exact Hb.
Defined.

(** *** Pricing floors *)
Section floor.
Context (aid : Z) (d0 : DB).

(** What a pricing request may have changed so far: nothing but this admin's
    rate and overrides, and every priced override respects the catalogue. *)
Definition floor_kept (d : DB) : Prop :=
  packages d = packages d0 ∧ tariffs d = tariffs d0 ∧ settings d = settings d0 ∧
  (∀ pid pkg ov p, package_overrides d !! (aid, pid) = Some ov → po_price ov = Some p →
     get_package d0 pid = Some pkg →
     pk_price pkg ≤ p ∨ package_overrides d0 !! (aid, pid) = Some ov) ∧
  (∀ tid t p, tariff_overrides d !! (aid, tid) = Some (Some p) →
     get_tariff d0 tid = Some t →
     t_price t ≤ p ∨ tariff_overrides d0 !! (aid, tid) = Some (Some p)).

Lemma floor_kept_init : floor_kept d0.
Proof. unfold floor_kept. split_and!; auto. Qed.

Definition keeps {A} (m : M DB A) : Prop :=
  ∀ s, floor_kept (work s) → (∀ r s', m s = (Ok r, s') → floor_kept (work s')) ∧
    saved (m s).2 = saved s.

Lemma keeps_package_item item : keeps (set_package_item aid true item).
Proof.
  intros s Hs. unfold set_package_item. rewrite bind_gets.
  destruct (get_package (work s) (ip_package_id item)) as [pkg|] eqn:Eg; [|done].
  unfold upsert_package_override.
  destruct (match ip_price item with Some p => p <? 0 | None => false end); [done|].
  destruct (match ip_bytes item with Some b => b <=? 0 | None => false end); [done|].
  destruct (match ip_price item with Some p => p <? pk_price pkg | None => false end) eqn:Em; [done|].
  destruct Hs as (H1 & H2 & H3 & H4 & H5).
  assert (Hins : floor_kept ((work s) <| package_overrides := <[(aid, ip_package_id item) :=
    mkPackageOverride (ip_price item) (ip_bytes item)]> (package_overrides (work s)) |>)).
  { unfold floor_kept. cbn. split_and!; try done. intros pid pkg' ov p.
    rewrite lookup_insert. case_decide as Heq; [|by apply H4]. intros [= <-]. cbn. intros Hp.
    simplify_eq. unfold get_package in *. rewrite H1 in Eg. rewrite Eg. intros [= <-].
    left. rewrite Hp in Em. lia. }
  assert (Hdel : floor_kept ((work s) <| package_overrides :=
    delete (aid, ip_package_id item) (package_overrides (work s)) |>)).
  { unfold floor_kept. cbn. split_and!; try done. intros pid pkg' ov p.
    rewrite lookup_delete_Some. intros [_ Hl]. by apply (H4 _ _ _ _ Hl). }
  destruct (ip_price item) as [p|], (ip_bytes item) as [b|];
    try (split; [intros ? ? [= <- <-]; exact Hins|done]).
  rewrite bind_gets. destruct (get_override _ _ _).
  - split; [intros ? ? [= <- <-]; exact Hdel|done].
  - split; [intros ? ? [= <- <-]; done|done].
Qed.

Lemma keeps_tariff_item item : keeps (set_tariff_item aid true item).
Proof.
  intros s Hs. unfold set_tariff_item. rewrite bind_gets.
  destruct (get_tariff (work s) (it_tariff_id item)) as [row|] eqn:Eg; [|done].
  destruct Hs as (H1 & H2 & H3 & H4 & H5). unfold as_package_error, upsert_tariff_override.
  destruct (it_price item) as [p|].
  - destruct (p <? 0); [done|]. destruct (Z.ltb_spec p (t_price row)); [done|].
    split; [|done]. intros ? ? [= <- <-]. unfold floor_kept. cbn. split_and!; try done.
    intros tid t q. rewrite lookup_insert. case_decide as Heq; [|by apply H5].
    simplify_eq. intros [= <-]. unfold get_tariff in *. rewrite H2 in Eg. rewrite Eg.
    intros [= <-]. by left.
  - rewrite bind_gets. destruct (get_tariff_override _ _ _).
    + split; [|done]. intros ? ? [= <- <-]. unfold floor_kept. cbn. split_and!; try done.
      intros tid t q. rewrite lookup_delete_Some. intros [_ Hl]. by apply (H5 _ _ _ Hl).
    + split; [|done]. by intros ? ? [= <- <-].
Qed.

Lemma keeps_for_each {A} (l : list A) f : (∀ x, keeps (f x)) → keeps (for_each l f).
Proof.
  intros Hf. induction l as [|x l IH]; intros s Hs; cbn.
  - split; [by intros ? ? [= <- <-]|done].
  - destruct (Hf x s Hs) as [H1 H2]. unfold bind. destruct (f x s) as [[r|e] s'].
    + destruct (IH s' (H1 r s' eq_refl)) as [H3 H4]. split; [done|]. by rewrite H4.
    + split; [done|]. exact H2.
Qed.
End floor.

(** A parent pricing a sub-reseller cannot undercut the master: when the
    request is accepted with the floor enforced, every override price it set is
    at least the catalogue price of its package or tariff; a refused request
    leaves the committed database untouched, the items before the bad one
    included. *)
Theorem set_reseller_pricing_floor d aid rate clear items titems :
  let '(r, d') := run_session (set_reseller_pricing aid rate clear items titems true) d in
  match r with
  | Raise _ => d' = d
  | Ok _ =>
      (∀ pid pkg ov p, package_overrides d' !! (aid, pid) = Some ov → po_price ov = Some p →
         get_package d pid = Some pkg →
         pk_price pkg ≤ p ∨ package_overrides d !! (aid, pid) = Some ov) ∧
      (∀ tid t p, tariff_overrides d' !! (aid, tid) = Some (Some p) →
         get_tariff d tid = Some t →
         t_price t ≤ p ∨ tariff_overrides d !! (aid, tid) = Some (Some p)) ∧
      (clear = false → ∀ r, rate = Some r → get_int d "billing.usage_rate_per_gb" 0 ≤ r)
  end.
Proof.
  unfold run_session, set_reseller_pricing. rewrite bind_gets. cbn [work].
  set (tail := bind (for_each items _) _).
  assert (Hfin : ∀ d1 r s, floor_kept aid d d1 → tail (mkSession d1 d) = (r, s) →
    match r with Raise _ => saved s = d | Ok _ => floor_kept aid d (saved s) end).
  { intros d1 r s Hk. subst tail. unfold bind at 1.
    destruct (keeps_for_each aid d items _ (keeps_package_item aid d) (mkSession d1 d) Hk) as [H1 H2].
    destruct (for_each items _ _) as [[[]|e] s1]; [|by intros [= <- <-]].
    specialize (H1 tt s1 eq_refl). cbn [snd] in H2. unfold bind at 1.
    destruct (keeps_for_each aid d titems _ (keeps_tariff_item aid d) s1 H1) as [H3 H4].
    destruct (for_each titems _ _) as [[[]|e] s2]; intros [= <- <-]; [|cbn in *; congruence].
    exact (H3 tt s2 eq_refl). }
  assert (Hrate : ∀ rt, floor_kept aid d (update_admin_row aid
    (λ a, a <| a_usage_rate_per_gb := rt |>) d)) by (intros; exact (floor_kept_init aid d)).
  clearbody tail. destruct clear; [|destruct rate as [r|]].
  - unfold set_usage_rate. rewrite bind_modify. destruct (tail _) as [r' s] eqn:E.
    specialize (Hfin _ _ _ (Hrate None) E). destruct r'; [|done].
    destruct Hfin as (_ & _ & _ & ? & ?). done.
  - destruct (r <? 0); [done|]. cbn [andb].
    destruct (Z.ltb_spec r (get_int d "billing.usage_rate_per_gb" 0)); [done|].
    unfold set_usage_rate. rewrite bind_modify. destruct (tail _) as [r' s] eqn:E.
    specialize (Hfin _ _ _ (Hrate (Some r)) E). destruct r'; [|done].
    destruct Hfin as (_ & _ & _ & ? & ?). split_and!; try done. by intros _ ? [= <-].
  - rewrite (bind_ok (ret tt) _ _ _ _ eq_refl). destruct (tail _) as [r' s] eqn:E.
    specialize (Hfin _ _ _ (floor_kept_init aid d) E). destruct r'; [|done].
    destruct Hfin as (_ & _ & _ & ? & ?). done.
Qed.

(** *** The catalogue keeps what was sold *)
Definition history_ok (d : DB) : Prop :=
  ∀ p pid, p ∈ purchases d → pu_package_id p = Some pid →
    ∃ pkg, pkg ∈ packages d ∧ pk_id pkg = pid.

Lemma history_on_package pid f d :
  (∀ p, pk_id (f p) = pk_id p) → history_ok d →
  history_ok (d <| packages := map (λ p, if pk_id p =? pid then f p else p) (packages d) |>).
Proof.
  intros Hf H p q Hp Hq. destruct (H p q Hp Hq) as (pkg & Hin & Hid). cbn.
  exists (if pk_id pkg =? pid then f pkg else pkg). split;
    [exact (list_elem_of_fmap_2 (λ p, if pk_id p =? pid then f p else p) _ _ Hin)|].
  destruct (pk_id pkg =? pid); [by rewrite Hf|done].
Qed.

Lemma preserves_history_on_package pid f :
  (∀ p, pk_id (f p) = pk_id p) → preserves history_ok (on_package pid f).
Proof. intros Hf. apply preserves_modify. intros d. by apply history_on_package. Qed.
#[local] Hint Resolve preserves_history_on_package : session.

Lemma purchase_history d aid pid by_ :
  history_ok d → history_ok (run_session (purchase_package aid pid by_) d).2.
Proof.
  intros H. unfold run_session.
  destruct (purchase_run d aid pid by_) as [(st & m & ->)|(pkg & a & o & Ho & _ & _ & _ & _ & ->)];
    cbn [saved snd].
  { unfold history_ok. by rewrite (open_wallet_frame purchases), (open_wallet_frame packages). }
  set (p := paid_purchase aid pid o by_). set (d2 := sold aid p pid (open_wallet aid d)).
  assert (H2 : history_ok d2).
  { unfold history_ok. subst d2. unfold sold. cbn [over purchases packages update_admin_row].
    assert (∀ b, packages (if b : bool then apply_tx (mkTransaction aid (- pu_price_paid p)
      "traffic_package" (RefPackage pid)) (open_wallet aid d) else open_wallet aid d)
      = packages d) as -> by (intros []; by apply (open_wallet_frame packages)).
    rewrite (open_wallet_frame purchases) by done.
    intros q qid Hq Hqid. apply elem_of_app in Hq as [Hq|Hq]; [by apply (H q)|].
    apply list_elem_of_singleton in Hq as ->. cbn in Hqid. simplify_eq.
    destruct Ho as (Hin & Hid & _). eauto. }
  destruct (0 <? pf_price o); [|done].
  unfold history_ok. rewrite (apply_opt_tx_frame purchases), (apply_opt_tx_frame packages) by done.
  exact H2.
Qed.

(** A package that was ever sold stays in the catalogue: after any package
    operation every recorded purchase still names an existing package; deleting
    a sold one only disables it. *)
Theorem package_history_kept d :
  history_ok d →
  (∀ pid, history_ok (run_session (delete_package pid) d).2) ∧
  (∀ aid pid by_, history_ok (run_session (purchase_package aid pid by_) d).2) ∧
  (∀ aid n by_, history_ok (run_session (credit_traffic aid n by_) d).2) ∧
  (∀ n b p e, history_ok (run_session (create_package n b p e) d).2) ∧
  (∀ pid n b p e, history_ok (run_session (update_package pid n b p e) d).2).
Proof.
  intros H. split_and!.
  - intros pid. unfold run_session, delete_package. rewrite bind_gets. cbn [work].
    destruct (filter _ _) as [|x l] eqn:E.
    + cbn. intros p q Hp Hq. destruct (H p q Hp Hq) as (pkg & Hin & Hid). exists pkg.
      split; [|done]. cbn. apply list_elem_of_filter. split; [|done]. intros Heq.
      assert (Hf : p ∈ filter (λ p, pu_package_id p = Some pid) (purchases d)).
      { apply list_elem_of_filter. split; [|done]. congruence. }
      rewrite E in Hf. by apply elem_of_nil in Hf.
    + by apply history_on_package.
  - intros. by apply purchase_history.
  - intros aid n by_. apply preserves_run; [|done]. unfold credit_traffic.
    solve_preserves; apply preserves_modify; [done|]. intros d1 H1 p q.
    cbn. rewrite elem_of_app, list_elem_of_singleton. intros [Hp| ->]; [by apply H1|done].
  - intros n b p e. apply preserves_run; [|done]. unfold create_package.
    solve_preserves; apply preserves_modify. intros d1 H1 x q Hx Hq.
    destruct (H1 x q Hx Hq) as (pkg & Hin & ?). exists pkg. cbn. set_solver.
  - intros pid n b p e. apply preserves_run; [|done]. unfold update_package. solve_preserves.
Qed.

Lemma package_history_kept_witness :
  let d := empty_db <| packages := [mkPackage 2 "10G" 10 60 true] |>
             <| purchases := [mkPurchase 7 (Some 2) 10 60 "purchase" None] |> in
  history_ok (run_session (delete_package 2) d).2.
Proof.
  refine (proj1 (package_history_kept (empty_db <| packages := [mkPackage 2 "10G" 10 60 true] |>
             <| purchases := [mkPurchase 7 (Some 2) 10 60 "purchase" None] |>) _) 2).
  intros p pid Hp Hid. cbn in Hp. apply list_elem_of_singleton in Hp as ->. cbn in Hid.
  injection Hid as <-. exists (mkPackage 2 "10G" 10 60 true). split; [left|reflexivity].
Defined.

(** *** The ledger *)
Lemma purchase_ledger d aid pid by_ :
  ledger_ok d → ledger_ok (run_session (purchase_package aid pid by_) d).2.
Proof.
  intros H. unfold run_session.
  assert (Ho : ledger_ok (open_wallet aid d)).
  { intros x. rewrite balance_open_wallet, (open_wallet_frame transactions) by done. apply H. }
  destruct (purchase_run d aid pid by_) as [(st & m & ->)|(pkg & a & o & _ & _ & _ & _ & _ & ->)];
    cbn [saved snd]; [done|].
  assert (H2 : ∀ p, ledger_ok (sold aid p pid (open_wallet aid d))) by (intros; by apply sold_ledger).
  destruct (0 <? pf_price o); [|apply H2]. destruct (commission_tx _ _ _ _); [|apply H2].
  apply ledger_ok_apply_tx, H2.
Qed.

End PackageFacts.
