(* ===== verification/Caps.v ===== *)
(** * Caps: suspending and restoring the users of a reseller

    [resellers_over_traffic_cap] and [enforce_reseller_traffic_caps] of
    [app/quota.py], run by the review and billing jobs and after a top-up. *)
From S2P Require Import Prelude Store Users Wallet UsageBilling.

Module Caps.
Import Quota UsageBilling.

(** The ids of the non-sudo admins with a cap, split into over and under. *)
Definition resellers_over_traffic_cap (d : DB) : gset Z * gset Z :=
  foldr (λ p acc,
      match a_max_total_traffic (snd p) with
      | None => acc
      | Some cap =>
          if a_is_sudo p.2 then acc
          else if cap <=? a_users_usage p.2 then ({[ p.1 ]} ∪ acc.1, acc.2)
          else (acc.1, {[ p.1 ]} ∪ acc.2)
      end) (∅, ∅) (map_to_list (admins d)).

(** Attribute assignments on the row objects of the given ids. *)
Definition on_rows (ids : list Z) (f : User → User) (us : gmap Z User) : gmap Z User :=
  map_imap (λ uid u, Some (if bool_decide (uid ∈ ids) then f u else u)) us.

Definition in_admins (ids : gset Z) (u : User) : bool :=
  match u_admin_id u with Some a => bool_decide (a ∈ ids) | None => false end.

Definition suspend_row (now : Z) (u : User) : User :=
  u <| u_status := disabled |> <| u_capped_by_reseller := true |>
    <| u_last_status_change := Some now |>.

Definition restore_row (now : Z) (u : User) : User :=
  let u := u <| u_capped_by_reseller := false |> <| u_last_status_change := Some now |> in
  if quota_exhausted u then u <| u_status := limited |> else u <| u_status := active |>.

Definition enforce_reseller_traffic_caps (now : Z) : M DB (list (Z * string) * list Z) :=
  let* over_ids := gets (λ d, (resellers_over_traffic_cap d).1) in
  let* wallet_blocked := try_default (resellers_with_unpaid_usage now) ∅ in
  let suspend_ids := over_ids ∪ wallet_blocked in
  let* hit := query (λ d,
    filter (λ p, in_admins suspend_ids p.2 = true ∧ u_status p.2 = active) (map_to_list (users d))) in
  modify (λ d, d <| users := on_rows hit.*1 (suspend_row now) (users d) |>) ;;;
  let newly := map (λ p, (p.1, u_username p.2)) hit in
  let* capped_users := query (λ d,
    filter (λ p, u_capped_by_reseller p.2 = true ∧ u_admin_id p.2 ≠ None)
      (map_to_list (users d))) in
  let release := filter (λ p, in_admins suspend_ids p.2 = false) capped_users in
  modify (λ d, d <| users := on_rows release.*1 (restore_row now) (users d) |>) ;;;
  let reactivated := (filter (λ p, quota_exhausted p.2 = false) release).*1 in
  when (negb (bool_decide (newly = [])) || negb (bool_decide (reactivated = []))) commit ;;;
  ret (newly, reactivated).

End Caps.

Module CapsFacts.
Import Wallet Ledger Quota UsageBilling UsageBillingFacts Caps.

(** *** What the wallet check leaves alone *)
Lemma tidy_get_or_create_wallet aid : tidy (get_or_create_wallet aid).
Proof.
  apply tidy_bind; [apply tidy_gets|]. intros [b|]; [apply tidy_ret|].
  apply tidy_modify_commit, tidy_ret.
Qed.

Lemma tidy_checkpoint now aid : tidy (get_or_create_checkpoint now aid).
Proof.
  apply tidy_bind; [apply tidy_gets|]. intros [b|]; [apply tidy_ret|].
  apply tidy_bind; [apply tidy_gets|]. intros ck. apply tidy_modify_commit, tidy_ret.
Qed.

Lemma tidy_unpaid now aid a : tidy (unpaid_usage now aid a).
Proof.
  unfold unpaid_usage, unbilled_usage_split.
  repeat first [ apply tidy_ret | apply tidy_get_or_create_wallet | apply tidy_checkpoint
    | apply tidy_gets | apply tidy_bind
    | lazymatch goal with |- ∀ _, tidy _ => intros ? end | progress cbv zeta | case_match ].
Qed.

Lemma tidy_resellers_unpaid now : tidy (resellers_with_unpaid_usage now).
Proof.
  apply tidy_bind; [apply tidy_gets|]. intros on. destruct (negb on); [apply tidy_ret|].
  apply tidy_bind; [apply tidy_gets|]. intros rows.
  generalize (∅ : gset Z). induction rows as [|[aid a] l IH]; intros b; cbn; [apply tidy_ret|].
  apply tidy_bind; [apply tidy_unpaid|]. intros. apply IH.
Qed.

Definition same_people (d0 d : DB) : Prop := users d = users d0 ∧ admins d = admins d0.

#[local] Hint Extern 5 (preserves (same_people _) (modify _)) =>
  apply preserves_modify; intros ? ?; done : session.

Lemma people_unpaid d0 now : preserves (same_people d0) (resellers_with_unpaid_usage now).
Proof.
  assert (H : ∀ l b, preserves (same_people d0) (collect_unpaid now l b)).
  { induction l as [|[aid a] l IH]; intros b; cbn; [apply preserves_ret|].
    apply preserves_bind; [|auto].
    unfold unpaid_usage, unbilled_usage_split, get_or_create_checkpoint, get_or_create_wallet.
    solve_preserves. }
  unfold resellers_with_unpaid_usage. solve_preserves.
Qed.

(** The set of resellers whose users the run suspends. *)
Definition suspended_admins (now : Z) (d : DB) : gset Z :=
  (resellers_over_traffic_cap d).1 ∪
  match (resellers_with_unpaid_usage now (mkSession d d)).1 with Ok b => b | Raise _ => ∅ end.

(** The effect on one row. *)
Definition cap_row (now : Z) (S : gset Z) (u : User) : User :=
  if in_admins S u then (if status_eqb (u_status u) active then suspend_row now u else u)
  else if u_capped_by_reseller u && negb (is_none (u_admin_id u)) then restore_row now u
  else u.

Lemma lookup_on_rows ids f us uid :
  on_rows ids f us !! uid = (λ u, if bool_decide (uid ∈ ids) then f u else u) <$> us !! uid.
Proof. unfold on_rows. rewrite map_lookup_imap. by destruct (us !! uid). Qed.

Lemma elem_of_filtered_ids (P : Z * User → Prop) `{∀ p, Decision (P p)} us uid :
  uid ∈ (filter P (map_to_list us)).*1 ↔ ∃ u, us !! uid = Some u ∧ P (uid, u).
Proof.
  rewrite list_elem_of_fmap. split.
  - intros ([i v] & -> & Hin). apply list_elem_of_filter in Hin as [HP Hin].
    apply elem_of_map_to_list in Hin. by exists v.
  - intros (u & Hu & HP). exists (uid, u). split; [done|]. apply list_elem_of_filter.
    by rewrite elem_of_map_to_list.
Qed.

(** The rows the two loops of the run visit. *)
Definition hit_rows (S : gset Z) (us : gmap Z User) : list (Z * User) :=
  filter (λ p, in_admins S p.2 = true ∧ u_status p.2 = active) (map_to_list us).
Definition released_rows (S : gset Z) (us : gmap Z User) : list (Z * User) :=
  filter (λ p, in_admins S p.2 = false)
    (filter (λ p, u_capped_by_reseller p.2 = true ∧ u_admin_id p.2 ≠ None) (map_to_list us)).
Definition reactivated_ids (S : gset Z) (us : gmap Z User) : list Z :=
  (filter (λ p, quota_exhausted p.2 = false) (released_rows S us)).*1.

Lemma elem_of_hit S us uid :
  uid ∈ (hit_rows S us).*1 ↔ ∃ u, us !! uid = Some u ∧ in_admins S u = true ∧ u_status u = active.
Proof. apply elem_of_filtered_ids. Qed.

Lemma elem_of_released S us uid :
  uid ∈ (released_rows S us).*1 ↔ ∃ u, us !! uid = Some u ∧ in_admins S u = false ∧
    u_capped_by_reseller u = true ∧ u_admin_id u ≠ None.
Proof. unfold released_rows. rewrite list_filter_filter. apply elem_of_filtered_ids. Qed.

Lemma elem_of_reactivated S us uid :
  uid ∈ reactivated_ids S us ↔ ∃ u, us !! uid = Some u ∧ in_admins S u = false ∧
    u_capped_by_reseller u = true ∧ u_admin_id u ≠ None ∧ quota_exhausted u = false.
Proof.
  unfold reactivated_ids, released_rows. rewrite !list_filter_filter, elem_of_filtered_ids. cbn.
  naive_solver.
Qed.

(** Both loops together are [cap_row] on every row. *)
Lemma cap_rows_lookup now S us uid :
  on_rows (released_rows S us).*1 (restore_row now) (on_rows (hit_rows S us).*1 (suspend_row now) us)
    !! uid = cap_row now S <$> us !! uid.
Proof.
  rewrite !lookup_on_rows. destruct (us !! uid) as [u|] eqn:Hu; [|done]. cbn. f_equal. unfold cap_row.
  rewrite (bool_decide_ext (uid ∈ (hit_rows S us).*1) (in_admins S u = true ∧ u_status u = active)).
  2: { rewrite elem_of_hit, Hu. naive_solver. }
  rewrite (bool_decide_ext (uid ∈ (released_rows S us).*1)
    (in_admins S u = false ∧ u_capped_by_reseller u = true ∧ u_admin_id u ≠ None)).
  2: { rewrite elem_of_released, Hu. naive_solver. }
  destruct (in_admins S u).
  - rewrite (bool_decide_eq_false_2 (true = false ∧ _)) by naive_solver.
    destruct (status_eqb (u_status u) active) eqn:Es.
    + apply status_eqb_eq in Es. by rewrite bool_decide_true.
    + apply status_eqb_neq in Es. by rewrite bool_decide_false by naive_solver.
  - rewrite (bool_decide_eq_false_2 (false = true ∧ _)) by naive_solver.
    destruct (u_capped_by_reseller u), (u_admin_id u); cbn;
      first [by rewrite bool_decide_true by done | by rewrite bool_decide_false by naive_solver].
Qed.

Section enforce_run.
Context (now : Z) (d : DB).
Let S := suspended_admins now d.

(** The run is the row update [cap_row] on every user, kept only when someone
    was suspended or reactivated. *)
Lemma enforce_run :
  ∃ newly reactivated d1 d2,
    enforce_reseller_traffic_caps now (mkSession d d)
      = (Ok (newly, reactivated), mkSession d2
           (if negb (bool_decide (newly = [])) || negb (bool_decide (reactivated = []))
            then d2 else d1)) ∧
    users d1 = users d ∧ admins d1 = admins d ∧ admins d2 = admins d ∧
    (∀ uid, users d2 !! uid = cap_row now S <$> users d !! uid) ∧
    (∀ uid, uid ∈ newly.*1 ↔ ∃ u, users d !! uid = Some u ∧ in_admins S u = true ∧
       u_status u = active) ∧
    (∀ uid, uid ∈ reactivated ↔ ∃ u, users d !! uid = Some u ∧ in_admins S u = false ∧
       u_capped_by_reseller u = true ∧ u_admin_id u ≠ None ∧ quota_exhausted u = false).
Proof.
  remember (enforce_reseller_traffic_caps now (mkSession d d)) as R eqn:E.
  unfold enforce_reseller_traffic_caps in E. rewrite bind_gets in E. cbn [work] in E.
  pose proof (tidy_resellers_unpaid now (mkSession d d) eq_refl) as Hsy.
  destruct (people_unpaid d now (mkSession d d)) as [[Hu1 Ha1] _]; [by split|].
  assert (Ht : try_default (resellers_with_unpaid_usage now) ∅ (mkSession d d) =
    (Ok (match (resellers_with_unpaid_usage now (mkSession d d)).1 with
         | Ok b => b | Raise _ => ∅ end), (resellers_with_unpaid_usage now (mkSession d d)).2)).
  { unfold try_default. by destruct (resellers_with_unpaid_usage _ _) as [[b|e] s]. }
  rewrite (bind_ok _ _ _ _ _ Ht) in E. clear Ht. cbv zeta in E.
  fold (suspended_admins now d) in E. fold S in E.
  destruct (resellers_with_unpaid_usage now (mkSession d d)) as [r [d1 d1']].
  unfold synced in Hsy. cbn [snd work saved] in *. subst d1'.
  rewrite bind_query in E. cbn [saved] in E.
  rewrite bind_modify, bind_query, bind_modify in E. cbn [work saved] in E. rewrite !Hu1 in E.
  fold (hit_rows S (users d)) in E. fold (released_rows S (users d)) in E.
  fold (reactivated_ids S (users d)) in E.
  eexists (map (λ p, (p.1, u_username p.2)) (hit_rows S (users d))), (reactivated_ids S (users d)), d1, _. split.
  { rewrite E. unfold bind, when, commit. by destruct (_ || _). }
  cbn [users admins over]. rewrite Hu1. split_and!; try done.
  - intros uid. apply cap_rows_lookup.
  - intros uid. rewrite <-elem_of_hit.
    assert (Hm : ∀ l : list (Z * User), (map (λ p, (p.1, u_username p.2)) l).*1 = l.*1).
    { induction l as [|p l IH]; cbn; [done|]. by rewrite IH. }
    by rewrite Hm.
  - intros uid. apply elem_of_reactivated.
Qed.
End enforce_run.

Lemma cap_row_idem now now' S u : cap_row now' S (cap_row now S u) = cap_row now S u.
Proof.
  assert (Hin : ∀ v, u_admin_id v = u_admin_id u → in_admins S v = in_admins S u).
  { intros v Hv. unfold in_admins. by rewrite Hv. }
  unfold cap_row at 2 3. destruct (in_admins S u) eqn:Hi.
  - destruct (status_eqb (u_status u) active) eqn:Es; unfold cap_row.
    + by rewrite (Hin (suspend_row now u) eq_refl).
    + by rewrite Hi, Es.
  - destruct (u_capped_by_reseller u && negb (is_none (u_admin_id u))) eqn:Hc; unfold cap_row.
    + unfold restore_row. destruct (quota_exhausted _);
        match goal with |- context [in_admins S ?v] => rewrite (Hin v eq_refl) end; done.
    + by rewrite Hi, Hc.
Qed.


(** A release that only finds exhausted accounts is lost: when every account
    the run releases goes to limited and nobody is suspended, the session is
    closed without a commit, so the accounts stay disabled and flagged. *)
Theorem exhausted_release_not_saved now d uid u :
  users d !! uid = Some u → u_capped_by_reseller u = true → quota_exhausted u = true →
  in_admins (suspended_admins now d) u = false → u_admin_id u ≠ None →
  (∀ v w, users d !! v = Some w → v ≠ uid →
     u_status w ≠ active ∧ u_capped_by_reseller w = false) →
  u_status u = disabled →
  let '(r, d') := run_session (enforce_reseller_traffic_caps now) d in
  r = Ok ([], []) ∧ users d' !! uid = Some u.
Proof.
  intros Hu Hc Hq Hi Ha Hall Hs.
  destruct (enforce_run now d) as (newly & reac & d1 & d2 & E & Hu1 & _ & _ & _ & Hn & Hr).
  unfold run_session. rewrite E. cbn [saved]. clear E.
  assert (newly = []) as ->.
  { destruct newly as [|[v w] l]; [done|]. exfalso.
    destruct (proj1 (Hn v) ltac:(left)) as (w' & Hv & Hiv & Hsv).
    destruct (decide (v = uid)) as [->|Hne]; [congruence|].
    by destruct (Hall v w' Hv Hne). }
  assert (reac = []) as ->.
  { destruct reac as [|v l]; [done|]. exfalso.
    destruct (proj1 (Hr v) ltac:(left)) as (w' & Hv & _ & Hcv & _ & Hqv).
    destruct (decide (v = uid)) as [->|Hne]; [congruence|].
    destruct (Hall v w' Hv Hne). congruence. }
  rewrite bool_decide_true by done. cbn. by rewrite Hu1.
Qed.

Lemma exhausted_release_not_saved_witness :
  let u := sample_user <| u_status := disabled |> <| u_capped_by_reseller := true |>
             <| u_admin_id := Some 7 |> <| u_data_limit := Some 10 |> <| u_used_traffic := 10 |> in
  let d := empty_db <| users := {[ 1 := u ]} |> in
  users (run_session (enforce_reseller_traffic_caps 100) d).2 !! 1 = Some u.
Proof.
  pose proof (exhausted_release_not_saved 100
    (empty_db <| users := {[ 1 := sample_user <| u_status := disabled |>
       <| u_capped_by_reseller := true |> <| u_admin_id := Some 7 |>
       <| u_data_limit := Some 10 |> <| u_used_traffic := 10 |> ]} |>) 1
    (sample_user <| u_status := disabled |>
       <| u_capped_by_reseller := true |> <| u_admin_id := Some 7 |>
       <| u_data_limit := Some 10 |> <| u_used_traffic := 10 |>)
    eq_refl eq_refl eq_refl ltac:(vm_compute; reflexivity) ltac:(discriminate)) as H.
  assert (Hv : ∀ v w, ({[ 1 := sample_user <| u_status := disabled |>
       <| u_capped_by_reseller := true |> <| u_admin_id := Some 7 |>
       <| u_data_limit := Some 10 |> <| u_used_traffic := 10 |> ]} : gmap Z User) !! v = Some w →
       v ≠ 1 → u_status w ≠ active ∧ u_capped_by_reseller w = false).
  { intros v w Hv Hne. by rewrite lookup_singleton_ne in Hv by done. }
  specialize (H Hv eq_refl). cbv zeta.
  destruct (run_session _ _) as [r d']. exact (proj2 H).
Defined.

End CapsFacts.
