(* ===== verification/Portal.v ===== *)
(** * Portal: end-user self service

    [app/portal/__init__.py], [app/portal/username_check.py], the catalogue
    scoping of [app/tenant/plan_ops.py] and the user rows [app/db/crud.py]
    creates and removes for them.  Proxy credentials, inbound selection,
    subscription panels and the live cores are left out. *)
From S2P Require Import Prelude Store Users Wallet UsageBilling Tariffs.

Module Portal.
Import Quota Lifecycle Wallet Tariffs.

(** ** Usernames *)
Definition word_char (c : Ascii.ascii) : bool :=
  let n := Ascii.nat_of_ascii c in
  (((97 <=? n) && (n <=? 122)) || ((65 <=? n) && (n <=? 90))
   || ((48 <=? n) && (n <=? 57)) || (n =? 95))%nat.

(** [USERNAME_REGEXP]: [^[a-zA-Z0-9_]{3,32}$] *)
Definition username_format_ok (username : string) : bool :=
  let l := String.list_ascii_of_string username in
  (3 <=? length l)%nat && (length l <=? 32)%nat && forallb word_char l.

Definition normalize_username (username : option string) : string :=
  lower (strip (default ""%string username)).

Definition get_admin (d : DB) (username : string) : option (Z * Admin) :=
  head (filter (λ p, String.eqb (a_username p.2) username = true) (map_to_list (admins d))).

Record UsernameCheck := mkUsernameCheck {
  uk_username : string;
  uk_valid : bool;
  uk_available : bool;
  uk_reason : option string }.

Definition check_portal_username (d : DB) (username : option string) : UsernameCheck :=
  let u := normalize_username username in
  if (String.length u <? 3)%nat then mkUsernameCheck u false false (Some "too_short"%string)
  else if (32 <? String.length u)%nat || negb (username_format_ok u)
  then mkUsernameCheck u false false (Some "invalid_format"%string)
  else if negb (is_none (find_user d u)) || negb (is_none (get_admin d u))
  then mkUsernameCheck u true false (Some "taken"%string)
  else mkUsernameCheck u true true None.

Definition require_available_portal_username (username : option string) : M DB string :=
  let* c := gets (λ d, check_portal_username d username) in
  if negb (uk_valid c) then raise (HTTPException 400
    "Username only can be 3 to 32 characters and contain a-z, A-Z, 0-9, and underscores.")
  else if negb (uk_available c) then raise (HTTPException 409 "Username already exists")
  else ret (uk_username c).

(** ** Renewal arithmetic *)
Definition compute_renewal_expire (now : Z) (u : User) (plan : Plan) : option Z :=
  if negb (truthy (p_duration_days plan)) then u_expire u
  else
    let base := if truthy (u_expire u) && (now <? or0 (u_expire u))
                then or0 (u_expire u) else now in
    Some (base + or0 (p_duration_days plan) * 86400).

Definition compute_fresh_expire (now : Z) (plan : Plan) : option Z :=
  if negb (truthy (p_duration_days plan)) then None
  else Some (now + or0 (p_duration_days plan) * 86400).

Definition compute_renewal_data_limit (u : User) (plan : Plan) : option Z :=
  match normalize_data_limit (p_data_limit plan) with
  | None => None
  | Some plan_limit =>
      if is_unlimited_data_limit (u_data_limit u) then Some plan_limit
      else
        let remaining := Z.max 0 (or0 (u_data_limit u) - u_used_traffic u) in
        Some (plan_limit + remaining)
  end.

Definition billing_admin (d : DB) (admin_id : option Z) : option (Z * Admin) :=
  if truthy admin_id
  then match admins d !! or0 admin_id with
       | Some a => Some (or0 admin_id, a)
       | None => None
       end
  else None.

(** The [UserModify] a renewal sends through [crud.update_user]. *)
Definition renewal_modify (new_expire new_data_limit : option Z) (plan : Plan) (locks : Locks)
    : UserModify :=
  let device := match locks !! "device_limit" with
                | Some n => Some n | None => p_device_limit plan end in
  mkUserModify (Some active) (Some (or0 new_data_limit)) (Some (or0 new_expire)) None None None
    (Some device) (Some <$> locks !! "speed_limit_up") (Some <$> locks !! "speed_limit_down").

Definition apply_plan_to_user (now uid : Z) (plan : Plan) : M DB unit :=
  let* row := gets (λ d, users d !! uid) in
  match row with
  | None => ret tt
  | Some u =>
      let new_expire := compute_renewal_expire now u plan in
      let new_data_limit := compute_renewal_data_limit u plan in
      when ((0 <? u_used_traffic u) || (0 <? u_overage_traffic u))
        (modify (reset_user_data_usage now uid) ;;; commit) ;;;
      let* locks := gets (λ d, resolve_locked_limits_for_admin d now
                      (billing_admin d (u_admin_id u)) None None None (Some plan)) in
      modify (update_user_row uid (λ u,
        (update_user now (renewal_modify new_expire new_data_limit plan locks) u).2)) ;;;
      commit
  end.

(** ** Orders *)
Definition create_user_order (now user_id : Z) (plan : Plan) (status : string) : M DB nat :=
  let* n := gets (λ d, length (orders d)) in
  modify (λ d, d <| orders := orders d ++
    [mkOrder user_id (p_id plan) (p_price plan) status
       (if String.eqb status "paid" then Some now else None) None] |>) ;;;
  commit ;;;
  ret n.

Definition mark_order_applied (now : Z) (order : nat) : M DB unit :=
  modify (λ d, d <| orders := alter (λ o,
    o <| o_status := "applied"%string |> <| o_applied_at := Some now |>
      <| o_paid_at := if is_none (o_paid_at o) then Some now else o_paid_at o |>)
    order (orders d) |>) ;;;
  commit.

(** ** Accounts of a portal login *)
Definition user_children (d : DB) (owner : Z) : list (Z * User) :=
  filter (λ p, u_portal_owner_user_id p.2 = Some owner) (map_to_list (users d)).

Definition id_desc (p q : Z * User) : bool := q.1 <=? p.1.

Definition list_owned_accounts (d : DB) (owner : Z) : list Z :=
  owner :: (sort_by id_desc (user_children d owner)).*1.

Definition assert_can_add_account (owner : Z) : M DB unit :=
  let* cap := gets (λ d, get_int d "portal.max_child_accounts" 20) in
  if cap <=? 0 then ret tt
  else
    let* owned := gets (λ d, Z.of_nat (length (user_children d owner))) in
    if cap <=? owned then raise (HTTPException 409 "Account limit reached") else ret tt.

Definition get_owned_account (owner : Z) (owner_name : string) (username : option string) : M DB Z :=
  let username := strip (default ""%string username) in
  if String.eqb username "" then raise (HTTPException 400 "Username required")
  else if String.eqb (lower owner_name) (lower username) then ret owner
  else
    let* child := gets (λ d, head (filter (λ p,
      same_username (u_username p.2) username = true ∧ u_portal_owner_user_id p.2 = Some owner)
      (map_to_list (users d)))) in
    match child with
    | None => raise (HTTPException 404 "Account not found")
    | Some (uid, _) => ret uid
    end.

(** ** User rows *)
Definition get_users_count (d : DB) (admin_id : Z) : Z :=
  Z.of_nat (length (filter (λ p, u_admin_id p.2 = Some admin_id) (map_to_list (users d)))).

Definition new_user_row (now : Z) (username : string) (admin_id : option Z)
    (expire data_limit device_limit speed_up speed_down : option Z) : User :=
  mkUser username active 0 0 0 0 (or_none data_limit) (or_none expire) admin_id None None None
    None now (Some now) false None None device_limit speed_up speed_down None None [] "live" None None
    "no_reset" None None.

(** [crud.create_user] for an active account without a next plan. *)
Definition create_user (now : Z) (username : string) (admin : option (Z * Admin))
    (expire data_limit device_limit speed_up speed_down : option Z) : M DB Z :=
  let* full := gets (λ d,
    match admin with
    | Some (aid, a) => match a_max_users a with
                       | Some m => m <=? get_users_count d aid
                       | None => false
                       end
    | None => false
    end) in
  if full then raise (ValueError "Reseller user limit reached")
  else if match admin with
          | Some (_, a) => negb (a_is_sudo a) &&
              match a_max_total_traffic a with
              | Some cap => cap <=? a_users_usage a
              | None => false
              end
          | None => false
          end
  then raise (ValueError "Reseller total-traffic limit reached")
  else
    let* uid := gets (λ d, next_key (users d)) in
    modify (λ d, d <| users := <[uid := new_user_row now username (fst <$> admin)
      expire data_limit device_limit speed_up speed_down]> (users d) |>) ;;;
    commit ;;;
    ret uid.

(** [except ValueError as exc: raise HTTPException(400)] *)
Definition value_error_400 {D A} (m : M D A) : M D A := λ s,
  match m s with
  | (Raise (ValueError msg), s') => (Raise (HTTPException 400 msg), s')
  | r => r
  end.

(** The created row's owner, and the owner's reseller when it has none. *)
Definition link_to_owner (owner : Z) (owner_admin : option Z) (u : User) : User :=
  let u := u <| u_portal_owner_user_id := Some owner |> in
  if truthy owner_admin && negb (truthy (u_admin_id u))
  then u <| u_admin_id := owner_admin |> else u.

Definition create_account_from_plan (now owner : Z) (plan : Plan) (username : option string)
    : M DB Z :=
  let* username := require_available_portal_username username in
  let* owner_admin := gets (λ d, users d !! owner ≫= u_admin_id) in
  let* admin := gets (λ d, billing_admin d owner_admin) in
  let* locks := gets (λ d,
    resolve_locked_limits_for_admin d now admin None None None (Some plan)) in
  let device := match locks !! "device_limit" with
                | Some n => Some n | None => p_device_limit plan end in
  let* uid := value_error_400 (create_user now username admin (compute_fresh_expire now plan)
                (p_data_limit plan) device (locks !! "speed_limit_up")
                (locks !! "speed_limit_down")) in
  modify (update_user_row uid (link_to_owner owner owner_admin)) ;;;
  commit ;;;
  ret uid.

(** [crud.remove_users_by_ids] with the dependent rows it purges or detaches. *)
Definition remove_users_by_ids (ids : list Z) : M DB Z :=
  match ids with
  | [] => ret 0
  | _ =>
      let* n := gets (λ d, Z.of_nat (size (filter (λ p, p.1 ∈ ids) (users d)))) in
      modify (λ d, d <| node_user_usages := filter (λ r, nu_user_id r ∉ ids) (node_user_usages d) |>
        <| orders := filter (λ o, o_user_id o ∉ ids) (orders d) |>
        <| intents := (λ i, if match pi_user_id i with
                               | Some u => bool_decide (u ∈ ids) | None => false end
                            then mkIntent (pi_kind i) (pi_admin_id i) None (pi_plan_id i)
                                   (pi_amount i) (pi_provider i) (pi_status i) (pi_extra i)
                                   (pi_created_at i) (pi_completed_at i)
                            else i) <$> intents d |>) ;;;
      (* the row's children keep existing: ON DELETE SET NULL *)
      modify (λ d, d <| users := (λ u,
        if match u_portal_owner_user_id u with
           | Some o => bool_decide (o ∈ ids) | None => false end
        then u <| u_portal_owner_user_id := None |> else u)
        <$> filter (λ p, p.1 ∉ ids) (users d) |>) ;;;
      commit ;;;
      ret n
  end.

Definition delete_owned_account (owner : Z) (owner_name : string) (username : option string)
    : M DB unit :=
  let* target := get_owned_account owner owner_name username in
  if target =? owner then raise (HTTPException 400 "Cannot delete the portal login account")
  else remove_users_by_ids [target] ;;; ret tt.

End Portal.

(** ** Catalogue scoping, [app/tenant/plan_ops.py] *)
Module PlanOps.
Import Portal.

(** The calling admin: token username and sudo flag. *)
Record Caller := mkCaller { c_username : string; c_is_sudo : bool }.

Definition admin_tenant_id (d : DB) (c : Caller) : option Z :=
  if c_is_sudo c then None
  else match get_admin d (c_username c) with
       | Some (_, a) => a_tenant_id a
       | None => None
       end.

Definition reseller_plan_scope (c : Caller) : M DB (option Z * option Z) :=
  if c_is_sudo c then ret (None, None)
  else
    let* row := gets (λ d, get_admin d (c_username c)) in
    match row with
    | None => raise (HTTPException 400 "Admin not found in database")
    | Some (aid, _) =>
        let* t := gets (λ d, admin_tenant_id d c) in
        ret (t, Some aid)
    end.

Definition scope_plans_query (l : list Plan) (owner_admin_id : option Z) (sudo : bool) : list Plan :=
  if sudo then l
  else match owner_admin_id with
       | None => []
       | Some o => filter (λ p, p_owner_admin_id p = Some o) l
       end.

Definition by_id (p q : Plan) : bool := p_id p <=? p_id q.

Definition enabled_plans (enabled_only : bool) (l : list Plan) : list Plan :=
  if enabled_only then filter (λ p, p_enabled p = true) l else l.

Definition get_scoped_plans (c : Caller) (enabled_only : bool) : M DB (list Plan) :=
  let* sc := reseller_plan_scope c in
  gets (λ d, sort_by by_id
    (scope_plans_query (enabled_plans enabled_only (plans d)) sc.2 (c_is_sudo c))).

Definition get_global_plans (d : DB) (enabled_only : bool) : list Plan :=
  sort_by by_id (enabled_plans enabled_only
    (filter (λ p, p_tenant_id p = None ∧ p_owner_admin_id p = None) (plans d))).

Definition get_plans_for_user_reseller (d : DB) (admin_id : Z) (enabled_only : bool) : list Plan :=
  match admins d !! admin_id with
  | None => []
  | Some _ => sort_by by_id (enabled_plans enabled_only
                (filter (λ p, p_owner_admin_id p = Some admin_id) (plans d)))
  end.

Definition get_plans_for_portal_user (d : DB) (u : User) (enabled_only : bool) : list Plan :=
  if truthy (u_admin_id u)
  then get_plans_for_user_reseller d (or0 (u_admin_id u)) enabled_only
  else get_global_plans d enabled_only.

Definition plan_available_for_portal_user (u : User) (plan : Plan) : bool :=
  if negb (p_enabled plan) then false
  else if negb (truthy (u_admin_id u))
  then is_none (p_tenant_id plan) && is_none (p_owner_admin_id plan)
  else bool_decide (p_owner_admin_id plan = u_admin_id u).

Definition assert_plan_accessible (c : Caller) (plan : Plan) : M DB unit :=
  if c_is_sudo c then ret tt
  else
    let* sc := reseller_plan_scope c in
    if negb (is_none sc.2) && bool_decide (p_owner_admin_id plan = sc.2) then ret tt
    else raise (HTTPException 403 "Plan not in your catalog").

Definition assert_plan_for_user (user_admin_id : option Z) (plan : Plan) : M DB unit :=
  if negb (truthy user_admin_id) then
    if is_none (p_tenant_id plan) && is_none (p_owner_admin_id plan) then ret tt
    else raise (HTTPException 403 "Plan not available for this user")
  else if bool_decide (p_owner_admin_id plan = user_admin_id) then ret tt
  else raise (HTTPException 403 "Plan not available for this user").

Definition plan_name_taken (d : DB) (name : string) (tenant_id owner_admin_id exclude_id : option Z)
    : bool :=
  existsb (λ p, String.eqb (p_name p) name
    && match owner_admin_id with
       | None => is_none (p_owner_admin_id p) && bool_decide (p_tenant_id p = tenant_id)
       | Some o => bool_decide (p_owner_admin_id p = Some o)
       end
    && match exclude_id with Some x => negb (p_id p =? x) | None => true end) (plans d).

End PlanOps.

Module PortalFacts.
Import Quota Lifecycle LifecycleFacts Wallet Ledger Tariffs Portal.

Lemma recharge_clear n u :
  u_used_traffic u = 0 → u_overage_traffic u = 0 → 0 ≤ n →
  recharge_usage n u = u <| u_data_limit := or_none (Some n) |>.
Proof.
  intros Hu Ho Hn. unfold recharge_usage, or_none, apply_overage_on_recharge.
  destruct (n =? 0); row_frame; rewrite Ho; [done|].
  cbn [Z.leb Z.compare]. row_frame. rewrite Hu.
  by destruct (Z.ltb_spec n 0); [lia|].
Qed.

(** The edit with an explicit [active] status, on a row whose counters are
    clear, sets the limits it names and nothing else of the quota state. *)
Lemma update_user_active now m u n e :
  md_status m = Some active → md_on_hold_expire_duration m = None → md_on_hold_timeout m = None →
  md_data_limit m = Some n → md_expire m = Some e →
  u_used_traffic u = 0 → u_overage_traffic u = 0 → 0 ≤ n →
  let u' := (update_user now m u).2 in
  u_status u' = active ∧ u_used_traffic u' = 0 ∧ u_overage_traffic u' = 0 ∧
  u_data_limit u' = or_none (Some n) ∧ u_expire u' = or_none (Some e) ∧
  u_usage_logs u' = u_usage_logs u ∧ u_admin_id u' = u_admin_id u ∧
  (∀ v, md_device_limit m = Some v → u_device_limit u' = or_none v).
Proof.
  intros Hst Hh1 Hh2 Hdl He Hu Ho Hn. unfold update_user, update_user_explicit_status.
  rewrite Hst. cbn [status_in existsb status_eqb negb orb]. rewrite Hh1, Hh2. cbn [is_none].
  set (u1 := over u_last_status_change _ _). unfold update_user_data_limit. rewrite Hdl.
  rewrite (recharge_clear n u1 Hu Ho Hn). rewrite Hst. cbn [is_none andb].
  set (u2 := over u_data_limit _ u1). unfold update_user_expire. rewrite He, Hst.
  cbn [is_none andb]. set (u3 := over u_expire _ u2).
  assert (H3 : u_status u3 = active ∧ u_used_traffic u3 = 0 ∧ u_overage_traffic u3 = 0 ∧
    u_data_limit u3 = or_none (Some n) ∧ u_expire u3 = or_none (Some e) ∧
    u_usage_logs u3 = u_usage_logs u ∧ u_admin_id u3 = u_admin_id u)
    by (split_and!; first [exact Hu | exact Ho | reflexivity]).
  clearbody u3. clear u1 u2. unfold update_user_finish. rewrite Hh1, Hh2. cbn [if_some snd].
  set (u4 := over u_edit_at _ _).
  assert (Hr : (reactivate_if_quota_available now u4).2 = u4).
  { unfold reactivate_if_quota_available.
    assert (u_status u4 = active) as ->; [|done].
    subst u4. repeat (row_frame; rewrite if_some_frame by done). row_frame. apply H3. }
  rewrite Hr.
  match goal with |- context [if ?b then u4 else u4] =>
    replace (if b then u4 else u4) with u4 by (by destruct b) end.
  subst u4. split_and!; try (repeat (row_frame; rewrite if_some_frame by done); row_frame; apply H3).
  intros v Hv. repeat (row_frame; rewrite (if_some_frame u_device_limit) by done).
  row_frame. rewrite Hv. done.
Qed.

Lemma renewal_limit_nonneg u plan : 0 ≤ or0 (compute_renewal_data_limit u plan).
Proof.
  unfold compute_renewal_data_limit, normalize_data_limit.
  destruct (p_data_limit plan) as [pl|]; cbn; [|lia]. destruct (Z.leb_spec pl 0); cbn; [lia|].
  destruct (is_unlimited_data_limit _); cbn; lia.
Qed.

Lemma renewal_limit_positive u plan :
  or_none (Some (or0 (compute_renewal_data_limit u plan))) = compute_renewal_data_limit u plan.
Proof.
  unfold compute_renewal_data_limit, normalize_data_limit.
  destruct (p_data_limit plan) as [pl|]; cbn; [|done]. destruct (Z.leb_spec pl 0); cbn; [done|].
  destruct (is_unlimited_data_limit _); cbn.
  - by destruct (Z.eqb_spec pl 0); [lia|].
  - by destruct (Z.eqb_spec (pl + (0 `max` (or0 (u_data_limit u) - u_used_traffic u))) 0); [lia|].
Qed.

(** A renewal resets the counters first, if there is anything to reset. *)
Definition has_usage (u : User) : bool := (0 <? u_used_traffic u) || (0 <? u_overage_traffic u).
Definition reset_if_used (now : Z) (u : User) : User := if has_usage u then reset_user_row now u else u.
Definition clear_if_used (uid : Z) (u : User) (d : DB) : DB :=
  if has_usage u then clear_node_usages uid d else d.

Lemma reset_clears now u :
  0 ≤ u_used_traffic u → 0 ≤ u_overage_traffic u →
  let u1 := reset_if_used now u in
  u_used_traffic u1 = 0 ∧ u_overage_traffic u1 = 0 ∧
  sumZ (λ x, x) (u_usage_logs u1) = lifetime_used_traffic u ∧ u_admin_id u1 = u_admin_id u.
Proof.
  intros H1 H2. unfold lifetime_used_traffic, reset_if_used, has_usage.
  destruct (Z.ltb_spec 0 (u_used_traffic u)), (Z.ltb_spec 0 (u_overage_traffic u)); cbn [orb];
    try (unfold reset_user_row; destruct u as [un []]; cbn; autorewrite with sumZ;
         split_and!; (done || lia)).
  split_and!; (done || lia).
Qed.

Lemma reset_if_used_run now uid d u : users d !! uid = Some u →
  when (has_usage u) (modify (reset_user_data_usage now uid) ;;; commit) (mkSession d d) =
  (Ok tt, let d1 := clear_if_used uid u (d <| users := <[uid := reset_if_used now u]> (users d) |>) in mkSession d1 d1).
Proof.
  intros Hu. unfold clear_if_used, reset_if_used. destruct (has_usage u); cbn.
  - unfold reset_user_data_usage, update_user_row. by rewrite (alter_eq_insert _ _ _ u Hu).
  - rewrite insert_id by done. by destruct d.
Qed.

Lemma renewed_db uid u u1 f d :
  update_user_row uid f (clear_if_used uid u (d <| users := <[uid := u1]> (users d) |>))
  = d <| users := <[uid := f u1]> (users d) |>
      <| node_user_usages := (if has_usage u then filter (λ x, nu_user_id x ≠ uid) (node_user_usages d)
                              else node_user_usages d) |>.
Proof.
  unfold clear_if_used, clear_node_usages, update_user_row.
  destruct (has_usage u), d; cbn; f_equal; by rewrite alter_insert_eq.
Qed.

(** What the renewed limit and expiry come to. *)
Lemma renewed_remaining u plan u' pl l :
  u_used_traffic u' = 0 → u_data_limit u' = compute_renewal_data_limit u plan →
  normalize_data_limit (p_data_limit plan) = Some pl → normalize_data_limit (u_data_limit u) = Some l →
  remaining_traffic u' = Some (pl + Z.max 0 (l - u_used_traffic u)).
Proof.
  intros Hus Hdl Hpl Hl. unfold remaining_traffic. rewrite Hdl, Hus.
  unfold compute_renewal_data_limit, is_unlimited_data_limit. rewrite Hpl, Hl. cbn.
  unfold normalize_data_limit in Hl, Hpl. destruct (u_data_limit u) as [x|]; [|done].
  destruct (p_data_limit plan) as [y|]; [|done].
  destruct (Z.leb_spec x 0), (Z.leb_spec y 0); simplify_eq. cbn.
  destruct (Z.ltb_spec 0 (pl + (0 `max` (l - u_used_traffic u)))); [|lia]. f_equal. lia.
Qed.

Lemma renewed_expire now u plan k :
  0 < now → p_duration_days plan = Some k → 0 < k →
  or_none (Some (or0 (compute_renewal_expire now u plan))) = Some (Z.max now (or0 (u_expire u)) + k * 86400).
Proof.
  intros Hnow Hk Hk0. unfold compute_renewal_expire. rewrite Hk. cbn [truthy or0].
  destruct (Z.eqb_spec k 0); [lia|]. cbn [negb].
  destruct (u_expire u) as [e|]; cbn [truthy or0 andb].
  - destruct (Z.eqb_spec e 0), (Z.ltb_spec now e); cbn [negb andb or_none]; subst;
      match goal with |- context [Some ?x] => destruct (Z.eqb_spec x 0) end; (lia || (f_equal; lia)).
  - cbn [or_none]. destruct (Z.eqb_spec (now + k * 86400) 0); [lia|]. f_equal. lia.
Qed.

(** C37. A paid renewal gives the customer exactly what was sold on top of what
    was left: the account is active with clear counters, lifetime usage is
    kept, a volume plan adds its bytes to the unused remainder of a volume
    account, an unlimited plan removes the limit, a timed plan extends from the
    later of now and the old expiry.  Beside the row it touches one thing: if there
    was usage, the hourly rows of this user are erased; no other row of any table
    moves. *)
Theorem apply_plan_renews now uid plan d u :
  users d !! uid = Some u → 0 ≤ u_used_traffic u → 0 ≤ u_overage_traffic u → 0 < now →
  let '(r, d') := run_session (apply_plan_to_user now uid plan) d in
  r = Ok tt ∧
  ∃ u', d' = d <| users := <[uid := u']> (users d) |>
               <| node_user_usages :=
                    (if has_usage u then filter (λ x, nu_user_id x ≠ uid) (node_user_usages d)
                     else node_user_usages d) |> ∧ u_status u' = active ∧
    u_used_traffic u' = 0 ∧ u_overage_traffic u' = 0 ∧
    lifetime_used_traffic u' = lifetime_used_traffic u ∧
    (∀ pl l, normalize_data_limit (p_data_limit plan) = Some pl →
       normalize_data_limit (u_data_limit u) = Some l →
       remaining_traffic u' = Some (pl + Z.max 0 (l - u_used_traffic u))) ∧
    (normalize_data_limit (p_data_limit plan) = None → u_data_limit u' = None) ∧
    (∀ k, p_duration_days plan = Some k → 0 < k →
       u_expire u' = Some (Z.max now (or0 (u_expire u)) + k * 86400)).
Proof.
  intros Hu H1 H2 Hnow. unfold run_session, apply_plan_to_user. rewrite bind_gets. cbn [work].
  rewrite Hu. cbv zeta. fold (has_usage u).
  destruct (reset_clears now u H1 H2) as (Hu1 & Ho1 & Hlog & Hadm).
  rewrite (bind_ok _ _ _ _ _ (reset_if_used_run now uid d u Hu)), bind_gets. cbn [work].
  set (u1 := reset_if_used now u) in *. set (d1 := clear_if_used uid u _).
  set (L := resolve_locked_limits_for_admin _ _ _ _ _ _ _). clearbody L.
  rewrite bind_modify. unfold commit. cbn [work saved]. set (m := renewal_modify _ _ _ _).
  destruct (update_user_active now m u1 _ _ eq_refl eq_refl eq_refl eq_refl eq_refl Hu1 Ho1
    (renewal_limit_nonneg u plan)) as (Hst & Hus & Hov & Hdl & Hex & Hlg & _).
  rewrite renewal_limit_positive in Hdl. split; [done|].
  exists (update_user now m u1).2. split_and!; try done.
  - exact (renewed_db uid u u1 (λ u, (update_user now m u).2) d).
  - unfold lifetime_used_traffic. rewrite Hlg, Hus, Hlog. unfold lifetime_used_traffic. lia.
  - intros pl l. by apply renewed_remaining.
  - intros Hpl. rewrite Hdl. unfold compute_renewal_data_limit. by rewrite Hpl.
  - intros k Hk Hk0. rewrite Hex. by apply renewed_expire.
Qed.

Lemma apply_plan_renews_witness :
  let u := sample_user <| u_data_limit := Some 100 |> <| u_used_traffic := 70 |>
             <| u_expire := Some 1000 |> in
  let plan := mkPlan 1 "p" 10 (Some 50) (Some 30) None true None None in
  let d := empty_db <| users := {[ 1 := u ]} |> <| node_user_usages := [mkNodeUserUsage 1 None 0 70] |> in
  let d' := (run_session (apply_plan_to_user 500 1 plan) d).2 in
  node_user_usages d' = [] ∧
  ∃ u', users d' !! 1 = Some u' ∧
    remaining_traffic u' = Some 80 ∧ u_expire u' = Some (1000 + 30 * 86400).
Proof.
  pose proof (apply_plan_renews 500 1 (mkPlan 1 "p" 10 (Some 50) (Some 30) None true None None)
    (empty_db <| users := {[ 1 := sample_user <| u_data_limit := Some 100 |>
       <| u_used_traffic := 70 |> <| u_expire := Some 1000 |> ]} |>
       <| node_user_usages := [mkNodeUserUsage 1 None 0 70] |>)
    (sample_user <| u_data_limit := Some 100 |> <| u_used_traffic := 70 |>
             <| u_expire := Some 1000 |>) eq_refl ltac:(cbn; lia) ltac:(cbn; lia) ltac:(lia)) as H.
  cbv zeta. destruct (run_session _ _) as [r d'].
  destruct H as (_ & u' & -> & _ & _ & _ & _ & Hrem & _ & Hexp). split; [reflexivity|].
  exists u'. split; [reflexivity|]. split; [exact (Hrem 50 100 eq_refl eq_refl)|].
  exact (Hexp 30 eq_refl ltac:(lia)).
Defined.

(** The erased rows are the ones the own-node share of a reseller's bill is computed from:
    once the only customer seen in the last day is reset, all unbilled bytes count as
    carried by the panel's nodes, and the discount for own nodes is lost. *)
Lemma reset_forfeits_own_node_share now uid d aid tid delta :
  (∀ r, r ∈ node_user_usages d → nu_user_id r = uid) → 0 < delta →
  UsageBilling.ownership_ratio_split (reset_user_data_usage now uid d) now aid tid delta = UsageBilling.mkSplit 0 delta.
Proof.
  intros Hrows Hd. unfold UsageBilling.ownership_ratio_split. rewrite Z.max_r by lia.
  rewrite (proj2 (Z.leb_gt delta 0)) by lia. unfold UsageBilling.aggregate_reseller_usage.
  assert (node_user_usages (reset_user_data_usage now uid d) = []) as ->; [|done].
  unfold reset_user_data_usage, clear_node_usages, update_user_row. cbn.
  induction (node_user_usages d) as [|r rows IH]; [done|]. rewrite filter_cons_False.
  - apply IH. intros x Hx. apply Hrows. by constructor.
  - intros H. apply H, Hrows. constructor.
Qed.

Example own_node_share_lost :
  let u := sample_user <| u_admin_id := Some 2 |> <| u_data_limit := Some 100 |> <| u_used_traffic := 70 |> in
  let d := empty_db <| users := {[ 1 := u ]} |> <| nodes := {[ 3 := mkNode None (Some 2) ]} |>
             <| node_user_usages := [mkNodeUserUsage 1 (Some 3) 400 70] |> in
  (UsageBilling.ownership_ratio_split d 500 2 None 70,
   UsageBilling.ownership_ratio_split (reset_user_data_usage 500 1 d) 500 2 None 70)
  = (UsageBilling.mkSplit 70 0, UsageBilling.mkSplit 0 70).
Proof. vm_compute. reflexivity. Qed.

(** *** Accounts *)
Definition unique_usernames (d : DB) : Prop :=
  ∀ i j u v, users d !! i = Some u → users d !! j = Some v →
    same_username (u_username u) (u_username v) = true → i = j.

Lemma find_user_None d name i u :
  find_user d name = None → users d !! i = Some u → same_username (u_username u) name = false.
Proof.
  unfold find_user. intros H Hu. destruct (same_username (u_username u) name) eqn:E; [|done].
  assert (Hin : (i, u) ∈ filter (λ p, same_username (u_username p.2) name = true)
    (map_to_list (users d))).
  { apply list_elem_of_filter. by rewrite elem_of_map_to_list. }
  destruct (filter _ _) as [|p l]; [by apply elem_of_nil in Hin|done].
Qed.

Lemma require_username_run d name :
  (∃ st m, require_available_portal_username name (mkSession d d)
     = (Raise (HTTPException st m), mkSession d d) ∧ (st = 400 ∨ st = 409)) ∨
  (require_available_portal_username name (mkSession d d)
     = (Ok (normalize_username name), mkSession d d) ∧
   username_format_ok (normalize_username name) = true ∧
   find_user d (normalize_username name) = None ∧ get_admin d (normalize_username name) = None).
Proof.
  unfold require_available_portal_username, check_portal_username. rewrite bind_gets. cbn [work].
  set (u := normalize_username name).
  destruct (String.length u <? 3)%nat; [left; by eauto 10|].
  destruct (32 <? String.length u)%nat; [left; by eauto 10|]. cbn [orb].
  destruct (username_format_ok u); [|left; by eauto 10]. cbn [negb].
  destruct (find_user d u); [left; by eauto 10|]. cbn [is_none negb orb].
  destruct (get_admin d u); [left; by eauto 10|]. right. by split_and!.
Qed.

Lemma create_user_run now name admin e dl dev su sd d :
  (∃ m, create_user now name admin e dl dev su sd (mkSession d d)
     = (Raise (ValueError m), mkSession d d)) ∨
  (let d1 := d <| users := <[next_key (users d) :=
       new_user_row now name (fst <$> admin) e dl dev su sd]> (users d) |> in
   create_user now name admin e dl dev su sd (mkSession d d)
     = (Ok (next_key (users d)), mkSession d1 d1)).
Proof.
  unfold create_user. rewrite bind_gets. cbn [work].
  match goal with |- context [if ?b then raise _ else _] => destruct b; [left; by eauto|] end.
  match goal with |- context [if ?b then raise _ else _] => destruct b; [left; by eauto|] end.
  by right.
Qed.

(** Adding a row with an unused name keeps names unique. *)
Lemma unique_insert d d' uid row nm :
  unique_usernames d → find_user d nm = None → u_username row = nm →
  users d' = <[uid := row]> (users d) → unique_usernames d'.
Proof.
  intros Huniq Hfree Hname Hus i j u v. rewrite Hus, !lookup_insert.
  repeat case_decide; subst; try done.
  - intros [= <-] Hj. unfold same_username. rewrite String.eqb_sym.
    intros Hs. exfalso. pose proof (find_user_None d (u_username row) j v Hfree Hj) as Hn.
    unfold same_username in Hn. congruence.
  - intros Hi [= <-] Hs. exfalso. by rewrite (find_user_None d (u_username row) i u Hfree Hi) in Hs.
  - by apply Huniq.
Qed.

(** Buying an account creates exactly one row and touches no other: the new
    row has a fresh id and a well-formed, case-insensitively unused name, is
    active with the plan's limits, belongs to the paying login and its
    reseller; when creation is refused (400 or 409) the database is unchanged.
    Usernames stay unique. *)
Theorem create_account_spec now owner plan name d ow :
  users d !! owner = Some ow → unique_usernames d →
  let '(r, d') := run_session (create_account_from_plan now owner plan name) d in
  unique_usernames d' ∧
  match r with
  | Raise e => d' = d ∧ ∃ st m, e = HTTPException st m ∧ (st = 400 ∨ st = 409)
  | Ok uid =>
      users d !! uid = None ∧ wallets d' = wallets d ∧ transactions d' = transactions d ∧
      (∀ v, v ≠ uid → users d' !! v = users d !! v) ∧
      ∃ u, users d' !! uid = Some u ∧ u_username u = normalize_username name ∧
        username_format_ok (u_username u) = true ∧
        u_status u = active ∧ u_used_traffic u = 0 ∧
        u_data_limit u = or_none (p_data_limit plan) ∧
        u_expire u = or_none (compute_fresh_expire now plan) ∧
        u_portal_owner_user_id u = Some owner ∧
        (truthy (u_admin_id ow) = true → u_admin_id u = u_admin_id ow)
  end.
Proof.
  intros Hown Huniq. unfold run_session.
  remember (create_account_from_plan now owner plan name (mkSession d d)) as R eqn:E.
  unfold create_account_from_plan in E.
  destruct (require_username_run d name) as [(st & m & Hr & Hst)|(Hr & Hfmt & Hfree & _)].
  { rewrite (bind_raise _ _ _ _ _ Hr) in E. subst R. cbn. eauto 10. }
  rewrite (bind_ok _ _ _ _ _ Hr), !bind_gets in E. cbn [work] in E. rewrite Hown in E.
  cbn [mbind option_bind] in E. clear Hr. set (nm := normalize_username name) in *.
  set (adm := billing_admin d (u_admin_id ow)) in E. set (L := resolve_locked_limits_for_admin _ _ _ _ _ _ _) in E.
  cbv zeta in E. set (dev := match L !! "device_limit" with Some _ => _ | None => _ end) in E.
  destruct (create_user_run now nm adm (compute_fresh_expire now plan) (p_data_limit plan) dev
    (L !! "speed_limit_up") (L !! "speed_limit_down") d) as [[m Hc]|Hc].
  { assert (Hv : value_error_400 (create_user now nm adm (compute_fresh_expire now plan)
      (p_data_limit plan) dev (L !! "speed_limit_up") (L !! "speed_limit_down")) (mkSession d d)
      = (Raise (HTTPException 400 m), mkSession d d)) by (unfold value_error_400; by rewrite Hc).
    rewrite (bind_raise _ _ _ _ _ Hv) in E. subst R. cbn. eauto 10. }
  cbv zeta in Hc. set (d1 := d <| users := _ |>) in Hc. set (uid := next_key (users d)) in *.
  assert (Hv : value_error_400 (create_user now nm adm (compute_fresh_expire now plan)
      (p_data_limit plan) dev (L !! "speed_limit_up") (L !! "speed_limit_down")) (mkSession d d)
      = (Ok uid, mkSession d1 d1)) by (unfold value_error_400; by rewrite Hc).
  rewrite (bind_ok _ _ _ _ _ Hv), bind_modify in E. cbn [work saved] in E. clear Hv Hc.
  subst R. unfold commit, bind, ret. cbn [work saved].
  set (row := new_user_row _ _ _ _ _ _ _ _) in *. set (f := link_to_owner owner (u_admin_id ow)).
  assert (Hus : users (update_user_row uid f d1) = <[uid := f row]> (users d)).
  { unfold update_user_row. cbn [over users]. rewrite (alter_eq_insert _ _ _ row).
    - subst d1. cbn [over users]. by rewrite insert_insert_eq.
    - subst d1. cbn [over users]. by rewrite lookup_insert_eq. }
  assert (Hfresh : users d !! uid = None) by apply next_key_fresh.
  assert (Hname : u_username (f row) = nm) by (subst f; unfold link_to_owner; by destruct (_ && _)).
  split; [by apply (unique_insert d _ uid (f row) nm)|].
  split; [done|]. split; [done|]. split; [done|]. split.
  { intros v Hv. rewrite Hus. by rewrite lookup_insert_ne. }
  exists (f row). rewrite Hus, lookup_insert_eq, Hname. split; [done|].
  split_and!; try done; try (subst f; unfold link_to_owner; by destruct (_ && _)).
  intros Ht. subst f. unfold link_to_owner. change (u_admin_id (over u_portal_owner_user_id _ row))
    with (u_admin_id row). rewrite Ht. destruct (truthy (u_admin_id row)) eqn:Hrow; cbn; [|done].
  subst row adm. unfold billing_admin in *. rewrite Ht in *. cbn in Hrow |- *.
  destruct (admins d !! or0 (u_admin_id ow)); cbn in *; [|done].
  by destruct (u_admin_id ow).
Qed.

Lemma create_account_spec_witness :
  let d := empty_db <| users := {[ 1 := sample_user ]} |> in
  let plan := mkPlan 1 "p" 10 (Some 50) (Some 30) None true None None in
  unique_usernames (run_session (create_account_from_plan 500 1 plan (Some "Bob_2"%string)) d).2.
Proof.
  pose proof (create_account_spec 500 1 (mkPlan 1 "p" 10 (Some 50) (Some 30) None true None None)
    (Some "Bob_2"%string) (empty_db <| users := {[ 1 := sample_user ]} |>) sample_user eq_refl) as H.
  assert (Hu : unique_usernames (empty_db <| users := {[ 1 := sample_user ]} |>)).
  { intros i j u v. cbn. rewrite !lookup_singleton. repeat case_decide; congruence. }
  specialize (H Hu). cbv zeta. destruct (run_session _ _) as [r d']. exact (proj1 H).
Defined.

Lemma head_filter_elem {A} (P : A → Prop) `{∀ x, Decision (P x)} (l : list A) x :
  head (filter P l) = Some x → x ∈ l ∧ P x.
Proof.
  destruct (filter P l) as [|y k] eqn:E; [done|]. intros [= ->].
  assert (Hin : x ∈ filter P l) by (rewrite E; constructor).
  apply list_elem_of_filter in Hin. naive_solver.
Qed.

(** A portal login can only delete its own accounts: a successful delete
    removes one account that login bought (never the login itself), keeps every
    other user, the wallets and the ledger, and keeps the payment history,
    detached from the removed user; otherwise it fails with 400 or 404 and the
    database is unchanged. *)
Theorem delete_owned_account_isolated owner oname name d :
  let '(r, d') := run_session (delete_owned_account owner oname name) d in
  match r with
  | Raise e => d' = d ∧ ∃ st m, e = HTTPException st m ∧ (st = 400 ∨ st = 404)
  | Ok _ => ∃ uid u, users d !! uid = Some u ∧ u_portal_owner_user_id u = Some owner ∧
      uid ≠ owner ∧ users d' !! uid = None ∧
      (∀ v, v ≠ uid → is_Some (users d' !! v) ↔ is_Some (users d !! v)) ∧
      wallets d' = wallets d ∧ transactions d' = transactions d ∧
      dom (intents d') = dom (intents d) ∧
      (∀ pid i, intents d' !! pid = Some i → pi_user_id i ≠ Some uid)
  end.
Proof.
  unfold run_session, delete_owned_account, get_owned_account.
  set (nm := strip _). destruct (String.eqb nm ""); [cbn; by eauto 10|].
  destruct (String.eqb (lower oname) (lower nm)).
  { unfold bind, ret. rewrite Z.eqb_refl. cbn. eauto 10. }
  unfold bind at 2. unfold gets at 1. cbn [work].
  unfold bind at 1. destruct (head _) as [[uid u]|] eqn:Eh; [|cbn; by eauto 10].
  unfold ret at 1. apply head_filter_elem in Eh as [Hin [Hs Ho]]. apply elem_of_map_to_list in Hin.
  destruct (Z.eqb_spec uid owner); [cbn; by eauto 10|]. cbn [work saved].
  unfold bind, remove_users_by_ids, bind, gets, modify, commit, ret. cbn [work saved].
  exists uid, u. split; [done|]. split; [done|]. split; [done|].
  cbn [over users wallets transactions intents].
  split_and!; try done.
  - rewrite lookup_fmap, map_lookup_filter_None_2; [done|]. right. set_solver.
  - intros v Hv. rewrite lookup_fmap, fmap_is_Some. unfold is_Some.
    setoid_rewrite map_lookup_filter_Some. set_solver.
  - by rewrite dom_fmap_L.
  - intros pid i. rewrite lookup_fmap. destruct (intents d !! pid) as [j|]; cbn; [|done].
    intros [= <-]. destruct (pi_user_id j) as [w|] eqn:Ej; cbn; [|by rewrite Ej].
    case_bool_decide as Hw; cbn; [done|]. rewrite Ej. set_solver.
Qed.

End PortalFacts.

Module PlanOpsFacts.
Import Portal PlanOps.

(** The portal catalogue, the availability flag and the checkout guard
    agree: an enabled plan is listed for a customer exactly when it is
    available to them, which is exactly when the checkout guard lets it pass,
    so one reseller's customers never see or buy another's plans. *)
Theorem portal_catalogue_agrees d u plan s :
  plan ∈ plans d → p_enabled plan = true →
  (truthy (u_admin_id u) = true → is_Some (admins d !! or0 (u_admin_id u))) →
  (plan ∈ get_plans_for_portal_user d u true ↔ plan_available_for_portal_user u plan = true) ∧
  (plan_available_for_portal_user u plan = true ↔
     assert_plan_for_user (u_admin_id u) plan s = (Ok tt, s)).
Proof.
  intros Hin He Hadm. unfold plan_available_for_portal_user, get_plans_for_portal_user,
    assert_plan_for_user. rewrite He. cbn [negb].
  destruct (truthy (u_admin_id u)) eqn:Ht; cbn [negb].
  - destruct (Hadm eq_refl) as [a Ha]. destruct (u_admin_id u) as [aid|]; [|done]. cbn [or0] in *.
    split.
    + unfold get_plans_for_user_reseller. rewrite Ha, elem_of_sort_by. cbn [enabled_plans].
      rewrite !list_elem_of_filter, bool_decide_eq_true. naive_solver.
    + case_bool_decide; cbn; naive_solver.
  - split.
    + unfold get_global_plans. rewrite elem_of_sort_by. cbn [enabled_plans].
      rewrite !list_elem_of_filter. destruct (p_tenant_id plan), (p_owner_admin_id plan); cbn;
        naive_solver.
    + destruct (is_none (p_tenant_id plan) && is_none (p_owner_admin_id plan)); cbn; naive_solver.
Qed.

Lemma portal_catalogue_agrees_witness :
  let p := mkPlan 1 "p" 10 (Some 50) (Some 30) None true None (Some 7) in
  let d := empty_db <| plans := [p] |>
    <| admins := {[ 7 := mkAdmin "r" false 0 None None 0 None None None 0 ]} |> in
  p ∈ get_plans_for_portal_user d (sample_user <| u_admin_id := Some 7 |>) true.
Proof.
  refine (proj2 (proj1 (portal_catalogue_agrees
    (empty_db <| plans := [mkPlan 1 "p" 10 (Some 50) (Some 30) None true None (Some 7)] |>
       <| admins := {[ 7 := mkAdmin "r" false 0 None None 0 None None None 0 ]} |>)
    (sample_user <| u_admin_id := Some 7 |>)
    (mkPlan 1 "p" 10 (Some 50) (Some 30) None true None (Some 7)) (mkSession empty_db empty_db)
    _ eq_refl _)) eq_refl); [left|]. intros _. eexists. reflexivity.
Defined.

End PlanOpsFacts.
