(* ===== verification/Payments.v ===== *)
(** * Payments: payment intents, review and settlement

    [app/billing/payments.py].  An intent is created [pending], may go to
    [awaiting_review] (card receipts), and ends [completed], [rejected],
    [expired] or [failed].  The gateways of [app/billing/providers.py] are
    network services: what a gateway answers ([create_payment], [verify]) and
    whether a provider may be used are arguments of the operations.  Messages,
    push notifications and the live cores are left out. *)
From stdpp Require Import pretty.
From S2P Require Import Prelude Store Users Wallet UsageBilling Tariffs Caps Portal.

Module Payments.
Import Quota Lifecycle Wallet UsageBilling Tariffs Caps Portal PlanOps.

(** ** Expiry of unpaid checkouts; [ttl] is PORTAL_PAYMENT_PENDING_TTL_MINUTES *)
Definition portal_payment_ttl_minutes (ttl : Z) : Z :=
  Z.max 5 (if ttl =? 0 then 120 else ttl).

Definition portal_payment_expires_at (ttl created_at : Z) : Z :=
  created_at + portal_payment_ttl_minutes ttl * 60.

Definition is_portal_kind (kind : string) : bool :=
  String.eqb kind "portal_renew" || String.eqb kind "portal_purchase".

Definition is_portal_payment_expired (ttl now : Z) (i : PaymentIntent) : bool :=
  if negb (is_portal_kind (pi_kind i)) then false
  else if negb (String.eqb (lower (strip (pi_status i))) "pending") then false
  else match x_expires_at (pi_extra i) with
       | Some exp => exp <=? now
       | None => portal_payment_expires_at ttl (pi_created_at i) <=? now
       end.

Definition expire_intent (ttl now : Z) (i : PaymentIntent) : PaymentIntent :=
  i <| pi_status := "expired"%string |> <| pi_completed_at := Some now |>
    <| pi_extra := (pi_extra i) <| x_expired_at := Some now |>
         <| x_expires_at := match x_expires_at (pi_extra i) with
                            | Some e => Some e
                            | None => Some (portal_payment_expires_at ttl (pi_created_at i))
                            end |> |>.

Definition intent_id_asc (p q : Z * PaymentIntent) : bool := p.1 <=? q.1.

Definition expire_stale_portal_payments (ttl now limit : Z) : M DB Z :=
  let* due := query (λ d,
    take (Z.to_nat (Z.max 1 (Z.min limit 1000)))
      (sort_by intent_id_asc (filter (λ p,
         is_portal_kind (pi_kind p.2) = true ∧ pi_status p.2 = "pending"%string)
         (map_to_list (intents d))))) in
  let hit := (filter (λ p, is_portal_payment_expired ttl now p.2 = true) due).*1 in
  modify (λ d, d <| intents := map_imap (λ pid i, Some
    (if bool_decide (pid ∈ hit) then expire_intent ttl now i else i)) (intents d) |>) ;;;
  when (negb (bool_decide (hit = []))) commit ;;;
  ret (Z.of_nat (length hit)).

(** ** Creating intents *)
Definition _validate_amount (amount : Z) (min_amount : option Z) : M DB Z :=
  let* min_amt := gets (λ d,
    match min_amount with Some m => m | None => get_int d "payment.min_amount" 100 end) in
  let* max_amt := gets (λ d, get_int d "payment.max_amount" 100000000) in
  if amount <? min_amt then raise (HTTPException 422 "Minimum payment amount")
  else if max_amt <? amount then raise (HTTPException 422 "Maximum payment amount")
  else ret amount.

Definition RESELLER_TOPUP_MIN_AMOUNT : Z := 1000000.

Definition _billing_admin_id (u : User) : M DB Z :=
  if truthy (u_admin_id u) then ret (or0 (u_admin_id u))
  else
    let* sudo := gets (λ d, head (sort_by Z.leb
      (filter (λ p, a_is_sudo p.2 = true) (map_to_list (admins d))).*1)) in
    match sudo with
    | None => raise (HTTPException 400 "No panel admin available for payment")
    | Some aid => ret aid
    end.

Definition set_intent (pid : Z) (f : PaymentIntent → PaymentIntent) : M DB unit :=
  modify (update_intent_row pid f).

(** Insert the pending row, then ask the gateway: its answer updates [extra], or
    the row is marked failed and the request answers 502. *)
Definition start_checkout (i : PaymentIntent) (gateway : PaymentIntent → result Extra) : M DB Z :=
  let* pid := gets (λ d, next_key (intents d)) in
  modify (λ d, d <| intents := <[pid := i]> (intents d) |>) ;;;
  commit ;;;
  match gateway i with
  | Ok extra =>
      set_intent pid (λ i, i <| pi_extra := extra |>) ;;;
      commit ;;;
      ret pid
  | Raise _ =>
      set_intent pid (λ i, i <| pi_status := "failed"%string |>
        <| pi_extra := (pi_extra i) <| x_create_error := Some "error"%string |> |>) ;;;
      commit ;;;
      raise (HTTPException 502 "Payment provider error")
  end.

Definition create_topup_payment (now admin_id amount : Z) (provider : string)
    (require_provider : M DB unit) (gateway : PaymentIntent → result Extra) : M DB Z :=
  require_provider ;;;
  let* value := _validate_amount amount (Some RESELLER_TOPUP_MIN_AMOUNT) in
  start_checkout (mkIntent "topup" admin_id None None value provider "pending" no_extra now None)
    gateway.

(** [except UnlimitedCreateChargeError as exc: raise HTTPException(...)] *)
Definition tariff_error_http {D A} (m : M D A) : M D A := λ s,
  match m s with
  | (Raise (ResellerTariffError st msg), s') => (Raise (HTTPException st msg), s')
  | r => r
  end.

Definition create_portal_payment (ttl now uid : Z) (u : User) (direct_payment : bool) (plan_id : Z)
    (provider action : string) (target_username new_username : option string)
    (require_provider : M DB unit) (gateway : PaymentIntent → result Extra) : M DB Z :=
  if negb direct_payment then raise (HTTPException 404 "Direct portal payment is disabled")
  else
  let* billing_admin_id := _billing_admin_id u in
  require_provider ;;;
  let* plan := gets (λ d, get_plan_by_id d plan_id) in
  match plan with
  | None => raise (HTTPException 404 "Plan not found")
  | Some plan =>
    if negb (p_enabled plan) then raise (HTTPException 404 "Plan not found")
    else
    assert_plan_for_user (u_admin_id u) plan ;;;
    let* payer := gets (λ d, billing_admin d (u_admin_id u)) in
    tariff_error_http (prepare_unlimited_create_charge payer (p_data_limit plan) 1 None None
      (Some plan)) ;;;
    let price := p_price plan in
    if price <=? 0 then raise (HTTPException 422 "Use free renew/create for free plans")
    else
    let action := lower (strip action) in
    let extra := no_extra <| x_action := Some action |> <| x_portal_user_id := Some uid |>
                   <| x_expires_at := Some (portal_payment_expires_at ttl now) |> in
    if String.eqb action "purchase" then
      let* username := require_available_portal_username new_username in
      assert_can_add_account uid ;;;
      start_checkout (mkIntent "portal_purchase" billing_admin_id (Some uid) (Some (p_id plan))
        price provider "pending" (extra <| x_new_username := Some username |>) now None) gateway
    else
      let name := match target_username with
                  | Some t => if String.eqb t "" then u_username u else t
                  | None => u_username u
                  end in
      let* target := get_owned_account uid (u_username u) (Some name) in
      let* tname := gets (λ d, u_username <$> users d !! target) in
      start_checkout (mkIntent "portal_renew" billing_admin_id (Some target) (Some (p_id plan))
        price provider "pending" (extra <| x_target_username := tname |>) now None) gateway
  end.

(** ** Card receipts and review *)
Definition the_intent (pid : Z) : M DB PaymentIntent :=
  let* i := gets (λ d, intents d !! pid) in
  match i with
  | Some i => ret i
  | None => raise (HTTPException 404 "Payment not found")
  end.

(** [card_found]: whether [pick_payment_card] finds the id among the payee's
    cards; the frozen card fields themselves are not kept. *)
Definition set_payment_card (pid : Z) (card_id : string) (card_found : bool) : M DB unit :=
  let* i := the_intent pid in
  if negb (String.eqb (pi_provider i) "card") then raise (HTTPException 400 "Not a card payment")
  else if negb (String.eqb (pi_status i) "pending")
  then raise (HTTPException 409 "Card can only be changed before receipt submit")
  else if String.eqb (strip card_id) "" then raise (HTTPException 422 "card_id required")
  else if negb card_found then raise (HTTPException 404 "Card not found")
  else commit.

Definition reviewable_status (st : string) : bool :=
  String.eqb st "pending" || String.eqb st "awaiting_review".

Definition submit_card_payment (now pid : Z) : M DB unit :=
  let* i := the_intent pid in
  if negb (String.eqb (pi_provider i) "card") then raise (HTTPException 400 "Not a card payment")
  else if negb (reviewable_status (pi_status i))
  then raise (HTTPException 409 "Payment is not pending")
  else
    set_intent pid (λ i, i <| pi_extra := (pi_extra i) <| x_submitted_at := Some now |> |>
      <| pi_status := "awaiting_review"%string |>) ;;;
    commit.

Definition is_review_kind (kind : string) : bool :=
  is_portal_kind kind || String.eqb kind "topup".

Definition _owner_admin (d : DB) (i : PaymentIntent) : option (Z * Admin) :=
  match admins d !! pi_admin_id i with
  | Some a => Some (pi_admin_id i, a)
  | None => None
  end.

Definition _assert_can_review_card (reviewer : Z * Admin) (i : PaymentIntent) : M DB unit :=
  let '(rid, r) := reviewer in
  let* owner := gets (λ d, _owner_admin d i) in
  if String.eqb (pi_kind i) "topup" then
    if a_is_sudo r then ret tt
    else if match owner with
            | Some (_, payer) => bool_decide (a_parent_admin_id payer = Some rid)
            | None => false
            end
    then ret tt
    else raise (HTTPException 403
      "Only the parent reseller or platform owner can approve this wallet top-up")
  else if negb (is_portal_kind (pi_kind i)) then ret tt
  else if match owner with Some (oid, _) => oid =? rid | None => false end then ret tt
  else if a_is_sudo r && match owner with Some (_, o) => a_is_sudo o | None => false end
  then ret tt
  else raise (HTTPException 403
    "Reseller portal card orders are reviewed by that reseller, not the platform owner").

Definition reject_portal_payment (now pid : Z) (reviewer : option (Z * Admin)) : M DB unit :=
  let* i := the_intent pid in
  if negb (is_review_kind (pi_kind i))
  then raise (HTTPException 400 "Not a reviewable card payment")
  else if negb (reviewable_status (pi_status i))
  then raise (HTTPException 409 "Payment is not awaiting review")
  else
    match reviewer with
    | Some r => _assert_can_review_card r i
    | None => ret tt
    end ;;;
    set_intent pid (λ i, i <| pi_extra := (pi_extra i) <| x_rejected_at := Some now |> |>
      <| pi_status := "rejected"%string |>) ;;;
    commit.

Definition intent_id_desc (p q : Z * PaymentIntent) : bool := q.1 <=? p.1.

Definition list_portal_payments_for_admin (d : DB) (admin : Z * Admin) (status : option string)
    (limit : Z) : list (Z * PaymentIntent) :=
  let '(aid, a) := admin in
  let visible (i : PaymentIntent) : bool :=
    let owner := admins d !! pi_admin_id i in
    if a_is_sudo a then
      (is_portal_kind (pi_kind i)
       && match owner with Some o => a_is_sudo o | None => false end)
      || (String.eqb (pi_kind i) "topup" && String.eqb (pi_provider i) "card"
          && match owner with
             | Some o => negb (a_is_sudo o) && is_none (a_parent_admin_id o)
             | None => false
             end)
    else
      (is_portal_kind (pi_kind i) && (pi_admin_id i =? aid))
      || (String.eqb (pi_kind i) "topup" && String.eqb (pi_provider i) "card"
          && match owner with
             | Some o => bool_decide (a_parent_admin_id o = Some aid)
             | None => false
             end) in
  let rows := filter (λ p, visible p.2 = true) (map_to_list (intents d)) in
  let rows := match status with
              | Some st => if String.eqb st "" then rows
                           else filter (λ p, pi_status p.2 = st) rows
              | None => rows
              end in
  take (Z.to_nat (Z.max 1 (Z.min limit 200))) (sort_by intent_id_desc rows).

(** ** Settlement *)
(** [x is None or y is None] negated. *)
Definition both {A B} (x : option A) (y : option B) : option (A * B) :=
  match x, y with Some a, Some b => Some (a, b) | _, _ => None end.

Definition _apply_topup (now pid : Z) (i : PaymentIntent) : M DB unit :=
  add_transaction (pi_admin_id i) (pi_amount i) "topup" (RefPayment pid) false ;;;
  swallow (
    let* admin := gets (λ d, admins d !! pi_admin_id i) in
    match admin with
    | Some _ => bill_reseller_usage now (pi_admin_id i) None ;;; ret tt
    | None => ret tt
    end ;;;
    let* nr := enforce_reseller_traffic_caps now in
    when (negb (bool_decide (nr.2 = []))) commit).

Definition _apply_portal_renew (now pid : Z) (i : PaymentIntent) : M DB unit :=
  let* dbuser := gets (λ d, pi_user_id i ≫= λ u, users d !! u) in
  let* plan := gets (λ d, pi_plan_id i ≫= get_plan_by_id d) in
  match both dbuser plan with
  | Some (u, plan) =>
      let uid := or0 (pi_user_id i) in
      let* order := create_user_order now uid plan "paid" in
      apply_plan_to_user now uid plan ;;;
      mark_order_applied now order ;;;
      tariff_error_http (charge_portal_plan_tariff (u_admin_id u) plan (u_username u)
        "portal_renew") ;;;
      ret tt
  | None => raise (HTTPException 404 "Payment target not found")
  end.

(** The loop of [_free_username]: the first free [stem ++ n], [n < 100]. *)
Fixpoint free_variant (d : DB) (stem : string) (n fuel : nat) : option string :=
  match fuel with
  | O => None
  | S fuel =>
      let candidate := (stem +:+ pretty (N.of_nat n))%string in
      if is_none (find_user d candidate) then Some candidate
      else free_variant d stem (S n) fuel
  end.

(** [token] is [secrets.token_hex(3)]. *)
Definition _free_username (d : DB) (base token : string) : string :=
  if is_none (find_user d base) then base
  else match free_variant d (String.substring 0 29 base) 2 98 with
       | Some c => c
       | None => (String.substring 0 24 base +:+ token)%string
       end.

Definition _apply_portal_purchase (now pid : Z) (i : PaymentIntent) (token : string) : M DB unit :=
  let* plan := gets (λ d, pi_plan_id i ≫= get_plan_by_id d) in
  let* owner := gets (λ d, pi_user_id i ≫= λ u, users d !! u) in
  let username := lower (strip (default ""%string (x_new_username (pi_extra i)))) in
  match both plan owner with
  | Some (plan, ow) =>
      if String.eqb username "" then raise (HTTPException 404 "Purchase target not found")
      else
      let oid := or0 (pi_user_id i) in
      let* name := gets (λ d, _free_username d username token) in
      let* uid := create_account_from_plan now oid plan (Some name) in
      let* order := create_user_order now uid plan "paid" in
      mark_order_applied now order ;;;
      let* created := gets (λ d, default ""%string (u_username <$> users d !! uid)) in
      tariff_error_http (charge_portal_plan_tariff (u_admin_id ow) plan created
        "portal_purchase") ;;;
      set_intent pid (λ i, mkIntent (pi_kind i) (pi_admin_id i) (Some uid) (pi_plan_id i)
        (pi_amount i) (pi_provider i) (pi_status i)
        ((pi_extra i) <| x_created_username := Some created |>
           <| x_portal_user_id := if truthy (x_portal_user_id (pi_extra i))
                                  then x_portal_user_id (pi_extra i) else Some oid |>)
        (pi_created_at i) (pi_completed_at i)) ;;;
      commit
  | None => raise (HTTPException 404 "Purchase target not found")
  end.

(** [verify]: the provider's answer for this intent and payload. *)
Definition complete_payment (now pid : Z) (verify : PaymentIntent → bool) (token : string)
    : M DB unit :=
  let* i := the_intent pid in
  if String.eqb (pi_status i) "completed" then ret tt
  else if negb (reviewable_status (pi_status i))
  then raise (HTTPException 409 "Payment is not pending")
  else if negb (verify i) then raise (HTTPException 400 "Payment verification failed")
  else
    (if String.eqb (pi_kind i) "topup" then _apply_topup now pid i
     else if String.eqb (pi_kind i) "portal_renew" then _apply_portal_renew now pid i
     else if String.eqb (pi_kind i) "portal_purchase" then _apply_portal_purchase now pid i token
     else raise (HTTPException 400 "Unknown payment kind")) ;;;
    set_intent pid (λ i, i <| pi_status := "completed"%string |>
      <| pi_completed_at := Some now |>) ;;;
    commit.

(** [complete_payment(db, intent, {admin_approved: True})]: the card provider's
    [verify] accepts the admin's approval. *)
Definition approve_portal_payment (now pid : Z) (reviewer : option (Z * Admin)) (token : string)
    : M DB unit :=
  let* i := the_intent pid in
  if negb (is_review_kind (pi_kind i))
  then raise (HTTPException 400 "Not a reviewable card payment")
  else if negb (reviewable_status (pi_status i))
  then raise (HTTPException 409 "Payment is not awaiting review")
  else if negb (String.eqb (pi_provider i) "card")
  then raise (HTTPException 400 "Only card payments can be manually approved")
  else
    match reviewer with
    | Some r => _assert_can_review_card r i
    | None => ret tt
    end ;;;
    complete_payment now pid (λ _, true) token.

(** ** Access to one intent *)
Definition get_intent_for_admin (pid admin_id : Z) : M DB PaymentIntent :=
  let* i := the_intent pid in
  if pi_admin_id i =? admin_id then ret i else raise (HTTPException 404 "Payment not found").

Definition get_intent_for_admin_or_sudo (pid : Z) (admin : Z * Admin) : M DB PaymentIntent :=
  let '(aid, a) := admin in
  let* i := the_intent pid in
  let* owner := gets (λ d, _owner_admin d i) in
  if a_is_sudo a then
    if String.eqb (pi_kind i) "topup" then ret i
    else if is_portal_kind (pi_kind i) then
      if match owner with Some (_, o) => a_is_sudo o | None => false end then ret i
      else raise (HTTPException 404 "Payment not found")
    else ret i
  else if String.eqb (pi_kind i) "topup"
          && match owner with
             | Some (_, o) => bool_decide (a_parent_admin_id o = Some aid)
             | None => false
             end
  then ret i
  else if pi_admin_id i =? aid then ret i
  else raise (HTTPException 404 "Payment not found").

Definition get_intent_for_user (pid user_id : Z) : M DB PaymentIntent :=
  let* i := the_intent pid in
  if bool_decide (pi_user_id i = Some user_id) then ret i
  else
    let* owner := gets (λ d, users d !! user_id) in
    let* target := gets (λ d, if truthy (pi_user_id i)
                              then users d !! or0 (pi_user_id i) else None) in
    if match owner, target with
       | Some _, Some t =>
           (or0 (pi_user_id i) =? user_id) || bool_decide (u_portal_owner_user_id t = Some user_id)
           || (bool_decide (x_action (pi_extra i) = Some "purchase"%string)
               && bool_decide (pi_user_id i = Some user_id))
       | _, _ => false
       end
    then ret i
    else raise (HTTPException 404 "Payment not found").

End Payments.

Module PaymentFacts.
Import Quota Lifecycle Wallet Ledger WalletFacts UsageBilling Tariffs Caps Portal PlanOps Payments.

(** Ledger rows that credit payment [pid]. *)
Definition topup_credits (pid : Z) (d : DB) : nat :=
  length (filter (λ t, tx_type t = "topup"%string ∧ tx_reference t = RefPayment pid)
            (transactions d)).

(** ** What settlement leaves alone

    [around P c0]: top-up credits are [c0] and [P] holds of the intents. *)
Section around.
Context (P : gmap Z PaymentIntent → Prop) (c0 : Z → nat).

Definition around (d : DB) : Prop := (∀ q, topup_credits q d = c0 q) ∧ P (intents d).

Lemma preserves_around_modify (f : DB → DB) :
  (∀ d, intents (f d) = intents d ∧ transactions (f d) = transactions d) →
  preserves around (modify f).
Proof.
  intros Hf. apply preserves_modify. intros d H. unfold around, topup_credits in *.
  destruct (Hf d) as [-> ->]. exact H.
Qed.

Lemma credits_apply_tx t q d :
  tx_type t ≠ "topup"%string → topup_credits q (apply_tx t d) = topup_credits q d.
Proof.
  intros Ht. unfold topup_credits, apply_tx. cbn [over transactions].
  rewrite filter_app, length_app, filter_cons_False, filter_nil by naive_solver. cbn. lia.
Qed.

Lemma around_add_tx_state aid amount type ref skip d :
  type ≠ "topup"%string → around d → around (add_tx_state aid amount type ref skip d).
Proof.
  intros Ht (H1 & H2). unfold around. rewrite (add_tx_state_frame intents) by done.
  split; [|done]. intros q. rewrite <-(H1 q). unfold add_tx_state.
  destruct (_ && _); [|by apply credits_apply_tx].
  destruct (commission_tx _ _ _ _) as [t|] eqn:E; cbn [apply_opt_tx];
    rewrite ?credits_apply_tx; try done.
  apply commission_tx_bounds in E as (_ & _ & -> & _). done.
Qed.

Lemma preserves_around_add_transaction aid amount type ref skip :
  type ≠ "topup"%string → preserves around (add_transaction aid amount type ref skip).
Proof.
  intros Ht s [Hw _]. rewrite (add_transaction_commits s). cbn [snd].
  split; by apply around_add_tx_state.
Qed.
End around.

(** Every intent but [pid] is as in [I0], and [pid] is an intent of kind [k]. *)
Definition off (pid : Z) (k : string) (I0 m : gmap Z PaymentIntent) : Prop :=
  (∀ q, q ≠ pid → m !! q = I0 !! q) ∧ (∃ i, m !! pid = Some i ∧ pi_kind i = k).

Lemma preserves_around_set_intent pid k I0 c0 f :
  (∀ i, pi_kind (f i) = pi_kind i) → preserves (around (off pid k I0) c0) (set_intent pid f).
Proof.
  intros Hf. apply preserves_modify. intros d (H1 & H2 & i & Hi & Hk).
  split; [exact H1|]. cbn [over update_intent_row intents]. split.
  - intros q Hq. rewrite lookup_alter_ne by done. by apply H2.
  - exists (f i). rewrite lookup_alter_eq, Hi. split; [done|]. by rewrite Hf.
Qed.

#[export] Hint Extern 4 (preserves (around _ _) (modify _)) =>
  apply preserves_around_modify; intros; split; reflexivity : session.
#[export] Hint Extern 4 (preserves (around _ _) (add_transaction _ _ _ _ _)) =>
  apply preserves_around_add_transaction; discriminate : session.
#[export] Hint Extern 4 (preserves (around _ _) (set_intent _ _)) =>
  apply preserves_around_set_intent; reflexivity : session.

Section around_ops.
Context (P : gmap Z PaymentIntent → Prop) (c0 : Z → nat).
Notation keeps m := (preserves (around P c0) m).

Lemma around_wallet aid : keeps (get_or_create_wallet aid).
Proof. unfold get_or_create_wallet. solve_preserves. Qed.
#[local] Hint Resolve around_wallet : session.
Lemma around_checkpoint now aid : keeps (get_or_create_checkpoint now aid).
Proof. unfold get_or_create_checkpoint. solve_preserves. Qed.
#[local] Hint Resolve around_checkpoint : session.
Lemma around_unbilled now aid a : keeps (unbilled_usage_split now aid a).
Proof. unfold unbilled_usage_split. solve_preserves. Qed.
#[local] Hint Resolve around_unbilled : session.
Lemma around_bill now aid rate : keeps (bill_reseller_usage now aid rate).
Proof.
  unfold bill_reseller_usage, the_admin, set_checkpoint, burn_prepaid, _log_low_balance_event.
  solve_preserves.
Qed.
Lemma around_collect now l b : keeps (collect_unpaid now l b).
Proof.
  revert b. induction l as [|[aid a] l IH]; intros b; cbn; [solve_preserves|].
  apply preserves_bind; [|auto]. unfold unpaid_usage. solve_preserves.
Qed.
#[local] Hint Resolve around_bill around_collect : session.
Lemma around_caps now : keeps (enforce_reseller_traffic_caps now).
Proof. unfold enforce_reseller_traffic_caps, resellers_with_unpaid_usage. solve_preserves. Qed.
#[local] Hint Resolve around_caps : session.
Lemma around_prepare admin dl dur plan n req :
  keeps (prepare_reseller_tariff_charge admin dl dur plan n req).
Proof. unfold prepare_reseller_tariff_charge, assert_reseller_shape_allowed. solve_preserves. Qed.
#[local] Hint Resolve around_prepare : session.
Lemma around_charge aid plan name ev : keeps (charge_portal_plan_tariff aid plan name ev).
Proof. unfold charge_portal_plan_tariff, charge_reseller_tariff. solve_preserves. Qed.
Lemma around_http {A} (m : M DB A) : keeps m → keeps (tariff_error_http m).
Proof.
  intros Hm s Hs. specialize (Hm s Hs). unfold tariff_error_http.
  destruct (m s) as [[r|[]] s']; done.
Qed.
Lemma around_value_error {A} (m : M DB A) : keeps m → keeps (value_error_400 m).
Proof.
  intros Hm s Hs. specialize (Hm s Hs). unfold value_error_400.
  destruct (m s) as [[r|[]] s']; done.
Qed.
#[local] Hint Resolve around_charge around_http around_value_error : session.
Lemma around_order now uid plan st : keeps (create_user_order now uid plan st).
Proof. unfold create_user_order. solve_preserves. Qed.
Lemma around_mark now o : keeps (mark_order_applied now o).
Proof. unfold mark_order_applied. solve_preserves. Qed.
Lemma around_apply_plan now uid plan : keeps (apply_plan_to_user now uid plan).
Proof. unfold apply_plan_to_user. solve_preserves. Qed.
Lemma around_create_account now o plan name : keeps (create_account_from_plan now o plan name).
Proof.
  unfold create_account_from_plan, require_available_portal_username, create_user.
  solve_preserves; apply around_value_error; solve_preserves.
Qed.
#[local] Hint Resolve around_order around_mark around_apply_plan around_create_account : session.

Lemma around_renew now pid i : keeps (_apply_portal_renew now pid i).
Proof. unfold _apply_portal_renew. solve_preserves. Qed.
End around_ops.

#[export] Hint Resolve around_bill around_caps around_http around_order around_mark
  around_create_account around_charge around_wallet around_prepare : session.

Lemma around_purchase pid k I0 c0 now i token :
  preserves (around (off pid k I0) c0) (_apply_portal_purchase now pid i token).
Proof. unfold _apply_portal_purchase. solve_preserves. Qed.

Lemma credits_topup pid q aid amount skip d :
  topup_credits q (add_tx_state aid amount "topup" (RefPayment pid) skip d)
  = (topup_credits q d + if decide (q = pid) then 1 else 0)%nat.
Proof.
  assert (H1 : topup_credits q (apply_tx (mkTransaction aid amount "topup" (RefPayment pid)) d)
    = (topup_credits q d + if decide (q = pid) then 1 else 0)%nat).
  { unfold topup_credits, apply_tx. cbn [over transactions]. rewrite filter_app, length_app. f_equal.
    rewrite filter_cons, filter_nil. cbn [tx_type tx_reference].
    destruct (decide (q = pid)) as [->|Hne]; case_decide; cbn; try done; naive_solver. }
  unfold add_tx_state. destruct (_ && _); [|done].
  destruct (commission_tx _ _ _ _) as [t|] eqn:E; cbn [apply_opt_tx]; [|done].
  rewrite credits_apply_tx; [done|]. apply commission_tx_bounds in E as (_ & _ & -> & _). done.
Qed.

Lemma swallow_run {D} (m : M D unit) s : swallow m s = (Ok tt, (m s).2).
Proof. unfold swallow. by destruct (m s) as [[[]|e] s']. Qed.

Definition credits_of (d : DB) (q : Z) : nat := topup_credits q d.

Lemma around_init d pid i :
  intents d !! pid = Some i → around (off pid (pi_kind i) (intents d)) (credits_of d) d.
Proof. intros Hi. split; [done|]. split; [done|]. eauto. Qed.

(** A top-up settles in one credit, whatever the follow-up billing does. *)
Lemma apply_topup_any now pid i d j :
  intents d !! pid = Some j → pi_kind j = "topup"%string →
  ∃ s, _apply_topup now pid i (mkSession d d) = (Ok tt, s) ∧
    good (around (off pid "topup" (intents d))
      (λ q, credits_of d q + if decide (q = pid) then 1 else 0)%nat) s.
Proof.
  intros Hj Hk. unfold _apply_topup.
  rewrite (bind_ok _ _ _ _ _ (add_transaction_commits (mkSession d d) (pi_admin_id i) (pi_amount i)
    "topup" (RefPayment pid) false)). rewrite swallow_run. eexists. split; [done|].
  match goal with |- good ?P _ => enough (H : preserves P (
    let* admin := gets (λ d, admins d !! pi_admin_id i) in
    match admin with
    | Some _ => bill_reseller_usage now (pi_admin_id i) None ;;; ret tt
    | None => ret tt
    end ;;;
    let* nr := enforce_reseller_traffic_caps now in
    when (negb (bool_decide (nr.2 = []))) commit)) end.
  { apply H. cbn [work].
    assert (Ha : around (off pid "topup" (intents d))
      (λ q, (credits_of d q + if decide (q = pid) then 1 else 0)%nat)
      (add_tx_state (pi_admin_id i) (pi_amount i) "topup" (RefPayment pid) false d)); [|by split].
    split; [intros q; apply credits_topup|].
    rewrite (add_tx_state_frame intents) by done. split; [done|]. exists j. by rewrite Hj, Hk. }
  solve_preserves.
Qed.

Definition completed (now : Z) (i : PaymentIntent) : PaymentIntent :=
  i <| pi_status := "completed"%string |> <| pi_completed_at := Some now |>.

Lemma the_intent_run d sd pid i :
  intents d !! pid = Some i → the_intent pid (mkSession d sd) = (Ok i, mkSession d sd).
Proof. intros Hi. unfold the_intent. rewrite bind_gets. cbn [work]. by rewrite Hi. Qed.

(** Every way [complete_payment] can end. *)
Lemma complete_run now pid verify token d i :
  intents d !! pid = Some i →
  let run := complete_payment now pid verify token (mkSession d d) in
  (pi_status i = "completed"%string ∧ run = (Ok tt, mkSession d d)) ∨
  (pi_status i ≠ "completed"%string ∧ (∃ st m, run = (Raise (HTTPException st m), mkSession d d))) ∨
  (reviewable_status (pi_status i) = true ∧ pi_kind i = "topup"%string ∧
     ∃ d1, run = (Ok tt, let d2 := update_intent_row pid (completed now) d1 in mkSession d2 d2) ∧
       around (off pid "topup" (intents d))
         (λ q, (credits_of d q + if decide (q = pid) then 1 else 0)%nat) d1) ∨
  (reviewable_status (pi_status i) = true ∧ is_portal_kind (pi_kind i) = true ∧
     good (around (off pid (pi_kind i) (intents d)) (credits_of d)) run.2).
Proof.
  intros Hi run. subst run.
  remember (complete_payment now pid verify token (mkSession d d)) as R eqn:E.
  unfold complete_payment in E. rewrite (bind_ok _ _ _ _ _ (the_intent_run d d pid i Hi)) in E.
  destruct (String.eqb_spec (pi_status i) "completed") as [Hc|Hc]; [left; by subst|].
  destruct (reviewable_status (pi_status i)) eqn:Hrv; cbn [negb] in E; [|right; left; subst; by eauto].
  destruct (verify i); cbn [negb] in E; [|right; left; subst; by eauto].
  destruct (String.eqb_spec (pi_kind i) "topup") as [Hk|Hk].
  { right. right. left. split; [done|]. split; [done|].
    destruct (apply_topup_any now pid i d i Hi Hk) as ([d1 d1'] & Ht & Hg).
    rewrite (bind_ok _ _ _ _ _ Ht) in E. exists d1. split; [exact E|]. apply Hg. }
  pose proof (around_init d pid i Hi) as H0. set (P := around _ _) in H0.
  assert (Hfin : preserves P (set_intent pid (λ i, i <| pi_status := "completed"%string |>
      <| pi_completed_at := Some now |>) ;;; commit)) by (subst P; solve_preserves).
  destruct (String.eqb_spec (pi_kind i) "portal_renew") as [Hk1|Hk1].
  { right. right. right. split; [done|]. split; [unfold is_portal_kind; by rewrite Hk1|].
    subst R. apply preserves_bind; [apply around_renew|done|by split]. }
  destruct (String.eqb_spec (pi_kind i) "portal_purchase") as [Hk2|Hk2].
  { right. right. right. split; [done|]. split; [unfold is_portal_kind; by rewrite Hk2|].
    subst R. apply preserves_bind; [apply around_purchase|done|by split]. }
  right. left. subst R. by eauto.
Qed.

(** *** The credit invariant *)
Definition settled (i : PaymentIntent) : bool :=
  String.eqb (pi_kind i) "topup" && String.eqb (pi_status i) "completed".

Definition pay_ok (d : DB) : Prop :=
  ∀ pid, topup_credits pid d =
    match intents d !! pid with Some i => if settled i then 1 else 0 | None => 0 end%nat.

Lemma complete_pay_ok now pid verify token d :
  pay_ok d → pay_ok (run_session (complete_payment now pid verify token) d).2.
Proof.
  intros Hok. unfold run_session. destruct (intents d !! pid) as [i|] eqn:Hi.
  2: { unfold complete_payment, the_intent, bind, gets. cbn [work]. rewrite Hi. exact Hok. }
  destruct (complete_run now pid verify token d i Hi)
    as [[_ ->]|[[_ (st & m & ->)]|[(Hr & Hk & d1 & -> & Ha)|(Hr & Hk & Hg)]]]; try done.
  - cbn [saved snd]. destruct Ha as (H1 & H2 & j & Hj & Hjk). intros q.
    change (topup_credits q (update_intent_row pid (completed now) d1)) with (topup_credits q d1).
    rewrite (H1 q). cbn [over update_intent_row intents]. destruct (decide (q = pid)) as [->|Hq].
    + rewrite lookup_alter_eq, Hj. cbn [fmap option_fmap option_map].
      pose proof (Hok pid) as Hp. rewrite Hi in Hp. unfold credits_of. rewrite Hp.
      unfold settled, completed. cbn. rewrite Hjk, Hk. cbn.
      destruct (String.eqb_spec (pi_status i) "completed") as [Hs|]; [|done].
      rewrite Hs in Hr. done.
    + rewrite lookup_alter_ne by done. rewrite H2 by done. unfold credits_of. rewrite (Hok q). lia.
  - destruct (complete_payment _ _ _ _ _) as [r s]. cbn [snd] in Hg.
    destruct Hg as [_ (H1 & H2 & j & Hj & Hjk)].
    cbn [saved snd]. intros q. rewrite (H1 q). unfold credits_of. rewrite (Hok q).
    destruct (decide (q = pid)) as [->|Hq]; [|by rewrite H2].
    rewrite Hi, Hj. unfold settled, is_portal_kind in *. rewrite Hjk.
    destruct (String.eqb_spec (pi_kind i) "topup") as [Hk'|]; [|done]. by rewrite Hk' in Hk.
Qed.

(** ** All operations on intents *)
Inductive pay_op :=
  | Complete (now pid : Z) (verify : PaymentIntent → bool) (token : string)
  | Approve (now pid : Z) (reviewer : option (Z * Admin)) (token : string)
  | Reject (now pid : Z) (reviewer : option (Z * Admin))
  | Submit (now pid : Z)
  | SetCard (pid : Z) (card_id : string) (found : bool)
  | ExpireStale (ttl now limit : Z)
  | StartTopup (now aid amount : Z) (provider : string) (refused : option err)
      (gateway : PaymentIntent → result Extra)
  | StartPortal (ttl now uid : Z) (u : User) (direct : bool) (plan_id : Z) (provider action : string)
      (target new : option string) (refused : option err) (gateway : PaymentIntent → result Extra).

(** [_require_provider] passes or raises; it never writes. *)
Definition provider_check (refused : option err) : M DB unit :=
  match refused with None => ret tt | Some e => raise e end.

Definition run_op (op : pay_op) : M DB unit :=
  match op with
  | Complete now pid verify token => complete_payment now pid verify token
  | Approve now pid reviewer token => approve_portal_payment now pid reviewer token
  | Reject now pid reviewer => reject_portal_payment now pid reviewer
  | Submit now pid => submit_card_payment now pid
  | SetCard pid card found => set_payment_card pid card found
  | ExpireStale ttl now limit => expire_stale_portal_payments ttl now limit ;;; ret tt
  | StartTopup now aid amount provider refused gw =>
      create_topup_payment now aid amount provider (provider_check refused) gw ;;; ret tt
  | StartPortal ttl now uid u direct plan_id provider action target new refused gw =>
      create_portal_payment ttl now uid u direct plan_id provider action target new
        (provider_check refused) gw ;;; ret tt
  end.

(** A step that moves no money: intents only appear, or change while they are
    open, and none becomes completed. *)
Definition light (d d' : DB) : Prop :=
  transactions d' = transactions d ∧
  ∀ q, intents d' !! q = intents d !! q ∨
    ∃ i', intents d' !! q = Some i' ∧ pi_status i' ≠ "completed"%string ∧
      (intents d !! q = None ∨
       ∃ i, intents d !! q = Some i ∧ reviewable_status (pi_status i) = true).

Lemma light_refl d : light d d.
Proof. split; auto. Qed.

Lemma light_intents d d' :
  transactions d' = transactions d → intents d' = intents d → light d d'.
Proof. intros H1 H2. split; [done|]. intros q. left. by rewrite H2. Qed.

Lemma light_update d pid i f :
  intents d !! pid = Some i → reviewable_status (pi_status i) = true →
  pi_status (f i) ≠ "completed"%string → light d (update_intent_row pid f d).
Proof.
  intros Hi Hr Hf. split; [done|]. intros q. cbn [over update_intent_row intents].
  destruct (decide (q = pid)) as [->|Hq]; [right|left; by rewrite lookup_alter_ne].
  exists (f i). rewrite lookup_alter_eq, Hi. eauto 10.
Qed.

Lemma light_reject now pid reviewer d : light d (run_session (run_op (Reject now pid reviewer)) d).2.
Proof.
  unfold run_session, run_op, reject_portal_payment.
  destruct (intents d !! pid) as [i|] eqn:Hi.
  2: { unfold the_intent, bind, gets. cbn [work]. rewrite Hi. apply light_refl. }
  rewrite (bind_ok _ _ _ _ _ (the_intent_run d d pid i Hi)).
  destruct (is_review_kind _); [|apply light_refl]. cbn [negb].
  destruct (reviewable_status _) eqn:Hr; [|apply light_refl]. cbn [negb].
  assert (Hm : ∃ r, (match reviewer with Some r => _assert_can_review_card r i | None => ret tt end)
    (mkSession d d) = (r, mkSession d d)).
  { destruct reviewer as [[rid r]|]; [|by eexists]. unfold _assert_can_review_card.
    rewrite bind_gets. repeat (split_match; try by eexists). }
  destruct Hm as [[[]|e] Hm]; [rewrite (bind_ok _ _ _ _ _ Hm)|rewrite (bind_raise _ _ _ _ _ Hm); apply light_refl].
  by eapply light_update.
Qed.

Lemma light_submit now pid d : light d (run_session (run_op (Submit now pid)) d).2.
Proof.
  unfold run_session, run_op, submit_card_payment. destruct (intents d !! pid) as [i|] eqn:Hi.
  2: { unfold the_intent, bind, gets. cbn [work]. rewrite Hi. apply light_refl. }
  rewrite (bind_ok _ _ _ _ _ (the_intent_run d d pid i Hi)).
  destruct (String.eqb (pi_provider i) "card"); [|apply light_refl]. cbn [negb].
  destruct (reviewable_status _) eqn:Hr; [|apply light_refl]. by eapply light_update.
Qed.

Lemma light_set_card pid card found d : light d (run_session (run_op (SetCard pid card found)) d).2.
Proof.
  unfold run_session, run_op, set_payment_card. destruct (intents d !! pid) as [i|] eqn:Hi.
  2: { unfold the_intent, bind, gets. cbn [work]. rewrite Hi. apply light_refl. }
  rewrite (bind_ok _ _ _ _ _ (the_intent_run d d pid i Hi)).
  repeat (split_match; try apply light_refl).
Qed.

Lemma light_expire ttl now limit d : light d (run_session (run_op (ExpireStale ttl now limit)) d).2.
Proof.
  unfold run_session, run_op, expire_stale_portal_payments.
  unfold bind at 1, bind at 1. unfold query. cbn [saved].
  set (due := take _ _). set (hit := (filter _ due).*1).
  assert (Hlight : light d (d <| intents := map_imap (λ pid i, Some
    (if bool_decide (pid ∈ hit) then expire_intent ttl now i else i)) (intents d) |>)).
  { split; [done|]. intros q. cbn [over intents]. rewrite map_lookup_imap.
    destruct (intents d !! q) as [i|] eqn:Hi; [|by left]. cbn.
    case_bool_decide as Hin; [right|by left]. eexists. split; [done|]. split; [done|]. right.
    exists i. split; [done|]. subst hit. apply list_elem_of_fmap in Hin as ([q' j] & -> & Hin).
    apply list_elem_of_filter in Hin as [_ Hin]. subst due. apply elem_of_take in Hin as (n & Hin & _).
    apply list_elem_of_lookup_2 in Hin. apply elem_of_sort_by in Hin.
    apply list_elem_of_filter in Hin as [[_ Hst] Hin]. apply elem_of_map_to_list in Hin.
    cbn in *. simplify_eq. unfold reviewable_status. by rewrite Hst. }
  rewrite bind_modify. cbn [work saved]. unfold when. destruct (bool_decide (hit = [])); cbn.
  - apply light_refl.
  - exact Hlight.
Qed.

(** [takes P Q m]: from a session where [P] holds of both states, [Q] holds of
    both afterwards. *)
Definition takes {A} (P Q : DB → Prop) (m : M DB A) : Prop := ∀ s, good P s → good Q (m s).2.

Lemma takes_bind {A B} (P Q : DB → Prop) (m : M DB A) (k : A → M DB B) :
  (∀ d, P d → Q d) → preserves P m → (∀ a, takes P Q (k a)) → takes P Q (bind m k).
Proof.
  intros HPQ Hm Hk s Hs. specialize (Hm s Hs). unfold bind.
  destruct (m s) as [[a|e] s']; [by apply Hk|]. destruct Hm. split; by apply HPQ.
Qed.

Lemma takes_weaken {A} (P Q : DB → Prop) (m : M DB A) :
  (∀ d, P d → Q d) → preserves P m → takes P Q m.
Proof. intros HPQ Hm s Hs. destruct (Hm s Hs). split; by apply HPQ. Qed.

Definition same_books (d0 d : DB) : Prop :=
  transactions d = transactions d0 ∧ intents d = intents d0.

Lemma same_books_light d0 d : same_books d0 d → light d0 d.
Proof. intros [H1 H2]. by apply light_intents. Qed.

Lemma takes_checkout d0 i gw :
  pi_status i = "pending"%string → takes (same_books d0) (light d0) (start_checkout i gw).
Proof.
  intros Hst s [[Hw1 Hw2] [Hs1 Hs2]]. unfold start_checkout. rewrite bind_gets, bind_modify.
  cbn [work saved]. set (pid := next_key _).
  assert (Hfresh : intents (work s) !! pid = None) by apply next_key_fresh.
  assert (Hl : ∀ f d', transactions d' = transactions (work s) →
    intents d' = alter f pid (<[pid := i]> (intents (work s))) →
    pi_status (f i) ≠ "completed"%string → light d0 d').
  { intros f d' Ht Hi Hf. split; [congruence|]. intros q. rewrite Hi.
    destruct (decide (q = pid)) as [->|Hq].
    - right. exists (f i). rewrite lookup_alter_eq, lookup_insert_eq. split; [done|]. split; [done|].
      left. congruence.
    - left. rewrite lookup_alter_ne, lookup_insert_ne by done. congruence. }
  destruct (gw i) as [x|e].
  - assert (H : light d0 (update_intent_row pid (λ i, i <| pi_extra := x |>)
      ((work s) <| intents := <[pid := i]> (intents (work s)) |>))); [|by split].
    eapply Hl; [done|done|]. cbn. by rewrite Hst.
  - match goal with |- context [set_intent pid ?f] =>
      assert (H : light d0 (update_intent_row pid f
        ((work s) <| intents := <[pid := i]> (intents (work s)) |>))); [|by split] end.
    eapply Hl; done.
Qed.

#[local] Hint Extern 4 (preserves (same_books _) (modify _)) =>
  apply preserves_modify; intros ? [? ?]; split; done : session.

Lemma books_check d0 e : preserves (same_books d0) (provider_check e).
Proof. unfold provider_check. solve_preserves. Qed.
#[local] Hint Resolve books_check : session.

Lemma books_http {A} d0 (m : M DB A) :
  preserves (same_books d0) m → preserves (same_books d0) (tariff_error_http m).
Proof.
  intros Hm s Hs. specialize (Hm s Hs). unfold tariff_error_http.
  destruct (m s) as [[r|[]] s']; done.
Qed.

Lemma takes_run {A} (m : M DB A) d :
  takes (same_books d) (light d) m → light d (run_session m d).2.
Proof.
  intros Hm. specialize (Hm (mkSession d d) ltac:(by split)). unfold run_session.
  destruct (m _) as [r s]. apply Hm.
Qed.

Ltac takes_step :=
  lazymatch goal with
  | |- takes _ _ (bind _ _) => apply takes_bind; [apply same_books_light| |intros ?]
  | |- takes _ _ (start_checkout _ _) => apply takes_checkout; done
  | |- takes _ _ (match ?x with _ => _ end) => destruct x
  | |- takes _ _ (raise _) => apply takes_weaken; [apply same_books_light|apply preserves_raise]
  | |- takes _ _ (ret _) => apply takes_weaken; [apply same_books_light|apply preserves_ret]
  end.

Lemma light_topup now aid amount provider e gw d :
  light d (run_session (create_topup_payment now aid amount provider (provider_check e) gw) d).2.
Proof.
  apply takes_run. unfold create_topup_payment, _validate_amount. cbv zeta.
  repeat takes_step; solve_preserves.
Qed.

Lemma light_portal ttl now uid u direct plan_id provider action target new e gw d :
  light d (run_session (create_portal_payment ttl now uid u direct plan_id provider action target
    new (provider_check e) gw) d).2.
Proof.
  apply takes_run. unfold create_portal_payment. cbv zeta.
  repeat takes_step; try (apply books_http);
    unfold _billing_admin_id, assert_plan_for_user, prepare_unlimited_create_charge,
      prepare_reseller_tariff_charge, assert_reseller_shape_allowed, get_or_create_wallet,
      require_available_portal_username, assert_can_add_account, get_owned_account;
    solve_preserves.
Qed.

Lemma run_ret_state {A} (m : M DB A) d : (run_session (m ;;; ret tt) d).2 = (run_session m d).2.
Proof. unfold run_session, bind, ret. by destruct (m _) as [[a|e] s]. Qed.

(** Who may decide on a card payment. *)
Definition may_review (d : DB) (reviewer : Z * Admin) (i : PaymentIntent) : bool :=
  if String.eqb (pi_kind i) "topup" then
    a_is_sudo reviewer.2 ||
    match admins d !! pi_admin_id i with
    | Some payer => bool_decide (a_parent_admin_id payer = Some reviewer.1)
    | None => false
    end
  else
    match admins d !! pi_admin_id i with
    | Some owner => (pi_admin_id i =? reviewer.1) || (a_is_sudo reviewer.2 && a_is_sudo owner)
    | None => false
    end.

Lemma review_check_run d rev i :
  is_review_kind (pi_kind i) = true →
  _assert_can_review_card rev i (mkSession d d) =
  (if may_review d rev i then Ok tt else Raise (HTTPException 403
     (if String.eqb (pi_kind i) "topup"
      then "Only the parent reseller or platform owner can approve this wallet top-up"
      else "Reseller portal card orders are reviewed by that reseller, not the platform owner")),
   mkSession d d).
Proof.
  intros Hk. destruct rev as [rid r]. unfold _assert_can_review_card, may_review, _owner_admin.
  rewrite bind_gets. cbn [work fst snd]. unfold is_review_kind in Hk.
  destruct (String.eqb (pi_kind i) "topup").
  - destruct (a_is_sudo r); [done|]. cbn [orb]. destruct (admins d !! pi_admin_id i); [|done].
    by destruct (bool_decide _).
  - rewrite orb_false_r in Hk. rewrite Hk. cbn [negb].
    destruct (admins d !! pi_admin_id i) as [o|]; [|by rewrite andb_false_r].
    destruct (pi_admin_id i =? rid); [done|]. cbn [orb]. by destruct (a_is_sudo r && a_is_sudo o).
Qed.

Lemma approve_run now pid rev token d i :
  intents d !! pid = Some i →
  let run := approve_portal_payment now pid rev token (mkSession d d) in
  (∃ st m, run = (Raise (HTTPException st m), mkSession d d)) ∨
  (reviewable_status (pi_status i) = true ∧ pi_provider i = "card"%string ∧
   is_review_kind (pi_kind i) = true ∧
   (∀ r, rev = Some r → may_review d r i = true) ∧
   run = complete_payment now pid (λ _, true) token (mkSession d d)).
Proof.
  intros Hi run. subst run. unfold approve_portal_payment.
  rewrite (bind_ok _ _ _ _ _ (the_intent_run d d pid i Hi)).
  destruct (is_review_kind (pi_kind i)) eqn:Hk; [|left; by eauto]. cbn [negb].
  destruct (reviewable_status (pi_status i)) eqn:Hr; [|left; by eauto]. cbn [negb].
  destruct (String.eqb_spec (pi_provider i) "card"); [|left; by eauto]. cbn [negb].
  destruct rev as [r|].
  - pose proof (review_check_run d r i Hk) as Hc. destruct (may_review d r i) eqn:Hm.
    + right. rewrite (bind_ok _ _ _ _ _ Hc). split_and!; try done. by intros ? [= <-].
    + left. rewrite (bind_raise _ _ _ _ _ Hc). eauto.
  - right. rewrite (bind_ok (ret tt) _ _ _ _ eq_refl). by split_and!.
Qed.

(** C10. A closed payment stays closed: once an intent is completed, rejected,
    expired or failed, no operation on any payment changes its row again. *)
Theorem closed_intent_absorbing op d pid i :
  intents d !! pid = Some i → reviewable_status (pi_status i) = false →
  intents (run_session (run_op op) d).2 !! pid = Some i.
Proof.
  intros Hi Hc.
  assert (Hlight : ∀ d', light d d' → intents d' !! pid = Some i).
  { intros d' [_ H]. destruct (H pid) as [->|(i' & _ & _ & [Hn|(j & Hj & Hr)])]; [done|congruence|].
    rewrite Hi in Hj. simplify_eq. congruence. }
  assert (Hcomp : ∀ now q verify token,
    intents (run_session (complete_payment now q verify token) d).2 !! pid = Some i).
  { intros now q verify token. unfold run_session. destruct (intents d !! q) as [j|] eqn:Hj.
    2: { unfold complete_payment, the_intent, bind, gets. cbn [work]. by rewrite Hj. }
    destruct (complete_run now q verify token d j Hj)
      as [[_ ->]|[[_ (st & m & ->)]|[(Hr & Hk & d1 & -> & _ & Ho & _)|(Hr & Hk & Hg)]]]; try done;
      (destruct (decide (q = pid)) as [->|Hq]; [rewrite Hi in Hj; simplify_eq; congruence|]).
    - cbn [saved snd over update_intent_row intents]. rewrite lookup_alter_ne by done.
      by rewrite Ho.
    - destruct (complete_payment _ _ _ _ _) as [r s]. cbn [snd] in Hg.
      destruct Hg as [_ (_ & Ho & _)]. cbn [saved snd]. by rewrite Ho. }
  destruct op.
  - apply Hcomp.
  - unfold run_op. destruct (intents d !! pid0) as [j|] eqn:Hj.
    + unfold run_session. destruct (approve_run now pid0 reviewer token d j Hj)
        as [(st & m & ->)|(_ & _ & _ & _ & ->)]; [done|]. apply Hcomp.
    + unfold run_session, approve_portal_payment, the_intent, bind, gets. cbn [work]. by rewrite Hj.
  - apply Hlight, light_reject.
  - apply Hlight, light_submit.
  - apply Hlight, light_set_card.
  - apply Hlight, light_expire.
  - apply Hlight. unfold run_op. rewrite run_ret_state. apply light_topup.
  - apply Hlight. unfold run_op. rewrite run_ret_state. apply light_portal.
Qed.

Definition sample_intent (kind status : string) : PaymentIntent :=
  mkIntent kind 7 (Some 1) (Some 1) 2000000 "card" status no_extra 0 None.

Lemma closed_intent_absorbing_witness :
  let i := sample_intent "topup" "rejected" in
  let d := empty_db <| intents := {[ 5 := i ]} |> in
  intents (run_session (run_op (Complete 10 5 (λ _, true) "")) d).2 !! 5 = Some i.
Proof.
  refine (closed_intent_absorbing (Complete 10 5 (λ _, true) "")
    (empty_db <| intents := {[ 5 := sample_intent "topup" "rejected" ]} |>) 5
    (sample_intent "topup" "rejected") _ _); reflexivity.
Defined.

Lemma light_pay_ok d d' : light d d' → pay_ok d → pay_ok d'.
Proof.
  intros [Ht Hl] Hok q. unfold topup_credits. rewrite Ht. specialize (Hok q).
  unfold topup_credits in Hok. rewrite Hok.
  destruct (Hl q) as [->|(i' & -> & Hs & Ho)]; [done|].
  assert (settled i' = false) as ->.
  { unfold settled. destruct (String.eqb_spec (pi_status i') "completed"); [done|apply andb_false_r]. }
  destruct Ho as [->|(i & -> & Hr)]; [done|]. unfold settled.
  destruct (String.eqb_spec (pi_status i) "completed") as [Hc|]; [|by rewrite andb_false_r].
  by rewrite Hc in Hr.
Qed.

Lemma op_pay_ok op d : pay_ok d → pay_ok (run_session (run_op op) d).2.
Proof.
  intros Hok. destruct op.
  - by apply complete_pay_ok.
  - unfold run_op. destruct (intents d !! pid) as [j|] eqn:Hj.
    + unfold run_session at 1. destruct (approve_run now pid reviewer token d j Hj)
        as [(st & m & ->)|(_ & _ & _ & _ & ->)]; [done|].
      apply (complete_pay_ok now pid (λ _, true) token d Hok).
    + unfold run_session, approve_portal_payment, the_intent, bind, gets. cbn [work]. by rewrite Hj.
  - eapply light_pay_ok; [apply light_reject|done].
  - eapply light_pay_ok; [apply light_submit|done].
  - eapply light_pay_ok; [apply light_set_card|done].
  - eapply light_pay_ok; [apply light_expire|done].
  - unfold run_op. rewrite run_ret_state. eapply light_pay_ok; [apply light_topup|done].
  - unfold run_op. rewrite run_ret_state. eapply light_pay_ok; [apply light_portal|done].
Qed.

(** C36. A reviewer can only settle payments that are theirs to review: an
    approval that goes through is of an open card payment, by the platform
    owner or the payer's parent for a top-up, by the owning reseller (or the
    owner for its own customers) for a portal order; anyone else gets 403 and
    nothing changes.  Every payment in a reviewer's queue is one they may
    decide on. *)
Theorem review_authorised d now pid i rid r token :
  intents d !! pid = Some i → admins d !! rid = Some r →
  ((run_session (approve_portal_payment now pid (Some (rid, r)) token) d).1 = Ok tt →
   may_review d (rid, r) i = true ∧ pi_provider i = "card"%string ∧
   reviewable_status (pi_status i) = true) ∧
  (may_review d (rid, r) i = false →
   ∃ st m, run_session (approve_portal_payment now pid (Some (rid, r)) token) d
           = (Raise (HTTPException st m), d)) ∧
  (∀ status limit q j, (q, j) ∈ list_portal_payments_for_admin d (rid, r) status limit →
     may_review d (rid, r) j = true).
Proof.
  intros Hi Hr. split_and!.
  - unfold run_session. destruct (approve_run now pid (Some (rid, r)) token d i Hi)
      as [(st & m & ->)|(H1 & H2 & _ & H3 & _)]; [done|]. intros _. auto.
  - intros Hm. unfold run_session. destruct (approve_run now pid (Some (rid, r)) token d i Hi)
      as [(st & m & ->)|(_ & _ & _ & H3 & _)]; [by eauto|]. specialize (H3 _ eq_refl). congruence.
  - intros status limit q j Hin. unfold list_portal_payments_for_admin in Hin.
    apply elem_of_take in Hin as (n & Hin & _). apply list_elem_of_lookup_2, elem_of_sort_by in Hin.
    match type of Hin with context [match status with Some _ => _ | None => ?rows end] =>
      assert (Hv : (q, j) ∈ rows) end.
    { destruct status as [st|]; [|done]. destruct (String.eqb st ""); [done|].
      by apply list_elem_of_filter in Hin as [_ ?]. }
    apply list_elem_of_filter in Hv as [Hv _]. cbn [snd] in Hv. unfold may_review. cbn [fst snd].
    destruct (String.eqb_spec (pi_kind j) "topup") as [Hk|Hk].
    + destruct (a_is_sudo r); [done|]. cbn [orb] in *. unfold is_portal_kind in Hv.
      rewrite Hk in Hv. cbn [String.eqb Ascii.eqb Bool.eqb orb andb] in Hv.
      apply andb_true_iff in Hv as [_ Hv]. done.
    + rewrite !andb_false_l, orb_false_r in Hv. destruct (a_is_sudo r).
      * rewrite ?orb_false_r in Hv. apply andb_true_iff in Hv as [_ Hv].
        destruct (admins d !! pi_admin_id j); [|done]. rewrite Hv. by rewrite orb_true_r.
      * rewrite ?orb_false_r in Hv. apply andb_true_iff in Hv as [_ Hv].
        apply Z.eqb_eq in Hv as Heq. rewrite Heq, Hr, Z.eqb_refl. done.
Qed.

Lemma review_authorised_witness :
  let boss := mkAdmin "boss" false 0 None None 0 None None None 0 in
  let payer := mkAdmin "r" false 0 None None 0 None None (Some 3) 0 in
  let d := empty_db <| intents := {[ 5 := sample_intent "topup" "awaiting_review" ]} |>
             <| admins := {[ 3 := boss; 7 := payer ]} |> in
  may_review d (3, boss) (sample_intent "topup" "awaiting_review") = true.
Proof.
  refine (proj1 (proj1 (review_authorised
    (empty_db <| intents := {[ 5 := sample_intent "topup" "awaiting_review" ]} |>
       <| admins := {[ 3 := mkAdmin "boss" false 0 None None 0 None None None 0;
                       7 := mkAdmin "r" false 0 None None 0 None None (Some 3) 0 ]} |>)
    10 5 (sample_intent "topup" "awaiting_review") 3
    (mkAdmin "boss" false 0 None None 0 None None None 0) "" _ _) _)); vm_compute; reflexivity.
Defined.

(** *** A paid purchase *)
Lemma free_variant_free d stem n fuel c :
  free_variant d stem n fuel = Some c → find_user d c = None.
Proof.
  revert n. induction fuel as [|fuel IH]; intros n; cbn [free_variant]; [done|].
  destruct (find_user d (stem +:+ pretty (N.of_nat n))) eqn:E; cbn [is_none].
  - apply IH.
  - by intros [= <-].
Qed.

Lemma require_username_taken_admin d name x :
  normalize_username (Some name) = name → username_format_ok name = true →
  find_user d name = None → get_admin d name = Some x →
  require_available_portal_username (Some name) (mkSession d d)
  = (Raise (HTTPException 409 "Username already exists"), mkSession d d).
Proof.
  intros Hn Hf Hu Ha. unfold require_available_portal_username, check_portal_username.
  rewrite bind_gets. cbn [work]. rewrite Hn, Hf, Hu, Ha.
  assert (Hlen : (3 ≤ String.length name ≤ 32)%nat).
  { unfold username_format_ok in Hf. rewrite !andb_true_iff in Hf. destruct Hf as [[H1 H2] _].
    assert (length (String.list_ascii_of_string name) = String.length name) as Hl.
    { clear. induction name; cbn; [done|]. by rewrite IHname. }
    rewrite Hl in *. apply Nat.leb_le in H1, H2. lia. }
  destruct (Nat.ltb_spec (String.length name) 3); [lia|].
  destruct (Nat.ltb_spec 32 (String.length name)); [lia|]. done.
Qed.

(** A paid purchase can dead-end on 409: the fallback name only avoids
    existing users, while account creation also refuses the names of admins, so
    when an admin has taken the reserved name meanwhile, settling the payment
    raises 409 every time, leaves the database unchanged and the intent open. *)
Theorem purchase_admin_clash now pid token d i plan ow name x :
  intents d !! pid = Some i → reviewable_status (pi_status i) = true →
  pi_kind i = "portal_purchase"%string →
  pi_plan_id i ≫= get_plan_by_id d = Some plan → pi_user_id i ≫= (λ u, users d !! u) = Some ow →
  x_new_username (pi_extra i) = Some name →
  normalize_username (Some name) = name → username_format_ok name = true →
  find_user d name = None → get_admin d name = Some x →
  run_session (complete_payment now pid (λ _, true) token) d
  = (Raise (HTTPException 409 "Username already exists"), d).
Proof.
  intros Hi Hr Hk Hplan How Hx Hn Hf Hu Ha. unfold run_session, complete_payment.
  rewrite (bind_ok _ _ _ _ _ (the_intent_run d d pid i Hi)).
  destruct (String.eqb_spec (pi_status i) "completed") as [Hs|_]; [by rewrite Hs in Hr|].
  rewrite Hr, Hk. cbn [negb String.eqb Ascii.eqb Bool.eqb].
  assert (Hp : _apply_portal_purchase now pid i token (mkSession d d)
    = (Raise (HTTPException 409 "Username already exists"), mkSession d d)).
  { unfold _apply_portal_purchase. rewrite !bind_gets. cbn [work]. rewrite Hplan, How. cbn [both].
    rewrite Hx. change (lower (strip (default ""%string (Some name)))) with
      (normalize_username (Some name)). rewrite Hn.
    destruct (String.eqb_spec name "") as [->|_]; [done|].
    rewrite bind_gets. cbn [work]. unfold _free_username. rewrite Hu. cbn [is_none].
    unfold create_account_from_plan. apply bind_raise. apply bind_raise.
    by eapply require_username_taken_admin. }
  by rewrite (bind_raise _ _ _ _ _ Hp).
Qed.

Definition clash_db : DB :=
  empty_db <| intents := {[ 5 := (sample_intent "portal_purchase" "pending")
                <| pi_extra := no_extra <| x_new_username := Some "bob"%string |> |> ]} |>
    <| plans := [mkPlan 1 "p" 10 (Some 50) (Some 30) None true None (Some 7)] |>
    <| users := {[ 1 := sample_user ]} |>
    <| admins := {[ 9 := mkAdmin "bob" false 0 None None 0 None None None 0 ]} |>.

Lemma purchase_admin_clash_witness :
  run_session (complete_payment 10 5 (λ _, true) "abc") clash_db
  = (Raise (HTTPException 409 "Username already exists"), clash_db).
Proof.
  refine (purchase_admin_clash 10 5 "abc" clash_db
    ((sample_intent "portal_purchase" "pending")
                <| pi_extra := no_extra <| x_new_username := Some "bob"%string |> |>)
    (mkPlan 1 "p" 10 (Some 50) (Some 30) None true None (Some 7)) sample_user "bob"
    (9, mkAdmin "bob" false 0 None None 0 None None None 0) _ _ _ _ _ _ _ _ _ _);
    vm_compute; reflexivity.
Defined.

(** A renewal customer of reseller 7, whose wallet holds [wallet] and whose
    matching wholesale tariff costs 500. *)
Definition renew_db (wallet : Z) : DB :=
  empty_db <| intents := {[ 5 := sample_intent "portal_renew" "pending" ]} |>
    <| plans := [mkPlan 1 "p" 10 (Some 50) (Some 30) None true None (Some 7)] |>
    <| tariffs := [mkTariff 1 "t" 500 (Some 50) (Some 30) None None None true] |>
    <| users := {[ 1 := sample_user <| u_admin_id := Some 7 |> <| u_expire := Some 1000 |> ]} |>
    <| admins := {[ 7 := mkAdmin "r" false 0 None None 0 None None None 0 ]} |>
    <| wallets := {[ 7 := wallet ]} |> <| flags := {[ "billing"%string := true ]} |>.

(** A renewal is applied before the reseller is charged: with a wallet below
    the tariff price, settling the payment fails with 402 and the intent stays
    pending, but the customer already has the new period; each retry adds
    another one, and only the one that succeeds is charged. *)
Theorem renewal_applied_before_charge :
  let expire_of d := (users d !! 1) ≫= u_expire in
  let status_of d := pi_status <$> intents d !! 5 in
  let pay d := run_session (complete_payment 500 5 (λ _, true) "") d in
  let d1 := (pay (renew_db 100)).2 in
  let d2 := (pay d1).2 in
  let d3 := (pay (d2 <| wallets := {[ 7 := 500 ]} |>)).2 in
  (pay (renew_db 100)).1 = Raise (HTTPException 402 "Insufficient wallet balance") ∧
  status_of d1 = Some "pending"%string ∧ expire_of d1 = Some (1000 + 30 * 86400) ∧
  balance d1 7 = 100 ∧
  status_of d2 = Some "pending"%string ∧ expire_of d2 = Some (1000 + 60 * 86400) ∧
  status_of d3 = Some "completed"%string ∧ expire_of d3 = Some (1000 + 90 * 86400) ∧
  balance d3 7 = 0.
Proof. vm_compute. repeat split. Qed.

(** *** Two requests settling the same payment

    Each request loads the intent, applies it and stores the completed status,
    in its own session; nothing locks the row between the steps. *)
Inductive worker := Idle | Loaded (i : PaymentIntent) | Applied | Done.

Definition work_step (now pid : Z) (d : DB) (w : worker) : DB * worker :=
  match w with
  | Idle =>
      match intents d !! pid with
      | Some i => if String.eqb (pi_status i) "completed" then (d, Done)
                  else if reviewable_status (pi_status i) then (d, Loaded i) else (d, Done)
      | None => (d, Done)
      end
  | Loaded i => ((run_session (_apply_topup now pid i) d).2, Applied)
  | Applied => ((run_session (set_intent pid (λ i, i <| pi_status := "completed"%string |>
                   <| pi_completed_at := Some now |>) ;;; commit) d).2, Done)
  | Done => (d, Done)
  end.

Inductive race_step (now pid : Z) : DB * worker * worker → DB * worker * worker → Prop :=
  | left_step d w1 w2 d' w' : work_step now pid d w1 = (d', w') →
      race_step now pid (d, w1, w2) (d', w', w2)
  | right_step d w1 w2 d' w' : work_step now pid d w2 = (d', w') →
      race_step now pid (d, w1, w2) (d', w1, w').

(** Two concurrent completions of one top-up can both credit the wallet:
    when both requests load the pending intent before either marks it
    completed, the run ends with both done and two credits for the payment;
    when one request finishes before the other loads, there is one. *)
Theorem topup_race now pid d i :
  intents d !! pid = Some i → pi_kind i = "topup"%string → pi_status i = "pending"%string →
  (∃ d', rtc (race_step now pid) (d, Idle, Idle) (d', Done, Done) ∧
     topup_credits pid d' = (topup_credits pid d + 2)%nat) ∧
  (∃ d', rtc (race_step now pid) (d, Idle, Idle) (d', Done, Done) ∧
     topup_credits pid d' = (topup_credits pid d + 1)%nat).
Proof.
  intros Hi Hk Hs.
  assert (Happly : ∀ e, (∃ j, intents e !! pid = Some j ∧ pi_kind j = "topup"%string) →
    let e' := (run_session (_apply_topup now pid i) e).2 in
    topup_credits pid e' = (topup_credits pid e + 1)%nat ∧
    ∃ j, intents e' !! pid = Some j ∧ pi_kind j = "topup"%string).
  { intros e (j & Hj & Hjk). unfold run_session.
    destruct (apply_topup_any now pid i e j Hj Hjk) as (s & -> & _ & H1 & _ & Hex).
    cbn [saved snd]. rewrite (H1 pid). rewrite decide_True by done. done. }
  set (mark := λ e, (run_session (set_intent pid (λ i, i <| pi_status := "completed"%string |>
    <| pi_completed_at := Some now |>) ;;; commit) e).2).
  assert (Hmark : ∀ e, topup_credits pid (mark e) = topup_credits pid e) by done.
  assert (Hdone : ∀ e j, intents e !! pid = Some j →
    work_step now pid (mark e) Idle = (mark e, Done)).
  { intros e j Hj. unfold work_step.
    assert (intents (mark e) !! pid = Some (completed now j)) as ->; [|done].
    subst mark. cbn. by rewrite lookup_alter_eq, Hj. }
  assert (Hload : work_step now pid d Idle = (d, Loaded i)) by (cbn; rewrite Hi, Hs; done).
  destruct (Happly d ltac:(eauto)) as (Hc1 & j1 & Hj1 & Hk1).
  set (d1 := (run_session (_apply_topup now pid i) d).2) in *.
  destruct (Happly d1 ltac:(eauto)) as (Hc2 & j2 & Hj2 & Hk2).
  set (d2 := (run_session (_apply_topup now pid i) d1).2) in *.
  split.
  - exists (mark (mark d2)). split; [|rewrite !Hmark; lia].
    eapply rtc_l; [by apply left_step|]. eapply rtc_l; [by apply right_step|].
    eapply rtc_l; [by apply left_step|]. eapply rtc_l; [by apply right_step|].
    eapply rtc_l; [by apply left_step|]. eapply rtc_l; [by apply right_step|]. apply rtc_refl.
  - exists (mark d1). split; [|rewrite !Hmark; lia].
    eapply rtc_l; [by apply left_step|]. eapply rtc_l; [by apply left_step|].
    eapply rtc_l; [by apply left_step|]. eapply rtc_l; [apply right_step; by eapply Hdone|].
    apply rtc_refl.
Qed.

Lemma topup_race_witness :
  let d := empty_db <| intents := {[ 5 := sample_intent "topup" "pending" ]} |> in
  ∃ d', rtc (race_step 10 5) (d, Idle, Idle) (d', Done, Done) ∧ topup_credits 5 d' = 2%nat.
Proof.
  exact (proj1 (topup_race 10 5 (empty_db <| intents := {[ 5 := sample_intent "topup" "pending" ]} |>)
    (sample_intent "topup" "pending") eq_refl eq_refl eq_refl)).
Defined.

End PaymentFacts.
