(* ===== verification/Endpoints.v ===== *)
(** * Endpoints: request handlers that move money

    The handlers of [app/routers/billing.py] (manual credit, adjustment) and
    [app/routers/user.py] (reseller edit, plan sale) as they compose the
    billing operations.  Authentication and the feature-flag guard come first;
    the caller's admin row is an argument. *)
From S2P Require Import Prelude Store Users Wallet UsageBilling Tariffs Caps Portal.

Module Endpoints.
Import Quota Lifecycle Wallet UsageBilling Tariffs Caps Portal PlanOps.

Definition _require_billing_enabled : M DB unit :=
  let* on := gets (λ d, is_enabled d "billing") in
  if on then ret tt else raise (HTTPException 404 "Billing is disabled").

(** Catch up held charges, then restore capped users; errors are ignored. *)
Definition _after_wallet_topup (now admin_id : Z) : M DB unit :=
  swallow (bill_reseller_usage now admin_id None ;;;
           enforce_reseller_traffic_caps now ;;; ret tt).

Definition add_credit (now : Z) (username : string) (amount : Z) : M DB Z :=
  _require_billing_enabled ;;;
  if amount <=? 0 then raise (HTTPException 400 "amount must be positive")
  else
  let* target := gets (λ d, get_admin d username) in
  match target with
  | None => raise (HTTPException 404 "Admin not found")
  | Some (aid, _) =>
      add_transaction aid amount "credit" RefNone false ;;;
      _after_wallet_topup now aid ;;;
      get_or_create_wallet aid
  end.

Inductive AdjustMode := ModeSet | ModeDelta.

Definition adjust_wallet (now : Z) (mode : AdjustMode) (username : string) (amount : Z) : M DB Z :=
  _require_billing_enabled ;;;
  let* target := gets (λ d, get_admin d username) in
  match target with
  | None => raise (HTTPException 404 "Admin not found")
  | Some (aid, a) =>
      if a_is_sudo a then raise (HTTPException 400 "Cannot adjust a sudo wallet")
      else
      let* balance := get_or_create_wallet aid in
      let post delta :=
        add_transaction aid delta (if 0 <? delta then "credit" else "debit") RefNone true ;;;
        _after_wallet_topup now aid ;;;
        get_or_create_wallet aid in
      match mode with
      | ModeSet =>
          if amount <? 0 then raise (HTTPException 400 "set amount must be >= 0")
          else if amount - balance =? 0 then ret balance
          else post (amount - balance)
      | ModeDelta =>
          if amount =? 0 then raise (HTTPException 400 "delta amount must be non-zero")
          else post amount
      end
  end.

Definition tariff_http {D A} (m : M D A) : M D A := λ s,
  match m s with
  | (Raise (ResellerTariffError st msg), s') => (Raise (HTTPException st msg), s')
  | r => r
  end.

(** [modify_user] of a reseller: price check, edit, then charge and mark. *)
Definition modify_user (now uid : Z) (admin : Z * Admin) (m : UserModify) : M DB unit :=
  let* row := gets (λ d, users d !! uid) in
  match row with
  | None => raise (HTTPException 404 "User not found")
  | Some u =>
      let next_data_limit := match md_data_limit m with Some x => Some x | None => u_data_limit u end in
      let next_expire := match md_expire m with Some x => Some x | None => u_expire u end in
      let* locks := gets (λ d, resolve_locked_limits_for_admin d now (Some admin) next_data_limit
                      (duration_days_from_expire now next_expire) next_expire None) in
      let m := mkUserModify (md_status m) (md_data_limit m) (md_expire m)
                 (md_on_hold_expire_duration m) (md_on_hold_timeout m) (md_next_plan m)
                 (match locks !! "device_limit" with Some n => Some (Some n) | None => md_device_limit m end)
                 (match locks !! "speed_limit_up" with Some n => Some (Some n) | None => md_speed_limit_up m end)
                 (match locks !! "speed_limit_down" with Some n => Some (Some n) | None => md_speed_limit_down m end) in
      let* tu := (if a_is_sudo admin.2 then ret (None, 0)
                  else tariff_http (prepare_reseller_modify_charge now (Some admin) u
                                      next_data_limit next_expire)) in
      modify (update_user_row uid (λ u, (update_user now m u).2)) ;;;
      commit ;;;
      match tu.1 with
      | None => ret tt
      | Some t =>
          (if 0 <? tu.2
           then charge_reseller_tariff (Some admin) t tu.2 [u_username u] "modify" ;;; ret tt
           else ret tt) ;;;
          modify (update_user_row uid (mark_user_tariff_charged t)) ;;;
          commit
      end
  end.

Definition apply_plan_to_user_endpoint (now uid : Z) (caller : Caller) (plan_id : Z) : M DB unit :=
  _require_billing_enabled ;;;
  let* plan := gets (λ d, get_plan_by_id d plan_id) in
  match plan with
  | None => raise (HTTPException 404 "Plan not found")
  | Some plan =>
      if negb (p_enabled plan) then raise (HTTPException 404 "Plan not found")
      else
      let* owner := gets (λ d, users d !! uid ≫= u_admin_id) in
      if negb (truthy owner) then raise (HTTPException 400 "User has no owning reseller")
      else
      assert_plan_accessible caller plan ;;;
      assert_plan_for_user owner plan ;;;
      let aid := or0 owner in
      let price := p_price plan in
      (if 0 <? price then
         let* balance := get_or_create_wallet aid in
         if balance <? price
         then raise (HTTPException 402 "Insufficient wallet balance — top up before selling this plan")
         else add_transaction aid (- price) "plan_sale" (RefText "user:plan") false ;;; ret tt
       else ret tt) ;;;
      let* order := create_user_order now uid plan "paid" in
      apply_plan_to_user now uid plan ;;;
      mark_order_applied now order
  end.

End Endpoints.
