(* ===== verification/Review.v ===== *)
(** * Review: the background jobs on user rows

    [jobs/review_users.py] (quota, expiry, next plan, on-hold and recovery),
    [jobs/reset_user_data_usage.py] and [jobs/remove_expired_users.py].

    A job streams the rows a query selects and commits row by row; an exception
    ends it, with what was committed kept.  The server's local time is UTC.  The
    webhook reminders of [review] and the reconciliation of WireGuard peer flags
    change no user row and are left out; calls to the live cores are the list
    of [live_action] the job issues. *)
From S2P Require Import Prelude Store Users Wallet UsageBilling Caps Portal.

Module Review.
Import Quota Lifecycle Caps.

(** ** Streaming jobs *)

(** What a job notes about a row while its session is open. *)
Inductive note :=
  | NewlyLimited (uid : Z) | ExpiredUser (uid : Z) | NextPlanUser (uid : Z)
  | Reactivated (uid : Z) | ActivatedOnHold (uid : Z) | LimitedSafetyNet (uid : Z).

(** One row: the row as committed, the notes, and the exception if one escapes. *)
Definition Visit : Type := User * list note * option err.

Definition visit (f : Z → User → Visit) (acc : gmap Z User * list note * option err) (row : Z * User)
    : gmap Z User * list note * option err :=
  let '(us, notes, e) := acc in
  match e with
  | Some _ => acc
  | None => let '(u', n, e') := f row.1 row.2 in (<[row.1 := u']> us, notes ++ n, e')
  end.

(** [for user in db.query(User).filter(sel): f(user)] *)
Definition sweep (sel : User → bool) (f : Z → User → Visit) (us : gmap Z User)
    : gmap Z User * list note * option err :=
  foldl (visit f) (us, [], None) (filter (λ p, sel p.2 = true) (map_to_list us)).

(** ** [review] *)
Definition due_for_review (now : Z) (u : User) : bool :=
  status_eqb (u_status u) active
  && ((pos_limit (u_data_limit u) && (or0 (u_data_limit u) <=? u_used_traffic u))
      || (pos_limit (u_expire u) && (or0 (u_expire u) <=? now))).

Definition over_limit (u : User) : bool :=
  truthy (u_data_limit u) && (or0 (u_data_limit u) <=? u_used_traffic u).
Definition past_expiry (now : Z) (u : User) : bool :=
  truthy (u_expire u) && (or0 (u_expire u) <=? now).

Definition fires (now : Z) (u : User) : bool :=
  match u_next_plan u with
  | Some np => (over_limit u || past_expiry now u)
               && (np_fire_on_either np || (over_limit u && past_expiry now u))
  | None => false
  end.

Definition review_active (now : Z) (uid : Z) (u : User) : Visit :=
  if fires now u then
    match next_plan_row now u with
    | Ok (Some u') => (u', [NextPlanUser uid], None)
    | Ok None => (u, [NextPlanUser uid], None)
    | Raise e => (u, [], Some e)
    end
  else if over_limit u then
    let '(hit, _, u') := limit_user_quota now true false u in
    (u', if (hit : bool) then [NewlyLimited uid] else [], None)
  else if past_expiry now u then (update_user_status now expired u, [ExpiredUser uid], None)
  else (u, [], None).

Definition due_on_hold (now : Z) (u : User) : bool :=
  status_eqb (u_status u) on_hold
  && (negb (is_none (u_online_at u))
      || match u_on_hold_timeout u with Some t => t <=? now | None => false end).

(** The status change is committed before [start_user_expire] runs. *)
Definition review_on_hold (now : Z) (uid : Z) (u : User) : Visit :=
  let base_time := default (u_created_at u) (u_edit_at u) in
  let wakes := match u_online_at u with Some t => base_time <=? t | None => false end
               || match u_on_hold_timeout u with Some t => t <=? now | None => false end in
  if wakes then
    let u1 := update_user_status now active u in
    match start_user_expire now u1 with
    | Ok u2 => (u2, [ActivatedOnHold uid], None)
    | Raise e => (u1, [], Some e)
    end
  else (u, [], None).

Definition review_limited (now : Z) (uid : Z) (u : User) : Visit :=
  if truthy (u_data_limit u) && (or0 (u_data_limit u) <? u_used_traffic u)
  then ((enforce_usage_cap u).2, [], None)
  else match reactivate_if_quota_available now u with
       | (true, u') => (u', [Reactivated uid], None)
       | (false, _) => (u, [LimitedSafetyNet uid], None)
       end.

(** Calls to the live cores, made after the session is closed; each is wrapped in
    [except Exception]. *)
Inductive live_action :=
  | DisconnectEverywhere (ids : list Z)
  | DisconnectIfDue (ids : list Z)
  | RestoreEverywhere (ids : list Z)
  | SyncCoreUsers.

Definition ids_of (f : note → option Z) (ns : list note) : list Z := omap f ns.

Definition some_ids (mk : list Z → live_action) (ids : list Z) : list live_action :=
  match ids with [] => [] | _ => [mk ids] end.

Definition live_after_review (ns : list note) : list live_action :=
  some_ids DisconnectEverywhere (ids_of (λ n, match n with NewlyLimited i => Some i | _ => None end) ns)
  ++ some_ids DisconnectEverywhere (ids_of (λ n, match n with ExpiredUser i => Some i | _ => None end) ns)
  ++ some_ids DisconnectIfDue (ids_of (λ n, match n with LimitedSafetyNet i => Some i | _ => None end) ns)
  ++ some_ids RestoreEverywhere
       (ids_of (λ n, match n with NextPlanUser i => Some i | _ => None end) ns
        ++ ids_of (λ n, match n with Reactivated i => Some i | _ => None end) ns)
  ++ match ids_of (λ n, match n with ActivatedOnHold i => Some i | _ => None end) ns with
     | [] => [] | _ => [SyncCoreUsers] end.

(** The three passes of the first session, on the table of users. *)
Definition review_users (now : Z) (us : gmap Z User) : gmap Z User * list note * option err :=
  let '(us, n1, e) := sweep (due_for_review now) (review_active now) us in
  match e with
  | Some _ => (us, n1, e)
  | None =>
      let '(us, n2, e) := sweep (due_on_hold now) (review_on_hold now) us in
      match e with
      | Some _ => (us, n1 ++ n2, e)
      | None =>
          let '(us, n3, e) := sweep (λ u, status_eqb (u_status u) limited) (review_limited now) us in
          (us, n1 ++ n2 ++ n3, e)
      end
  end.

(** The first session on the database.  A next plan that took effect is noted, and
    [crud.reset_user_by_next] has cleared the node usages of its user with the row. *)
Definition after_first_session (us : gmap Z User) (ns : list note) (d : DB) : DB :=
  foldl (λ d uid, clear_node_usages uid d) (d <| users := us |>)
    (ids_of (λ n, match n with NextPlanUser i => Some i | _ => None end) ns).

(** The whole job: the database it leaves, the live calls and the exception. *)
Definition review (now : Z) (d : DB) : DB * list live_action * option err :=
  let '(us, ns, e) := review_users now (users d) in
  let d := after_first_session us ns d in
  match e with
  | Some _ => (d, [], e)
  | None =>
      let '(r, d') := run_session (enforce_reseller_traffic_caps now) d in
      let caps := match r with
                  | Ok (suspended, reactivated) =>
                      some_ids DisconnectEverywhere suspended.*1 ++ some_ids RestoreEverywhere reactivated
                  | Raise _ => []
                  end in
      (d', live_after_review ns ++ caps, None)
  end.

(** ** [jobs/reset_user_data_usage.py] *)
Definition reset_strategy_to_days (strategy : string) : option Z :=
  if bool_decide (strategy = "day") then Some 1
  else if bool_decide (strategy = "week") then Some 7
  else if bool_decide (strategy = "month") then Some 30
  else if bool_decide (strategy = "year") then Some 365
  else None.

Definition last_traffic_reset_time (u : User) : Z := default (u_created_at u) (u_last_reset_at u).

(** [(now - last_reset).days] is a floor. *)
Definition reset_due (now : Z) (u : User) : bool :=
  status_in (u_status u) [active; limited]
  && match reset_strategy_to_days (u_data_limit_reset_strategy u) with
     | Some days => days <=? (now - last_traffic_reset_time u) / 86400
     | None => false
     end.

(** The database after the job, and whether the core is synced. *)
Definition reset_user_data_usage_job (now : Z) (d : DB) : DB * bool :=
  let due := filter (λ p, reset_due now p.2 = true) (map_to_list (users d)) in
  (foldl (λ d p, reset_user_data_usage now p.1 d) d due, negb (bool_decide (due = []))).

(** ** [jobs/remove_expired_users.py]

    [crud.autodelete_expired_users]: a row without [last_status_change] makes the
    comparison raise before anything is deleted. *)
Definition remove_expired_users (now global_days : Z) (include_limited : bool) : M DB (list Z) :=
  let due u := autodelete_due now global_days include_limited (u_auto_delete_in_days u) u in
  let* rows := query (λ d, map_to_list (users d)) in
  if bool_decide (Exists (λ p, due p.2 = None) rows) then raise TypeError
  else
    let ids := (filter (λ p, due p.2 = Some true) rows).*1 in
    Portal.remove_users_by_ids ids ;;;
    ret ids.
End Review.

(** ** Facts *)
Module ReviewFacts.
Import Quota Lifecycle QuotaFacts Caps Review.

(** *** Sweeps *)
Section sweep.
Context (sel : User → bool) (f : Z → User → Visit).

(** After a raise nothing is visited. *)
Lemma visit_raised us ns e l : foldl (visit f) (us, ns, Some e) l = (us, ns, Some e).
Proof. induction l; cbn; auto. Qed.

(** A row is left as it was or replaced by its visit, and only rows of the query are. *)
Lemma visits_lookup l us ns :
  NoDup l.*1 →
  let '(us', _, e) := foldl (visit f) (us, ns, None) l in
  ∀ uid, us' !! uid = us !! uid
       ∨ ∃ u, (uid, u) ∈ l ∧ us' !! uid = Some (f uid u).1.1.
Proof.
  revert us ns. induction l as [|[i u] l IH]; intros us ns Hn; [by left|].
  cbn in Hn. apply NoDup_cons in Hn as [Hi Hn]. cbn.
  destruct (f i u) as [[u' n] e'] eqn:E. destruct e' as [e'|].
  - rewrite visit_raised. intros uid. destruct (decide (uid = i)) as [->|].
    + right. exists u. rewrite lookup_insert_eq, E. split; [constructor|done].
    + left. by rewrite lookup_insert_ne.
  - specialize (IH (<[i:=u']> us) (ns ++ n) Hn). destruct (foldl _ _ l) as [[us' ns'] e''].
    intros uid. destruct (IH uid) as [H|(v & Hv & H)].
    + destruct (decide (uid = i)) as [->|].
      * right. exists u. rewrite H, lookup_insert_eq, E. split; [constructor|done].
      * left. by rewrite H, lookup_insert_ne.
    + right. exists v. split; [by constructor|done].
Qed.

(** A visit that raises ends the sweep with an exception. *)
Lemma visits_raise l us ns p :
  p ∈ l → (f p.1 p.2).2 ≠ None → (foldl (visit f) (us, ns, None) l).2 ≠ None.
Proof.
  intros Hin He. revert us ns. induction Hin as [p l|p q l Hin IH]; intros us ns; cbn.
  - destruct (f p.1 p.2) as [[u' n] e'] eqn:E. destruct e' as [e|]; [|done]. by rewrite visit_raised.
  - destruct (f q.1 q.2) as [[u' n] [e|]]; [by rewrite visit_raised|auto].
Qed.

(** Without a raise every row of the query is visited. *)
Lemma visits_total l us ns :
  NoDup l.*1 → (∀ p, p ∈ l → (f p.1 p.2).2 = None) →
  let '(us', _, e) := foldl (visit f) (us, ns, None) l in
  e = None ∧ (∀ uid, uid ∉ l.*1 → us' !! uid = us !! uid)
  ∧ ∀ uid u, (uid, u) ∈ l → us' !! uid = Some (f uid u).1.1.
Proof.
  revert us ns. induction l as [|[i u] l IH]; intros us ns Hn Hf.
  { cbn. split_and!; [done|done|]. by intros ? ? ?%elem_of_nil. }
  cbn in Hn. apply NoDup_cons in Hn as [Hi Hn]. cbn.
  pose proof (Hf (i, u) (list_elem_of_here _ _)) as E. cbn in E.
  destruct (f i u) as [[u' n] e'] eqn:Ef. cbn in E. subst e'.
  specialize (IH (<[i:=u']> us) (ns ++ n) Hn (λ p Hp, Hf p (list_elem_of_further _ _ _ Hp))).
  destruct (foldl _ _ l) as [[us' ns'] e'']. destruct IH as (-> & H1 & H2). split_and!; [done|..].
  - intros uid Huid. apply not_elem_of_cons in Huid as [??]. rewrite H1 by done. by rewrite lookup_insert_ne.
  - intros uid v Hin. apply elem_of_cons in Hin as [E|Hin]; [|by apply H2]. simplify_eq.
    rewrite H1 by done. by rewrite lookup_insert_eq, Ef.
Qed.

Definition query_rows (us : gmap Z User) : list (Z * User) :=
  filter (λ p, sel p.2 = true) (map_to_list us).

Lemma query_rows_nodup us : NoDup (query_rows us).*1.
Proof.
  eapply sublist_NoDup; [apply (NoDup_fst_map_to_list us)|]. apply fmap_sublist, sublist_filter.
Qed.

Lemma elem_of_query_rows us uid u : (uid, u) ∈ query_rows us ↔ us !! uid = Some u ∧ sel u = true.
Proof. unfold query_rows. rewrite list_elem_of_filter, elem_of_map_to_list. cbn. naive_solver. Qed.

Lemma sweep_rows us :
  (∀ uid u, us !! uid = Some u → sel u = true → (f uid u).2 = None) →
  let '(us', _, e) := sweep sel f us in
  e = None ∧ ∀ uid, us' !! uid = (λ u, if sel u then (f uid u).1.1 else u) <$> us !! uid.
Proof.
  intros Hf. unfold sweep. fold (query_rows us).
  pose proof (visits_total (query_rows us) us [] (query_rows_nodup us)) as H.
  destruct (foldl _ _ _) as [[us' ns] e]. destruct H as (-> & H1 & H2).
  { intros [i u] [? ?]%elem_of_query_rows. by apply Hf. }
  split; [done|]. intros uid. destruct (us !! uid) as [u|] eqn:Hu; cbn.
  - destruct (sel u) eqn:Hs; [by apply H2, elem_of_query_rows|]. rewrite H1; [done|].
    intros ([i v] & -> & Hin)%list_elem_of_fmap. cbn in *. apply elem_of_query_rows in Hin as [??]. congruence.
  - rewrite H1; [done|]. intros ([i v] & -> & Hin)%list_elem_of_fmap. cbn in *.
    apply elem_of_query_rows in Hin as [??]. congruence.
Qed.

Lemma sweep_any us :
  let '(us', _, e) := sweep sel f us in
  ∀ uid, us' !! uid = us !! uid
       ∨ ∃ u, us !! uid = Some u ∧ sel u = true ∧ us' !! uid = Some (f uid u).1.1.
Proof.
  unfold sweep. fold (query_rows us).
  pose proof (visits_lookup (query_rows us) us [] (query_rows_nodup us)) as H.
  destruct (foldl _ _ _) as [[us' ns] e]. intros uid. destruct (H uid) as [?|(u & Hin & ?)]; [by left|].
  right. exists u. apply elem_of_query_rows in Hin as [??]. done.
Qed.

Lemma sweep_raise us uid u :
  us !! uid = Some u → sel u = true → (f uid u).2 ≠ None → (sweep sel f us).2 ≠ None.
Proof.
  intros Hu Hs He. unfold sweep. fold (query_rows us). apply (visits_raise _ _ _ (uid, u)); [|exact He].
  by apply elem_of_query_rows.
Qed.
End sweep.

(** *** One row through the three passes *)

(** What the writers of rows keep: limits and durations are not negative, an on-hold
    account has its duration, and a next plan that carries the rest over has a
    limit to carry it from. *)
Record row_ok (u : User) : Prop := mkRowOk {
  ok_limit : ∀ l, u_data_limit u = Some l → 0 ≤ l;
  ok_plan : ∀ np, u_next_plan u = Some np →
    0 ≤ np_data_limit np ∧ (∀ e, np_expire np = Some e → 0 ≤ e)
    ∧ (np_add_remaining_traffic np = true ∨ ∃ l, u_data_limit u = Some l ∧ u_used_traffic u ≤ l);
  ok_hold : u_status u = on_hold → ∃ dur, u_on_hold_expire_duration u = Some dur }.

(** [row_ok] reads five columns. *)
Lemma row_ok_frame u u' :
  u_data_limit u' = u_data_limit u → u_next_plan u' = u_next_plan u →
  u_used_traffic u' ≤ u_used_traffic u → u_status u' ≠ on_hold → row_ok u → row_ok u'.
Proof.
  intros H1 H2 H3 H4 [Hl Hp _]. split.
  - intros l. rewrite H1. apply Hl.
  - intros np. rewrite H2. intros (? & ? & [?|(l & ? & ?)])%Hp; split_and!; auto.
    right. exists l. rewrite H1. split; [done|lia].
  - done.
Qed.

Definition pass_active (now : Z) (u : User) : User :=
  if due_for_review now u then (review_active now 0 u).1.1 else u.
Definition pass_on_hold (now : Z) (u : User) : User :=
  if due_on_hold now u then (review_on_hold now 0 u).1.1 else u.
Definition pass_limited (now : Z) (u : User) : User :=
  if status_eqb (u_status u) limited then (review_limited now 0 u).1.1 else u.
Definition review_row (now : Z) (u : User) : User := pass_limited now (pass_on_hold now (pass_active now u)).

(** The row does not depend on its id. *)
Lemma review_active_id now uid u : (review_active now uid u).1.1 = (review_active now 0 u).1.1.
Proof. unfold review_active. by repeat case_match. Qed.
Lemma review_on_hold_id now uid u : (review_on_hold now uid u).1.1 = (review_on_hold now 0 u).1.1.
Proof. unfold review_on_hold. by repeat case_match. Qed.
Lemma review_limited_id now uid u : (review_limited now uid u).1.1 = (review_limited now 0 u).1.1.
Proof. unfold review_limited. by repeat case_match. Qed.

(** An active row is not on hold; and so on for the other statuses. *)
Lemma due_active now u : due_for_review now u = true → u_status u = active.
Proof. unfold due_for_review. by intros [?%status_eqb_eq _]%andb_true_iff. Qed.
Lemma due_hold now u : due_on_hold now u = true → u_status u = on_hold.
Proof. unfold due_on_hold. by intros [?%status_eqb_eq _]%andb_true_iff. Qed.
Lemma not_due now u : u_status u ≠ active → due_for_review now u = false.
Proof. intros H. unfold due_for_review. by rewrite (proj2 (status_eqb_neq _ _) H). Qed.
Lemma not_held now u : u_status u ≠ on_hold → due_on_hold now u = false.
Proof. intros H. unfold due_on_hold. by rewrite (proj2 (status_eqb_neq _ _) H). Qed.

Lemma over_limit_exhausted u : row_ok u → over_limit u = quota_exhausted u.
Proof.
  intros [Hl _ _]. unfold over_limit, quota_exhausted. destruct (u_data_limit u) as [l|]; [|done].
  specialize (Hl l eq_refl). cbn. by destruct (Z.eqb_spec l 0), (Z.ltb_spec 0 l); try lia.
Qed.

(** The next plan: a fresh active account. *)
Lemma next_plan_ok now u : row_ok u → fires now u = true →
  ∃ u', next_plan_row now u = Ok (Some u') ∧ row_ok u' ∧ due_for_review now u' = false ∧ u_status u' = active.
Proof.
  intros [Hl Hp Hh]. unfold fires. destruct (u_next_plan u) as [np|] eqn:Hnp; [|done]. intros _.
  destruct (Hp np eq_refl) as (Hd & He & Hc).
  assert (Hq : ∀ lim ex lg, 0 ≤ lim → (∀ e, ex = Some e → now < e) →
    let u' := u <| u_usage_logs := lg |> <| u_last_reset_at := Some now |> <| u_status := active |>
      <| u_data_limit := Some lim |> <| u_expire := ex |> <| u_used_traffic := 0 |>
      <| u_used_traffic_up := 0 |> <| u_used_traffic_down := 0 |> <| u_overage_traffic := 0 |>
      <| u_next_plan := None |> in row_ok u' ∧ due_for_review now u' = false ∧ u_status u' = active).
  { intros lim ex lg Hlim Hex u'. split_and!; [|unfold due_for_review|done].
    - split; [by intros l [= <-]|done|done].
    - change (u_status u') with active. change (u_data_limit u') with (Some lim).
      change (u_used_traffic u') with 0. change (u_expire u') with ex. cbn.
      destruct (Z.ltb_spec 0 lim), (Z.leb_spec lim 0); try lia; cbn; (destruct ex as [e|]; [|done]);
        specialize (Hex e eq_refl); cbn; destruct (Z.leb_spec e now); try lia; apply andb_false_r. }
  unfold next_plan_row. rewrite Hnp.
  assert (Hx : ∀ e, (if truthy (np_expire np) then Some (now + or0 (np_expire np)) else None) = Some e → now < e).
  { intros e. destruct (np_expire np) as [x|]; [|done]. cbn. specialize (He x eq_refl).
    destruct (Z.eqb_spec x 0); [done|]. intros [= <-]. lia. }
  destruct (np_add_remaining_traffic np).
  - eexists. split; [done|]. apply Hq; [lia|done].
  - destruct Hc as [?|(l & -> & Hle)]; [done|]. eexists. split; [done|]. apply Hq; [lia|done].
Qed.

(** Running out of quota: limited, and exhausted. *)
Lemma limit_ok now u : row_ok u → u_status u = active → over_limit u = true →
  ∃ b c, limit_user_quota now true false u = (b, c, (limit_user_quota now true false u).2)
    ∧ let u' := (limit_user_quota now true false u).2 in
      row_ok u' ∧ u_status u' = limited ∧ quota_exhausted u' = true.
Proof.
  intros Hok Ha Ho. rewrite over_limit_exhausted in Ho by done.
  apply quota_exhausted_true in Ho as (l & Hl & Hpos & Hle).
  destruct (limit_user_quota now true false u) as [[b c] u'] eqn:E. exists b, c. split; [done|]. cbn [snd].
  unfold limit_user_quota, enforce_usage_cap in E. rewrite Hl in E. cbn [pos_limit or0 negb] in E.
  destruct (Z.ltb_spec 0 l); [|lia]. cbn [negb] in E. rewrite (Z.min_r (u_used_traffic u) l) in E by lia.
  set (v := (if l =? u_used_traffic u then (false, u) else (true, u <| u_used_traffic := l |>)).2) in E.
  assert (Hv : u_status v = active ∧ u_data_limit v = Some l ∧ u_used_traffic v = l ∧ u_next_plan v = u_next_plan u).
  { unfold v. by destruct (Z.eqb_spec l (u_used_traffic u)) as [->|]. }
  destruct Hv as (V1 & V2 & V3 & V4). rewrite V1, V2, V3 in E. cbn [status_eqb negb truthy or0] in E.
  rewrite (proj2 (Z.eqb_neq l 0)), (proj2 (Z.ltb_ge l l)) in E by lia. cbn [negb orb] in E.
  injection E as _ _ <-. unfold update_user_status. cbn [status_in existsb status_eqb].
  split_and!; [|done|].
  - apply (row_ok_frame u); [by rewrite Hl|done|change (u_used_traffic v ≤ u_used_traffic u); lia|done|done].
  - apply quota_exhausted_true. exists l. split_and!; [done|done|]. change (l ≤ u_used_traffic v). lia.
Qed.

(** First pass. *)
Lemma pass_active_ok now u : row_ok u → u_status u = active →
  let u' := pass_active now u in
  row_ok u' ∧ ((u_status u' = active ∧ due_for_review now u' = false)
    ∨ (u_status u' = limited ∧ quota_exhausted u' = true) ∨ u_status u' = expired).
Proof.
  intros Hok Ha. unfold pass_active. destruct (due_for_review now u) eqn:Hd; [|split; [done|left; done]].
  unfold review_active. destruct (fires now u) eqn:Hf.
  { destruct (next_plan_ok now u Hok Hf) as (u' & -> & ? & ? & ?). cbn. split; [done|left; done]. }
  destruct (over_limit u) eqn:Ho.
  { destruct (limit_ok now u Hok Ha Ho) as (b & c & -> & ? & ? & ?). cbn. split; [done|right; left; done]. }
  assert (Hp : past_expiry now u = true).
  { unfold due_for_review in Hd. apply andb_true_iff in Hd as [_ [Hd|Hd]%orb_true_iff].
    - rewrite over_limit_exhausted in Ho by done. unfold quota_exhausted in Ho.
      destruct (pos_limit (u_data_limit u)); cbn in Hd; congruence.
    - unfold past_expiry. apply andb_true_iff in Hd as [H1 H2]. rewrite H2.
      apply pos_limit_Some in H1 as (e & -> & ?). cbn. by destruct (Z.eqb_spec e 0); [lia|]. }
  rewrite Hp. cbn. split; [|by right; right].
  by apply (row_ok_frame u).
Qed.

(** Second pass. *)
Lemma wake_ok now uid u : row_ok u → u_status u = on_hold →
  (review_on_hold now uid u).2 = None ∧
  let u' := (review_on_hold now uid u).1.1 in u' = u ∨ (row_ok u' ∧ u_status u' = active).
Proof.
  intros Hok Hs. destruct (ok_hold _ Hok Hs) as [dur Hd]. unfold review_on_hold.
  destruct (_ || _); [|by split; [|left]]. unfold start_user_expire.
  change (u_on_hold_expire_duration (update_user_status now active u)) with (u_on_hold_expire_duration u).
  rewrite Hd. split; [done|]. right. split; [|done]. by apply (row_ok_frame u).
Qed.

Lemma pass_on_hold_ok now u : row_ok u → u_status u = on_hold →
  pass_on_hold now u = u ∨ (row_ok (pass_on_hold now u) ∧ u_status (pass_on_hold now u) = active).
Proof.
  intros Hok Hs. unfold pass_on_hold. destruct (due_on_hold now u); [|by left].
  by destruct (wake_ok now 0 u Hok Hs) as [_ ?].
Qed.

(** Third pass: capped, reactivated or left. *)
Lemma pass_limited_ok now u : row_ok u → u_status u = limited →
  let u' := pass_limited now u in
  row_ok u' ∧ (u' = u ∨ u_status u' = active ∨ (u_status u' = limited ∧ quota_exhausted u' = true)).
Proof.
  intros Hok Hs. unfold pass_limited, review_limited. rewrite Hs. cbn [status_eqb].
  destruct (truthy (u_data_limit u) && _) eqn:Ht.
  - apply andb_true_iff in Ht as [H1 H2%Z.ltb_lt]. destruct (u_data_limit u) as [l|] eqn:Hl; [|done].
    cbn in H1, H2. pose proof (ok_limit _ Hok l Hl). assert (0 < l) by (destruct (Z.eqb_spec l 0); [done|lia]).
    cbn [fst]. unfold enforce_usage_cap. rewrite Hl. cbn [pos_limit or0]. destruct (Z.ltb_spec 0 l); [|lia].
    cbn [negb]. rewrite Z.min_r by lia. destruct (Z.eqb_spec l (u_used_traffic u)); [lia|]. cbn [snd].
    split; [apply (row_ok_frame u); [done|done|change (l ≤ u_used_traffic u); lia|by change (u_status u ≠ on_hold); rewrite Hs|done]|].
    right; right. split; [done|]. apply quota_exhausted_true. exists l. split_and!; [done|done|]. change (l ≤ l). lia.
  - unfold reactivate_if_quota_available. rewrite Hs. cbn [status_eqb negb orb].
    destruct (quota_exhausted u); [by split; [|left]|]. destruct (0 <? u_overage_traffic u); [by split; [|left]|].
    cbn. split; [by apply (row_ok_frame u)|by right; left].
Qed.

Lemma pass_limited_exhausted now u : row_ok u → u_status u = limited → quota_exhausted u = true →
  u_status (pass_limited now u) = limited.
Proof.
  intros Hok Hs Hq. unfold pass_limited, review_limited. rewrite Hs. cbn [status_eqb].
  destruct (_ && _).
  - cbn. unfold enforce_usage_cap. by destruct (pos_limit _), (_ =? _).
  - unfold reactivate_if_quota_available. by rewrite Hs, Hq.
Qed.

Lemma pass_limited_id now u : u_status u ≠ limited → pass_limited now u = u.
Proof. intros H. unfold pass_limited. by rewrite (proj2 (status_eqb_neq _ _) H). Qed.
Lemma pass_on_hold_id now u : u_status u ≠ on_hold → pass_on_hold now u = u.
Proof. intros H. unfold pass_on_hold. by rewrite not_held. Qed.
Lemma pass_active_id now u : u_status u ≠ active → pass_active now u = u.
Proof. intros H. unfold pass_active. by rewrite not_due. Qed.

(** An active row leaves the review within quota and expiry, or not active. *)
Lemma review_row_active now u : row_ok u → u_status u = active →
  row_ok (review_row now u) ∧ due_for_review now (review_row now u) = false
  ∧ (u_status (review_row now u) = active ∨ u_status (review_row now u) = expired
     ∨ (u_status (review_row now u) = limited ∧ quota_exhausted (review_row now u) = true)).
Proof.
  intros Hok Ha. unfold review_row. destruct (pass_active_ok now u Hok Ha) as [Hok1 H1].
  set (u1 := pass_active now u) in *.
  rewrite pass_on_hold_id by (destruct H1 as [[? _]|[[? _]|?]]; congruence).
  destruct H1 as [[Hs Hd]|[[Hs Hq]|Hs]].
  - rewrite pass_limited_id by congruence. auto.
  - pose proof (pass_limited_exhausted now u1 Hok1 Hs Hq) as Hl.
    destruct (pass_limited_ok now u1 Hok1 Hs) as [Hok2 H2]. split_and!; [done|apply not_due; congruence|].
    right; right. destruct H2 as [E|[?|?]]; [by rewrite E|congruence|done].
  - rewrite pass_limited_id by congruence. split_and!; [done|apply not_due; congruence|auto].
Qed.

Lemma review_row_ok now u : row_ok u → row_ok (review_row now u).
Proof.
  intros Hok. destruct (decide (u_status u = active)) as [Ha|Ha]; [by apply review_row_active|].
  unfold review_row. rewrite pass_active_id by done. destruct (decide (u_status u = on_hold)) as [Hh|Hh].
  - destruct (pass_on_hold_ok now u Hok Hh) as [E|[? Hs]]; rewrite pass_limited_id; try congruence.
  - rewrite pass_on_hold_id by done. destruct (decide (u_status u = limited)) as [Hl|Hl].
    + by apply pass_limited_ok.
    + by rewrite pass_limited_id.
Qed.

(** A row the review does not leave active is not activated by the next one. *)
Lemma review_row_stays_off now u : row_ok u →
  u_status (review_row now u) ≠ active → u_status (review_row now (review_row now u)) ≠ active.
Proof.
  intros Hok.
  assert (Hlim : ∀ v, row_ok v → u_status v = limited → quota_exhausted v = true →
    u_status (review_row now v) ≠ active).
  { intros v Hv Hs Hq. unfold review_row. rewrite pass_active_id, pass_on_hold_id by congruence.
    by rewrite pass_limited_exhausted. }
  assert (Hexp : ∀ v, u_status v = expired → u_status (review_row now v) ≠ active).
  { intros v Hs. unfold review_row. rewrite pass_active_id, pass_on_hold_id, pass_limited_id by congruence.
    congruence. }
  assert (Hfix : review_row now u = u → u_status (review_row now u) ≠ active →
    u_status (review_row now (review_row now u)) ≠ active) by (intros E; by rewrite !E).
  destruct (decide (u_status u = active)) as [Ha|Ha].
  { destruct (review_row_active now u Hok Ha) as (Hok1 & _ & [?|[Hs|[Hs Hq]]]); [done| |auto].
    intros _. by apply Hexp. }
  destruct (decide (u_status u = on_hold)) as [Hh|Hh].
  { destruct (pass_on_hold_ok now u Hok Hh) as [E|[_ E]].
    - apply Hfix. unfold review_row. rewrite pass_active_id, E, pass_limited_id by congruence. done.
    - intros H. exfalso. apply H. unfold review_row. by rewrite pass_active_id, pass_limited_id by congruence. }
  destruct (decide (u_status u = limited)) as [Hl|Hl].
  - assert (E : review_row now u = pass_limited now u)
      by (unfold review_row; by rewrite pass_active_id, pass_on_hold_id by congruence).
    destruct (pass_limited_ok now u Hok Hl) as [Hok2 [E2|[E2|[Hs Hq]]]].
    + apply Hfix. congruence.
    + intros H. by rewrite E in H.
    + rewrite E. auto.
  - apply Hfix. unfold review_row. by rewrite pass_active_id, pass_on_hold_id, pass_limited_id by congruence.
Qed.

Lemma review_row_twice now u : row_ok u → due_for_review now (review_row now (review_row now u)) = false.
Proof.
  intros Hok. destruct (decide (u_status (review_row now u) = active)) as [Ha|Ha].
  - apply review_row_active; [by apply review_row_ok|done].
  - apply not_due. by apply review_row_stays_off.
Qed.
(** *** The whole table *)
Lemma review_active_no_error now uid u : row_ok u → (review_active now uid u).2 = None.
Proof.
  intros Hok. unfold review_active. destruct (fires now u) eqn:Hf.
  - by destruct (next_plan_ok now u Hok Hf) as (u' & -> & _).
  - destruct (over_limit u); [by destruct (limit_user_quota _ _ _ _) as [[? ?] ?]|]. by destruct (past_expiry now u).
Qed.

Lemma pass_active_row_ok now u : row_ok u → row_ok (pass_active now u).
Proof.
  intros Hok. destruct (decide (u_status u = active)); [by apply pass_active_ok|]. by rewrite pass_active_id.
Qed.
Lemma pass_on_hold_row_ok now u : row_ok u → row_ok (pass_on_hold now u).
Proof.
  intros Hok. destruct (decide (u_status u = on_hold)) as [Hh|]; [|by rewrite pass_on_hold_id].
  by destruct (pass_on_hold_ok now u Hok Hh) as [-> | [? _]].
Qed.

Lemma fmap_row_ok (f : User → User) (us us' : gmap Z User) :
  (∀ u, row_ok u → row_ok (f u)) → (∀ uid : Z, us' !! uid = f <$> us !! uid) →
  map_Forall (λ _, row_ok) us → map_Forall (λ _, row_ok) us'.
Proof.
  intros Hf E H uid u. rewrite E. destruct (us !! uid) as [v|] eqn:Hv; [|done]. intros [= <-].
  apply Hf. by apply (H uid).
Qed.

(** Without a row that raises, the review is [review_row] on every row. *)
Lemma review_users_rows now us :
  map_Forall (λ _, row_ok) us →
  let '(us', _, e) := review_users now us in
  e = None ∧ ∀ uid, us' !! uid = review_row now <$> us !! uid.
Proof.
  intros Hok. unfold review_users.
  pose proof (sweep_rows (due_for_review now) (review_active now) us) as H1.
  destruct (sweep _ _ us) as [[us1 n1] e1]. destruct H1 as [-> H1].
  { intros uid u Hu _. apply review_active_no_error. by apply (Hok uid). }
  assert (E1 : ∀ uid, us1 !! uid = pass_active now <$> us !! uid).
  { intros uid. rewrite H1. destruct (us !! uid); [|done]. cbn. unfold pass_active. by rewrite review_active_id. }
  pose proof (fmap_row_ok _ _ _ (pass_active_row_ok now) E1 Hok) as Hok1.
  pose proof (sweep_rows (due_on_hold now) (review_on_hold now) us1) as H2.
  destruct (sweep _ _ us1) as [[us2 n2] e2]. destruct H2 as [-> H2].
  { intros uid u Hu Hd. apply wake_ok; [by apply (Hok1 uid)|by apply due_hold in Hd]. }
  assert (E2 : ∀ uid, us2 !! uid = pass_on_hold now <$> us1 !! uid).
  { intros uid. rewrite H2. destruct (us1 !! uid); [|done]. cbn. unfold pass_on_hold. by rewrite review_on_hold_id. }
  pose proof (sweep_rows (λ u, status_eqb (u_status u) limited) (review_limited now) us2) as H3.
  destruct (sweep _ _ us2) as [[us3 n3] e3]. destruct H3 as [-> H3].
  { intros uid u _ _. unfold review_limited. by repeat case_match. }
  split; [done|]. intros uid. rewrite H3, E2, E1. destruct (us !! uid) as [u|]; [|done]. cbn.
  unfold review_row, pass_limited at 1. by rewrite review_limited_id.
Qed.

(** Being served: active, with quota and time left. *)
Definition entitled (now : Z) (u : User) : Prop :=
  quota_exhausted u = false ∧ ∀ e, u_expire u = Some e → 0 < e → now < e.

Lemma not_due_entitled now u : due_for_review now u = false → u_status u = active → entitled now u.
Proof.
  intros Hd Ha. unfold due_for_review in Hd. rewrite Ha in Hd. cbn [status_eqb andb] in Hd.
  apply orb_false_iff in Hd as [H1 H2]. split.
  - unfold quota_exhausted. destruct (pos_limit _); done.
  - intros e He Hpos. rewrite He in H2. cbn in H2. destruct (Z.ltb_spec 0 e); [|lia].
    cbn in H2. by apply Z.leb_gt in H2.
Qed.


(** *** The first session on the database *)
Lemma after_first_session_frame us ns d :
  ∃ rows, after_first_session us ns d = d <| users := us |> <| node_user_usages := rows |>.
Proof. unfold after_first_session. rewrite LifecycleFacts.clear_all_frame. by eexists. Qed.

(** A row whose next plan takes effect is changed as [crud.reset_user_by_next] changes
    the database: the row and the node usages of its user. *)
Lemma next_plan_committed now uid u d : users d !! uid = Some u → fires now u = true →
  let v := review_active now uid u in
  match v.2 with
  | Some e => reset_user_by_next now uid u d = Raise e ∧ v.1 = (u, [])
  | None => reset_user_by_next now uid u d = Ok (after_first_session (<[uid := v.1.1]> (users d)) v.1.2 d)
  end.
Proof.
  intros Hu Hf. unfold review_active, reset_user_by_next. rewrite Hf.
  destruct (next_plan_row now u) as [[u'|]|e] eqn:E; [done| |done].
  unfold next_plan_row in E. unfold fires in Hf. destruct (u_next_plan u); [|done]. by repeat case_match.
Qed.

(** *** A row that stops the job *)

(** An expired account without a data limit whose next plan carries the rest over. *)
Definition poison (now : Z) (u : User) : Prop :=
  u_status u = active ∧ u_data_limit u = None
  ∧ (∃ e, u_expire u = Some e ∧ 0 < e ≤ now)
  ∧ ∃ np, u_next_plan u = Some np ∧ np_fire_on_either np = true ∧ np_add_remaining_traffic np = false.

Lemma poison_due now u : poison now u → due_for_review now u = true.
Proof.
  intros (Ha & _ & (e & He & Hle) & _). unfold due_for_review. rewrite Ha, He. cbn.
  rewrite (proj2 (Z.ltb_lt 0 e)), (proj2 (Z.leb_le e now)) by lia. apply orb_true_r.
Qed.

Lemma poison_raises now uid u : poison now u → review_active now uid u = (u, [], Some TypeError).
Proof.
  intros (Ha & Hl & (e & He & Hle) & np & Hnp & Hf & Hr). unfold review_active.
  assert (fires now u = true) as ->.
  { unfold fires, past_expiry. rewrite Hnp, Hf, He. cbn. rewrite (proj2 (Z.eqb_neq e 0)), (proj2 (Z.leb_le e now)) by lia.
    cbn. by rewrite orb_true_r. }
  unfold next_plan_row. by rewrite Hnp, Hr, Hl.
Qed.

(** One row stops the whole job: with an expired unlimited account whose next plan
    carries the rest over, [review] raises; it makes no live call, so accounts it
    has just limited or expired keep their connections; no account that is on
    hold, limited or otherwise not due is touched, no reseller cap is enforced;
    and the row is unchanged, so every later run fails in the same way. *)
Theorem poison_row_starves_review now now' d uid u :
  users d !! uid = Some u → poison now u → now ≤ now' →
  let '(d', live, e) := review now d in
  e ≠ None ∧ live = [] ∧ (∃ rows, d' = d <| users := users d' |> <| node_user_usages := rows |>)
  ∧ (∀ v r, users d !! v = Some r → due_for_review now r = false → users d' !! v = Some r)
  ∧ users d' !! uid = Some u ∧ poison now' u.
Proof.
  intros Hu Hp Hle. unfold review, review_users.
  pose proof (sweep_any (due_for_review now) (review_active now) (users d)) as Hany.
  pose proof (sweep_raise (due_for_review now) (review_active now) (users d) uid u Hu (poison_due _ _ Hp)) as Hr.
  rewrite (poison_raises now uid u Hp) in Hr. specialize (Hr ltac:(done)).
  destruct (sweep _ _ (users d)) as [[us1 n1] [e|]]; [|done]. cbv beta iota.
  destruct (after_first_session_frame us1 n1 d) as (rows & ->).
  set (d' := d <| users := us1 |> <| node_user_usages := rows |>). change (users d') with us1.
  split_and!; [done|done|by exists rows| | |].
  - intros v r Hv Hd. destruct (Hany v) as [E|(w & Hw & Hs & _)]; [by rewrite E|congruence].
  - destruct (Hany uid) as [E|(w & Hw & _ & E)]; [by rewrite E|]. rewrite E. assert (w = u) as -> by congruence.
    by rewrite (poison_raises now uid u Hp).
  - destruct Hp as (? & ? & (e' & ? & ?) & ?). split_and!; [done|done| |done]. exists e'. split; [done|lia].
Qed.

(** *** The other jobs *)

Definition reset_due_rows (now : Z) (d : DB) : list (Z * User) :=
  filter (λ p, reset_due now p.2 = true) (map_to_list (users d)).

(** What the periodic job does: the due rows are reset and their node usages go. *)
Lemma reset_job_spec now d :
  let d' := (reset_user_data_usage_job now d).1 in
  (∀ uid, users d' !! uid = (λ u, if reset_due now u then reset_user_row now u else u) <$> users d !! uid)
  ∧ d' = d <| users := users d' |>
           <| node_user_usages := filter (λ r, nu_user_id r ∉ (reset_due_rows now d).*1) (node_user_usages d) |>.
Proof.
  cbv zeta. unfold reset_user_data_usage_job. cbn [fst]. fold (reset_due_rows now d).
  destruct (LifecycleFacts.reset_each now (reset_due_rows now d) d) as [H1 H2].
  { apply (query_rows_nodup (reset_due now) (users d)). }
  split; [|exact H2]. intros uid. rewrite H1. destruct (users d !! uid) as [u|] eqn:Hu; [|done]. cbn. f_equal.
  assert (bool_decide (uid ∈ (reset_due_rows now d).*1) = reset_due now u) as ->; [|done].
  destruct (reset_due now u) eqn:Hd.
  - apply bool_decide_true, list_elem_of_fmap. exists (uid, u). split; [done|].
    apply (proj2 (elem_of_query_rows (reset_due now) (review_active now) (users d) uid u)). by split.
  - apply bool_decide_false. intros ([i v] & -> & Hin)%list_elem_of_fmap.
    apply (proj1 (elem_of_query_rows (reset_due now) (review_active now) (users d) i v)) in Hin as [Hv Hd']. cbn in Hu. congruence.
Qed.

Lemma reset_job_rows now d uid :
  users (reset_user_data_usage_job now d).1 !! uid
  = (λ u, if reset_due now u then reset_user_row now u else u) <$> users d !! uid.
Proof. apply reset_job_spec. Qed.

Lemma reset_days_pos s n : reset_strategy_to_days s = Some n → 1 ≤ n.
Proof. unfold reset_strategy_to_days. repeat case_bool_decide; intros; simplify_eq; lia. Qed.

Lemma reset_user_lifetime now u : lifetime_used_traffic (reset_user_row now u) = lifetime_used_traffic u.
Proof.
  unfold reset_user_row, lifetime_used_traffic. destruct u as [un []]; cbn; autorewrite with sumZ; lia.
Qed.

(** The periodic reset fires once per period: it keeps every account's lifetime
    usage, and a second run less than a day later leaves the accounts it has reset
    as they are. *)
Theorem periodic_reset_once now now' d :
  now ≤ now' < now + 86400 →
  (∀ uid u u', users d !! uid = Some u → users (reset_user_data_usage_job now d).1 !! uid = Some u' →
     lifetime_used_traffic u' = lifetime_used_traffic u)
  ∧ ∀ uid u, users (reset_user_data_usage_job now d).1 !! uid = Some u →
      u_last_reset_at u = Some now →
      users (reset_user_data_usage_job now' (reset_user_data_usage_job now d).1).1 !! uid = Some u.
Proof.
  intros Hn. split.
  - intros uid u u' Hu. rewrite reset_job_rows, Hu. intros [= <-].
    destruct (reset_due now u); [apply reset_user_lifetime|done].
  - intros uid u Hu Hl. rewrite reset_job_rows, Hu. cbn. replace (reset_due now' u) with false; [done|].
    symmetry. unfold reset_due. apply andb_false_iff. right. unfold last_traffic_reset_time. rewrite Hl. cbn.
    destruct (reset_strategy_to_days _) as [n|] eqn:E; [|done]. apply reset_days_pos in E.
    rewrite (Z.div_small (now' - now) 86400) by lia. by destruct (Z.leb_spec n 0); [lia|].
Qed.

(** What the deletion of [ids] leaves of the users. *)
Lemma remove_users_rows ids d :
  let d' := (run_session (Portal.remove_users_by_ids ids) d).2 in
  (∀ uid u, users d !! uid = Some u →
     if bool_decide (uid ∈ ids) then users d' !! uid = None
     else users d' !! uid = Some u
          ∨ (∃ o, u_portal_owner_user_id u = Some o ∧ o ∈ ids)
            ∧ users d' !! uid = Some (u <| u_portal_owner_user_id := None |>))
  ∧ wallets d' = wallets d ∧ transactions d' = transactions d ∧ admins d' = admins d.
Proof.
  unfold Portal.remove_users_by_ids. destruct ids as [|i ids].
  { cbn. split_and!; [|done|done|done]. intros uid u Hu. rewrite bool_decide_false by apply not_elem_of_nil. by left. }
  split_and!; [|done|done|done]. intros uid u Hu.
  match goal with |- if _ then users ?d' !! _ = _ else _ =>
    assert (E : users d' = (λ u, if match u_portal_owner_user_id u with
        | Some o => bool_decide (o ∈ i :: ids) | None => false end
      then u <| u_portal_owner_user_id := None |> else u) <$> filter (λ p, p.1 ∉ i :: ids) (users d)) by reflexivity
  end. rewrite E. clear E.
  case_bool_decide as Hin.
  - rewrite lookup_fmap, (proj2 (map_lookup_filter_None _ _ _)); [done|]. right. intros v _ H. by apply H.
  - rewrite lookup_fmap, (proj2 (map_lookup_filter_Some _ _ _ u)) by done. cbn [fmap option_fmap option_map].
    destruct (u_portal_owner_user_id u) as [o|] eqn:Ho; [|by left].
    case_bool_decide; [|by left]. right. split; [by exists o|done].
Qed.

(** Automatic deletion removes only accounts that are expired (or limited, when
    asked) for at least the configured number of days, never with a negative
    number; every other account keeps its row, up to the link to a deleted owner,
    and no wallet, ledger entry or reseller changes. *)
Theorem autodelete_removes_only_due now days inc d :
  let '(r, d') := run_session (remove_expired_users now days inc) d in
  match r with
  | Raise _ => d' = d
  | Ok ids =>
      (∀ uid u, users d !! uid = Some u →
         if bool_decide (uid ∈ ids) then
           users d' !! uid = None
           ∧ (u_status u = expired ∨ (inc = true ∧ u_status u = limited))
           ∧ ∃ t, u_last_status_change u = Some t ∧ 0 ≤ default days (u_auto_delete_in_days u)
                ∧ t + default days (u_auto_delete_in_days u) * 86400 ≤ now
         else users d' !! uid = Some u
              ∨ (∃ o, u_portal_owner_user_id u = Some o ∧ o ∈ ids)
                ∧ users d' !! uid = Some (u <| u_portal_owner_user_id := None |>))
      ∧ wallets d' = wallets d ∧ transactions d' = transactions d ∧ admins d' = admins d
  end.
Proof.
  unfold run_session, remove_expired_users. rewrite bind_query. cbn [saved]. case_bool_decide as Hall; [done|].
  set (due u := autodelete_due now days inc (u_auto_delete_in_days u) u) in *.
  set (ids := (filter (λ p, due p.2 = Some true) (map_to_list (users d))).*1).
  pose proof (remove_users_rows ids d) as H. unfold run_session in H.
  assert (Hr : ∃ n s, Portal.remove_users_by_ids ids (mkSession d d) = (Ok n, s)).
  { unfold Portal.remove_users_by_ids. destruct ids; eexists _, _; reflexivity. }
  destruct Hr as (n & s & E). rewrite E in H. rewrite (bind_ok _ _ _ _ _ E). cbn [ret snd] in *.
  destruct H as [H Hframe]. split; [|exact Hframe]. intros uid u Hu. specialize (H uid u Hu).
  destruct (decide (uid ∈ ids)) as [Hin|Hin];
    [rewrite bool_decide_true in H |- * by done|rewrite bool_decide_false in H |- * by done; exact H].
  split; [exact H|]. unfold ids in Hin. rewrite CapsFacts.elem_of_filtered_ids in Hin. destruct Hin as (v & Hv & Hd). cbn in Hd.
  assert (v = u) as -> by congruence. unfold due, autodelete_due in Hd.
  destruct (_ && _) eqn:Hs; [|done]. apply andb_true_iff in Hs as [Hs%Z.leb_le Hst].
  destruct (u_last_status_change u) as [t|]; [|done]. injection Hd as Ht%Z.leb_le. split; [|by exists t].
  apply orb_true_iff in Hst as [?%status_eqb_eq|[? ?%status_eqb_eq]%andb_true_iff]; auto.
Qed.
End ReviewFacts.

(** ** Concrete runs *)
Module ReviewExamples.
Import Quota Lifecycle Review ReviewFacts.

(** Over quota, on hold with a duration, and limited but recharged. *)
Definition hog : User := sample_user <| u_data_limit := Some 100 |> <| u_used_traffic := 130 |>.
Definition sleeper : User :=
  sample_user <| u_status := on_hold |> <| u_on_hold_expire_duration := Some 50 |> <| u_on_hold_timeout := Some 5 |>.
Definition recharged : User :=
  sample_user <| u_status := limited |> <| u_data_limit := Some 100 |> <| u_used_traffic := 30 |>
    <| u_expire := Some 7 |>.
Definition table0 : gmap Z User := {[1 := hog; 2 := sleeper; 3 := recharged]}.

Lemma table0_ok : map_Forall (λ _, row_ok) table0.
Proof.
  assert (H1 : row_ok hog) by (split; [intros l [= <-]; lia|done|done]).
  assert (H2 : row_ok sleeper) by (split; [done|done|by exists 50]).
  assert (H3 : row_ok recharged) by (split; [intros l [= <-]; lia|done|done]).
  by repeat first [apply map_Forall_insert_2; [done|] | apply map_Forall_singleton | apply map_Forall_empty].
Qed.


Definition poison_user : User :=
  sample_user <| u_expire := Some 7 |> <| u_next_plan := Some (mkNextPlan 100 None false true) |>.
Definition db1 : DB := empty_db <| users := {[1 := poison_user; 3 := recharged]} |>.

(** The recharged account stays limited because of its neighbour. *)
Lemma poison_row_starves_review_witness :
  u_status <$> (users (review 10 db1).1.1 !! 3) = Some limited ∧ (review 10 db1).1.2 = [].
Proof.
  pose proof (poison_row_starves_review 10 20 db1 1 poison_user) as H.
  destruct (review 10 db1) as [[d' live] e]. cbn [fst snd].
  destruct H as (_ & -> & _ & H & _); [reflexivity| |lia|].
  - split_and!; [reflexivity|reflexivity|by exists 7|]. by exists (mkNextPlan 100 None false true).
  - split; [|done]. rewrite (H 3 recharged); reflexivity.
Defined.

Definition monthly : User :=
  sample_user <| u_data_limit_reset_strategy := "month" |> <| u_used_traffic := 40 |> <| u_last_reset_at := Some 0 |>.
Definition db2 : DB := empty_db <| users := {[1 := monthly]} |>.

Lemma periodic_reset_once_witness :
  ∃ u, users (reset_user_data_usage_job 2592000 db2).1 !! 1 = Some u ∧ u_used_traffic u = 0
    ∧ users (reset_user_data_usage_job 2600000 (reset_user_data_usage_job 2592000 db2).1).1 !! 1 = Some u.
Proof.
  eexists. split_and!; [reflexivity|reflexivity|].
  apply (periodic_reset_once 2592000 2600000 db2); [lia|reflexivity|reflexivity].
Defined.

Definition old_user : User :=
  sample_user <| u_status := expired |> <| u_last_status_change := Some 0 |>.
Definition db3 : DB := empty_db <| users := {[1 := old_user; 2 := sample_user]} |>.

Example autodelete_example :
  let '(r, d') := run_session (remove_expired_users 864000 5 false) db3 in
  r = Ok [1] ∧ users d' !! 1 = None ∧ users d' !! 2 = Some sample_user.
Proof. vm_compute. auto. Qed.
End ReviewExamples.
