(* ===== verification/UserBulk.v ===== *)
(** * UserBulk: operations on many accounts at once

    [app/services/user_bulk.py] (target selection, extend, reset usage, enable
    and disable, delete), the listing filters of [app/db/crud.py] they select
    with, the job registry [app/services/bulk_delete_jobs.py] and the delete
    request of [app/routers/user.py] with its background worker.

    Columns the other components do not use (note, subscription token, proxies
    with their excluded inbounds) and the inbounds of the running core are read
    through a [ListView].  The per-row [except Exception] of the loops never
    fires: the loops only compute with integers.  The users an operation hands
    to the sync outbox are returned as a list of ids. *)
From S2P Require Import Prelude Store Users RecordUsage Wallet UsageBilling Tariffs.
From S2P Require Import Caps Portal.
From S2P Require Import Payments Endpoints Review.

Module UserBulk.
Import Quota Lifecycle Tariffs Portal PlanOps.

(** ** SQL pattern matching

    [LIKE] with [%] and [_]; a backslash quotes the next character.  ILIKE, and
    LIKE on the case-insensitive username column, compare lower-cased text. *)
Definition pct : Ascii.ascii := Ascii.ascii_of_nat 37.
Definition underscore : Ascii.ascii := Ascii.ascii_of_nat 95.
Definition backslash : Ascii.ascii := Ascii.ascii_of_nat 92.

Fixpoint like (p s : list Ascii.ascii) : bool :=
  match p with
  | [] => match s with [] => true | _ => false end
  | c :: p' =>
      if Ascii.eqb c pct then
        (fix any (s : list Ascii.ascii) : bool :=
           like p' s || match s with [] => false | _ :: s' => any s' end) s
      else if Ascii.eqb c underscore then
        match s with [] => false | _ :: s' => like p' s' end
      else if Ascii.eqb c backslash then
        match p' with
        | [] => false
        | c2 :: p2 => match s with [] => false | x :: s' => Ascii.eqb x c2 && like p2 s' end
        end
      else match s with [] => false | x :: s' => Ascii.eqb x c && like p' s' end
  end.

Definition ilike (value : option string) (pattern : string) : bool :=
  match value with
  | None => false
  | Some v => like (String.list_ascii_of_string (lower pattern)) (String.list_ascii_of_string (lower v))
  end.

(** ** Listing users, [crud._apply_user_list_filters] and [crud.get_users] *)
Record ProxyRow := mkProxyRow { px_type : string; px_excluded : list string }.

Record ListView := mkListView {
  lv_note : Z → option string;
  lv_sub_token : Z → option string;
  lv_proxies : Z → list ProxyRow;
  lv_inbounds : string → option string   (* inbound tag to its protocol *) }.

Definition proxy_types : list string :=
  ["vmess"; "vless"; "trojan"; "shadowsocks"; "wireguard"; "hysteria2"; "tuic"; "anytls"]%string.

Definition ProxyTypes (value : string) : option string :=
  if existsb (String.eqb value) proxy_types then Some value else None.

Record UserListFilters := mkUserListFilters {
  f_status : option UserStatus;
  f_search : option string;
  f_protocol : option string;
  f_inbound_tag : option string;
  f_source_slug : option string;
  f_expiring_within_days : option Z;
  f_near_limit_percent : option Z }.

Definition no_filters : UserListFilters := mkUserListFilters None None None None None None None.

(** Python truth of a nullable string. *)
Definition text (s : option string) : string := default ""%string s.
Definition nonempty (s : option string) : bool := negb (String.eqb (text s) "").

Section listing.
Context (lv : ListView) (now : Z).

Definition has_proxy (uid : Z) (type : string) : bool :=
  existsb (λ p, String.eqb (px_type p) type) (lv_proxies lv uid).

Definition search_hit (search : option string) (row : Z * User) : bool :=
  negb (nonempty search) ||
  (let pattern := ("%" ++ text search ++ "%")%string in
   ilike (Some (u_username row.2)) pattern || ilike (lv_note lv row.1) pattern
   || ilike (lv_sub_token lv row.1) pattern).

Definition protocol_hit (protocol : option string) (row : Z * User) : bool :=
  negb (nonempty protocol) ||
  match ProxyTypes (lower (text protocol)) with
  | Some t => has_proxy row.1 t
  | None => false
  end.

Definition inbound_hit (inbound_tag : option string) (row : Z * User) : bool :=
  negb (nonempty inbound_tag) ||
  match lv_inbounds lv (text inbound_tag) with
  | None => false
  | Some proto =>
      match ProxyTypes (lower proto) with
      | None => false
      | Some t =>
          has_proxy row.1 t
          && negb (existsb (λ p, String.eqb (px_type p) t
                    && existsb (String.eqb (text inbound_tag)) (px_excluded p)) (lv_proxies lv row.1))
      end
  end.

Definition slug_hit (source_slug : option string) (row : Z * User) : bool :=
  let slug := strip (text source_slug) in
  String.eqb slug "" || ilike (Some (u_username row.2)) (slug ++ "_%")%string.

Definition expiring_hit (within : option Z) (row : Z * User) : bool :=
  negb (pos_limit within) ||
  match u_expire row.2 with
  | None => false
  | Some e => (now <? e) && (e <=? now + or0 within * 86400)
  end.

Definition near_limit_hit (percent : option Z) (row : Z * User) : bool :=
  negb (pos_limit percent) ||
  match u_data_limit row.2 with
  | None => false
  | Some dl => (0 <? dl) && (dl * or0 percent <=? u_used_traffic row.2 * 100)
  end.

Definition admin_hit (d : DB) (admins_in : list string) (row : Z * User) : bool :=
  match admins_in with
  | [] => true
  | _ => match u_admin_id row.2 ≫= λ a, admins d !! a with
         | None => false
         | Some a => existsb (String.eqb (a_username a)) admins_in
         end
  end.

Definition status_hit (status : list UserStatus) (row : Z * User) : bool :=
  match status with [] => true | _ => status_in (u_status row.2) status end.

Definition usernames_hit (usernames : list string) (row : Z * User) : bool :=
  match usernames with [] => true | _ => existsb (same_username (u_username row.2)) usernames end.

(** One status is the list of it; [None] and the empty list select nothing out. *)
Definition _apply_user_list_filters (d : DB) (usernames : list string) (status : list UserStatus)
    (admins_in : list string) (f : UserListFilters) (row : Z * User) : bool :=
  search_hit (f_search f) row
  && usernames_hit usernames row
  && status_hit status row
  && admin_hit d admins_in row
  && protocol_hit (f_protocol f) row
  && inbound_hit (f_inbound_tag f) row
  && slug_hit (f_source_slug f) row
  && expiring_hit (f_expiring_within_days f) row
  && near_limit_hit (f_near_limit_percent f) row.

(** [_DEFAULT_USER_ORDER] *)
Definition default_user_order (p q : Z * User) : bool :=
  (u_created_at p.2 <? u_created_at q.2)
  || ((u_created_at p.2 =? u_created_at q.2) && (p.1 <=? q.1)).

Definition get_users (d : DB) (usernames : list string) (status : list UserStatus)
    (admins_in : list string) (f : UserListFilters) : list (Z * User) :=
  sort_by default_user_order
    (filter (λ row, _apply_user_list_filters d usernames status admins_in f row = true)
      (map_to_list (users d))).

(** ** Target selection *)
Inductive BulkInboundScope := scope_all | scope_selected | scope_filtered.

Definition admin_scope (admin : option Caller) : list string :=
  match admin with
  | Some c => if c_is_sudo c then [] else [c_username c]
  | None => []
  end.

Definition clean_names (usernames : list string) : list string :=
  filter (λ n, n ≠ ""%string) (strip <$> usernames).

Definition select_users (admin : option Caller) (scope : BulkInboundScope)
    (usernames : list string) (status : list UserStatus) (filters : option UserListFilters)
    : M DB (list (Z * User)) :=
  let lf := default no_filters filters in
  match scope with
  | scope_selected =>
      match clean_names usernames with
      | [] => raise (ValueError "usernames required when scope is 'selected'")
      | names => query (λ d, get_users d names [] (admin_scope admin) no_filters)
      end
  | scope_filtered => query (λ d, get_users d [] status (admin_scope admin) lf)
  | scope_all => query (λ d, get_users d [] [] (admin_scope admin) no_filters)
  end.

Definition opt_list {A} (o : option A) : list A := match o with Some a => [a] | None => [] end.

Definition _iter_target_users (admin : option Caller) (scope : BulkInboundScope)
    (usernames : list string) (status : option UserStatus) (filters : option UserListFilters)
    : M DB (list (Z * User)) :=
  let effective_status := match status with
                          | Some _ => status
                          | None => f_status (default no_filters filters)
                          end in
  select_users admin scope usernames (opt_list effective_status) filters.

Definition _iter_delete_targets (admin : option Caller) (scope : BulkInboundScope)
    (usernames : list string) (statuses : list UserStatus) (filters : option UserListFilters)
    : M DB (list (Z * User)) :=
  let status_arg := match statuses with
                    | [] => opt_list (f_status (default no_filters filters))
                    | _ => statuses
                    end in
  select_users admin scope usernames status_arg filters.

(** ** Row operations

    The loops share one shape: a row is skipped ([None]) or replaced, and is
    handed to the outbox when it is live. *)
Record BulkUserActionResult := mkBulkResult {
  br_applied : Z;
  br_skipped : Z;
  br_failed : Z;
  br_touched : list Z }.

Fixpoint bulk_rows (f : Z → User → option (User * bool)) (ids : list Z)
    : M DB (list Z * Z * list Z) :=
  match ids with
  | [] => ret ([], 0, [])
  | i :: ids =>
      let* row := gets (λ d, users d !! i) in
      match (match row with Some u => f i u | None => None end) with
      | None => let* r := bulk_rows f ids in ret (r.1.1, r.1.2 + 1, r.2)
      | Some (u, touch) =>
          modify (update_user_row i (λ _, u)) ;;;
          let* r := bulk_rows f ids in
          ret (i :: r.1.1, r.1.2, if touch then i :: r.2 else r.2)
      end
  end.

Definition bulk_result (r : list Z * Z * list Z) : BulkUserActionResult :=
  mkBulkResult (Z.of_nat (length r.1.1)) r.1.2 0 r.2.

(** *** Extend *)
Record BulkExtendRequest := mkBulkExtend {
  bx_scope : BulkInboundScope;
  bx_usernames : list string;
  bx_status : option UserStatus;
  bx_filters : option UserListFilters;
  bx_days : Z;
  bx_add_data_bytes : Z }.

(** The field bounds and [_require_change]. *)
Definition bulk_extend_valid (b : BulkExtendRequest) : bool :=
  (0 <=? bx_days b) && (bx_days b <=? 3650) && (0 <=? bx_add_data_bytes b)
  && negb ((bx_days b =? 0) && (bx_add_data_bytes b =? 0)).

Definition extend_expire (delta : Z) (u : User) : bool * User :=
  if delta =? 0 then (false, u)
  else
    let base := if truthy (u_expire u) && (now <? or0 (u_expire u))
                then or0 (u_expire u) else now in
    let new_expire := base + delta in
    if bool_decide (u_expire u = Some new_expire) then (false, u)
    else (true, u <| u_expire := Some new_expire |>).

Definition extend_data (add_data : Z) (changed : bool) (u : User) : bool * User :=
  if negb (add_data =? 0) && pos_limit (u_data_limit u)
  then (true, u <| u_data_limit := Some (or0 (u_data_limit u) + add_data) |>)
  else (changed, u).

Definition reactivate_extended (u : User) : User :=
  let u := if status_eqb (u_status u) expired && truthy (u_expire u) && (now <? or0 (u_expire u))
           then u <| u_status := active |> else u in
  if status_eqb (u_status u) limited
     && (negb (truthy (u_data_limit u)) || (u_used_traffic u <? or0 (u_data_limit u)))
  then u <| u_status := active |> else u.

Definition extend_row (delta add_data : Z) (u : User) : option (User * bool) :=
  let '(changed, u) := extend_expire delta u in
  let '(changed, u) := extend_data add_data changed u in
  if negb changed then None
  else
    let u := over u_edit_at (λ _, Some now) (reactivate_extended u) in
    Some (u, status_in (u_status u) [active; on_hold]).

Definition apply_bulk_extend (body : BulkExtendRequest) (admin : option Caller)
    : M DB BulkUserActionResult :=
  let* users := _iter_target_users admin (bx_scope body) (bx_usernames body) (bx_status body)
                  (bx_filters body) in
  let* r := bulk_rows (λ _, extend_row (bx_days body * 86400) (bx_add_data_bytes body)) users.*1 in
  when (negb (bool_decide (r.1.1 = []))) commit ;;;
  ret (bulk_result r).

(** *** Reset usage *)
Record BulkResetUsageRequest := mkBulkReset {
  bz_scope : BulkInboundScope;
  bz_usernames : list string;
  bz_status : option UserStatus;
  bz_filters : option UserListFilters }.

Definition has_node_usages (rows : list NodeUserUsage) (uid : Z) : bool :=
  existsb (λ r, nu_user_id r =? uid) rows.

Definition reset_row (rows : list NodeUserUsage) (uid : Z) (u : User) : option (User * bool) :=
  if (u_used_traffic u =? 0) && negb (has_node_usages rows uid) then None
  else
    let was_limited := status_eqb (u_status u) limited in
    let u := u <| u_usage_logs := u_usage_logs u ++ [u_used_traffic u] |>
               <| u_last_reset_at := Some now |> in
    let u := u <| u_used_traffic := 0 |> <| u_used_traffic_up := 0 |>
               <| u_used_traffic_down := 0 |> <| u_overage_traffic := 0 |> in
    let u := if negb (status_in (u_status u) [expired; disabled])
             then u <| u_status := active |> else u in
    let u := if negb (is_none (u_next_plan u)) then u <| u_next_plan := None |> else u in
    Some (u, was_limited && status_eqb (u_status u) active).

Definition apply_bulk_reset_usage (body : BulkResetUsageRequest) (admin : option Caller)
    : M DB BulkUserActionResult :=
  let* users := _iter_target_users admin (bz_scope body) (bz_usernames body) (bz_status body)
                  (bz_filters body) in
  let* rows := gets node_user_usages in
  let* r := bulk_rows (reset_row rows) users.*1 in
  let reset_ids := r.1.1 in
  when (negb (bool_decide (reset_ids = [])))
    (modify (λ d, d <| node_user_usages :=
       filter (λ x, nu_user_id x ∉ reset_ids) (node_user_usages d) |>) ;;; commit) ;;;
  ret (bulk_result r).

(** *** Enable and disable *)
Inductive BulkStatusAction := enable | disable.

Record BulkStatusRequest := mkBulkStatus {
  bs_scope : BulkInboundScope;
  bs_usernames : list string;
  bs_status : option UserStatus;
  bs_filters : option UserListFilters;
  bs_action : BulkStatusAction }.

Definition _reactivated_status (u : User) : UserStatus :=
  if pos_limit (u_expire u) && (or0 (u_expire u) <=? now) then expired
  else if pos_limit (u_data_limit u) && (or0 (u_data_limit u) <=? u_used_traffic u) then limited
  else active.

Definition status_row (action : BulkStatusAction) (u : User) : option (User * bool) :=
  match action with
  | disable =>
      if status_eqb (u_status u) disabled then None
      else
        let was_live := status_in (u_status u) [active; on_hold] in
        let u := u <| u_status := disabled |> <| u_online_at := None |> in
        Some (u <| u_last_status_change := Some now |> <| u_edit_at := Some now |>, was_live)
  | enable =>
      if negb (status_eqb (u_status u) disabled) then None
      else
        let new_status := _reactivated_status u in
        let u := u <| u_status := new_status |> in
        Some (u <| u_last_status_change := Some now |> <| u_edit_at := Some now |>,
              status_in new_status [active; on_hold])
  end.

Definition apply_bulk_status (body : BulkStatusRequest) (admin : option Caller)
    : M DB BulkUserActionResult :=
  let* users := _iter_target_users admin (bs_scope body) (bs_usernames body) (bs_status body)
                  (bs_filters body) in
  let* r := bulk_rows (λ _, status_row (bs_action body)) users.*1 in
  when (negb (bool_decide (r.1.1 = []))) commit ;;;
  ret (bulk_result r).

(** *** Delete *)
Record BulkDeleteRequest := mkBulkDelete {
  bd_scope : BulkInboundScope;
  bd_usernames : list string;
  bd_statuses : list UserStatus;
  bd_filters : option UserListFilters }.

(** [range(0, count, step)]: one batch per step; the fuel is the number of
    ids.  Each batch reports [(processed, deleted)]. *)
Fixpoint delete_batches (fuel step : nat) (ids : list Z) : M DB (list (Z * Z)) :=
  match fuel, ids with
  | O, _ | _, [] => ret []
  | S fuel, _ =>
      let batch_ids := take step ids in
      let* n := remove_users_by_ids batch_ids in
      let* rest := delete_batches fuel step (drop step ids) in
      ret ((Z.of_nat (length batch_ids), n) :: rest)
  end.

Record BulkDeleteResult := mkBulkDeleted {
  bdr_deleted : Z;
  bdr_progress : list (Z * Z);
  bdr_fleet_resync : bool }.

Definition chunk_size : nat := 200.

Definition apply_bulk_delete (body : BulkDeleteRequest) (admin : option Caller)
    : M DB BulkDeleteResult :=
  let* users := _iter_delete_targets admin (bd_scope body) (bd_usernames body) (bd_statuses body)
                  (bd_filters body) in
  let user_ids := users.*1 in
  let touched_active := existsb (λ p, status_in (u_status p.2) [active; on_hold]) users in
  let* progress := delete_batches (length user_ids) chunk_size user_ids in
  ret (mkBulkDeleted (sumZ snd progress) progress touched_active).
End listing.

(** The requests on rows, as one family. *)
Inductive bulk_op :=
  | OpExtend (b : BulkExtendRequest)
  | OpReset (b : BulkResetUsageRequest)
  | OpStatus (b : BulkStatusRequest)
  | OpDelete (b : BulkDeleteRequest).

Definition run_bulk (lv : ListView) (now : Z) (op : bulk_op) (admin : option Caller) (d : DB) : DB :=
  match op with
  | OpExtend b => (run_session (apply_bulk_extend lv now b admin) d).2
  | OpReset b => (run_session (apply_bulk_reset_usage lv now b admin) d).2
  | OpStatus b => (run_session (apply_bulk_status lv now b admin) d).2
  | OpDelete b => (run_session (apply_bulk_delete lv now b admin) d).2
  end.
End UserBulk.

(** ** The job registry, [app/services/bulk_delete_jobs.py] *)
Module BulkDeleteJobs.

Record BulkDeleteJob := mkJob {
  j_state : string;
  j_total : Z;
  j_processed : Z;
  j_deleted : Z;
  j_error : option string;
  j_created_at : Z;
  j_updated_at : Z;
  j_finished_at : option Z }.

#[export] Instance eta_BulkDeleteJob : Eta BulkDeleteJob := λ j, mkJob (j_state j) (j_total j)
  (j_processed j) (j_deleted j) (j_error j) (j_created_at j) (j_updated_at j) (j_finished_at j).

Record Registry := mkRegistry {
  _jobs : gmap string BulkDeleteJob;
  _active_id : option string }.

#[export] Instance eta_Registry : Eta Registry := λ r, mkRegistry (_jobs r) (_active_id r).

Definition _MAX_KEEP_SEC : Z := 3600.

Definition stale (now : Z) (j : BulkDeleteJob) : bool :=
  match j_finished_at j with
  | None => false
  | Some t => _MAX_KEEP_SEC <? now - t
  end.

Definition _prune_locked (now : Z) (r : Registry) : Registry :=
  r <| _jobs := filter (λ p, stale now p.2 = false) (_jobs r) |>.

Definition active_job (r : Registry) : option BulkDeleteJob :=
  match _active_id r with None => None | Some i => _jobs r !! i end.

(** [jid] is the fresh [uuid4().hex]. *)
Definition create (now : Z) (jid : string) (total : Z) (r : Registry) : Registry :=
  let r := _prune_locked now r in
  let job := mkJob "running" total 0 0 None now now None in
  r <| _jobs := <[jid := job]> (_jobs r) |> <| _active_id := Some jid |>.

Definition get (job_id : string) (r : Registry) : option BulkDeleteJob := _jobs r !! job_id.

Definition bump_job (now processed_delta deleted_delta : Z) (total : option Z) (j : BulkDeleteJob)
    : BulkDeleteJob :=
  let j := j <| j_processed := j_processed j + processed_delta |>
             <| j_deleted := j_deleted j + deleted_delta |> in
  let j := if_some total (λ t j, j <| j_total := t |>) j in
  j <| j_updated_at := now |>.

Definition bump (now : Z) (job_id : string) (processed_delta deleted_delta : Z) (total : option Z)
    (r : Registry) : Registry :=
  r <| _jobs := alter (bump_job now processed_delta deleted_delta total) job_id (_jobs r) |>.

Definition finish_job (now : Z) (state : string) (deleted : option Z) (error : option string)
    (j : BulkDeleteJob) : BulkDeleteJob :=
  let j := j <| j_state := state |> in
  let j := if_some deleted (λ n j, j <| j_deleted := n |>
             <| j_processed := Z.max (j_processed j) n |>) j in
  j <| j_error := error |> <| j_finished_at := Some now |> <| j_updated_at := now |>.

Definition finish (now : Z) (job_id state : string) (deleted : option Z) (error : option string)
    (r : Registry) : Registry :=
  let r := r <| _jobs := alter (finish_job now state deleted error) job_id (_jobs r) |> in
  if bool_decide (_active_id r = Some job_id) then r <| _active_id := None |> else r.

End BulkDeleteJobs.

(** ** The delete request and its worker, [app/routers/user.py] *)
Module BulkDelete.
Import Portal PlanOps UserBulk BulkDeleteJobs.

(** What the background thread captures. *)
Record Worker := mkWorker {
  w_job : string;
  w_admin_username : option string;
  w_body : BulkDeleteRequest }.

Inductive DeleteReply :=
  | Deleted (r : BulkDeleteResult)
  | Started (job_id : string) (total : Z).

Definition is_selected (s : BulkInboundScope) : bool :=
  match s with scope_selected => true | _ => false end.

Definition bulk_delete_users (lv : ListView) (now : Z) (jid : string) (body : BulkDeleteRequest)
    (admin : Caller) (reg : Registry) : M DB (DeleteReply * Registry * option Worker) :=
  let* targets := value_error_400 (_iter_delete_targets lv now (Some admin) (bd_scope body)
                    (bd_usernames body) (bd_statuses body) (bd_filters body)) in
  let count := length targets in
  let sync_ok := is_selected (bd_scope body) && (count <=? 500)%nat in
  if sync_ok || (count =? 0)%nat then
    let* r := value_error_400 (apply_bulk_delete lv now body (Some admin)) in
    ret (Deleted r, reg, None)
  else if negb (is_none (active_job reg)) then
    raise (HTTPException 409 "A bulk delete is already running. Wait for it to finish.")
  else
    let admin_username := if c_is_sudo admin then None else Some (c_username admin) in
    let reg := create now jid (Z.of_nat count) reg in
    ret (Started jid (Z.of_nat count), reg, Some (mkWorker jid admin_username body)).

(** The worker opens its own session and looks the admin up again by name. *)
Definition worker_admin (d : DB) (w : Worker) : option Caller :=
  match w_admin_username w with
  | None => None
  | Some name =>
      if String.eqb name "" then None
      else match get_admin d name with
           | None => None
           | Some (_, a) => Some (mkCaller (a_username a) (a_is_sudo a))
           end
  end.

Definition _worker (lv : ListView) (now : Z) (w : Worker) (st : DB * Registry) : DB * Registry :=
  let '(d, reg) := st in
  let '(r, d') := run_session (apply_bulk_delete lv now (w_body w) (worker_admin d w)) d in
  match r with
  | Ok res =>
      let reg := foldl (λ reg p, bump now (w_job w) p.1 p.2 None reg) reg (bdr_progress res) in
      (d', finish now (w_job w) "done" (Some (bdr_deleted res)) None reg)
  | Raise _ => (d', finish now (w_job w) "error" None (Some "error"%string) reg)
  end.

Definition bulk_delete_status (job_id : string) (reg : Registry) : result BulkDeleteJob :=
  match get job_id reg with
  | None => Raise (HTTPException 404 "Unknown or expired bulk-delete job")
  | Some job => Ok job
  end.

End BulkDelete.

(** ** Properties *)
Module UserBulkFacts.
Import Quota Lifecycle Tariffs Portal PlanOps Review ReviewFacts UserBulk.

#[export] Instance default_user_order_total : TotalOrder default_user_order.
Proof.
  unfold default_user_order.
  split; intros [i u] [j v]; [|intros [k w]]; cbn [fst snd]; rewrite ?orb_true_iff, ?andb_true_iff,
    ?Is_true_true, ?orb_true_iff, ?andb_true_iff, ?Z.ltb_lt, ?Z.eqb_eq, ?Z.leb_le; lia.
Qed.

(** *** What a selection returns *)
Section selection.
Context (lv : ListView) (now : Z).

Lemma get_users_elem d names st adm f uid u :
  (uid, u) ∈ get_users lv now d names st adm f ↔
  users d !! uid = Some u ∧ _apply_user_list_filters lv now d names st adm f (uid, u) = true.
Proof.
  unfold get_users. rewrite elem_of_sort_by, list_elem_of_filter, elem_of_map_to_list. tauto.
Qed.

Lemma get_users_nodup d names st adm f : NoDup (get_users lv now d names st adm f).*1.
Proof.
  unfold get_users. rewrite sort_by_perm.
  eapply sublist_NoDup; [apply (NoDup_fst_map_to_list (users d))|].
  apply fmap_sublist, sublist_filter.
Qed.

(** The rows of a selection are distinct rows of the database, and a caller
    who is no super admin only gets rows of an admin of that name. *)
Definition owner_name (d : DB) (u : User) : option string :=
  u_admin_id u ≫= λ a, a_username <$> admins d !! a.

Definition in_scope (d : DB) (admin : option Caller) (u : User) : Prop :=
  match admin with
  | Some c => c_is_sudo c = true ∨ owner_name d u = Some (c_username c)
  | None => True
  end.

Lemma filters_in_scope d names st admin f uid u :
  _apply_user_list_filters lv now d names st (admin_scope admin) f (uid, u) = true →
  in_scope d admin u.
Proof.
  unfold _apply_user_list_filters. intros H. boolp.
  match goal with H : admin_hit _ _ _ = true |- _ => rename H into Ha end.
  destruct admin as [[name sudo]|]; [|done]. destruct sudo; [by left|]. right.
  unfold owner_name. cbn in Ha. destruct (u_admin_id u) as [a|]; [|done]. cbn in Ha |- *.
  destruct (admins d !! a) as [r|]; [|done]. cbn. f_equal. rewrite orb_false_r in Ha. by apply String.eqb_eq.
Qed.

Lemma select_users_run admin scope names st f d :
  match select_users lv now admin scope names st f (mkSession d d) with
  | (Ok rows, s) => s = mkSession d d ∧ NoDup rows.*1
      ∧ ∀ uid u, (uid, u) ∈ rows → users d !! uid = Some u ∧ in_scope d admin u
  | (Raise e, s) => s = mkSession d d ∧ e = ValueError "usernames required when scope is 'selected'"
      ∧ scope = scope_selected ∧ clean_names names = []
  end.
Proof.
  assert (H : ∀ nm st f, NoDup (get_users lv now d nm st (admin_scope admin) f).*1 ∧
    ∀ uid u, (uid, u) ∈ get_users lv now d nm st (admin_scope admin) f →
      users d !! uid = Some u ∧ in_scope d admin u).
  { intros. split; [apply get_users_nodup|]. intros uid u [Hu Hf]%get_users_elem. split; [done|].
    by eapply filters_in_scope. }
  destruct scope; cbn; [by split| |by split]. destruct (clean_names names); [by split_and!|by split].
Qed.
End selection.

(** *** The loop over the selected rows *)
Section loop.
Context (f : Z → User → option (User * bool)).

Definition loop_row (i : Z) (u : User) : User :=
  match f i u with Some (u', _) => u' | None => u end.

Record loop_done (ids : list Z) (d d' : DB) (r : list Z * Z * list Z) : Prop := mkLoopDone {
  ld_frame : d' = d <| users := users d' |>;
  ld_rows j : users d' !! j =
    if bool_decide (j ∈ ids) then loop_row j <$> users d !! j else users d !! j;
  ld_applied j : j ∈ r.1.1 ↔ j ∈ ids ∧ ∃ u, users d !! j = Some u ∧ f j u ≠ None;
  ld_touched j : j ∈ r.2 ↔ j ∈ ids ∧ ∃ u u', users d !! j = Some u ∧ f j u = Some (u', true);
  ld_count : Z.of_nat (length r.1.1) + r.1.2 = Z.of_nat (length ids) }.

Lemma loop_step_skip i ids d d' r :
  i ∉ ids → (∀ u, users d !! i = Some u → f i u = None) →
  loop_done ids d d' r → loop_done (i :: ids) d d' (r.1.1, r.1.2 + 1, r.2).
Proof.
  intros Hi Hf [L1 L2 L3 L4 L5]. split; cbn [fst snd]; [done|..].
  - intros j. rewrite L2. destruct (decide (j = i)) as [->|Hji].
    + rewrite bool_decide_false, bool_decide_true by set_solver.
      destruct (users d !! i) as [u|]; [|done]. cbn. unfold loop_row. by rewrite (Hf u).
    + by rewrite (bool_decide_ext (j ∈ i :: ids) (j ∈ ids)) by set_solver.
  - intros j. rewrite L3, elem_of_cons. split; [naive_solver|].
    intros ([->|?] & w & Hw & Hn); [by destruct Hn, (Hf w)|eauto].
  - intros j. rewrite L4, elem_of_cons. split; [naive_solver|].
    intros ([->|?] & w & w' & Hw & Hn); [by rewrite (Hf w) in Hn|eauto].
  - rewrite length_cons. lia.
Qed.

Lemma loop_step_hit i ids d d' r u u' t :
  i ∉ ids → users d !! i = Some u → f i u = Some (u', t) →
  loop_done ids (update_user_row i (λ _, u') d) d' r →
  loop_done (i :: ids) d d' (i :: r.1.1, r.1.2, if t then i :: r.2 else r.2).
Proof.
  intros Hi Hu Hf [L1 L2 L3 L4 L5].
  assert (Hne : ∀ j, j ≠ i → users (update_user_row i (λ _, u') d) !! j = users d !! j).
  { intros j Hj. unfold update_user_row. cbn. by apply lookup_alter_ne. }
  assert (Hin : ∀ j, j ∈ ids → j ≠ i) by by intros j Hj ->.
  split; cbn [fst snd].
  - rewrite L1. by destruct d.
  - intros j. rewrite L2. destruct (decide (j = i)) as [->|Hji].
    + rewrite bool_decide_false, bool_decide_true by set_solver. unfold update_user_row. cbn.
      rewrite lookup_alter_eq, Hu. cbn. unfold loop_row. by rewrite Hf.
    + rewrite (bool_decide_ext (j ∈ i :: ids) (j ∈ ids)) by set_solver. by rewrite Hne.
  - intros j. rewrite elem_of_cons, L3, elem_of_cons. split.
    + intros [->|(Hj & v & Hv & ?)]; [split; [by left|]; exists u; by rewrite Hf|].
      rewrite Hne in Hv by auto. naive_solver.
    + intros ([->|Hj] & v & Hv & ?); [by left|]. right. split; [done|]. exists v. by rewrite Hne by auto.
  - intros j.
    assert (E1 : j ∈ r.2 ↔ j ∈ ids ∧ ∃ w w', users d !! j = Some w ∧ f j w = Some (w', true)).
    { rewrite L4. split; intros (Hj & w & w' & Hw & ?); (split; [done|]); exists w, w';
        [rewrite Hne in Hw by auto|rewrite Hne by auto]; done. }
    destruct t; rewrite ?elem_of_cons, E1; naive_solver.
  - rewrite !length_cons. lia.
Qed.

Lemma bulk_rows_run ids d sv : NoDup ids →
  ∃ r d', bulk_rows f ids (mkSession d sv) = (Ok r, mkSession d' sv) ∧ loop_done ids d d' r.
Proof.
  intros Hnd. revert d. induction Hnd as [|i ids Hi Hnd IH]; intros d.
  { exists ([], 0, []), d. split; [done|]. split; try done; [by destruct d|..];
      intros j; rewrite !elem_of_nil; tauto. }
  cbn [bulk_rows]. rewrite bind_gets. cbn [work].
  destruct (match users d !! i with Some u => f i u | None => None end) as [[u' t]|] eqn:Hf.
  - destruct (users d !! i) as [u|] eqn:Hu; [|done].
    rewrite bind_modify. cbn [work saved]. destruct (IH (update_user_row i (λ _, u') d)) as (r & d' & E & L).
    rewrite (bind_ok _ _ _ _ _ E). eexists _, d'. split; [reflexivity|]. by eapply loop_step_hit.
  - destruct (IH d) as (r & d' & E & L). rewrite (bind_ok _ _ _ _ _ E). eexists _, d'. split; [reflexivity|].
    apply loop_step_skip; [done| |done]. intros u Hu. by rewrite Hu in Hf.
Qed.
End loop.

Lemma loop_idle f ids d d' sk tch : loop_done f ids d d' ([], sk, tch) → d' = d.
Proof.
  intros [L1 L2 L3 _ _]. rewrite L1. destruct d as [us ? ? ? ? ? ? ? ? ? ? ? ? ? ? ? ? ? ? ?]. cbn. f_equal.
  apply map_eq. intros j. rewrite L2. cbn in *. case_bool_decide as Hj; [|done].
  destruct (us !! j) as [u|] eqn:Hu; [|done]. cbn. f_equal. unfold loop_row.
  destruct (f j u) as [[u' t]|] eqn:Hf; [|done]. exfalso.
  apply (not_elem_of_nil j), L3. split; [done|]. exists u. by rewrite Hf.
Qed.

Lemma loop_reads f ids d d' r : loop_done f ids d d' r →
  admins d' = admins d ∧ wallets d' = wallets d ∧ transactions d' = transactions d
  ∧ node_user_usages d' = node_user_usages d.
Proof. intros [L1 _ _ _ _]. by rewrite L1. Qed.

Lemma filter_ext_in {A} (P Q : A → Prop) `{∀ x, Decision (P x), ∀ x, Decision (Q x)} (l : list A) :
  (∀ x, x ∈ l → P x ↔ Q x) → filter P l = filter Q l.
Proof.
  induction l as [|x l IH]; intros HP; [done|].
  assert (E : P x ↔ Q x) by (apply HP; constructor). assert (filter P l = filter Q l).
  { apply IH. intros y Hy. apply HP. by constructor. }
  destruct (decide (P x)).
  - rewrite !filter_cons_True by tauto. by f_equal.
  - by rewrite !filter_cons_False by tauto.
Qed.

Lemma filter_true_list {A} (P : A → Prop) `{∀ x, Decision (P x)} (l : list A) :
  (∀ x, x ∈ l → P x) → filter P l = l.
Proof.
  induction l as [|x l IH]; intros HP; [done|]. rewrite filter_cons_True by (apply HP; constructor).
  f_equal. apply IH. intros y Hy. apply HP. by constructor.
Qed.

(** *** Runs of the row operations *)
Section runs.
Context (lv : ListView) (now : Z).

Definition row_request (select : M DB (list (Z * User))) (f : Z → User → option (User * bool))
    : M DB BulkUserActionResult :=
  let* users := select in
  let* r := bulk_rows f users.*1 in
  when (negb (bool_decide (r.1.1 = []))) commit ;;;
  ret (bulk_result r).

(** The rows [select_users] gives this request, read from the database alone. *)
Definition selected (admin : option Caller) scope names st f (d : DB) : list (Z * User) :=
  match (select_users lv now admin scope names st f (mkSession d d)).1 with
  | Ok rows => rows
  | Raise _ => []
  end.

Definition select_fails (scope : BulkInboundScope) (names : list string) : bool :=
  match scope with scope_selected => bool_decide (clean_names names = []) | _ => false end.

Definition no_names : err := ValueError "usernames required when scope is 'selected'".

Lemma select_users_eq admin scope names st f d :
  select_users lv now admin scope names st f (mkSession d d) =
  if select_fails scope names then (Raise no_names, mkSession d d)
  else (Ok (selected admin scope names st f d), mkSession d d).
Proof.
  unfold selected. destruct scope; cbn; [done| |done].
  destruct (clean_names names) eqn:E; [by rewrite bool_decide_true|]. by rewrite bool_decide_false.
Qed.

Lemma selected_rows admin scope names st f d :
  NoDup (selected admin scope names st f d).*1 ∧
  ∀ uid u, (uid, u) ∈ selected admin scope names st f d → users d !! uid = Some u ∧ in_scope d admin u.
Proof.
  unfold selected. pose proof (select_users_run lv now admin scope names st f d) as H.
  destruct (select_users _ _ _ _ _ _ _ _) as [[rows|e] s]; cbn; [tauto|].
  split; [constructor|]. intros ? ? []%not_elem_of_nil.
Qed.

Lemma elem_of_selected admin scope names st f d uid u :
  (uid, u) ∈ selected admin scope names st f d → users d !! uid = Some u ∧ in_scope d admin u.
Proof. apply selected_rows. Qed.

Lemma elem_of_selected_ids admin scope names st f d uid :
  uid ∈ (selected admin scope names st f d).*1 →
  ∃ u, users d !! uid = Some u ∧ in_scope d admin u.
Proof.
  intros ([i u] & -> & Hin)%list_elem_of_fmap. exists u. by apply selected_rows in Hin.
Qed.

Lemma row_request_run admin scope names st flt f d :
  let ids := (selected admin scope names st flt d).*1 in
  let out := run_session (row_request (select_users lv now admin scope names st flt) f) d in
  if select_fails scope names then out = (Raise no_names, d)
  else ∃ r, out.1 = Ok (bulk_result r) ∧ loop_done f ids d out.2 r.
Proof.
  cbv zeta. unfold run_session, row_request. pose proof (select_users_eq admin scope names st flt d) as Hs.
  destruct (select_fails scope names); [by rewrite (bind_raise _ _ _ _ _ Hs)|].
  rewrite (bind_ok _ _ _ _ _ Hs).
  destruct (bulk_rows_run f (selected admin scope names st flt d).*1 d d) as (r & d' & E & L);
    [apply selected_rows|].
  rewrite (bind_ok _ _ _ _ _ E). exists r. destruct r as [[ap sk] tch]. cbn [fst snd].
  case_bool_decide as Hap; [|by split]. subst ap. pose proof (loop_idle _ _ _ _ _ _ L); subst d'. by split.
Qed.

Lemma extend_is_row_request b admin :
  apply_bulk_extend lv now b admin =
  row_request (_iter_target_users lv now admin (bx_scope b) (bx_usernames b) (bx_status b) (bx_filters b))
    (λ _, extend_row now (bx_days b * 86400) (bx_add_data_bytes b)).
Proof. done. Qed.

Lemma status_is_row_request b admin :
  apply_bulk_status lv now b admin =
  row_request (_iter_target_users lv now admin (bs_scope b) (bs_usernames b) (bs_status b) (bs_filters b))
    (λ _, status_row now (bs_action b)).
Proof. done. Qed.

(** The status filter a request ends up with. *)
Definition status_arg (st : option UserStatus) (f : option UserListFilters) : list UserStatus :=
  opt_list (match st with Some _ => st | None => f_status (default no_filters f) end).

Lemma reset_run b admin d :
  let sel := selected admin (bz_scope b) (bz_usernames b) (status_arg (bz_status b) (bz_filters b))
               (bz_filters b) d in
  let f := reset_row now (node_user_usages d) in
  let out := run_session (apply_bulk_reset_usage lv now b admin) d in
  if select_fails (bz_scope b) (bz_usernames b) then out = (Raise no_names, d)
  else ∃ r d1, out.1 = Ok (bulk_result r) ∧ loop_done f sel.*1 d d1 r
       ∧ out.2 = d1 <| node_user_usages := filter (λ x, nu_user_id x ∉ r.1.1) (node_user_usages d) |>.
Proof.
  cbv zeta. unfold run_session, apply_bulk_reset_usage, _iter_target_users.
  fold (status_arg (bz_status b) (bz_filters b)).
  pose proof (select_users_eq admin (bz_scope b) (bz_usernames b)
    (status_arg (bz_status b) (bz_filters b)) (bz_filters b) d) as Hs.
  destruct (select_fails _ _); [by rewrite (bind_raise _ _ _ _ _ Hs)|].
  rewrite (bind_ok _ _ _ _ _ Hs). set (sel := selected _ _ _ _ _ _).
  rewrite bind_gets. cbn [work].
  destruct (bulk_rows_run (reset_row now (node_user_usages d)) sel.*1 d d) as (r & d' & E & L);
    [apply selected_rows|].
  rewrite (bind_ok _ _ _ _ _ E). exists r, d'. pose proof (loop_reads _ _ _ _ _ L) as (_ & _ & _ & Hn).
  destruct r as [[ap sk] tch]. cbn [fst snd]. case_bool_decide as Hap.
  - subst ap. pose proof (loop_idle _ _ _ _ _ _ L); subst d'. split_and!; [done|done|]. cbn.
    rewrite filter_true_list; [by destruct d|]. intros x _. apply not_elem_of_nil.
  - cbn. rewrite Hn. by split_and!.
Qed.
End runs.

(** *** Extend *)

(** The new expiry counts from the later of now and the old one. *)
Definition extended_expire (now days : Z) (u : User) : option Z :=
  if days =? 0 then u_expire u else Some (Z.max now (or0 (u_expire u)) + days * 86400).

Definition topped_limit (add_data : Z) (u : User) : option Z :=
  if pos_limit (u_data_limit u) then Some (or0 (u_data_limit u) + add_data) else u_data_limit u.

Lemma extend_expire_row now days u : 0 < now → 0 ≤ days →
  extend_expire now (days * 86400) u =
  (negb (days =? 0), u <| u_expire := extended_expire now days u |>).
Proof.
  intros Hn Hd. unfold extend_expire, extended_expire.
  destruct (Z.eqb_spec days 0) as [->|Hne]; [by destruct u|].
  rewrite (proj2 (Z.eqb_neq _ _)) by lia. cbn [negb].
  assert (Hb : (if truthy (u_expire u) && (now <? or0 (u_expire u)) then or0 (u_expire u) else now)
    = Z.max now (or0 (u_expire u))).
  { destruct (u_expire u) as [e|]; cbn; [|lia].
    destruct (Z.eqb_spec e 0), (Z.ltb_spec now e); cbn; lia. }
  rewrite Hb, bool_decide_false; [done|]. clear Hb. destruct (u_expire u) as [e|]; [|done].
  intros [= E]. cbn in E. lia.
Qed.

Lemma extend_data_row add changed u : 0 ≤ add →
  extend_data add changed u =
  (changed || (negb (add =? 0) && pos_limit (u_data_limit u)), u <| u_data_limit := topped_limit add u |>).
Proof.
  intros Ha. unfold extend_data, topped_limit. destruct (Z.eqb_spec add 0) as [->|Hne]; cbn [negb andb].
  - rewrite orb_false_r. f_equal. destruct (u_data_limit u) as [l|] eqn:El; cbn [pos_limit or0].
    + destruct (0 <? l); rewrite ?Z.add_0_r, <-El; by destruct u.
    + rewrite <-El. by destruct u.
  - destruct (pos_limit (u_data_limit u)); rewrite ?orb_true_r, ?orb_false_r; [done|by destruct u].
Qed.

Lemma extend_row_spec now days add u : 0 < now → 0 ≤ days → 0 ≤ add →
  match extend_row now (days * 86400) add u with
  | None => days = 0 ∧ (add = 0 ∨ pos_limit (u_data_limit u) = false)
  | Some (u', t) =>
      u' = (u <| u_expire := extended_expire now days u |> <| u_data_limit := topped_limit add u |>
              <| u_status := u_status u' |> <| u_edit_at := Some now |>)
      ∧ t = status_in (u_status u') [active; on_hold]
  end.
Proof.
  intros Hn Hd Ha. unfold extend_row. rewrite extend_expire_row, extend_data_row by done.
  destruct (Z.eqb_spec days 0) as [->|Hne]; cbn [negb orb].
  - destruct (Z.eqb_spec add 0) as [->|Hna]; cbn [negb andb]; [split; by auto|].
    change (u_data_limit (u <| u_expire := extended_expire now 0 u |>)) with (u_data_limit u).
    destruct (pos_limit (u_data_limit u)); cbn [negb]; [|split; by auto].
    split; [|done]. unfold reactivate_extended. cbv zeta. repeat case_match; done.
  - split; [|done]. unfold reactivate_extended. cbv zeta. repeat case_match; done.
Qed.

Section extend.
Context (lv : ListView) (now : Z).

Definition extend_targets (b : BulkExtendRequest) (admin : option Caller) (d : DB) : list (Z * User) :=
  selected lv now admin (bx_scope b) (bx_usernames b) (status_arg (bx_status b) (bx_filters b))
    (bx_filters b) d.

Lemma extend_run b admin d :
  let out := run_session (apply_bulk_extend lv now b admin) d in
  if select_fails (bx_scope b) (bx_usernames b) then out = (Raise no_names, d)
  else ∃ q, out.1 = Ok (bulk_result q)
  ∧ loop_done (λ _, extend_row now (bx_days b * 86400) (bx_add_data_bytes b))
      (extend_targets b admin d).*1 d out.2 q.
Proof.
  rewrite extend_is_row_request. unfold _iter_target_users.
  fold (status_arg (bx_status b) (bx_filters b)). apply row_request_run.
Qed.

(** The row a selected account ends with. *)
Lemma extend_loop_row b i u : 0 < now → bulk_extend_valid b = true →
  let u' := loop_row (λ _, extend_row now (bx_days b * 86400) (bx_add_data_bytes b)) i u in
  u_expire u' = extended_expire now (bx_days b) u
  ∧ u_data_limit u' = topped_limit (bx_add_data_bytes b) u
  ∧ u' = (u <| u_expire := u_expire u' |> <| u_data_limit := u_data_limit u' |>
            <| u_status := u_status u' |> <| u_edit_at := u_edit_at u' |>).
Proof.
  intros Hn Hv. cbv zeta. unfold bulk_extend_valid in Hv. boolp.
  repeat match goal with H : (_ <=? _) = true |- _ => apply Z.leb_le in H end.
  pose proof (extend_row_spec now (bx_days b) (bx_add_data_bytes b) u ltac:(done) ltac:(done) ltac:(done)) as E.
  unfold loop_row. destruct (extend_row _ _ _ u) as [[u' t]|].
  - destruct E as [E _]. split_and!; by rewrite E.
  - destruct E as [E1 E2]. unfold extended_expire, topped_limit. rewrite E1. cbn [Z.eqb].
    split_and!; [done| |by destruct u]. destruct E2 as [-> | ->]; [|done].
    destruct (u_data_limit u) as [l|]; [|done]. cbn. by destruct (0 <? l); [rewrite Z.add_0_r|].
Qed.

Lemma extend_touched_live b u u' t : extend_row now (bx_days b * 86400) (bx_add_data_bytes b) u = Some (u', t) →
  t = status_in (u_status u') [active; on_hold].
Proof.
  unfold extend_row. destruct (extend_expire _ _ _) as [c v], (extend_data _ _ _) as [c' w].
  destruct (negb c'); [done|]. by intros [= <- <-].
Qed.

(** A bulk extension does what it says to exactly the selected accounts: each
    gets the days counted from the later of now and its old expiry, and the bytes
    on top of its quota if it has one, keeping every other column but the status
    and the edit time; every other account, every wallet, ledger entry and reseller
    is untouched; applied and skipped rows add up to the selection, and the accounts
    handed to the cores are active or on hold. *)
Theorem bulk_extend_spec b admin d :
  0 < now → bulk_extend_valid b = true → select_fails (bx_scope b) (bx_usernames b) = false →
  let '(r, d') := run_session (apply_bulk_extend lv now b admin) d in
  let sel := extend_targets b admin d in
  ∃ res, r = Ok res
  ∧ (∀ uid u, (uid, u) ∈ sel → ∃ u', users d' !! uid = Some u'
      ∧ u_expire u' = extended_expire now (bx_days b) u
      ∧ u_data_limit u' = topped_limit (bx_add_data_bytes b) u
      ∧ u' = (u <| u_expire := u_expire u' |> <| u_data_limit := u_data_limit u' |>
                <| u_status := u_status u' |> <| u_edit_at := u_edit_at u' |>)
      ∧ (uid ∈ br_touched res → u_status u' = active ∨ u_status u' = on_hold))
  ∧ (∀ uid, uid ∉ sel.*1 → users d' !! uid = users d !! uid)
  ∧ wallets d' = wallets d ∧ transactions d' = transactions d ∧ admins d' = admins d
  ∧ br_applied res + br_skipped res = Z.of_nat (length sel).
Proof.
  intros Hn Hv Hsel. pose proof (extend_run b admin d) as H'. cbv zeta in H'. rewrite Hsel in H'.
  destruct (run_session _ d) as [r d']. cbn [fst snd] in H'. destruct H' as (q & -> & L).
  set (sel := extend_targets b admin d) in *.
  pose proof (loop_reads _ _ _ _ _ L) as (Ha & Hw & Ht & _). exists (bulk_result q).
  split_and!; [done| |..|done|done|done|rewrite <-(length_fmap fst sel); apply L].
  - intros uid u Hin. assert (Hu : users d !! uid = Some u) by (eapply elem_of_selected; exact Hin).
    assert (Hid : uid ∈ sel.*1) by by apply (list_elem_of_fmap_2 fst) in Hin.
    pose proof (ld_rows _ _ _ _ _ L uid) as Hr. rewrite bool_decide_true, Hu in Hr by done. cbn in Hr.
    eexists. split; [exact Hr|]. destruct (extend_loop_row b uid u Hn Hv) as (E1 & E2 & E3).
    split_and!; [done..|]. intros Hb. apply (ld_touched _ _ _ _ _ L) in Hb as (_ & v & v' & Hv' & Ev).
    assert (v = u) as -> by congruence. apply extend_touched_live in Ev as Et. unfold loop_row. rewrite Ev.
    destruct (u_status v'); cbn in Et; auto; done.
  - intros uid Hin. rewrite (ld_rows _ _ _ _ _ L uid). by rewrite bool_decide_false.
Qed.

(** An extension made in bulk is free: where editing the same account to the
    same expiry and quota would debit the reseller's wallet, the bulk request gives
    the account that expiry and quota, moves no money and leaves the marks of the
    paid period as they were. *)
Theorem bulk_extend_never_charged b admin d aid a uid u t price d1 :
  0 < now → bulk_extend_valid b = true → select_fails (bx_scope b) (bx_usernames b) = false →
  (uid, u) ∈ extend_targets b admin d →
  run_session (prepare_reseller_modify_charge now (Some (aid, a)) u
    (topped_limit (bx_add_data_bytes b) u) (extended_expire now (bx_days b) u)) d = (Ok (Some t, price), d1) →
  0 < price →
  let d' := (run_session (apply_bulk_extend lv now b admin) d).2 in
  wallets d' = wallets d ∧ transactions d' = transactions d
  ∧ ∃ u', users d' !! uid = Some u'
    ∧ u_expire u' = extended_expire now (bx_days b) u
    ∧ u_data_limit u' = topped_limit (bx_add_data_bytes b) u
    ∧ u_reseller_tariff_charged_id u' = u_reseller_tariff_charged_id u
    ∧ u_reseller_tariff_charged_expire u' = u_reseller_tariff_charged_expire u.
Proof.
  intros Hn Hv Hsel Hin _ _. pose proof (extend_run b admin d) as H. cbv zeta in H. rewrite Hsel in H.
  destruct H as (q & _ & L). cbv zeta.
  pose proof (loop_reads _ _ _ _ _ L) as (_ & Hw & Ht & _). split_and!; [done..|].
  assert (Hu : users d !! uid = Some u) by (eapply elem_of_selected; exact Hin).
  pose proof (ld_rows _ _ _ _ _ L uid) as Hr.
  rewrite bool_decide_true, Hu in Hr by by apply (list_elem_of_fmap_2 fst) in Hin.
  eexists. split; [exact Hr|]. destruct (extend_loop_row b uid u Hn Hv) as (E1 & E2 & E3).
  split_and!; [done|done|by rewrite E3|by rewrite E3].
Qed.
End extend.

(** Top up of one dimension reactivates the account without looking at the other:
    an expired account over its quota becomes active by days alone, and is handed
    to the cores. *)
Theorem extend_reactivates_exhausted now days u :
  0 < now → 0 < days → u_status u = expired → quota_exhausted u = true →
  ∃ u', extend_row now (days * 86400) 0 u = Some (u', true) ∧ u_status u' = active
        ∧ due_for_review now u' = true.
Proof.
  intros Hn Hd Hs Hq. unfold extend_row. rewrite extend_expire_row, extend_data_row by lia.
  rewrite (proj2 (Z.eqb_neq days 0)) by lia. cbn [negb orb].
  set (v := (u <| u_expire := extended_expire now days u |>) <| u_data_limit := topped_limit 0 _ |>).
  assert (Hvs : u_status v = expired) by exact Hs.
  assert (Hve : u_expire v = Some (Z.max now (or0 (u_expire u)) + days * 86400)).
  { change (u_expire v) with (extended_expire now days u). unfold extended_expire.
    by rewrite (proj2 (Z.eqb_neq days 0)) by lia. }
  assert (Hvq : quota_exhausted v = true).
  { unfold quota_exhausted in *. change (u_used_traffic v) with (u_used_traffic u).
    change (u_data_limit v) with (topped_limit 0 u). unfold topped_limit.
    destruct (u_data_limit u) as [l|]; cbn in *; [|done]. destruct (0 <? l) eqn:El; cbn in *; [|done].
    by rewrite Z.add_0_r, El. }
  assert (Hra : reactivate_extended now v = v <| u_status := active |>).
  { unfold reactivate_extended. rewrite Hvs, Hve. cbn [status_eqb andb truthy or0].
    rewrite (proj2 (Z.eqb_neq _ 0)), (proj2 (Z.ltb_lt _ _)) by lia. done. }
  rewrite Hra. eexists. split_and!; [reflexivity|reflexivity|].
  unfold due_for_review. cbn [over]. apply andb_true_iff. split; [done|]. apply orb_true_iff. left. exact Hvq.
Qed.

(** *** Enable, disable and reset *)
Section status.
Context (lv : ListView) (now : Z).

Definition status_targets (b : BulkStatusRequest) (admin : option Caller) (d : DB) : list (Z * User) :=
  selected lv now admin (bs_scope b) (bs_usernames b) (status_arg (bs_status b) (bs_filters b))
    (bs_filters b) d.

Lemma status_run b admin d :
  let out := run_session (apply_bulk_status lv now b admin) d in
  if select_fails (bs_scope b) (bs_usernames b) then out = (Raise no_names, d)
  else ∃ q, out.1 = Ok (bulk_result q)
  ∧ loop_done (λ _, status_row now (bs_action b)) (status_targets b admin d).*1 d out.2 q.
Proof.
  rewrite status_is_row_request. unfold _iter_target_users.
  fold (status_arg (bs_status b) (bs_filters b)). apply row_request_run.
Qed.

Lemma reactivated_not_due u : due_for_review now (u <| u_status := _reactivated_status now u |>) = false.
Proof.
  unfold due_for_review. row_frame.
  change (u_status _) with (_reactivated_status now u). unfold _reactivated_status.
  destruct (pos_limit (u_expire u) && _) eqn:E1; [done|].
  destruct (pos_limit (u_data_limit u) && _) eqn:E2; [done|]. cbn [status_eqb andb]. by rewrite ?E1, ?E2.
Qed.

Lemma reactivated_status_spec u :
  _reactivated_status now u ≠ disabled ∧ _reactivated_status now u ≠ on_hold
  ∧ (_reactivated_status now u = active ↔ entitled now u).
Proof.
  unfold _reactivated_status, entitled, quota_exhausted.
  assert (Ht : (pos_limit (u_expire u) && (or0 (u_expire u) <=? now)) = false ↔
    ∀ e, u_expire u = Some e → 0 < e → now < e).
  { destruct (u_expire u) as [e|]; cbn; [|naive_solver]. split; [intros; simplify_eq; lia|].
    intros H. specialize (H e eq_refl). lia. }
  destruct (pos_limit (u_expire u) && _).
  { split; [done|]. split; [done|]. split; [done|]. intros [_ H]. by apply Ht in H. }
  destruct (pos_limit (u_data_limit u)); cbn [andb]; [destruct (_ <=? _)|];
    (split; [done|]; split; [done|]); naive_solver.
Qed.

(** The row a toggled account ends with, and whether the cores hear of it. *)
Lemma enable_row u : u_status u = disabled →
  ∃ u' t, status_row now enable u = Some (u', t) ∧ u_status u' = _reactivated_status now u
    ∧ due_for_review now u' = false ∧ (t = true ↔ u_status u' = active).
Proof.
  intros Hs. unfold status_row. rewrite Hs. cbn [status_eqb negb]. eexists _, _. split; [reflexivity|].
  split; [done|]. split; [exact (reactivated_not_due u)|]. change (u_status _) with (_reactivated_status now u).
  destruct (reactivated_status_spec u) as (H1 & H2 & _). by destruct (_reactivated_status now u).
Qed.

Lemma disable_row u :
  match status_row now disable u with
  | None => u_status u = disabled
  | Some (u', t) => u_status u' = disabled ∧ (t = true ↔ u_status u = active ∨ u_status u = on_hold)
  end.
Proof. unfold status_row. destruct (u_status u); cbn [status_eqb]; try done; (split; [done|]); cbn; naive_solver. Qed.

(** Enabling in bulk wakes exactly the accounts that may be served: every selected
    disabled account becomes active, limited or expired, is handed to the cores
    exactly if it became active, and is then not due for review, while an account
    that is not disabled is skipped; disabling leaves every selected account
    disabled and withdraws exactly those that were live.  No other account and no
    money changes. *)
Theorem bulk_status_spec b admin d :
  select_fails (bs_scope b) (bs_usernames b) = false →
  let '(r, d') := run_session (apply_bulk_status lv now b admin) d in
  let sel := status_targets b admin d in
  ∃ res, r = Ok res
  ∧ (∀ uid u, (uid, u) ∈ sel → ∃ u', users d' !! uid = Some u'
      ∧ match bs_action b with
        | enable =>
            if status_eqb (u_status u) disabled then
              due_for_review now u' = false ∧ u_status u' ≠ disabled ∧ u_status u' ≠ on_hold
              ∧ (uid ∈ br_touched res ↔ u_status u' = active)
              ∧ (u_status u' = active ↔ entitled now u)
            else u' = u ∧ uid ∉ br_touched res
        | disable =>
            u_status u' = disabled
            ∧ (uid ∈ br_touched res ↔ u_status u = active ∨ u_status u = on_hold)
        end)
  ∧ (∀ uid, uid ∉ sel.*1 → users d' !! uid = users d !! uid)
  ∧ wallets d' = wallets d ∧ transactions d' = transactions d ∧ admins d' = admins d.
Proof.
  intros Hsel. pose proof (status_run b admin d) as H'. cbv zeta in H'. rewrite Hsel in H'.
  destruct (run_session _ d) as [r d']. cbn [fst snd] in H'. destruct H' as (q & -> & L).
  pose proof (loop_reads _ _ _ _ _ L) as (Ha & Hw & Ht & _). exists (bulk_result q).
  split_and!; [done| |..|done|done|done].
  - intros uid u Hin. assert (Hu : users d !! uid = Some u) by (eapply elem_of_selected; exact Hin).
    assert (Hid : uid ∈ (status_targets b admin d).*1) by by apply (list_elem_of_fmap_2 fst) in Hin.
    pose proof (ld_rows _ _ _ _ _ L uid) as Hr. rewrite bool_decide_true, Hu in Hr by done.
    eexists. split; [exact Hr|]. cbn [bulk_result br_touched].
    assert (HT : uid ∈ q.2 ↔ ∃ u', status_row now (bs_action b) u = Some (u', true)).
    { rewrite (ld_touched _ _ _ _ _ L). split; [|naive_solver].
      intros (_ & v & v' & Hv & Ev). assert (v = u) as -> by congruence. by exists v'. }
    clear -HT. unfold loop_row in *. destruct (bs_action b).
    + destruct (decide (u_status u = disabled)) as [Hs|Hs].
      * destruct (enable_row u Hs) as (u' & t & E & Est & Hd & Ht). rewrite Hs, E in *. cbn [status_eqb].
        destruct (reactivated_status_spec u) as (R1 & R2 & R3). rewrite Est in *.
        split_and!; try done. rewrite HT, <-Ht. split; [by intros [? [= _ ->]]|intros ->; by exists u'].
      * rewrite (proj2 (status_eqb_neq _ _) Hs). unfold status_row in *.
        rewrite (proj2 (status_eqb_neq _ _) Hs) in *. split; [done|]. rewrite HT. by intros [? [=]].
    + pose proof (disable_row u) as Hd. destruct (status_row now disable u) as [[u' t]|].
      * destruct Hd as [Hd1 Hd2]. split; [done|]. rewrite HT, <-Hd2. split; [by intros [? [= _ ->]]|intros ->; by exists u'].
      * split; [done|]. rewrite HT, Hd. naive_solver.
  - intros uid Hin. rewrite (ld_rows _ _ _ _ _ L uid). by rewrite bool_decide_false.
Qed.
End status.

(** Disabling and enabling an account on hold makes it active without an expiry,
    where [activate_all_disabled_users] gives the hold back. *)
Theorem toggling_loses_the_hold now now' u dur :
  u_status u = on_hold → u_expire u = None → u_on_hold_expire_duration u = Some dur →
  quota_exhausted u = false →
  ∃ off on, status_row now disable u = Some (off, true) ∧ status_row now' enable off = Some (on, true)
    ∧ u_status on = active ∧ u_expire on = None
    ∧ ∀ d uid, users d !! uid = Some off →
        u_status <$> users (activate_all_disabled_users now' None d) !! uid = Some on_hold.
Proof.
  intros Hs He Hd Hq. unfold status_row at 1. rewrite Hs. cbn [status_eqb status_in existsb orb].
  set (off := ((u <| u_status := disabled |> <| u_online_at := None |>)
    <| u_last_status_change := Some now |>) <| u_edit_at := Some now |>).
  destruct (enable_row now' off eq_refl) as (on & t & E & Est & _ & Ht).
  assert (Ha : u_status on = active).
  { rewrite Est. apply reactivated_status_spec. split; [exact Hq|]. intros e. change (u_expire off) with (u_expire u).
    by rewrite He. }
  exists off, on. split_and!; [done|by rewrite E, (proj2 Ht Ha)|done| |].
  - unfold status_row in E. cbn [status_eqb negb] in E. injection E as <- _. exact He.
  - intros d uid Hu. unfold activate_all_disabled_users. cbn [over users].
    rewrite !lookup_fmap, Hu. cbn [fmap option_fmap option_map].
    replace (is_none (u_expire off)) with true by (change (u_expire off) with (u_expire u); by rewrite He).
    replace (is_none (u_on_hold_expire_duration off)) with false
      by (change (u_on_hold_expire_duration off) with (u_on_hold_expire_duration u); by rewrite Hd).
    done.
Qed.

Section reset.
Context (lv : ListView) (now : Z).

Definition reset_targets (b : BulkResetUsageRequest) (admin : option Caller) (d : DB) : list (Z * User) :=
  selected lv now admin (bz_scope b) (bz_usernames b) (status_arg (bz_status b) (bz_filters b))
    (bz_filters b) d.

Lemma reset_row_crud rows uid u :
  reset_row now rows uid u =
  if (u_used_traffic u =? 0) && negb (has_node_usages rows uid) then None
  else Some (reset_user_row now u, status_eqb (u_status u) limited).
Proof.
  unfold reset_row, reset_user_row. destruct (_ && _); [done|]. row_frame.
  destruct u as [? st]. by destruct st, u_next_plan.
Qed.

(** The bulk reset agrees with the single one: every selected account ends as
    [crud.reset_user_data_usage] leaves it, except that an account without usage and
    without per-node rows is skipped unchanged; the per-node rows left are those of
    the accounts outside the selection; the bytes ever used by an account do not
    change; no other account and no money changes. *)
Theorem bulk_reset_agrees b admin d :
  select_fails (bz_scope b) (bz_usernames b) = false →
  let '(r, d') := run_session (apply_bulk_reset_usage lv now b admin) d in
  let sel := reset_targets b admin d in
  ∃ res, r = Ok res
  ∧ (∀ uid u, (uid, u) ∈ sel →
      users d' !! uid = Some (if (u_used_traffic u =? 0) && negb (has_node_usages (node_user_usages d) uid)
                              then u else reset_user_row now u)
      ∧ lifetime_used_traffic <$> users d' !! uid = Some (lifetime_used_traffic u))
  ∧ (∀ uid, uid ∉ sel.*1 → users d' !! uid = users d !! uid)
  ∧ node_user_usages d' = filter (λ x, nu_user_id x ∉ sel.*1) (node_user_usages d)
  ∧ wallets d' = wallets d ∧ transactions d' = transactions d ∧ admins d' = admins d.
Proof.
  intros Hsel. pose proof (reset_run lv now b admin d) as H'. cbv zeta in H'. rewrite Hsel in H'.
  fold (reset_targets b admin d) in H'. destruct (run_session _ d) as [r d']. cbn [fst snd] in H'.
  destruct H' as (q & d1 & -> & L & ->). pose proof (loop_reads _ _ _ _ _ L) as (Ha & Hw & Ht & _).
  exists (bulk_result q). split_and!; [done| |..| |done|done|done].
  - intros uid u Hin. assert (Hu : users d !! uid = Some u) by (eapply elem_of_selected; exact Hin).
    change (users (d1 <| node_user_usages := _ |>)) with (users d1).
    pose proof (ld_rows _ _ _ _ _ L uid) as Hr. rewrite bool_decide_true, Hu in Hr by by apply (list_elem_of_fmap_2 fst) in Hin.
    cbn in Hr. unfold loop_row in Hr. rewrite reset_row_crud in Hr. rewrite Hr.
    destruct (_ && _); [done|]. split; [done|]. cbn [fmap option_fmap option_map]. by rewrite reset_user_lifetime.
  - intros uid Hin. change (users (d1 <| node_user_usages := _ |>)) with (users d1).
    rewrite (ld_rows _ _ _ _ _ L uid). by rewrite bool_decide_false.
  - change (node_user_usages (d1 <| node_user_usages := ?x |>)) with x. apply filter_ext_in.
    intros x Hx. rewrite (ld_applied _ _ _ _ _ L). split; [|tauto]. intros Hn Hin. apply Hn. split; [done|].
    apply elem_of_selected_ids in Hin as (u & Hu & _). exists u. split; [done|]. rewrite reset_row_crud.
    replace (has_node_usages (node_user_usages d) (nu_user_id x)) with true; [by rewrite andb_false_r|].
    symmetry. apply existsb_exists. exists x. split; [by apply list_elem_of_In|]. by apply Z.eqb_eq.
Qed.
End reset.

(** *** Delete *)

(** The database after [remove_users_by_ids]. *)
Definition removed (ids : list Z) (d : DB) : DB :=
  d <| node_user_usages := filter (λ r, nu_user_id r ∉ ids) (node_user_usages d) |>
    <| orders := filter (λ o, o_user_id o ∉ ids) (orders d) |>
    <| intents := (λ i, if match pi_user_id i with
                           | Some u => bool_decide (u ∈ ids) | None => false end
                        then mkIntent (pi_kind i) (pi_admin_id i) None (pi_plan_id i)
                               (pi_amount i) (pi_provider i) (pi_status i) (pi_extra i)
                               (pi_created_at i) (pi_completed_at i)
                        else i) <$> intents d |>
    <| users := (λ u, if match u_portal_owner_user_id u with
                         | Some o => bool_decide (o ∈ ids) | None => false end
                      then u <| u_portal_owner_user_id := None |> else u)
                <$> filter (λ p, p.1 ∉ ids) (users d) |>.

Lemma remove_run ids d : ids ≠ [] →
  remove_users_by_ids ids (mkSession d d) =
  (Ok (Z.of_nat (size (filter (λ p, p.1 ∈ ids) (users d)))), mkSession (removed ids d) (removed ids d)).
Proof. destruct ids; [done|]. intros _. reflexivity. Qed.

Lemma removed_nil d : removed [] d = d.
Proof.
  unfold removed. destruct d as [us ? ? ? nu ? ? ? ? ? ? ? ? ? ? ? os ins ? ?]. cbn. f_equal.
  - rewrite map_filter_id by (intros; apply not_elem_of_nil).
    rewrite <-(map_fmap_id us) at 2. apply map_fmap_ext. intros i u _. by destruct (u_portal_owner_user_id u).
  - apply filter_true_list. intros x _. apply not_elem_of_nil.
  - apply filter_true_list. intros x _. apply not_elem_of_nil.
  - rewrite <-(map_fmap_id ins) at 2. apply map_fmap_ext. intros i u _. by destruct (pi_user_id u).
Qed.

Lemma removed_app l1 l2 d : removed l2 (removed l1 d) = removed (l1 ++ l2) d.
Proof.
  unfold removed. destruct d as [us ? ? ? nu ? ? ? ? ? ? ? ? ? ? ? os ins ? ?]. cbn. f_equal.
  - apply map_eq. intros i. rewrite !lookup_fmap, !map_lookup_filter, !lookup_fmap, !map_lookup_filter.
    destruct (us !! i) as [u|]; [|done]. cbn.
    repeat (case_guard; cbn); try done; try (exfalso; set_solver). f_equal.
    destruct (u_portal_owner_user_id u) as [o|] eqn:Eo; [|by rewrite Eo].
    destruct (decide (o ∈ l1)) as [Ho|Ho].
    { by rewrite (bool_decide_true (o ∈ l1)), (bool_decide_true (o ∈ l1 ++ l2)) by set_solver. }
    rewrite (bool_decide_false (o ∈ l1)) by done. rewrite Eo.
    by rewrite (bool_decide_ext (o ∈ l1 ++ l2) (o ∈ l2)) by set_solver.
  - rewrite list_filter_filter. apply filter_ext_in. set_solver.
  - rewrite list_filter_filter. apply filter_ext_in. set_solver.
  - apply map_eq. intros i. rewrite !lookup_fmap. destruct (ins !! i) as [p|]; [|done]. cbn. f_equal.
    destruct (pi_user_id p) as [o|] eqn:Eo; [|by rewrite Eo].
    destruct (decide (o ∈ l1)) as [Ho|Ho].
    { by rewrite (bool_decide_true (o ∈ l1)), (bool_decide_true (o ∈ l1 ++ l2)) by set_solver. }
    rewrite (bool_decide_false (o ∈ l1)) by done. rewrite Eo.
    by rewrite (bool_decide_ext (o ∈ l1 ++ l2) (o ∈ l2)) by set_solver.
Qed.

Lemma removed_users ids d uid :
  is_Some (users (removed ids d) !! uid) ↔ is_Some (users d !! uid) ∧ uid ∉ ids.
Proof.
  unfold removed. cbn. rewrite lookup_fmap, fmap_is_Some. unfold is_Some. setoid_rewrite map_lookup_filter_Some. naive_solver.
Qed.

(** All ids of a batch are rows, each once: the DELETE reports their number. *)
Lemma remove_count ids d : NoDup ids → (∀ i, i ∈ ids → is_Some (users d !! i)) →
  size (filter (λ p, p.1 ∈ ids) (users d)) = length ids.
Proof.
  intros Hnd Hin. rewrite <-(size_list_to_set (C := gset Z)) by done. rewrite <-size_dom. f_equal.
  apply set_eq. intros i. rewrite elem_of_list_to_set, elem_of_dom. unfold is_Some.
  setoid_rewrite map_lookup_filter_Some. cbn. split; [naive_solver|]. intros Hi. destruct (Hin i Hi). naive_solver.
Qed.

Lemma delete_batches_run fuel step ids d : (0 < step)%nat → (length ids ≤ fuel)%nat →
  NoDup ids → (∀ i, i ∈ ids → is_Some (users d !! i)) →
  ∃ p, delete_batches fuel step ids (mkSession d d) =
         (Ok p, mkSession (removed ids d) (removed ids d))
    ∧ sumZ snd p = Z.of_nat (length ids) ∧ sumZ fst p = Z.of_nat (length ids)
    ∧ Forall (λ x, x.2 = x.1 ∧ 0 < x.1 ≤ Z.of_nat step) p.
Proof.
  intros Hstep. revert ids d. induction fuel as [|fuel IH]; intros ids d Hlen Hnd Hin.
  { destruct ids; [|cbn in Hlen; lia]. exists []. rewrite removed_nil. split; [done|]. split_and!; [done|done|constructor]. }
  destruct ids as [|i ids0] eqn:Eids.
  { exists []. rewrite removed_nil. split; [done|]. split_and!; [done|done|constructor]. }
  cbn [delete_batches]. rewrite <-Eids in *.
  assert (Hsplit := take_drop step ids). set (b := take step ids) in *. set (t := drop step ids) in *.
  assert (Hb : b ≠ []) by (unfold b; subst ids; destruct step; [lia|done]).
  assert (Hbl : (length b ≤ step)%nat) by (unfold b; rewrite length_take; lia).
  rewrite <-Hsplit in Hnd, Hin. apply NoDup_app in Hnd as (Hnb & Hdis & Hnt).
  rewrite (bind_ok _ _ _ _ _ (remove_run b d Hb)).
  destruct (IH t (removed b d)) as (p & E & Hs & Hf & Hall).
  { unfold t. rewrite length_drop. subst ids. cbn in *. lia. }
  { done. }
  { intros j Hj. apply removed_users. split; [apply Hin; set_solver|]. intros Hjb. by apply (Hdis j). }
  rewrite (bind_ok _ _ _ _ _ E), removed_app, Hsplit. eexists. split; [reflexivity|].
  assert (Hc : size (filter (λ p, p.1 ∈ b) (users d)) = length b) by (apply remove_count; [done|set_solver]).
  rewrite !sumZ_cons. cbn [fst snd]. rewrite Hc, Hs, Hf, <-Hsplit, length_app.
  split_and!; [lia|lia|]. constructor; [|done]. split; [done|]. cbn [fst]. destruct b; [done|]. cbn [length] in *. lia.
Qed.

Lemma remove_session ids d : (run_session (remove_users_by_ids ids) d).2 = removed ids d.
Proof.
  unfold run_session. destruct ids as [|i l]; [by rewrite removed_nil|]. by rewrite remove_run.
Qed.

Section delete.
Context (lv : ListView) (now : Z).

Definition delete_status (b : BulkDeleteRequest) : list UserStatus :=
  match bd_statuses b with
  | [] => opt_list (f_status (default no_filters (bd_filters b)))
  | _ => bd_statuses b
  end.

Definition delete_targets (b : BulkDeleteRequest) (admin : option Caller) (d : DB) : list (Z * User) :=
  selected lv now admin (bd_scope b) (bd_usernames b) (delete_status b) (bd_filters b) d.

Lemma delete_select_run b admin d :
  _iter_delete_targets lv now admin (bd_scope b) (bd_usernames b) (bd_statuses b) (bd_filters b)
    (mkSession d d) =
  if select_fails (bd_scope b) (bd_usernames b) then (Raise no_names, mkSession d d)
  else (Ok (delete_targets b admin d), mkSession d d).
Proof. unfold _iter_delete_targets. fold (delete_status b). apply select_users_eq. Qed.

Lemma delete_run b admin d : select_fails (bd_scope b) (bd_usernames b) = false →
  let ids := (delete_targets b admin d).*1 in
  ∃ p t, apply_bulk_delete lv now b admin (mkSession d d) =
           (Ok (mkBulkDeleted (Z.of_nat (length ids)) p t), mkSession (removed ids d) (removed ids d))
    ∧ sumZ snd p = Z.of_nat (length ids) ∧ sumZ fst p = Z.of_nat (length ids)
    ∧ Forall (λ x, x.2 = x.1 ∧ 0 < x.1 ≤ Z.of_nat chunk_size) p.
Proof.
  intros Hsel. cbv zeta. unfold apply_bulk_delete. pose proof (delete_select_run b admin d) as Hs.
  rewrite Hsel in Hs. rewrite (bind_ok _ _ _ _ _ Hs).
  set (ids := (delete_targets b admin d).*1).
  destruct (delete_batches_run (length ids) chunk_size ids d) as (p & E & H1 & H2 & H3).
  - unfold chunk_size. lia.
  - lia.
  - apply selected_rows.
  - intros i Hi. apply elem_of_selected_ids in Hi as (u & Hu & _). by exists u.
  - exists p. eexists. split; [|done]. rewrite (bind_ok _ _ _ _ _ E). unfold ret. by rewrite H1.
Qed.

(** Deleting in batches is deleting at once: the database after the batched
    delete is the one after a single delete of the whole selection, the reported
    count is the size of the selection, and every batch reports all of its at most
    two hundred rows. *)
Theorem bulk_delete_agrees b admin d :
  select_fails (bd_scope b) (bd_usernames b) = false →
  let ids := (delete_targets b admin d).*1 in
  ∃ res, run_session (apply_bulk_delete lv now b admin) d =
           (Ok res, (run_session (remove_users_by_ids ids) d).2)
    ∧ bdr_deleted res = Z.of_nat (length ids)
    ∧ sumZ fst (bdr_progress res) = Z.of_nat (length ids)
    ∧ Forall (λ x, x.2 = x.1 ∧ 0 < x.1 ≤ 200) (bdr_progress res).
Proof.
  intros Hsel. cbv zeta. destruct (delete_run b admin d Hsel) as (p & t & E & H1 & H2 & H3).
  eexists (mkBulkDeleted _ p t). rewrite remove_session. unfold run_session. rewrite E.
  split_and!; [done|done|exact H2|exact H3].
Qed.

Lemma removed_lookup ids d uid u : users d !! uid = Some u → uid ∉ ids →
  ∃ u', users (removed ids d) !! uid = Some u'
    ∧ (u' = u ∨ u' = u <| u_portal_owner_user_id := None |>
                ∧ ∃ o, u_portal_owner_user_id u = Some o ∧ o ∈ ids).
Proof.
  intros Hu Hin. unfold removed. cbn. rewrite lookup_fmap, (proj2 (map_lookup_filter_Some _ _ _ u)) by done.
  cbn. eexists. split; [reflexivity|]. destruct (u_portal_owner_user_id u) as [o|]; [|by left].
  case_bool_decide; [right; eauto|by left].
Qed.

Lemma loop_confined f ids d d' r uid u :
  loop_done f ids d d' r → uid ∉ ids → users d !! uid = Some u → users d' !! uid = Some u.
Proof. intros L Hi Hu. by rewrite (ld_rows _ _ _ _ _ L), bool_decide_false. Qed.

(** What any bulk request leaves of the rows outside the caller's scope. *)
Lemma run_bulk_confined op admin d :
  let d' := run_bulk lv now op admin d in
  (∀ uid u, users d !! uid = Some u → ¬ in_scope d admin u →
     ∃ u', users d' !! uid = Some u'
       ∧ (u' = u ∨ u' = u <| u_portal_owner_user_id := None |>
            ∧ ∃ o v, u_portal_owner_user_id u = Some o ∧ users d !! o = Some v ∧ in_scope d admin v))
  ∧ wallets d' = wallets d ∧ transactions d' = transactions d ∧ admins d' = admins d
  ∧ checkpoints d' = checkpoints d.
Proof.
  cbv zeta. unfold run_bulk.
  assert (Hno : ∀ sc nm st f uid u, users d !! uid = Some u → ¬ in_scope d admin u →
    uid ∉ (selected lv now admin sc nm st f d).*1).
  { intros sc nm st f uid u Hu Hn (v & Hv & Hs)%elem_of_selected_ids. congruence. }
  assert (Hloop : ∀ sc nm st f F d' r, loop_done F (selected lv now admin sc nm st f d).*1 d d' r →
    (∀ uid u, users d !! uid = Some u → ¬ in_scope d admin u → ∃ u', users d' !! uid = Some u' ∧
       (u' = u ∨ u' = u <| u_portal_owner_user_id := None |>
            ∧ ∃ o v, u_portal_owner_user_id u = Some o ∧ users d !! o = Some v ∧ in_scope d admin v))
    ∧ wallets d' = wallets d ∧ transactions d' = transactions d ∧ admins d' = admins d
    ∧ checkpoints d' = checkpoints d).
  { intros sc nm st f F d' r L. split.
    - intros uid u Hu Hn. exists u. split; [|by left]. eapply loop_confined; [exact L|by eapply Hno|done].
    - rewrite (ld_frame _ _ _ _ _ L). done. }
  assert (Hsame : (∀ uid u, users d !! uid = Some u → ¬ in_scope d admin u → ∃ u', users d !! uid = Some u' ∧
       (u' = u ∨ u' = u <| u_portal_owner_user_id := None |>
            ∧ ∃ o v, u_portal_owner_user_id u = Some o ∧ users d !! o = Some v ∧ in_scope d admin v))) by eauto.
  destruct op as [b|b|b|b].
  - pose proof (extend_run lv now b admin d) as H. cbv zeta in H. destruct (select_fails _ _); [rewrite H; by split_and!|].
    destruct H as (q & _ & L). by eapply Hloop.
  - pose proof (reset_run lv now b admin d) as H. cbv zeta in H. destruct (select_fails _ _); [rewrite H; by split_and!|].
    destruct H as (r & d1 & _ & L & ->). by eapply Hloop in L.
  - pose proof (status_run lv now b admin d) as H. cbv zeta in H. destruct (select_fails _ _); [rewrite H; by split_and!|].
    destruct H as (q & _ & L). by eapply Hloop.
  - destruct (select_fails (bd_scope b) (bd_usernames b)) eqn:Hsel.
    + unfold run_session, apply_bulk_delete. pose proof (delete_select_run b admin d) as H. rewrite Hsel in H.
      rewrite (bind_raise _ _ _ _ _ H). by split_and!.
    + destruct (delete_run b admin d Hsel) as (p & t & E & _). unfold run_session. rewrite E. cbn [snd saved].
      split; [|done]. intros uid u Hu Hn. destruct (removed_lookup (delete_targets b admin d).*1 d uid u) as (u' & Hu' & Hc);
        [done|by eapply Hno|]. exists u'. split; [done|]. destruct Hc as [->|(-> & o & Ho & Hi)]; [by left|right].
      split; [done|]. apply elem_of_selected_ids in Hi as (v & Hv & Hsc). eauto.
Qed.
End delete.


Lemma bulk_confined_is_Some lv now op c d uid u :
  c_is_sudo c = false → users d !! uid = Some u → owner_name d u ≠ Some (c_username c) →
  is_Some (users (run_bulk lv now op (Some c) d) !! uid).
Proof.
  intros Hs Hu Hn. destruct (run_bulk_confined lv now op (Some c) d) as [H _].
  destruct (H uid u Hu) as (u' & -> & _); [|by eexists]. cbn. rewrite Hs. by intros [?|?].
Qed.

(** *** Patterns *)
Lemma list_ascii_app (x y : string) :
  String.list_ascii_of_string (x ++ y)%string = String.list_ascii_of_string x ++ String.list_ascii_of_string y.
Proof. induction x as [|c x IH]; [done|]. apply (f_equal (cons c) IH). Qed.

Lemma list_ascii_lower (x : string) :
  String.list_ascii_of_string (lower x) = map lower_ascii (String.list_ascii_of_string x).
Proof. unfold lower. apply String.list_ascii_of_string_of_list_ascii. Qed.

Definition literal (c : Ascii.ascii) : bool :=
  negb (Ascii.eqb c pct) && negb (Ascii.eqb c underscore) && negb (Ascii.eqb c backslash).

Lemma like_pct s : like [pct] s = true.
Proof.
  induction s as [|c s IH]; [done|].
  change (like [pct] (c :: s)) with (like [] (c :: s) || like [pct] s). by rewrite IH, orb_true_r.
Qed.

Lemma like_literal l p s : forallb literal l = true →
  like (l ++ p) s = true ↔ ∃ t, s = l ++ t ∧ like p t = true.
Proof.
  revert s. induction l as [|c l IH]; intros s Hl; [by split; [eexists|intros (? & -> & ?)]|].
  cbn [forallb] in Hl. apply andb_true_iff in Hl as [Hc Hl]. unfold literal in Hc. boolp.
  cbn [app like]. repeat match goal with H : Ascii.eqb c _ = false |- _ => rewrite H; clear H end.
  destruct s as [|x s]; [split; [done|by intros (? & ? & _)]|]. rewrite andb_true_iff, Ascii.eqb_eq, (IH s Hl). naive_solver.
Qed.

(** The panel filter takes any account whose name merely begins with the slug and is
    longer: the underscore meant as the separator is the one-character wildcard, so the
    accounts of panel p10 are listed, extended and deleted with those of p1. *)
Theorem slug_filter_is_a_prefix_test slug uid u :
  strip slug = slug → slug ≠ ""%string →
  forallb literal (String.list_ascii_of_string (lower slug)) = true →
  slug_hit (Some slug) (uid, u) = true ↔
  ∃ c rest, String.list_ascii_of_string (lower (u_username u)) =
            String.list_ascii_of_string (lower slug) ++ c :: rest.
Proof.
  intros Hs Hne Hl. unfold slug_hit, text. rewrite default_Some, Hs, (proj2 (String.eqb_neq _ _) Hne).
  cbn [orb snd ilike]. rewrite (list_ascii_lower (slug ++ _)), list_ascii_app, map_app, <-list_ascii_lower.
  change (map lower_ascii (String.list_ascii_of_string "_%")) with [underscore; pct].
  rewrite like_literal by done. split.
  - intros (t & -> & Ht). destruct t as [|c t]; [done|]. by exists c, t.
  - intros (c & rest & ->). exists (c :: rest). split; [done|]. cbn [app like].
    change (Ascii.eqb underscore pct) with false. cbn iota. apply like_pct.
Qed.

End UserBulkFacts.

Module BulkDeleteFacts.
Import Quota Lifecycle Tariffs Portal PlanOps UserBulk BulkDeleteJobs BulkDelete UserBulkFacts.

(** *** The registry

    The steps the process can take: a request that found no active job, a
    progress report, the end of a job.  Job ids are fresh. *)
Inductive reg_step : Registry → Registry → Prop :=
  | rs_create now jid total r :
      active_job r = None → _jobs r !! jid = None → reg_step r (create now jid total r)
  | rs_bump now jid p q t r : reg_step r (bump now jid p q t r)
  | rs_finish now jid st del err r : reg_step r (finish now jid st del err r).

Definition unfinished (j : BulkDeleteJob) : Prop := j_finished_at j = None.

(** The active job exists and runs, and no other job does. *)
Record reg_ok (r : Registry) : Prop := mkRegOk {
  ro_active i : _active_id r = Some i → ∃ j, _jobs r !! i = Some j ∧ unfinished j;
  ro_single i j : _jobs r !! i = Some j → unfinished j → _active_id r = Some i }.

Lemma bump_unfinished now p q t j : unfinished (bump_job now p q t j) ↔ unfinished j.
Proof. unfold unfinished, bump_job. by destruct t. Qed.

Lemma finish_finishes now st del err j : j_finished_at (finish_job now st del err j) = Some now.
Proof. by destruct del. Qed.

Lemma reg_step_ok r r' : reg_step r r' → reg_ok r → reg_ok r'.
Proof.
  intros Hst [Ha Hs]. destruct Hst as [now jid total r Hno Hfresh|now jid p q t r|now jid st del err r].
  - assert (Hnone : _active_id r = None).
    { unfold active_job in Hno. destruct (_active_id r) as [i|]; [|done].
      destruct (Ha i eq_refl) as (j & Hj & _). congruence. }
    split; cbn.
    + intros i [= <-]. rewrite lookup_insert_eq. by eexists.
    + intros i j Hj Hu. destruct (decide (jid = i)) as [->|Hne]; [done|].
      rewrite lookup_insert_ne in Hj by done. apply map_lookup_filter_Some in Hj as [Hj _].
      rewrite (Hs i j Hj Hu) in Hnone. done.
  - split; cbn.
    + intros i (j & Hj & Hu)%Ha. destruct (decide (jid = i)) as [->|Hne].
      * rewrite lookup_alter_eq, Hj. eexists. split; [done|]. by apply bump_unfinished.
      * rewrite lookup_alter_ne by done. by exists j.
    + intros i j Hj Hu. destruct (decide (jid = i)) as [->|Hne].
      * rewrite lookup_alter_eq in Hj. apply fmap_Some in Hj as (j0 & Hj & ->).
        eapply Hs; [done|]. by apply bump_unfinished in Hu.
      * rewrite lookup_alter_ne in Hj by done. by eapply Hs.
  - unfold finish. cbn [over _active_id _jobs]. case_bool_decide as Hi; split; cbn in *.
    + done.
    + intros i j Hj Hu. destruct (decide (jid = i)) as [->|Hne].
      * rewrite lookup_alter_eq in Hj. apply fmap_Some in Hj as (j0 & _ & ->).
        unfold unfinished in Hu. by rewrite finish_finishes in Hu.
      * rewrite lookup_alter_ne in Hj by done. pose proof (Hs i j Hj Hu). congruence.
    + intros i Hact. destruct (Ha i Hact) as (j & Hj & Hu). exists j. split; [|done].
      rewrite lookup_alter_ne; [done|]. by intros ->.
    + intros i j Hj Hu. destruct (decide (jid = i)) as [->|Hne].
      * rewrite lookup_alter_eq in Hj. apply fmap_Some in Hj as (j0 & _ & ->).
        unfold unfinished in Hu. by rewrite finish_finishes in Hu.
      * rewrite lookup_alter_ne in Hj by done. by eapply Hs.
Qed.

Definition reg0 : Registry := mkRegistry ∅ None.

(** Background deletes run one at a time: in every registry the process can reach
    there is at most one unfinished job, and it is the one [active_job] reports, so the
    next request is refused exactly while a delete runs. *)
Theorem single_bulk_delete r :
  rtc reg_step reg0 r →
  (∀ i j i' j', _jobs r !! i = Some j → unfinished j → _jobs r !! i' = Some j' → unfinished j' → i = i')
  ∧ (active_job r = None ↔ ∀ i j, _jobs r !! i = Some j → ¬ unfinished j).
Proof.
  intros Hr. assert (Hok : reg_ok r).
  { assert (H0 : reg_ok reg0) by (split; [done|]; intros i j; cbn; by rewrite lookup_empty).
    revert H0. induction Hr as [|x y z Hs _ IH]; [done|]. intros H. apply IH. by eapply reg_step_ok. }
  destruct Hok as [Ha Hs]. split.
  - intros i j i' j' Hj Hu Hj' Hu'. pose proof (Hs i j Hj Hu). pose proof (Hs i' j' Hj' Hu'). congruence.
  - unfold active_job. split.
    + intros Hn i j Hj Hu. rewrite (Hs i j Hj Hu) in Hn. congruence.
    + intros Hall. destruct (_active_id r) as [i|]; [|done]. destruct (Ha i eq_refl) as (j & Hj & Hu).
      by destruct (Hall i j Hj).
Qed.

(** *** The request and its worker *)
Section worker.
Context (lv : ListView).

Lemma request_starts now jid body c reg d :
  select_fails (bd_scope body) (bd_usernames body) = false →
  match (run_session (bulk_delete_users lv now jid body c reg) d).1 with
  | Ok (Started _ _, reg', Some w) =>
      w = mkWorker jid (if c_is_sudo c then None else Some (c_username c)) body
      ∧ active_job reg = None ∧ reg' = create now jid (Z.of_nat (length (delete_targets lv now body (Some c) d))) reg
  | Ok (Started _ _, _, None) => False
  | Ok (Deleted _, reg', w) => reg' = reg ∧ w = None
  | Raise e => e = HTTPException 409 "A bulk delete is already running. Wait for it to finish."
      ∧ active_job reg ≠ None
  end.
Proof.
  intros Hsel. unfold run_session, bulk_delete_users.
  assert (Hv : value_error_400 (_iter_delete_targets lv now (Some c) (bd_scope body) (bd_usernames body)
    (bd_statuses body) (bd_filters body)) (mkSession d d) = (Ok (delete_targets lv now body (Some c) d), mkSession d d)).
  { unfold value_error_400. by rewrite delete_select_run, Hsel. }
  rewrite (bind_ok _ _ _ _ _ Hv). destruct (_ || _).
  - destruct (delete_run lv now body (Some c) d Hsel) as (p & t & E & _).
    eassert (He : value_error_400 (apply_bulk_delete lv now body (Some c)) (mkSession d d) = (Ok _, _)).
    { unfold value_error_400. rewrite E. reflexivity. }
    rewrite (bind_ok _ _ _ _ _ He). by split.
  - destruct (active_job reg); [by split|]. split_and!; [reflexivity|reflexivity|reflexivity].
Qed.

(** The worker of a bulk delete forgets whose request it was: when the reseller who
    asked for the delete is removed or renamed before the worker runs, every account
    the filters select is deleted, whoever owns it (with scope [all], every account of
    the panel). *)
Theorem orphaned_worker_deletes_everyone now now' jid body c reg d reg' w d' :
  c_is_sudo c = false → bd_scope body ≠ scope_selected →
  (∃ id total, (run_session (bulk_delete_users lv now jid body c reg) d).1 = Ok (Started id total, reg', Some w)) →
  get_admin d' (c_username c) = None →
  let '(after, _) := _worker lv now' w (d', reg') in
  ∀ uid u, users d' !! uid = Some u →
    (bd_scope body = scope_all ∨ (uid, u) ∈ delete_targets lv now' body None d') → users after !! uid = None.
Proof.
  intros Hs Hsc (id & total & Hreq) Hgone.
  assert (Hsel : select_fails (bd_scope body) (bd_usernames body) = false) by by destruct (bd_scope body).
  pose proof (request_starts now jid body c reg d Hsel) as Hst. rewrite Hreq in Hst. destruct Hst as (-> & _ & _).
  rewrite Hs. unfold _worker. cbn [w_job w_body].
  assert (Hadm : worker_admin d' (mkWorker jid (Some (c_username c)) body) = None).
  { unfold worker_admin. cbn [w_admin_username]. rewrite Hgone. by destruct (String.eqb _ _). }
  rewrite Hadm. unfold run_session. destruct (delete_run lv now' body None d' Hsel) as (p & t & E & _).
  rewrite E. cbn [saved]. intros uid u Hu Hin.
  destruct (users (removed _ d') !! uid) eqn:Er; [|done]. exfalso.
  eapply mk_is_Some, removed_users in Er as [_ Hnot]. apply Hnot.
  assert (Hin' : (uid, u) ∈ delete_targets lv now' body None d').
  { destruct Hin as [Hall|Hin]; [|done]. unfold delete_targets, selected. rewrite Hall. cbn.
    apply get_users_elem. split; [done|]. reflexivity. }
  by apply (list_elem_of_fmap_2 fst) in Hin'.
Qed.

(** While the reseller's row is there the worker deletes only the reseller's accounts. *)
Theorem worker_confined now w d reg name aid a uid u :
  w_admin_username w = Some name → name ≠ ""%string → get_admin d name = Some (aid, a) →
  a_is_sudo a = false → users d !! uid = Some u → owner_name d u ≠ Some (a_username a) →
  is_Some (users (_worker lv now w (d, reg)).1 !! uid).
Proof.
  intros Hw Hne Ha Hs Hu Ho. unfold _worker, worker_admin. rewrite Hw, Ha.
  rewrite (proj2 (String.eqb_neq _ _) Hne).
  pose proof (bulk_confined_is_Some lv now (OpDelete (w_body w)) (mkCaller (a_username a) (a_is_sudo a)) d uid u) as H.
  cbn [run_bulk c_is_sudo c_username] in H.
  destruct (run_session _ d) as [[r|e] d']; cbn [fst snd] in *; by apply H.
Qed.
End worker.
End BulkDeleteFacts.

Module UserBulkExamples.
Import Quota Lifecycle Tariffs Portal PlanOps UserBulk BulkDeleteJobs BulkDelete UserBulkFacts BulkDeleteFacts.

Definition lv0 : ListView := mkListView (λ _, None) (λ _, None) (λ _, []) (λ _, None).
Definition ann : User := sample_user <| u_username := "ann"%string |> <| u_admin_id := Some 7 |>
  <| u_data_limit := Some 10 |> <| u_expire := Some 2000 |>.
Definition bob : User := sample_user <| u_username := "bob"%string |> <| u_admin_id := Some 8 |>.
Definition held : User := sample_user <| u_username := "eve"%string |> <| u_admin_id := Some 7 |>
  <| u_status := disabled |> <| u_data_limit := Some 10 |> <| u_used_traffic := 4 |>.
Definition r7 : Admin := mkAdmin "r" false 0 None None 0 None None None 0.
Definition r8 : Admin := mkAdmin "s" false 0 None None 0 None None None 0.
Definition panel : DB := empty_db <| users := {[1 := ann; 2 := bob; 3 := held]} |>
  <| admins := {[7 := r7; 8 := r8]} |> <| wallets := {[7 := 900]} |>
  <| flags := {[ "billing" := true ]} |>
  <| tariffs := [mkTariff 1 "10 GB 30 days" 500 (Some 10) (Some 30) None None None true] |>.
Definition caller : Caller := mkCaller "r" false.
Definition extend30 : BulkExtendRequest := mkBulkExtend scope_selected ["ann"%string] None None 30 0.

Lemma bulk_extend_spec_witness : ∃ u',
  users (run_session (apply_bulk_extend lv0 1000 extend30 (Some caller)) panel).2 !! 1 = Some u'
  ∧ u_expire u' = Some (2000 + 30 * 86400).
Proof.
  pose proof (bulk_extend_spec lv0 1000 extend30 (Some caller) panel ltac:(lia) eq_refl eq_refl) as H.
  destruct (run_session _ panel) as [r d'] eqn:E. destruct H as (res & _ & H & _).
  destruct (H 1 ann) as (u' & Hu & He & _).
  { vm_compute. constructor. }
  exists u'. split; [exact Hu|]. exact He.
Defined.

Lemma bulk_extend_never_charged_witness :
  wallets (run_session (apply_bulk_extend lv0 1000 extend30 (Some caller)) panel).2 = {[7 := 900]}.
Proof.
  destruct (bulk_extend_never_charged lv0 1000 extend30 (Some caller) panel 7 r7 1 ann
    (mkTariff 1 "10 GB 30 days" 500 (Some 10) (Some 30) None None None true) 500 panel) as [H _].
  - lia.
  - reflexivity.
  - reflexivity.
  - vm_compute. constructor.
  - vm_compute. reflexivity.
  - lia.
  - exact H.
Defined.

Definition enable_all : BulkStatusRequest := mkBulkStatus scope_all [] None None enable.

Lemma bulk_status_spec_witness : ∃ u',
  users (run_session (apply_bulk_status lv0 1000 enable_all (Some caller)) panel).2 !! 3 = Some u'
  ∧ u_status u' = active.
Proof.
  pose proof (bulk_status_spec lv0 1000 enable_all (Some caller) panel eq_refl) as H.
  destruct (run_session _ panel) as [r d'] eqn:E. destruct H as (res & _ & H & _).
  destruct (H 3 held) as (u' & Hu & Hs).
  { vm_compute. repeat constructor. }
  exists u'. split; [exact Hu|]. cbn in Hs. apply Hs. vm_compute. split; [reflexivity|]. done.
Defined.

Definition reset_all : BulkResetUsageRequest := mkBulkReset scope_all [] None None.

Lemma bulk_reset_agrees_witness :
  users (run_session (apply_bulk_reset_usage lv0 1000 reset_all (Some caller)) panel).2 !! 3
  = Some (reset_user_row 1000 held).
Proof.
  pose proof (bulk_reset_agrees lv0 1000 reset_all (Some caller) panel eq_refl) as H.
  destruct (run_session _ panel) as [r d'] eqn:E. destruct H as (res & _ & H & _).
  destruct (H 3 held) as [Hu _].
  { vm_compute. repeat constructor. }
  exact Hu.
Defined.

Definition delete_all : BulkDeleteRequest := mkBulkDelete scope_all [] [] None.

Lemma bulk_delete_agrees_witness : ∃ res,
  (run_session (apply_bulk_delete lv0 1000 delete_all (Some caller)) panel).1 = Ok res ∧ bdr_deleted res = 2.
Proof.
  destruct (bulk_delete_agrees lv0 1000 delete_all (Some caller) panel eq_refl) as (res & E & H & _).
  exists res. rewrite E. split; [reflexivity|]. rewrite H. vm_compute. reflexivity.
Defined.


Lemma single_bulk_delete_witness :
  let r := finish 20 "a" "done" (Some 3) None (create 10 "a" 3 reg0) in
  active_job (create 30 "b" 1 r) ≠ None
  ∧ ∀ i j, _jobs r !! i = Some j → ¬ unfinished j.
Proof.
  cbv zeta. split; [vm_compute; discriminate|].
  apply (proj2 (single_bulk_delete (finish 20 "a" "done" (Some 3) None (create 10 "a" 3 reg0))
    ltac:(eapply rtc_l; [apply (rs_create 10 "a" 3 reg0); reflexivity|]; apply rtc_once, rs_finish))).
  vm_compute. reflexivity.
Defined.

Lemma orphaned_worker_deletes_everyone_witness :
  let renamed := panel <| admins := {[7 := mkAdmin "r2" false 0 None None 0 None None None 0; 8 := r8]} |> in
  users (_worker lv0 1060 (mkWorker "job" (Some "r"%string) delete_all) (renamed, create 1000 "job" 2 reg0)).1 !! 2 = None.
Proof.
  cbv zeta.
  pose proof (orphaned_worker_deletes_everyone lv0 1000 1060 "job" delete_all caller reg0 panel
    (create 1000 "job" 2 reg0) (mkWorker "job" (Some "r"%string) delete_all)
    (panel <| admins := {[7 := mkAdmin "r2" false 0 None None 0 None None None 0; 8 := r8]} |>)) as H.
  destruct (_worker _ _ _ _) as [after reg']. eapply (H eq_refl ltac:(discriminate)
    ltac:(exists "job"%string, 2; vm_compute; reflexivity) ltac:(vm_compute; reflexivity) 2 bob).
  - reflexivity.
  - left. reflexivity.
Defined.
End UserBulkExamples.
