(* ===== verification/Ipv4.v ===== *)
(** * Ipv4: what the address code uses of Python's [ipaddress]

    Addresses are integers below 2^32, networks a base address and a prefix
    length, written and read as dotted text.  IPv6 is not modelled: the panel's
    WireGuard pools are IPv4. *)
From S2P Require Import Prelude.

Module Ipv4.

(** ** Text *)
Definition digit (n : Z) : Ascii.ascii := Ascii.ascii_of_nat (Z.to_nat (n + 48)).

(** [str(n)] for an octet. *)
Definition octet_chars (n : Z) : list Ascii.ascii :=
  if n <? 10 then [digit n]
  else if n <? 100 then [digit (n / 10); digit (n mod 10)]
  else [digit (n / 100); digit (n / 10 mod 10); digit (n mod 10)].

Definition dot : Ascii.ascii := Ascii.ascii_of_nat 46.
Definition slash : Ascii.ascii := Ascii.ascii_of_nat 47.

(** The octets of an address, most significant first. *)
Definition octet (k : Z) (a : Z) : Z := Z.land (Z.shiftr a (8 * k)) 255.

Definition ip_chars (a : Z) : list Ascii.ascii :=
  octet_chars (octet 3 a) ++ dot :: octet_chars (octet 2 a) ++ dot ::
  octet_chars (octet 1 a) ++ dot :: octet_chars (octet 0 a).

(** [str(ip_address)] *)
Definition ip_str (a : Z) : string := String.string_of_list_ascii (ip_chars a).

(** [s.split(c)] *)
Fixpoint split_on (c : Ascii.ascii) (l : list Ascii.ascii) : list (list Ascii.ascii) :=
  match l with
  | [] => [[]]
  | x :: l =>
      if bool_decide (x = c) then [] :: split_on c l
      else match split_on c l with
           | [] => [[x]]
           | w :: ws => (x :: w) :: ws
           end
  end.

Definition digit_value (c : Ascii.ascii) : option Z :=
  let n := Z.of_nat (Ascii.nat_of_ascii c) - 48 in
  if (0 <=? n) && (n <=? 9) then Some n else None.

Fixpoint digits_value (acc : Z) (l : list Ascii.ascii) : option Z :=
  match l with
  | [] => Some acc
  | c :: l => match digit_value c with Some d => digits_value (10 * acc + d) l | None => None end
  end.

(** One to three digits, no leading zero, at most 255. *)
Definition parse_octet (l : list Ascii.ascii) : option Z :=
  match l with
  | [] => None
  | c :: rest =>
      if (3 <? Z.of_nat (length l)) then None
      else if bool_decide (c = digit 0) && negb (bool_decide (rest = [])) then None
      else match digits_value 0 l with
           | Some n => if n <=? 255 then Some n else None
           | None => None
           end
  end.

(** [int.from_bytes] of the four octets. *)
Definition of_octets (a b c d : Z) : Z := ((a * 256 + b) * 256 + c) * 256 + d.

Definition parse_ip_chars (l : list Ascii.ascii) : option Z :=
  match split_on dot l with
  | [a; b; c; d] =>
      a ← parse_octet a; b ← parse_octet b; c ← parse_octet c; d ← parse_octet d;
      Some (of_octets a b c d)
  | _ => None
  end.

(** [ip_address(s)], [None] for the [ValueError]. *)
Definition ip_address (s : string) : option Z := parse_ip_chars (String.list_ascii_of_string s).

(** [str(entry).split("/")[0]] *)
Definition before_slash (s : string) : string :=
  String.string_of_list_ascii (default [] (head (split_on slash (String.list_ascii_of_string s)))).

(** ** Networks *)
Record Subnet := mkSubnet { sn_addr : Z; sn_len : Z }.
#[export] Instance Subnet_eq_dec : EqDecision Subnet.
Proof. solve_decision. Defined.

Definition host_bits (s : Subnet) : Z := 32 - sn_len s.
Definition num_addresses (s : Subnet) : Z := 2 ^ host_bits s.

(** [addr & netmask] *)
Definition masked (len a : Z) : Z := Z.ldiff a (Z.ones (32 - len)).

(** [ip_network(subnet, strict=False)] *)
Definition ip_network (s : Subnet) : Subnet := mkSubnet (masked (sn_len s) (sn_addr s)) (sn_len s).

Definition network_address (n : Subnet) : Z := sn_addr n.
Definition broadcast_address (n : Subnet) : Z := sn_addr n + num_addresses n - 1.

(** [a in net] *)
Definition in_net (n : Subnet) (a : Z) : bool := masked (sn_len n) a =? network_address n.

Definition supernet_one (n : Subnet) : Subnet := ip_network (mkSubnet (sn_addr n) (sn_len n - 1)).

Definition overlaps (n m : Subnet) : bool :=
  in_net n (network_address m) || (in_net n (broadcast_address m)
  || (in_net m (network_address n) || in_net m (broadcast_address n))).

(** [net.hosts()], in order. *)
Definition hosts (n : Subnet) : list Z :=
  if sn_len n =? 32 then [network_address n]
  else if sn_len n =? 31 then [network_address n; broadcast_address n]
  else seqZ (network_address n + 1) (num_addresses n - 2).

End Ipv4.

Module Ipv4Facts.
Import Ipv4.

(** ** Round trip of the text *)
Definition octets : list Z := seqZ 0 256.

Lemma octet_range k a : 0 ≤ octet k a < 256.
Proof.
  unfold octet. change 255 with (Z.ones 8). rewrite Z.land_ones by lia.
  apply Z.mod_pos_bound. lia.
Qed.

Lemma elem_of_octets n : n ∈ octets ↔ 0 ≤ n < 256.
Proof. unfold octets. rewrite elem_of_seqZ. lia. Qed.

Lemma octet_check (f : Z → bool) n :
  forallb f octets = true → 0 ≤ n < 256 → f n = true.
Proof.
  intros Hf Hn. rewrite forallb_forall in Hf. apply Hf. by apply list_elem_of_In, elem_of_octets.
Qed.

Definition reads_back (n : Z) : bool := bool_decide (parse_octet (octet_chars n) = Some n).

Lemma parse_octet_chars n : 0 ≤ n < 256 → parse_octet (octet_chars n) = Some n.
Proof.
  intros Hn. assert (reads_back n = true) as H; [|unfold reads_back in H; by boolp].
  apply octet_check; [vm_compute; reflexivity|done].
Qed.

Definition plain (c : Ascii.ascii) (l : list Ascii.ascii) : bool := forallb (λ x, negb (bool_decide (x = c))) l.

Lemma octet_chars_plain n : 0 ≤ n < 256 → plain dot (octet_chars n) && plain slash (octet_chars n) = true.
Proof.
  apply (octet_check (λ n, plain dot (octet_chars n) && plain slash (octet_chars n))).
  vm_compute. reflexivity.
Qed.

Lemma split_on_plain c l : plain c l = true → split_on c l = [l].
Proof.
  induction l as [|x l IH]; cbn; [done|]. intros [Hx Hl]%andb_true_iff. boolp.
  rewrite bool_decide_eq_false_2 by done. by rewrite (IH Hl).
Qed.

Lemma split_on_app c l r : plain c l = true → split_on c (l ++ c :: r) = l :: split_on c r.
Proof.
  induction l as [|x l IH]; cbn; [by rewrite bool_decide_eq_true_2|].
  intros [Hx Hl]%andb_true_iff. boolp. rewrite bool_decide_eq_false_2 by done. by rewrite (IH Hl).
Qed.

Lemma of_octets_octet a : 0 ≤ a < 2 ^ 32 →
  of_octets (octet 3 a) (octet 2 a) (octet 1 a) (octet 0 a) = a.
Proof.
  intros Ha. unfold of_octets, octet. change 255 with (Z.ones 8).
  rewrite !Z.land_ones, !Z.shiftr_div_pow2 by lia.
  change (2 ^ 32) with 4294967296 in Ha.
  change (2 ^ 8) with 256. change (2 ^ (8 * 3)) with 16777216. change (2 ^ (8 * 2)) with 65536.
  change (2 ^ (8 * 1)) with 256. change (2 ^ (8 * 0)) with 1.
  Z.to_euclidean_division_equations. lia.
Qed.

(** The text of an address reads back as the address. *)
Lemma ip_address_str a : 0 ≤ a < 2 ^ 32 → ip_address (ip_str a) = Some a.
Proof.
  intros Ha. unfold ip_address, ip_str. rewrite String.list_ascii_of_string_of_list_ascii.
  unfold parse_ip_chars, ip_chars.
  pose proof (λ k, proj1 (andb_true_iff _ _) (octet_chars_plain _ (octet_range k a))) as Hp.
  rewrite !split_on_app by apply Hp. rewrite split_on_plain by apply Hp.
  rewrite !parse_octet_chars by apply octet_range. cbn. f_equal. by apply of_octets_octet.
Qed.

Lemma before_slash_ip a l :
  before_slash (String.string_of_list_ascii (ip_chars a ++ slash :: l)) = ip_str a.
Proof.
  unfold before_slash. rewrite String.list_ascii_of_string_of_list_ascii, split_on_app; [done|].
  pose proof (λ k, proj2 (proj1 (andb_true_iff _ _) (octet_chars_plain _ (octet_range k a)))) as Hp.
  unfold ip_chars, plain in *. repeat (rewrite forallb_app; cbn [forallb]). by rewrite !Hp.
Qed.

(** Nothing to strip, nothing to cut in the text of an address. *)
Definition no_space (l : list Ascii.ascii) : bool := forallb (λ c, negb (is_space c)) l.

Lemma octet_chars_no_space n : 0 ≤ n < 256 → no_space (octet_chars n) = true.
Proof. apply (octet_check (λ n, no_space (octet_chars n))). vm_compute. reflexivity. Qed.

Lemma drop_spaces_id l : no_space l = true → drop_spaces l = l.
Proof. destruct l as [|c l]; cbn; [done|]. intros [Hc _]%andb_true_iff. boolp. by rewrite Hc. Qed.

Lemma no_space_rev l : no_space l = true → no_space (rev l) = true.
Proof.
  unfold no_space. rewrite !forallb_forall. intros H c Hc. apply H. by apply in_rev.
Qed.

Lemma strip_ip a : strip (ip_str a) = ip_str a.
Proof.
  assert (no_space (ip_chars a) = true) as Hn.
  { pose proof (λ k, octet_chars_no_space _ (octet_range k a)) as Hp.
    unfold ip_chars, no_space in *. repeat (rewrite forallb_app; cbn [forallb]). by rewrite !Hp. }
  unfold strip, ip_str. rewrite String.list_ascii_of_string_of_list_ascii.
  rewrite (drop_spaces_id _ Hn), drop_spaces_id, rev_involutive; [done|by apply no_space_rev].
Qed.

Lemma before_slash_ip_str a : before_slash (ip_str a) = ip_str a.
Proof.
  unfold before_slash, ip_str. rewrite String.list_ascii_of_string_of_list_ascii, split_on_plain; [done|].
  pose proof (λ k, proj2 (proj1 (andb_true_iff _ _) (octet_chars_plain _ (octet_range k a)))) as Hp.
  unfold ip_chars, plain in *. repeat (rewrite forallb_app; cbn [forallb]). by rewrite !Hp.
Qed.

Lemma ip_str_nonempty a : ip_str a ≠ "".
Proof.
  intros E. apply (f_equal String.list_ascii_of_string) in E. unfold ip_str in E.
  rewrite String.list_ascii_of_string_of_list_ascii in E. by apply app_eq_nil in E as [_ ?].
Qed.

(** ** Networks *)
Definition wf_net (n : Subnet) : Prop :=
  0 ≤ sn_len n ≤ 32 ∧ 0 ≤ sn_addr n ∧ sn_addr n mod num_addresses n = 0
  ∧ sn_addr n + num_addresses n ≤ 2 ^ 32.

Lemma masked_mod len a : 0 ≤ len ≤ 32 → masked len a = a - a mod 2 ^ (32 - len).
Proof.
  intros Hl. unfold masked. rewrite Z.ldiff_ones_r by lia.
  rewrite Z.shiftl_mul_pow2, Z.shiftr_div_pow2 by lia.
  pose proof (Z.div_mod a (2 ^ (32 - len))) as H.
  assert (2 ^ (32 - len) ≠ 0) by (apply Z.pow_nonzero; lia). lia.
Qed.

Lemma num_pos n : 0 ≤ sn_len n ≤ 32 → 0 < num_addresses n.
Proof. intros. unfold num_addresses, host_bits. apply Z.pow_pos_nonneg; lia. Qed.

(** Membership is an interval on well-formed networks. *)
Lemma in_net_range n a : wf_net n →
  in_net n a = true ↔ network_address n ≤ a ≤ broadcast_address n.
Proof.
  intros (Hl & Ha & Hm & _). unfold in_net, network_address, broadcast_address.
  pose proof (num_pos n Hl) as Hp. rewrite Z.eqb_eq, masked_mod by done.
  fold (host_bits n). fold (num_addresses n). set (N := num_addresses n) in *.
  pose proof (Z.mod_pos_bound a N Hp). pose proof (Z.mod_pos_bound (sn_addr n) N Hp).
  pose proof (Z.div_mod a N ltac:(lia)). pose proof (Z.div_mod (sn_addr n) N ltac:(lia)).
  split; [lia|]. intros Hr.
  assert (a / N = sn_addr n / N); [|nia]. symmetry. apply (Z.div_unique_pos _ _ _ (a - sn_addr n)); [lia|].
  nia.
Qed.

Lemma wf_ip_network s : 0 ≤ sn_len s ≤ 32 → 0 ≤ sn_addr s < 2 ^ 32 → wf_net (ip_network s).
Proof.
  intros Hl Ha. unfold wf_net, ip_network. cbn [sn_len sn_addr]. rewrite masked_mod by done.
  set (N := 2 ^ (32 - sn_len s)). change (num_addresses _) with N.
  assert (0 < N) by (apply Z.pow_pos_nonneg; lia).
  assert (2 ^ 32 = N * 2 ^ sn_len s) as HN.
  { unfold N. rewrite <-Z.pow_add_r by lia. f_equal. lia. }
  pose proof (Z.mod_pos_bound (sn_addr s) N). pose proof (Z.div_mod (sn_addr s) N).
  split_and!; [lia..| | |].
  - pose proof (Z.mod_le (sn_addr s) N). lia.
  - replace (sn_addr s - sn_addr s mod N) with (sn_addr s / N * N) by lia. apply Z.mod_mul. lia.
  - assert (sn_addr s / N < 2 ^ sn_len s) by (apply Z.div_lt_upper_bound; lia). nia.
Qed.

Lemma ip_network_id n : wf_net n → ip_network n = n.
Proof.
  intros (Hl & _ & Hm & _). destruct n as [a l]. unfold ip_network. cbn in *. rewrite masked_mod by done.
  unfold num_addresses, host_bits in Hm. cbn in Hm. f_equal. lia.
Qed.

Definition subnet_of (n m : Subnet) : Prop :=
  network_address m ≤ network_address n ∧ broadcast_address n ≤ broadcast_address m.

(** The supernet: twice the size, around the network. *)
Lemma supernet_one_spec n : wf_net n → 0 < sn_len n →
  wf_net (supernet_one n) ∧ subnet_of n (supernet_one n)
  ∧ sn_len (supernet_one n) = sn_len n - 1 ∧ num_addresses (supernet_one n) = 2 * num_addresses n.
Proof.
  intros (Hl & Ha & Hm & Hb) Hpos. pose proof (num_pos n Hl) as Hn.
  assert (num_addresses (supernet_one n) = 2 * num_addresses n) as H2.
  { unfold num_addresses, host_bits, supernet_one. cbn. rewrite <-Z.pow_succ_r by lia. f_equal. lia. }
  assert (0 ≤ sn_addr n < 2 ^ 32) by lia.
  assert (wf_net (supernet_one n)) as Hwf by (apply wf_ip_network; cbn; lia).
  split_and!; [done| |done|done].
  unfold subnet_of, network_address, broadcast_address. rewrite H2.
  destruct Hwf as (_ & _ & Hm' & _). rewrite H2 in Hm'.
  assert (sn_addr (supernet_one n) = sn_addr n - sn_addr n mod (2 * num_addresses n)) as Hs.
  { unfold supernet_one, ip_network. cbn [sn_addr sn_len]. rewrite masked_mod by lia. f_equal. f_equal.
    rewrite <-H2. reflexivity. }
  rewrite Hs. set (N := num_addresses n) in *.
  pose proof (Z.mod_pos_bound (sn_addr n) (2 * N)). pose proof (Z.div_mod (sn_addr n) (2 * N)).
  pose proof (Z.div_mod (sn_addr n) N). split; [lia|].
  (* the offset of n in its supernet is 0 or N *)
  set (q := sn_addr n / N - 2 * (sn_addr n / (2 * N))).
  assert (sn_addr n mod (2 * N) = N * q) as Hq by (unfold q; lia).
  assert (q < 2) by nia. nia.
Qed.

Lemma subnet_of_refl n : subnet_of n n.
Proof. unfold subnet_of. lia. Qed.
Lemma subnet_of_trans a b c : subnet_of a b → subnet_of b c → subnet_of a c.
Proof. unfold subnet_of. lia. Qed.

(** Disjoint networks do not overlap, and conversely. *)
Lemma overlaps_false n m : wf_net n → wf_net m →
  overlaps n m = false → broadcast_address n < network_address m ∨ broadcast_address m < network_address n.
Proof.
  intros Hn Hm Ho. unfold overlaps in Ho. boolp.
  assert (∀ k a, wf_net k → in_net k a = false → ¬ (network_address k ≤ a ≤ broadcast_address k)) as Hno.
  { intros k a Hk Hf Hr. apply (in_net_range k a Hk) in Hr. congruence. }
  pose proof (Hno n _ Hn H). pose proof (Hno n _ Hn H0).
  pose proof (Hno m _ Hm H1). lia.
Qed.

(** ** Hosts *)
Lemma elem_of_hosts n h : wf_net n → sn_len n ≤ 30 →
  h ∈ hosts n ↔ network_address n < h < broadcast_address n.
Proof.
  intros Hwf Hl. unfold hosts. rewrite (proj2 (Z.eqb_neq _ _)), (proj2 (Z.eqb_neq _ _)) by lia.
  rewrite elem_of_seqZ. unfold broadcast_address, network_address. lia.
Qed.

Lemma hosts_NoDup n : NoDup (hosts n).
Proof.
  unfold hosts. destruct (Z.eqb_spec (sn_len n) 32); [apply NoDup_singleton|].
  destruct (Z.eqb_spec (sn_len n) 31) as [E|]; [|apply NoDup_seqZ].
  apply NoDup_cons. split; [|apply NoDup_singleton]. intros Hin%list_elem_of_singleton.
  unfold broadcast_address, num_addresses, host_bits, network_address in Hin. rewrite E in Hin. cbn in Hin. lia.
Qed.

Lemma hosts_range n h : wf_net n → h ∈ hosts n → 0 ≤ h < 2 ^ 32.
Proof.
  intros (Hl & Ha & Hm & Hb) Hh. pose proof (num_pos n Hl). unfold hosts, network_address, broadcast_address in Hh.
  destruct (Z.eqb_spec (sn_len n) 32); [apply list_elem_of_singleton in Hh; lia|].
  destruct (Z.eqb_spec (sn_len n) 31) as [E|].
  - assert (num_addresses n = 2) by (unfold num_addresses, host_bits; by rewrite E).
    apply elem_of_cons in Hh as [->|Hh%list_elem_of_singleton]; lia.
  - rewrite elem_of_seqZ in Hh. lia.
Qed.

Lemma length_hosts n : 0 ≤ sn_len n ≤ 30 → Z.of_nat (length (hosts n)) = num_addresses n - 2.
Proof.
  intros Hl. unfold hosts. rewrite (proj2 (Z.eqb_neq _ _)), (proj2 (Z.eqb_neq _ _)) by lia.
  rewrite length_seqZ. assert (2 ^ 2 ≤ num_addresses n); [|lia].
  unfold num_addresses, host_bits. apply Z.pow_le_mono_r; lia.
Qed.

End Ipv4Facts.
