(* ===== verification/AddressPool.v ===== *)
(** * AddressPool: tunnel addresses of WireGuard peers

    [app/wireguard/pool.py] (the allocator), [app/wireguard/capacity.py]
    (widening a node's subnet, keeping the gateway), [app/wireguard/kind.py],
    the address part of [app/wireguard/operations.py] and
    [app/wireguard/address_authority.py] (collisions).

    A subnet column is kept as the parsed pair (address, prefix length), as every
    use of it starts with [ip_network(..., strict=False)]; host and peer
    addresses stay text. *)
From S2P Require Import Prelude Ipv4.

Module AddressPool.
Import Ipv4.

Definition truthy_text (o : option string) : bool :=
  match o with Some s => negb (bool_decide (s = "")) | None => false end.

(** ** The allocator *)
Record Allocator := mkAllocator { al_network : Subnet; al_used : gset Z }.

Definition _coerce (entry : option string) : option Z :=
  if truthy_text entry then ip_address (before_slash (default "" entry)) else None.

Definition coerce_all (l : list (option string)) : gset Z := list_to_set (omap _coerce l).

Definition new_allocator (subnet : Subnet) (used : list (option string)) (reserve_first : bool)
    (reserved_hosts : list (option string)) : Allocator :=
  let network := ip_network subnet in
  let explicit := coerce_all reserved_hosts in
  let marked := coerce_all used ∪ explicit in
  if reserve_first && bool_decide (explicit = ∅)
  then mkAllocator network (match head (hosts network) with
                            | Some server => {[ server ]} ∪ marked
                            | None => marked
                            end)
  else mkAllocator network marked.

(** [f"{host}/32"] *)
Definition address_text (h : Z) : string :=
  String.string_of_list_ascii (ip_chars h ++ slash :: [digit 3; digit 2]).

Definition first_free (used : gset Z) (l : list Z) : option Z :=
  head (filter (λ h, h ∉ used) l).

Definition allocate (al : Allocator) : option string * Allocator :=
  match first_free (al_used al) (hosts (al_network al)) with
  | Some h => (Some (address_text h), mkAllocator (al_network al) ({[ h ]} ∪ al_used al))
  | None => (None, al)
  end.

Definition reserve (address : string) (al : Allocator) : Allocator :=
  match _coerce (Some address) with
  | Some h => mkAllocator (al_network al) ({[ h ]} ∪ al_used al)
  | None => al
  end.

(** ** Capacity *)
Definition MIN_PREFIXLEN : Z := 12.

Definition canonical_interface_host (subnet : Subnet) : option Z := head (hosts (ip_network subnet)).

Definition _host_in_subnet (h : Z) (n : Subnet) : bool :=
  in_net n h && negb (h =? network_address n) && negb (h =? broadcast_address n).

(** [str(raw).split("/")[0].strip()] *)
Definition host_text (s : string) : string := strip (before_slash s).

Definition resolve_interface_host (subnet : Subnet) (pinned : option string) : option string :=
  let canonical := ip_str <$> canonical_interface_host subnet in
  if truthy_text pinned then
    match ip_address (host_text (default "" pinned)) with
    | Some h => if _host_in_subnet h (ip_network subnet) then Some (ip_str h) else canonical
    | None => canonical
    end
  else canonical.

Definition usable_peer_slots (subnet : Subnet) : Z :=
  Z.max 0 (num_addresses (ip_network subnet) - 3).

(** The [while] of [widen_subnet]; one prefix bit per turn. *)
Fixpoint widen_loop (fuel : nat) (min_usable min_prefix : Z) (avoid : list Subnet) (net : Subnet)
    : option Subnet :=
  match fuel with
  | O => None
  | S fuel =>
      if min_usable <=? usable_peer_slots net then Some net
      else if sn_len net <=? min_prefix then Some net
      else
        let candidate := supernet_one net in
        if existsb (overlaps candidate) avoid then Some net
        else widen_loop fuel min_usable min_prefix avoid candidate
  end.

Definition widen_fuel : nat := 34.

Definition widen_subnet (subnet : Subnet) (min_usable : Z) (avoid : list Subnet) (min_prefix : Z) : Subnet :=
  if min_usable <=? 0 then subnet
  else
  let net := ip_network subnet in
  default net (widen_loop widen_fuel min_usable min_prefix (ip_network <$> avoid) net).

(** ** Node configuration *)
Inductive SettingsKey := address | awg_address.
#[export] Instance SettingsKey_eq_dec : EqDecision SettingsKey.
Proof. solve_decision. Defined.

Record NodeWireGuard := mkNodeWireGuard {
  wg_subnet : option Subnet;
  wg_awg_subnet : option Subnet;
  wg_interface_host : option string;
  wg_awg_interface_host : option string;
  wg_awg_enabled : bool }.

Definition subnet_for (key : SettingsKey) (cfg : NodeWireGuard) : option Subnet :=
  match key with address => wg_subnet cfg | awg_address => wg_awg_subnet cfg end.

Definition host_for (key : SettingsKey) (cfg : NodeWireGuard) : option string :=
  match key with address => wg_interface_host cfg | awg_address => wg_awg_interface_host cfg end.

Definition set_subnet (key : SettingsKey) (n : Subnet) (cfg : NodeWireGuard) : NodeWireGuard :=
  match key with
  | address => mkNodeWireGuard (Some n) (wg_awg_subnet cfg) (wg_interface_host cfg)
                 (wg_awg_interface_host cfg) (wg_awg_enabled cfg)
  | awg_address => mkNodeWireGuard (wg_subnet cfg) (Some n) (wg_interface_host cfg)
                     (wg_awg_interface_host cfg) (wg_awg_enabled cfg)
  end.

Definition set_host (key : SettingsKey) (h : option string) (cfg : NodeWireGuard) : NodeWireGuard :=
  match key with
  | address => mkNodeWireGuard (wg_subnet cfg) (wg_awg_subnet cfg) h
                 (wg_awg_interface_host cfg) (wg_awg_enabled cfg)
  | awg_address => mkNodeWireGuard (wg_subnet cfg) (wg_awg_subnet cfg) (wg_interface_host cfg)
                     h (wg_awg_enabled cfg)
  end.

Definition sibling_subnets (cfg : NodeWireGuard) (key : SettingsKey) : list Subnet :=
  match key with
  | awg_address => option_list (wg_subnet cfg)
  | address => if wg_awg_enabled cfg then option_list (wg_awg_subnet cfg) else []
  end.

Definition pinned_interface_host (cfg : NodeWireGuard) (key : SettingsKey) : option string :=
  if truthy_text (host_for key cfg) then
    let h := host_text (default "" (host_for key cfg)) in
    if bool_decide (h = "") then None else Some h
  else None.

Definition ensure_interface_host_pinned (cfg : NodeWireGuard) (key : SettingsKey)
    : option string * NodeWireGuard :=
  if truthy_text (host_for key cfg) then (pinned_interface_host cfg key, cfg)
  else match subnet_for key cfg with
       | None => (None, cfg)
       | Some subnet =>
           match canonical_interface_host subnet with
           | None => (None, cfg)
           | Some h => (Some (ip_str h), set_host key (Some (ip_str h)) cfg)
           end
       end.

Definition ensure_cfg_subnet_capacity (cfg : NodeWireGuard) (key : SettingsKey) (needed_peers : Z)
    : option Subnet * NodeWireGuard :=
  match subnet_for key cfg with
  | None => (None, cfg)
  | Some current =>
      let '(pin, cfg) := ensure_interface_host_pinned cfg key in
      let widened := widen_subnet current (Z.max 1 needed_peers) (sibling_subnets cfg key) MIN_PREFIXLEN in
      if bool_decide (widened = current) then (Some widened, cfg)
      else
      let cfg := set_subnet key widened cfg in
      match pin with
      | None => (Some widened, cfg)
      | Some p =>
          let resolved := resolve_interface_host widened (Some p) in
          if bool_decide (resolved = Some p) then (Some widened, cfg)
          else (Some widened, set_host key resolved cfg)
      end
  end.

(** [guard_fleet_subnet_capacity] on the nodes' configurations. *)
Definition guard_fleet_subnet_capacity (active_peers : Z) (nodes : list NodeWireGuard) : list NodeWireGuard :=
  let need := Z.max 0 active_peers + 64 in
  map (λ cfg,
    let cfg := if bool_decide (wg_subnet cfg = None) then cfg
               else (ensure_cfg_subnet_capacity cfg address need).2 in
    if wg_awg_enabled cfg && negb (bool_decide (wg_awg_subnet cfg = None))
    then (ensure_cfg_subnet_capacity cfg awg_address need).2 else cfg) nodes.

(** ** Peer addresses *)
Record WgProxy := mkWgProxy {
  wp_user_id : Z;
  wp_kind : option string;
  wp_address : option string;
  wp_awg_address : option string }.

Definition addr_for (key : SettingsKey) (p : WgProxy) : option string :=
  match key with address => wp_address p | awg_address => wp_awg_address p end.

Definition set_addr (key : SettingsKey) (a : string) (p : WgProxy) : WgProxy :=
  match key with
  | address => mkWgProxy (wp_user_id p) (wp_kind p) (Some a) (wp_awg_address p)
  | awg_address => mkWgProxy (wp_user_id p) (wp_kind p) (wp_address p) (Some a)
  end.

Definition user_wg_stack_labels (p : WgProxy) : list string :=
  if bool_decide (wp_kind p = Some "both") then ["wireguard"; "amneziawg"]
  else if bool_decide (wp_kind p = Some "amneziawg") then ["amneziawg"]
  else if bool_decide (wp_kind p = Some "wireguard") then ["wireguard"]
  else
  let awg := truthy_text (wp_awg_address p) in
  let plain := truthy_text (wp_address p) in
  if awg && plain then ["wireguard"; "amneziawg"]
  else if awg then ["amneziawg"] else ["wireguard"].

Definition wg_wants_plain_address (p : WgProxy) : bool := bool_decide ("wireguard" ∈ user_wg_stack_labels p).
Definition wg_wants_awg_address (p : WgProxy) : bool := bool_decide ("amneziawg" ∈ user_wg_stack_labels p).

Definition wants_key (key : SettingsKey) (p : WgProxy) : bool :=
  match key with address => wg_wants_plain_address p | awg_address => wg_wants_awg_address p end.

Definition missing_for (key : SettingsKey) (for_all : bool) (p : WgProxy) : bool :=
  ((for_all && bool_decide (key = address)) || wants_key key p) && negb (truthy_text (addr_for key p)).

(** The loop over the proxies without an address; it stops for good when the
    subnet is exhausted. *)
Fixpoint assign (key : SettingsKey) (for_all : bool) (al : Allocator) (ps : list WgProxy) : list WgProxy :=
  match ps with
  | [] => []
  | p :: ps =>
      if missing_for key for_all p then
        match allocate al with
        | (Some a, al') => set_addr key a p :: assign key for_all al' ps
        | (None, _) => p :: ps
        end
      else p :: assign key for_all al ps
  end.

Definition used_addresses (key : SettingsKey) (ps : list WgProxy) : list (option string) :=
  filter (λ a, truthy_text a = true) (addr_for key <$> ps).

(** [ensure_addresses_for_subnet] with a node configuration; it runs under the
    family's lock. *)
Definition ensure_addresses_for_subnet (cfg : NodeWireGuard) (key : SettingsKey) (for_all : bool)
    (ps : list WgProxy) : NodeWireGuard * list WgProxy :=
  match subnet_for key cfg with
  | None => (cfg, ps)
  | Some active =>
      let cfg := (ensure_interface_host_pinned cfg key).2 in
      let used := used_addresses key ps in
      let need := Z.of_nat (length used) + Z.of_nat (length (filter (λ p, missing_for key for_all p = true) ps)) in
      let '(active, cfg) :=
        if usable_peer_slots active <? need
        then let '(expanded, cfg) := ensure_cfg_subnet_capacity cfg key need in (default active expanded, cfg)
        else (active, cfg) in
      let reserved := match pinned_interface_host cfg key with Some p => [Some p] | None => [] end in
      (cfg, assign key for_all (new_allocator active used true reserved) ps)
  end.

(** ** Collisions ([address_authority.py])

    Rows of [wg_peers] with an address, in order of [user_id]. *)
Record WgPeer := mkWgPeer { pe_user_id : Z; pe_address : string }.

Definition DEFAULT_PLAIN_SUBNET : Subnet := mkSubnet (of_octets 10 10 0 0) 16.

(** [by_addr[host].append(peer)]: a dict keeps the order of first insertion. *)
Fixpoint insert_group (host : string) (uid : Z) (groups : list (string * list Z)) : list (string * list Z) :=
  match groups with
  | [] => [(host, [uid])]
  | (h, us) :: rest =>
      if bool_decide (h = host) then (h, us ++ [uid]) :: rest
      else (h, us) :: insert_group host uid rest
  end.

Definition group_by_host (rows : list WgPeer) : list (string * list Z) :=
  foldl (λ groups r, let host := host_text (pe_address r) in
    if bool_decide (host = "") then groups else insert_group host (pe_user_id r) groups) [] rows.

(** The inner loop over [peers[1:]]: new addresses until the subnet is full. *)
Fixpoint reassign (al : Allocator) (uids : list Z) : list (Z * string) * Allocator :=
  match uids with
  | [] => ([], al)
  | u :: uids =>
      match allocate al with
      | (Some a, al') => let '(upd, al'') := reassign al' uids in ((u, a) :: upd, al'')
      | (None, _) => ([], al)
      end
  end.

Fixpoint reassign_groups (al : Allocator) (groups : list (string * list Z)) : list (Z * string) :=
  match groups with
  | [] => []
  | (_, us) :: rest => let '(upd, al') := reassign al (tail us) in upd ++ reassign_groups al' rest
  end.

Definition new_address (upd : list (Z * string)) (r : WgPeer) : WgPeer :=
  match (list_to_map upd : gmap Z string) !! pe_user_id r with
  | Some a => mkWgPeer (pe_user_id r) a
  | None => r
  end.

Definition colliding (g : string * list Z) : bool := (1 <? Z.of_nat (length g.2)).

(** Returns the peers and the addresses written to them, which the code also
    copies to the proxies of those users. *)
Definition dedupe_finalmask_peer_addresses (rows : list WgPeer) : list WgPeer * list (Z * string) :=
  let by_addr := group_by_host (filter (λ r, pe_address r ≠ "") rows) in
  let collisions := filter (λ g, colliding g = true) by_addr in
  if bool_decide (collisions.*1 = []) then (rows, [])
  else
  let used := (λ g : string * list Z, Some g.1) <$> by_addr in
  let need := sumZ (λ g : string * list Z, Z.of_nat (length g.2) - 1) collisions in
  let subnet := widen_subnet DEFAULT_PLAIN_SUBNET (Z.of_nat (length used) + need + 16) [] MIN_PREFIXLEN in
  let upd := reassign_groups (new_allocator subnet used true []) collisions in
  (new_address upd <$> rows, upd).

(** [mirror_autoscale_addresses_to_proxies]: the planner's address wins. *)
Definition mirror_one (peers : gmap Z string) (p : WgProxy) : WgProxy :=
  match peers !! wp_user_id p with
  | Some a => if bool_decide (a = "") || bool_decide (wp_address p = Some a) then p else set_addr address a p
  | None => p
  end.

Definition mirror_autoscale_addresses_to_proxies (peers : gmap Z string) (ps : list WgProxy) : list WgProxy :=
  mirror_one peers <$> ps.

End AddressPool.

Module AddressPoolFacts.
Import Ipv4 Ipv4Facts AddressPool.

(** ** Widening *)
Lemma widen_loop_spec fuel min_usable min_prefix avoid net :
  wf_net net → 0 ≤ min_prefix → (Z.to_nat (sn_len net - min_prefix) < fuel)%nat →
  ∃ r, widen_loop fuel min_usable min_prefix avoid net = Some r
    ∧ wf_net r ∧ subnet_of net r
    ∧ (r = net ∨ (min_prefix ≤ sn_len r < sn_len net ∧ Forall (λ a, overlaps r a = false) avoid))
    ∧ (min_usable ≤ usable_peer_slots r ∨ sn_len r ≤ min_prefix
       ∨ Exists (λ a, overlaps (supernet_one r) a = true) avoid).
Proof.
  intros Hwf Hmin. revert net Hwf. induction fuel as [|fuel IH]; intros net Hwf Hf; [lia|]. cbn [widen_loop].
  assert (Hsame : wf_net net ∧ subnet_of net net) by (split; [done|apply subnet_of_refl]).
  destruct (Z.leb_spec min_usable (usable_peer_slots net)); [exists net; naive_solver|].
  destruct (Z.leb_spec (sn_len net) min_prefix); [exists net; naive_solver|].
  destruct (existsb (overlaps (supernet_one net)) avoid) eqn:Ho.
  { exists net. split_and!; [done..|by left|]. right; right. apply Exists_exists.
    apply existsb_exists in Ho as (a & Hin & Ha). exists a. by rewrite list_elem_of_In. }
  destruct (supernet_one_spec net Hwf) as (Hwf' & Hsub & Hlen & _); [lia|].
  destruct (IH (supernet_one net)) as (r & E & Hr & Hs & Hor & Hst); [done|lia|].
  exists r. split_and!; [done|done|by eapply subnet_of_trans| |done].
  right. destruct Hor as [->|[? ?]]; [|split; [lia|done]]. split; [lia|].
  apply Forall_forall. intros a Ha. apply not_true_is_false. intros Hc.
  assert (existsb (overlaps (supernet_one net)) avoid = true) as Ht; [|congruence].
  apply existsb_exists. exists a. by rewrite <-list_elem_of_In.
Qed.

Definition valid_subnet (s : Subnet) : Prop := 0 ≤ sn_len s ≤ 32 ∧ 0 ≤ sn_addr s < 2 ^ 32.

Lemma valid_wf s : valid_subnet s → wf_net (ip_network s).
Proof. intros [? ?]. by apply wf_ip_network. Qed.

Lemma wf_valid n : wf_net n → valid_subnet n.
Proof. intros (Hl & Ha & _ & Hb). pose proof (num_pos n Hl). split; lia. Qed.

(** C34. Widening a subnet ends and is safe: the loop returns within its fuel a
    network that contains the given one, so every address handed out before
    stays inside; it never grows past the floor nor onto a sibling subnet; and
    it stops only when there is room, at the floor, or because the next size
    would overlap a sibling. *)
Theorem widen_subnet_spec subnet min_usable avoid min_prefix :
  valid_subnet subnet → 0 ≤ min_prefix → 0 < min_usable →
  let net := ip_network subnet in
  let r := widen_subnet subnet min_usable avoid min_prefix in
  widen_loop widen_fuel min_usable min_prefix (ip_network <$> avoid) net = Some r
  ∧ wf_net r ∧ subnet_of net r
  ∧ (r = net ∨ (min_prefix ≤ sn_len r < sn_len net
                ∧ Forall (λ a, overlaps r (ip_network a) = false) avoid))
  ∧ (min_usable ≤ usable_peer_slots r ∨ sn_len r ≤ min_prefix
     ∨ Exists (λ a, overlaps (supernet_one r) (ip_network a) = true) avoid).
Proof.
  intros Hv Hmin Hpos. unfold widen_subnet. destruct (Z.leb_spec min_usable 0); [lia|]. cbn zeta.
  destruct (widen_loop_spec widen_fuel min_usable min_prefix (ip_network <$> avoid) (ip_network subnet))
    as (r & -> & Hr & Hs & Hor & Hst); [by apply valid_wf|done| |].
  { destruct Hv as [? _]. unfold widen_fuel. cbn. lia. }
  cbn. split_and!; [done|done|done| |].
  - destruct Hor as [?|[? Hall]]; [by left|right]. split; [done|]. by apply Forall_fmap in Hall.
  - destruct Hst as [?|[?|Hex]]; [by left|by right; left|right; right]. by apply Exists_fmap in Hex.
Qed.

(** ** The allocator *)
(** The text of an allocated address parses to the same host. *)
Lemma coerce_address_text h : 0 ≤ h < 2 ^ 32 → _coerce (Some (address_text h)) = Some h.
Proof.
  intros Hh. unfold _coerce, truthy_text, address_text.
  rewrite bool_decide_eq_false_2.
  - change (ip_address (before_slash (String.string_of_list_ascii
      (ip_chars h ++ slash :: [digit 3; digit 2]))) = Some h).
    rewrite before_slash_ip. by apply ip_address_str.
  - intros E. apply (f_equal String.list_ascii_of_string) in E.
    rewrite String.list_ascii_of_string_of_list_ascii in E.
    by apply app_eq_nil in E as [_ ?].
Qed.

Lemma first_free_Some used l h :
  first_free used l = Some h →
  h ∈ l ∧ h ∉ used ∧ ∃ l1 l2, l = l1 ++ h :: l2 ∧ Forall (λ x, x ∈ used) l1.
Proof.
  unfold first_free. induction l as [|x l IH]; [done|]. rewrite filter_cons. case_decide as Hx; cbn.
  - intros [= ->]. split_and!; [constructor|done|]. by exists [], l.
  - intros (Hin & Hn & l1 & l2 & -> & Hall)%IH. split_and!; [by constructor|done|].
    exists (x :: l1), l2. split; [done|]. constructor; [|done]. by destruct (decide (x ∈ used)).
Qed.

Lemma first_free_None used l : first_free used l = None ↔ Forall (λ x, x ∈ used) l.
Proof.
  unfold first_free. induction l as [|x l IH]; [done|]. rewrite filter_cons, Forall_cons.
  case_decide as Hx; cbn; [naive_solver|]. rewrite IH. split; [|naive_solver].
  intros ?. split; [|done]. by destruct (decide (x ∈ used)).
Qed.

(** An allocation takes the lowest host of the network that is not used, marks
    it used and changes nothing else; it fails only when every host is used. *)
Lemma allocate_spec al :
  match allocate al with
  | (Some a, al') => ∃ h, a = address_text h ∧ h ∈ hosts (al_network al) ∧ h ∉ al_used al
      ∧ (∃ l1 l2, hosts (al_network al) = l1 ++ h :: l2 ∧ Forall (λ x, x ∈ al_used al) l1)
      ∧ al_network al' = al_network al ∧ al_used al' = {[ h ]} ∪ al_used al
  | (None, al') => al' = al ∧ Forall (λ x, x ∈ al_used al) (hosts (al_network al))
  end.
Proof.
  unfold allocate. destruct (first_free (al_used al) (hosts (al_network al))) as [h|] eqn:E.
  - apply first_free_Some in E as (Hin & Hn & Hsplit). by exists h.
  - split; [done|]. by apply first_free_None.
Qed.

(** Hosts still free. *)
Definition free_hosts (al : Allocator) : list Z := filter (λ h, h ∉ al_used al) (hosts (al_network al)).

Lemma allocate_free al a al' :
  allocate al = (Some a, al') → S (length (free_hosts al')) = length (free_hosts al).
Proof.
  intros E. pose proof (allocate_spec al) as Hs. rewrite E in Hs.
  destruct Hs as (h & _ & Hin & Hn & _ & Hnet & Hused). unfold free_hosts. rewrite Hnet, Hused.
  assert (filter (λ x, x ∉ al_used al) (hosts (al_network al)) ≡ₚ
          h :: filter (λ x, x ∉ {[ h ]} ∪ al_used al) (hosts (al_network al))) as Hp.
  { apply NoDup_Permutation.
    - apply NoDup_filter, hosts_NoDup.
    - apply NoDup_cons. split; [rewrite list_elem_of_filter; set_solver|apply NoDup_filter, hosts_NoDup].
    - intros x. rewrite elem_of_cons, !list_elem_of_filter. destruct (decide (x = h)) as [->|]; set_solver. }
  by rewrite Hp.
Qed.

Lemma allocate_some al : (0 < length (free_hosts al))%nat → ∃ a al', allocate al = (Some a, al').
Proof.
  intros Hf. unfold allocate, first_free. fold (free_hosts al).
  destruct (free_hosts al) as [|h l]; cbn in *; [lia|eauto].
Qed.

(** ** Assigning addresses to peers *)
Definition addr_hosts (key : SettingsKey) (ps : list WgProxy) : list Z :=
  omap (λ p, _coerce (addr_for key p)) ps.

Lemma addr_for_set key a p : addr_for key (set_addr key a p) = Some a.
Proof. by destruct key. Qed.

Lemma missing_not_coerced key fa p : missing_for key fa p = true → _coerce (addr_for key p) = None.
Proof. unfold missing_for, _coerce. intros [_ H]%andb_true_iff. boolp. by rewrite H. Qed.

Section assign.
Context (key : SettingsKey) (fa : bool).
Notation assign := (assign key fa).
Notation addr_hosts := (addr_hosts key).
Notation missing := (missing_for key fa).

(** Existing addresses stay, new ones are free hosts of the network. *)
Definition assigned (al : Allocator) (p p' : WgProxy) : Prop :=
  p' = p ∨ (missing p = true ∧ ∃ h, p' = set_addr key (address_text h) p
                                    ∧ h ∈ hosts (al_network al) ∧ h ∉ al_used al).

Lemma assigned_mono al al' p p' :
  al_network al' = al_network al → al_used al ⊆ al_used al' → assigned al' p p' → assigned al p p'.
Proof.
  intros Hn Hu [?|(Hm & h & -> & Hh & Hnu)]; [by left|right]. split; [done|]. exists h.
  rewrite <-Hn. split_and!; [done|done|set_solver].
Qed.

Lemma assign_shape al ps : Forall2 (assigned al) ps (assign al ps).
Proof.
  revert al. induction ps as [|p ps IH]; intros al; cbn; [constructor|].
  destruct (missing p) eqn:Hm.
  - pose proof (allocate_spec al) as Hs. destruct (allocate al) as [[a|] al'].
    + destruct Hs as (h & -> & Hh & Hn & _ & Hnet & Hused). constructor.
      * right. split; [done|]. by exists h.
      * eapply Forall2_impl; [apply IH|]. intros x y. apply assigned_mono; [done|]. rewrite Hused. set_solver.
    + clear Hs. constructor; [by left|]. apply Forall_Forall2_diag. apply Forall_forall. intros x _. by left.
  - constructor; [by left|apply IH].
Qed.

(** Hosts of the result: old ones, or hosts that were free. *)
Lemma assign_hosts al ps :
  wf_net (al_network al) → Forall (λ h, h ∈ al_used al) (addr_hosts ps) → NoDup (addr_hosts ps) →
  NoDup (addr_hosts (assign al ps))
  ∧ Forall (λ h, h ∈ addr_hosts ps ∨ h ∉ al_used al) (addr_hosts (assign al ps)).
Proof.
  revert al. induction ps as [|p ps IH]; intros al Hwf Hall Hnd; cbn; [split; constructor|].
  destruct (missing p) eqn:Hm.
  - cbn in Hall, Hnd. rewrite (missing_not_coerced _ _ _ Hm) in Hall, Hnd |- *.
    pose proof (allocate_spec al) as Hs. destruct (allocate al) as [[a|] al'].
    + destruct Hs as (h & -> & Hh & Hn & _ & Hnet & Hused). cbn.
      rewrite addr_for_set, (coerce_address_text h) by (by eapply hosts_range).
      destruct (IH al') as [Hnd' Hall']; [by rewrite Hnet| |done|].
      { eapply Forall_impl; [exact Hall|]. cbn. rewrite Hused. set_solver. }
      rewrite Forall_forall in Hall, Hall'. split.
      * apply NoDup_cons. split; [|done]. intros Hin. destruct (Hall' h Hin) as [Ho|Ho].
        -- by apply Hn, Hall.
        -- rewrite Hused in Ho. set_solver.
      * apply Forall_cons. split; [by right|]. apply Forall_forall. intros x Hx.
        destruct (Hall' x Hx) as [?|Hnu]; [by left|right]. rewrite Hused in Hnu. set_solver.
    + clear Hs. cbn. rewrite (missing_not_coerced _ _ _ Hm). split; [done|].
      apply Forall_forall. intros x Hx. by left.
  - cbn in *. destruct (_coerce (addr_for key p)) as [h|] eqn:Ec.
    + apply Forall_cons in Hall as [Hh Hall]. apply NoDup_cons in Hnd as [Hni Hnd].
      destruct (IH al Hwf Hall Hnd) as [Hnd' Hall']. split.
      * apply NoDup_cons. split; [|done]. intros Hin. rewrite Forall_forall in Hall'.
        by destruct (Hall' h Hin).
      * apply Forall_cons. split; [left; constructor|]. eapply Forall_impl; [exact Hall'|]. cbn.
        intros x [?|?]; [left; by constructor|by right].
    + by apply IH.
Qed.

(** With enough free hosts nobody is left without an address. *)
Lemma assign_complete al ps :
  (length (filter (λ p, missing p = true) ps) ≤ length (free_hosts al))%nat →
  Forall (λ p, missing p = false) (assign al ps).
Proof.
  revert al. induction ps as [|p ps IH]; intros al Hlen; cbn; [constructor|].
  rewrite filter_cons in Hlen. destruct (missing p) eqn:Hm.
  - rewrite decide_True in Hlen by done. cbn in Hlen.
    destruct (allocate_some al) as (a & al' & E); [lia|]. rewrite E.
    pose proof (allocate_free _ _ _ E). pose proof (allocate_spec al) as Hs. rewrite E in Hs.
    destruct Hs as (h & -> & _). constructor; [|apply IH; lia].
    unfold missing_for. rewrite addr_for_set.
    assert (truthy_text (Some (address_text h)) = true) as ->; [|by rewrite andb_false_r].
    unfold truthy_text. rewrite bool_decide_eq_false_2; [done|]. intros Ee.
    apply (f_equal String.list_ascii_of_string) in Ee. unfold address_text in Ee.
    rewrite String.list_ascii_of_string_of_list_ascii in Ee. by apply app_eq_nil in Ee as [_ ?].
  - rewrite decide_False in Hlen by congruence. constructor; [done|by apply IH].
Qed.
End assign.

(** Marking [U] used leaves at least so many hosts. *)
Lemma free_hosts_bound (n : Subnet) (U : gset Z) :
  (length (hosts n) ≤ length (filter (λ h, h ∉ U) (hosts n)) + size U)%nat.
Proof.
  assert (length (filter (λ h, h ∈ U) (hosts n)) ≤ size U)%nat as Hle.
  { transitivity (size (list_to_set (filter (λ h, h ∈ U) (hosts n)) : gset Z)).
    - rewrite size_list_to_set; [done|]. apply NoDup_filter, hosts_NoDup.
    - apply subseteq_size. intros h Hh. rewrite elem_of_list_to_set, list_elem_of_filter in Hh.
      by destruct Hh as [Hh _]. }
  assert (length (hosts n) = length (filter (λ h, h ∉ U) (hosts n))
    + length (filter (λ h, h ∈ U) (hosts n)))%nat; [|lia].
  clear. induction (hosts n) as [|h l IH]; [done|]. rewrite !filter_cons. cbn.
  destruct (decide (h ∈ U)) as [Hh|Hh].
  - rewrite decide_False by tauto. cbn. lia.
  - rewrite decide_True by done. cbn. lia.
Qed.

(** ** The gateway *)
Lemma host_text_ip h : host_text (ip_str h) = ip_str h.
Proof. unfold host_text. by rewrite before_slash_ip_str, strip_ip. Qed.

Lemma truthy_ip h : truthy_text (Some (ip_str h)) = true.
Proof. unfold truthy_text. rewrite bool_decide_eq_false_2; [done|apply ip_str_nonempty]. Qed.

Lemma canonical_host s : valid_subnet s → sn_len s ≤ 30 →
  canonical_interface_host s = Some (network_address (ip_network s) + 1).
Proof.
  intros Hv Hl. unfold canonical_interface_host, hosts. cbn [ip_network sn_len].
  rewrite (proj2 (Z.eqb_neq (sn_len s) 32)), (proj2 (Z.eqb_neq (sn_len s) 31)) by lia.
  assert (2 ^ 2 ≤ num_addresses (ip_network s)) as Hn.
  { unfold num_addresses, host_bits. destruct Hv. apply Z.pow_le_mono_r; cbn; lia. }
  rewrite seqZ_cons by lia. done.
Qed.

(** A usable host: inside, neither the network nor the broadcast address. *)
Definition usable_host (h : Z) (n : Subnet) : Prop := network_address n < h < broadcast_address n.

Lemma host_in_subnet_iff h n : wf_net n → _host_in_subnet h n = true ↔ usable_host h n.
Proof.
  intros Hwf. unfold _host_in_subnet, usable_host.
  rewrite !andb_true_iff, !negb_true_iff, !Z.eqb_neq, (in_net_range n h Hwf). lia.
Qed.

Lemma canonical_usable s : valid_subnet s → sn_len s ≤ 30 →
  usable_host (network_address (ip_network s) + 1) (ip_network s).
Proof.
  intros Hv Hl. unfold usable_host, broadcast_address, network_address.
  assert (2 ^ 2 ≤ num_addresses (ip_network s)); [|lia].
  unfold num_addresses, host_bits. destruct Hv. apply Z.pow_le_mono_r; cbn; lia.
Qed.

Lemma usable_range h n : wf_net n → usable_host h n → 0 ≤ h < 2 ^ 32.
Proof. intros (Hl & Ha & Hm & Hb). unfold usable_host, network_address, broadcast_address. lia. Qed.

Lemma usable_subnet h n m : usable_host h n → subnet_of n m → usable_host h m.
Proof. unfold usable_host, subnet_of. lia. Qed.

(** The host the node's interface has: the pinned one, or the first host. *)
Definition gateway (cfg : NodeWireGuard) (key : SettingsKey) (s : Subnet) (g : Z) : Prop :=
  usable_host g (ip_network s)
  ∧ (host_for key cfg = Some (ip_str g)
     ∨ (truthy_text (host_for key cfg) = false ∧ g = network_address (ip_network s) + 1)).

Lemma host_for_set_host key h cfg : host_for key (set_host key h cfg) = h.
Proof. by destruct key. Qed.
Lemma host_for_set_subnet key n cfg : host_for key (set_subnet key n cfg) = host_for key cfg.
Proof. by destruct key. Qed.
Lemma subnet_for_set_host key h cfg : subnet_for key (set_host key h cfg) = subnet_for key cfg.
Proof. by destruct key. Qed.
Lemma subnet_for_set_subnet key n cfg : subnet_for key (set_subnet key n cfg) = Some n.
Proof. by destruct key. Qed.

Lemma pin_gateway cfg key s g :
  subnet_for key cfg = Some s → valid_subnet s → sn_len s ≤ 30 → gateway cfg key s g →
  (ensure_interface_host_pinned cfg key).1 = Some (ip_str g)
  ∧ host_for key (ensure_interface_host_pinned cfg key).2 = Some (ip_str g)
  ∧ subnet_for key (ensure_interface_host_pinned cfg key).2 = Some s
  ∧ pinned_interface_host (ensure_interface_host_pinned cfg key).2 key = Some (ip_str g).
Proof.
  intros Hs Hv Hl [Hu Hg].
  assert (∀ c, host_for key c = Some (ip_str g) → pinned_interface_host c key = Some (ip_str g)) as Hpin.
  { intros c Hc. unfold pinned_interface_host. rewrite Hc, truthy_ip. cbn zeta.
    rewrite default_Some. rewrite host_text_ip.
    rewrite bool_decide_eq_false_2; [done|apply ip_str_nonempty]. }
  unfold ensure_interface_host_pinned. destruct Hg as [Hg|[Hn ->]].
  - rewrite Hg, truthy_ip. cbn [fst snd]. rewrite Hpin by done. done.
  - rewrite Hn, Hs, canonical_host by done. cbn [fst snd].
    rewrite Hpin, host_for_set_host, subnet_for_set_host by apply host_for_set_host. done.
Qed.

Lemma resolve_keeps s h : valid_subnet s → usable_host h (ip_network s) →
  resolve_interface_host s (Some (ip_str h)) = Some (ip_str h).
Proof.
  intros Hv Hu. unfold resolve_interface_host. rewrite truthy_ip.
  rewrite default_Some.
  rewrite host_text_ip, ip_address_str by (eapply usable_range; [by apply valid_wf|done]).
  by rewrite (proj2 (host_in_subnet_iff h _ (valid_wf s Hv)) Hu).
Qed.

(** Widening a node's subnet: what happens to the node's row. *)
Lemma capacity_spec cfg key needed s g :
  subnet_for key cfg = Some s → valid_subnet s → sn_len s ≤ 30 → gateway cfg key s g →
  let '(w, cfg') := ensure_cfg_subnet_capacity cfg key needed in
  ∃ s', w = Some s' ∧ subnet_for key cfg' = Some s' ∧ valid_subnet s' ∧ sn_len s' ≤ 30
    ∧ subnet_of (ip_network s) (ip_network s')
    ∧ host_for key cfg' = Some (ip_str g) ∧ usable_host g (ip_network s').
Proof.
  intros Hs Hv Hl Hg. destruct (pin_gateway cfg key s g Hs Hv Hl Hg) as (Hp1 & Hp2 & Hp3 & _).
  unfold ensure_cfg_subnet_capacity. rewrite Hs.
  destruct (ensure_interface_host_pinned cfg key) as [pin cfg1]. cbn [fst snd] in *. subst pin.
  set (w := widen_subnet s _ _ _).
  destruct (widen_loop_spec widen_fuel (Z.max 1 needed) MIN_PREFIXLEN
    (ip_network <$> sibling_subnets cfg1 key) (ip_network s)) as (r & E & Hr & Hsub & Hor & _);
    [by apply valid_wf|unfold MIN_PREFIXLEN; lia| |].
  { destruct Hv. unfold widen_fuel, MIN_PREFIXLEN. cbn. lia. }
  assert (w = r) as Hw.
  { unfold w, widen_subnet. rewrite (proj2 (Z.leb_gt (Z.max 1 needed) 0)) by lia. by rewrite E. }
  clearbody w. subst w.
  assert (ip_network r = r) as Hid by (by apply ip_network_id).
  assert (sn_len r ≤ 30) as Hlr by (destruct Hor as [->|[? _]]; cbn in *; lia).
  assert (usable_host g (ip_network r)) as Hur.
  { rewrite Hid. eapply usable_subnet; [by destruct Hg|done]. }
  case_bool_decide as Heq.
  - exists r. subst r. split_and!; [done|done|done|done| |done|done]. by rewrite Hid in Hsub |- *.
  - rewrite (resolve_keeps r g (wf_valid r Hr) Hur), bool_decide_eq_true_2 by done.
    exists r. rewrite subnet_for_set_subnet, host_for_set_subnet, Hid.
    split_and!; [done|done|by apply wf_valid|done|done|done|by rewrite <-Hid].
Qed.

(** Widening never moves the gateway: the node's interface host - the pinned
    one, or the first host of the subnet when none was pinned - is the pinned
    host afterwards, a usable host of the widened subnet, which contains the old
    one. *)
Theorem widening_keeps_gateway cfg key needed s g :
  subnet_for key cfg = Some s → valid_subnet s → sn_len s ≤ 30 → gateway cfg key s g →
  let '(w, cfg') := ensure_cfg_subnet_capacity cfg key needed in
  ∃ s', w = Some s' ∧ subnet_for key cfg' = Some s'
    ∧ subnet_of (ip_network s) (ip_network s')
    ∧ host_for key cfg' = Some (ip_str g) ∧ gateway cfg' key s' g.
Proof.
  intros Hs Hv Hl Hg. pose proof (capacity_spec cfg key needed s g Hs Hv Hl Hg) as H.
  destruct (ensure_cfg_subnet_capacity cfg key needed) as [w cfg'].
  destruct H as (s' & Hw & Hs' & _ & _ & Hsub & Hh & Hu). exists s'.
  split_and!; [done|done|done|done|]. split; [done|by left].
Qed.

(** ** Addresses of all peers *)
Lemma coerce_used key ps h : h ∈ coerce_all (used_addresses key ps) ↔ h ∈ addr_hosts key ps.
Proof.
  unfold coerce_all, used_addresses, addr_hosts. rewrite elem_of_list_to_set, !list_elem_of_omap. split.
  - intros (a & Ha & Hc). apply list_elem_of_filter in Ha as [_ Ha].
    apply list_elem_of_fmap in Ha as (p & -> & Hp). eauto.
  - intros (p & Hp & Hc). exists (addr_for key p). split; [|done]. apply list_elem_of_filter. split.
    + unfold _coerce in Hc. by destruct (truthy_text (addr_for key p)).
    + apply list_elem_of_fmap. eauto.
Qed.

Lemma size_add (x : Z) (X : gset Z) : (size ({[ x ]} ∪ X) ≤ S (size X))%nat.
Proof.
  rewrite size_union_alt, size_singleton.
  pose proof (subseteq_size (X ∖ {[ x ]}) X ltac:(set_solver)). lia.
Qed.

Lemma size_coerce_all l : (size (coerce_all l) ≤ length l)%nat.
Proof.
  unfold coerce_all. induction l as [|a l IH]; [done|]. cbn [omap list_omap length].
  destruct (_coerce a) as [h|]; [|lia]. cbn [list_to_set].
  pose proof (size_add h (list_to_set (omap _coerce l))). cbn in *. lia.
Qed.

(** The allocator the assignment runs with: the gateway is reserved. *)
Lemma allocator_spec s used g :
  valid_subnet s → sn_len s ≤ 30 → usable_host g (ip_network s) →
  let al := new_allocator s used true [Some (ip_str g)] in
  al_network al = ip_network s ∧ al_used al = {[ g ]} ∪ coerce_all used
  ∧ usable_peer_slots s - Z.of_nat (length used) ≤ Z.of_nat (length (free_hosts al)).
Proof.
  intros Hv Hl Hu. assert (_coerce (Some (ip_str g)) = Some g) as Hc.
  { unfold _coerce. rewrite truthy_ip. rewrite default_Some.
    rewrite before_slash_ip_str. apply ip_address_str. eapply usable_range; [by apply valid_wf|done]. }
  assert (coerce_all [Some (ip_str g)] = {[ g ]}) as Hg.
  { unfold coerce_all. cbn [omap list_omap]. rewrite Hc. cbn [list_to_set]. apply union_empty_r_L. }
  unfold new_allocator. rewrite Hg. rewrite bool_decide_eq_false_2 by apply non_empty_singleton_L. cbn [andb].
  cbn [al_network al_used]. split_and!; [done|apply union_comm_L|].
  unfold free_hosts. cbn [al_network al_used].
  pose proof (free_hosts_bound (ip_network s) (coerce_all used ∪ {[ g ]})) as Hb.
  assert (size (coerce_all used ∪ {[ g ]}) ≤ length used + 1)%nat as Hsz.
  { rewrite (union_comm_L (coerce_all used)). pose proof (size_add g (coerce_all used)).
    pose proof (size_coerce_all used). lia. }
  pose proof (length_hosts (ip_network s)) as Hlen. cbn [ip_network sn_len] in Hlen.
  destruct Hv as [Hv0 _]. specialize (Hlen ltac:(lia)). unfold usable_peer_slots.
  fold (ip_network s) in Hlen. lia.
Qed.

(** Addresses wanted and had, as the capacity check counts them. *)
Definition needed (key : SettingsKey) (fa : bool) (ps : list WgProxy) : Z :=
  Z.of_nat (length (used_addresses key ps))
  + Z.of_nat (length (filter (λ p, missing_for key fa p = true) ps)).

(** C33. Peer addresses stay unique: on a node whose subnet has at most 30 prefix bits
    and whose pinned interface host, if there is one, is a usable host of it, filling
    in the missing addresses keeps the hosts of all peers pairwise distinct when they
    were, changes no existing address, hands out only usable hosts of the (possibly
    widened) subnet and never the gateway; and when the widened subnet has room, no
    peer is left without.  Without the hypothesis on the host the gateway itself is
    handed out ([stale_pin_hands_out_gateway]). *)
Theorem ensure_addresses_unique cfg key fa ps s g :
  subnet_for key cfg = Some s → valid_subnet s → sn_len s ≤ 30 → gateway cfg key s g →
  NoDup (addr_hosts key ps) →
  let '(cfg', ps') := ensure_addresses_for_subnet cfg key fa ps in
  ∃ s', subnet_for key cfg' = Some s' ∧ subnet_of (ip_network s) (ip_network s')
    ∧ host_for key cfg' = Some (ip_str g)
    ∧ NoDup (addr_hosts key ps')
    ∧ Forall2 (λ p p', p' = p ∨ (missing_for key fa p = true
        ∧ ∃ h, p' = set_addr key (address_text h) p ∧ usable_host h (ip_network s') ∧ h ≠ g)) ps ps'
    ∧ (needed key fa ps ≤ usable_peer_slots s' → Forall (λ p, missing_for key fa p = false) ps').
Proof.
  intros Hs Hv Hl Hg Hnd. unfold ensure_addresses_for_subnet. rewrite Hs.
  destruct (pin_gateway cfg key s g Hs Hv Hl Hg) as (_ & Hh1 & Hs1 & Hpin1).
  set (cfg1 := (ensure_interface_host_pinned cfg key).2) in *. fold (needed key fa ps).
  assert (gateway cfg1 key s g) as Hg1 by (split; [by destruct Hg|by left]).
  assert (∃ s' cfg2, (if usable_peer_slots s <? needed key fa ps
    then let '(expanded, cfg) := ensure_cfg_subnet_capacity cfg1 key (needed key fa ps) in (default s expanded, cfg)
    else (s, cfg1)) = (s', cfg2)
    ∧ subnet_for key cfg2 = Some s' ∧ valid_subnet s' ∧ sn_len s' ≤ 30
    ∧ subnet_of (ip_network s) (ip_network s') ∧ host_for key cfg2 = Some (ip_str g)
    ∧ usable_host g (ip_network s')) as (s' & cfg2 & -> & Hs2 & Hv2 & Hl2 & Hsub & Hh2 & Hu2).
  { destruct (usable_peer_slots s <? needed key fa ps).
    - pose proof (capacity_spec cfg1 key (needed key fa ps) s g Hs1 Hv Hl Hg1) as H.
      destruct (ensure_cfg_subnet_capacity cfg1 key (needed key fa ps)) as [w cfg2].
      destruct H as (s' & -> & H). by exists s', cfg2.
    - exists s, cfg1. split_and!; [done|done|done|done|apply subnet_of_refl|done|by destruct Hg]. }
  assert (pinned_interface_host cfg2 key = Some (ip_str g)) as ->.
  { assert (gateway cfg2 key s' g) as Hg2 by (split; [done|by left]).
    destruct (pin_gateway cfg2 key s' g Hs2 Hv2 Hl2 Hg2) as (Hp & _).
    unfold ensure_interface_host_pinned in Hp. by rewrite Hh2, truthy_ip in Hp. }
  destruct (allocator_spec s' (used_addresses key ps) g Hv2 Hl2 Hu2) as (Hnet & Hused & Hfree).
  set (al := new_allocator s' (used_addresses key ps) true [Some (ip_str g)]) in *.
  destruct (assign_hosts key fa al ps) as [Hnd' _].
  { rewrite Hnet. by apply valid_wf. }
  { apply Forall_forall. intros h Hh. rewrite Hused. apply elem_of_union_r. by apply coerce_used. }
  { done. }
  exists s'. split_and!; [done|done|done|done| |].
  - eapply Forall2_impl; [apply assign_shape|]. intros p p' [?|(Hm & h & -> & Hh & Hn)]; [by left|right].
    split; [done|]. exists h. rewrite Hnet in Hh. split_and!; [done| |].
    + by apply elem_of_hosts in Hh; [|apply valid_wf|].
    + intros ->. apply Hn. rewrite Hused. by apply elem_of_union_l, elem_of_singleton.
  - intros Hneed. apply assign_complete. unfold needed in Hneed. lia.
Qed.

(** ** Collisions *)
Definition members (host : string) (groups : list (string * list Z)) : list Z :=
  default [] (snd <$> head (filter (λ g, g.1 = host) groups)).

Lemma members_insert host uid groups h :
  members h (insert_group host uid groups) =
  if decide (h = host) then members h groups ++ [uid] else members h groups.
Proof.
  unfold members. induction groups as [|[h0 us] groups IH]; cbn [insert_group].
  - rewrite filter_cons. cbn. case_decide as H1; case_decide as H2; congruence || done.
  - case_bool_decide as Hb; rewrite !filter_cons; cbn [fst].
    + subst h0. destruct (decide (host = h)) as [->|Hne]; cbn.
      * by rewrite decide_True.
      * rewrite decide_False by congruence. done.
    + destruct (decide (h0 = h)) as [->|Hne]; cbn.
      * rewrite decide_False by congruence. done.
      * apply IH.
Qed.

Lemma keys_insert host uid groups :
  NoDup groups.*1 → NoDup (insert_group host uid groups).*1
  ∧ ∀ h, h ∈ (insert_group host uid groups).*1 ↔ h = host ∨ h ∈ groups.*1.
Proof.
  induction groups as [|[h0 us] groups IH]; cbn; intros Hnd.
  - split; [apply NoDup_singleton|]. intros h. rewrite list_elem_of_singleton, elem_of_nil. tauto.
  - apply NoDup_cons in Hnd as [Hni Hnd]. case_bool_decide as Hb; cbn.
    + subst h0. split; [by apply NoDup_cons|]. intros h. rewrite elem_of_cons. tauto.
    + destruct (IH Hnd) as [Hnd' Hiff]. split.
      * apply NoDup_cons. split; [|done]. rewrite Hiff. naive_solver.
      * intros h. rewrite !elem_of_cons, Hiff. tauto.
Qed.

(** Peers of a host, in order. *)
Definition uids_at (host : string) (rows : list WgPeer) : list Z :=
  pe_user_id <$> filter (λ r, host_text (pe_address r) = host) rows.

Lemma group_by_host_spec rows :
  Forall (λ r, host_text (pe_address r) ≠ "") rows →
  NoDup (group_by_host rows).*1
  ∧ (∀ h, members h (group_by_host rows) = uids_at h rows)
  ∧ (∀ h, h ∈ (group_by_host rows).*1 ↔ ∃ r, r ∈ rows ∧ host_text (pe_address r) = h).
Proof.
  induction rows as [|r rows IH] using rev_ind; intros Hall.
  - cbn. split_and!; [constructor|done|]. intros h. rewrite elem_of_nil. split; [done|].
    intros (r & Hr & _). by apply elem_of_nil in Hr.
  - apply Forall_app in Hall as [Hall Hr]. apply Forall_cons in Hr as [Hr _].
    destruct (IH Hall) as (Hnd & Hmem & Hkey). unfold group_by_host in *. rewrite foldl_app. cbn [foldl]. cbv zeta.
    rewrite bool_decide_eq_false_2 by exact Hr.
    destruct (keys_insert (host_text (pe_address r)) (pe_user_id r) _ Hnd) as [Hnd' Hkey'].
    split_and!; [done| |].
    + intros h. rewrite members_insert, Hmem. unfold uids_at. rewrite filter_app, fmap_app, filter_cons.
      cbn [filter list_filter]. case_decide as H1; case_decide as H2; try congruence; cbn; [done|].
      by rewrite app_nil_r.
    + intros h. rewrite Hkey', Hkey. split.
      * intros [->|(r' & ? & ?)]; [exists r|exists r']; (split; [|done]); apply elem_of_app;
          [right; apply list_elem_of_singleton|left]; done.
      * intros (r' & [?|Hr'%list_elem_of_singleton]%elem_of_app & <-); [right; eauto|left; by subst].
Qed.

Lemma members_elem h us groups : NoDup groups.*1 → (h, us) ∈ groups → members h groups = us.
Proof.
  induction groups as [|[h0 us0] groups IH]; cbn; intros Hnd Hin; [by apply elem_of_nil in Hin|].
  apply NoDup_cons in Hnd as [Hni Hnd]. unfold members. rewrite filter_cons. cbn [fst].
  apply elem_of_cons in Hin as [[= -> ->]|Hin].
  - by rewrite decide_True.
  - rewrite decide_False; [by apply IH|]. intros ->. apply Hni. apply list_elem_of_fmap. by exists (h, us).
Qed.

(** The updates: the reassigned users in order, to distinct free hosts. *)
Lemma reassign_spec al uids :
  wf_net (al_network al) → (length uids ≤ length (free_hosts al))%nat →
  ∃ hs, (reassign al uids).1 = zip uids (address_text <$> hs) ∧ length hs = length uids
    ∧ NoDup hs ∧ Forall (λ h, h ∉ al_used al ∧ 0 ≤ h < 2 ^ 32) hs
    ∧ al_network (reassign al uids).2 = al_network al
    ∧ (∀ h, h ∈ al_used (reassign al uids).2 ↔ h ∈ al_used al ∨ h ∈ hs)
    ∧ length (free_hosts al) = (length (free_hosts (reassign al uids).2) + length uids)%nat.
Proof.
  revert al. induction uids as [|u uids IH]; intros al Hwf Hlen.
  - exists []. cbn. split_and!; [done|done|constructor|constructor|done| |lia].
    intros h. rewrite elem_of_nil. tauto.
  - cbn in Hlen. destruct (allocate_some al) as (a & al' & E); [lia|].
    pose proof (allocate_free _ _ _ E) as Hf. pose proof (allocate_spec al) as Hs. rewrite E in Hs.
    destruct Hs as (h & -> & Hh & Hn & _ & Hnet & Hused).
    destruct (IH al') as (hs & Hupd & Hl & Hnd & Hall & Hnet' & Huse' & Hfr); [by rewrite Hnet|lia|].
    cbn. rewrite E. destruct (reassign al' uids) as [upd al'']. cbn [fst snd] in *.
    exists (h :: hs). cbn. rewrite Forall_forall in Hall.
    split_and!; [by rewrite Hupd|lia| | |congruence| |lia].
    + apply NoDup_cons. split; [|done]. intros Hin. destruct (Hall h Hin) as [Hu _].
      apply Hu. rewrite Hused. by apply elem_of_union_l, elem_of_singleton.
    + apply Forall_cons. split; [split; [done|by eapply hosts_range]|]. apply Forall_forall. intros x Hx.
      destruct (Hall x Hx) as [Hu ?]. split; [|done]. intros Hc. apply Hu. rewrite Hused. by apply elem_of_union_r.
    + intros x. rewrite Huse', Hused, elem_of_union, elem_of_singleton, elem_of_cons. tauto.
Qed.

Lemma reassign_groups_spec al groups :
  wf_net (al_network al) → (length (concat ((tail ∘ snd) <$> groups)) ≤ length (free_hosts al))%nat →
  ∃ hs, reassign_groups al groups = zip (concat ((tail ∘ snd) <$> groups)) (address_text <$> hs)
    ∧ length hs = length (concat ((tail ∘ snd) <$> groups))
    ∧ NoDup hs ∧ Forall (λ h, h ∉ al_used al ∧ 0 ≤ h < 2 ^ 32) hs.
Proof.
  revert al. induction groups as [|[h us] groups IH]; intros al Hwf Hlen.
  - exists []. split_and!; [done|done|constructor|constructor].
  - cbn in Hlen. rewrite length_app in Hlen.
    destruct (reassign_spec al (tail us) Hwf) as (hs1 & E1 & Hl1 & Hnd1 & Hall1 & Hnet & Huse & Hfr); [lia|].
    cbn. destruct (reassign al (tail us)) as [upd al']. cbn [fst snd] in *.
    destruct (IH al') as (hs2 & E2 & Hl2 & Hnd2 & Hall2); [by rewrite Hnet|lia|].
    exists (hs1 ++ hs2). rewrite Forall_forall in Hall1, Hall2. split_and!.
    + rewrite E1, E2, fmap_app, zip_with_app; [done|]. by rewrite length_fmap.
    + rewrite !length_app. cbn in *. lia.
    + apply NoDup_app. split_and!; [done| |done]. intros x H1 H2.
      destruct (Hall2 x H2) as [Hu _]. apply Hu, Huse. by right.
    + apply Forall_app. split; apply Forall_forall; intros x Hx; [by apply Hall1|].
      destruct (Hall2 x Hx) as [Hu ?]. split; [|done]. intros Hc. apply Hu, Huse. by left.
Qed.

Lemma host_text_address h : host_text (address_text h) = ip_str h.
Proof. unfold host_text, address_text. by rewrite before_slash_ip, strip_ip. Qed.

Lemma ip_str_inj a b : 0 ≤ a < 2 ^ 32 → 0 ≤ b < 2 ^ 32 → ip_str a = ip_str b → a = b.
Proof.
  intros Ha Hb E. apply (f_equal ip_address) in E. rewrite !ip_address_str in E by done. by injection E.
Qed.

Lemma coerce_ip h : 0 ≤ h < 2 ^ 32 → _coerce (Some (ip_str h)) = Some h.
Proof.
  intros Hh. unfold _coerce. rewrite truthy_ip, default_Some, before_slash_ip_str. by apply ip_address_str.
Qed.

Lemma address_text_nonempty h : address_text h ≠ "".
Proof.
  intros E. apply (f_equal String.list_ascii_of_string) in E. unfold address_text in E.
  rewrite String.list_ascii_of_string_of_list_ascii in E. by apply app_eq_nil in E as [_ ?].
Qed.

Section dedupe.
Context (rows : list WgPeer).
Hypothesis Huids : NoDup (pe_user_id <$> rows).
Hypothesis Htext : Forall (λ r, ∃ h, 0 ≤ h < 2 ^ 32 ∧ pe_address r = address_text h) rows.

Notation host r := (host_text (pe_address r)).

Lemma row_host r : r ∈ rows → ∃ h, 0 ≤ h < 2 ^ 32 ∧ host r = ip_str h.
Proof.
  intros Hr. eapply Forall_forall in Htext as (h & Hh & E); [|exact Hr]. exists h.
  by rewrite E, host_text_address.
Qed.

Lemma row_host_nonempty : Forall (λ r, host r ≠ "") rows.
Proof. apply Forall_forall. intros r (h & _ & ->)%row_host. apply ip_str_nonempty. Qed.

Lemma same_uid r1 r2 : r1 ∈ rows → r2 ∈ rows → pe_user_id r1 = pe_user_id r2 → r1 = r2.
Proof.
  intros [i Hi]%list_elem_of_lookup [j Hj]%list_elem_of_lookup E.
  assert (i = j) as ->; [|congruence].
  eapply (NoDup_lookup (pe_user_id <$> rows)); [done| |]; rewrite list_lookup_fmap; [by rewrite Hi|].
  rewrite Hj. cbn. by rewrite E.
Qed.

Definition groups : list (string * list Z) := group_by_host rows.

Lemma groups_spec :
  NoDup groups.*1 ∧ (∀ h us, (h, us) ∈ groups → us = uids_at h rows)
  ∧ (∀ r, r ∈ rows → (host r, uids_at (host r) rows) ∈ groups).
Proof.
  destruct (group_by_host_spec rows row_host_nonempty) as (Hnd & Hmem & Hkey). split_and!; [done| |].
  - intros h us Hin. by rewrite <-Hmem, (members_elem h us).
  - intros r Hr. assert (host r ∈ groups.*1) as Hk by (apply Hkey; eauto).
    apply list_elem_of_fmap in Hk as ([h us] & Heq & Hin). cbn in Heq. subst h.
    pose proof (members_elem _ _ _ Hnd Hin) as E. fold groups in Hmem. rewrite Hmem in E. by rewrite E.
Qed.

Lemma elem_of_uids_at h u : u ∈ uids_at h rows ↔ ∃ r, r ∈ rows ∧ host r = h ∧ pe_user_id r = u.
Proof. unfold uids_at. rewrite list_elem_of_fmap. setoid_rewrite list_elem_of_filter. naive_solver. Qed.

Lemma uids_at_NoDup h : NoDup (uids_at h rows).
Proof.
  unfold uids_at. eapply sublist_NoDup; [exact Huids|]. apply fmap_sublist, sublist_filter.
Qed.

Definition collisions : list (string * list Z) := filter (λ g, colliding g = true) groups.
Definition moved : list Z := concat ((tail ∘ snd) <$> collisions).

Lemma elem_of_moved u : u ∈ moved ↔ ∃ r, r ∈ rows ∧ pe_user_id r = u ∧ u ∈ tail (uids_at (host r) rows).
Proof.
  destruct groups_spec as (Hnd & Hus & Hgr). unfold moved.
  rewrite list_elem_of_In, in_concat. split.
  - intros (l & Hl & Hu). rewrite <-list_elem_of_In in Hl. rewrite <-list_elem_of_In in Hu.
    apply list_elem_of_fmap in Hl as ([h us] & -> & Hin). cbn in Hu.
    apply list_elem_of_filter in Hin as [_ Hin]. rewrite (Hus _ _ Hin) in Hu.
    assert (u ∈ uids_at h rows) as Hu'.
    { destruct (uids_at h rows) as [|v l]; [by apply elem_of_nil in Hu|by constructor]. }
    apply elem_of_uids_at in Hu' as (r & Hr & <- & Hru). eauto.
  - intros (r & Hr & Hru & Hu). exists (tail (uids_at (host r) rows)).
    rewrite <-!list_elem_of_In. split; [|done]. apply list_elem_of_fmap.
    exists (host r, uids_at (host r) rows). split; [done|]. apply list_elem_of_filter. split; [|by apply Hgr].
    unfold colliding. cbn. destruct (uids_at (host r) rows) as [|v [|w l]]; cbn in *;
      [by apply elem_of_nil in Hu..|]. apply Z.ltb_lt. lia.
Qed.

Lemma moved_NoDup : NoDup moved.
Proof.
  destruct groups_spec as (Hnd & Hus & _). unfold moved, collisions.
  assert (∀ l, sublist l groups → NoDup (concat ((tail ∘ snd) <$> l))) as H; [|apply H, sublist_filter].
  intros l Hsub.
  assert (Forall (λ g, g.2 = uids_at g.1 rows) l) as Hall.
  { apply Forall_forall. intros [h us] Hin. apply Hus. eapply elem_of_sublist; [exact Hin|done]. }
  assert (NoDup l.*1) as Hk by (eapply sublist_NoDup; [exact Hnd|by apply fmap_sublist]).
  clear Hsub. induction l as [|[h us] l IH]; cbn; [constructor|].
  apply Forall_cons in Hall as [E Hall]. cbn in E. subst us. apply NoDup_cons in Hk as [Hni Hk].
  apply NoDup_app. split_and!; [|intros u Hu Hc|by apply IH].
  - pose proof (uids_at_NoDup h) as Hn. destruct (uids_at h rows); [constructor|by apply NoDup_cons in Hn as [_ ?]].
  - assert (u ∈ uids_at h rows) as Hu1.
    { destruct (uids_at h rows); [by apply elem_of_nil in Hu|by constructor]. }
    rewrite list_elem_of_In, in_concat in Hc. destruct Hc as (l' & Hl' & Hc).
    rewrite <-list_elem_of_In in Hl'. rewrite <-list_elem_of_In in Hc.
    apply list_elem_of_fmap in Hl' as ([h2 us2] & -> & Hin2). cbn in Hc.
    rewrite Forall_forall in Hall. pose proof (Hall _ Hin2) as E2. cbn in E2. subst us2.
    assert (u ∈ uids_at h2 rows) as Hu2.
    { destruct (uids_at h2 rows); [by apply elem_of_nil in Hc|by constructor]. }
    apply elem_of_uids_at in Hu1 as (r1 & Hr1 & <- & Eu1). apply elem_of_uids_at in Hu2 as (r2 & Hr2 & <- & Eu2).
    assert (r1 = r2) as -> by (apply same_uid; congruence).
    apply Hni, list_elem_of_fmap. by exists (host r2, uids_at (host r2) rows).
Qed.

(** Addresses given to the moved peers: distinct and used by nobody. *)
Context (hs : list Z).
Hypothesis Hlen : length hs = length moved.
Hypothesis Hhs : NoDup hs.
Hypothesis Hfresh : Forall (λ h, 0 ≤ h < 2 ^ 32 ∧ ∀ r, r ∈ rows → host r ≠ ip_str h) hs.

Notation upd := (zip moved (address_text <$> hs)).

Lemma upd_lookup u :
  (u ∉ moved ∧ (list_to_map upd : gmap Z string) !! u = None)
  ∨ ∃ i h, moved !! i = Some u ∧ hs !! i = Some h
       ∧ (list_to_map upd : gmap Z string) !! u = Some (address_text h).
Proof.
  assert (upd.*1 = moved) as Hfst by (apply fst_zip; rewrite length_fmap; lia).
  destruct (decide (u ∈ moved)) as [Hu|Hu]; [right|left].
  - apply list_elem_of_lookup in Hu as [i Hi]. assert (is_Some (hs !! i)) as [h Hh].
    { apply lookup_lt_is_Some_2. rewrite Hlen. by eapply lookup_lt_Some. }
    exists i, h. split_and!; [done|done|]. apply elem_of_list_to_map_1; [rewrite Hfst; apply moved_NoDup|].
    apply list_elem_of_lookup. exists i. rewrite lookup_zip_with, Hi, list_lookup_fmap, Hh. done.
  - split; [done|]. apply not_elem_of_list_to_map_1. by rewrite Hfst.
Qed.

Lemma moved_hosts_distinct r1 r2 :
  r1 ∈ rows → r2 ∈ rows → host (new_address upd r1) = host (new_address upd r2) → r1 = r2.
Proof.
  intros Hr1 Hr2. unfold new_address. rewrite Forall_forall in Hfresh.
  destruct (upd_lookup (pe_user_id r1)) as [[Hn1 ->]|(i1 & h1 & Hm1 & Hh1 & ->)],
    (upd_lookup (pe_user_id r2)) as [[Hn2 ->]|(i2 & h2 & Hm2 & Hh2 & ->)]; cbn [pe_address]; intros E.
  - (* both keep their address: both are the first of its group *)
    assert (∀ r, r ∈ rows → pe_user_id r ∉ moved → head (uids_at (host r) rows) = Some (pe_user_id r)) as Hhead.
    { intros r Hr Hn. assert (pe_user_id r ∈ uids_at (host r) rows) as Hin by (apply elem_of_uids_at; eauto).
      assert (pe_user_id r ∉ tail (uids_at (host r) rows)) as Ht by (intros Ht; apply Hn, elem_of_moved; eauto).
      destruct (uids_at (host r) rows) as [|v l]; [by apply elem_of_nil in Hin|]. cbn in *.
      apply elem_of_cons in Hin as [->|?]; [done|tauto]. }
    pose proof (Hhead r1 Hr1 Hn1) as E1. pose proof (Hhead r2 Hr2 Hn2) as E2.
    rewrite E in E1. apply same_uid; congruence.
  - exfalso. rewrite host_text_address in E. apply list_elem_of_lookup_2 in Hh2.
    by destruct (Hfresh h2 Hh2) as [_ Hf]; apply (Hf r1).
  - exfalso. rewrite host_text_address in E. apply list_elem_of_lookup_2 in Hh1.
    by destruct (Hfresh h1 Hh1) as [_ Hf]; apply (Hf r2).
  - rewrite !host_text_address in E.
    assert (h1 = h2) as ->.
    { apply ip_str_inj; [..|done]; by eapply Hfresh, list_elem_of_lookup_2. }
    assert (i1 = i2) as -> by (by eapply (NoDup_lookup hs)). apply same_uid; congruence.
Qed.
End dedupe.

Lemma NoDup_length_le {A} (l k : list A) : NoDup l → (∀ x, x ∈ l → x ∈ k) → (length l ≤ length k)%nat.
Proof. intros Hnd Hsub. apply submseteq_length, NoDup_submseteq; [done|]. exact Hsub. Qed.

Lemma need_moved (gs : list (string * list Z)) :
  Forall (λ g, colliding g = true) gs →
  sumZ (λ g : string * list Z, Z.of_nat (length g.2) - 1) gs
  = Z.of_nat (length (concat ((tail ∘ snd) <$> gs))).
Proof.
  induction gs as [|[h us] gs IH]; intros Hall; [done|]. apply Forall_cons in Hall as [Hc Hall].
  rewrite sumZ_cons, IH by done. cbn. rewrite length_app. unfold colliding in Hc. cbn in Hc.
  apply Z.ltb_lt in Hc. destruct us; cbn in *; lia.
Qed.

(** The default pool grows to half a million peers at least. *)
Lemma default_pool_room n :
  0 < n ≤ 2 ^ 20 - 3 →
  let s := widen_subnet DEFAULT_PLAIN_SUBNET n [] MIN_PREFIXLEN in
  wf_net s ∧ sn_len s ≤ 30 ∧ n ≤ usable_peer_slots s.
Proof.
  intros Hn. assert (valid_subnet DEFAULT_PLAIN_SUBNET) as Hv by (vm_compute; intuition discriminate).
  destruct (widen_loop_spec widen_fuel n MIN_PREFIXLEN [] (ip_network DEFAULT_PLAIN_SUBNET))
    as (r & E & Hr & _ & Hor & Hst); [by apply valid_wf|unfold MIN_PREFIXLEN; lia|vm_compute; lia|].
  assert (widen_subnet DEFAULT_PLAIN_SUBNET n [] MIN_PREFIXLEN = r) as ->.
  { unfold widen_subnet. rewrite (proj2 (Z.leb_gt n 0)) by lia. cbn [fmap list_fmap]. by rewrite E. }
  assert (sn_len r ≤ 16) as Hlen by (destruct Hor as [->|[? _]]; cbn in *; lia).
  split_and!; [done|lia|]. destruct Hst as [?|[Hle|Hex]]; [done| |by apply Exists_nil in Hex].
  unfold usable_peer_slots. rewrite ip_network_id by done.
  assert (2 ^ 20 ≤ num_addresses r); [|lia]. unfold num_addresses, host_bits.
  unfold MIN_PREFIXLEN in Hle. destruct Hr as [? _]. apply Z.pow_le_mono_r; lia.
Qed.

(** An allocator with no explicit gateway reserves the first host. *)
Lemma default_allocator_spec s used :
  let al := new_allocator s used true [] in
  al_network al = ip_network s ∧ coerce_all used ⊆ al_used al
  ∧ (size (al_used al) ≤ S (length used))%nat.
Proof.
  unfold new_allocator. cbv zeta. assert (coerce_all [] = ∅) as -> by done.
  rewrite bool_decide_eq_true_2 by done. rewrite !(union_empty_r_L (coerce_all used)). cbn [andb].
  pose proof (size_coerce_all used) as Hc.
  destruct (head (hosts (ip_network s))) as [h|]; cbn [al_network al_used]; split_and!; try done.
  - apply union_subseteq_r.
  - pose proof (size_add h (coerce_all used)). lia.
  - lia.
Qed.

Section dedupe_top.
Context (rows : list WgPeer).
Hypothesis Huids : NoDup (pe_user_id <$> rows).
Hypothesis Htext : Forall (λ r, ∃ h, 0 ≤ h < 2 ^ 32 ∧ pe_address r = address_text h) rows.
Notation host r := (host_text (pe_address r)).

Lemma rows_with_address : filter (λ r, pe_address r ≠ "") rows = rows.
Proof.
  clear Huids. induction rows as [|r l IH]; [done|]. apply Forall_cons in Htext as [(h & _ & E) Htext'].
  rewrite filter_cons, decide_True; [by rewrite IH|]. rewrite E. apply address_text_nonempty.
Qed.

Lemma groups_count : (length (groups rows) ≤ length rows)%nat ∧ (length (moved rows) ≤ length rows)%nat.
Proof.
  destruct (group_by_host_spec rows (row_host_nonempty rows Htext)) as (Hnd & _ & Hkey). split.
  - rewrite <-(length_fmap fst), <-(length_fmap (λ r, host r) rows). apply NoDup_length_le; [done|].
    intros h (r & Hr & <-)%Hkey. apply list_elem_of_fmap. eauto.
  - rewrite <-(length_fmap pe_user_id rows). apply NoDup_length_le; [by apply moved_NoDup|].
    intros u (r & Hr & <- & _)%elem_of_moved; [|done..]. apply list_elem_of_fmap. eauto.
Qed.

Lemma moved_not_first r :
  r ∈ rows → pe_user_id r ∈ moved rows → head (uids_at (host r) rows) ≠ Some (pe_user_id r).
Proof.
  intros Hr (r' & Hr' & Eu & Ht)%elem_of_moved E; [|done..].
  assert (r' = r) as -> by (by eapply same_uid).
  pose proof (uids_at_NoDup rows Huids (host r)) as Hn.
  destruct (uids_at _ rows) as [|v l]; [done|]. cbn in *. injection E as ->. by apply NoDup_cons in Hn as [? _].
Qed.

(** The updates written: fresh distinct hosts for the moved peers. *)
Lemma dedupe_updates :
  2 * Z.of_nat (length rows) + 16 ≤ 2 ^ 20 - 3 →
  ∃ hs, (dedupe_finalmask_peer_addresses rows).1 = new_address (zip (moved rows) (address_text <$> hs)) <$> rows
    ∧ length hs = length (moved rows) ∧ NoDup hs
    ∧ Forall (λ h, 0 ≤ h < 2 ^ 32 ∧ ∀ r, r ∈ rows → host r ≠ ip_str h) hs.
Proof.
  intros Hmax. unfold dedupe_finalmask_peer_addresses. rewrite rows_with_address.
  fold (groups rows). fold (collisions rows). case_bool_decide as Hnone.
  { apply fmap_nil_inv in Hnone. exists []. unfold moved. rewrite Hnone. cbn.
    split_and!; [by rewrite list_fmap_id|done|constructor|constructor]. }
  set (n := Z.of_nat (length _) + _ + 16). destruct groups_count as [Hg Hm].
  assert (n = Z.of_nat (length (groups rows)) + Z.of_nat (length (moved rows)) + 16) as Hn.
  { unfold n. rewrite length_fmap, need_moved; [done|]. apply Forall_forall. intros g Hin.
    by apply list_elem_of_filter in Hin as [? _]. }
  destruct (default_pool_room n) as (Hwf & Hl & Hroom); [lia|].
  set (s := widen_subnet DEFAULT_PLAIN_SUBNET n [] MIN_PREFIXLEN) in *.
  set (used := (λ g : string * list Z, Some g.1) <$> groups rows).
  destruct (default_allocator_spec s used) as (Hnet & Hused & Hsz).
  set (al := new_allocator s used true []) in *. rewrite ip_network_id in Hnet by done.
  destruct (reassign_groups_spec al (collisions rows)) as (hs & Hupd & Hlen & Hhs & Hfresh).
  { by rewrite Hnet. }
  { fold (moved rows). unfold free_hosts. rewrite Hn in Hroom. unfold used in Hsz. rewrite length_fmap in Hsz.
    pose proof (free_hosts_bound (al_network al) (al_used al)) as Hb. rewrite Hnet in *.
    pose proof (length_hosts s) as Hh. destruct Hwf as [Hlen0 Hwf0].
    specialize (Hh ltac:(lia)). unfold usable_peer_slots in Hroom.
    rewrite ip_network_id in Hroom by (split; done). lia. }
  exists hs. rewrite Hupd. split_and!; [done|done|done|].
  eapply Forall_impl; [exact Hfresh|]. cbn. intros h [Hnu Hr]. split; [done|]. intros r Hrr E.
  apply Hnu, Hused. unfold coerce_all. apply elem_of_list_to_set, list_elem_of_omap. exists (Some (ip_str h)).
  split; [|by apply coerce_ip]. apply list_elem_of_fmap. exists (host r, uids_at (host r) rows).
  split; [by rewrite <-E|]. by apply groups_spec.
Qed.
End dedupe_top.

(** Colliding addresses are separated: when every peer row holds an address
    the panel handed out, and there are at most half a million of them, then
    afterwards no two peers share a host, the first peer of each address (the
    lowest user id, as rows come in that order) keeps it, peers that did not
    collide are untouched, and no row is lost. *)
Theorem dedupe_separates rows :
  NoDup (pe_user_id <$> rows) →
  Forall (λ r, ∃ h, 0 ≤ h < 2 ^ 32 ∧ pe_address r = address_text h) rows →
  2 * Z.of_nat (length rows) + 16 ≤ 2 ^ 20 - 3 →
  let rows' := (dedupe_finalmask_peer_addresses rows).1 in
  (pe_user_id <$> rows') = (pe_user_id <$> rows)
  ∧ NoDup ((λ r, host_text (pe_address r)) <$> rows')
  ∧ ∀ r, r ∈ rows → head (uids_at (host_text (pe_address r)) rows) = Some (pe_user_id r) → r ∈ rows'.
Proof.
  intros Huids Htext Hmax. destruct (dedupe_updates rows Huids Htext Hmax) as (hs & E & Hlen & Hhs & Hfresh).
  cbn zeta. rewrite E. split_and!.
  - rewrite <-list_fmap_compose. apply list_fmap_ext. intros i r Hi. cbn. unfold new_address. by case_match.
  - rewrite <-list_fmap_compose. apply NoDup_fmap_2_strong; [|by eapply NoDup_fmap_1].
    intros r1 r2 Hr1 Hr2 Eq. by eapply (moved_hosts_distinct rows Huids Htext hs).
  - intros r Hr Hhead. apply list_elem_of_fmap. exists r. split; [|done]. unfold new_address.
    destruct (upd_lookup rows Huids Htext hs Hlen (pe_user_id r)) as [[_ ->]|(i & h & Hi & _ & _)]; [done|].
    exfalso. apply (moved_not_first rows Huids Htext r Hr); [by eapply list_elem_of_lookup_2|done].
Qed.

End AddressPoolFacts.

(** ** The theorems at concrete pools *)
Module AddressPoolExamples.
Import Ipv4 Ipv4Facts AddressPool AddressPoolFacts.

(** 10.10.5.8/29: six hosts, not aligned to the next size. *)
Definition small : Subnet := mkSubnet (of_octets 10 10 5 8) 29.
Definition node : NodeWireGuard := mkNodeWireGuard (Some small) None None None false.
Definition ip (a b c d : Z) : string := ip_str (of_octets a b c d).
Definition peer (u : Z) (a : option string) : WgProxy := mkWgProxy u (Some "wireguard") a None.

Lemma small_valid : valid_subnet small.
Proof. vm_compute. intuition discriminate. Qed.

Lemma small_gateway : gateway node address small (of_octets 10 10 5 9).
Proof. split; [vm_compute; split; reflexivity|right; split; reflexivity]. Qed.

Example widened : widen_subnet small 20 [] MIN_PREFIXLEN = mkSubnet (of_octets 10 10 5 0) 27.
Proof. vm_compute. reflexivity. Qed.

Lemma widen_subnet_spec_witness :
  subnet_of (ip_network small) (widen_subnet small 20 [] MIN_PREFIXLEN)
  ∧ widen_loop widen_fuel 20 MIN_PREFIXLEN [] (ip_network small) = Some (widen_subnet small 20 [] MIN_PREFIXLEN).
Proof.
  destruct (widen_subnet_spec small 20 [] MIN_PREFIXLEN small_valid) as (E & _ & H & _);
    [discriminate|reflexivity|]. split; [exact H|exact E].
Defined.

Lemma widening_keeps_gateway_witness :
  ∃ s', subnet_for address (ensure_cfg_subnet_capacity node address 20).2 = Some s'
    ∧ host_for address (ensure_cfg_subnet_capacity node address 20).2 = Some (ip 10 10 5 9).
Proof.
  pose proof (widening_keeps_gateway node address 20 small (of_octets 10 10 5 9) eq_refl small_valid
    ltac:(discriminate) small_gateway) as H.
  destruct (ensure_cfg_subnet_capacity node address 20) as [w cfg'].
  destruct H as (s' & _ & Hs & _ & Hh & _). exists s'. split; [exact Hs|exact Hh].
Defined.

Definition peers2 : list WgProxy := [peer 1 (Some (address_text (of_octets 10 10 5 10))); peer 2 None].

Lemma ensure_addresses_unique_witness :
  NoDup (addr_hosts address (ensure_addresses_for_subnet node address false peers2).2).
Proof.
  pose proof (ensure_addresses_unique node address false peers2 small (of_octets 10 10 5 9) eq_refl small_valid
    ltac:(discriminate) small_gateway) as H.
  destruct (ensure_addresses_for_subnet node address false peers2) as [cfg' ps'].
  destruct H as (s' & _ & _ & _ & Hnd & _); [|exact Hnd].
  change (addr_hosts address peers2) with [of_octets 10 10 5 10]. apply NoDup_singleton.
Defined.

(** The second peer gets the first free host after gateway and first peer. *)
Example second_peer :
  wp_address <$> (ensure_addresses_for_subnet node address false peers2).2 =
  [Some "10.10.5.10/32"; Some "10.10.5.11/32"].
Proof. vm_compute. reflexivity. Qed.

(** The subnet was changed and the host of the old one is still pinned: the interface
    moves to the first host of the new subnet, and so does the first peer. *)
Definition moved_node : NodeWireGuard :=
  mkNodeWireGuard (Some (mkSubnet (of_octets 10 20 0 0) 24)) None (Some (ip 10 10 0 1)) None false.

Example stale_pin_hands_out_gateway :
  resolve_interface_host (mkSubnet (of_octets 10 20 0 0) 24) (wg_interface_host moved_node) = Some "10.20.0.1"
  ∧ wp_address <$> (ensure_addresses_for_subnet moved_node address false [peer 1 None]).2 = [Some "10.20.0.1/32"].
Proof. split; vm_compute; reflexivity. Qed.

Definition collided : list WgPeer :=
  [mkWgPeer 1 (address_text (of_octets 10 10 0 2)); mkWgPeer 2 (address_text (of_octets 10 10 0 2))].

Lemma dedupe_separates_witness :
  NoDup ((λ r, host_text (pe_address r)) <$> (dedupe_finalmask_peer_addresses collided).1).
Proof.
  destruct (dedupe_separates collided) as (_ & H & _); [| | |exact H].
  - change (pe_user_id <$> collided) with [1; 2]. apply NoDup_cons. split; [|apply NoDup_singleton].
    by intros ?%list_elem_of_singleton.
  - repeat constructor; eexists; (split; [|reflexivity]); vm_compute; (split; [discriminate|reflexivity]).
  - vm_compute. discriminate.
Defined.
End AddressPoolExamples.
