(* ===== verification/Shards.v ===== *)
(** * Shards: Finalmask slots

    [app/wireguard/finalmask_shard.py]: peers of the Xray-native WireGuard
    inbound are spread over small inbounds (slots), each on its own port.  Slot
    assignment is sticky and fills the lowest slot with room. *)
From S2P Require Import Prelude.

Module Shards.

(** JSON scalars a proxy's settings hold. *)
Inductive JVal := JNull | JInt (z : Z) | JStr (s : string).
#[export] Instance JVal_eq_dec : EqDecision JVal.
Proof. solve_decision. Defined.

(** [parse_int] is [int] on text. *)
Definition slot_value (parse_int : string → option Z) (raw : option JVal) : Z :=
  match raw with
  | None | Some JNull => 0
  | Some (JInt z) => Z.max 0 z
  | Some (JStr s) =>
      if bool_decide (s = "") then 0
      else match parse_int s with Some z => Z.max 0 z | None => 0 end
  end.

Definition user_finalmask_slot (parse_int : string → option Z) (settings : gmap string JVal) : Z :=
  slot_value parse_int (settings !! "finalmask_slot").

Definition shard_port (base_port slot : Z) : Z := base_port + slot.

(** A WireGuard proxy: its user and the raw slot of its settings. *)
Record SlotProxy := mkSlotProxy { sp_user_id : Z; sp_slot : option JVal }.

Definition unassigned (p : SlotProxy) : bool :=
  match sp_slot p with None | Some JNull => true | _ => false end.

Section slots.
(** [FINALMASK_MAX_PEERS_PER_INBOUND] and [FINALMASK_SHARD_PORT_RESERVE], read
    from the environment. *)
Context (max_peers reserve : Z) (parse_int : string → option Z).

Definition occupied (occ : gmap Z Z) (slot : Z) : Z := default 0 (occ !! slot).

(** The [while] of [_lowest_open_slot]; [None] when the fuel runs out. *)
Fixpoint lowest_from (fuel : nat) (occ : gmap Z Z) (slot : Z) : option Z :=
  match fuel with
  | O => None
  | S fuel => if max_peers <=? occupied occ slot then lowest_from fuel occ (slot + 1) else Some slot
  end.

Definition _lowest_open_slot (fuel : nat) (occ : gmap Z Z) : option Z := lowest_from fuel occ 0.

Definition occupy (occ : gmap Z Z) (slot : Z) : gmap Z Z := <[slot := occupied occ slot + 1]> occ.

Definition slot_of (p : SlotProxy) : Z := slot_value parse_int (sp_slot p).

(** First pass: the slots taken. *)
Definition occupancy (ps : list SlotProxy) : gmap Z Z :=
  foldl (λ occ p, if unassigned p then occ else occupy occ (slot_of p)) ∅ ps.

(** Second pass: the proxies without a slot, in order. *)
Fixpoint place (occ : gmap Z Z) (ps : list SlotProxy) : option (list SlotProxy) :=
  match ps with
  | [] => Some []
  | p :: ps =>
      if unassigned p then
        slot ← _lowest_open_slot (S (size occ)) occ;
        rest ← place (occupy occ slot) ps;
        Some (mkSlotProxy (sp_user_id p) (Some (JInt slot)) :: rest)
      else rest ← place occ ps; Some (p :: rest)
  end.

Definition ensure_finalmask_slots (ps : list SlotProxy) : option (list SlotProxy) :=
  place (occupancy ps) ps.

(** The dict user to slot the code returns; a later proxy of a user wins. *)
Definition user_slots (ps : list SlotProxy) : gmap Z Z :=
  foldl (λ m p, <[sp_user_id p := slot_of p]> m) ∅ ps.

Definition shard_count (ps : list SlotProxy) : Z :=
  foldr (λ s acc, Z.max (s + 1) acc) 1 (map_to_list (user_slots ps)).*2.

(** Ports opened on the node firewall for the converged proxies [ps]. *)
Definition finalmask_listen_ports (base : Z) (ps : list SlotProxy) : list Z :=
  if base <=? 0 then []
  else shard_port base <$> seqZ 0 (Z.min reserve (Z.max (shard_count ps) 1)).

Definition finalmask_client_port (base : Z) (p : SlotProxy) : Z := shard_port base (slot_of p).

(** Peers by slot; slot 0 is always there. *)
Definition group_peers_by_slot (ps : list SlotProxy) : gmap Z (list Z) :=
  foldl (λ m p, <[slot_of p := default [] (m !! slot_of p) ++ [sp_user_id p]]> m) {[ 0 := [] ]} ps.

End slots.
End Shards.

Module ShardsFacts.
Import Shards.

Section facts.
Context (max_peers reserve : Z) (parse_int : string → option Z).
Notation occupied := Shards.occupied.
Notation slot_of := (slot_of parse_int).

(** ** The lowest open slot *)
Lemma lowest_from_spec fuel occ slot s :
  lowest_from max_peers fuel occ slot = Some s →
  slot ≤ s ∧ occupied occ s < max_peers ∧ ∀ j, slot ≤ j < s → max_peers ≤ occupied occ j.
Proof.
  revert slot. induction fuel as [|fuel IH]; intros slot; cbn; [done|].
  destruct (Z.leb_spec max_peers (occupied occ slot)) as [Hle|Hlt].
  - intros (Hs & Ho & Hall)%IH. split_and!; [lia|done|]. intros j Hj.
    destruct (decide (j = slot)) as [->|]; [done|]. apply Hall. lia.
  - intros [= <-]. split_and!; [lia|done|]. lia.
Qed.

Lemma lowest_from_None fuel occ slot :
  lowest_from max_peers fuel occ slot = None →
  ∀ j, slot ≤ j < slot + Z.of_nat fuel → max_peers ≤ occupied occ j.
Proof.
  revert slot. induction fuel as [|fuel IH]; intros slot; cbn; [lia|].
  destruct (Z.leb_spec max_peers (occupied occ slot)) as [Hle|Hlt]; [|done].
  intros Hn j Hj. destruct (decide (j = slot)) as [->|]; [done|]. apply (IH (slot + 1)); [done|lia].
Qed.

(** The search ends: one slot more than there are keys is always open. *)
Lemma lowest_open_slot_some occ :
  0 < max_peers → ∃ s, _lowest_open_slot max_peers (S (size occ)) occ = Some s.
Proof.
  intros Hpos. destruct (_lowest_open_slot max_peers (S (size occ)) occ) as [s|] eqn:E; [eauto|].
  exfalso. unfold _lowest_open_slot in E. pose proof (lowest_from_None _ _ _ E) as Hall.
  assert (list_to_set (seqZ 0 (Z.of_nat (S (size occ)))) ⊆ dom occ) as Hsub.
  { intros j. rewrite elem_of_list_to_set, elem_of_seqZ, elem_of_dom. intros Hj.
    specialize (Hall j ltac:(lia)). unfold occupied in Hall. destruct (occ !! j); [eauto|]. cbn in Hall. lia. }
  apply subseteq_size in Hsub. rewrite size_dom in Hsub.
  rewrite size_list_to_set, length_seqZ in Hsub by apply NoDup_seqZ. lia.
Qed.

(** The search for a slot ends exactly when the configured size is
    positive: then it returns, after at most one step per used slot, the lowest
    slot with room; with a size of zero or less it runs for ever. *)
Theorem lowest_open_slot_terminates occ :
  (0 < max_peers → ∃ s, _lowest_open_slot max_peers (S (size occ)) occ = Some s
     ∧ 0 ≤ s ∧ occupied occ s < max_peers ∧ ∀ j, 0 ≤ j < s → max_peers ≤ occupied occ j)
  ∧ (max_peers ≤ 0 → (∀ j, 0 ≤ occupied occ j) → ∀ fuel, _lowest_open_slot max_peers fuel occ = None).
Proof.
  split.
  - intros Hpos. destruct (lowest_open_slot_some occ Hpos) as [s Hs]. exists s. split; [done|].
    by apply lowest_from_spec in Hs.
  - intros Hneg Hocc fuel. destruct (_lowest_open_slot max_peers fuel occ) as [s|] eqn:E; [|done].
    apply lowest_from_spec in E as (_ & Hlt & _). specialize (Hocc s). lia.
Qed.

(** ** Sticky and capped *)
Definition taken (ps : list SlotProxy) (s : Z) : Z :=
  sumZ (λ p, if unassigned p then 0 else if slot_of p =? s then 1 else 0) ps.

Lemma occupied_occupy occ s j : occupied (occupy occ s) j = occupied occ j + (if s =? j then 1 else 0).
Proof.
  unfold occupied, occupy. destruct (Z.eqb_spec s j) as [->|Hne].
  - by rewrite lookup_insert_eq.
  - rewrite lookup_insert_ne by done. lia.
Qed.

Lemma occupied_occupancy ps s : occupied (occupancy parse_int ps) s = taken ps s.
Proof.
  unfold occupancy, taken.
  assert (∀ occ, occupied (foldl (λ occ p, if unassigned p then occ else occupy occ (slot_of p)) occ ps) s
    = occupied occ s + sumZ (λ p, if unassigned p then 0 else if slot_of p =? s then 1 else 0) ps) as H.
  { induction ps as [|p ps IH]; intros occ; cbn [foldl]; [rewrite sumZ_nil; lia|].
    rewrite IH, sumZ_cons. destruct (unassigned p); [lia|]. rewrite occupied_occupy. lia. }
  rewrite H. unfold occupied. rewrite lookup_empty. done.
Qed.

(** Placed: as before, or given a slot where there was none. *)
Definition placed (p p' : SlotProxy) : Prop :=
  (unassigned p = false ∧ p' = p)
  ∨ (unassigned p = true ∧ ∃ s, 0 ≤ s ∧ p' = mkSlotProxy (sp_user_id p) (Some (JInt s))).

Lemma place_spec occ ps :
  0 < max_peers →
  ∃ ps', place max_peers occ ps = Some ps' ∧ Forall2 placed ps ps'
    ∧ (∀ s, occupied occ s + (taken ps' s - taken ps s) ≤ Z.max max_peers (occupied occ s)).
Proof.
  intros Hpos. revert occ. induction ps as [|p ps IH]; intros occ; cbn [place].
  - exists []. split_and!; [done|constructor|]. intros s. unfold taken. rewrite sumZ_nil. lia.
  - destruct (unassigned p) eqn:Hu.
    + destruct (lowest_open_slot_some occ Hpos) as [s Hs]. rewrite Hs. cbn.
      destruct (IH (occupy occ s)) as (ps' & -> & Hpl & Hcap). cbn.
      unfold _lowest_open_slot in Hs. apply lowest_from_spec in Hs as (H0 & Hlt & _).
      eexists. split_and!; [done|constructor; [right; eauto|done]|].
      intros j. specialize (Hcap j). rewrite occupied_occupy in Hcap.
      unfold taken in *. rewrite !sumZ_cons, Hu. cbn. rewrite Z.max_r by lia.
      destruct (Z.eqb_spec s j) as [->|]; lia.
    + destruct (IH occ) as (ps' & -> & Hpl & Hcap). cbn. eexists.
      split_and!; [done|constructor; [by left|done]|]. intros j. specialize (Hcap j).
      unfold taken in *. rewrite !sumZ_cons. lia.
Qed.

(** Slots are sticky, total and capped: with a positive size every proxy ends
    up with a slot, a proxy that had one keeps it, and no slot holds more peers
    than the cap unless it already did. *)
Theorem finalmask_slots_sticky ps :
  0 < max_peers →
  ∃ ps', ensure_finalmask_slots max_peers parse_int ps = Some ps'
    ∧ Forall2 placed ps ps' ∧ Forall (λ p, unassigned p = false) ps'
    ∧ ∀ s, taken ps' s ≤ Z.max max_peers (taken ps s).
Proof.
  intros Hpos. destruct (place_spec (occupancy parse_int ps) ps Hpos) as (ps' & E & Hpl & Hcap).
  exists ps'. split_and!; [done|done| |].
  - clear -Hpl. induction Hpl as [|p p' ps ps' Hp Hps IH]; constructor; [|done].
    destruct Hp as [[? ->]|(_ & s & _ & ->)]; done.
  - intros s. specialize (Hcap s). rewrite occupied_occupancy in Hcap. lia.
Qed.

(** ** Ports *)
(** Beyond the reserve the client's port is closed: a peer whose slot is at or
    above the port reserve dials a port the firewall list never contains. *)
Theorem slot_beyond_reserve_is_closed base ps p :
  reserve ≤ slot_of p → 
  finalmask_client_port parse_int base p ∉ finalmask_listen_ports reserve parse_int base ps.
Proof.
  intros Hr. unfold finalmask_listen_ports, finalmask_client_port, shard_port.
  destruct (Z.leb_spec base 0); [by intros ?%elem_of_nil|].
  intros (j & Hj & Hin)%list_elem_of_fmap. rewrite elem_of_seqZ in Hin. lia.
Qed.

Lemma user_slot_counted ps uid s : user_slots parse_int ps !! uid = Some s → s + 1 ≤ shard_count parse_int ps.
Proof.
  intros Hl. unfold shard_count.
  assert (s ∈ (map_to_list (user_slots parse_int ps)).*2) as Hin.
  { apply list_elem_of_fmap. exists (uid, s). split; [done|]. by apply elem_of_map_to_list. }
  revert Hin. generalize (map_to_list (user_slots parse_int ps)).*2. intros l.
  induction l as [|x l IH]; cbn; [by intros ?%elem_of_nil|]. intros [->|Hin]%elem_of_cons; [lia|].
  specialize (IH Hin). lia.
Qed.

(** Below the reserve it is open. *)
Lemma slot_below_reserve_is_open base ps p :
  0 < base → 0 ≤ slot_of p < reserve → user_slots parse_int ps !! sp_user_id p = Some (slot_of p) →
  finalmask_client_port parse_int base p ∈ finalmask_listen_ports reserve parse_int base ps.
Proof.
  intros Hb Hs Hl. unfold finalmask_listen_ports, finalmask_client_port, shard_port.
  rewrite (proj2 (Z.leb_gt base 0)) by lia. apply list_elem_of_fmap. exists (slot_of p). split; [done|].
  rewrite elem_of_seqZ. apply user_slot_counted in Hl. lia.
Qed.
End facts.
End ShardsFacts.

Module ShardsExamples.
Import Shards ShardsFacts.

Definition peers3 : list SlotProxy :=
  [mkSlotProxy 1 (Some (JInt 0)); mkSlotProxy 2 None; mkSlotProxy 3 None].

Example fill_lowest :
  ensure_finalmask_slots 2 (λ _, None) peers3 =
  Some [mkSlotProxy 1 (Some (JInt 0)); mkSlotProxy 2 (Some (JInt 0)); mkSlotProxy 3 (Some (JInt 1))].
Proof. vm_compute. reflexivity. Qed.

Lemma finalmask_slots_sticky_witness :
  ∃ ps', ensure_finalmask_slots 2 (λ _, None) peers3 = Some ps' ∧ Forall2 placed peers3 ps'.
Proof.
  destruct (finalmask_slots_sticky 2 (λ _, None) peers3) as (ps' & E & H & _); [lia|].
  exists ps'. split; [exact E|exact H].
Defined.

Lemma slot_beyond_reserve_is_closed_witness :
  finalmask_client_port (λ _, None) 51900 (mkSlotProxy 9 (Some (JInt 300)))
  ∉ finalmask_listen_ports 256 (λ _, None) 51900 [mkSlotProxy 9 (Some (JInt 300))].
Proof. apply slot_beyond_reserve_is_closed. vm_compute. discriminate. Defined.
End ShardsExamples.
