(* ===== verification/Outbox.v ===== *)
(** * Outbox: the durable queue of live-core changes

    [app/sync/outbox.py]: request handlers insert a row per user change in the
    table [user_sync_outbox]; workers claim due rows, apply them to the
    running cores and record the outcome, with retries and backoff.  Every worker
    process drains at start-up and on wake, so several drains may run at once.

    Times are microseconds since the epoch ([datetime] values).  Applying a row
    to the cores is a parameter of [drain]: a function from the detached row to
    an optional error text.  Row filters see every row the session inserted,
    since [enqueue] ends with a flush or a commit and changes no filtered column
    of an existing row; so the session's view is read with [gets]. *)
From S2P Require Import Prelude Store Shards.

Module Outbox.
Import Shards.

(** ** Rows *)
Inductive OutboxStatus := Pending | Running | Done | Failed | Dead.
#[export] Instance OutboxStatus_eq_dec : EqDecision OutboxStatus.
Proof. solve_decision. Defined.

Record SlimProxy := mkSlimProxy { sp_type : string; sp_settings : gmap string JVal }.
#[export] Instance SlimProxy_eq_dec : EqDecision SlimProxy.
Proof. solve_decision. Defined.

(** The keys of a payload; an absent key is [None], the empty dict is
    [empty_payload]. *)
Record Payload := mkPayload {
  pl_user_id : option Z;
  pl_username : option string;
  pl_email : option string;
  pl_status : option string;
  pl_public_key : option JVal;
  pl_slot : option Z;
  pl_proxies : list SlimProxy }.
#[export] Instance Payload_eq_dec : EqDecision Payload.
Proof. solve_decision. Defined.

Definition empty_payload : Payload := mkPayload None None None None None None [].

Record UserSyncOutbox := mkRow {
  ob_user_id : option Z;
  ob_action : string;
  ob_target : string;
  ob_node_id : option Z;
  ob_shard_or_tag : option string;
  ob_payload : Payload;
  ob_status : OutboxStatus;
  ob_attempts : Z;
  ob_next_retry_at : option Z;
  ob_last_error : option string;
  ob_acked_at : option Z;
  ob_created_at : Z;
  ob_updated_at : Z }.

#[export] Instance eta_Row : Eta UserSyncOutbox := λ r, mkRow (ob_user_id r)
  (ob_action r) (ob_target r) (ob_node_id r) (ob_shard_or_tag r) (ob_payload r)
  (ob_status r) (ob_attempts r) (ob_next_retry_at r) (ob_last_error r)
  (ob_acked_at r) (ob_created_at r) (ob_updated_at r).

(** The tables the queue works on; [outbox_seq] is the last primary key. *)
Record OutboxDB := mkODB {
  q_users : gmap Z User;
  outbox : gmap Z UserSyncOutbox;
  outbox_seq : Z }.

#[export] Instance eta_ODB : Eta OutboxDB := λ q, mkODB (q_users q) (outbox q) (outbox_seq q).

Definition ACTIONS : list string := ["add"; "disable"; "delete"; "quota_cap"; "protocol_change"].
Definition MAX_ATTEMPTS : Z := 20.
Definition BATCH : nat := 12.
Definition STALE_RUNNING_SEC : Z := 45.
Definition SECOND : Z := 1000000.

(** ** [snapshot_user]: enough to replay a change once the user row is gone *)
Record ProxyRow := mkProxyRow { pr_type : string; pr_settings : gmap string JVal }.

Definition slim_keys : list string :=
  ["id"; "password"; "method"; "public_key"; "private_key"; "address"; "uuid"].

Definition slim (settings : gmap string JVal) : gmap string JVal :=
  foldl (λ acc k, match settings !! k with
                  | Some JNull | None => acc
                  | Some v => <[k := v]> acc
                  end) ∅ slim_keys.

(** Python's [a or b] on JSON scalars. *)
Definition jtruthy (v : option JVal) : bool :=
  match v with
  | None | Some JNull => false
  | Some (JInt z) => negb (z =? 0)
  | Some (JStr s) => negb (bool_decide (s = ""))
  end.

Definition status_text (s : UserStatus) : string :=
  match s with
  | active => "active" | disabled => "disabled" | limited => "limited"
  | expired => "expired" | on_hold => "on_hold"
  end.

Definition snapshot_step (parse_int : string → option Z)
    (acc : option JVal * option Z * list SlimProxy) (p : ProxyRow)
    : option JVal * option Z * list SlimProxy :=
  let '(pubkey, slot, proxies) := acc in
  let proxies := proxies ++ [mkSlimProxy (pr_type p) (slim (pr_settings p))] in
  if bool_decide (pr_type p = "WireGuard" ∨ pr_type p = "wireguard") then
    (if jtruthy (pr_settings p !! "public_key") then pr_settings p !! "public_key" else pubkey,
     Some (user_finalmask_slot parse_int (pr_settings p)), proxies)
  else (pubkey, slot, proxies).

(** [print_int] is [str] on integers. *)
Definition snapshot_user (print_int : Z → string) (parse_int : string → option Z)
    (uid : Z) (u : User) (ps : list ProxyRow) : Payload :=
  let '(pubkey, slot, proxies) := foldl (snapshot_step parse_int) (None, None, []) ps in
  mkPayload (Some uid) (Some (u_username u))
    (Some (if negb (uid =? 0) && negb (bool_decide (u_username u = ""))
           then (print_int uid +:+ "." +:+ u_username u) else u_username u))
    (Some (status_text (u_status u))) pubkey slot proxies.

(** ** Queueing *)
Definition update_row (oid : Z) (f : UserSyncOutbox → UserSyncOutbox) (q : OutboxDB) : OutboxDB :=
  q <| outbox := alter f oid (outbox q) |>.

(** [s[:2000]] *)
Definition clip (s : string) : string := String.substring 0 2000 s.

Definition nonempty (s : string) : option string :=
  if bool_decide (s = "") then None else Some s.

Definition sync_row (state : string) (error : option string) (acked : option Z) (u : User) : User :=
  let u := u <| u_sync_state := state |> <| u_sync_error := nonempty (clip (default "" error)) |> in
  match acked with Some now => u <| u_sync_acked_at := Some now |> | None => u end.

(** [_set_user_sync]; [acked] carries the clock reading of [acked=True]. *)
Definition _set_user_sync (user_id : option Z) (state : string) (error : option string)
    (acked : option Z) (q : OutboxDB) : OutboxDB :=
  if truthy user_id
  then q <| q_users := alter (sync_row state error acked) (or0 user_id) (q_users q) |>
  else q.

Definition open_status (s : OutboxStatus) : bool :=
  match s with Pending | Running => true | _ => false end.

(** The filter of the coalescing query. *)
Definition same_request (uid : option Z) (action target : string) (nid : option Z)
    (r : UserSyncOutbox) : bool :=
  bool_decide (ob_user_id r = uid) && bool_decide (ob_action r = action)
  && bool_decide (ob_target r = target) && open_status (ob_status r)
  && bool_decide (ob_node_id r = nid).

(** [q.first()]: the order of rows is the table's; here by primary key. *)
Definition leb_id {A} (p p' : Z * A) : bool := p.1 <=? p'.1.

Definition find_existing (uid : option Z) (action target : string) (nid : option Z)
    (q : OutboxDB) : option Z :=
  fst <$> head (sort_by leb_id
    (filter (λ p, same_request uid action target nid p.2 = true) (map_to_list (outbox q)))).

Definition new_row (uid : option Z) (action target : string) (nid : option Z)
    (shard_or_tag : option string) (payload : option Payload) (now : Z) : UserSyncOutbox :=
  mkRow uid action target nid shard_or_tag (default empty_payload payload)
    Pending 0 (Some now) None None now now.

Definition payload_truthy (p : option Payload) : bool :=
  match p with Some p => negb (bool_decide (p = empty_payload)) | None => false end.

Definition set_payload (now : Z) (payload : option Payload) (r : UserSyncOutbox) : UserSyncOutbox :=
  if payload_truthy payload
  then r <| ob_payload := default empty_payload payload |> <| ob_updated_at := now |>
  else r.

Definition enqueue (user_id : option Z) (action target : string) (node_id : option Z)
    (shard_or_tag : option string) (payload : option Payload) (do_commit : bool)
    (now : Z) : M OutboxDB Z :=
  let action := strip action in
  if negb (bool_decide (action ∈ ACTIONS)) then raise (ValueError "unknown outbox action")
  else
  let target := default "all" (nonempty (strip (default "all" (nonempty target)))) in
  let uid := or_none user_id in
  let* existing := gets (find_existing uid action target node_id) in
  match existing with
  | Some oid =>
      modify (update_row oid (set_payload now payload)) ;;;
      modify (_set_user_sync uid "pending" None None) ;;;
      when do_commit commit ;;;
      ret oid
  | None =>
      let* oid := gets (λ q, outbox_seq q + 1) in
      modify (λ q, q <| outbox := <[oid := new_row uid action target node_id
                                        shard_or_tag payload now]> (outbox q) |>
                     <| outbox_seq := oid |>) ;;;
      modify (_set_user_sync uid "pending" None None) ;;;
      when do_commit commit ;;;
      ret oid
  end.

(** [schedule_user_sync] without the wake-up; [snap] is [snapshot_user dbuser]. *)
Definition schedule_user_sync (uid : Z) (snap : Payload) (action target : string)
    (payload : option Payload) (do_commit : bool) (now : Z) : M OutboxDB Z :=
  let snap := match payload with Some p => p | None => snap end in
  enqueue (Some uid) action target None None (Some snap) do_commit now.

Definition schedule_user_sync_by_id (snapshot : Z → User → Payload) (user_id : option Z)
    (action : string) (payload : option Payload) (now : Z) : M OutboxDB (option Z) :=
  if negb (truthy user_id) && negb (payload_truthy payload) then ret None
  else
  let* dbuser := gets (λ q, if truthy user_id then q_users q !! or0 user_id else None) in
  match dbuser with
  | Some u =>
      let* oid := schedule_user_sync (or0 user_id) (snapshot (or0 user_id) u) action "all"
                    payload true now in
      ret (Some oid)
  | None =>
      let* oid := enqueue user_id action "all" None None payload true now in
      ret (Some oid)
  end.

(** ** Claiming *)
Definition backoff_cap (attempts : Z) : Z := Z.min 300 (2 ^ Z.max 1 attempts).

(** [random.uniform(0, min(8.0, cap * 0.2))] is the argument [jitter]. *)
Definition _backoff (now jitter attempts : Z) : Z :=
  now + (backoff_cap attempts * SECOND + jitter).

Definition jitter_bound (attempts : Z) : Z :=
  Z.min (8 * SECOND) (backoff_cap attempts * (SECOND / 5)).

Definition stale (now : Z) (r : UserSyncOutbox) : bool :=
  bool_decide (ob_status r = Running) && (ob_updated_at r <? now - STALE_RUNNING_SEC * SECOND).

Definition reclaim_row (now : Z) (r : UserSyncOutbox) : UserSyncOutbox :=
  if stale now r
  then r <| ob_status := Pending |> <| ob_updated_at := now |> <| ob_next_retry_at := Some now |>
  else r.

Definition _reclaim_stale (now : Z) (q : OutboxDB) : OutboxDB :=
  q <| outbox := reclaim_row now <$> outbox q |>.

Definition claimable (now : Z) (r : UserSyncOutbox) : bool :=
  bool_decide (ob_status r = Pending ∨ ob_status r = Failed)
  && match ob_next_retry_at r with None => true | Some t => t <=? now end
  && (ob_attempts r <? MAX_ATTEMPTS).

Definition urgency (r : UserSyncOutbox) : Z :=
  if bool_decide (ob_action r = "disable" ∨ ob_action r = "delete") then 0 else 1.

Definition leb_claim (p p' : Z * UserSyncOutbox) : bool :=
  (urgency p.2 <? urgency p'.2) || ((urgency p.2 =? urgency p'.2) && (p.1 <=? p'.1)).

Definition claim_row (now : Z) (r : UserSyncOutbox) : UserSyncOutbox :=
  r <| ob_status := Running |> <| ob_attempts := ob_attempts r + 1 |> <| ob_updated_at := now |>.

Definition due_rows (now : Z) (q : OutboxDB) : list (Z * UserSyncOutbox) :=
  sort_by leb_claim (filter (λ p, claimable now p.2 = true) (map_to_list (outbox q))).

Definition claim_ids (now : Z) (ids : list Z) (q : OutboxDB) : OutboxDB :=
  foldl (λ q oid, update_row oid (claim_row now) q) q ids.

Definition _claim_generic (now : Z) (limit : nat) (q : OutboxDB) : list Z * OutboxDB :=
  let ids := (take limit (due_rows now q)).*1 in
  (ids, claim_ids now ids q).

(** [FOR UPDATE SKIP LOCKED] passes over rows another transaction holds
    ([locked]); [RETURNING] promises no order, so the order is an argument. *)
Definition _claim_postgres (locked : Z → bool) (returning : list Z → list Z) (now : Z)
    (limit : nat) (q : OutboxDB) : list Z * OutboxDB :=
  let rows := filter (λ p, locked p.1 = false) (due_rows now q) in
  let ids := (take limit rows).*1 in
  let hit := λ oid r, if bool_decide (oid ∈ ids) then claim_row now r else r in
  (returning ids, q <| outbox := map_imap (λ oid r, Some (hit oid r)) (outbox q) |>).

(** The choice [drain] makes by the dialect of the database. *)
Inductive Dialect := Generic | Postgresql (locked : Z → bool) (returning : list Z → list Z).

Definition claim_due (dialect : Dialect) : Z → nat → OutboxDB → list Z * OutboxDB :=
  match dialect with
  | Postgresql locked returning => _claim_postgres locked returning
  | Generic => _claim_generic
  end.

(** ** Finishing *)
Definition finish_ok (now : Z) (r : UserSyncOutbox) : UserSyncOutbox :=
  r <| ob_updated_at := now |> <| ob_status := Done |> <| ob_acked_at := Some now |>
    <| ob_last_error := None |>.

Definition error_text (error : option string) : string :=
  clip (default "apply failed" (default None (nonempty <$> error))).

Definition finish_dead (now : Z) (error : option string) (r : UserSyncOutbox) : UserSyncOutbox :=
  r <| ob_updated_at := now |> <| ob_last_error := Some (error_text error) |> <| ob_status := Dead |>.

Definition finish_retry (now later jitter : Z) (error : option string)
    (r : UserSyncOutbox) : UserSyncOutbox :=
  let n := if ob_attempts r =? 0 then 1 else ob_attempts r in
  r <| ob_updated_at := now |> <| ob_last_error := Some (error_text error) |>
    <| ob_status := Failed |> <| ob_next_retry_at := Some (_backoff later jitter n) |>.

(** [_finish]: [now] is the first clock reading, [later] the one of [_backoff].
    The event published afterwards is not modelled. *)
Definition _finish (row_id : Z) (ok : bool) (error : option string) (now later jitter : Z)
    (q : OutboxDB) : OutboxDB :=
  match outbox q !! row_id with
  | None => q
  | Some row =>
      if ok then
        _set_user_sync (ob_user_id row) "live" None (Some now) (update_row row_id (finish_ok now) q)
      else if MAX_ATTEMPTS <=? ob_attempts row then
        _set_user_sync (ob_user_id row) "dead" (Some (error_text error)) None
          (update_row row_id (finish_dead now error) q)
      else
        _set_user_sync (ob_user_id row) "failed" (Some (error_text error)) None
          (update_row row_id (finish_retry now later jitter error) q)
  end.

(** ** Draining *)
Record Claimed := mkClaimed { c_action : string; c_user_id : option Z; c_payload : Payload }.

(** [_apply_row] up to the calls of [apply_action] and [confirm_action]:
    [row.user_id or payload.get("user_id")]. *)
Definition apply_target (r : UserSyncOutbox) : Claimed :=
  mkClaimed (ob_action r)
    (if truthy (ob_user_id r) then ob_user_id r else pl_user_id (ob_payload r)) (ob_payload r).

Section drain.
(** The live cores: [None] when apply and confirm succeed, else the error text. *)
Variable apply : Claimed → option string.
Variable dialect : Dialect.
(** The clock when rows are reclaimed and claimed. *)
Variable now : Z.
(** For each row: the clock readings of [_finish] and [_backoff], the jitter. *)
Variables fin later jitter : Z → Z.

Definition drain_one (q : OutboxDB) (row_id : Z) : bool * OutboxDB :=
  match outbox q !! row_id with
  | None => (false, q)
  | Some row =>
      match apply (apply_target row) with
      | None => (true, _finish row_id true None (fin row_id) (later row_id) (jitter row_id) q)
      | Some e => (false, _finish row_id false (Some e) (fin row_id) (later row_id) (jitter row_id) q)
      end
  end.

(** One turn of the loop, with the count [applied]. *)
Definition drain_turn (acc : Z * OutboxDB) (row_id : Z) : Z * OutboxDB :=
  let '(ok, q') := drain_one acc.2 row_id in
  (if ok then acc.1 + 1 else acc.1, q').

Definition drain_rows (ids : list Z) (q : OutboxDB) : Z * OutboxDB :=
  foldl drain_turn (0, q) ids.

(** [lock_free]: the non-blocking acquire of [_drain_lock] succeeded. *)
Definition drain (lock_free : bool) (limit : nat) (q : OutboxDB) : Z * OutboxDB :=
  if negb lock_free then (0, q)
  else
  let q := _reclaim_stale now q in
  let '(ids, q) := claim_due dialect now limit q in
  drain_rows ids q.
End drain.

End Outbox.

Module OutboxFacts.
Import Outbox.

(** ** Where the operations touch the table *)
Lemma outbox_set_user_sync uid st e a q : outbox (_set_user_sync uid st e a q) = outbox q.
Proof. unfold _set_user_sync. by destruct (truthy uid). Qed.

Lemma lookup_update_row oid f q j :
  outbox (update_row oid f q) !! j = if decide (oid = j) then f <$> outbox q !! j else outbox q !! j.
Proof. unfold update_row; cbn. destruct (decide (oid = j)) as [->|H]; [apply lookup_alter_eq|by apply lookup_alter_ne]. Qed.

Lemma lookup_reclaim now q j :
  outbox (_reclaim_stale now q) !! j = reclaim_row now <$> outbox q !! j.
Proof. apply lookup_fmap. Qed.

Lemma lookup_claim_ids now ids q j :
  NoDup ids →
  outbox (claim_ids now ids q) !! j =
  if decide (j ∈ ids) then claim_row now <$> outbox q !! j else outbox q !! j.
Proof.
  unfold claim_ids. revert q. induction ids as [|i ids IH]; intros q Hnd; cbn.
  - by case_decide as H; [apply elem_of_nil in H|].
  - inversion_clear Hnd as [|? ? Hi Hnd']. rewrite IH, lookup_update_row by done.
    destruct (decide (i = j)) as [->|Hij].
    + rewrite (decide_False _ _ Hi), decide_True by constructor. done.
    + destruct (decide (j ∈ ids)) as [Hj|Hj].
      * by rewrite decide_True by (by constructor).
      * by rewrite decide_False by (intros [->|?]%elem_of_cons; done).
Qed.

(** What [_finish] makes of a row. *)
Definition finish_row (ok : bool) (error : option string) (now later jitter : Z)
    (r : UserSyncOutbox) : UserSyncOutbox :=
  if ok then finish_ok now r
  else if MAX_ATTEMPTS <=? ob_attempts r then finish_dead now error r
  else finish_retry now later jitter error r.

Lemma lookup_finish oid ok e now later jit q j :
  outbox (_finish oid ok e now later jit q) !! j =
  if decide (oid = j) then finish_row ok e now later jit <$> outbox q !! j else outbox q !! j.
Proof.
  unfold _finish, finish_row. destruct (outbox q !! oid) as [r|] eqn:E.
  - destruct ok; [|destruct (MAX_ATTEMPTS <=? ob_attempts r) eqn:Ea];
      rewrite outbox_set_user_sync, lookup_update_row; case_decide; subst; try done;
      rewrite E; cbn; rewrite ?Ea; done.
  - case_decide; subst; [by rewrite E|done].
Qed.

#[export] Instance leb_id_order {A} : TotalOrder (@leb_id A).
Proof.
  unfold leb_id. split; intros; rewrite ?Is_true_true, ?Z.leb_le in *; lia.
Qed.

#[export] Instance leb_claim_order : TotalOrder leb_claim.
Proof.
  unfold leb_claim. split; intros; rewrite ?Is_true_true in *; boolp;
    repeat rewrite ?orb_true_iff, ?andb_true_iff, ?Z.ltb_lt, ?Z.eqb_eq, ?Z.leb_le in *; lia.
Qed.

Lemma elem_of_due now q oid r :
  (oid, r) ∈ due_rows now q ↔ outbox q !! oid = Some r ∧ claimable now r = true.
Proof.
  unfold due_rows. rewrite elem_of_sort_by, list_elem_of_filter, elem_of_map_to_list. naive_solver.
Qed.

Lemma due_ids_NoDup now q : NoDup (due_rows now q).*1.
Proof.
  unfold due_rows. rewrite sort_by_perm.
  eapply sublist_NoDup; [apply (NoDup_fst_map_to_list (outbox q))|apply fmap_sublist, sublist_filter].
Qed.

Lemma claimed_NoDup now limit q : NoDup (_claim_generic now limit q).1.
Proof.
  cbn. eapply sublist_NoDup; [apply due_ids_NoDup|apply fmap_sublist, sublist_take].
Qed.

Lemma elem_of_claimed now limit q oid :
  oid ∈ (_claim_generic now limit q).1 →
  ∃ r, outbox q !! oid = Some r ∧ claimable now r = true.
Proof.
  cbn. intros [[i r] [-> Hin]]%list_elem_of_fmap. exists r.
  apply elem_of_due. apply list_elem_of_lookup in Hin as [k Hk].
  apply lookup_take_Some in Hk as [Hk _]. by eapply list_elem_of_lookup_2.
Qed.

(** The two claims: [RETURNING] loses and repeats no id. *)
Definition dialect_ok (dl : Dialect) : Prop :=
  match dl with Generic => True | Postgresql _ returning => ∀ l, returning l ≡ₚ l end.

Lemma claim_due_ids dl now limit q :
  dialect_ok dl → ∃ l, (claim_due dl now limit q).1 ≡ₚ l.*1 ∧ l `sublist_of` due_rows now q.
Proof.
  destruct dl as [|locked returning]; cbn; intros Hd.
  - exists (take limit (due_rows now q)). split; [done|apply sublist_take].
  - eexists. split; [apply Hd|]. etrans; [apply sublist_take|apply sublist_filter].
Qed.

Lemma claim_due_NoDup dl now limit q : dialect_ok dl → NoDup (claim_due dl now limit q).1.
Proof.
  intros (l & -> & Hs)%(claim_due_ids _ now limit q).
  eapply sublist_NoDup; [apply (due_ids_NoDup now q)|by apply fmap_sublist].
Qed.

Lemma elem_of_claim_due dl now limit q oid :
  dialect_ok dl → oid ∈ (claim_due dl now limit q).1 →
  ∃ r, outbox q !! oid = Some r ∧ claimable now r = true.
Proof.
  intros (l & -> & Hs)%(claim_due_ids _ now limit q) [[i r] [-> Hin]]%list_elem_of_fmap. exists r.
  apply elem_of_due. by eapply elem_of_sublist.
Qed.

Lemma lookup_claim_due dl now limit q j :
  dialect_ok dl →
  outbox (claim_due dl now limit q).2 !! j =
  if decide (j ∈ (claim_due dl now limit q).1) then claim_row now <$> outbox q !! j else outbox q !! j.
Proof.
  intros Hd. destruct dl as [|locked returning]; cbn.
  - apply lookup_claim_ids, (claimed_NoDup now limit q).
  - rewrite map_lookup_imap. destruct (outbox q !! j) as [r|]; cbn; [|by case_decide].
    case_bool_decide as H; case_decide as H'; rewrite Hd in H'; done.
Qed.

(** ** [enqueue] on every branch *)
Definition clean_target (target : string) : string :=
  default "all" (nonempty (strip (default "all" (nonempty target)))).

Definition coalesced (oid now : Z) (uid : option Z) (payload : option Payload) (q : OutboxDB) :=
  _set_user_sync uid "pending" None None (update_row oid (set_payload now payload) q).

Definition inserted (now : Z) (uid : option Z) (action target : string) (nid : option Z)
    (shard : option string) (payload : option Payload) (q : OutboxDB) : OutboxDB :=
  let oid := outbox_seq q + 1 in
  _set_user_sync uid "pending" None None
    (mkODB (q_users q) (<[oid := new_row uid action target nid shard payload now]> (outbox q)) oid).

Lemma enqueue_cases uid action target nid shard payload now q :
  run_session (enqueue uid action target nid shard payload true now) q =
  if bool_decide (strip action ∈ ACTIONS) then
    match find_existing (or_none uid) (strip action) (clean_target target) nid q with
    | Some oid => (Ok oid, coalesced oid now (or_none uid) payload q)
    | None => (Ok (outbox_seq q + 1),
               inserted now (or_none uid) (strip action) (clean_target target) nid shard payload q)
    end
  else (Raise (ValueError "unknown outbox action"), q).
Proof.
  unfold enqueue, run_session. fold (clean_target target).
  destruct (bool_decide (strip action ∈ ACTIONS)); cbn [negb]; [|done].
  rewrite bind_gets. cbn [work].
  by destruct (find_existing _ _ _ _ q).
Qed.

Lemma find_existing_Some uid action target nid q oid :
  find_existing uid action target nid q = Some oid →
  ∃ r, outbox q !! oid = Some r ∧ same_request uid action target nid r = true.
Proof.
  unfold find_existing. intros H.
  pose proof (sort_by_head leb_id (filter (λ p, same_request uid action target nid p.2 = true)
    (map_to_list (outbox q)))) as Hh.
  destruct (head _) as [[i r]|]; [|done]. injection H as <-. destruct Hh as [Hin _].
  apply list_elem_of_filter in Hin as [Hs Hin]. apply elem_of_map_to_list in Hin. by exists r.
Qed.

Lemma find_existing_None uid action target nid q :
  find_existing uid action target nid q = None →
  ∀ oid r, outbox q !! oid = Some r → same_request uid action target nid r = false.
Proof.
  unfold find_existing. intros H oid r Hr.
  pose proof (sort_by_head leb_id (filter (λ p, same_request uid action target nid p.2 = true)
    (map_to_list (outbox q)))) as Hh.
  destruct (head _); [done|]. apply not_true_is_false. intros Hs.
  assert ((oid, r) ∈ filter (λ p, same_request uid action target nid p.2 = true)
    (map_to_list (outbox q))) as Hin by (apply list_elem_of_filter; by rewrite elem_of_map_to_list).
  rewrite Hh in Hin. by apply elem_of_nil in Hin.
Qed.

Lemma set_payload_frame now p r :
  ob_status (set_payload now p r) = ob_status r ∧ ob_attempts (set_payload now p r) = ob_attempts r
  ∧ ob_action (set_payload now p r) = ob_action r.
Proof. unfold set_payload. by destruct (payload_truthy p). Qed.

(** ** The workers and their environment

    Any number of worker processes drain the one table.  The process lock keeps a
    worker to one drain at a time; nothing keeps two workers apart, since only the
    interval job checks for the leader ([jobs/outbox_drain.py]) while the drains on a
    wake ([sync/wake.py]) and at start-up ([worker.py]) run everywhere.  Request
    handlers and user deletions run between any two steps, and a worker may die with
    rows in flight.  [f_inflight] holds, for each worker inside [drain], the time of
    its claim and the rows it has yet to finish; all clocks agree. *)
Record Fleet := mkFleet {
  f_db : OutboxDB; f_clock : Z; f_inflight : gmap Z (Z * list Z) }.

(** [crud.remove_user] as the queue sees it: the user row goes and the foreign
    key [ON DELETE SET NULL] clears [user_id]. *)
Definition orphan_row (uid : Z) (r : UserSyncOutbox) : UserSyncOutbox :=
  if bool_decide (ob_user_id r = Some uid) then r <| ob_user_id := None |> else r.

Definition delete_user (uid : Z) (q : OutboxDB) : OutboxDB :=
  mkODB (delete uid (q_users q)) (orphan_row uid <$> outbox q) (outbox_seq q).

Inductive event := Reclaiming | Acting.

(** The transactions of [drain] are steps of their own.  A claim by one [UPDATE]
    statement is atomic; the generic claim reads first and writes later, and is a
    step only while no other worker is inside a drain. *)
Inductive fleet_step : event → Fleet → Fleet → Prop :=
  | fs_tick q c c' fl :
      c ≤ c' → fleet_step Acting (mkFleet q c fl) (mkFleet q c' fl)
  | fs_enqueue q q' c fl uid action target nid shard payload res :
      run_session (enqueue uid action target nid shard payload true c) q = (res, q') →
      fleet_step Acting (mkFleet q c fl) (mkFleet q' c fl)
  | fs_delete_user q c fl uid :
      fleet_step Acting (mkFleet q c fl) (mkFleet (delete_user uid q) c fl)
  | fs_reclaim q c fl w :
      fl !! w = None →
      fleet_step Reclaiming (mkFleet q c fl) (mkFleet (_reclaim_stale c q) c fl)
  | fs_claim q c fl w dl limit :
      fl !! w = None → dialect_ok dl → (dl = Generic → fl = ∅) →
      fleet_step Acting (mkFleet q c fl)
        (mkFleet (claim_due dl c limit q).2 c (<[w := (c, (claim_due dl c limit q).1)]> fl))
  | fs_finish q c fl w t oid ids ok error later jitter :
      fl !! w = Some (t, oid :: ids) →
      fleet_step Acting (mkFleet q c fl)
        (mkFleet (_finish oid ok error c later jitter q) c (<[w := (t, ids)]> fl))
  (* the end of a drain, or of its process *)
  | fs_leave q c fl w :
      fleet_step Acting (mkFleet q c fl) (mkFleet q c (delete w fl)).

Definition any_step (f f' : Fleet) : Prop := ∃ e, fleet_step e f f'.

(** Rows are taken for stale [STALE_RUNNING_SEC] after their claim.  A run is timely when,
    whenever a worker reclaims, no worker still at it has held its batch for longer. *)
Definition on_time (f : Fleet) : Prop :=
  map_Forall (λ _ b, b.2 = [] ∨ f_clock f ≤ b.1 + STALE_RUNNING_SEC * SECOND) (f_inflight f).
Definition timely_step (f f' : Fleet) : Prop :=
  ∃ e, fleet_step e f f' ∧ (e = Reclaiming → on_time f).

(** ** The abstract life of a row *)
Inductive RowState := Queued (attempts : Z) | InFlight (attempts : Z) | Settled (acked : bool).

Inductive row_step : RowState → RowState → Prop :=
  | rs_claim n : n < MAX_ATTEMPTS → row_step (Queued n) (InFlight (n + 1))
  | rs_back n : row_step (InFlight n) (Queued n)
  | rs_ack n : row_step (InFlight n) (Settled true)
  | rs_die n : MAX_ATTEMPTS ≤ n → row_step (InFlight n) (Settled false).

Definition row_state (r : UserSyncOutbox) : RowState :=
  match ob_status r with
  | Pending | Failed => Queued (ob_attempts r)
  | Running => InFlight (ob_attempts r)
  | Done => Settled true
  | Dead => Settled false
  end.

(** What a worker holds is running since its claim, and held by nobody else. *)
Record fleet_inv (f : Fleet) : Prop := mkFleetInv {
  fi_held w t ids : f_inflight f !! w = Some (t, ids) →
    NoDup ids ∧ t ≤ f_clock f ∧ ∀ oid, oid ∈ ids →
      ∃ r, outbox (f_db f) !! oid = Some r ∧ ob_status r = Running ∧ t ≤ ob_updated_at r;
  fi_apart v w t t' ids ids' oid : f_inflight f !! v = Some (t, ids) → f_inflight f !! w = Some (t', ids') →
    oid ∈ ids → oid ∈ ids' → v = w;
  fi_rows oid r : outbox (f_db f) !! oid = Some r →
    oid ≤ outbox_seq (f_db f) ∧ 0 ≤ ob_attempts r ≤ MAX_ATTEMPTS }.

(** Each row moves only along the abstract machine; new rows start queued. *)
Definition rows_advance (q q' : OutboxDB) : Prop :=
  (∀ oid r, outbox q !! oid = Some r →
     ∃ r', outbox q' !! oid = Some r' ∧ rtc row_step (row_state r) (row_state r'))
  ∧ ∀ oid r', outbox q' !! oid = Some r' → outbox q !! oid = None → row_state r' = Queued 0.

(** A table changed row by row. *)
Lemma pointwise_advance q q' (f : Z → UserSyncOutbox → UserSyncOutbox) :
  (∀ oid, outbox q' !! oid = f oid <$> outbox q !! oid) →
  (∀ oid r, outbox q !! oid = Some r → rtc row_step (row_state r) (row_state (f oid r))) →
  rows_advance q q'.
Proof.
  intros Hf Hs. split.
  - intros oid r Hr. exists (f oid r). rewrite Hf, Hr. eauto.
  - intros oid r' Hr' Hn. by rewrite Hf, Hn in Hr'.
Qed.

Lemma reclaim_row_state now r :
  row_state (reclaim_row now r) = row_state r
  ∨ (ob_status r = Running ∧ row_state (reclaim_row now r) = Queued (ob_attempts r)).
Proof.
  unfold reclaim_row. destruct (stale now r) eqn:E; [right|by left].
  unfold stale in E. boolp. done.
Qed.

Lemma reclaim_row_steps now r : rtc row_step (row_state r) (row_state (reclaim_row now r)).
Proof.
  destruct (reclaim_row_state now r) as [->|[Hr ->]]; [done|].
  apply rtc_once. unfold row_state. rewrite Hr. constructor.
Qed.

Lemma claim_row_step now r :
  claimable now r = true → row_step (row_state r) (row_state (claim_row now r)).
Proof.
  unfold claimable. intros H. boolp. apply Z.ltb_lt in H0.
  unfold row_state at 2. cbn. unfold row_state.
  destruct H as [-> | ->]; by constructor.
Qed.

Lemma finish_row_step ok e now later jit r :
  ob_status r = Running → row_step (row_state r) (row_state (finish_row ok e now later jit r)).
Proof.
  intros Hr. unfold row_state at 1. rewrite Hr. unfold finish_row.
  destruct ok; [constructor|]. destruct (Z.leb_spec MAX_ATTEMPTS (ob_attempts r)); by constructor.
Qed.

Definition reclaim_and_claim (dl : Dialect) (now : Z) (limit : nat) (q : OutboxDB) : list Z * OutboxDB :=
  claim_due dl now limit (_reclaim_stale now q).

Lemma lookup_reclaim_and_claim dl now limit q j :
  dialect_ok dl →
  outbox (reclaim_and_claim dl now limit q).2 !! j =
  (λ r, if decide (j ∈ (reclaim_and_claim dl now limit q).1)
        then claim_row now (reclaim_row now r) else reclaim_row now r) <$> outbox q !! j.
Proof.
  intros Hd. unfold reclaim_and_claim. rewrite lookup_claim_due, lookup_reclaim by done.
  case_decide; by destruct (outbox q !! j).
Qed.

Lemma claimed_row dl now limit q oid :
  dialect_ok dl → oid ∈ (reclaim_and_claim dl now limit q).1 →
  ∃ r, outbox q !! oid = Some r ∧ claimable now (reclaim_row now r) = true.
Proof.
  intros Hd (r & Hr & Hc)%elem_of_claim_due; [|done]. rewrite lookup_reclaim in Hr.
  destruct (outbox q !! oid) as [r0|]; [|done]. injection Hr as <-. eauto.
Qed.

Lemma rows_advance_reclaim now q : rows_advance q (_reclaim_stale now q).
Proof.
  eapply (pointwise_advance _ _ (λ _, reclaim_row now)); [intros; apply lookup_reclaim|].
  intros. apply reclaim_row_steps.
Qed.

Lemma rows_advance_claim dl now limit q :
  dialect_ok dl → rows_advance q (claim_due dl now limit q).2.
Proof.
  intros Hd. eapply (pointwise_advance _ _ (λ j r,
    if decide (j ∈ (claim_due dl now limit q).1) then claim_row now r else r)).
  - intros j. rewrite lookup_claim_due by done. case_decide; by destruct (outbox q !! j).
  - intros oid r Hr. case_decide as Hin; [|done]. apply rtc_once, claim_row_step.
    apply elem_of_claim_due in Hin as (r' & Hr' & Hc); [|done]. congruence.
Qed.

Lemma rows_advance_insert now uid a t n sh p q :
  (∀ oid r, outbox q !! oid = Some r → oid ≤ outbox_seq q) →
  rows_advance q (inserted now uid a t n sh p q).
Proof.
  intros Hle. unfold inserted, rows_advance. rewrite outbox_set_user_sync. cbn. split.
  - intros oid r Hr. exists r. rewrite lookup_insert_ne; [done|].
    intros <-. apply Hle in Hr. lia.
  - intros oid r' Hr' Hn. apply lookup_insert_Some in Hr' as [[<- <-]|[_ Hr']]; [done|congruence].
Qed.

Lemma rows_advance_refl q : rows_advance q q.
Proof. apply (pointwise_advance _ _ (λ _ r, r)); [intros j; by destruct (outbox q !! j)|done]. Qed.

Lemma rows_advance_update oid f q q' :
  (∀ j, outbox q' !! j = outbox (update_row oid f q) !! j) →
  (∀ r, outbox q !! oid = Some r → rtc row_step (row_state r) (row_state (f r))) →
  rows_advance q q'.
Proof.
  intros Hq Hf. apply (pointwise_advance _ _ (λ j r, if decide (oid = j) then f r else r)).
  - intros j. rewrite Hq, lookup_update_row. case_decide; by destruct (outbox q !! j).
  - intros j r Hr. case_decide; subst; [by apply Hf|done].
Qed.

Lemma rows_advance_coalesced oid now uid p q : rows_advance q (coalesced oid now uid p q).
Proof.
  apply (rows_advance_update oid (set_payload now p)).
  - intros j. unfold coalesced. by rewrite outbox_set_user_sync.
  - intros r _. destruct (set_payload_frame now p r) as (Hs & Ha & _).
    unfold row_state. by rewrite Hs, Ha.
Qed.

Lemma rows_advance_finish oid ok e now later jit q r :
  outbox q !! oid = Some r → ob_status r = Running →
  rows_advance q (_finish oid ok e now later jit q).
Proof.
  intros Hr Hs. apply (rows_advance_update oid (finish_row ok e now later jit)).
  - intros j. by rewrite lookup_finish, lookup_update_row.
  - intros r' Hr'. simplify_eq. by apply rtc_once, finish_row_step.
Qed.

Lemma orphan_row_state uid r : row_state (orphan_row uid r) = row_state r.
Proof. unfold orphan_row. by case_bool_decide. Qed.

Lemma rows_advance_delete uid q : rows_advance q (delete_user uid q).
Proof.
  apply (pointwise_advance _ _ (λ _, orphan_row uid)); [intros; apply lookup_fmap|].
  intros. by rewrite orphan_row_state.
Qed.

Lemma step_rows_advance e f f' :
  fleet_inv f → fleet_step e f f' → rows_advance (f_db f) (f_db f').
Proof.
  intros [Hheld _ Hrows] Hs. destruct Hs; cbn in *.
  - apply rows_advance_refl.
  - rewrite enqueue_cases in H. destruct (bool_decide _); [|simplify_eq; apply rows_advance_refl].
    destruct (find_existing _ _ _ _ q); injection H as <- <-.
    + apply rows_advance_coalesced.
    + apply rows_advance_insert. intros oid r Hr. by apply Hrows in Hr as [? _].
  - apply rows_advance_delete.
  - apply rows_advance_reclaim.
  - by apply rows_advance_claim.
  - apply Hheld in H as (_ & _ & Hh). destruct (Hh oid) as (r & Hr & Hst & _); [constructor|].
    by eapply rows_advance_finish.
  - apply rows_advance_refl.
Qed.

(** ** The invariant of the workers *)
Definition row_ok (r : UserSyncOutbox) : Prop := 0 ≤ ob_attempts r ≤ MAX_ATTEMPTS.

Lemma reclaim_row_ok now r : row_ok r → row_ok (reclaim_row now r).
Proof. unfold reclaim_row. by destruct (stale now r). Qed.

Lemma claim_row_ok now r : row_ok r → claimable now r = true → row_ok (claim_row now r).
Proof. unfold claimable, row_ok. cbn. intros H Hc. boolp. apply Z.ltb_lt in H1. lia. Qed.

Lemma finish_row_ok ok e now later jit r : row_ok r → row_ok (finish_row ok e now later jit r).
Proof. unfold finish_row. destruct ok; [done|]. by destruct (MAX_ATTEMPTS <=? ob_attempts r). Qed.

(** A table changed row by row keeps the invariant when the rows that stay in flight
    stay running, and none is younger than its claim. *)
Lemma pointwise_inv q q' c fl fl' (g : Z → UserSyncOutbox → UserSyncOutbox) :
  fleet_inv (mkFleet q c fl) →
  (∀ oid, outbox q' !! oid = g oid <$> outbox q !! oid) → outbox_seq q' = outbox_seq q →
  (∀ oid r, outbox q !! oid = Some r → row_ok r → row_ok (g oid r)) →
  (∀ w t ids, fl' !! w = Some (t, ids) → ∃ ids', fl !! w = Some (t, ids') ∧ ids `sublist_of` ids') →
  (∀ w t ids oid r, fl' !! w = Some (t, ids) → oid ∈ ids → outbox q !! oid = Some r →
     ob_status r = Running → t ≤ ob_updated_at r → t ≤ c →
     ob_status (g oid r) = Running ∧ t ≤ ob_updated_at (g oid r)) →
  fleet_inv (mkFleet q' c fl').
Proof.
  intros [Hh Ha Hr] Hg Hseq Hok Hsub Hrun. split; cbn in *.
  - intros w t ids Hw. destruct (Hsub w t ids Hw) as (ids' & Hw' & Hs).
    destruct (Hh w t ids' Hw') as (Hnd & Ht & Hin). split_and!; [by eapply sublist_NoDup|done|].
    intros oid Ho. destruct (Hin oid) as (r & Hro & H1 & H2); [by eapply elem_of_sublist|].
    exists (g oid r). rewrite Hg, Hro. split; [done|]. by eapply Hrun.
  - intros v w t t' ids ids' oid (i1 & H1 & S1)%Hsub (i2 & H2 & S2)%Hsub O1 O2.
    apply (Ha v w t t' i1 i2 oid H1 H2); [exact (elem_of_sublist _ _ _ O1 S1)|exact (elem_of_sublist _ _ _ O2 S2)].
  - intros oid r' Hr'. rewrite Hg in Hr'. destruct (outbox q !! oid) as [r|] eqn:Hro; [|done].
    injection Hr' as <-. destruct (Hr _ _ Hro). rewrite Hseq. split; [done|]. by eapply Hok.
Qed.

Lemma outbox_seq_set_user_sync uid st e a q : outbox_seq (_set_user_sync uid st e a q) = outbox_seq q.
Proof. unfold _set_user_sync. by destruct (truthy uid). Qed.

Lemma outbox_seq_finish oid ok e now later jit q :
  outbox_seq (_finish oid ok e now later jit q) = outbox_seq q.
Proof.
  unfold _finish. destruct (outbox q !! oid); [|done].
  destruct ok; [|destruct (MAX_ATTEMPTS <=? _)]; by rewrite outbox_seq_set_user_sync.
Qed.

Lemma outbox_seq_claim_ids now ids q : outbox_seq (claim_ids now ids q) = outbox_seq q.
Proof. unfold claim_ids. revert q. induction ids as [|i ids IH]; intros q; cbn; [done|]. by rewrite IH. Qed.

Lemma q_users_claim_ids now ids q : q_users (claim_ids now ids q) = q_users q.
Proof. unfold claim_ids. revert q. induction ids as [|i ids IH]; intros q; cbn; [done|]. by rewrite IH. Qed.

Lemma inv_enqueue q q' c fl uid a t n sh p res :
  fleet_inv (mkFleet q c fl) →
  run_session (enqueue uid a t n sh p true c) q = (res, q') →
  fleet_inv (mkFleet q' c fl).
Proof.
  intros Hinv. rewrite enqueue_cases. destruct (bool_decide _); [|by intros [= _ <-]].
  destruct (find_existing _ _ _ _ q) as [oid|]; intros [= _ <-].
  - eapply (pointwise_inv q _ c fl fl (λ j r, if decide (oid = j) then set_payload c p r else r)); eauto.
    + intros j. unfold coalesced. rewrite outbox_set_user_sync, lookup_update_row.
      case_decide; by destruct (outbox q !! j).
    + unfold coalesced. by rewrite outbox_seq_set_user_sync.
    + intros j r _. case_decide; [|done]. unfold row_ok.
      by destruct (set_payload_frame c p r) as (_ & -> & _).
    + intros w t' ids j r _ _ _ Hs Hu Hc. case_decide; [|done].
      destruct (set_payload_frame c p r) as (-> & _). split; [done|].
      unfold set_payload. by destruct (payload_truthy p).
  - destruct Hinv as [Hh Ha Hr]. unfold inserted. split; cbn in *.
    + rewrite outbox_set_user_sync. cbn. intros w t' ids (Hnd & Ht & Hin)%Hh. split_and!; [done|done|].
      intros j (r & Hj & Hs)%Hin. exists r. rewrite lookup_insert_ne; [done|].
      intros <-. apply Hr in Hj. lia.
    + exact Ha.
    + rewrite outbox_set_user_sync, outbox_seq_set_user_sync. cbn. intros j r Hj.
      apply lookup_insert_Some in Hj as [[<- <-]|[_ Hj]]; [cbn; unfold MAX_ATTEMPTS; lia|].
      apply Hr in Hj. lia.
Qed.

Lemma outbox_seq_claim_due dl now limit q : outbox_seq (claim_due dl now limit q).2 = outbox_seq q.
Proof. destruct dl; cbn; [apply outbox_seq_claim_ids|done]. Qed.

(** Rows whose worker is on time are not stale. *)
Lemma inv_reclaim q c fl :
  fleet_inv (mkFleet q c fl) → on_time (mkFleet q c fl) → fleet_inv (mkFleet (_reclaim_stale c q) c fl).
Proof.
  intros Hinv Htime. eapply (pointwise_inv q _ c fl fl (λ _, reclaim_row c)); eauto.
  - intros; apply lookup_reclaim.
  - intros oid r _. apply reclaim_row_ok.
  - intros w t ids oid r Hw Hin _ Hs Hu _. apply Htime in Hw. cbn in Hw.
    unfold reclaim_row, stale. rewrite Hs, bool_decide_true by done.
    rewrite (proj2 (Z.ltb_ge _ _)); [done|]. destruct Hw as [->|Hw]; [by apply elem_of_nil in Hin|lia].
Qed.

(** A claim takes rows nobody holds. *)
Lemma inv_claim q c fl w dl limit :
  fleet_inv (mkFleet q c fl) → fl !! w = None → dialect_ok dl →
  fleet_inv (mkFleet (claim_due dl c limit q).2 c (<[w := (c, (claim_due dl c limit q).1)]> fl)).
Proof.
  intros Hinv Hw Hd. pose proof Hinv as [Hh Ha Hr]. set (ids := (claim_due dl c limit q).1).
  assert (Hfree : ∀ v t l oid, fl !! v = Some (t, l) → oid ∈ l → oid ∉ ids).
  { intros v t l oid (_ & _ & Hin)%Hh Hl (r & Hro & Hc)%elem_of_claim_due; [|done].
    destruct (Hin oid Hl) as (r' & Hr' & Hs & _). cbn in Hr'. assert (r' = r) as -> by congruence.
    unfold claimable in Hc. rewrite Hs in Hc. boolp. by destruct H. }
  assert (Hold : fleet_inv (mkFleet (claim_due dl c limit q).2 c fl)).
  { eapply (pointwise_inv q _ c fl fl (λ j r, if decide (j ∈ ids) then claim_row c r else r)); eauto.
    - intros j. rewrite lookup_claim_due by done. fold ids. case_decide; by destruct (outbox q !! j).
    - apply outbox_seq_claim_due.
    - intros oid r Hro Hok. case_decide as Hin; [|done]. apply claim_row_ok; [done|].
      apply elem_of_claim_due in Hin as (r' & Hr' & Hc); [|done]. congruence.
    - intros v t l oid r Hv Hl _ Hs Hu _. by rewrite decide_False by (by eapply Hfree). }
  destruct Hold as [Hh' Ha' Hr']. split; cbn in *; [|..|exact Hr'].
  - intros v t l. rewrite lookup_insert_Some. intros [[<- [= <- <-]]|[_ Hv]]; [|by apply Hh' in Hv].
    split_and!; [by apply claim_due_NoDup|done|]. intros oid Hin.
    pose proof Hin as (r & Hro & _)%elem_of_claim_due; [|done]. exists (claim_row c r).
    split; [|done]. rewrite lookup_claim_due, decide_True, Hro by done. done.
  - intros v v' t t' l l' oid. rewrite !lookup_insert_Some.
    intros [[<- [= <- <-]]|[_ Hv]] [[<- [= <- <-]]|[_ Hv']] H1 H2; [done|..].
    + by destruct (Hfree _ _ _ _ Hv' H2).
    + by destruct (Hfree _ _ _ _ Hv H1).
    + by eapply Ha'.
Qed.

Lemma inv_finish q c fl w t oid ids ok e later jit :
  fleet_inv (mkFleet q c fl) → fl !! w = Some (t, oid :: ids) →
  fleet_inv (mkFleet (_finish oid ok e c later jit q) c (<[w := (t, ids)]> fl)).
Proof.
  intros Hinv Hw. pose proof Hinv as [Hh Ha _]. cbn in *.
  eapply (pointwise_inv q _ c fl _ (λ j r, if decide (oid = j) then finish_row ok e c later jit r else r));
    [done|..].
  - intros j. rewrite lookup_finish. case_decide; by destruct (outbox q !! j).
  - apply outbox_seq_finish.
  - intros j r _. case_decide; [apply finish_row_ok|done].
  - intros v t' l. rewrite lookup_insert_Some. intros [[<- [= <- <-]]|[_ Hv]]; [|by exists l].
    exists (oid :: ids). split; [done|]. by constructor.
  - intros v t' l j r Hv Hj _ Hs Hu _. rewrite decide_False; [done|]. intros <-.
    apply lookup_insert_Some in Hv as [[<- [= <- <-]]|[Hne Hv]].
    + destruct (Hh _ _ _ Hw) as (Hnd & _). by apply NoDup_cons in Hnd as [].
    + apply Hne. eapply Ha; [exact Hw|exact Hv|constructor|done].
Qed.

Lemma inv_later q c c' fl : c ≤ c' → fleet_inv (mkFleet q c fl) → fleet_inv (mkFleet q c' fl).
Proof.
  intros Hc [Hh Ha Hr]. split; [|exact Ha|exact Hr]. cbn in *. intros w t ids (Hnd & Ht & Hin)%Hh.
  split_and!; [done|lia|done].
Qed.

Lemma step_fleet_inv f f' : fleet_inv f → timely_step f f' → fleet_inv f'.
Proof.
  intros Hinv (e & Hs & Htime). destruct Hs.
  - by eapply inv_later.
  - by eapply inv_enqueue.
  - eapply (pointwise_inv q _ c fl fl (λ _, orphan_row uid)); eauto.
    + intros; apply lookup_fmap.
    + intros j r _. unfold orphan_row. by case_bool_decide.
    + intros w t ids j r _ _ _ Hst Hu _. unfold orphan_row. by case_bool_decide.
  - by apply inv_reclaim, Htime.
  - by apply inv_claim.
  - by eapply inv_finish.
  - eapply (pointwise_inv q _ c fl _ (λ _ r, r)); eauto.
    + intros j. by destruct (outbox q !! j).
    + intros v t ids [_ Hv]%lookup_delete_Some. eauto.
Qed.

(** ** Refinement *)
Lemma settled_is_final b s : rtc row_step (Settled b) s → s = Settled b.
Proof. intros H. apply rtc_inv in H as [<-|(? & H & _)]; [done|]. inversion H. Qed.

Lemma timely_inv f f' : fleet_inv f → rtc timely_step f f' → fleet_inv f'.
Proof. intros Hinv Hs. induction Hs; eauto using step_fleet_inv. Qed.

Lemma steps_advance f f' oid r :
  fleet_inv f → rtc timely_step f f' → outbox (f_db f) !! oid = Some r →
  ∃ r', outbox (f_db f') !! oid = Some r' ∧ rtc row_step (row_state r) (row_state r').
Proof.
  intros Hinv Hs. revert r Hinv. induction Hs as [f|f f1 f2 H1 Hs IH]; intros r Hinv Hr; [by exists r|].
  pose proof H1 as (e & H1' & _).
  destruct (step_rows_advance _ _ _ Hinv H1') as [Ha _]. destruct (Ha _ _ Hr) as (r1 & Hr1 & Hs1).
  destruct (IH r1) as (r2 & Hr2 & Hs2); [by eapply step_fleet_inv|done|].
  exists r2. split; [done|]. by etrans.
Qed.


(** A worker alone: it reclaims at the start of a drain, when nothing is in flight. *)
Definition lone_step (w : Z) (f f' : Fleet) : Prop :=
  any_step f f' ∧ (∀ v, v ≠ w → f_inflight f' !! v = None)
  ∧ (fleet_step Reclaiming f f' → f_inflight f !! w = None).

Lemma lone_worker_timely w f f' :
  (∀ v, v ≠ w → f_inflight f !! v = None) → rtc (lone_step w) f f' → rtc timely_step f f'.
Proof.
  intros Hf Hs. induction Hs as [f|f f1 f2 (( e & H1) & Ha & Hi) Hs IH]; [done|].
  eapply rtc_l; [|by apply IH]. exists e. split; [done|]. intros ->. intros v b Hv.
  destruct (decide (v = w)) as [->|Hne]; [by rewrite (Hi H1) in Hv|by rewrite (Hf v Hne) in Hv].
Qed.

(** ** [drain] as a run of a worker, and row by row *)
Section drain_facts.
Context (apply : Claimed → option string) (dl : Dialect) (now : Z) (fin later jitter : Z → Z).

Definition outcome (oid : Z) (r : UserSyncOutbox) : UserSyncOutbox :=
  let e := apply (apply_target r) in
  finish_row (is_none e) e (fin oid) (later oid) (jitter oid) r.

Notation drain_one := (drain_one apply fin later jitter).
Notation drain_rows := (drain_rows apply fin later jitter).
Notation drain := (drain apply dl now fin later jitter).

Lemma drain_one_finish q oid :
  ∃ ok e, (drain_one q oid).2 = _finish oid ok e (fin oid) (later oid) (jitter oid) q.
Proof.
  unfold Outbox.drain_one. destruct (outbox q !! oid) as [r|] eqn:Hr.
  - destruct (apply (apply_target r)) as [e|]; eauto.
  - exists true, None. unfold _finish. by rewrite Hr.
Qed.

Lemma lookup_drain_one q oid j :
  outbox (drain_one q oid).2 !! j =
  if decide (oid = j) then outcome j <$> outbox q !! j else outbox q !! j.
Proof.
  unfold Outbox.drain_one, outcome. destruct (outbox q !! oid) as [r|] eqn:Hr.
  - destruct (apply (apply_target r)) as [e|] eqn:Ha; cbn [snd]; rewrite lookup_finish;
      case_decide; subst; try done; rewrite Hr; cbn [fmap option_fmap option_map]; by rewrite Ha.
  - cbn. case_decide; subst; [by rewrite Hr|done].
Qed.

(** The database part of [drain_rows], without the count. *)
Lemma drain_rows_db ids q : (drain_rows ids q).2 = foldl (λ q oid, (drain_one q oid).2) q ids.
Proof.
  unfold Outbox.drain_rows. generalize 0 as n. revert q.
  induction ids as [|i ids IH]; intros q n; cbn [foldl snd fst]; [done|].
  unfold drain_turn at 2. cbn [snd fst]. destruct (drain_one q i) as [ok q'] eqn:E. by rewrite IH.
Qed.

Lemma lookup_drain_rows ids q j :
  NoDup ids →
  outbox (drain_rows ids q).2 !! j =
  if decide (j ∈ ids) then outcome j <$> outbox q !! j else outbox q !! j.
Proof.
  rewrite drain_rows_db. revert q. induction ids as [|i ids IH]; intros q Hnd; cbn [foldl].
  - by case_decide as H; [apply elem_of_nil in H|].
  - inversion_clear Hnd as [|? ? Hi Hnd']. rewrite IH, lookup_drain_one by done.
    destruct (decide (i = j)) as [->|Hij].
    + rewrite (decide_False _ _ Hi), decide_True by constructor. done.
    + destruct (decide (j ∈ ids)) as [Hj|Hj].
      * by rewrite decide_True by (by constructor).
      * by rewrite decide_False by (intros [->|?]%elem_of_cons; done).
Qed.

Hypothesis Hdl : dialect_ok dl.

(** The clock readings of the outcomes follow one another. *)
Fixpoint in_turn (c : Z) (ids : list Z) : Prop :=
  match ids with [] => True | i :: ids => c ≤ fin i ∧ in_turn (fin i) ids end.

Lemma drain_rows_steps w t ids q c fl : in_turn c ids →
  ∃ c', rtc any_step (mkFleet q c (<[w := (t, ids)]> fl))
    (mkFleet (foldl (λ q oid, (drain_one q oid).2) q ids) c' (<[w := (t, [])]> fl)).
Proof.
  revert q c. induction ids as [|i ids IH]; intros q c; cbn; [by exists c|]. intros [Hc Ht].
  destruct (drain_one_finish q i) as (ok & e & ->).
  destruct (IH (_finish i ok e (fin i) (later i) (jitter i) q) (fin i) Ht) as (c' & Hs). exists c'.
  eapply rtc_l; [exists Acting; by apply (fs_tick q c (fin i))|].
  eapply rtc_l; [exists Acting; eapply fs_finish; apply lookup_insert_eq|]. by rewrite insert_insert_eq.
Qed.

(** A drain by a worker of the fleet, whatever the others hold, with the claim that suits
    the fleet. *)
Lemma drain_steps w limit q fl :
  fl !! w = None → (dl = Generic → fl = ∅) →
  in_turn now (reclaim_and_claim dl now limit q).1 →
  ∃ c', rtc any_step (mkFleet q now fl) (mkFleet (drain true limit q).2 c' fl).
Proof.
  intros Hw Hg Hf. unfold Outbox.drain. cbn [negb]. fold (reclaim_and_claim dl now limit q).
  pose proof (drain_rows_steps w now (reclaim_and_claim dl now limit q).1
    (reclaim_and_claim dl now limit q).2 now fl Hf) as (c' & Hs). exists c'.
  eapply rtc_l; [exists Reclaiming; by eapply (fs_reclaim q now fl w)|].
  eapply rtc_l; [exists Acting; by eapply (fs_claim _ now fl w dl limit)|].
  fold (reclaim_and_claim dl now limit q).
  destruct (reclaim_and_claim dl now limit q) as [ids q1]. rewrite drain_rows_db. cbn [fst snd] in *.
  etrans; [exact Hs|]. apply rtc_once. exists Acting.
  rewrite <-(delete_insert_id fl w (now, [])) at 2 by done. apply fs_leave.
Qed.

(** What a drain makes of each row. *)
Lemma lookup_drain limit q j :
  outbox (drain true limit q).2 !! j =
  (λ r, if decide (j ∈ (reclaim_and_claim dl now limit q).1)
        then outcome j (claim_row now (reclaim_row now r)) else reclaim_row now r) <$> outbox q !! j.
Proof.
  unfold Outbox.drain. cbn [negb]. fold (reclaim_and_claim dl now limit q).
  pose proof (lookup_reclaim_and_claim dl now limit q j Hdl) as Hl.
  pose proof (claim_due_NoDup dl now limit (_reclaim_stale now q) Hdl) as Hnd.
  fold (reclaim_and_claim dl now limit q) in Hnd.
  destruct (reclaim_and_claim dl now limit q) as [ids q1]. cbn [fst snd] in *.
  rewrite lookup_drain_rows, Hl by done. case_decide; by destruct (outbox q !! j).
Qed.
End drain_facts.

(** ** Backoff *)
Lemma jitter_bound_le n : jitter_bound n ≤ 8 * SECOND.
Proof. unfold jitter_bound. lia. Qed.

Lemma backoff_bounds now jitter n :
  0 ≤ jitter ≤ 8 * SECOND →
  now + 2 * SECOND ≤ _backoff now jitter n ≤ now + 308 * SECOND.
Proof.
  unfold _backoff, backoff_cap, SECOND. intros H.
  assert (2 ≤ 2 ^ Z.max 1 n).
  { change 2 with (2 ^ 1) at 1. apply Z.pow_le_mono_r; lia. }
  lia.
Qed.

(** ** Every row is settled in the end

    A sequence of drains, each with its own live cores and clock. *)
Record DrainRun := mkDrainRun {
  dr_apply : Claimed → option string;
  dr_dialect : Dialect;
  dr_now : Z;
  dr_fin : Z → Z;
  dr_later : Z → Z;
  dr_jitter : Z → Z }.

Definition run_drain (limit : nat) (q : OutboxDB) (d : DrainRun) : OutboxDB :=
  (drain (dr_apply d) (dr_dialect d) (dr_now d) (dr_fin d) (dr_later d) (dr_jitter d) true limit q).2.

Definition run_drains (limit : nat) (ds : list DrainRun) (q : OutboxDB) : OutboxDB :=
  foldl (run_drain limit) q ds.

(** No other transaction holds a row. *)
Definition unlocked (dl : Dialect) : Prop :=
  match dl with Generic => True | Postgresql locked _ => ∀ oid, locked oid = false end.

(** Drains far enough apart for the longest backoff, the first not before [t],
    each claiming from an unlocked table. *)
Inductive spaced : Z → list DrainRun → Prop :=
  | spaced_nil t : spaced t []
  | spaced_cons t t' d ds :
      dialect_ok (dr_dialect d) → unlocked (dr_dialect d) →
      t ≤ dr_now d →
      (∀ oid, dr_now d ≤ dr_later d oid) →
      (∀ oid, dr_later d oid + 308 * SECOND ≤ t') →
      (∀ oid, 0 ≤ dr_jitter d oid ≤ 8 * SECOND) →
      spaced t' ds →
      spaced t (d :: ds).

(** Nothing in flight, every retry due by [t]. *)
Definition row_idle (t : Z) (r : UserSyncOutbox) : Prop :=
  match row_state r with
  | Queued n => 0 ≤ n ≤ MAX_ATTEMPTS ∧ (∀ t0, ob_next_retry_at r = Some t0 → t0 ≤ t)
  | InFlight _ => False
  | Settled _ => True
  end.

Definition idle (t : Z) (q : OutboxDB) : Prop :=
  ∀ oid r, outbox q !! oid = Some r → row_idle t r.

Definition settled (r : UserSyncOutbox) : bool :=
  match row_state r with Settled _ => true | _ => false end.

(** Open with no attempt left: no claim takes such a row. *)
Definition out_of_attempts (r : UserSyncOutbox) : bool :=
  match row_state r with Queued n | InFlight n => MAX_ATTEMPTS <=? n | Settled _ => false end.

Definition closed (r : UserSyncOutbox) : bool := settled r || out_of_attempts r.

(** Attempts a row still has. *)
Definition weight (r : UserSyncOutbox) : Z :=
  match row_state r with Queued n => MAX_ATTEMPTS - n | _ => 0 end.

Definition weight_at (q : OutboxDB) (oid : Z) : Z := from_option weight 0 (outbox q !! oid).

Lemma idle_not_running t r : row_idle t r → ob_status r ≠ Running.
Proof. unfold row_idle, row_state. by destruct (ob_status r). Qed.

Lemma idle_reclaim t now r : row_idle t r → reclaim_row now r = r.
Proof.
  intros H%idle_not_running. unfold reclaim_row, stale. by rewrite bool_decide_eq_false_2.
Qed.

Lemma idle_claimable t now r :
  row_idle t r → t ≤ now → closed r = false → claimable now r = true.
Proof.
  unfold row_idle, closed, settled, out_of_attempts, claimable, row_state. intros Hi Ht Hs.
  destruct (ob_status r) eqn:E; try done; destruct Hi as [Hn Hd]; rewrite bool_decide_eq_true_2 by auto;
    (destruct (ob_next_retry_at r) as [t0|];
      [specialize (Hd _ eq_refl); rewrite (proj2 (Z.leb_le t0 now)) by lia|]);
    cbn in *; apply Z.leb_gt in Hs; apply Z.ltb_lt; lia.
Qed.

Lemma idle_mono t t' r : row_idle t r → t ≤ t' → row_idle t' r.
Proof.
  unfold row_idle. destruct (row_state r); try done. intros [? Hd] Ht. split; [done|].
  intros t0 H0%Hd. lia.
Qed.

Lemma claim_due_first dl now limit q i r :
  dialect_ok dl → unlocked dl → (0 < limit)%nat →
  head (due_rows now q) = Some (i, r) → i ∈ (claim_due dl now limit q).1.
Proof.
  intros Hd Hu Hl Hh. destruct (due_rows now q) as [|p rest] eqn:E; [done|]. injection Hh as ->.
  destruct limit as [|n]; [lia|]. destruct dl as [|locked returning]; cbn; rewrite ?Hd, E.
  - constructor.
  - rewrite filter_cons_True by apply Hu. constructor.
Qed.

Section one_drain.
Context (t t' : Z) (d : DrainRun) (limit : nat) (q : OutboxDB).
Hypothesis Hdl : dialect_ok (dr_dialect d).
Hypothesis Hfree : unlocked (dr_dialect d).
Hypothesis Hidle : idle t q.
Hypothesis Hnow : t ≤ dr_now d.
Hypothesis Hlater : ∀ oid, dr_now d ≤ dr_later d oid.
Hypothesis Hgap : ∀ oid, dr_later d oid + 308 * SECOND ≤ t'.
Hypothesis Hjit : ∀ oid, 0 ≤ dr_jitter d oid ≤ 8 * SECOND.

Notation claimed := (reclaim_and_claim (dr_dialect d) (dr_now d) limit q).1.
Notation outcome_d := (outcome (dr_apply d) (dr_fin d) (dr_later d) (dr_jitter d)).

Lemma idle_lookup_drain j :
  outbox (run_drain limit q d) !! j =
  (λ r, if decide (j ∈ claimed) then outcome_d j (claim_row (dr_now d) r) else r) <$> outbox q !! j.
Proof.
  unfold run_drain. rewrite lookup_drain by done. destruct (outbox q !! j) as [r|] eqn:Hr; cbn; [|done].
  by rewrite (idle_reclaim _ _ _ (Hidle _ _ Hr)).
Qed.

Lemma claimed_claimable j r : j ∈ claimed → outbox q !! j = Some r → claimable (dr_now d) r = true.
Proof.
  intros (r' & Hr' & Hc)%claimed_row Hr; [|done]. assert (r' = r) as -> by congruence.
  by rewrite (idle_reclaim _ _ _ (Hidle _ _ Hr)) in Hc.
Qed.

Lemma outcome_idle j r :
  row_idle t r → claimable (dr_now d) r = true →
  row_idle t' (outcome_d j (claim_row (dr_now d) r))
  ∧ weight (outcome_d j (claim_row (dr_now d) r)) < weight r
  ∧ out_of_attempts (outcome_d j (claim_row (dr_now d) r)) = false.
Proof.
  intros Hi Hc. unfold claimable in Hc. boolp. apply Z.ltb_lt in H0.
  assert (row_state r = Queued (ob_attempts r)) as Hq.
  { unfold row_state. by destruct H as [-> | ->]. }
  unfold row_idle in Hi. rewrite Hq in Hi. destruct Hi as [Hn _].
  assert (weight r = MAX_ATTEMPTS - ob_attempts r) as -> by (unfold weight; by rewrite Hq).
  unfold outcome, finish_row. destruct (dr_apply d _) as [e|]; cbn [is_none].
  2: { split_and!; [done|unfold weight; cbn; lia|done]. }
  destruct (Z.leb_spec MAX_ATTEMPTS (ob_attempts (claim_row (dr_now d) r))) as [Hm|Hm]; cbn in Hm.
  - split_and!; [done|unfold weight; cbn; lia|done].
  - split_and!; [|unfold weight; cbn; lia|by apply Z.leb_gt].
    unfold row_idle, row_state, finish_retry. cbn. split; [lia|]. intros t0 [= <-].
    rewrite (proj2 (Z.eqb_neq (ob_attempts r + 1) 0)) by lia.
    pose proof (backoff_bounds (dr_later d j) (dr_jitter d j) (ob_attempts r + 1)
      (Hjit j)) as [_ Hb]. specialize (Hgap j). lia.
Qed.

Lemma drain_idle : idle t' (run_drain limit q d).
Proof.
  intros j r'. rewrite idle_lookup_drain. destruct (outbox q !! j) as [r|] eqn:Hr; [|done].
  cbn. intros [= <-]. pose proof (Hidle _ _ Hr) as Hi. case_decide as Hin.
  - apply outcome_idle; [done|]. by eapply claimed_claimable.
  - apply (idle_mono t); [done|]. specialize (Hlater 0). specialize (Hgap 0). unfold SECOND in *. lia.
Qed.

Lemma drain_weight j : weight_at (run_drain limit q d) j ≤ weight_at q j.
Proof.
  unfold weight_at. rewrite idle_lookup_drain. destruct (outbox q !! j) as [r|] eqn:Hr; cbn; [|done].
  case_decide as Hin; [|done]. apply Z.lt_le_incl, outcome_idle; [by eapply Hidle|].
  by eapply claimed_claimable.
Qed.

Lemma drain_closed j r :
  outbox q !! j = Some r → closed r = true → outbox (run_drain limit q d) !! j = Some r.
Proof.
  intros Hr Hs. rewrite idle_lookup_drain, Hr. cbn. rewrite decide_False; [done|].
  intros Hin. pose proof (claimed_claimable _ _ Hin Hr) as Hc. unfold claimable in Hc. boolp.
  apply Z.ltb_lt in H0. unfold closed, settled, out_of_attempts, row_state in Hs.
  destruct H as [H|H]; rewrite H in Hs; cbn in Hs; apply Z.leb_le in Hs; lia.
Qed.

(** A drain leaves no row out of attempts that was not. *)
Lemma drain_spends_none j r r' :
  outbox q !! j = Some r → outbox (run_drain limit q d) !! j = Some r' →
  out_of_attempts r' = true → out_of_attempts r = true.
Proof.
  intros Hr. rewrite idle_lookup_drain, Hr. cbn. intros [= <-]. case_decide as Hin; [|done].
  destruct (outcome_idle j r) as (_ & _ & ->); [by eapply Hidle|by eapply claimed_claimable|done].
Qed.

(** With room in the batch, a drain serves some open row if there is one. *)
Lemma drain_progress j r :
  (0 < limit)%nat → outbox q !! j = Some r → closed r = false →
  ∃ i, i ∈ claimed ∧ weight_at (run_drain limit q d) i < weight_at q i.
Proof.
  intros Hlim Hr Hs.
  assert (outbox (_reclaim_stale (dr_now d) q) !! j = Some r) as Hr'.
  { rewrite lookup_reclaim, Hr. cbn. by rewrite (idle_reclaim _ _ _ (Hidle _ _ Hr)). }
  assert ((j, r) ∈ due_rows (dr_now d) (_reclaim_stale (dr_now d) q)) as Hin.
  { apply elem_of_due. split; [done|]. by eapply idle_claimable; [eapply Hidle| |]. }
  destruct (due_rows (dr_now d) (_reclaim_stale (dr_now d) q)) as [|[i ri] rest] eqn:Hd.
  { by apply elem_of_nil in Hin. }
  assert (i ∈ claimed) as Hi.
  { eapply claim_due_first; [done|done|done|]. by rewrite Hd. }
  exists i. split; [done|]. destruct (claimed_row _ _ _ _ _ Hdl Hi) as (r0 & Hr0 & Hc0).
  unfold weight_at. rewrite idle_lookup_drain, Hr0. cbn. rewrite decide_True by done.
  apply outcome_idle; [by eapply Hidle|]. by eapply claimed_claimable.
Qed.
End one_drain.

Lemma weight_zero_closed t q j r :
  idle t q → outbox q !! j = Some r → weight_at q j ≤ 0 → closed r = true.
Proof.
  intros Hi Hr Hw. unfold weight_at in Hw. rewrite Hr in Hw. cbn in Hw.
  pose proof (Hi _ _ Hr) as H. unfold row_idle in H. unfold weight in Hw. unfold closed, settled, out_of_attempts.
  destruct (row_state r); [|done|done]. cbn. apply Z.leb_le. lia.
Qed.

Lemma weight_at_nonneg t q j : idle t q → 0 ≤ weight_at q j.
Proof.
  intros Hi. unfold weight_at. destruct (outbox q !! j) as [r|] eqn:Hr; cbn; [|lia].
  pose proof (Hi _ _ Hr) as H. unfold row_idle in H. unfold weight. destruct (row_state r); lia.
Qed.

(** [L] lists the ids of the rows still to be settled. *)
Lemma drains_settle_rows limit ds t q (L : list Z) :
  (0 < limit)%nat → spaced t ds → idle t q →
  (∀ j r, outbox q !! j = Some r → closed r = true ∨ j ∈ L) →
  sumZ (weight_at q) L ≤ Z.of_nat (length ds) →
  ∀ j r, outbox (run_drains limit ds q) !! j = Some r → closed r = true.
Proof.
  intros Hlim Hsp. revert q. induction Hsp as [t|t t' d ds Hdl Hfree Hnow Hlater Hgap Hjit Hsp IH];
    intros q Hidle HL Hsum j r Hr.
  - destruct (HL _ _ Hr) as [|Hj]; [done|]. eapply weight_zero_closed; [done..|].
    cbn in Hsum. etrans; [|exact Hsum]. apply (sumZ_elem (weight_at q)); [|done].
    intros. by eapply weight_at_nonneg.
  - pose proof (drain_idle t t' d limit q Hdl Hidle Hnow Hlater Hgap Hjit) as Hidle'.
    cbn in Hr. revert Hr. apply IH; [done| |].
    + intros i ri Hri. pose proof (idle_lookup_drain t d limit q Hdl Hidle i) as Hl.
      destruct (outbox q !! i) as [ri0|] eqn:Hi0; cbn in Hl; [|congruence].
      destruct (HL _ _ Hi0) as [Hs|Hin]; [left|by right].
      rewrite (drain_closed t d limit q Hdl Hidle i ri0 Hi0 Hs) in Hri. congruence.
    + pose proof (drain_weight t t' d limit q Hdl Hidle Hgap Hjit) as Hw.
      destruct (decide (Exists (λ i, 0 < weight_at q i) L)) as [(i & Hin & Hpos)%Exists_exists|Hno].
      * assert (∃ ri, outbox q !! i = Some ri ∧ closed ri = false) as (ri & Hri & Hsi).
        { unfold weight_at in Hpos. destruct (outbox q !! i) as [ri|]; cbn in Hpos; [|lia].
          exists ri. split; [done|]. unfold weight in Hpos. unfold closed, settled, out_of_attempts.
          destruct (row_state ri); [cbn; apply Z.leb_gt; lia|lia|lia]. }
        destruct (drain_progress t t' d limit q Hdl Hfree Hidle Hnow Hgap Hjit i ri Hlim Hri Hsi)
          as (k & Hk & Hlt).
        assert (k ∈ L) as HkL.
        { destruct (claimed_row _ _ _ _ _ Hdl Hk) as (rk & Hrk & _).
          destruct (HL _ _ Hrk) as [Hs|]; [|done]. exfalso.
          unfold weight_at in Hlt. rewrite Hrk, (drain_closed t d limit q Hdl Hidle k rk Hrk Hs) in Hlt.
          cbn in Hlt. lia. }
        pose proof (sumZ_lt _ _ L k (λ x _, Hw x) HkL Hlt). cbn in Hsum. lia.
      * assert (sumZ (weight_at (run_drain limit q d)) L = 0) as ->; [|lia].
        apply sumZ_zero. intros i Hin. specialize (Hw i).
        pose proof (weight_at_nonneg _ _ i Hidle').
        destruct (Z.lt_decidable 0 (weight_at q i)) as [Hp|Hp]; [|lia].
        exfalso. apply Hno, Exists_exists. eauto.
Qed.

Lemma drains_spend_none limit ds t q j r r' :
  spaced t ds → idle t q → outbox q !! j = Some r → outbox (run_drains limit ds q) !! j = Some r' →
  out_of_attempts r' = true → out_of_attempts r = true.
Proof.
  intros Hsp. revert q r. induction Hsp as [t|t t' d ds Hdl Hfree Hnow Hlater Hgap Hjit Hsp IH];
    intros q r Hidle Hr Hr'; [by simplify_eq/=|]. cbn in Hr'.
  pose proof (idle_lookup_drain t d limit q Hdl Hidle j) as Hl. rewrite Hr in Hl.
  intros Ho. eapply (drain_spends_none t t' d limit q Hdl Hidle Hgap Hjit j r); [done|exact Hl|].
  eapply IH; [|exact Hl|exact Hr'|exact Ho]. by eapply drain_idle.
Qed.

Lemma drains_keep_closed limit ds t q j r :
  spaced t ds → idle t q → outbox q !! j = Some r → closed r = true →
  outbox (run_drains limit ds q) !! j = Some r.
Proof.
  intros Hsp. revert q. induction Hsp as [t|t t' d ds Hdl Hfree Hnow Hlater Hgap Hjit Hsp IH];
    intros q Hidle Hr Hc; [done|]. cbn. apply IH; [by eapply drain_idle|by eapply drain_closed|done].
Qed.

Lemma drains_keep_rows limit ds t q j :
  spaced t ds → idle t q → is_Some (outbox q !! j) → is_Some (outbox (run_drains limit ds q) !! j).
Proof.
  intros Hsp. revert q. induction Hsp as [t|t t' d ds Hdl Hfree Hnow Hlater Hgap Hjit Hsp IH];
    intros q Hidle Hr; [done|]. cbn. apply IH; [by eapply drain_idle|].
  rewrite (idle_lookup_drain t d limit q Hdl Hidle j). by apply fmap_is_Some.
Qed.

(** A row a drain at [t] can take up: queued and due, or left running by a worker
    that died at least [STALE_RUNNING_SEC] ago. *)
Definition recoverable (t : Z) (r : UserSyncOutbox) : Prop :=
  match row_state r with
  | Queued n => 0 ≤ n ≤ MAX_ATTEMPTS ∧ (∀ t0, ob_next_retry_at r = Some t0 → t0 ≤ t)
  | InFlight n => 0 ≤ n ≤ MAX_ATTEMPTS ∧ stale t r = true
  | Settled _ => True
  end.

Lemma reclaim_settled now r : settled (reclaim_row now r) = settled r
  ∧ out_of_attempts (reclaim_row now r) = out_of_attempts r.
Proof.
  unfold reclaim_row. destruct (stale now r) eqn:E; [|done]. unfold stale in E. boolp.
  unfold settled, out_of_attempts, row_state. rewrite H. done.
Qed.

Lemma reclaim_idle t now r : recoverable t r → t ≤ now → row_idle now (reclaim_row now r).
Proof.
  intros Hr Ht. unfold reclaim_row. destruct (stale now r) eqn:E.
  - pose proof E as E'. unfold stale in E'. boolp. unfold recoverable, row_state in Hr. rewrite H in Hr.
    unfold row_idle, row_state. cbn. split; [tauto|]. by intros t0 [= <-].
  - unfold recoverable in Hr. unfold row_idle. destruct (row_state r) eqn:Hs; [|exfalso|done].
    + destruct Hr as [? Hd]. split; [done|]. intros t0 H0%Hd. lia.
    + destruct Hr as [_ Hst]. unfold stale in Hst, E. boolp. apply Z.ltb_lt in H0.
      rewrite bool_decide_true in E by done. apply Z.ltb_ge in E. lia.
Qed.

Lemma reclaim_idem now q : _reclaim_stale now (_reclaim_stale now q) = _reclaim_stale now q.
Proof.
  destruct q as [us ob n]. unfold _reclaim_stale. cbn. f_equal. rewrite <-map_fmap_compose.
  apply map_fmap_ext. intros i r _. cbn. unfold reclaim_row at 1. destruct (stale now (reclaim_row now r)) eqn:E; [|done].
  exfalso. unfold reclaim_row in E. destruct (stale now r) eqn:E'; [done|congruence].
Qed.

Lemma run_drain_reclaimed limit q d : run_drain limit (_reclaim_stale (dr_now d) q) d = run_drain limit q d.
Proof. unfold run_drain, drain. cbn [negb]. by rewrite reclaim_idem. Qed.

Definition open_ids (q : OutboxDB) : list Z :=
  (filter (λ p, closed p.2 = false) (map_to_list (outbox q))).*1.

Lemma elem_of_open q oid r : outbox q !! oid = Some r → closed r = false → oid ∈ open_ids q.
Proof.
  intros Hr Hc. apply list_elem_of_fmap. exists (oid, r). split; [done|].
  apply list_elem_of_filter. by rewrite elem_of_map_to_list.
Qed.

Lemma weights_bound t q L : idle t q → sumZ (weight_at q) L ≤ MAX_ATTEMPTS * Z.of_nat (length L).
Proof.
  intros Hidle. apply sumZ_bound. intros j _. unfold weight_at.
  destruct (outbox q !! j) as [x|] eqn:Hx; cbn; [|unfold MAX_ATTEMPTS; lia].
  pose proof (Hidle _ _ Hx) as H. unfold row_idle in H. unfold weight.
  unfold MAX_ATTEMPTS in *. destruct (row_state x); lia.
Qed.

(** The first drain reclaims what crashed workers left. *)
Section recovered.
Context (limit : nat) (t : Z) (d : DrainRun) (ds : list DrainRun) (q : OutboxDB).
Hypothesis Hsp : spaced t (d :: ds).
Hypothesis Hrec : ∀ oid r, outbox q !! oid = Some r → recoverable t r.
Notation q1 := (_reclaim_stale (dr_now d) q).

Lemma recovered_idle : idle (dr_now d) q1.
Proof.
  intros j x Hx. rewrite lookup_reclaim in Hx. destruct (outbox q !! j) as [y|] eqn:Hy; [|done].
  injection Hx as <-. inversion_clear Hsp. by eapply reclaim_idle; [eapply Hrec|].
Qed.

Lemma recovered_spaced : spaced (dr_now d) (d :: ds).
Proof. inversion_clear Hsp. by eapply spaced_cons. Qed.

Lemma recovered_run : run_drains limit (d :: ds) q = run_drains limit (d :: ds) q1.
Proof. cbn [run_drains foldl]. unfold run_drains. cbn [foldl]. by rewrite run_drain_reclaimed. Qed.

Lemma recovered_closed oid r' : (0 < limit)%nat →
  MAX_ATTEMPTS * Z.of_nat (length (open_ids q)) ≤ Z.of_nat (length (d :: ds)) →
  outbox (run_drains limit (d :: ds) q) !! oid = Some r' → closed r' = true.
Proof.
  intros Hlim Hlen. rewrite recovered_run.
  apply (drains_settle_rows limit (d :: ds) (dr_now d) q1 (open_ids q) Hlim recovered_spaced recovered_idle).
  - intros j x Hx. rewrite lookup_reclaim in Hx. destruct (outbox q !! j) as [y|] eqn:Hy; [|done].
    injection Hx as <-. destruct (reclaim_settled (dr_now d) y) as [H1 H2]. unfold closed at 1. rewrite H1, H2.
    fold (closed y). destruct (closed y) eqn:Hc; [by left|right]. by eapply elem_of_open.
  - etrans; [apply (weights_bound _ _ _ recovered_idle)|exact Hlen].
Qed.
End recovered.

Lemma drains_decide_row limit ds t q :
  (0 < limit)%nat → spaced t ds → (∀ oid r, outbox q !! oid = Some r → recoverable t r) →
  MAX_ATTEMPTS * Z.of_nat (length (open_ids q)) ≤ Z.of_nat (length ds) →
  ∀ oid r r', outbox q !! oid = Some r → outbox (run_drains limit ds q) !! oid = Some r' →
    settled r' = negb (out_of_attempts r).
Proof.
  intros Hlim Hsp Hrec Hlen oid r r' Hr Hr'. destruct ds as [|d ds].
  - cbn in Hr'. assert (r' = r) as -> by congruence. destruct (closed r) eqn:Hc.
    + unfold closed, settled, out_of_attempts in *. by destruct (row_state r); cbn in *; rewrite ?Hc.
    + apply (elem_of_open q oid r Hr) in Hc. unfold MAX_ATTEMPTS in Hlen. cbn in Hlen.
      destruct (open_ids q); [by apply elem_of_nil in Hc|cbn in Hlen; lia].
  - pose proof (recovered_closed limit t d ds q Hsp Hrec oid r' Hlim Hlen Hr') as Hc.
    rewrite recovered_run in Hr'. destruct (reclaim_settled (dr_now d) r) as [_ Ho].
    assert (outbox (_reclaim_stale (dr_now d) q) !! oid = Some (reclaim_row (dr_now d) r)) as Hr1
      by (by rewrite lookup_reclaim, Hr).
    destruct (out_of_attempts r) eqn:Hx; cbn.
    + rewrite (drains_keep_closed limit (d :: ds) (dr_now d) _ oid _ (recovered_spaced t d ds Hsp)
        (recovered_idle t d ds q Hsp Hrec) Hr1) in Hr' by (unfold closed; rewrite Ho; apply orb_true_r).
      injection Hr' as <-. unfold settled, out_of_attempts in *. by destruct (row_state (reclaim_row (dr_now d) r)).
    + destruct (settled r') eqn:Hs; [done|]. unfold closed in Hc. rewrite Hs in Hc.
      pose proof (drains_spend_none limit (d :: ds) (dr_now d) _ oid _ r' (recovered_spaced t d ds Hsp)
        (recovered_idle t d ds q Hsp Hrec) Hr1 Hr' Hc). congruence.
Qed.


(** ** Claims *)
Lemma take_before {A} (R : A → A → Prop) (l : list A) n x y :
  StronglySorted R l → x ∈ take n l → y ∈ l → y ∉ take n l → R x y.
Proof.
  revert n. induction l as [|z l IH]; intros n Hs Hx Hy Hny; [by apply elem_of_nil in Hy|].
  destruct n as [|n]; [by apply elem_of_nil in Hx|]. cbn in *.
  inversion Hs as [|? ? Hs' Hall]; subst. apply elem_of_cons in Hy as [->|Hy].
  - exfalso. apply Hny. constructor.
  - apply elem_of_cons in Hx as [->|Hx]; [by eapply Forall_forall in Hall|].
    apply (IH n); try done. intros ?. apply Hny. by constructor.
Qed.

(** A claim takes at most [limit] distinct rows, all due and with attempts
    left; every row it takes comes before every due row it leaves, disables and
    deletes first, then in order of insertion; the rows taken are running with
    one more attempt and no other row changes. *)
Theorem claim_spec now limit q :
  let ids := (_claim_generic now limit q).1 in
  let q' := (_claim_generic now limit q).2 in
  (length ids ≤ limit)%nat ∧ NoDup ids
  ∧ (∀ oid, oid ∈ ids → ∃ r, outbox q !! oid = Some r ∧ claimable now r = true
       ∧ outbox q' !! oid = Some (claim_row now r))
  ∧ (∀ oid, oid ∉ ids → outbox q' !! oid = outbox q !! oid)
  ∧ (∀ i ri j rj, i ∈ ids → outbox q !! i = Some ri →
       outbox q !! j = Some rj → claimable now rj = true → j ∉ ids →
       urgency ri < urgency rj ∨ (urgency ri = urgency rj ∧ i ≤ j)).
Proof.
  pose proof (claimed_NoDup now limit q) as Hnd. cbn in *. split_and!; [|done| | |].
  - rewrite length_fmap, length_take. lia.
  - intros oid Hin. destruct (elem_of_claimed now limit q oid Hin) as (r & Hr & Hc).
    exists r. split_and!; [done|done|]. by rewrite lookup_claim_ids, decide_True, Hr by done.
  - intros oid Hni. by rewrite lookup_claim_ids, decide_False by done.
  - intros i ri j rj Hi Hri Hrj Hcj Hj.
    assert (leb_claim (i, ri) (j, rj)) as Hle.
    { apply (take_before (λ x y, leb_claim x y) (due_rows now q) limit); [apply sort_by_sorted, leb_claim_order| | |].
      - apply list_elem_of_fmap in Hi as ([i' r'] & -> & Hin). cbn in Hri.
        assert ((i', r') ∈ due_rows now q) as Hd.
        { apply list_elem_of_lookup in Hin as [k Hk]. apply lookup_take_Some in Hk as [Hk _].
          by eapply list_elem_of_lookup_2. }
        apply elem_of_due in Hd as [Hr' _]. assert (r' = ri) as <- by congruence. done.
      - by apply elem_of_due.
      - intros Hin. apply Hj, list_elem_of_fmap. by exists (j, rj). }
    unfold leb_claim in Hle. cbn in Hle. rewrite Is_true_true in Hle.
    rewrite orb_true_iff, andb_true_iff, Z.ltb_lt, Z.eqb_eq, Z.leb_le in Hle. lia.
Qed.

(** The claim by one [UPDATE ... RETURNING] statement does to the table what
    the generic claim does, when no other transaction holds a due row; the ids
    come back in some order. *)
Theorem claim_postgres_agrees locked returning now limit q :
  (∀ oid, locked oid = false) → (∀ l, returning l ≡ₚ l) →
  (_claim_postgres locked returning now limit q).1 ≡ₚ (_claim_generic now limit q).1
  ∧ (_claim_postgres locked returning now limit q).2 = (_claim_generic now limit q).2.
Proof.
  intros Hl Hr. unfold _claim_postgres.
  assert (filter (λ p : Z * UserSyncOutbox, locked p.1 = false) (due_rows now q) = due_rows now q) as ->.
  { induction (due_rows now q) as [|p l IH]; [done|]. by rewrite filter_cons, decide_True, IH. }
  pose proof (claimed_NoDup now limit q) as Hnd. cbn [fst snd _claim_generic] in *.
  split; [apply Hr|].
  destruct (claim_ids now (take limit (due_rows now q)).*1 q) as [u' m' s'] eqn:E.
  assert (u' = q_users q ∧ s' = outbox_seq q) as [-> ->].
  { pose proof (outbox_seq_claim_ids now (take limit (due_rows now q)).*1 q) as Hs.
    pose proof (q_users_claim_ids now (take limit (due_rows now q)).*1 q) as Hu.
    rewrite E in Hs, Hu. done. }
  cbn. f_equal. apply map_eq. intros j. rewrite map_lookup_imap.
  change m' with (outbox (mkODB (q_users q) m' (outbox_seq q))). rewrite <-E.
  rewrite lookup_claim_ids by done. destruct (outbox q !! j) as [r|]; cbn; [|by case_decide].
  case_bool_decide; case_decide; done.
Qed.

(** ** Two ways a change is lost *)
(** Open, with no attempt left, and held by nobody. *)
Definition stranded (f : Fleet) (oid : Z) : Prop :=
  (∃ r, outbox (f_db f) !! oid = Some r ∧ ob_attempts r = MAX_ATTEMPTS
     ∧ (ob_status r = Running ∨ ob_status r = Pending))
  ∧ ∀ w t ids, f_inflight f !! w = Some (t, ids) → oid ∉ ids.

Lemma spent_not_claimed dl now limit q oid r :
  dialect_ok dl → outbox q !! oid = Some r → ob_attempts r = MAX_ATTEMPTS →
  oid ∉ (claim_due dl now limit q).1.
Proof.
  intros Hd Hr Ha (r' & Hr' & Hc)%elem_of_claim_due; [|done]. assert (r' = r) as -> by congruence.
  unfold claimable in Hc. boolp. apply Z.ltb_lt in H0. lia.
Qed.

Lemma stranded_step e f f' oid :
  fleet_inv f → fleet_step e f f' → stranded f oid → stranded f' oid.
Proof.
  intros Hinv Hs [(r & Hr & Ha & Hst) Hn]. destruct Hs; cbn in *.
  - split; [by exists r|exact Hn].
  - split; [|exact Hn]. cbn. rewrite enqueue_cases in H. destruct (bool_decide _); [|simplify_eq; by exists r].
    destruct (find_existing _ _ _ _ q) as [i|]; injection H as <- <-.
    + unfold coalesced. rewrite outbox_set_user_sync, lookup_update_row, Hr.
      destruct (set_payload_frame c payload r) as (Hs & Hat & _).
      case_decide; (eexists; split; [done|]); rewrite ?Hs, ?Hat; done.
    + unfold inserted. rewrite outbox_set_user_sync. cbn. exists r.
      rewrite lookup_insert_ne; [done|]. intros <-. apply (fi_rows _ Hinv) in Hr. cbn in Hr. lia.
  - split; [|exact Hn]. exists (orphan_row uid r). cbn. rewrite lookup_fmap, Hr. split; [done|].
    unfold orphan_row. by case_bool_decide.
  - split; [|exact Hn]. exists (reclaim_row c r). cbn. rewrite lookup_fmap, Hr. split; [done|].
    unfold reclaim_row. destruct (stale c r); [|done]. cbn. auto.
  - pose proof (spent_not_claimed dl c limit q oid r H0 Hr Ha) as Hc. split; cbn.
    + exists r. by rewrite lookup_claim_due, decide_False by done.
    + intros v t ids [[<- [= <- <-]]|[_ Hv]]%lookup_insert_Some; [done|by eapply Hn].
  - assert (oid ≠ oid0) as Hne by (intros ->; eapply Hn; [exact H|constructor]). split; cbn.
    + exists r. by rewrite lookup_finish, decide_False by done.
    + intros v t' l [[<- [= <- <-]]|[_ Hv]]%lookup_insert_Some; [|by eapply Hn].
      intros Hin. eapply Hn; [exact H|by constructor].
  - split; [by exists r|]. cbn. intros v t ids [_ Hv]%lookup_delete_Some. by eapply Hn.
Qed.

(** A row whose worker dies during the last attempt is stranded: in every timely
    continuation it is running or, once reclaimed, pending; no worker ever holds it
    again and it is never marked dead. *)
Theorem crash_on_last_attempt_strands_row f f' oid r :
  fleet_inv f → outbox (f_db f) !! oid = Some r → ob_status r = Running → ob_attempts r = MAX_ATTEMPTS →
  (∀ w t ids, f_inflight f !! w = Some (t, ids) → oid ∉ ids) →
  rtc timely_step f f' → stranded f' oid.
Proof.
  intros Hinv Hr Hrun Ha Hn Hs. assert (stranded f oid) as H by (split; [exists r; auto|done]).
  clear Hr Hrun Ha Hn. induction Hs as [f|f f1 f2 H1 Hs IH]; [done|].
  apply IH; [by eapply step_fleet_inv|]. destruct H1 as (e & H1 & _). by eapply stranded_step.
Qed.

(** A change requested while an earlier one of the same kind is being
    applied is coalesced onto the running row, and lost when that apply
    succeeds: no row is added, the row is done with the new payload nobody
    applied, and the user is reported live. *)
Theorem coalesced_while_running_is_lost q oid r uid u action target nid shard payload now fnow later jit :
  find_existing (Some uid) (strip action) (clean_target target) nid q = Some oid →
  outbox q !! oid = Some r → ob_status r = Running → uid ≠ 0 →
  q_users q !! uid = Some u → strip action ∈ ACTIONS →
  let '(res, q1) := run_session (enqueue (Some uid) action target nid shard (Some payload) true now) q in
  let q2 := _finish oid true None fnow later jit q1 in
  res = Ok oid ∧ dom (outbox q2) = dom (outbox q)
  ∧ (∃ r2, outbox q2 !! oid = Some r2 ∧ ob_status r2 = Done
       ∧ ob_payload r2 = (if bool_decide (payload = empty_payload) then ob_payload r else payload))
  ∧ (∃ u2, q_users q2 !! uid = Some u2 ∧ u_sync_state u2 = "live").
Proof.
  intros Hf Hr Hrun Hu0 Hu Hact. rewrite enqueue_cases, bool_decide_eq_true_2 by done.
  assert (or_none (Some uid) = Some uid) as -> by (unfold or_none; by destruct uid).
  rewrite Hf. cbn beta iota zeta.
  destruct (find_existing_Some _ _ _ _ _ _ Hf) as (r' & Hr' & Hsame).
  assert (r' = r) as -> by congruence.
  assert (ob_user_id r = Some uid) as Hruid. { unfold same_request in Hsame. by boolp. }
  set (q1 := coalesced oid now (Some uid) (Some payload) q).
  assert (outbox q1 !! oid = Some (set_payload now (Some payload) r)) as Hq1.
  { unfold q1, coalesced. rewrite outbox_set_user_sync, lookup_update_row, decide_True, Hr by done. done. }
  assert (ob_user_id (set_payload now (Some payload) r) = Some uid) as Hpu.
  { unfold set_payload. by destruct (payload_truthy _). }
  split_and!; [done| | |].
  - apply set_eq. intros j. rewrite !elem_of_dom, lookup_finish. unfold q1, coalesced.
    rewrite outbox_set_user_sync, lookup_update_row.
    by repeat case_decide; rewrite ?fmap_is_Some.
  - exists (finish_ok fnow (set_payload now (Some payload) r)).
    rewrite lookup_finish, decide_True, Hq1 by done. split_and!; [done|done|].
    unfold finish_ok. row_frame. unfold set_payload, payload_truthy. by case_bool_decide.
  - assert (truthy (Some uid) = true) as Ht by (cbn; by apply negb_true_iff, Z.eqb_neq).
    unfold _finish. rewrite Hq1. unfold _set_user_sync at 1. rewrite Hpu, Ht. cbn [or0].
    unfold q1, coalesced, _set_user_sync. rewrite Ht. cbn. rewrite !lookup_alter_eq, Hu.
    eexists; split; [done|done].
Qed.

End OutboxFacts.

(** ** The theorems at concrete queues *)
Module OutboxExamples.
Import Outbox OutboxFacts.

Definition customer : User :=
  mkUser "ali" active 0 0 0 0 None None (Some 1) None None None None 0 None false None None
    None None None None None [] "live" None None "no_reset" None None.

Definition add_row (st : OutboxStatus) (n : Z) : UserSyncOutbox :=
  mkRow (Some 7) "add" "all" None None empty_payload st n (Some 0) None None 0 0.

Definition delete_row : UserSyncOutbox :=
  mkRow (Some 9) "delete" "all" None None empty_payload Failed 3 (Some 0) None None 0 0.

Definition queue_of (r : UserSyncOutbox) : OutboxDB := mkODB {[ 7 := customer ]} {[ 1 := r ]} 1.

Definition two_rows : OutboxDB := mkODB {[ 7 := customer ]} {[ 1 := add_row Pending 0; 2 := delete_row ]} 2.

Definition idle_fleet (r : UserSyncOutbox) : Fleet := mkFleet (queue_of r) 0 ∅.

Lemma idle_fleet_inv r : 0 ≤ ob_attempts r ≤ MAX_ATTEMPTS → fleet_inv (idle_fleet r).
Proof.
  intros Hr. split; cbn.
  - intros w t ids H. by rewrite lookup_empty in H.
  - intros v w t t' ids ids' oid H. by rewrite lookup_empty in H.
  - intros oid r' Hl. apply lookup_singleton_Some in Hl as [<- <-]. lia.
Qed.

(** The delete is claimed before the older add. *)
Example delete_first : (_claim_generic 5 1 two_rows).1 = [2].
Proof. vm_compute. reflexivity. Qed.

Definition pg : Dialect := Postgresql (λ _, false) (λ l, l).

Lemma pg_ok : dialect_ok pg.
Proof. intros l. reflexivity. Qed.

(** The table and the fleet once worker 1 has claimed the row, and once worker 2 has
    taken it over 46 seconds later and finished it. *)
Definition q_claimed : OutboxDB := (claim_due pg 0 12 (queue_of (add_row Pending 0))).2.
Definition f_claimed : Fleet := mkFleet q_claimed 0 (<[1 := (0, [1])]> ∅).
Definition late : Z := 46 * SECOND.
Definition q_taken : OutboxDB := (claim_due pg late 12 (_reclaim_stale late q_claimed)).2.
Definition q_done : OutboxDB := _finish 1 true None late late 0 q_taken.
Definition f_done : Fleet := mkFleet q_done late (<[2 := (late, [])]> (<[1 := (0, [1])]> ∅)).
Definition f_overturned : Fleet :=
  mkFleet (_finish 1 false (Some "timeout") late late 0 q_done) late
    (<[1 := (0, [])]> (<[2 := (late, [])]> (<[1 := (0, [1])]> ∅))).

Lemma claim_step : fleet_step Acting (idle_fleet (add_row Pending 0)) f_claimed.
Proof. exact (fs_claim (queue_of (add_row Pending 0)) 0 ∅ 1 pg 12 eq_refl pg_ok ltac:(discriminate)). Qed.


(** Out of time: nothing ties an outcome to the claim it belongs to.  Worker 1 is slow,
    worker 2 takes the stale row over and settles it as done, and the late outcome of
    worker 1 makes it failed again: the verdict is lost and the change applied anew. *)
Lemma late_outcome_overturns_verdict :
  rtc any_step (idle_fleet (add_row Pending 0)) f_done ∧ any_step f_done f_overturned
  ∧ ob_status <$> outbox (f_db f_done) !! 1 = Some Done
  ∧ ob_status <$> outbox (f_db f_overturned) !! 1 = Some Failed
  ∧ claimable (late + 300 * SECOND) <$> outbox (f_db f_overturned) !! 1 = Some true.
Proof.
  split_and!; [|exists Acting; exact (fs_finish q_done late (<[2 := (late, [])]> (<[1 := (0, [1])]> ∅)) 1 0 1 [] false (Some "timeout") late 0 eq_refl)
    |vm_compute; reflexivity..].
  eapply rtc_l; [exists Acting; exact claim_step|].
  eapply rtc_l; [exists Acting; exact (fs_tick q_claimed 0 late (<[1 := (0, [1])]> ∅) ltac:(vm_compute; discriminate))|].
  eapply rtc_l; [exists Reclaiming; exact (fs_reclaim q_claimed late (<[1 := (0, [1])]> ∅) 2 eq_refl)|].
  eapply rtc_l; [exists Acting; exact (fs_claim (_reclaim_stale late q_claimed) late (<[1 := (0, [1])]> ∅) 2 pg 12 eq_refl pg_ok
    ltac:(discriminate))|].
  apply rtc_once. exists Acting. unfold f_done.
  rewrite <-(insert_insert_eq (<[1 := (0, [1])]> ∅) 2 (late, []) (late, [1])).
  exact (fs_finish q_taken late (<[2 := (late, [1])]> (<[1 := (0, [1])]> ∅)) 2 late 1 [] true None late 0 eq_refl).
Qed.

(** Cores that are down, asked every 400 seconds from a PostgreSQL table. *)
Definition down (now : Z) : DrainRun :=
  mkDrainRun (λ _, Some "node down") (Postgresql (λ _, false) (@rev Z)) now (λ _, now) (λ _, now) (λ _, 0).

Fixpoint every_400s (n : nat) (t : Z) : list DrainRun :=
  match n with O => [] | S n => down t :: every_400s n (t + 400 * SECOND) end.

Lemma every_400s_spaced n t : spaced t (every_400s n t).
Proof.
  revert t. induction n as [|n IH]; intros t; cbn; [constructor|].
  apply (spaced_cons t (t + 400 * SECOND)); cbn; [|done|lia|lia| | |apply IH]; try (intros; unfold SECOND; lia).
  intros l. symmetry. apply Permutation_rev.
Qed.

(** One row queued, one left running by a worker that died, one out of attempts. *)
Definition three_rows : OutboxDB :=
  mkODB {[ 7 := customer ]} {[ 1 := add_row Pending 0; 2 := add_row Running 3; 3 := add_row Pending 20 ]} 3.

Lemma three_rows_recoverable oid r : outbox three_rows !! oid = Some r → recoverable late r.
Proof.
  intros Hl. cbn in Hl. rewrite !lookup_insert_Some, lookup_singleton_Some in Hl.
  destruct Hl as [[<- <-]|(_ & [[<- <-]|(_ & <- & <-)])];
    (split; [unfold MAX_ATTEMPTS; cbn; lia|]); [|vm_compute; reflexivity|];
    intros t0 [= <-]; vm_compute; discriminate.
Qed.


(** The same run evaluated: the row is dead after its twentieth attempt. *)
Example down_for_ever :
  ob_status <$> outbox (run_drains 12 (every_400s 20 0) (queue_of (add_row Pending 0))) !! 1 = Some Dead.
Proof. vm_compute. reflexivity. Qed.

Lemma claim_postgres_agrees_witness :
  (_claim_postgres (λ _, false) (@rev Z) 5 12 two_rows).1 ≡ₚ [2; 1]
  ∧ (_claim_postgres (λ _, false) (@rev Z) 5 12 two_rows).2 = (_claim_generic 5 12 two_rows).2.
Proof.
  destruct (claim_postgres_agrees (λ _, false) (@rev Z) 5 12 two_rows) as [H1 H2].
  - done.
  - intros l. symmetry. apply Permutation_rev.
  - split; [exact H1|exact H2].
Defined.

Lemma crash_on_last_attempt_strands_row_witness :
  stranded (mkFleet (_reclaim_stale late (queue_of (add_row Running 20))) late ∅) 1
  ∧ ob_status <$> outbox (_reclaim_stale late (queue_of (add_row Running 20))) !! 1 = Some Pending.
Proof.
  split; [|vm_compute; reflexivity].
  apply (crash_on_last_attempt_strands_row (idle_fleet (add_row Running 20)) _ 1 (add_row Running 20));
    [apply idle_fleet_inv; vm_compute; split; discriminate|reflexivity..| |].
  - intros w t ids H. cbn in H. by rewrite lookup_empty in H.
  - eapply rtc_l; [exists Acting; split; [|discriminate];
      exact (fs_tick (queue_of (add_row Running 20)) 0 late ∅ ltac:(vm_compute; discriminate))|].
    apply rtc_once. exists Reclaiming. split; [exact (fs_reclaim (queue_of (add_row Running 20)) late ∅ 1 eq_refl)|].
    intros _ v b H. cbn in H. by rewrite lookup_empty in H.
Defined.

Definition new_payload : Payload := mkPayload (Some 7) (Some "ali") None None None (Some 3) [].

Lemma coalesced_while_running_is_lost_witness :
  let '(res, q1) := run_session (enqueue (Some 7) "add" "all" None None (Some new_payload) true 5)
                      (queue_of (add_row Running 1)) in
  res = Ok 1 ∧ ∃ u2, q_users (_finish 1 true None 6 6 0 q1) !! 7 = Some u2 ∧ u_sync_state u2 = "live".
Proof.
  pose proof (coalesced_while_running_is_lost (queue_of (add_row Running 1)) 1 (add_row Running 1)
    7 customer "add" "all" None None new_payload 5 6 6 0) as H.
  destruct (run_session _ _) as [res q1].
  destruct H as (Hres & _ & _ & Hu); [vm_compute; reflexivity|reflexivity|reflexivity|discriminate|
    reflexivity|constructor|]. split; [exact Hres|exact Hu].
Defined.
End OutboxExamples.
