(* ===== verification/CoreSync.v ===== *)
(** * CoreSync: keeping the running Xray core aligned with the users table

    [app/xray/serving.py] (the registry of pushed users, hot sync, hot
    disconnect, per-user sync) and the main-core part of
    [app/sync/hot_apply.py] and [app/sync/ack.py], which the worker runs for
    each row of the outbox.

    The core is reached through its handler API, code outside the repository:
    the interface [HandlerService] has its two calls and [HandlerLaws] what they
    are documented to do.  Threads pushing to remote nodes, WireGuard slots and
    sing-box are not modelled. *)
From S2P Require Import Prelude Store Outbox.

Module CoreSync.
Import Outbox.

(** ** The handler API *)
Inductive ApiOutcome :=
  | ApiOk | EmailExistsError | EmailNotFoundError | TagNotFoundError
  | ConnectionError | TimeoutError | UnknownError.

Record Account := mkAccount {
  acc_email : string;
  acc_level : Z;
  acc_flow : option string;      (* None: the protocol has no flow *)
  acc_settings : string;         (* credentials *)
  acc_is_2022 : bool }.

#[export] Instance eta_Account : Eta Account := λ a, mkAccount (acc_email a) (acc_level a)
  (acc_flow a) (acc_settings a) (acc_is_2022 a).

Class HandlerService (Core : Type) := {
  (* the account an inbound serves for an email *)
  serves : Core → string → string → option Account;
  (* get_sys_stats answers *)
  sys_stats : Core → bool;
  add_inbound_user : string → Account → Core → ApiOutcome * Core;
  remove_inbound_user : string → string → Core → ApiOutcome * Core }.

(** What [AddUserOperation] and [RemoveUserOperation] are documented to do.  A
    call that fails on the way (connection, deadline) promises nothing about its
    own account, and no call touches another one. *)
Class HandlerLaws (Core : Type) `{HandlerService Core} := {
  add_frame t a c t' e' :
    (t', e') ≠ (t, acc_email a) → serves (add_inbound_user t a c).2 t' e' = serves c t' e';
  add_ok t a c c' :
    add_inbound_user t a c = (ApiOk, c') → serves c' t (acc_email a) = Some a;
  add_exists t a c c' :
    add_inbound_user t a c = (EmailExistsError, c') →
    is_Some (serves c t (acc_email a)) ∧ serves c' t (acc_email a) = serves c t (acc_email a);
  remove_frame t e c t' e' :
    (t', e') ≠ (t, e) → serves (remove_inbound_user t e c).2 t' e' = serves c t' e';
  remove_gone t e c c' o :
    remove_inbound_user t e c = (o, c') →
    o = ApiOk ∨ o = EmailNotFoundError ∨ o = TagNotFoundError → serves c' t e = None }.

(** ** Configuration *)
Record Inbound := mkInbound {
  ib_protocol : string;
  ib_ss_method : option string;
  ib_settings_method : option string;
  ib_network : option string;
  ib_tls : option string;
  ib_header_type : option string }.

(** An inbound of a core configuration with the emails of its clients. *)
Record ConfigInbound := mkConfigInbound {
  ci_tag : string;
  ci_inbound : Inbound;
  ci_clients : list (option string) }.

Record CoreState (Core : Type) := mkCoreState {
  live : Core;
  started : bool;
  restarting : bool;
  config_generation : Z;
  last_config : option (list ConfigInbound);
  registered : gmap string (gset string);
  registry_generation : Z }.
Arguments mkCoreState {Core}.
Arguments live {Core}.
Arguments started {Core}.
Arguments restarting {Core}.
Arguments config_generation {Core}.
Arguments last_config {Core}.
Arguments registered {Core}.
Arguments registry_generation {Core}.

#[export] Instance eta_CoreState {Core} : Eta (CoreState Core) := λ s, mkCoreState (live s)
  (started s) (restarting s) (config_generation s) (last_config s) (registered s)
  (registry_generation s).

(** Programs on the core: an API exception the code does not catch ends them. *)
Definition Prog (Core A : Type) : Type :=
  CoreState Core → (ApiOutcome + A) * CoreState Core.
#[export] Instance prog_ret {Core} : MRet (Prog Core) := λ A a s, (inr a, s).
#[export] Instance prog_bind {Core} : MBind (Prog Core) := λ A B f m s,
  match m s with
  | (inl o, s') => (inl o, s')
  | (inr a, s') => f a s'
  end.

Definition get_state {Core A} (f : CoreState Core → A) : Prog Core A := λ s, (inr (f s), s).
Definition put_state {Core} (f : CoreState Core → CoreState Core) : Prog Core unit := λ s, (inr tt, f s).
Definition throw {Core A} (o : ApiOutcome) : Prog Core A := λ s, (inl o, s).

Fixpoint for_all {Core A} (l : list A) (f : A → Prog Core unit) : Prog Core unit :=
  match l with
  | [] => mret tt
  | x :: l => _ ← f x; for_all l f
  end.

(** [xray_api.types.account.is_ss2022] *)
Definition SS2022_METHODS : list string :=
  ["2022-blake3-aes-128-gcm"; "2022-blake3-aes-256-gcm"; "2022-blake3-chacha20-poly1305"].
Definition is_ss2022 (method : string) : bool := bool_decide (method ∈ SS2022_METHODS).

Definition truthy_str (o : option string) : bool :=
  match o with Some s => negb (bool_decide (s = "")) | None => false end.

Definition ss_method (i : Inbound) : string :=
  if truthy_str (ib_ss_method i) then default "" (ib_ss_method i)
  else default "" (ib_settings_method i).

(** A user row with what the sync code reads: [cu_inbounds] is the property
    [inbounds] (proxy type to tags), in dict order. *)
Record ProxyCreds := mkCreds { pc_settings : string; pc_flow : option string; pc_is_2022 : bool }.

Record CoreUser := mkCoreUser {
  cu_id : Z;
  cu_username : string;
  cu_status : UserStatus;
  cu_proxies : gmap string ProxyCreds;
  cu_inbounds : list (string * list string);
  cu_speed_limit_up : option Z;
  cu_speed_limit_down : option Z }.

(** Inbound tag to email to account. *)
Notation Desired := (gmap string (gmap string Account)).

Section serving.
Context {Core : Type} `{HS : HandlerService Core}.
(** [xray.config.inbounds_by_tag], and [str] on integers. *)
Context (inbounds_by_tag : gmap string Inbound) (print_int : Z → string).
Notation Prog := (Prog Core).
Notation CoreState := (CoreState Core).

Definition get_inbound (cfg : list ConfigInbound) (tag : string) : option Inbound :=
  ci_inbound <$> head (filter (λ i, ci_tag i = tag) cfg).

Definition find_inbound (s : CoreState) (tag : string) : option Inbound :=
  match inbounds_by_tag !! tag with
  | Some i => Some i
  | None => match last_config s with Some cfg => get_inbound cfg tag | None => None end
  end.

Definition _inbound_supports_hot_sync (s : CoreState) (tag : string) : bool :=
  match find_inbound s tag with
  | None => false
  | Some i => if bool_decide (ib_protocol i ≠ "shadowsocks") then true
              else negb (is_ss2022 (ss_method i))
  end.

Definition _inbound_requires_restart_on_change (s : CoreState) (tag : string) : bool :=
  match find_inbound s tag with
  | None => false
  | Some i => if bool_decide (ib_protocol i ≠ "shadowsocks") then false
              else is_ss2022 (ss_method i)
  end.

(** [network_defaults.effective_vless_flow] *)
Definition effective_vless_flow (flow : option string) : string :=
  match flow with
  | Some f => if bool_decide (f = "" ∨ f = "none") then "" else f
  | None => ""
  end.

Definition flow_blocked (i : option Inbound) : bool :=
  let network := default "tcp" (i ≫= ib_network) in
  let plain := bool_decide (network = "tcp" ∨ network = "kcp" ∨ network = "raw") in
  let tls := i ≫= ib_tls in
  negb plain
  || (plain && negb (bool_decide (tls = Some "tls" ∨ tls = Some "reality")))
  || bool_decide (i ≫= ib_header_type = Some "http").

Definition email_of (u : CoreUser) : string := print_int (cu_id u) +:+ "." +:+ cu_username u.

Definition _account_for_inbound (u : CoreUser) (proxy_type inbound_tag : string) : option Account :=
  let inbound := inbounds_by_tag !! inbound_tag in
  match cu_proxies u !! proxy_type with
  | None => None
  | Some p =>
      let level := if truthy (cu_speed_limit_up u) || truthy (cu_speed_limit_down u)
                   then cu_id u mod 9000 + 100 else 0 in
      let flow := if bool_decide (proxy_type = "vless") then Some (effective_vless_flow (pc_flow p))
                  else if bool_decide (proxy_type = "trojan") then Some ""
                  else pc_flow p in
      let flow := match flow with
                  | Some f => Some (if flow_blocked inbound then "" else f)
                  | None => None
                  end in
      Some (mkAccount (email_of u) level flow (pc_settings p) (pc_is_2022 p))
  end.

(** [is_xray_proxy_held] and [is_protocol_held] of [utils/device_exclusivity.py]. *)
Definition is_xray_proxy_held (u : CoreUser) (proxy_type : string) : bool := false.
Definition is_protocol_held (u : CoreUser) (protocol : string) : bool := false.

Definition billable (u : CoreUser) : bool := status_in (cu_status u) [active; on_hold].

Definition iter_user_hot_accounts (s : CoreState) (u : CoreUser) : list (string * Account) :=
  if negb (billable u) then []
  else
  flat_map (λ p : string * list string,
    if is_xray_proxy_held u p.1 then []
    else omap (λ tag,
      if negb (_inbound_supports_hot_sync s tag) then None
      else match _account_for_inbound u p.1 tag with
           | Some a => if acc_is_2022 a then None else Some (tag, a)
           | None => None
           end) p.2) (cu_inbounds u).

(** ** The desired users, scanned in chunks by primary key *)
Definition user_batch (limit : nat) (last_id : Z) (us : list CoreUser) : list CoreUser :=
  take limit (sort_by (λ a b, cu_id a <=? cu_id b)
    (filter (λ u, billable u = true ∧ last_id < cu_id u) us)).

Fixpoint scan_users (fuel limit : nat) (last_id : Z) (us : list CoreUser) : option (list CoreUser) :=
  match fuel with
  | O => None
  | S fuel =>
      match user_batch limit last_id us with
      | [] => Some []
      | u :: batch =>
          let last := List.last (u :: batch) u in
          app (u :: batch) <$> scan_users fuel limit (cu_id last) us
      end
  end.

Definition desire (tag : string) (a : Account) (d : Desired) : Desired :=
  <[tag := <[acc_email a := a]> (default ∅ (d !! tag))]> d.

Definition desired_of_user (d : Desired) (u : CoreUser) : Desired :=
  foldl (λ d p,
    if is_xray_proxy_held u p.1 then d
    else foldl (λ d tag, match _account_for_inbound u p.1 tag with
                         | Some a => desire tag a d
                         | None => d
                         end) d p.2) d (cu_inbounds u).

(** 500 rows per query; the fuel is enough for any table (see [scan_complete]). *)
Definition _build_desired_by_inbound (us : list CoreUser) : Desired :=
  foldl desired_of_user ∅ (default [] (scan_users (S (length us)) 500 0 us)).

(** ** The registry *)
Definition _reset_registry_from_config (cfg : list ConfigInbound) : gmap string (gset string) :=
  foldl (λ reg i,
    let emails : gset string :=
      list_to_set (omap (λ e, if truthy_str e then e else None) (ci_clients i)) in
    if bool_decide (emails = ∅) then reg else <[ci_tag i := emails]> reg) ∅ cfg.

Definition ensure_registry (s : CoreState) : CoreState :=
  if config_generation s =? registry_generation s then s
  else s <| registered := match last_config s with
                          | Some cfg => _reset_registry_from_config cfg
                          | None => ∅
                          end |>
         <| registry_generation := config_generation s |>.

Definition _ensure_registry_current : Prog unit := put_state ensure_registry.

Definition registered_in (s : CoreState) (tag : string) : gset string :=
  default ∅ (registered s !! tag).

(** [_registered.setdefault(tag, set()).add(email)] *)
Definition register (tag email : string) (s : CoreState) : CoreState :=
  s <| registered := <[tag := {[ email ]} ∪ registered_in s tag]> (registered s) |>.

Definition unregister (tag email : string) (s : CoreState) : CoreState :=
  s <| registered := alter (λ es, es ∖ {[ email ]}) tag (registered s) |>.

(** One API call: the outcome, with the core it leaves. *)
Definition call (f : Core → ApiOutcome * Core) : Prog ApiOutcome := λ s,
  let '(o, c) := f (live s) in (inr o, s <| live := c |>).

Definition _api_add_user (tag : string) (a : Account) : Prog unit :=
  o ← call (add_inbound_user tag a);
  match o with
  | ApiOk | EmailExistsError | ConnectionError => put_state (register tag (acc_email a))
  | _ => throw o
  end.

Definition _api_remove_user (tag email : string) : Prog unit :=
  o ← call (remove_inbound_user tag email);
  match o with
  | ApiOk | EmailNotFoundError | ConnectionError | TagNotFoundError => put_state (unregister tag email)
  | _ => throw o
  end.

(** ** Hot sync *)
Definition wanted (d : Desired) (tag : string) : gset string := dom (default ∅ (d !! tag)).

Definition _core_user_diff_requires_restart (s : CoreState) (d : Desired)
    (snapshot : gmap string (gset string)) : bool :=
  existsb (λ tag, _inbound_requires_restart_on_change s tag
                  && negb (bool_decide (wanted d tag = default ∅ (snapshot !! tag))))
    (elements (dom snapshot ∪ dom d)).

Definition add_one (snapshot : gmap string (gset string)) (tag : string) (q : string * Account) : Prog unit :=
  if bool_decide (q.1 ∈ default ∅ (snapshot !! tag)) then mret tt else _api_add_user tag q.2.

Definition add_tag (s0 : CoreState) (snapshot : gmap string (gset string))
    (p : string * gmap string Account) : Prog unit :=
  if negb (_inbound_supports_hot_sync s0 p.1) then mret tt
  else for_all (map_to_list p.2) (add_one snapshot p.1).

Definition add_missing (s0 : CoreState) (snapshot : gmap string (gset string)) (d : Desired) : Prog unit :=
  for_all (map_to_list d) (add_tag s0 snapshot).

Definition remove_tag (s0 : CoreState) (d : Desired) (p : string * gset string) : Prog unit :=
  if negb (_inbound_supports_hot_sync s0 p.1) then mret tt
  else for_all (elements (p.2 ∖ wanted d p.1)) (_api_remove_user p.1).

Definition remove_unwanted (s0 : CoreState) (snapshot : gmap string (gset string)) (d : Desired) : Prog unit :=
  for_all (map_to_list snapshot) (remove_tag s0 d).

Definition core_reachable (s : CoreState) : bool :=
  started s && negb (restarting s) && sys_stats (live s).

Definition hot_sync_main_core (us : list CoreUser) : Prog bool :=
  up ← get_state core_reachable;
  if negb up then mret false
  else
  let desired := _build_desired_by_inbound us in
  _ ← _ensure_registry_current;
  s0 ← get_state id;
  let snapshot := registered s0 in
  if _core_user_diff_requires_restart s0 desired snapshot then mret false
  else
  _ ← add_missing s0 snapshot desired;
  _ ← remove_unwanted s0 snapshot desired;
  mret true.

Definition disconnect_tag (s0 : CoreState) (emails : gset string) (p : string * gset string) : Prog unit :=
  if negb (_inbound_supports_hot_sync s0 p.1) then mret tt
  else for_all (elements (emails ∩ p.2)) (_api_remove_user p.1).

Definition hot_disconnect_users (us : list CoreUser) : Prog bool :=
  if bool_decide (us = []) then mret true
  else
  up ← get_state core_reachable;
  if negb up then mret false
  else
  let emails : gset string := list_to_set (email_of <$> us) in
  _ ← _ensure_registry_current;
  s0 ← get_state id;
  _ ← for_all (map_to_list (registered s0)) (disconnect_tag s0 emails);
  mret true.

Definition sync_user_tag (s0 : CoreState) (u : CoreUser) (pt tag : string) : Prog unit :=
  if negb (_inbound_supports_hot_sync s0 tag) then mret tt
  else if is_xray_proxy_held u pt then _api_remove_user tag (email_of u)
  else match _account_for_inbound u pt tag with
       | None => mret tt
       | Some a => _ ← _api_remove_user tag (email_of u); _api_add_user tag a
       end.

Definition sync_user_proxy (s0 : CoreState) (u : CoreUser) (p : string * list string) : Prog unit :=
  for_all p.2 (sync_user_tag s0 u p.1).

Definition sync_main_core_user (u : CoreUser) : Prog unit :=
  if negb (billable u) then _ ← hot_disconnect_users [u]; mret tt
  else
  up ← get_state (λ s, started s && negb (restarting s));
  if negb up then mret tt
  else
  _ ← (if is_protocol_held u "xray" then _ ← hot_disconnect_users [u]; mret tt else mret tt);
  _ ← _ensure_registry_current;
  s0 ← get_state id;
  for_all (cu_inbounds u) (sync_user_proxy s0 u).

End serving.
End CoreSync.

Module CoreSyncFacts.
Import Outbox OutboxFacts CoreSync.

(** ** The chunked scan reads every billable user once, in order *)
Definition leb_uid (a b : CoreUser) : bool := cu_id a <=? cu_id b.

#[local] Instance leb_uid_order : TotalOrder leb_uid.
Proof. unfold leb_uid. split; intros; rewrite ?Is_true_true, ?Z.leb_le in *; lia. Qed.

Section scan.
Context (us : list CoreUser) (limit : nat).
Hypothesis Hids : NoDup (cu_id <$> us).
Hypothesis Hlimit : (0 < limit)%nat.

(** The billable users above an id, by id. *)
Definition above (last_id : Z) : list CoreUser :=
  sort_by leb_uid (filter (λ u, billable u = true ∧ last_id < cu_id u) us).

Lemma elem_of_above last_id u :
  u ∈ above last_id ↔ u ∈ us ∧ billable u = true ∧ last_id < cu_id u.
Proof. unfold above. rewrite elem_of_sort_by, list_elem_of_filter. tauto. Qed.

Lemma same_id u v : u ∈ us → v ∈ us → cu_id u = cu_id v → u = v.
Proof.
  intros [i Hi]%list_elem_of_lookup [j Hj]%list_elem_of_lookup Heq.
  assert (i = j) as ->; [|congruence].
  eapply (NoDup_lookup (cu_id <$> us)); [done| |]; rewrite list_lookup_fmap; [by rewrite Hi|].
  rewrite Hj. cbn. by rewrite Heq.
Qed.

Lemma above_NoDup last_id : NoDup (above last_id).
Proof.
  unfold above. rewrite sort_by_perm. apply NoDup_filter. by eapply NoDup_fmap_1.
Qed.

Lemma above_sorted last_id : StronglySorted (λ a b, leb_uid a b) (above last_id).
Proof. apply sort_by_sorted, _. Qed.

Lemma last_elem (l : list CoreUser) u : l ≠ [] → List.last l u ∈ l.
Proof.
  induction l as [|x l IH]; [done|]. intros _. destruct l as [|y l]; [constructor|].
  change (List.last (x :: y :: l) u) with (List.last (y :: l) u). constructor. by apply IH.
Qed.

Lemma sorted_last (l : list CoreUser) u x :
  StronglySorted (λ a b, leb_uid a b) l → x ∈ l → cu_id x ≤ cu_id (List.last l u).
Proof.
  induction l as [|y l IH]; intros Hs Hx; [by apply elem_of_nil in Hx|].
  inversion Hs as [|? ? Hs' Hall]; subst. destruct l as [|z l].
  - apply list_elem_of_singleton in Hx as ->. done.
  - change (List.last (y :: z :: l) u) with (List.last (z :: l) u).
    apply elem_of_cons in Hx as [->|Hx]; [|by apply IH].
    eapply Forall_forall in Hall; [|by apply (last_elem (z :: l) u)].
    unfold leb_uid in Hall. by rewrite Is_true_true, Z.leb_le in Hall.
Qed.

(** A sorted list cut at [n]: the rest is what lies above the last one taken. *)
Lemma above_cut last_id n u x :
  take n (above last_id) ≠ [] →
  x ∈ above (cu_id (List.last (take n (above last_id)) u)) ↔ x ∈ drop n (above last_id).
Proof.
  intros Hne. pose proof (last_elem _ u Hne) as Hlast. set (v := List.last _ u) in *.
  pose proof (above_sorted last_id) as Hss. pose proof (above_NoDup last_id) as Hnd.
  assert (Hmem : ∀ y, y ∈ above last_id ↔ y ∈ take n (above last_id) ∨ y ∈ drop n (above last_id)).
  { intros y. by rewrite <-(take_drop n (above last_id)) at 1; rewrite elem_of_app. }
  rewrite <-(take_drop n (above last_id)) in Hss, Hnd.
  apply StronglySorted_app in Hss as (Hcross & Hs1 & _). apply NoDup_app in Hnd as (_ & Hdisj & _).
  assert (v ∈ us ∧ last_id < cu_id v) as [Hvu Hvl].
  { assert (v ∈ above last_id) as Hv by (apply Hmem; by left).
    by apply elem_of_above in Hv as (? & _ & ?). }
  rewrite elem_of_above. split.
  - intros (Hxu & Hb & Hlt). assert (x ∈ above last_id) as Hx.
    { apply elem_of_above. split_and!; [done|done|lia]. }
    apply Hmem in Hx as [Hx|Hx]; [|done]. pose proof (sorted_last _ u x Hs1 Hx) as Hle.
    fold v in Hle. lia.
  - intros Hx. assert (x ∈ above last_id) as Hxa by (apply Hmem; by right).
    apply elem_of_above in Hxa as (Hxu & Hb & _). split_and!; [done|done|].
    specialize (Hcross v x Hlast Hx). unfold leb_uid in Hcross.
    rewrite Is_true_true, Z.leb_le in Hcross.
    destruct (decide (cu_id v = cu_id x)) as [E|]; [|lia].
    exfalso. apply (Hdisj v Hlast). by rewrite (same_id v x Hvu Hxu E).
Qed.

Lemma above_drop last_id n u :
  take n (above last_id) ≠ [] →
  above (cu_id (List.last (take n (above last_id)) u)) = drop n (above last_id).
Proof.
  intros Hne. pose proof (λ x, above_cut last_id n u x Hne) as Hmem.
  apply (StronglySorted_unique_strong (λ a b, leb_uid a b)).
  - intros x y Hx Hy H1 H2. apply Hmem in Hy. unfold leb_uid in *. rewrite Is_true_true, Z.leb_le in *.
    apply elem_of_above in Hx as (? & _), Hy as (? & _). apply same_id; [done|done|lia].
  - apply above_sorted.
  - pose proof (above_sorted last_id) as Hss. rewrite <-(take_drop n (above last_id)) in Hss.
    by apply StronglySorted_app in Hss as (_ & _ & ?).
  - apply NoDup_Permutation; [apply above_NoDup| |exact Hmem].
    eapply sublist_NoDup; [apply (above_NoDup last_id)|apply sublist_drop].
Qed.

Lemma scan_users_above fuel last_id :
  (length (above last_id) < fuel)%nat → scan_users fuel limit last_id us = Some (above last_id).
Proof.
  revert last_id. induction fuel as [|fuel IH]; intros last_id Hf; [lia|]. cbn [scan_users].
  change (user_batch limit last_id us) with (take limit (above last_id)).
  destruct (take limit (above last_id)) as [|u batch] eqn:E.
  - destruct (above last_id) as [|v l]; [done|]. destruct limit; [lia|done].
  - assert (take limit (above last_id) ≠ []) as Hne by (by rewrite E).
    rewrite <-E. rewrite IH.
    + cbn. f_equal. rewrite above_drop by done. apply take_drop.
    + rewrite above_drop by done. rewrite length_drop.
      assert (length (above last_id) ≠ 0%nat) by (by destruct (above last_id); destruct limit).
      lia.
Qed.

End scan.

(** The chunked scan of the users table (keyset pagination by primary key)
    terminates and returns exactly the billable users, each once and in order of
    id, for every batch size: reading by chunks is reading the whole table. *)
Theorem scan_complete us limit :
  NoDup (cu_id <$> us) → (0 < limit)%nat → (∀ u, u ∈ us → 0 < cu_id u) →
  ∃ l, scan_users (S (length us)) limit 0 us = Some l
    ∧ l ≡ₚ filter (λ u, billable u = true) us
    ∧ StronglySorted (λ a b, cu_id a < cu_id b) l.
Proof.
  intros Hnd Hlim Hpos. exists (above us 0). split_and!.
  - apply scan_users_above; [done|done|]. unfold above. rewrite sort_by_perm.
    pose proof (length_filter (λ u, billable u = true ∧ 0 < cu_id u) us). lia.
  - unfold above. rewrite sort_by_perm. apply NoDup_Permutation;
      [by apply NoDup_filter; eapply NoDup_fmap_1..|].
    intros u. rewrite !list_elem_of_filter. naive_solver.
  - pose proof (above_sorted us 0) as Hs. pose proof (above_NoDup us Hnd 0) as Hd.
    assert (∀ u, u ∈ above us 0 → u ∈ us) as Hin by (intros u Hu; by apply elem_of_above in Hu as (? & _)).
    revert Hs Hd Hin. generalize (above us 0). intros l Hs.
    induction Hs as [|u l Hs IH Hall]; intros Hd Hin; [constructor|]. inversion_clear Hd as [|? ? Hu Hd'].
    constructor; [apply IH; [done|intros; apply Hin; by constructor]|].
    apply Forall_forall. intros v Hv. eapply Forall_forall in Hall; [|exact Hv].
    unfold leb_uid in Hall. rewrite Is_true_true, Z.leb_le in Hall.
    destruct (decide (cu_id u = cu_id v)) as [E|]; [|lia]. exfalso. apply Hu.
    rewrite (same_id us Hnd u v); [done|apply Hin; constructor|apply Hin; by constructor|done].
Qed.
(** ** Loops over the core *)
Section loops.
Context {Core A : Type} (R : CoreState Core → CoreState Core → Prop) `{!PreOrder R}.

(** A loop whose turns keep [Inv], move along [R] and each establish a fact
    stable under [R]. *)
Lemma for_all_inv (l : list A) f (Inv : CoreState Core → Prop) (Q : A → CoreState Core → Prop) s :
  (∀ x s, x ∈ l → Inv s → ∃ s', f x s = (inr tt, s') ∧ Inv s' ∧ R s s' ∧ Q x s') →
  (∀ x s s', Q x s → R s s' → Q x s') →
  Inv s →
  ∃ s', for_all l f s = (inr tt, s') ∧ Inv s' ∧ R s s' ∧ ∀ x, x ∈ l → Q x s'.
Proof.
  intros Hf HQ. revert s. induction l as [|x l IH]; intros s Hinv; cbn.
  - exists s. split_and!; [done|done|done|]. intros x Hx. by apply elem_of_nil in Hx.
  - destruct (Hf x s) as (s1 & E1 & Hinv1 & HR1 & HQ1); [constructor|done|].
    destruct (IH (λ y s Hy, Hf y s (list_elem_of_further _ _ _ Hy)) s1 Hinv1)
      as (s2 & E2 & Hinv2 & HR2 & HQ2).
    exists s2. unfold mbind, prog_bind. rewrite E1. split_and!; [done|done|by etrans|].
    intros y [->|Hy]%elem_of_cons; eauto.
Qed.
End loops.

(** A left fold whose turns each add to a predicate, or keep an invariant. *)
Lemma foldl_or {A D} (f : D → A → D) (W : D → Prop) (G : A → Prop) l d :
  (∀ d x, W (f d x) ↔ W d ∨ G x) → W (foldl f d l) ↔ W d ∨ ∃ x, x ∈ l ∧ G x.
Proof.
  intros Hf. revert d. induction l as [|x l IH]; intros d; cbn.
  - split; [auto|]. intros [?|(x & Hx & _)]; [done|]. by apply elem_of_nil in Hx.
  - rewrite IH, Hf. split.
    + intros [[?|?]|(y & ? & ?)]; [by left|right; exists x; split; [constructor|done]|].
      right. exists y. split; [by constructor|done].
    + intros [?|(y & [->|?]%elem_of_cons & ?)]; [tauto|tauto|right; eauto].
Qed.

Lemma foldl_keeps {A D} (f : D → A → D) (I : D → Prop) l d :
  (∀ d x, I d → I (f d x)) → I d → I (foldl f d l).
Proof. intros Hf. revert d. induction l; cbn; auto. Qed.

(** ** What the users table asks for *)
Section desired.
Context (inbounds_by_tag : gmap string Inbound) (print_int : Z → string).

Definition wants (u : CoreUser) (t : string) : Prop :=
  ∃ pt tags, (pt, tags) ∈ cu_inbounds u ∧ t ∈ tags ∧ is_Some (cu_proxies u !! pt).

Lemma account_for_inbound_email u pt t a :
  _account_for_inbound inbounds_by_tag print_int u pt t = Some a → acc_email a = email_of print_int u.
Proof. unfold _account_for_inbound. destruct (cu_proxies u !! pt); [|done]. by intros [= <-]. Qed.

Lemma account_for_inbound_some u pt t :
  is_Some (_account_for_inbound inbounds_by_tag print_int u pt t) ↔ is_Some (cu_proxies u !! pt).
Proof.
  unfold _account_for_inbound. destruct (cu_proxies u !! pt); split; intros []; eauto; done.
Qed.

Lemma wanted_desire d t a t' e :
  e ∈ wanted (desire t a d) t' ↔ e ∈ wanted d t' ∨ (t' = t ∧ e = acc_email a).
Proof.
  unfold wanted, desire. destruct (decide (t = t')) as [->|Hne].
  - rewrite lookup_insert_eq. cbn. rewrite dom_insert. set_solver.
  - rewrite lookup_insert_ne by done. naive_solver.
Qed.

Lemma wanted_desired_of_user u d t e :
  e ∈ wanted (desired_of_user inbounds_by_tag print_int d u) t
  ↔ e ∈ wanted d t ∨ (wants u t ∧ e = email_of print_int u).
Proof.
  unfold desired_of_user.
  rewrite (foldl_or _ (λ d, e ∈ wanted d t)
    (λ p, (t ∈ p.2 ∧ is_Some (cu_proxies u !! p.1)) ∧ e = email_of print_int u)).
  - unfold wants. split; (intros [?|H]; [by left|right]).
    + destruct H as ([pt tags] & ? & [? ?] & ->). split; [|done]. by exists pt, tags.
    + destruct H as [(pt & tags & ? & ? & ?) ->]. by exists (pt, tags).
  - clear d. intros d [pt tags]. cbn [is_xray_proxy_held fst snd].
    rewrite (foldl_or _ (λ d, e ∈ wanted d t)
      (λ tag, (t = tag ∧ is_Some (cu_proxies u !! pt)) ∧ e = email_of print_int u)).
    + naive_solver.
    + clear d. intros d tag.
      pose proof (account_for_inbound_some u pt tag) as Hs.
      destruct (_account_for_inbound inbounds_by_tag print_int u pt tag) as [a|] eqn:E.
      * rewrite wanted_desire, (account_for_inbound_email _ _ _ _ E). naive_solver.
      * split; [by left|]. intros [?|[[_ Hp] _]]; [done|]. apply Hs in Hp. by destruct Hp.
Qed.

(** The desired users are the billable users of the table, on the inbounds their
    proxies reach. *)
Lemma wanted_build us t e :
  NoDup (cu_id <$> us) → (∀ u, u ∈ us → 0 < cu_id u) →
  e ∈ wanted (_build_desired_by_inbound inbounds_by_tag print_int us) t
  ↔ ∃ u, u ∈ us ∧ billable u = true ∧ wants u t ∧ e = email_of print_int u.
Proof.
  intros Hnd Hpos. unfold _build_desired_by_inbound.
  destruct (scan_complete us 500) as (l & -> & Hl & _); [done|lia|done|]. cbn [default].
  rewrite (foldl_or _ (λ d, e ∈ wanted d t) (λ u, wants u t ∧ e = email_of print_int u));
    [|intros d u; apply wanted_desired_of_user].
  unfold wanted. rewrite lookup_empty. cbn. rewrite dom_empty. split.
  - intros [?|(u & Hu & ? & ?)]; [set_solver|]. rewrite Hl in Hu.
    apply list_elem_of_filter in Hu as [? ?]. eauto.
  - intros (u & Hu & Hb & ? & ?). right. exists u. rewrite Hl. split; [|done].
    by apply list_elem_of_filter.
Qed.

(** Accounts are filed under their own email. *)
Definition keyed (d : Desired) : Prop :=
  ∀ t m e a, d !! t = Some m → m !! e = Some a → acc_email a = e.

Lemma keyed_desire t a d : keyed d → keyed (desire t a d).
Proof.
  intros Hk t' m e a'. unfold desire. destruct (decide (t = t')) as [->|Hne].
  - rewrite lookup_insert_eq. intros [= <-] [[<- <-]|[_ Hl]]%lookup_insert_Some; [done|].
    destruct (d !! t') as [m|] eqn:E; cbn in Hl; [by eapply Hk|]. by rewrite lookup_empty in Hl.
  - rewrite lookup_insert_ne by done. apply Hk.
Qed.

Lemma keyed_build us : keyed (_build_desired_by_inbound inbounds_by_tag print_int us).
Proof.
  unfold _build_desired_by_inbound. apply foldl_keeps; [|intros t m e a; by rewrite lookup_empty].
  intros d u Hd. unfold desired_of_user. apply foldl_keeps; [|done]. intros d' [pt tags] Hd'. cbn.
  apply foldl_keeps; [|done]. intros d'' tag Hd''.
  destruct (_account_for_inbound _ _ _ _ _); [by apply keyed_desire|done].
Qed.
End desired.

(** A loop whose turns keep [I] whatever they answer. *)
Lemma for_all_keeps {Core A} (I : CoreState Core → Prop) (l : list A) f s :
  (∀ x s, x ∈ l → I s → I (f x s).2) → I s → I (for_all l f s).2.
Proof.
  revert s. induction l as [|x l IH]; intros s Hf Hs; cbn; [done|].
  unfold mbind, prog_bind. pose proof (Hf x s (list_elem_of_here _ _) Hs) as H1.
  destruct (f x s) as [[o|[]] s1]; [done|]. apply IH; [|done].
  intros y s2 Hy. apply Hf. by constructor.
Qed.

Section facts.
Context {Core : Type} `{HL : HandlerLaws Core}.
Context (inbounds_by_tag : gmap string Inbound) (print_int : Z → string).
Notation CoreState := (CoreState Core).
Notation hot := (_inbound_supports_hot_sync inbounds_by_tag).

Definition has (s : CoreState) (t e : string) : Prop := is_Some (serves (live s) t e).

Definition grows (s s' : CoreState) : Prop := ∀ t e, has s t e → has s' t e.
#[local] Instance grows_preorder : PreOrder grows.
Proof. split; [intros s t e; auto|intros s1 s2 s3 H1 H2 t e Hh; auto]. Qed.

Definition shrinks (s s' : CoreState) : Prop := ∀ t e, has s' t e → has s t e.
#[local] Instance shrinks_preorder : PreOrder shrinks.
Proof. split; [intros s t e; auto|intros s1 s2 s3 H1 H2 t e Hh; auto]. Qed.

(** The registry agrees with the core on the inbounds [hot_tag]. *)
Definition registry_sound (hot_tag : string → bool) (s : CoreState) : Prop :=
  ∀ t e, hot_tag t = true → e ∈ registered_in s t ↔ has s t e.

(** Cores whose API answers: no call fails on the way. *)
Record Healthy (P : Core → Prop) : Prop := {
  healthy_add t a c : P c → P (add_inbound_user t a c).2
    ∧ ((add_inbound_user t a c).1 = ApiOk ∨ (add_inbound_user t a c).1 = EmailExistsError);
  healthy_remove t e c : P c → P (remove_inbound_user t e c).2
    ∧ ((remove_inbound_user t e c).1 = ApiOk ∨ (remove_inbound_user t e c).1 = EmailNotFoundError
       ∨ (remove_inbound_user t e c).1 = TagNotFoundError) }.

Lemma registered_in_register t e (s : CoreState) t' :
  registered_in (register t e s) t' =
  if decide (t = t') then {[ e ]} ∪ registered_in s t else registered_in s t'.
Proof.
  unfold registered_in, register. cbn. destruct (decide (t = t')) as [->|Hne].
  - by rewrite lookup_insert_eq.
  - by rewrite lookup_insert_ne.
Qed.

Lemma registered_in_unregister t e (s : CoreState) t' :
  registered_in (unregister t e s) t' =
  if decide (t = t') then registered_in s t ∖ {[ e ]} else registered_in s t'.
Proof.
  unfold registered_in, unregister. cbn. destruct (decide (t = t')) as [->|Hne].
  - rewrite lookup_alter_eq. destruct (registered s !! t'); cbn; [done|set_solver].
  - by rewrite lookup_alter_ne.
Qed.

Section healthy.
Context (P : Core → Prop) (HP : Healthy P).

Lemma api_add_user_ok t a (s : CoreState) :
  P (live s) →
  ∃ s', _api_add_user t a s = (inr tt, s') ∧ P (live s') ∧ has s' t (acc_email a)
    ∧ (∀ t' e', (t', e') ≠ (t, acc_email a) → serves (live s') t' e' = serves (live s) t' e')
    ∧ (∀ t', registered_in s' t' =
         if decide (t = t') then {[ acc_email a ]} ∪ registered_in s t else registered_in s t')
    ∧ (serves (live s) t (acc_email a) = None → serves (live s') t (acc_email a) = Some a).
Proof.
  intros Hs. pose proof (healthy_add P HP t a (live s) Hs) as [HP' Hout].
  pose proof (add_frame t a (live s)) as Hfr.
  destruct (add_inbound_user t a (live s)) as [o c] eqn:E. cbn in *.
  exists (register t (acc_email a) (s <| live := c |>)).
  unfold _api_add_user, mbind, prog_bind, call. rewrite E.
  assert (has (register t (acc_email a) (s <| live := c |>)) t (acc_email a)
    ∧ (serves (live s) t (acc_email a) = None → serves c t (acc_email a) = Some a)) as [H1 H2].
  { unfold has. cbn. destruct Hout as [-> | ->].
    - pose proof (add_ok _ _ _ _ E) as Ha. by rewrite Ha.
    - apply add_exists in E as [Hex Heq]. rewrite Heq. split; [done|].
      intros Hn. rewrite Hn in Hex. by destruct Hex. }
  split_and!; [by destruct Hout as [-> | ->]|done|done| | |done].
  - intros t' e' Hne. by apply Hfr.
  - intros t'. rewrite registered_in_register. done.
Qed.

Lemma api_remove_user_ok t e (s : CoreState) :
  P (live s) →
  ∃ s', _api_remove_user t e s = (inr tt, s') ∧ P (live s') ∧ serves (live s') t e = None
    ∧ (∀ t' e', (t', e') ≠ (t, e) → serves (live s') t' e' = serves (live s) t' e')
    ∧ (∀ t', registered_in s' t' =
         if decide (t = t') then registered_in s t ∖ {[ e ]} else registered_in s t').
Proof.
  intros Hs. pose proof (healthy_remove P HP t e (live s) Hs) as [HP' Hout].
  pose proof (remove_frame t e (live s)) as Hfr.
  destruct (remove_inbound_user t e (live s)) as [o c] eqn:E. cbn in *.
  exists (unregister t e (s <| live := c |>)).
  unfold _api_remove_user, mbind, prog_bind, call. rewrite E.
  split_and!; [by destruct Hout as [-> | [-> | ->]]|done|by eapply remove_gone| |].
  - intros t' e' Hne. by apply Hfr.
  - intros t'. rewrite registered_in_unregister. done.
Qed.

Lemma sound_after_add ht t a s s' :
  registry_sound ht s → has s' t (acc_email a) →
  (∀ t' e', (t', e') ≠ (t, acc_email a) → serves (live s') t' e' = serves (live s) t' e') →
  (∀ t', registered_in s' t' =
     if decide (t = t') then {[ acc_email a ]} ∪ registered_in s t else registered_in s t') →
  registry_sound ht s'.
Proof.
  intros Hs Hh Hfr Hreg t' e' Ht'. rewrite Hreg.
  destruct (decide ((t', e') = (t, acc_email a))) as [E|Hne].
  - injection E as -> ->. rewrite decide_True by done. set_solver.
  - unfold has. rewrite Hfr by done. fold (has s t' e'). rewrite <-(Hs t' e' Ht').
    case_decide; [subst; set_solver|done].
Qed.

Lemma sound_after_remove ht t e s s' :
  registry_sound ht s → serves (live s') t e = None →
  (∀ t' e', (t', e') ≠ (t, e) → serves (live s') t' e' = serves (live s) t' e') →
  (∀ t', registered_in s' t' =
     if decide (t = t') then registered_in s t ∖ {[ e ]} else registered_in s t') →
  registry_sound ht s'.
Proof.
  intros Hs Hn Hfr Hreg t' e' Ht'. rewrite Hreg.
  destruct (decide ((t', e') = (t, e))) as [E|Hne].
  - injection E as -> ->. rewrite decide_True by done. unfold has. rewrite Hn.
    rewrite is_Some_alt. set_solver.
  - unfold has. rewrite Hfr by done. fold (has s t' e'). rewrite <-(Hs t' e' Ht').
    case_decide; [subst; set_solver|done].
Qed.

(** *** The two loops of the hot sync *)
Section hot_sync.
Context (s0 : CoreState) (d : Desired).
Notation snap t := (registered_in s0 t).

Definition add_inv (s : CoreState) : Prop :=
  P (live s) ∧ registry_sound (hot s0) s
  ∧ (∀ t e, e ∈ snap t → serves (live s) t e = serves (live s0) t e)
  ∧ (∀ t e, has s t e → has s0 t e ∨ e ∈ wanted d t).

Lemma add_inv_turn t a s :
  acc_email a ∉ snap t → acc_email a ∈ wanted d t → add_inv s →
  ∃ s', _api_add_user t a s = (inr tt, s') ∧ add_inv s' ∧ grows s s' ∧ has s' t (acc_email a).
Proof.
  intros Hns Hw (Hp & Hsnd & Hkeep & Hsrc).
  destruct (api_add_user_ok t a s Hp) as (s' & E & Hp' & Hh & Hfr & Hreg & _).
  exists s'. split_and!; [done| | |done].
  - split_and!; [done|by eapply sound_after_add| |].
    + intros t' e' He'. rewrite Hfr; [by apply Hkeep|]. intros [= -> ->]. done.
    + intros t' e' Hh'. destruct (decide ((t', e') = (t, acc_email a))) as [Ee|Hne].
      * injection Ee as -> ->. by right.
      * apply Hsrc. unfold has in *. by rewrite Hfr in Hh'.
  - intros t' e' Hh'. destruct (decide ((t', e') = (t, acc_email a))) as [Ee|Hne].
    + by injection Ee as -> ->.
    + unfold has in *. by rewrite Hfr.
Qed.

Lemma add_missing_ok s :
  keyed d → add_inv s → (∀ t e, e ∈ snap t → hot s0 t = true → has s t e) →
  ∃ s', add_missing inbounds_by_tag s0 (registered s0) d s = (inr tt, s')
    ∧ add_inv s' ∧ grows s s'
    ∧ ∀ t e, hot s0 t = true → e ∈ wanted d t → has s' t e.
Proof.
  intros Hkeys Hinv Hold. unfold add_missing.
  destruct (for_all_inv grows (map_to_list d) (add_tag inbounds_by_tag s0 (registered s0)) add_inv
    (λ p s', hot s0 p.1 = true → ∀ e, e ∈ dom p.2 → e ∈ snap p.1 ∨ has s' p.1 e) s)
    as (s' & E & Hinv' & Hgr & HQ); [| |done|].
  - intros [t m] s1 Hin Hinv1. apply elem_of_map_to_list in Hin. unfold add_tag. cbn [fst snd].
    destruct (hot s0 t) eqn:Hhot; cbn [negb].
    2: { exists s1. split_and!; [done|done|done|]. cbn. congruence. }
    destruct (for_all_inv grows (map_to_list m) (add_one (registered s0) t) add_inv
      (λ q s', q.1 ∈ snap t ∨ has s' t q.1) s1) as (s2 & E2 & Hinv2 & Hgr2 & HQ2); [| |done|].
    + intros [e a] s3 Hea Hinv3. apply elem_of_map_to_list in Hea. unfold add_one. cbn [fst snd].
      change (default ∅ (registered s0 !! t)) with (snap t).
      case_bool_decide as Hsn.
      * exists s3. split_and!; [done|done|done|by left].
      * pose proof (Hkeys _ _ _ _ Hin Hea) as He. subst e.
        destruct (add_inv_turn t a s3) as (s4 & E4 & ? & ? & ?); [done| |done|].
        { unfold wanted. rewrite Hin. cbn. by eapply elem_of_dom_2. }
        exists s4. split_and!; [done|done|done|by right].
    + intros [e a] s3 s4 [?|?] Hg; [by left|right; by apply Hg].
    + exists s2. split_and!; [done|done|done|]. intros _ e [a Hea]%elem_of_dom.
      apply (HQ2 (e, a)). by apply elem_of_map_to_list.
  - intros [t m] s1 s2 Hq Hg Hhot e He. destruct (Hq Hhot e He); [by left|right; by apply Hg].
  - exists s'. split_and!; [done|done|done|]. intros t e Hhot He. unfold wanted in He.
    destruct (d !! t) as [m|] eqn:Ed; cbn in He; [|set_solver].
    destruct (HQ (t, m)) with (e := e) as [Hsn|]; [by apply elem_of_map_to_list|done|done| |done].
    apply Hgr. by apply Hold.
Qed.

Definition rem_inv (s1 s : CoreState) : Prop :=
  P (live s) ∧ registry_sound (hot s0) s
  ∧ (∀ t e, e ∈ wanted d t → serves (live s) t e = serves (live s1) t e).

Lemma rem_inv_turn s1 t e s :
  e ∉ wanted d t → rem_inv s1 s →
  ∃ s', _api_remove_user t e s = (inr tt, s') ∧ rem_inv s1 s' ∧ shrinks s s' ∧ ¬ has s' t e.
Proof.
  intros Hw (Hp & Hsnd & Hkeep).
  destruct (api_remove_user_ok t e s Hp) as (s' & E & Hp' & Hn & Hfr & Hreg).
  assert (¬ has s' t e) as Hno by (unfold has; rewrite Hn; by intros []).
  exists s'. split_and!; [done| | |done].
  - split_and!; [done|by eapply sound_after_remove|].
    intros t' e' He'. rewrite Hfr; [by apply Hkeep|]. by intros [= -> ->].
  - intros t' e' Hh'. destruct (decide ((t', e') = (t, e))) as [Ee|Hne].
    + by injection Ee as -> ->.
    + unfold has in *. by rewrite Hfr in Hh'.
Qed.

Lemma remove_unwanted_ok s1 s :
  rem_inv s1 s →
  ∃ s', remove_unwanted inbounds_by_tag s0 (registered s0) d s = (inr tt, s')
    ∧ rem_inv s1 s' ∧ shrinks s s'
    ∧ ∀ t e, hot s0 t = true → e ∈ snap t → e ∉ wanted d t → ¬ has s' t e.
Proof.
  intros Hinv. unfold remove_unwanted.
  destruct (for_all_inv shrinks (map_to_list (registered s0)) (remove_tag inbounds_by_tag s0 d) (rem_inv s1)
    (λ p s', hot s0 p.1 = true → ∀ e, e ∈ p.2 ∖ wanted d p.1 → ¬ has s' p.1 e) s)
    as (s' & E & Hinv' & Hsh & HQ); [| |done|].
  - intros [t es] s2 _ Hinv2. unfold remove_tag. cbn [fst snd]. destruct (hot s0 t) eqn:Hhot; cbn [negb].
    2: { exists s2. split_and!; [done|done|done|]. cbn. congruence. }
    destruct (for_all_inv shrinks (elements (es ∖ wanted d t)) (_api_remove_user t) (rem_inv s1)
      (λ e s', ¬ has s' t e) s2) as (s3 & E3 & Hinv3 & Hsh3 & HQ3); [| |done|].
    + intros e s4 He Hinv4. apply elem_of_elements, elem_of_difference in He as [_ He].
      by apply rem_inv_turn.
    + intros e s4 s5 Hn Hs Hh. by apply Hn, Hs.
    + exists s3. split_and!; [done|done|done|]. intros _ e He. apply HQ3. by apply elem_of_elements.
  - intros [t es] s2 s3 Hq Hs Hhot e He Hh. by apply (Hq Hhot e He), Hs.
  - exists s'. split_and!; [done|done|done|]. intros t e Hhot He Hw. unfold registered_in in He.
    destruct (registered s0 !! t) as [es|] eqn:Er; cbn in He; [|set_solver].
    apply (HQ (t, es)); [by apply elem_of_map_to_list|done|]. cbn. set_solver.
Qed.
End hot_sync.

End healthy.


(** ** Single users *)

(** Only the accounts of [emails] may change. *)
Definition only_emails (emails : gset string) (s s' : CoreState) : Prop :=
  shrinks s s' ∧ ∀ t e, e ∉ emails → serves (live s') t e = serves (live s) t e.
#[local] Instance only_emails_preorder emails : PreOrder (only_emails emails).
Proof.
  split.
  - intros s. by split.
  - intros s1 s2 s3 [H1 F1] [H2 F2]. split; [by etrans|]. intros t e He. rewrite F2, F1; done.
Qed.

(** Disconnecting users on a reachable core: afterwards no hot inbound
    serves any of them, every other account is untouched, and the registry
    agrees with the core. *)
Theorem hot_disconnect_cuts (P : Core → Prop) us (s : CoreState) :
  let s0 := ensure_registry s in
  Healthy P → P (live s) → core_reachable s = true → registry_sound (hot s0) s0 →
  ∃ s', hot_disconnect_users inbounds_by_tag print_int us s = (inr true, s')
    ∧ (∀ t u, hot s0 t = true → u ∈ us → ¬ has s' t (email_of print_int u))
    ∧ (∀ t e, (∀ u, u ∈ us → e ≠ email_of print_int u) → serves (live s') t e = serves (live s) t e)
    ∧ (us ≠ [] → registry_sound (hot s0) s').
Proof.
  intros s0 HP Hp Hreach Hsound. unfold hot_disconnect_users. case_bool_decide as Hus.
  { subst us. exists s. split_and!; [done| |done|done]. intros t u _ Hu. by apply elem_of_nil in Hu. }
  assert (live s0 = live s) as Hlive by (unfold s0, ensure_registry; by case_match).
  set (emails := list_to_set (email_of print_int <$> us) : gset string).
  destruct (for_all_inv (only_emails emails) (map_to_list (registered s0))
    (disconnect_tag inbounds_by_tag s0 emails) (λ s, P (live s) ∧ registry_sound (hot s0) s)
    (λ p s', hot s0 p.1 = true → ∀ e, e ∈ emails ∩ p.2 → ¬ has s' p.1 e) s0)
    as (s' & E & [Hp' Hs'] & [Hsh Hfr] & HQ).
  - intros [t es] s1 _ [Hp1 Hs1]. unfold disconnect_tag. cbn [fst snd].
    destruct (hot s0 t) eqn:Hhot; cbn [negb]; [|exists s1; split_and!; done].
    destruct (for_all_inv (only_emails emails) (elements (emails ∩ es)) (_api_remove_user t)
      (λ s, P (live s) ∧ registry_sound (hot s0) s) (λ e s', ¬ has s' t e) s1)
      as (s2 & E2 & Hi2 & HR2 & HQ2); [| |done|].
    + intros e s3 [He _]%elem_of_elements%elem_of_intersection [Hp3 Hs3].
      destruct (api_remove_user_ok P HP t e s3 Hp3) as (s4 & E4 & Hp4 & Hn & Hfr4 & Hreg4).
      assert (¬ has s4 t e) as Hno by (unfold has; rewrite Hn; by intros []).
      exists s4. split_and!; [done|done|by eapply sound_after_remove| |done].
      split; [|intros t' e' He'; apply Hfr4; congruence].
      intros t' e' Hh'. destruct (decide ((t', e') = (t, e))) as [Ee|Hne]; [by injection Ee as -> ->|].
      unfold has in *. by rewrite Hfr4 in Hh'.
    + intros e s3 s4 Hn [Hs3 _] Hh. by apply Hn, Hs3.
    + destruct Hi2. exists s2. split_and!; [done|done|done|done|].
      intros _ e He. apply HQ2. by apply elem_of_elements.
  - intros [t es] s1 s2 Hq [Hs1 _] Hhot e He Hh. by apply (Hq Hhot e He), Hs1.
  - split; [by rewrite Hlive|done].
  - exists s'. split_and!; [| | |done].
    + unfold mbind, prog_bind, get_state, _ensure_registry_current, put_state.
      rewrite Hreach. cbn [negb]. fold s0. cbn [id]. fold emails. by rewrite E.
    + intros t u Hhot Hu Hh. assert (email_of print_int u ∈ emails) as Hem.
      { apply elem_of_list_to_set, list_elem_of_fmap. eauto. }
      assert (email_of print_int u ∈ registered_in s0 t) as Hr by (apply Hsound; [done|by apply Hsh]).
      unfold registered_in in Hr. destruct (registered s0 !! t) as [es|] eqn:Er; cbn in Hr; [|set_solver].
      apply (HQ (t, es)) in Hh; [done|by apply elem_of_map_to_list|done|]. cbn. set_solver.
    + intros t e He. rewrite Hfr, Hlive; [done|]. intros Hin.
      apply elem_of_list_to_set, list_elem_of_fmap in Hin as (u & -> & Hu). by apply (He u).
Qed.

(** An account of [u] on [t] is the one some proxy of the user gives. *)
Definition pushed (u : CoreUser) (t : string) (s : CoreState) : Prop :=
  ∃ pt tags a, (pt, tags) ∈ cu_inbounds u ∧ t ∈ tags
    ∧ _account_for_inbound inbounds_by_tag print_int u pt t = Some a
    ∧ serves (live s) t (email_of print_int u) = Some a.

(** Pushing one user keeps what was pushed, and other emails. *)
Definition pushes (u : CoreUser) (s s' : CoreState) : Prop :=
  (∀ t, pushed u t s → pushed u t s')
  ∧ ∀ t e, e ≠ email_of print_int u → serves (live s') t e = serves (live s) t e.
#[local] Instance pushes_preorder u : PreOrder (pushes u).
Proof.
  split.
  - intros s. by split.
  - intros s1 s2 s3 [H1 F1] [H2 F2]. split; [auto|]. intros t e He. by rewrite F2, F1.
Qed.

Lemma sync_user_tag_ok (P : Core → Prop) (HP : Healthy P) s0 u pt tags t s :
  P (live s) → (pt, tags) ∈ cu_inbounds u → t ∈ tags →
  ∃ s', sync_user_tag inbounds_by_tag print_int s0 u pt t s = (inr tt, s')
    ∧ P (live s') ∧ pushes u s s'
    ∧ (hot s0 t = true → is_Some (cu_proxies u !! pt) → pushed u t s').
Proof.
  intros Hp Hpt Ht. unfold sync_user_tag. destruct (hot s0 t); cbn [negb is_xray_proxy_held].
  2: { exists s. by split_and!. }
  pose proof (account_for_inbound_some inbounds_by_tag print_int u pt t) as Hsome.
  destruct (_account_for_inbound inbounds_by_tag print_int u pt t) as [a|] eqn:Ea.
  2: { exists s. split_and!; [done|done|done|]. intros _ Hs%Hsome. by destruct Hs. }
  pose proof (account_for_inbound_email _ _ _ _ _ _ Ea) as Hem.
  destruct (api_remove_user_ok P HP t (email_of print_int u) s Hp) as (s1 & E1 & Hp1 & Hn1 & Hfr1 & _).
  destruct (api_add_user_ok P HP t a s1 Hp1) as (s2 & E2 & Hp2 & _ & Hfr2 & _ & Hnew).
  rewrite Hem in *. specialize (Hnew Hn1).
  assert (pushed u t s2) as Hpushed by (by exists pt, tags, a).
  exists s2. unfold mbind, prog_bind. rewrite E1, E2. split_and!; [done|done| |done].
  split.
  - intros t' Hold. destruct (decide (t' = t)) as [->|Hne]; [done|].
    destruct Hold as (pt' & tags' & a' & ? & ? & ? & Hsv). exists pt', tags', a'.
    split_and!; [done|done|done|]. by rewrite Hfr2, Hfr1 by congruence.
  - intros t' e' He'. by rewrite Hfr2, Hfr1 by congruence.
Qed.

(** Pushing one billable user to a running core: on every hot inbound one of
    the user's proxies reaches, the core ends up with the account that proxy
    gives now - changed credentials replace the old ones - and no other email
    is touched. *)
Theorem sync_user_pushes (P : Core → Prop) u (s : CoreState) :
  Healthy P → P (live s) → started s = true → restarting s = false → billable u = true →
  ∃ s', sync_main_core_user inbounds_by_tag print_int u s = (inr tt, s')
    ∧ (∀ t, hot (ensure_registry s) t = true → wants u t → pushed u t s')
    ∧ (∀ t e, e ≠ email_of print_int u → serves (live s') t e = serves (live s) t e).
Proof.
  intros HP Hp Hst Hre Hb. set (s0 := ensure_registry s).
  assert (live s0 = live s) as Hlive by (unfold s0, ensure_registry; by case_match).
  destruct (for_all_inv (pushes u) (cu_inbounds u) (sync_user_proxy inbounds_by_tag print_int s0 u)
    (λ s, P (live s)) (λ p s', ∀ t, t ∈ p.2 → hot s0 t = true → is_Some (cu_proxies u !! p.1) → pushed u t s') s0)
    as (s' & E & _ & [_ Hfr] & HQ).
  - intros [pt tags] s1 Hpt Hp1. unfold sync_user_proxy. cbn [fst snd].
    destruct (for_all_inv (pushes u) tags (sync_user_tag inbounds_by_tag print_int s0 u pt)
      (λ s, P (live s)) (λ t s', hot s0 t = true → is_Some (cu_proxies u !! pt) → pushed u t s') s1)
      as (s2 & E2 & Hp2 & HR2 & HQ2); [| |done|by exists s2].
    + intros t s3 Ht Hp3. by eapply sync_user_tag_ok.
    + intros t s3 s4 Hq [Hk _] Hh Hsm. by apply Hk, Hq.
  - intros [pt tags] s1 s2 Hq [Hk _] t Ht Hh Hsm. apply Hk. by eapply Hq.
  - by rewrite Hlive.
  - exists s'. split_and!.
    + unfold sync_main_core_user. rewrite Hb. cbn [negb].
      unfold mbind, prog_bind, get_state, _ensure_registry_current, put_state.
      rewrite Hst, Hre. cbn [negb andb is_protocol_held]. unfold mret, prog_ret. fold s0. cbn [id].
      by rewrite E.
    + intros t Hh (pt & tags & Hpt & Ht & Hsm). by apply (HQ (pt, tags)).
    + intros t e He. by rewrite Hfr, Hlive.
Qed.

(** ** Accounts the sync leaves alone *)

(** Same generation, and the same service and registration of [(t, e)]. *)
Definition same_at (t e : string) (s s' : CoreState) : Prop :=
  serves (live s') t e = serves (live s) t e
  ∧ (e ∈ registered_in s' t ↔ e ∈ registered_in s t)
  ∧ config_generation s' = config_generation s
  ∧ registry_generation s' = registry_generation s.

Lemma api_add_user_frame t a s t' e' :
  (t', e') ≠ (t, acc_email a) → same_at t' e' s (_api_add_user t a s).2.
Proof.
  intros Hne. unfold _api_add_user, mbind, prog_bind, call.
  pose proof (add_frame t a (live s) t' e' Hne) as Hfr.
  destruct (add_inbound_user t a (live s)) as [o c]. cbn in Hfr.
  destruct o; cbn [snd put_state throw]; unfold same_at;
    (split_and!; [exact Hfr| |done|done]); try done;
    rewrite registered_in_register; (case_decide; [subst; set_solver|done]).
Qed.

Lemma api_remove_user_frame t e s t' e' :
  (t', e') ≠ (t, e) → same_at t' e' s (_api_remove_user t e s).2.
Proof.
  intros Hne. unfold _api_remove_user, mbind, prog_bind, call.
  pose proof (remove_frame t e (live s) t' e' Hne) as Hfr.
  destruct (remove_inbound_user t e (live s)) as [o c]. cbn in Hfr.
  destruct o; cbn [snd put_state throw]; unfold same_at;
    (split_and!; [exact Hfr| |done|done]); try done;
    rewrite registered_in_unregister; (case_decide; [subst; set_solver|done]).
Qed.

Lemma same_at_trans t e s1 s2 s3 : same_at t e s1 s2 → same_at t e s2 s3 → same_at t e s1 s3.
Proof. unfold same_at. intros (-> & -> & -> & ->) (-> & -> & -> & ->). done. Qed.

Lemma same_at_refl t e s : same_at t e s s.
Proof. done. Qed.

(** The hot sync touches neither an account both registered and wanted nor one
    that is neither, whatever the API answers. *)
Lemma hot_sync_untouched us s t e :
  config_generation s = registry_generation s →
  (e ∈ registered_in s t ↔ e ∈ wanted (_build_desired_by_inbound inbounds_by_tag print_int us) t) →
  same_at t e s (hot_sync_main_core inbounds_by_tag print_int us s).2.
Proof.
  intros Hgen Hiff. unfold hot_sync_main_core, mbind, prog_bind, get_state, _ensure_registry_current, put_state.
  destruct (core_reachable s); cbn [negb]; [|done].
  assert (ensure_registry s = s) as -> by (unfold ensure_registry; by rewrite Hgen, Z.eqb_refl).
  cbn [id]. set (d := _build_desired_by_inbound inbounds_by_tag print_int us) in *.
  destruct (_core_user_diff_requires_restart _ _ _ _); [done|].
  assert (same_at t e s (add_missing inbounds_by_tag s (registered s) d s).2) as Hadd.
  { unfold add_missing. apply (for_all_keeps (same_at t e s)); [|done].
    intros [t1 m] s1 Hin1 Hs1. unfold add_tag. cbn [fst snd]. apply elem_of_map_to_list in Hin1.
    destruct (hot s t1); cbn [negb]; [|done].
    apply (for_all_keeps (same_at t e s)); [|done]. intros [e1 a] s2 Hin2 Hs2. unfold add_one. cbn [fst snd].
    apply elem_of_map_to_list in Hin2. case_bool_decide as Hn; [done|].
    eapply same_at_trans; [done|]. apply api_add_user_frame. intros [= -> Ee].
    pose proof (keyed_build inbounds_by_tag print_int us _ _ _ _ Hin1 Hin2) as Hk.
    apply Hn. change (e1 ∈ registered_in s t1). rewrite <-Hk, <-Ee. apply Hiff.
    unfold wanted. fold d in Hin1. rewrite Hin1. cbn. rewrite Ee, Hk. by eapply elem_of_dom_2. }
  destruct (add_missing _ _ _ _ _) as [[o|[]] s1]; [done|]. cbn [snd] in Hadd.
  assert (same_at t e s (remove_unwanted inbounds_by_tag s (registered s) d s1).2) as Hrem.
  { unfold remove_unwanted. apply (for_all_keeps (same_at t e s)); [|done].
    intros [t1 es] s2 Hin1 Hs2. unfold remove_tag. cbn [fst snd]. apply elem_of_map_to_list in Hin1.
    destruct (hot s t1); cbn [negb]; [|done].
    apply (for_all_keeps (same_at t e s)); [|done]. intros e1 s3 He1 Hs3.
    eapply same_at_trans; [done|]. apply api_remove_user_frame. intros [= -> ->].
    apply elem_of_elements, elem_of_difference in He1 as [He1 Hnw].
    apply Hnw, Hiff. unfold registered_in. by rewrite Hin1. }
  by destruct (remove_unwanted _ _ _ _ _) as [[o|[]] s2].
Qed.

Definition hot_syncs (tables : list (list CoreUser)) (s : CoreState) : CoreState :=
  foldl (λ s us, (hot_sync_main_core inbounds_by_tag print_int us s).2) s tables.

Lemma hot_syncs_untouched tables s t e :
  config_generation s = registry_generation s →
  Forall (λ us, e ∈ registered_in s t ↔
    e ∈ wanted (_build_desired_by_inbound inbounds_by_tag print_int us) t) tables →
  same_at t e s (hot_syncs tables s).
Proof.
  revert s. induction tables as [|us tables IH]; intros s Hgen Hall; [done|].
  inversion_clear Hall as [|? ? Hus Hall']. cbn.
  pose proof (hot_sync_untouched us s t e Hgen Hus) as Hs1.
  eapply same_at_trans; [exact Hs1|]. destruct Hs1 as (_ & Hreg & Hg1 & Hg2). apply IH; [congruence|].
  eapply Forall_impl; [exact Hall'|]. cbn. intros us' Hus'. by rewrite Hreg.
Qed.

(** A connection error leaves a user out of service for good: the push
    that failed is recorded as done, and however often the periodic sync runs
    afterwards - with the user still billable every time, until the core
    restarts - the core never serves them. *)
Theorem connection_error_hides_user tables s t a c :
  config_generation s = registry_generation s →
  add_inbound_user t a (live s) = (ConnectionError, c) →
  serves c t (acc_email a) = None →
  Forall (λ us, acc_email a ∈ wanted (_build_desired_by_inbound inbounds_by_tag print_int us) t) tables →
  (_api_add_user t a s).1 = inr tt
  ∧ serves (live (hot_syncs tables (_api_add_user t a s).2)) t (acc_email a) = None.
Proof.
  intros Hgen E Hn Hall.
  assert (_api_add_user t a s = (inr tt, register t (acc_email a) (s <| live := c |>))) as ->.
  { unfold _api_add_user, mbind, prog_bind, call. by rewrite E. }
  split; [done|]. cbn [snd].
  destruct (hot_syncs_untouched tables (register t (acc_email a) (s <| live := c |>)) t (acc_email a))
    as (-> & _); [done| |done].
  eapply Forall_impl; [exact Hall|]. cbn. intros us Hus.
  rewrite registered_in_register, decide_True by done. set_solver.
Qed.

(** The same for removals: after a connection error the email counts as
    removed, and the core goes on serving a user no table wants, however often
    the periodic sync runs. *)
Theorem connection_error_keeps_user tables s t e c acc :
  config_generation s = registry_generation s →
  remove_inbound_user t e (live s) = (ConnectionError, c) →
  serves c t e = Some acc →
  Forall (λ us, e ∉ wanted (_build_desired_by_inbound inbounds_by_tag print_int us) t) tables →
  (_api_remove_user t e s).1 = inr tt
  ∧ serves (live (hot_syncs tables (_api_remove_user t e s).2)) t e = Some acc.
Proof.
  intros Hgen E Hn Hall.
  assert (_api_remove_user t e s = (inr tt, unregister t e (s <| live := c |>))) as ->.
  { unfold _api_remove_user, mbind, prog_bind, call. by rewrite E. }
  split; [done|]. cbn [snd].
  destruct (hot_syncs_untouched tables (unregister t e (s <| live := c |>)) t e)
    as (-> & _); [done| |done].
  eapply Forall_impl; [exact Hall|]. cbn. intros us Hus.
  rewrite registered_in_unregister, decide_True by done. set_solver.
Qed.

End facts.
End CoreSyncFacts.

(** ** A core with the documented behaviour, and the theorems on it *)
Module CoreSyncExamples.
Import Outbox CoreSync CoreSyncFacts.

Record RefCore := mkRefCore { accounts : gmap (string * string) Account; answering : bool }.

#[export] Instance ref_service : HandlerService RefCore := {
  serves c t e := accounts c !! (t, e);
  sys_stats c := answering c;
  add_inbound_user t a c :=
    if negb (answering c) then (ConnectionError, c)
    else match accounts c !! (t, acc_email a) with
         | Some _ => (EmailExistsError, c)
         | None => (ApiOk, mkRefCore (<[(t, acc_email a) := a]> (accounts c)) (answering c))
         end;
  remove_inbound_user t e c :=
    if negb (answering c) then (ConnectionError, c)
    else match accounts c !! (t, e) with
         | Some _ => (ApiOk, mkRefCore (delete (t, e) (accounts c)) (answering c))
         | None => (EmailNotFoundError, c)
         end }.

#[export] Instance ref_laws : HandlerLaws RefCore.
Proof.
  split; cbn.
  - intros t a c t' e' Hne. destruct (answering c); cbn; [|done].
    destruct (accounts c !! (t, acc_email a)); [done|]. cbn. by rewrite lookup_insert_ne.
  - intros t a c c'. destruct (answering c); cbn; [|done].
    destruct (accounts c !! (t, acc_email a)); [done|]. intros [= <-]. cbn. apply lookup_insert_eq.
  - intros t a c c'. destruct (answering c); cbn; [|done].
    destruct (accounts c !! (t, acc_email a)) eqn:E; [|done]. intros [= <-]. rewrite E. split; eauto.
  - intros t e c t' e' Hne. destruct (answering c); cbn; [|done].
    destruct (accounts c !! (t, e)); [|done]. cbn. by rewrite lookup_delete_ne.
  - intros t e c c' o. destruct (answering c); cbn; [|by intros [= <- <-] [?|[?|?]]].
    destruct (accounts c !! (t, e)) eqn:E; intros [= <- <-] _; cbn; [apply lookup_delete_eq|done].
Qed.

Lemma ref_healthy : Healthy (λ c : RefCore, answering c = true).
Proof.
  split; cbn; intros t x c Hc; rewrite Hc; cbn.
  - destruct (accounts c !! (t, acc_email x)); cbn; auto.
  - destruct (accounts c !! (t, x)); cbn; auto.
Qed.

Definition vless_in : Inbound := mkInbound "vless" None None None (Some "tls") None.
Definition demo_inbounds : gmap string Inbound := {[ "in" := vless_in ]}.
Definition demo_print (z : Z) : string := if z =? 1 then "1" else "2".
Definition demo_user (i : Z) (st : UserStatus) : CoreUser :=
  mkCoreUser i "ali" st {[ "vless" := mkCreds "uuid" None false ]} [("vless", ["in"])] None None.
Definition demo_account (i : Z) : Account :=
  mkAccount (demo_print i +:+ ".ali") 0 (Some "") "uuid" false.

(** The core serves user 1; user 2 is new, user 1 is disabled. *)
Definition demo_core (ans : bool) : CoreState RefCore :=
  mkCoreState (mkRefCore {[ ("in", "1.ali") := demo_account 1 ]} ans) true false 0 (Some [])
    {[ "in" := {[ "1.ali" ]} ]} 0.

Definition demo_users : list CoreUser := [demo_user 1 disabled; demo_user 2 active].

Lemma demo_sound ans : registry_sound (_inbound_supports_hot_sync demo_inbounds (demo_core ans)) (demo_core ans).
Proof.
  intros t e _. unfold registered_in, has. cbn. destruct (decide (t = "in")) as [->|Hne].
  - rewrite lookup_singleton_eq. cbn. rewrite elem_of_singleton. destruct (decide (e = "1.ali")) as [->|He].
    + rewrite lookup_singleton_eq. split; eauto.
    + rewrite lookup_singleton_ne by congruence. split; [done|]. by intros [].
  - rewrite lookup_singleton_ne by done. rewrite lookup_singleton_ne by congruence.
    cbn. split; [set_solver|]. by intros [].
Qed.

Lemma scan_complete_witness :
  ∃ l, scan_users 3 1 0 demo_users = Some l ∧ l ≡ₚ [demo_user 2 active].
Proof.
  destruct (scan_complete demo_users 1) as (l & E & Hl & _).
  - apply NoDup_cons. split; [|apply NoDup_singleton]. by intros ?%list_elem_of_singleton.
  - lia.
  - intros u [->|[->|?]%elem_of_cons]%elem_of_cons; [done|done|by apply elem_of_nil in H].
  - exists l. split; [exact E|exact Hl].
Defined.


(** The same sync evaluated: the core serves user 2 and not user 1. *)
Example hot_sync_run :
  let s' := (hot_sync_main_core demo_inbounds demo_print demo_users (demo_core true)).2 in
  (serves (live s') "in" "1.ali", serves (live s') "in" "2.ali") = (None, Some (demo_account 2)).
Proof. vm_compute. reflexivity. Qed.

Lemma hot_disconnect_cuts_witness :
  ∃ s', hot_disconnect_users demo_inbounds demo_print [demo_user 1 disabled] (demo_core true) = (inr true, s')
    ∧ ¬ has s' "in" "1.ali".
Proof.
  destruct (hot_disconnect_cuts demo_inbounds demo_print (λ c, answering c = true)
    [demo_user 1 disabled] (demo_core true)) as (s' & E & Hno & _).
  - apply ref_healthy.
  - reflexivity.
  - reflexivity.
  - apply demo_sound.
  - exists s'. split; [exact E|]. apply (Hno "in" (demo_user 1 disabled)); [vm_compute; reflexivity|constructor].
Defined.

Lemma sync_user_pushes_witness :
  ∃ s', sync_main_core_user demo_inbounds demo_print (demo_user 2 active) (demo_core true) = (inr tt, s')
    ∧ pushed demo_inbounds demo_print (demo_user 2 active) "in" s'.
Proof.
  destruct (sync_user_pushes demo_inbounds demo_print (λ c, answering c = true)
    (demo_user 2 active) (demo_core true)) as (s' & E & Hp & _).
  - apply ref_healthy.
  - reflexivity.
  - reflexivity.
  - reflexivity.
  - reflexivity.
  - exists s'. split; [exact E|]. apply Hp; [vm_compute; reflexivity|].
    exists "vless", ["in"]. split; [constructor|]. split; [constructor|]. eexists. reflexivity.
Defined.

Lemma connection_error_hides_user_witness :
  serves (live (hot_syncs demo_inbounds demo_print [demo_users]
    (_api_add_user "in" (demo_account 2) (demo_core false)).2)) "in" "2.ali" = None.
Proof.
  destruct (connection_error_hides_user demo_inbounds demo_print [demo_users] (demo_core false) "in"
    (demo_account 2) (live (demo_core false))) as [_ H].
  - reflexivity.
  - reflexivity.
  - reflexivity.
  - constructor; [|constructor].
    apply (proj2 (elem_of_dom _ _)). exists (demo_account 2). vm_compute. reflexivity.
  - exact H.
Defined.

Lemma connection_error_keeps_user_witness :
  serves (live (hot_syncs demo_inbounds demo_print [demo_users]
    (_api_remove_user "in" "1.ali" (demo_core false)).2)) "in" "1.ali" = Some (demo_account 1).
Proof.
  destruct (connection_error_keeps_user demo_inbounds demo_print [demo_users] (demo_core false) "in"
    "1.ali" (live (demo_core false)) (demo_account 1)) as [_ H].
  - reflexivity.
  - reflexivity.
  - reflexivity.
  - constructor; [|constructor]. apply not_elem_of_dom. vm_compute. reflexivity.
  - exact H.
Defined.
End CoreSyncExamples.
