(* ===== verification/SyncApply.v ===== *)
(** * SyncApply: applying an outbox row to the main core and its read-back ACK

    [apply_action] of [app/sync/hot_apply.py] and [confirm_action] of
    [app/sync/ack.py], as [_apply_row] of the outbox runs them one after the
    other.  Only the panel's own core is modelled: pushes to remote nodes,
    Finalmask slots and sing-box run in background threads or swallow their
    errors, and decide nothing.  A raised [RuntimeError] or [AckError] is the
    answer [false]; an API exception nobody catches ends the program. *)
From S2P Require Import Prelude Store Outbox CoreSync.

Module SyncApply.
Import Outbox CoreSync.

Inductive Probe := Present | NoTag | Absent | ProbeFailed.
#[export] Instance Probe_eq_dec : EqDecision Probe.
Proof. solve_decision. Defined.

Section apply.
Context {Core : Type} `{HS : HandlerService Core}.
Context (inbounds_by_tag : gmap string Inbound) (print_int : Z → string).
Notation Prog := (Prog Core).
Notation CoreState := (CoreState Core).

(** [email_present]: the probe is an add. *)
Definition email_present (tag : string) (a : Account) : Prog Probe :=
  o ← call (add_inbound_user tag a);
  match o with
  | ApiOk | EmailExistsError => mret Present
  | TagNotFoundError => mret NoTag
  | ConnectionError | TimeoutError => mret ProbeFailed
  | _ => throw o
  end.

(** [email_absent]: the probe is a removal. *)
Definition email_absent (tag email : string) : Prog Probe :=
  o ← call (remove_inbound_user tag email);
  match o with
  | ApiOk | EmailNotFoundError | TagNotFoundError => mret Absent
  | ConnectionError | TimeoutError => mret ProbeFailed
  | _ => throw o
  end.

(** Run a probe for every element; true when none failed. *)
Fixpoint probe_all {A} (l : list A) (f : A → Prog Probe) : Prog bool :=
  match l with
  | [] => mret true
  | x :: l =>
      p ← f x;
      rest ← probe_all l f;
      mret (negb (bool_decide (p = ProbeFailed)) && rest)
  end.

Definition present_probe (p : string * Account) : Prog Probe :=
  if bool_decide (is_Some (inbounds_by_tag !! p.1)) then email_present p.1 p.2 else mret NoTag.

Definition _confirm_present (accounts : list (string * Account)) : Prog bool :=
  if bool_decide (accounts.*1 = []) then mret true
  else
  up ← get_state core_reachable;
  if negb up then mret true else probe_all accounts present_probe.

Definition _confirm_absent (email : string) (tags : list string) : Prog bool :=
  if bool_decide (email = "") || bool_decide (tags = []) then mret true
  else
  up ← get_state core_reachable;
  if negb up then mret true else probe_all tags (λ t, email_absent t email).

Definition tags_of : list string := (map_to_list inbounds_by_tag).*1.

Definition hot_tags (s : CoreState) : list string :=
  filter (λ t, _inbound_supports_hot_sync inbounds_by_tag s t = true) tags_of.

Definition payload_email (p : Payload) : string := default "" (pl_email p).

Definition adds (action : string) : bool :=
  bool_decide (action = "add" ∨ action = "protocol_change" ∨ action = "quota_cap").

(** [u] is the user row, [None] once it is gone. *)
Definition confirm_action (action : string) (u : option CoreUser) (payload : Payload) : Prog bool :=
  let action := strip action in
  s ← get_state id;
  if bool_decide (action = "delete") then _confirm_absent (payload_email payload) (hot_tags s)
  else match u with
  | None =>
      if bool_decide (action = "disable") then _confirm_absent (payload_email payload) (hot_tags s)
      else mret (adds action)
  | Some u =>
      if adds action then _confirm_present (iter_user_hot_accounts inbounds_by_tag print_int s u)
      else if bool_decide (action = "disable") then _confirm_absent (email_of print_int u) (hot_tags s)
      else mret false
  end.

Definition delete_tag (s0 : CoreState) (email tag : string) : Prog unit :=
  if negb (_inbound_supports_hot_sync inbounds_by_tag s0 tag) then mret tt
  else _api_remove_user tag email.

Definition apply_delete (payload : Payload) : Prog unit :=
  if bool_decide (payload_email payload = "") then mret tt
  else
  s ← get_state id;
  if negb (core_reachable s) then mret tt
  else for_all tags_of (delete_tag s (payload_email payload)).

Definition apply_action (action : string) (u : option CoreUser) (payload : Payload) : Prog bool :=
  let action := strip action in
  if bool_decide (action = "delete") then _ ← apply_delete payload; mret true
  else match u with
  | None =>
      if bool_decide (action = "disable") then _ ← apply_delete payload; mret true
      else mret (adds action)
  | Some u =>
      if bool_decide (action = "add" ∨ action = "protocol_change") then
        _ ← sync_main_core_user inbounds_by_tag print_int u; mret true
      else if bool_decide (action = "disable") then
        _ ← hot_disconnect_users inbounds_by_tag print_int [u]; mret true
      else if bool_decide (action = "quota_cap") then
        _ ← (if billable u then sync_main_core_user inbounds_by_tag print_int u else mret tt); mret true
      else mret false
  end.

(** [_apply_row] *)
Definition apply_row (users : Z → option CoreUser) (c : Claimed) : Prog bool :=
  let u := match c_user_id c with
           | Some i => if i =? 0 then None else users i
           | None => None
           end in
  applied ← apply_action (c_action c) u (c_payload c);
  if (applied : bool) then confirm_action (c_action c) u (c_payload c) else mret false.

End apply.
End SyncApply.

Module SyncApplyFacts.
Import Outbox OutboxFacts CoreSync CoreSyncFacts SyncApply.

(** Evaluate the tests on a concrete action name. *)
Ltac eval_action :=
  unfold adds;
  repeat match goal with
  | |- context [bool_decide ?P] =>
      let b := eval vm_compute in (bool_decide P) in
      lazymatch b with true => idtac | false => idtac end;
      change (bool_decide P) with b
  end; cbv beta iota.

Section facts.
Context {Core : Type} `{HL : HandlerLaws Core}.
Context (inbounds_by_tag : gmap string Inbound) (print_int : Z → string).
Notation CoreState := (CoreState Core).
Notation hot := (_inbound_supports_hot_sync inbounds_by_tag).

(** ** Probes *)
Lemma email_absent_sound t e (s s' : CoreState) p :
  email_absent t e s = (inr p, s') → p ≠ ProbeFailed →
  ¬ has s' t e ∧ ∀ t' e', (t', e') ≠ (t, e) → serves (live s') t' e' = serves (live s) t' e'.
Proof.
  unfold email_absent, mbind, prog_bind, call. pose proof (remove_frame t e (live s)) as Hfr.
  destruct (remove_inbound_user t e (live s)) as [o c] eqn:E. intros Hp Hne.
  assert (s' = s <| live := c |> ∧ (o = ApiOk ∨ o = EmailNotFoundError ∨ o = TagNotFoundError))
    as [-> Ho].
  { unfold mret, prog_ret, throw in Hp. destruct o; simplify_eq; auto. }
  split; [|exact Hfr]. unfold has. cbn. rewrite (remove_gone _ _ _ _ _ E Ho). by intros [].
Qed.

(** A run of probes that all succeed moves along [R] and establishes [Q]. *)
Lemma probe_all_sound {A} (R : CoreState → CoreState → Prop) `{!PreOrder R}
    (Q : A → CoreState → Prop) (l : list A) f s s' :
  (∀ x s s' p, x ∈ l → f x s = (inr p, s') → p ≠ ProbeFailed → R s s' ∧ Q x s') →
  (∀ x s s', Q x s → R s s' → Q x s') →
  probe_all l f s = (inr true, s') → R s s' ∧ ∀ x, x ∈ l → Q x s'.
Proof.
  intros Hf HQ. revert s. induction l as [|x l IH]; intros s; cbn.
  - intros [= <-]. split; [done|]. intros x Hx. by apply elem_of_nil in Hx.
  - unfold mbind, prog_bind. destruct (f x s) as [[o|p] s1] eqn:E1; [done|].
    destruct (probe_all l f s1) as [[o|rest] s2] eqn:E2; [done|]. intros [= Hb <-].
    apply andb_true_iff in Hb as [Hp ->]. boolp.
    destruct (Hf x s s1 p) as [HR1 HQ1]; [constructor|done|done|].
    destruct (IH (λ y s s' p Hy, Hf y s s' p (list_elem_of_further _ _ _ Hy)) s1 E2) as [HR2 HQ2].
    split; [by etrans|]. intros y [->|Hy]%elem_of_cons; eauto.
Qed.

(** The ACK of a removal is sound, whatever the API answered on the way: when
    it is given with the core reachable, no hot inbound of the configuration
    serves the email, and no other account was touched. *)
Theorem confirm_absent_sound e (s s' : CoreState) :
  core_reachable s = true → e ≠ "" →
  _confirm_absent e (hot_tags inbounds_by_tag s) s = (inr true, s') →
  (∀ t, is_Some (inbounds_by_tag !! t) → hot s t = true → ¬ has s' t e)
  ∧ ∀ t e', e' ≠ e → serves (live s') t e' = serves (live s) t e'.
Proof.
  intros Hup He. unfold _confirm_absent. rewrite bool_decide_eq_false_2 by done. cbn [orb].
  set (R := λ s s' : CoreState, shrinks s s' ∧ ∀ t e', e' ≠ e → serves (live s') t e' = serves (live s) t e').
  assert (PreOrder R) as HR.
  { split; [intros s1; split; [intros t e' Hh; exact Hh|done]|]. intros s1 s2 s3 [H1 F1] [H2 F2]. split.
    - intros t e' Hh. by apply H1, H2.
    - intros t e' Hne. by rewrite F2, F1. }
  assert (∀ t, is_Some (inbounds_by_tag !! t) → hot s t = true → t ∈ hot_tags inbounds_by_tag s) as Hin.
  { intros t [i Hi] Hh. apply list_elem_of_filter. split; [done|]. apply list_elem_of_fmap.
    exists (t, i). split; [done|]. by apply elem_of_map_to_list. }
  case_bool_decide as Hnil.
  { intros [= <-]. split; [|done]. intros t Hi Hh. apply (Hin t Hi) in Hh. rewrite Hnil in Hh.
    by apply elem_of_nil in Hh. }
  unfold mbind, prog_bind, get_state. rewrite Hup. cbn [negb]. intros Hp.
  apply (probe_all_sound R (λ t s', ¬ has s' t e)) in Hp as [[_ Hfr] Hno].
  - split; [|done]. intros t Hi Hh. by apply Hno, Hin.
  - intros t s1 s2 p _ E Hne. apply email_absent_sound in E as [Hn F]; [|done]. split; [|done]. split.
    + intros t' e' Hh. destruct (decide ((t', e') = (t, e))) as [Ee|Hd]; [by injection Ee as -> ->|].
      unfold has in *. by rewrite F in Hh.
    + intros t' e' Hd. apply F. congruence.
  - intros t s1 s2 Hn [Hs _] Hh. by apply Hn, Hs.
Qed.

(** With the panel's core down or restarting, every row of the outbox is
    applied and confirmed without a single call to the core: the ACK is skipped,
    not refused, and the row finishes as live. *)
Theorem ack_skipped_when_core_down users c (s : CoreState) :
  started s = false ∨ restarting s = true → strip (c_action c) ∈ ACTIONS →
  apply_row inbounds_by_tag print_int users c s = (inr true, s).
Proof.
  intros Hdown Hact.
  assert (core_reachable s = false) as Hup.
  { unfold core_reachable. destruct Hdown as [-> | ->]; [done|]. by destruct (started s). }
  assert ((started s && negb (restarting s))%bool = false) as Hrun.
  { destruct Hdown as [-> | ->]; [done|]. by destruct (started s). }
  assert (∀ e, _confirm_absent e (hot_tags inbounds_by_tag s) s = (inr true, s)) as Habs.
  { intros e. unfold _confirm_absent, mbind, prog_bind, get_state. by destruct (_ || _)%bool; rewrite ?Hup. }
  assert (∀ l, _confirm_present inbounds_by_tag l s = (inr true, s)) as Hpres.
  { intros l. unfold _confirm_present, mbind, prog_bind, get_state. by case_bool_decide; rewrite ?Hup. }
  assert (∀ p, apply_delete inbounds_by_tag p s = (inr tt, s)) as Hdel.
  { intros p. unfold apply_delete, mbind, prog_bind, get_state, id.
    case_bool_decide; [done|]. by rewrite Hup. }
  assert (∀ u, ∃ b, hot_disconnect_users inbounds_by_tag print_int [u] s = (inr b, s)) as Hdis.
  { intros u. unfold hot_disconnect_users, mbind, prog_bind, get_state.
    rewrite bool_decide_eq_false_2 by done. rewrite Hup. by exists false. }
  assert (∀ u, sync_main_core_user inbounds_by_tag print_int u s = (inr tt, s)) as Hsync.
  { intros u. unfold sync_main_core_user, mbind, prog_bind. destruct (billable u); cbn [negb].
    - unfold get_state. by rewrite Hrun.
    - by destruct (Hdis u) as [b ->]. }
  unfold apply_row. generalize (match c_user_id c with Some i => if i =? 0 then None else users i | None => None end).
  intros u. unfold apply_action, confirm_action. revert Hact. generalize (strip (c_action c)). intros action Hact.
  unfold mbind, prog_bind, get_state, id.
  assert (action = "add" ∨ action = "disable" ∨ action = "delete" ∨ action = "quota_cap"
          ∨ action = "protocol_change") as Hcases by (unfold ACTIONS in Hact; set_solver).
  clear Hact. destruct u as [u|].
  - destruct (Hdis u) as [b Hb].
    destruct Hcases as [-> | [-> | [-> | [-> | ->]]]]; eval_action; rewrite ?Hsync, ?Hb, ?Hdel;
      unfold mret, prog_ret; rewrite ?Habs, ?Hpres; try done.
    destruct (billable u); rewrite ?Hsync; by rewrite Hpres.
  - destruct Hcases as [-> | [-> | [-> | [-> | ->]]]]; eval_action; rewrite ?Hdel;
      unfold mret, prog_ret; rewrite ?Habs; done.
Qed.

(** ** What the pushes keep, whatever they answer *)
Section keeps.
Context (I : CoreState → Prop).
Hypothesis Hadd : ∀ t a s, I s → I (_api_add_user t a s).2.
Hypothesis Hrem : ∀ t e s, I s → I (_api_remove_user t e s).2.
Hypothesis Hens : ∀ s, I s → I (ensure_registry s).

Lemma hot_disconnect_keeps us s : I s → I (hot_disconnect_users inbounds_by_tag print_int us s).2.
Proof.
  intros Hs. unfold hot_disconnect_users, mbind, prog_bind, get_state, _ensure_registry_current, put_state, id.
  case_bool_decide; [done|]. destruct (core_reachable s); cbn [negb]; [|done].
  set (l := map_to_list _). set (em := list_to_set _).
  assert (I (for_all l (disconnect_tag inbounds_by_tag (ensure_registry s) em) (ensure_registry s)).2) as Hl.
  { apply for_all_keeps; [|by apply Hens]. intros [t es] s1 _ Hs1. unfold disconnect_tag.
    destruct (hot _ _); cbn [negb]; [|done]. apply for_all_keeps; [|done]. auto. }
  by destruct (for_all l _ _) as [[o|[]] s1].
Qed.

Lemma sync_user_keeps u s : I s → I (sync_main_core_user inbounds_by_tag print_int u s).2.
Proof.
  intros Hs. unfold sync_main_core_user. destruct (billable u); cbn [negb].
  - unfold mbind, prog_bind, get_state, _ensure_registry_current, put_state, id.
    destruct (started s && negb (restarting s))%bool; cbn [negb is_protocol_held]; [|done].
    unfold mret, prog_ret. apply for_all_keeps; [|by apply Hens].
    intros [pt tags] s1 _ Hs1. unfold sync_user_proxy. apply for_all_keeps; [|done].
    intros t s2 _ Hs2. unfold sync_user_tag. destruct (hot _ _); cbn [negb is_xray_proxy_held]; [|done].
    destruct (_account_for_inbound _ _ _ _ _) as [a|]; [|done].
    unfold mbind, prog_bind. pose proof (Hrem t (email_of print_int u) s2 Hs2) as H1.
    destruct (_api_remove_user t (email_of print_int u) s2) as [[o|[]] s3]; [done|]. by apply Hadd.
  - unfold mbind, prog_bind. pose proof (hot_disconnect_keeps [u] s Hs) as Hd.
    by destruct (hot_disconnect_users inbounds_by_tag print_int [u] s) as [[o|b] s1].
Qed.
End keeps.

(** A core that answers, with the panel's core running. *)
Definition up (P : Core → Prop) (s : CoreState) : Prop :=
  P (live s) ∧ started s = true ∧ restarting s = false.

Section up.
Context (P : Core → Prop) (HP : Healthy P) (Hstats : ∀ c, P c → sys_stats c = true).

Lemma up_reachable s : up P s → core_reachable s = true.
Proof. intros (Hp & Hs & Hr). unfold core_reachable. by rewrite Hs, Hr, Hstats. Qed.

Lemma up_add t a s : up P s → up P (_api_add_user t a s).2.
Proof.
  intros (Hp & Hs & Hr). destruct (api_add_user_ok P HP t a s Hp) as (s' & E & Hp' & _).
  rewrite E. cbn. split; [done|]. unfold _api_add_user, mbind, prog_bind, call, put_state, throw in E.
  destruct (add_inbound_user t a (live s)) as [o c]. destruct o; by simplify_eq.
Qed.

Lemma up_remove t e s : up P s → up P (_api_remove_user t e s).2.
Proof.
  intros (Hp & Hs & Hr). destruct (api_remove_user_ok P HP t e s Hp) as (s' & E & Hp' & _).
  rewrite E. cbn. split; [done|]. unfold _api_remove_user, mbind, prog_bind, call, put_state, throw in E.
  destruct (remove_inbound_user t e (live s)) as [o c]. destruct o; by simplify_eq.
Qed.

Lemma up_ensure s : up P s → up P (ensure_registry s).
Proof. unfold up, ensure_registry. by case_match. Qed.

(** For configured inbounds the test does not look at the running core. *)
Lemma hot_configured (s s' : CoreState) t : is_Some (inbounds_by_tag !! t) → hot s t = hot s' t.
Proof. intros [i Hi]. unfold _inbound_supports_hot_sync, find_inbound. by rewrite Hi. Qed.

Lemma email_absent_up t e (s : CoreState) :
  up P s → ∃ s', email_absent t e s = (inr Absent, s') ∧ up P s'.
Proof.
  intros (Hp & Hs & Hr). destruct (healthy_remove P HP t e (live s) Hp) as [Hp' Ho].
  unfold email_absent, mbind, prog_bind, call.
  destruct (remove_inbound_user t e (live s)) as [o c]. cbn in *.
  exists (s <| live := c |>). split; [by destruct Ho as [-> | [-> | ->]]|done].
Qed.

Lemma probe_all_up {A} (l : list A) f s :
  (∀ x s, x ∈ l → up P s → ∃ p s', f x s = (inr p, s') ∧ p ≠ ProbeFailed ∧ up P s') →
  up P s → ∃ s', probe_all l f s = (inr true, s') ∧ up P s'.
Proof.
  revert s. induction l as [|x l IH]; intros s Hf Hs; cbn; [by exists s|].
  destruct (Hf x s) as (p & s1 & E1 & Hp & Hs1); [constructor|done|].
  destruct (IH s1) as (s2 & E2 & Hs2); [|done|].
  { intros y s3 Hy. apply Hf. by constructor. }
  exists s2. unfold mbind, prog_bind. rewrite E1, E2. by rewrite bool_decide_eq_false_2.
Qed.

Lemma confirm_absent_up e s :
  up P s → ∃ s', _confirm_absent e (hot_tags inbounds_by_tag s) s = (inr true, s').
Proof.
  intros Hs. unfold _confirm_absent, mbind, prog_bind, get_state.
  destruct (_ || _)%bool; [by exists s|]. rewrite (up_reachable s Hs). cbn [negb].
  destruct (probe_all_up (hot_tags inbounds_by_tag s) (λ t, email_absent t e) s) as (s' & E & _); [|done|eauto].
  intros t s1 _ Hs1. destruct (email_absent_up t e s1 Hs1) as (s2 & E2 & Hs2). by exists Absent, s2.
Qed.

(** A disable row is applied on a core that answers: the row is
    acknowledged and no configured hot inbound serves the user any more -
    whatever the user's current status, which the row does not look at. *)
Theorem disable_row_cuts_user users c uid u (s : CoreState) :
  up P s → strip (c_action c) = "disable" →
  c_user_id c = Some uid → uid ≠ 0 → users uid = Some u → email_of print_int u ≠ "" →
  registry_sound (hot (ensure_registry s)) (ensure_registry s) →
  ∃ s', apply_row inbounds_by_tag print_int users c s = (inr true, s')
    ∧ ∀ t, is_Some (inbounds_by_tag !! t) → hot s t = true → ¬ has s' t (email_of print_int u).
Proof.
  intros Hup Hact Huid Huid0 Hu Hem Hsnd.
  destruct (hot_disconnect_cuts inbounds_by_tag print_int P [u] s) as (s1 & E1 & _);
    [done|by destruct Hup|by apply up_reachable|done|].
  assert (up P s1) as Hup1.
  { pose proof (hot_disconnect_keeps (up P) up_remove up_ensure [u] s Hup) as H1. by rewrite E1 in H1. }
  destruct (confirm_absent_up (email_of print_int u) s1 Hup1) as [s2 E2].
  exists s2. split.
  - unfold apply_row. rewrite Huid. apply Z.eqb_neq in Huid0. rewrite Huid0, Hu.
    unfold apply_action, confirm_action. rewrite Hact. eval_action.
    unfold mbind, prog_bind, get_state, mret, prog_ret, id. by rewrite E1, E2.
  - destruct (confirm_absent_sound (email_of print_int u) s1 s2) as [Hno _]; [by apply up_reachable|done|done|].
    intros t Hi Hh. apply Hno; [done|]. by rewrite (hot_configured s1 s).
Qed.

(** A probe for presence leaves the account of a proxy of the user. *)
Lemma present_probe_up u pt tags t a s :
  up P s → (pt, tags) ∈ cu_inbounds u → t ∈ tags →
  _account_for_inbound inbounds_by_tag print_int u pt t = Some a →
  ∃ p s', present_probe inbounds_by_tag (t, a) s = (inr p, s') ∧ p ≠ ProbeFailed ∧ up P s'
    ∧ ∀ t', pushed inbounds_by_tag print_int u t' s → pushed inbounds_by_tag print_int u t' s'.
Proof.
  intros (Hp & Hs & Hr) Hpt Ht Ha. unfold present_probe. cbn [fst snd].
  case_bool_decide; [|by exists NoTag, s].
  destruct (healthy_add P HP t a (live s) Hp) as [Hp' Ho].
  pose proof (add_frame t a (live s)) as Hfr. pose proof (account_for_inbound_email _ _ _ _ _ _ Ha) as Hem.
  unfold email_present, mbind, prog_bind, call.
  destruct (add_inbound_user t a (live s)) as [o c'] eqn:E. cbn in *.
  exists Present, (s <| live := c' |>). split_and!; [by destruct Ho as [-> | ->]|done|done|].
  intros t' (pt' & tags' & a' & Hpt' & Ht' & Ha' & Hsv).
  destruct (decide (t' = t)) as [->|Hne].
  - destruct Ho as [-> | ->].
    + exists pt, tags, a. split_and!; [done..|]. cbn. rewrite <-Hem. by eapply add_ok.
    + apply add_exists in E as [_ Heq]. exists pt', tags', a'. split_and!; [done..|]. cbn.
      rewrite <-Hem, Heq, Hem. done.
  - exists pt', tags', a'. split_and!; [done..|]. cbn. rewrite Hfr; [done|]. congruence.
Qed.

(** The accounts to confirm are accounts of the user's proxies. *)
Lemma iter_user_hot_accounts_spec (s : CoreState) u t a :
  (t, a) ∈ iter_user_hot_accounts inbounds_by_tag print_int s u →
  ∃ pt tags, (pt, tags) ∈ cu_inbounds u ∧ t ∈ tags
    ∧ _account_for_inbound inbounds_by_tag print_int u pt t = Some a.
Proof.
  unfold iter_user_hot_accounts. destruct (billable u); cbn [negb]; [|by intros ?%elem_of_nil].
  rewrite list_elem_of_In, in_flat_map. intros ([pt tags] & Hpt & Hin).
  rewrite <-list_elem_of_In in Hpt. rewrite <-list_elem_of_In in Hin. cbn [fst snd is_xray_proxy_held] in Hin.
  apply list_elem_of_omap in Hin as (t' & Ht' & Heq).
  destruct (hot s t'); cbn [negb] in Heq; [|done].
  destruct (_account_for_inbound inbounds_by_tag print_int u pt t') as [a'|] eqn:Ea; [|done].
  destruct (acc_is_2022 a'); [done|]. injection Heq as <- <-. eauto.
Qed.

Lemma probe_present_up u l s :
  (∀ t a, (t, a) ∈ l → ∃ pt tags, (pt, tags) ∈ cu_inbounds u ∧ t ∈ tags
    ∧ _account_for_inbound inbounds_by_tag print_int u pt t = Some a) →
  up P s → ∃ s', probe_all l (present_probe inbounds_by_tag) s = (inr true, s')
    ∧ ∀ t', pushed inbounds_by_tag print_int u t' s → pushed inbounds_by_tag print_int u t' s'.
Proof.
  revert s. induction l as [|[t a] l IH]; intros s Hl Hs; cbn; [by exists s|].
  destruct (Hl t a) as (pt & tags & Hpt & Ht & Ha); [constructor|].
  destruct (present_probe_up u pt tags t a s) as (p & s1 & E1 & Hp & Hs1 & Hk1); [done..|].
  destruct (IH s1) as (s2 & E2 & Hk2); [|done|].
  { intros t' a' Hin. apply Hl. by constructor. }
  exists s2. unfold mbind, prog_bind. rewrite E1, E2. rewrite bool_decide_eq_false_2 by done. auto.
Qed.

(** An add row is applied on a core that answers: the row is acknowledged,
    and on every configured hot inbound that a proxy of the billable user
    reaches, the core serves the account that proxy gives now. *)
Theorem add_row_serves_user users c uid u (s : CoreState) :
  up P s → strip (c_action c) = "add" ∨ strip (c_action c) = "protocol_change" →
  c_user_id c = Some uid → uid ≠ 0 → users uid = Some u → billable u = true →
  ∃ s', apply_row inbounds_by_tag print_int users c s = (inr true, s')
    ∧ ∀ t, is_Some (inbounds_by_tag !! t) → hot s t = true → wants u t →
        pushed inbounds_by_tag print_int u t s'.
Proof.
  intros Hup Hact Huid Huid0 Hu Hb.
  destruct (sync_user_pushes inbounds_by_tag print_int P u s) as (s1 & E1 & Hpush & _);
    [done|by destruct Hup as (? & ? & ?)..|].
  assert (up P s1) as Hup1.
  { pose proof (sync_user_keeps (up P) up_add up_remove up_ensure u s Hup) as H1. by rewrite E1 in H1. }
  set (l := iter_user_hot_accounts inbounds_by_tag print_int s1 u).
  assert (∃ s2, _confirm_present inbounds_by_tag l s1 = (inr true, s2)
    ∧ ∀ t', pushed inbounds_by_tag print_int u t' s1 → pushed inbounds_by_tag print_int u t' s2) as (s2 & E2 & Hk).
  { unfold _confirm_present, mbind, prog_bind, get_state. case_bool_decide; [by exists s1|].
    rewrite (up_reachable s1 Hup1). cbn [negb]. apply probe_present_up; [|done].
    intros t a Hin. by apply (iter_user_hot_accounts_spec s1). }
  exists s2. split.
  - unfold apply_row. rewrite Huid. apply Z.eqb_neq in Huid0. rewrite Huid0, Hu.
    unfold apply_action, confirm_action. destruct Hact as [-> | ->]; eval_action;
      unfold mbind, prog_bind, get_state, mret, prog_ret, id; rewrite E1; fold l; by rewrite E2.
  - intros t Hi Hh Hw. apply Hk, Hpush; [|done]. by rewrite (hot_configured _ s).
Qed.
End up.

End facts.
End SyncApplyFacts.

(** ** Rows applied to the demonstration core *)
Module SyncApplyExamples.
Import Outbox CoreSync CoreSyncFacts CoreSyncExamples SyncApply SyncApplyFacts.

Definition row_for (action : string) (i : Z) : Claimed := mkClaimed action (Some i) empty_payload.
Definition user_table (i : Z) : option CoreUser :=
  if i =? 1 then Some (demo_user 1 active) else if i =? 2 then Some (demo_user 2 active) else None.

Lemma demo_up : up (λ c, answering c = true) (demo_core true).
Proof. by split_and!. Qed.

Lemma confirm_absent_sound_witness :
  ∃ s', _confirm_absent "1.ali" (hot_tags demo_inbounds (demo_core true)) (demo_core true) = (inr true, s')
    ∧ ¬ has s' "in" "1.ali".
Proof.
  eexists. split; [vm_compute; reflexivity|].
  apply (confirm_absent_sound demo_inbounds "1.ali" (demo_core true));
    [reflexivity|discriminate|vm_compute; reflexivity|eexists; reflexivity|vm_compute; reflexivity].
Defined.

Lemma ack_skipped_when_core_down_witness :
  apply_row demo_inbounds demo_print user_table (row_for "add" 2)
    ((demo_core true) <| started := false |>) = (inr true, (demo_core true) <| started := false |>).
Proof. apply ack_skipped_when_core_down; [by left|constructor]. Defined.

(** The user is active: the row is from before they were enabled again. *)
Lemma disable_row_cuts_user_witness :
  ∃ s', apply_row demo_inbounds demo_print user_table (row_for "disable" 1) (demo_core true) = (inr true, s')
    ∧ ¬ has s' "in" "1.ali".
Proof.
  destruct (disable_row_cuts_user demo_inbounds demo_print (λ c, answering c = true) ref_healthy (λ c H, H)
    user_table (row_for "disable" 1) 1 (demo_user 1 active) (demo_core true)) as (s' & E & Hno).
  - apply demo_up.
  - reflexivity.
  - reflexivity.
  - discriminate.
  - reflexivity.
  - discriminate.
  - apply demo_sound.
  - exists s'. split; [exact E|]. apply (Hno "in"); [eexists; reflexivity|vm_compute; reflexivity].
Defined.

Lemma add_row_serves_user_witness :
  ∃ s', apply_row demo_inbounds demo_print user_table (row_for "add" 2) (demo_core true) = (inr true, s')
    ∧ pushed demo_inbounds demo_print (demo_user 2 active) "in" s'.
Proof.
  destruct (add_row_serves_user demo_inbounds demo_print (λ c, answering c = true) ref_healthy (λ c H, H)
    user_table (row_for "add" 2) 2 (demo_user 2 active) (demo_core true)) as (s' & E & Hp).
  - apply demo_up.
  - by left.
  - reflexivity.
  - discriminate.
  - reflexivity.
  - reflexivity.
  - exists s'. split; [exact E|]. apply (Hp "in"); [eexists; reflexivity|vm_compute; reflexivity|].
    exists "vless", ["in"]. split; [constructor|]. split; [constructor|]. eexists. reflexivity.
Defined.
End SyncApplyExamples.
