(* ===== verification/Base64.v ===== *)
(** * Base64: the text codecs the tokens are made of

    Python's [base64] with the alphabet [-_], the strict UTF-8 decoder, and
    [str] and [int] on integers.  Text is a list of bytes, as characters. *)
From S2P Require Import Prelude.
From Stdlib Require Import DecimalString DecimalZ DecimalPos.

Module Base64.

Definition chars := String.list_ascii_of_string.
Definition text := String.string_of_list_ascii.
Definition byte_of (c : Ascii.ascii) : Z := Z.of_nat (Ascii.nat_of_ascii c).
Definition of_byte (b : Z) : Ascii.ascii := Ascii.ascii_of_nat (Z.to_nat b).

(** ** Six-bit groups *)
Fixpoint sextets (l : list Z) : list Z :=
  match l with
  | [] => []
  | [a] => [a / 4; (a mod 4) * 16]
  | [a; b] => [a / 4; (a mod 4) * 16 + b / 16; (b mod 16) * 4]
  | a :: b :: c :: l =>
      a / 4 :: (a mod 4) * 16 + b / 16 :: (b mod 16) * 4 + c / 64 :: c mod 64 :: sextets l
  end.

(** A group of one is no byte; left-over bits of the last group are dropped. *)
Fixpoint unsextets (l : list Z) : option (list Z) :=
  match l with
  | [] => Some []
  | [_] => None
  | [x; y] => Some [x * 4 + y / 16]
  | [x; y; z] => Some [x * 4 + y / 16; (y mod 16) * 16 + z / 4]
  | x :: y :: z :: w :: l =>
      match unsextets l with
      | Some rest => Some (x * 4 + y / 16 :: (y mod 16) * 16 + z / 4 :: (z mod 4) * 64 + w :: rest)
      | None => None
      end
  end.

Definition sextet_char (n : Z) : Ascii.ascii :=
  of_byte (if n <? 26 then n + 65
           else if n <? 52 then n + 71
           else if n <? 62 then n - 4
           else if n =? 62 then 45 else 95).

(** [altchars] is translated on top of the standard alphabet, so the decoder also
    takes [+] and [/]. *)
Definition char_sextet (c : Ascii.ascii) : option Z :=
  let n := byte_of c in
  if (65 <=? n) && (n <=? 90) then Some (n - 65)
  else if (97 <=? n) && (n <=? 122) then Some (n - 71)
  else if (48 <=? n) && (n <=? 57) then Some (n + 4)
  else if (n =? 45) || (n =? 43) then Some 62
  else if (n =? 95) || (n =? 47) then Some 63
  else None.

Definition pad_char : Ascii.ascii := of_byte 61.

(** [b"=" * (-len(l) % 4)] appended. *)
Definition repad (l : list Ascii.ascii) : list Ascii.ascii :=
  l ++ replicate (Z.to_nat (- Z.of_nat (length l) mod 4)) pad_char.

(** [b64encode(data, altchars=b"-_")] *)
Definition b64encode (l : list Ascii.ascii) : list Ascii.ascii :=
  repad (map sextet_char (sextets (map byte_of l))).

Fixpoint drop_pads (l : list Ascii.ascii) : list Ascii.ascii :=
  match l with
  | c :: l' => if Ascii.eqb c pad_char then drop_pads l' else l
  | [] => []
  end.

(** [s.rstrip("=")] *)
Definition rstrip_pad (l : list Ascii.ascii) : list Ascii.ascii := rev (drop_pads (rev l)).

Fixpoint all_some {A} (l : list (option A)) : option (list A) :=
  match l with
  | [] => Some []
  | Some x :: l => match all_some l with Some r => Some (x :: r) | None => None end
  | None :: _ => None
  end.

(** [b64decode(s, altchars=b"-_", validate=True)]: a whole number of groups of
    four, at most two pads, at the end; anything else raises [binascii.Error]. *)
Definition b64decode (l : list Ascii.ascii) : option (list Ascii.ascii) :=
  let body := rstrip_pad l in
  let pads := (length l - length body)%nat in
  if negb (Z.of_nat (length l) mod 4 =? 0) || (2 <? pads)%nat then None
  else match all_some (map char_sextet body) with
       | Some sx => option_map (map of_byte) (unsextets sx)
       | None => None
       end.

(** ** Strict UTF-8 *)
Definition in_range (lo hi b : Z) : bool := (lo <=? b) && (b <=? hi).

Definition three_ok (a b c : Z) : bool :=
  in_range 224 239 a && in_range 128 191 c
  && in_range (if a =? 224 then 160 else 128) (if a =? 237 then 159 else 191) b.

Definition four_ok (a b c d : Z) : bool :=
  in_range 240 244 a && in_range 128 191 c && in_range 128 191 d
  && in_range (if a =? 240 then 144 else 128) (if a =? 244 then 143 else 191) b.

Fixpoint utf8 (l : list Z) : bool :=
  match l with
  | [] => true
  | a :: l =>
      if a <? 128 then utf8 l
      else match l with
      | b :: l =>
          if in_range 194 223 a && in_range 128 191 b then utf8 l
          else match l with
          | c :: l =>
              if three_ok a b c then utf8 l
              else match l with
              | d :: l => four_ok a b c d && utf8 l
              | [] => false
              end
          | [] => false
          end
      | [] => false
      end
  end.

(** [b.decode("utf-8")] succeeds. *)
Definition decodes (l : list Ascii.ascii) : bool := utf8 (map byte_of l).

(** ** Numbers as text *)

(** [str(z)] *)
Definition print_int (z : Z) : string := NilZero.string_of_int (Z.to_int z).

Definition is_digit (c : Ascii.ascii) : bool := in_range 48 57 (byte_of c).
Definition underscore : Ascii.ascii := of_byte 95.

(** Single underscores between digits are dropped; [None] when one stands
    elsewhere.  [after] says that the last character was a digit. *)
Fixpoint ungroup (after : bool) (l : list Ascii.ascii) : option (list Ascii.ascii) :=
  match l with
  | [] => Some []
  | c :: l' =>
      if Ascii.eqb c underscore then
        match l' with
        | d :: _ => if after && is_digit d then ungroup false l' else None
        | [] => None
        end
      else option_map (cons c) (ungroup (is_digit c) l')
  end.

Definition parse_uint (l : list Ascii.ascii) : option Z :=
  match ungroup false l with
  | Some ds => option_map Z.of_uint (NilZero.uint_of_string (text ds))
  | None => None
  end.

(** [int(s)], decimal, on ASCII text. *)
Definition parse_int (s : string) : option Z :=
  match chars (strip s) with
  | c :: l =>
      if Ascii.eqb c (of_byte 45) then option_map Z.opp (parse_uint l)
      else if Ascii.eqb c (of_byte 43) then parse_uint l
      else parse_uint (c :: l)
  | [] => None
  end.

End Base64.

(** ** Facts *)
Module Base64Facts.
Import Base64.

Definition bytes (l : list Z) : Prop := Forall (λ b, 0 ≤ b < 256) l.
Definition six (l : list Z) : Prop := Forall (λ b, 0 ≤ b < 64) l.

Lemma of_byte_of c : of_byte (byte_of c) = c.
Proof. unfold of_byte, byte_of. rewrite Nat2Z.id. apply Ascii.ascii_nat_embedding. Qed.

Lemma byte_of_byte b : 0 ≤ b < 256 → byte_of (of_byte b) = b.
Proof. intros H. unfold of_byte, byte_of. rewrite Ascii.nat_ascii_embedding; lia. Qed.

Lemma byte_bounds c : 0 ≤ byte_of c < 256.
Proof. unfold byte_of. pose proof (Ascii.nat_ascii_bounded c). lia. Qed.

Lemma chars_text l : chars (text l) = l.
Proof. apply String.list_ascii_of_string_of_list_ascii. Qed.
Lemma text_chars s : text (chars s) = s.
Proof. apply String.string_of_list_ascii_of_string. Qed.

Lemma bytes_of l : bytes (map byte_of l).
Proof. induction l; constructor; auto using byte_bounds. Qed.

(** Induction three bytes at a time. *)
Lemma list_ind3 {A} (P : list A → Prop) :
  P [] → (∀ a, P [a]) → (∀ a b, P [a; b]) →
  (∀ a b c l, P l → P (a :: b :: c :: l)) → ∀ l, P l.
Proof.
  intros H0 H1 H2 H3. fix IH 1. intros [|a [|b [|c l]]]; [apply H0|apply H1|apply H2|apply H3, IH].
Qed.

Lemma mul_div_small a k n : 0 ≤ a < k → (n * k + a) / k = n.
Proof. intros H. rewrite Z.add_comm, Z.div_add by lia. rewrite Z.div_small by lia. lia. Qed.
Lemma mul_mod_small a k n : 0 ≤ a < k → (n * k + a) mod k = a.
Proof. intros H. rewrite Z.add_comm, Z.mod_add by lia. apply Z.mod_small. lia. Qed.

Lemma div_range a k n : 0 < k → 0 ≤ a < n * k → 0 ≤ a / k < n.
Proof. intros Hk H. split; [apply Z.div_pos|apply Z.div_lt_upper_bound]; lia. Qed.

Lemma sextets_six l : bytes l → six (sextets l).
Proof.
  induction l as [|a|a b|a b c l IH] using list_ind3; intros H;
    repeat (apply Forall_cons in H as [? H]); cbn [sextets]; [constructor|..];
    pose proof (div_range a 4 64); pose proof (Z.mod_pos_bound a 4);
    try (pose proof (div_range b 16 16); pose proof (Z.mod_pos_bound b 16));
    try (pose proof (div_range c 64 4); pose proof (Z.mod_pos_bound c 64));
    repeat (apply Forall_cons; split); try constructor; try (apply IH; done); lia.
Qed.

(** Decoding the groups of a list of bytes gives the bytes back. *)
Lemma unsextets_sextets l : bytes l → unsextets (sextets l) = Some l.
Proof.
  assert (M : ∀ a k, 0 < k → a / k * k + a mod k = a)
    by (intros a k Hk; pose proof (Z.div_mod a k); lia).
  induction l as [|a|a b|a b c l IH] using list_ind3; intros H;
    repeat (apply Forall_cons in H as [? H]); cbn [sextets unsextets]; [done| | |rewrite (IH H)].
  - rewrite Z.div_mul by lia. by rewrite M by lia.
  - pose proof (div_range b 16 16).
    rewrite mul_div_small, mul_mod_small, Z.div_mul by lia. by rewrite !M by lia.
  - pose proof (div_range b 16 16).
    pose proof (div_range c 64 4).
    rewrite !mul_div_small, !mul_mod_small by lia. by rewrite !M by lia.
Qed.

Lemma sextet_byte n : 0 ≤ n < 64 →
  (n < 26 ∧ byte_of (sextet_char n) = n + 65) ∨ (26 ≤ n < 52 ∧ byte_of (sextet_char n) = n + 71)
  ∨ (52 ≤ n < 62 ∧ byte_of (sextet_char n) = n - 4) ∨ (n = 62 ∧ byte_of (sextet_char n) = 45)
  ∨ (n = 63 ∧ byte_of (sextet_char n) = 95).
Proof.
  intros H. unfold sextet_char.
  destruct (Z.ltb_spec n 26); [left; rewrite byte_of_byte by lia; lia|right].
  destruct (Z.ltb_spec n 52); [left; rewrite byte_of_byte by lia; lia|right].
  destruct (Z.ltb_spec n 62); [left; rewrite byte_of_byte by lia; lia|right].
  destruct (Z.eqb_spec n 62); [left|right]; rewrite byte_of_byte by lia; lia.
Qed.

Lemma char_sextet_char n : 0 ≤ n < 64 → char_sextet (sextet_char n) = Some n.
Proof.
  intros H. unfold char_sextet.
  destruct (sextet_byte n H) as [[? ->]|[[? ->]|[[? ->]|[[-> ->]|[-> ->]]]]]; [| | |done|done];
  repeat match goal with
  | |- context [?a <=? ?b] => destruct (Z.leb_spec a b); cbn; try lia
  end; f_equal; lia.
Qed.

Lemma all_some_chars l : six l → all_some (map char_sextet (map sextet_char l)) = Some l.
Proof. induction 1 as [|n l Hn Hl IH]; cbn; [done|]. by rewrite char_sextet_char, IH. Qed.

(** The alphabet: bytes the encoder can write. *)
Definition in_alphabet (c : Ascii.ascii) : Prop := ∃ n, 0 ≤ n < 64 ∧ c = sextet_char n.

Lemma in_alphabet_not c b :
  in_alphabet c → b = 61 ∨ b = 46 → c ≠ of_byte b.
Proof.
  intros (n & Hn & ->) Hb E. apply (f_equal byte_of) in E. rewrite byte_of_byte in E by lia.
  destruct (sextet_byte n Hn) as [[? E']|[[? E']|[[? E']|[[? E']|[? E']]]]]; lia.
Qed.

Lemma alphabet_sextets l : six l → Forall in_alphabet (map sextet_char l).
Proof. induction 1; constructor; eauto. by eexists. Qed.

(** ** Padding *)
Lemma drop_pads_rep n l :
  drop_pads (replicate n pad_char ++ l) = drop_pads l.
Proof. induction n; cbn [replicate app drop_pads]; [done|]. by rewrite Ascii.eqb_refl. Qed.

Lemma drop_pads_clean l : Forall in_alphabet l → drop_pads l = l.
Proof.
  destruct 1 as [|c l Hc _]; [done|]. cbn. destruct (Ascii.eqb_spec c pad_char) as [->|]; [|done].
  exfalso. by apply (in_alphabet_not _ 61 Hc); [left|].
Qed.

Lemma rstrip_repad l : Forall in_alphabet l → rstrip_pad (repad l) = l.
Proof.
  intros H. unfold rstrip_pad, repad. rewrite rev_app_distr.
  assert (E : ∀ n, rev (replicate n pad_char) = replicate n pad_char)
    by (intros n; rewrite rev_alt; apply reverse_replicate).
  rewrite E, drop_pads_rep, drop_pads_clean; [apply rev_involutive|].
  rewrite rev_alt. by apply Forall_reverse.
Qed.

Lemma repad_length l : Z.of_nat (length (repad l)) mod 4 = 0.
Proof.
  unfold repad. rewrite length_app, length_replicate, Nat2Z.inj_add, Z2Nat.id by
    (apply Z.mod_pos_bound; lia).
  rewrite Z.add_mod_idemp_r by lia. by rewrite Z.add_opp_diag_r.
Qed.

Lemma sextets_length l :
  (4 * length l ≤ 3 * length (sextets l) < 4 * length l + 3)%nat
  ∧ Z.of_nat (length (sextets l)) mod 4 ≠ 1.
Proof.
  induction l as [|a|a b|a b c l [IH IH2]] using list_ind3; cbn [sextets length]; try done; try (split; [lia|done]).
  split; [lia|].
  replace (Z.of_nat (S (S (S (S (length (sextets l))))))) with (Z.of_nat (length (sextets l)) + 1 * 4) by lia.
  by rewrite Z.mod_add by lia.
Qed.

(** [b64decode] of the re-padded text of [b64encode(l).rstrip("=")] is [l]. *)
Lemma b64_roundtrip l : b64decode (repad (rstrip_pad (b64encode l))) = Some l.
Proof.
  pose proof (sextets_six _ (bytes_of l)) as H6. pose proof (alphabet_sextets _ H6) as HA.
  unfold b64encode. rewrite (rstrip_repad _ HA). unfold b64decode.
  rewrite (rstrip_repad _ HA), repad_length. cbn [Z.eqb negb orb].
  destruct (Nat.ltb_spec 2 (length (repad (map sextet_char (sextets (map byte_of l))))
                            - length (map sextet_char (sextets (map byte_of l))))) as [Hp|_].
  - exfalso. revert Hp. unfold repad. rewrite length_app, length_replicate, length_map.
    destruct (sextets_length (map byte_of l)) as [_ Hm]. intros Hp.
    set (n := Z.of_nat (length (sextets (map byte_of l)))) in *.
    pose proof (Z.mod_pos_bound (- n) 4 ltac:(lia)). pose proof (Z.div_mod (-n) 4 ltac:(lia)) as E.
    assert (E1 : - n mod 4 = 3) by lia. apply Hm.
    replace n with (1 + (- (- n / 4) - 1) * 4) by lia. by rewrite Z.mod_add by lia.
  - rewrite (all_some_chars _ H6), (unsextets_sextets _ (bytes_of l)). cbn. f_equal.
    rewrite map_map. rewrite <- (map_id l) at 2. apply map_ext, of_byte_of.
Qed.

Lemma b64_alphabet l : Forall in_alphabet (rstrip_pad (b64encode l)).
Proof.
  pose proof (alphabet_sextets _ (sextets_six _ (bytes_of l))) as HA.
  unfold b64encode. by rewrite rstrip_repad.
Qed.

Lemma b64_length l : (4 * length l ≤ 3 * length (rstrip_pad (b64encode l)))%nat.
Proof.
  unfold b64encode. rewrite rstrip_repad by apply alphabet_sextets, sextets_six, bytes_of.
  rewrite length_map. destruct (sextets_length (map byte_of l)) as [H _]. rewrite length_map in H. lia.
Qed.

Lemma b64_prefix l n :
  (3 * n ≤ 4 * length l)%nat → length (take n (b64encode l)) = n ∧ Forall in_alphabet (take n (b64encode l)).
Proof.
  intros H. unfold b64encode, repad.
  pose proof (sextets_length (map byte_of l)) as [HL _]. rewrite length_map in HL.
  rewrite take_app_le by (rewrite length_map; lia). split.
  - rewrite length_take, length_map. lia.
  - apply Forall_take, alphabet_sextets, sextets_six, bytes_of.
Qed.

(** ** UTF-8 *)
Lemma utf8_app l m : utf8 l = true → utf8 m = true → utf8 (l ++ m) = true.
Proof.
  intros Hl Hm. revert Hl.
  remember (length l) as n eqn:En. revert l En. induction (lt_wf n) as [n _ IH]. intros l -> Hl.
  destruct l as [|a l]; [done|]. cbn [utf8 app] in *.
  destruct (a <? 128); [by apply (IH (length l)); cbn; [lia|..]|].
  destruct l as [|b l]; [done|]. cbn [app].
  destruct (_ && _); [by apply (IH (length l)); cbn; [lia|..]|].
  destruct l as [|c l]; [done|]. cbn [app].
  destruct (three_ok a b c); [by apply (IH (length l)); cbn; [lia|..]|].
  destruct l as [|d l]; [done|]. cbn [app]. apply andb_true_iff in Hl as [-> Hl]. cbn.
  by apply (IH (length l)); cbn; [lia|..].
Qed.

Lemma utf8_ascii l : Forall (λ b, b < 128) l → utf8 l = true.
Proof. induction 1 as [|b l Hb _ IH]; [done|]. cbn. by destruct (Z.ltb_spec b 128); [|lia]. Qed.

(** ** Integers *)
Definition digit_text (l : list Ascii.ascii) : Prop := Forall (λ c, is_digit c = true) l.

Lemma string_of_uint_digits d : digit_text (chars (NilEmpty.string_of_uint d)).
Proof. induction d; constructor; done. Qed.

Lemma print_uint_digits d : digit_text (chars (NilZero.string_of_uint d)).
Proof. destruct d; [by repeat constructor|apply (string_of_uint_digits _)..]. Qed.

Lemma digit_range c : is_digit c = true → 48 ≤ byte_of c ≤ 57.
Proof. unfold is_digit, in_range. intros [? ?]%andb_true_iff. lia. Qed.

Lemma ungroup_digits b l : digit_text l → ungroup b l = Some l.
Proof.
  intros H. revert b. induction H as [|c l Hc _ IH]; intros b; [done|]. cbn [ungroup].
  destruct (Ascii.eqb_spec c underscore) as [->|]; [by vm_compute in Hc|]. by rewrite IH.
Qed.

Lemma parse_print_uint d : d ≠ Decimal.Nil →
  parse_uint (chars (NilZero.string_of_uint d)) = Some (Z.of_uint d).
Proof.
  intros Hd. unfold parse_uint. rewrite ungroup_digits by apply print_uint_digits.
  by rewrite text_chars, NilZero.usu.
Qed.

Definition printed (l : list Ascii.ascii) : Prop := Forall (λ c, byte_of c = 45 ∨ 48 ≤ byte_of c ≤ 57) l.

Lemma print_int_chars z : printed (chars (print_int z)).
Proof.
  assert (H : ∀ d, printed (chars (NilZero.string_of_uint d))).
  { intros d. eapply Forall_impl; [apply print_uint_digits|]. intros c Hc%digit_range. by right. }
  unfold print_int. destruct (Z.to_int z); cbn [NilZero.string_of_int]; [apply H|].
  constructor; [by left|apply H].
Qed.

Lemma drop_spaces_printed l : printed l → drop_spaces l = l.
Proof.
  destruct 1 as [|c l Hc _]; [done|]. cbn. unfold is_space, byte_of in *.
  replace ((_ || _)%nat) with false; [done|]. symmetry. rewrite !orb_false_iff, !andb_false_iff.
  rewrite !Nat.eqb_neq, !Nat.leb_gt. lia.
Qed.

Lemma strip_printed s : printed (chars s) → strip s = s.
Proof.
  intros H. unfold strip. rewrite (drop_spaces_printed (String.list_ascii_of_string s) H).
  rewrite drop_spaces_printed by (rewrite rev_alt; by apply Forall_reverse).
  rewrite rev_involutive. apply (text_chars s).
Qed.

(** [int(str(z)) == z] *)
Lemma parse_print_int z : parse_int (print_int z) = Some z.
Proof.
  unfold parse_int. rewrite strip_printed by apply print_int_chars.
  rewrite <- (DecimalZ.of_to z) at 2. unfold print_int.
  assert (Hn : ∀ d, Z.to_int z = Decimal.Pos d ∨ Z.to_int z = Decimal.Neg d → d ≠ Decimal.Nil).
  { intros d E ->. destruct z as [|p|p]; cbn in E; destruct E as [E|E]; simplify_eq;
      by apply (DecimalPos.Unsigned.to_uint_nonnil p). }
  destruct (Z.to_int z) as [d|d] eqn:E; cbn [NilZero.string_of_int].
  - pose proof (print_uint_digits d) as HD. pose proof (parse_print_uint d (Hn d (or_introl eq_refl))) as P.
    destruct (chars (NilZero.string_of_uint d)) as [|c l]; [by vm_compute in P|].
    apply Forall_cons in HD as [Hc%digit_range _].
    destruct (Ascii.eqb_spec c (of_byte 45)) as [->|]; [by destruct Hc as [Hc _]; vm_compute in Hc|].
    destruct (Ascii.eqb_spec c (of_byte 43)) as [->|]; [by destruct Hc as [Hc _]; vm_compute in Hc|]. done.
  - cbn [chars String.list_ascii_of_string Z.of_int]. fold chars.
    change (Ascii.eqb _ (of_byte 45)) with true. cbv iota.
    change (String.list_ascii_of_string (NilZero.string_of_uint d)) with (chars (NilZero.string_of_uint d)).
    by rewrite (parse_print_uint d (Hn d (or_intror eq_refl))).
Qed.

Lemma print_int_length z : (1 ≤ length (chars (print_int z)))%nat.
Proof.
  pose proof (parse_print_int z) as H. destruct (chars (print_int z)) eqn:E; [|cbn; lia].
  unfold parse_int in H. rewrite strip_printed in H by apply print_int_chars. by rewrite E in H.
Qed.
End Base64Facts.
