(* ===== verification/Tokens.v ===== *)
(** * Tokens: signed session tokens and their revocation

    [app/utils/jwt.py] (the kinds of JWT), [app/utils/admin_sessions.py] (the
    sessions file), and the users of both: [Admin.get_admin] of
    [models/admin.py], the refresh and password handlers of [routers/admin.py],
    [get_current_portal_user] of [routers/portal.py] and the application log-in
    of [routers/client_v2.py].

    The JWT library is code outside the repository: the class [Jwt].  Clocks are
    in microseconds; a JWT keeps whole seconds, as the library's encoder does
    with a [datetime]. *)
From S2P Require Import Prelude.

Module Tokens.

(** Microseconds in a second. *)
Definition SEC : Z := 1000000.

(** [iat] and [exp] are whole seconds. *)
Record Claims := mkClaims {
  cl_sub : string;
  cl_access : string;
  cl_sudo : bool;
  cl_iat : option Z;
  cl_exp : option Z }.

(** ** The JWT library *)
Class Jwt := {
  encode : Claims → string;
  (* the claims of a token, [None] when decoding raises [PyJWTError] *)
  decode : Z → string → option Claims }.

(** The library refuses a token from its [exp] on, and before its [iat]. *)
Definition in_force (now : Z) (c : Claims) : bool :=
  match cl_exp c with Some e => now <? e * SEC | None => true end
  && match cl_iat c with Some i => i * SEC <=? now | None => true end.

Class JwtLaws (J : Jwt) := {
  decode_encode now c : in_force now c = true → decode now (encode c) = Some c;
  decode_in_force now t c : decode now t = Some c → in_force now c = true;
  decode_encode_same now c c' : decode now (encode c) = Some c' → c' = c }.

(** ** [app/utils/admin_sessions.py]: the sessions file

    A session's [logged_at] is [s_iat] written as a date and is left out. *)
Record SessionRow := mkSessionRow {
  s_username : string;
  s_ip : string;
  s_is_sudo : bool;
  s_iat : Z }.

Record SessionFile := mkSessionFile {
  sessions : list SessionRow;
  revoked_before : gmap string Z }.

(** What is on disk: no file, a file that is not JSON, or the data. *)
Inductive Disk := missing | corrupt | stored (f : SessionFile).

Definition _MAX_SESSIONS : nat := 200.

Definition _load (d : Disk) : SessionFile :=
  match d with stored f => f | _ => mkSessionFile [] ∅ end.

Definition _save (f : SessionFile) : Disk := stored f.

(** The data [record_login] saves, computed from the data it loaded. *)
Definition with_login (username ip : string) (is_sudo : bool) (iat : option Z) (now : Z)
    (f : SessionFile) : SessionFile :=
  mkSessionFile
    (take _MAX_SESSIONS (mkSessionRow username ip is_sudo (default now iat) :: sessions f))
    (revoked_before f).

Definition record_login (username ip : string) (is_sudo : bool) (iat : option Z) (now : Z)
    (d : Disk) : Disk :=
  _save (with_login username ip is_sudo iat now (_load d)).

Definition list_sessions (limit : nat) (d : Disk) : list SessionRow :=
  take limit (sessions (_load d)).

Definition with_revocation (username : string) (before : option Z) (now : Z) (f : SessionFile)
    : SessionFile :=
  let ts := default now before in
  let prev := default 0 (revoked_before f !! username) in
  mkSessionFile (sessions f) (<[username := Z.max prev ts]> (revoked_before f)).

Definition revoke_user_sessions (username : string) (before : option Z) (now : Z) (d : Disk) : Disk :=
  _save (with_revocation username before now (_load d)).

(** [iat] in seconds, the cut-off in microseconds. *)
Definition is_token_revoked (d : Disk) (username : string) (iat : option Z) : bool :=
  match iat with
  | None => false
  | Some i => i * SEC <? default 0 (revoked_before (_load d) !! username)
  end.

(** ** Rows *)
Record AdminRow := mkAdminRow {
  ad_username : string;
  ad_is_sudo : bool;
  ad_hashed_password : string;
  ad_password_reset_at : option Z }.

Record PortalRow := mkPortalRow {
  pu_username : string;
  pu_hashed_portal_password : string;
  pu_portal_enabled : bool;
  pu_portal_password_reset_at : option Z }.

Definition find_admin (admins : list AdminRow) (username : string) : option AdminRow :=
  list_find (λ a, ad_username a = username) admins ≫= λ x, Some x.2.

Definition find_portal (users : list PortalRow) (username : string) : option PortalRow :=
  list_find (λ u, lower (pu_username u) = lower username) users ≫= λ x, Some x.2.

(** [set_portal_password] on the user's row. *)
Definition set_portal_password (hash : string → string) (new_password : string) (now : Z) (u : PortalRow)
    : result PortalRow :=
  if (String.length new_password <? 4)%nat then Raise (ValueError "Password must be at least 4 characters")
  else Ok (mkPortalRow (pu_username u) (hash new_password) true (Some now)).

(** The settings of [config.py] that matter here. *)
Record Config := mkConfig {
  JWT_ACCESS_TOKEN_EXPIRE_MINUTES : Z;
  JWT_REFRESH_TOKEN_EXPIRE_DAYS : Z;
  SUDOERS : list string;
  SUDO_USERNAME : string }.

Section jwt.
Context {J : Jwt} (cfg : Config).

(** [datetime.utcnow()] as the library stores it. *)
Definition stamp (t : Z) : Z := t / SEC.

(** ** [app/utils/jwt.py] *)
Definition short_exp (now : Z) : option Z :=
  if 0 <? JWT_ACCESS_TOKEN_EXPIRE_MINUTES cfg
  then Some (stamp (now + JWT_ACCESS_TOKEN_EXPIRE_MINUTES cfg * 60 * SEC)) else None.

Definition admin_claims (username : string) (is_sudo : bool) (now : Z) : Claims :=
  mkClaims username (if is_sudo then "sudo" else "admin") false (Some (stamp now)) (short_exp now).
Definition create_admin_token (username : string) (is_sudo : bool) (now : Z) : string :=
  encode (admin_claims username is_sudo now).

Definition admin_refresh_claims (username : string) (is_sudo : bool) (now : Z) : Claims :=
  mkClaims username "admin_refresh" is_sudo (Some (stamp now))
    (Some (stamp (now + JWT_REFRESH_TOKEN_EXPIRE_DAYS cfg * 86400 * SEC))).
Definition create_admin_refresh_token (username : string) (is_sudo : bool) (now : Z) : string :=
  encode (admin_refresh_claims username is_sudo now).

Definition portal_claims (username : string) (now : Z) : Claims :=
  mkClaims username "portal" false (Some (stamp now)) (short_exp now).
Definition create_portal_token (username : string) (now : Z) : string :=
  encode (portal_claims username now).

Definition APP_REFRESH_TOKEN_EXPIRE_DAYS : Z := 30.

Definition app_claims (username : string) (now : Z) : Claims :=
  mkClaims username "app" false (Some (stamp now)) (short_exp now).
Definition create_app_access_token (username : string) (now : Z) : string :=
  encode (app_claims username now).

Definition app_refresh_claims (username : string) (now : Z) : Claims :=
  mkClaims username "app_refresh" false (Some (stamp now))
    (Some (stamp (now + APP_REFRESH_TOKEN_EXPIRE_DAYS * 86400 * SEC))).
Definition create_app_refresh_token (username : string) (now : Z) : string :=
  encode (app_refresh_claims username now).

Definition app_access_token_expires_in : option Z :=
  if 0 <? JWT_ACCESS_TOKEN_EXPIRE_MINUTES cfg
  then Some (JWT_ACCESS_TOKEN_EXPIRE_MINUTES cfg * 60) else None.

Record TokenBundle := mkBundle {
  access_token : string;
  refresh_token : option string;
  expires_in : option Z }.

Definition admin_token_bundle (username : string) (is_sudo : bool) (now : Z) : TokenBundle :=
  mkBundle (create_admin_token username is_sudo now)
    (Some (create_admin_refresh_token username is_sudo now)) app_access_token_expires_in.

(** Claims with a subject whose [access] is one of [kinds]. *)
Definition claims_for (kinds : list string) (now : Z) (token : string) : option Claims :=
  match decode now token with
  | Some c => if bool_decide (cl_sub c = "") || negb (bool_decide (cl_access c ∈ kinds)) then None
              else Some c
  | None => None
  end.

Record AdminPayload := mkAdminPayload {
  pl_username : string;
  pl_is_sudo : bool;
  pl_created_at : option Z;        (* seconds *)
  pl_iat : option Z }.

Definition get_admin_payload (d : Disk) (now : Z) (token : string) : option AdminPayload :=
  match claims_for ["admin"; "sudo"] now token with
  | Some c => if is_token_revoked d (cl_sub c) (cl_iat c) then None
              else Some (mkAdminPayload (cl_sub c) (bool_decide (cl_access c = "sudo")) (cl_iat c) (cl_iat c))
  | None => None
  end.

Definition get_admin_refresh_payload (d : Disk) (now : Z) (token : string) : option AdminPayload :=
  match claims_for ["admin_refresh"] now token with
  | Some c => if is_token_revoked d (cl_sub c) (cl_iat c) then None
              else Some (mkAdminPayload (cl_sub c) (cl_sudo c) None (cl_iat c))
  | None => None
  end.

Definition get_app_payload (now : Z) (token : string) : option string :=
  option_map cl_sub (claims_for ["app"] now token).
Definition get_app_refresh_payload (now : Z) (token : string) : option string :=
  option_map cl_sub (claims_for ["app_refresh"] now token).
Definition get_portal_payload (now : Z) (token : string) : option (string * option Z) :=
  option_map (λ c, (cl_sub c, cl_iat c)) (claims_for ["portal"] now token).

(** ** Who a token belongs to *)

(** [Admin.get_admin]: name and sudo flag of the admin. *)
Definition get_admin (admins : list AdminRow) (d : Disk) (now : Z) (token : string)
    : option (string * bool) :=
  match get_admin_payload d now token with
  | None => None
  | Some p =>
      if pl_is_sudo p && (bool_decide (pl_username p ∈ SUDOERS cfg)
           || (negb (bool_decide (SUDO_USERNAME cfg = "")) && bool_decide (pl_username p = SUDO_USERNAME cfg)))
      then Some (pl_username p, true)
      else
      match find_admin admins (pl_username p) with
      | None => None
      | Some a =>
          match ad_password_reset_at a, pl_created_at p with
          | Some r, None => None
          | Some r, Some c => if c * SEC <? r then None else Some (ad_username a, ad_is_sudo a)
          | None, _ => Some (ad_username a, ad_is_sudo a)
          end
      end
  end.

(** [Admin.check_sudo_admin] *)
Definition check_sudo_admin (admins : list AdminRow) (d : Disk) (now : Z) (token : string)
    : result (string * bool) :=
  match get_admin admins d now token with
  | None => Raise (HTTPException 401 "Could not validate credentials")
  | Some (u, sudo) => if (sudo : bool) then Ok (u, sudo) else Raise (HTTPException 403 "You're not allowed")
  end.

(** [POST /admin/refresh] *)
Definition admin_refresh (admins : list AdminRow) (d : Disk) (now : Z) (token : string)
    : result TokenBundle :=
  let refused := Raise (HTTPException 401 "Invalid or expired refresh token") in
  let fresh u (sudo : bool) :=
    Ok (mkBundle (create_admin_token u sudo now) None app_access_token_expires_in) in
  match get_admin_refresh_payload d now token with
  | None => refused
  | Some p =>
      match find_admin admins (pl_username p) with
      | Some a => fresh (pl_username p) (ad_is_sudo a)
      | None => if bool_decide (pl_username p = SUDO_USERNAME cfg) && pl_is_sudo p
                then fresh (pl_username p) true else refused
      end
  end.

(** [PUT /admin/me/password], after the request's admin is known.  [verify] and
    [hash] are passlib's. *)
Definition change_my_password (verify : string → string → bool) (hash : string → string)
    (me current_password new_password : string) (now : Z) (admins : list AdminRow)
    : result (list AdminRow) :=
  let new_password := strip new_password in
  if (String.length new_password <? 6)%nat
  then Raise (HTTPException 400 "new_password must be at least 6 characters")
  else match find_admin admins me with
  | None => Raise (HTTPException 400 "Password change requires a database-backed admin")
  | Some a =>
      if negb (verify current_password (ad_hashed_password a))
      then Raise (HTTPException 400 "Current password is incorrect")
      else Ok (map (λ b, if bool_decide (ad_username b = me)
                         then mkAdminRow (ad_username b) (ad_is_sudo b) (hash new_password) (Some now)
                         else b) admins)
  end.

(** [get_current_portal_user].  [auth] is the Authorization header; [tz] the
    server's offset from UTC, which [timestamp()] subtracts from a naive value. *)
Definition get_current_portal_user (user_portal : bool) (tz : Z) (users : list PortalRow) (now : Z)
    (auth : string) : result PortalRow :=
  if negb user_portal then Raise (HTTPException 404 "User portal is disabled")
  else if negb (String.prefix "Bearer " auth) then Raise (HTTPException 401 "Not authenticated")
  else match get_portal_payload now (String.substring 7 (String.length auth - 7) auth) with
  | None => Raise (HTTPException 401 "Invalid or expired token")
  | Some (name, iat) =>
      match find_portal users name with
      | None => Raise (HTTPException 401 "Portal access disabled")
      | Some u =>
          if negb (pu_portal_enabled u) then Raise (HTTPException 401 "Portal access disabled")
          else match pu_portal_password_reset_at u, iat with
          | Some r, Some i =>
              if i <? Z.quot (r - tz) SEC then Raise (HTTPException 401 "Session expired — sign in again")
              else Ok u
          | _, _ => Ok u
          end
      end
  end.

(** [get_current_app_user] and [POST /auth/refresh] of the application API. *)
Definition get_current_app_user (client_api : bool) (users : list PortalRow) (now : Z) (auth : string)
    : result PortalRow :=
  if negb client_api then Raise (HTTPException 404 "Client API is disabled")
  else if negb (String.prefix "Bearer " auth) then Raise (HTTPException 401 "Not authenticated")
  else match get_app_payload now (String.substring 7 (String.length auth - 7) auth) with
  | None => Raise (HTTPException 401 "Invalid or expired token")
  | Some name =>
      match find_portal users name with
      | Some u => if pu_portal_enabled u then Ok u else Raise (HTTPException 401 "App access disabled")
      | None => Raise (HTTPException 401 "App access disabled")
      end
  end.

Definition app_refresh (client_api : bool) (users : list PortalRow) (now : Z) (token : string)
    : result TokenBundle :=
  if negb client_api then Raise (HTTPException 404 "Client API is disabled")
  else match get_app_refresh_payload now token with
  | None => Raise (HTTPException 401 "Invalid or expired refresh token")
  | Some name =>
      match find_portal users name with
      | Some u => if pu_portal_enabled u
                  then Ok (mkBundle (create_app_access_token (pu_username u) now) None app_access_token_expires_in)
                  else Raise (HTTPException 401 "App access disabled")
      | None => Raise (HTTPException 401 "App access disabled")
      end
  end.
End jwt.
End Tokens.

(** ** Facts *)
Module TokenFacts.
Import Tokens.

Lemma stamp_le t : stamp t * SEC ≤ t < stamp t * SEC + SEC.
Proof.
  unfold stamp. pose proof (Z.div_mod t SEC). pose proof (Z.mod_pos_bound t SEC).
  unfold SEC in *. lia.
Qed.

Section facts.
Context {J : Jwt} {L : JwtLaws J} (cfg : Config).

Lemma decode_issued now c :
  decode now (encode c) = if in_force now c then Some c else None.
Proof.
  destruct (in_force now c) eqn:E; [by apply decode_encode|].
  destruct (decode now (encode c)) as [c'|] eqn:D; [|done].
  pose proof (decode_in_force _ _ _ D). apply decode_encode_same in D as ->. congruence.
Qed.

Lemma claims_for_issued kinds now c :
  claims_for kinds now (encode c)
  = if in_force now c && (negb (bool_decide (cl_sub c = "")) && bool_decide (cl_access c ∈ kinds))
    then Some c else None.
Proof.
  unfold claims_for. rewrite decode_issued. destruct (in_force now c); [|done].
  by destruct (bool_decide (cl_sub c = "")), (bool_decide (cl_access c ∈ kinds)).
Qed.

(** The five kinds of token, how each is issued and where each is accepted. *)
Inductive Kind := KAdmin | KAdminRefresh | KPortal | KApp | KAppRefresh.

#[global] Instance Kind_eq_dec : EqDecision Kind.
Proof. solve_decision. Defined.

Definition claims_of (k : Kind) (u : string) (sudo : bool) (t : Z) : Claims :=
  match k with
  | KAdmin => admin_claims cfg u sudo t
  | KAdminRefresh => admin_refresh_claims cfg u sudo t
  | KPortal => portal_claims cfg u t
  | KApp => app_claims cfg u t
  | KAppRefresh => app_refresh_claims u t
  end.

Definition issue (k : Kind) (u : string) (sudo : bool) (t : Z) : string :=
  match k with
  | KAdmin => create_admin_token cfg u sudo t
  | KAdminRefresh => create_admin_refresh_token cfg u sudo t
  | KPortal => create_portal_token cfg u t
  | KApp => create_app_access_token cfg u t
  | KAppRefresh => create_app_refresh_token u t
  end.

(** Who the getter of kind [k] says the bearer is. *)
Definition bearer (k : Kind) (d : Disk) (now : Z) (token : string) : option string :=
  match k with
  | KAdmin => option_map pl_username (get_admin_payload d now token)
  | KAdminRefresh => option_map pl_username (get_admin_refresh_payload d now token)
  | KPortal => option_map fst (get_portal_payload now token)
  | KApp => get_app_payload now token
  | KAppRefresh => get_app_refresh_payload now token
  end.

(** Only the two admin kinds look at the sessions file. *)
Definition revocable (k : Kind) : bool :=
  match k with KAdmin | KAdminRefresh => true | _ => false end.

Lemma issue_claims k u sudo t : issue k u sudo t = encode (claims_of k u sudo t).
Proof. by destruct k. Qed.

Lemma claims_of_sub k u sudo t :
  cl_sub (claims_of k u sudo t) = u ∧ cl_iat (claims_of k u sudo t) = Some (stamp t).
Proof. by destruct k. Qed.

Definition kinds_of (k : Kind) : list string :=
  match k with
  | KAdmin => ["admin"; "sudo"] | KAdminRefresh => ["admin_refresh"]
  | KPortal => ["portal"] | KApp => ["app"] | KAppRefresh => ["app_refresh"]
  end.

Lemma access_in k k' u sudo t :
  bool_decide (cl_access (claims_of k u sudo t) ∈ kinds_of k') = bool_decide (k = k').
Proof. destruct k, k', sudo; reflexivity. Qed.

(** Every getter is the same check, up to the kinds it takes and revocation. *)
Lemma bearer_spec k d now token :
  bearer k d now token
  = match claims_for (kinds_of k) now token with
    | Some c => if revocable k && is_token_revoked d (cl_sub c) (cl_iat c) then None else Some (cl_sub c)
    | None => None
    end.
Proof.
  destruct k; cbn [bearer kinds_of revocable andb];
    unfold get_admin_payload, get_admin_refresh_payload, get_portal_payload, get_app_payload,
      get_app_refresh_payload; destruct (claims_for _ _ _) as [c|]; cbn; try done;
    by destruct (is_token_revoked _ _ _).
Qed.

(** C31. A token opens exactly the door it was issued for: the getter of kind [k']
    accepts a token of kind [k] only when the kinds are equal, the name is not
    empty, the library's time window holds and, for admins, no revocation is
    newer than the token; and it then names the user the token was issued to. *)
Theorem token_opens_its_door k k' u sudo t d now :
  bearer k' d now (issue k u sudo t)
  = if bool_decide (k = k') && negb (bool_decide (u = "")) && in_force now (claims_of k u sudo t)
       && negb (revocable k' && is_token_revoked d u (Some (stamp t)))
    then Some u else None.
Proof.
  rewrite bearer_spec, issue_claims, claims_for_issued, access_in.
  destruct (claims_of_sub k u sudo t) as [-> Hi].
  destruct (in_force _ _), (bool_decide (u = "")), (bool_decide (k = k')); cbn; try done.
  rewrite Hi. destruct (claims_of_sub k u sudo t) as [-> _]. by destruct (revocable k' && _).
Qed.

(** ** Revocation *)
Inductive SessionOp :=
  | LogIn (username ip : string) (is_sudo : bool) (iat : option Z) (now : Z)
  | Revoke (username : string) (before : option Z) (now : Z).

Definition session_step (d : Disk) (o : SessionOp) : Disk :=
  match o with
  | LogIn u ip s i t => record_login u ip s i t d
  | Revoke u b t => revoke_user_sessions u b t d
  end.

Definition cutoff (d : Disk) (u : string) : Z := default 0 (revoked_before (_load d) !! u).

Lemma cutoff_step d o u : cutoff d u ≤ cutoff (session_step d o) u.
Proof.
  destruct o as [v ip s i t|v b t]; cbn; [unfold cutoff; cbn; lia|].
  unfold cutoff; cbn. destruct (decide (u = v)) as [->|].
  - rewrite lookup_insert_eq. cbn. lia.
  - rewrite lookup_insert_ne by done. lia.
Qed.

Lemma cutoff_steps ops d u : cutoff d u ≤ cutoff (foldl session_step d ops) u.
Proof.
  revert d. induction ops as [|o ops IH]; intros d; cbn; [lia|].
  etrans; [apply (cutoff_step d o)|apply IH].
Qed.

Lemma cutoff_revoke d u b t : default t b ≤ cutoff (revoke_user_sessions u b t d) u.
Proof. unfold cutoff; cbn. rewrite lookup_insert_eq. cbn. lia. Qed.

(** C32. A revocation is final: whatever log-ins and revocations follow it, no token of
    the user issued in a second that began before the cut-off is accepted again, at
    any time, neither as an access token nor as a refresh token. *)
Theorem revoked_stays_revoked d u before t ops now token c i k :
  decode now token = Some c → cl_sub c = u → cl_iat c = Some i →
  i * SEC < default t before → revocable k = true →
  bearer k (foldl session_step (revoke_user_sessions u before t d) ops) now token = None.
Proof.
  intros D Hs Hi Hlt Hk. rewrite bearer_spec, Hk. cbn [andb].
  destruct (claims_for _ now token) as [c'|] eqn:E; [|done].
  unfold claims_for in E. rewrite D in E. destruct (_ || _); simplify_eq. rewrite Hi. cbn [is_token_revoked].
  pose proof (cutoff_steps ops (revoke_user_sessions (cl_sub c') before t d) (cl_sub c')) as H1.
  pose proof (cutoff_revoke d (cl_sub c') before t) as H2.
  fold (cutoff (foldl session_step (revoke_user_sessions (cl_sub c') before t d) ops) (cl_sub c')).
  by destruct (Z.ltb_spec (i * SEC) (cutoff (foldl session_step
    (revoke_user_sessions (cl_sub c') before t d) ops) (cl_sub c'))); [|lia].
Qed.

(** A log-in that loads the sessions file before a revocation is saved and saves
    after it undoes the revocation: every token is judged as before it. *)
Theorem racing_login_undoes_revocation d u before t v ip sudo iat t' u' i :
  let loaded := _load d in
  let revoked := revoke_user_sessions u before t d in
  let after := _save (with_login v ip sudo iat t' loaded) in
  i * SEC < default t before →
  is_token_revoked revoked u (Some i) = true
  ∧ is_token_revoked after u' (Some i) = is_token_revoked d u' (Some i).
Proof.
  intros loaded revoked after Hlt. split; [|done].
  cbn [is_token_revoked]. fold (cutoff revoked u).
  pose proof (cutoff_revoke d u before t) as H. fold revoked in H.
  by destruct (Z.ltb_spec (i * SEC) (cutoff revoked u)); [|lia].
Qed.

(** ** A password change *)
Lemma find_admin_some admins u a :
  find_admin admins u = Some a → ad_username a = u.
Proof.
  unfold find_admin. destruct (list_find _ _) as [[n b]|] eqn:E; cbn; intros; simplify_eq.
  by apply list_find_Some in E as (_ & ? & _).
Qed.

Lemma find_admin_map admins u f :
  (∀ a, ad_username (f a) = ad_username a) → find_admin (map f admins) u = option_map f (find_admin admins u).
Proof.
  intros Hf. unfold find_admin. induction admins as [|a l IH]; [done|]. cbn.
  destruct (decide (ad_username (f a) = u)) as [E|E]; rewrite Hf in E.
  - by rewrite decide_True.
  - rewrite decide_False by done. revert IH.
    destruct (list_find _ (map f l)) as [[? ?]|], (list_find _ l) as [[? ?]|]; cbn; congruence.
Qed.

Lemma changed_password verify hash me cur new t admins admins' :
  change_my_password verify hash me cur new t admins = Ok admins' →
  ∃ a, find_admin admins me = Some a
     ∧ find_admin admins' me = Some (mkAdminRow me (ad_is_sudo a) (hash (strip new)) (Some t)).
Proof.
  unfold change_my_password. destruct (_ <? _)%nat; [done|].
  destruct (find_admin admins me) as [a|] eqn:E; [|done]. destruct (negb _); [done|]. intros; simplify_eq.
  exists a. split; [done|]. rewrite find_admin_map, E by (intros b; by case_bool_decide).
  cbn. apply find_admin_some in E. by rewrite E, bool_decide_true.
Qed.

(** Not a name of the configuration: [get_admin] then needs a row. *)
Definition db_name (u : string) : Prop :=
  u ≠ "" ∧ u ∉ SUDOERS cfg ∧ u ≠ SUDO_USERNAME cfg.

Lemma get_admin_issued admins d now u sudo t :
  db_name u → in_force now (admin_claims cfg u sudo t) = true → is_token_revoked d u (Some (stamp t)) = false →
  get_admin cfg admins d now (create_admin_token cfg u sudo t)
  = match find_admin admins u with
    | Some a => match ad_password_reset_at a with
                | Some r => if stamp t * SEC <? r then None else Some (ad_username a, ad_is_sudo a)
                | None => Some (ad_username a, ad_is_sudo a)
                end
    | None => None
    end.
Proof.
  intros (H1 & H2 & H3) Hf Hr. unfold get_admin, get_admin_payload, create_admin_token.
  rewrite claims_for_issued, Hf. rewrite bool_decide_false by done.
  rewrite bool_decide_true by (destruct sudo; set_solver). cbn [negb andb]. cbn [cl_sub admin_claims cl_iat].
  rewrite Hr. cbn. rewrite (bool_decide_false (u ∈ _)), (bool_decide_false (u = SUDO_USERNAME cfg)) by done.
  rewrite !andb_false_r. cbn. done.
Qed.

(** After a password change an older access token is refused, but the refresh
    token that came with it is not: [/admin/refresh] turns it into an access
    token that [Admin.get_admin] accepts, until the refresh token expires. *)
Theorem refresh_survives_password_change verify hash u cur new admins admins' d sudo t0 t1 t2 :
  change_my_password verify hash u cur new t1 admins = Ok admins' →
  db_name u → stamp t0 * SEC < t1 → t1 ≤ stamp t2 * SEC →
  0 < JWT_ACCESS_TOKEN_EXPIRE_MINUTES cfg →
  in_force t2 (admin_refresh_claims cfg u sudo t0) = true →
  is_token_revoked d u (Some (stamp t0)) = false → is_token_revoked d u (Some (stamp t2)) = false →
  (in_force t2 (admin_claims cfg u sudo t0) = true →
   get_admin cfg admins' d t2 (create_admin_token cfg u sudo t0) = None)
  ∧ ∃ b a, find_admin admins u = Some a
      ∧ admin_refresh cfg admins' d t2 (create_admin_refresh_token cfg u sudo t0) = Ok b
      ∧ get_admin cfg admins' d t2 (access_token b) = Some (u, ad_is_sudo a).
Proof.
  intros (a & Ha & Ha')%changed_password Hu H01 H12 Hm Hf Hr0 Hr2. split.
  - intros Hf0. rewrite get_admin_issued by done. rewrite Ha'. cbn. by destruct (Z.ltb_spec (stamp t0 * SEC) t1); [|lia].
  - exists (mkBundle (create_admin_token cfg u (ad_is_sudo a) t2) None (app_access_token_expires_in cfg)), a.
    split; [done|]. split.
    + unfold admin_refresh, get_admin_refresh_payload, create_admin_refresh_token.
      rewrite claims_for_issued, Hf, bool_decide_false, bool_decide_true by (destruct Hu; set_solver).
      cbn [negb andb cl_sub cl_iat admin_refresh_claims]. rewrite Hr0. cbn [pl_username]. by rewrite Ha'.
    + cbn [access_token]. rewrite get_admin_issued; [|done| |done].
      * rewrite Ha'. cbn. by destruct (Z.ltb_spec (stamp t2 * SEC) t1); [lia|].
      * unfold in_force. cbn. unfold short_exp. destruct (Z.ltb_spec 0 (JWT_ACCESS_TOKEN_EXPIRE_MINUTES cfg)); [|lia].
        pose proof (stamp_le t2). pose proof (stamp_le (t2 + JWT_ACCESS_TOKEN_EXPIRE_MINUTES cfg * 60 * SEC)).
        unfold SEC in *. apply andb_true_iff. split; [apply Z.ltb_lt|apply Z.leb_le]; lia.
Qed.

(** A log-in in the second of the password change, after it, is refused: the token's
    time is cut to the second, the reset time is not. *)
Theorem login_in_second_of_reset_refused admins d now u sudo t a r :
  find_admin admins u = Some a → ad_password_reset_at a = Some r → db_name u →
  in_force now (admin_claims cfg u sudo t) = true → is_token_revoked d u (Some (stamp t)) = false →
  r ≤ t → stamp r = stamp t → r ≠ stamp r * SEC →
  get_admin cfg admins d now (create_admin_token cfg u sudo t) = None.
Proof.
  intros Ha Hr Hu Hf Hv Hle Hs Hne. rewrite get_admin_issued, Ha, Hr by done.
  pose proof (stamp_le r). rewrite <- Hs. by destruct (Z.ltb_spec (stamp r * SEC) r); [|lia].
Qed.

(** ** The portal *)
Definition bearer_header (token : string) : string := String.append "Bearer " token.

Lemma bearer_header_token token :
  String.prefix "Bearer " (bearer_header token) = true
  ∧ String.substring 7 (String.length (bearer_header token) - 7) (bearer_header token) = token.
Proof.
  split; [by destruct token|].
  change (String.substring 7 _ _) with (String.substring 0 (String.length token - 0) token).
  rewrite Nat.sub_0_r. induction token as [|c s IH]; [done|]. cbn. by rewrite IH.
Qed.

Lemma portal_issued tz users now name t u :
  name ≠ "" → find_portal users name = Some u → pu_portal_enabled u = true →
  in_force now (portal_claims cfg name t) = true →
  get_current_portal_user true tz users now (bearer_header (create_portal_token cfg name t))
  = match pu_portal_password_reset_at u with
    | Some r => if stamp t <? Z.quot (r - tz) SEC then Raise (HTTPException 401 "Session expired — sign in again")
                else Ok u
    | None => Ok u
    end.
Proof.
  intros Hn Hu He Hf. unfold get_current_portal_user.
  destruct (bearer_header_token (create_portal_token cfg name t)) as [-> ->].
  unfold get_portal_payload, create_portal_token. rewrite claims_for_issued, Hf, bool_decide_false by done.
  rewrite bool_decide_true by (cbn; set_solver). cbn [negb andb option_map]. cbn [portal_claims cl_sub cl_iat].
  rewrite Hu, He. done.
Qed.

(** The portal compares the token's UTC second with the reset time read as local
    time.  On a server at UTC a session from an earlier second than the reset is
    closed by it; on a server [tz] ahead of UTC every session opened less than
    [tz] before the reset survives it. *)
Theorem portal_reset_reads_local_time users now name t u r tz :
  name ≠ "" → find_portal users name = Some u → pu_portal_enabled u = true →
  pu_portal_password_reset_at u = Some r → 0 ≤ tz ≤ r →
  in_force now (portal_claims cfg name t) = true →
  let answer tz := get_current_portal_user true tz users now (bearer_header (create_portal_token cfg name t)) in
  (stamp t < stamp r → is_ok (answer 0) = false)
  ∧ (r - tz ≤ t → answer tz = Ok u).
Proof.
  intros Hn Hu He Hr Htz Hf answer. unfold answer. rewrite !(portal_issued _ _ _ _ _ u), Hr by done. split.
  - intros Hlt. rewrite Z.sub_0_r, Z.quot_div_nonneg by (unfold SEC; lia). fold (stamp r).
    by destruct (Z.ltb_spec (stamp t) (stamp r)); [|lia].
  - intros Hle. rewrite Z.quot_div_nonneg by (unfold SEC; lia). fold (stamp (r - tz)).
    destruct (Z.ltb_spec (stamp t) (stamp (r - tz))) as [Hb|_]; [|done].
    pose proof (stamp_le t). pose proof (stamp_le (r - tz)). unfold SEC in *. lia.
Qed.

(** The application's sessions do not look at the reset time: a password change
    leaves access and refresh tokens of the application as they were. *)
Theorem app_session_survives_password_change users now name t u hash new t' u' :
  name ≠ "" → find_portal users name = Some u → pu_portal_enabled u = true →
  set_portal_password hash new t' u = Ok u' →
  in_force now (app_claims cfg name t) = true → in_force now (app_refresh_claims name t) = true →
  let users' := map (λ v, if bool_decide (lower (pu_username v) = lower (pu_username u)) then u' else v) users in
  get_current_app_user true users' now (bearer_header (create_app_access_token cfg name t)) = Ok u'
  ∧ is_ok (app_refresh cfg true users' now (create_app_refresh_token name t)) = true.
Proof.
  intros Hn Hu He Hp Hf1 Hf2 users'.
  unfold set_portal_password in Hp. destruct (_ <? _)%nat; simplify_eq.
  assert (Hu' : find_portal users' name = Some (mkPortalRow (pu_username u) (hash new) true (Some t'))).
  { subst users'. unfold find_portal in *.
    destruct (list_find _ users) as [[n v]|] eqn:E; cbn in Hu; simplify_eq.
    assert (Hl : lower (pu_username u) = lower name) by by apply list_find_Some in E as (_ & ? & _).
    revert n E. induction users as [|w l IH]; intros n E; [done|]. cbn in E |- *.
    case_bool_decide as Hw.
    - cbn. rewrite decide_True by done. done.
    - destruct (decide (lower (pu_username w) = lower name)) as [E1|E1]; [congruence|].
      destruct (list_find _ l) as [[m v]|] eqn:E2; cbn in E; simplify_eq. cbn.
      specialize (IH _ eq_refl). destruct (list_find _ (map _ l)) as [[? ?]|]; cbn in *; congruence. }
  split.
  - unfold get_current_app_user. destruct (bearer_header_token (create_app_access_token cfg name t)) as [-> ->].
    unfold get_app_payload, create_app_access_token. rewrite claims_for_issued, Hf1, bool_decide_false by done.
    rewrite bool_decide_true by (cbn; set_solver). cbn [negb andb option_map]. cbn [app_claims cl_sub].
    by rewrite Hu'.
  - unfold app_refresh, get_app_refresh_payload, create_app_refresh_token.
    rewrite claims_for_issued, Hf2, bool_decide_false by done.
    rewrite bool_decide_true by (cbn; set_solver). cbn [negb andb option_map]. cbn [app_refresh_claims cl_sub].
    by rewrite Hu'.
Qed.
End facts.
End TokenFacts.

(** ** Concrete runs, with a codec in the place of the JWT library *)
Module TokenExamples.
Import Tokens TokenFacts.

#[global] Instance Claims_eq_dec : EqDecision Claims.
Proof. solve_decision. Defined.
#[global] Instance Claims_countable : Countable Claims.
Proof.
  refine (inj_countable' (λ c, (cl_sub c, cl_access c, cl_sudo c, cl_iat c, cl_exp c))
    (λ '(a, b, s, i, e), mkClaims a b s i e) _). by intros [].
Defined.

Fixpoint pos_text (p : positive) : string :=
  match p with
  | xH => ""
  | xO p => String.String (Ascii.ascii_of_nat 48) (pos_text p)
  | xI p => String.String (Ascii.ascii_of_nat 49) (pos_text p)
  end.

Fixpoint text_pos (s : string) : positive :=
  match s with
  | String.EmptyString => xH
  | String.String c s => if Ascii.eqb c (Ascii.ascii_of_nat 48) then xO (text_pos s) else xI (text_pos s)
  end.

Lemma text_pos_text p : text_pos (pos_text p) = p.
Proof. induction p as [p IH|p IH|]; cbn; by rewrite ?IH. Qed.

#[export] Instance codec : Jwt := {|
  encode c := pos_text (countable.encode c);
  decode now t := match countable.decode (text_pos t) with
                  | Some c => if in_force now c then Some c else None
                  | None => None
                  end |}.

#[export] Instance codec_laws : JwtLaws codec.
Proof.
  split; cbn.
  - intros now c H. by rewrite text_pos_text, countable.decode_encode, H.
  - intros now t c. destruct (countable.decode _); [|done]. by destruct (in_force _ _) eqn:E; intros; simplify_eq.
  - intros now c c'. rewrite text_pos_text, countable.decode_encode. by destruct (in_force _ _); intros; simplify_eq.
Qed.

Definition cfg0 : Config := mkConfig 60 7 ["root"] "root".

(** A portal token of [ali] is refused by the admin getter and taken by the portal's. *)
Lemma token_opens_its_door_witness :
  bearer KAdmin missing 5000000 (issue cfg0 KPortal "ali" false 3000000) = None
  ∧ bearer KPortal missing 5000000 (issue cfg0 KPortal "ali" false 3000000) = Some "ali".
Proof. split; rewrite (token_opens_its_door cfg0 KPortal); reflexivity. Defined.

(** [bob]'s token of second 3 stays revoked after two more log-ins. *)
Lemma revoked_stays_revoked_witness :
  bearer KAdmin
    (foldl session_step (revoke_user_sessions "bob" None 5000000 missing)
       [LogIn "bob" "10.0.0.1" false None 6000000; LogIn "eve" "10.0.0.2" false None 7000000])
    8000000 (create_admin_token cfg0 "bob" false 3000000) = None.
Proof.
  apply (revoked_stays_revoked missing "bob" None 5000000 _ 8000000 _ (admin_claims cfg0 "bob" false 3000000) 3 KAdmin);
    [apply Tokens.decode_encode; reflexivity|reflexivity|reflexivity|cbn; unfold SEC; lia|reflexivity].
Defined.

Lemma racing_login_undoes_revocation_witness :
  is_token_revoked (revoke_user_sessions "bob" None 5000000 missing) "bob" (Some 3) = true
  ∧ is_token_revoked (_save (with_login "eve" "10.0.0.2" false None 5000001 (_load missing))) "bob" (Some 3) = false.
Proof.
  destruct (racing_login_undoes_revocation missing "bob" None 5000000 "eve" "10.0.0.2" false None 5000001 "bob" 3)
    as [H1 H2]; [cbn; unfold SEC; lia|]. split; [exact H1|]. rewrite H2. reflexivity.
Defined.

Definition bob_row : AdminRow := mkAdminRow "bob" false "h(old secret)" None.
Definition pass_ok (p h : string) : bool := bool_decide (h = String.append "h(" (String.append p ")")).
Definition pass_hash (p : string) : string := String.append "h(" (String.append p ")").

(** [bob] logs in at 3 s and changes the password at 5.5 s; at 8 s the old access
    token is dead and the old refresh token is not. *)
Lemma refresh_survives_password_change_witness :
  ∃ admins' b,
    change_my_password pass_ok pass_hash "bob" "old secret" "new secret" 5500000 [bob_row] = Ok admins'
    ∧ get_admin cfg0 admins' missing 8000000 (create_admin_token cfg0 "bob" false 3000000) = None
    ∧ admin_refresh cfg0 admins' missing 8000000 (create_admin_refresh_token cfg0 "bob" false 3000000) = Ok b
    ∧ get_admin cfg0 admins' missing 8000000 (access_token b) = Some ("bob", false).
Proof.
  destruct (refresh_survives_password_change cfg0 pass_ok pass_hash "bob" "old secret" "new secret" [bob_row]
    [mkAdminRow "bob" false "h(new secret)" (Some 5500000)] missing false 3000000 5500000 8000000)
    as [H1 (b & a & Ha & H2 & H3)];
    [reflexivity|split_and!; [done|cbn; set_solver|done]|reflexivity|by vm_compute|reflexivity|reflexivity|reflexivity|reflexivity|].
  injection Ha as <-. exists [mkAdminRow "bob" false "h(new secret)" (Some 5500000)], b.
  split_and!; [reflexivity|by apply H1|exact H2|exact H3].
Defined.

Definition ali_row : PortalRow := mkPortalRow "Ali" "h" true (Some 20000000000).

(** Tehran, UTC+3:30: a session one hour older than the reset survives it. *)
Lemma portal_reset_reads_local_time_witness :
  get_current_portal_user true 12600000000 [ali_row] 20100000000
    (bearer_header (create_portal_token cfg0 "Ali" 16600000000)) = Ok ali_row.
Proof.
  destruct (portal_reset_reads_local_time cfg0 [ali_row] 20100000000 "Ali" 16600000000 ali_row 20000000000 12600000000)
    as [_ H]; [done|reflexivity|reflexivity|reflexivity|lia|reflexivity|]. apply H. lia.
Defined.
End TokenExamples.
