(* ===== verification/SubLinks.v ===== *)
(** * SubLinks: who a subscription link belongs to

    The signed subscription tokens of [app/utils/jwt.py], the checks of a link in
    [get_validated_sub] ([app/dependencies.py]) with the alias tables behind it
    ([db/crud.py], [subscription/endpoint_resolver.py]), and the operations that
    change a link: rotate, set and revoke ([db/crud.py], [models/proxy.py]).

    Text is UTF-8 bytes ([Base64]).  SHA-256 and an old-style JWT link are
    parameters.  Columns with a time are microseconds since the epoch, UTC; a
    token carries whole seconds. *)
From S2P Require Import Prelude Portal Base64.
From S2P Require Import CoreSync.

Module SubLinks.
Import Base64.

Definition SEC : Z := 1000000.

(** ** Rows *)

(** [ProxySettings] of [models/proxy.py], the credentials of each protocol. *)
Inductive ProxySettings :=
  | VMessSettings (id : string)
  | VLESSSettings (id flow : string)
  | TrojanSettings (password flow : string)
  | ShadowsocksSettings (password method : string)
  | WireGuardSettings (private_key public_key preshared_key : string) (address : option string)
  | Hysteria2Settings (password : string)
  | TUICSettings (uuid password : string)
  | AnyTLSSettings (password : string).

Record SubUser := mkSubUser {
  su_id : Z;
  su_username : string;
  su_admin_id : option Z;
  su_sub_token : option string;
  su_sub_revoked_at : option Z;
  su_created_at : Z;
  su_proxies : list ProxySettings }.
#[export] Instance SubUser_eta : Eta SubUser := λ r,
  mkSubUser (su_id r) (su_username r) (su_admin_id r) (su_sub_token r) (su_sub_revoked_at r)
    (su_created_at r) (su_proxies r).

Record SubscriptionTokenAlias := mkAlias {
  al_token : string;
  al_user_id : Z;
  al_endpoint_id : option Z;
  al_source : string }.

Record SubscriptionEndpoint := mkEndpoint {
  ep_id : Z;
  ep_slug : string;
  ep_host : option string;
  ep_inbound_tag : option string;
  ep_legacy_panel_id : option string;
  ep_enabled : bool }.

(** Tables in the order of their primary keys. *)
Record SubDB := mkSubDB {
  sub_users : list SubUser;
  sub_admins : gmap Z (option Z);            (* admin to tenant_id *)
  sub_aliases : list SubscriptionTokenAlias;
  sub_endpoints : list SubscriptionEndpoint }.
#[export] Instance SubDB_eta : Eta SubDB := λ r,
  mkSubDB (sub_users r) (sub_admins r) (sub_aliases r) (sub_endpoints r).

Definition first {A} (f : A → bool) (l : list A) : option A := List.find f l.

(** ** [app/utils/jwt.py]: signed subscription tokens *)
Definition _SUBSCRIPTION_SIG_LEN : nat := 22.
Definition _LEGACY_SUBSCRIPTION_SIG_LEN : nat := 10.

Definition comma : Ascii.ascii := of_byte 44.

(** [s.split(",", 1)], [None] when there is one part. *)
Fixpoint split_comma (l : list Ascii.ascii) : option (list Ascii.ascii * list Ascii.ascii) :=
  match l with
  | [] => None
  | c :: l => if Ascii.eqb c comma then Some ([], l)
              else match split_comma l with Some (a, b) => Some (c :: a, b) | None => None end
  end.

Record SubPayload := mkSubPayload { sub_username : string; sub_created_at : Z }.

(** [datetime.utcfromtimestamp] takes the years 1 to 9999. *)
Definition utcfromtimestamp (t : Z) : result Z :=
  if in_range (-62135596800) 253402300799 t then Ok t else Raise (ValueError "year is out of range").

Definition jwt_prefix : list Ascii.ascii := chars "eyJhbGciOiJIUzI1NiIsInR5cCI6IkpXVCJ9.".

Section links.
(** SHA-256 of a text followed by the secret key; the payload of an old-style link,
    [None] when decoding raises or the access is not ["subscription"]. *)
Context (digest : list Ascii.ascii → list Ascii.ascii) (from_jwt : string → option SubPayload).

Definition _subscription_signature (data : list Ascii.ascii) (length : nat) : list Ascii.ascii :=
  take length (b64encode (digest data)).

Definition create_subscription_token (username : string) (issued_at : option Z) : string :=
  let ts := default 0 issued_at in
  let data := chars username ++ comma :: chars (print_int ts) in
  let data_b64 := rstrip_pad (b64encode data) in
  text (data_b64 ++ _subscription_signature data_b64 _SUBSCRIPTION_SIG_LEN).

(** One turn of the loop over signature lengths: [None] continues. *)
Definition try_signature (token : list Ascii.ascii) (sig_len : nat) : option (result SubPayload) :=
  if (length token <? sig_len + 5)%nat then None
  else
  let u_token := take (length token - sig_len) token in
  let u_signature := drop (length token - sig_len) token in
  match b64decode (repad u_token) with
  | None => None
  | Some dec =>
      if negb (decodes dec) then None
      else if bool_decide (u_signature = _subscription_signature u_token sig_len) then
        match split_comma dec with
        | None => None
        | Some (u, ts) =>
            match parse_int (text ts) with
            | Some t => match utcfromtimestamp t with
                        | Ok t => Some (Ok (mkSubPayload (text u) t))
                        | Raise e => Some (Raise e)
                        end
            | None => Some (Raise (ValueError "invalid literal for int()"))
            end
        end
      else None
  end.

Fixpoint try_signatures (token : list Ascii.ascii) (lens : list nat) : result (option SubPayload) :=
  match lens with
  | [] => Ok None
  | n :: lens => match try_signature token n with
                 | Some (Ok p) => Ok (Some p)
                 | Some (Raise e) => Raise e
                 | None => try_signatures token lens
                 end
  end.

Definition get_subscription_payload (token : string) : result (option SubPayload) :=
  let l := chars token in
  if (length l <? 15)%nat then Ok None
  else if bool_decide (take (length jwt_prefix) l = jwt_prefix) then Ok (from_jwt token)
  else try_signatures l [_SUBSCRIPTION_SIG_LEN; _LEGACY_SUBSCRIPTION_SIG_LEN].

(** ** Aliases *)
Definition get_subscription_token_alias (db : SubDB) (token : string) (endpoint_id : option Z)
    : option SubscriptionTokenAlias :=
  if bool_decide (token = "") then None
  else first (λ a, bool_decide (al_token a = token) && bool_decide (al_endpoint_id a = endpoint_id))
         (sub_aliases db).

Definition get_subscription_token_alias_any_endpoint (db : SubDB) (token : string)
    : option SubscriptionTokenAlias :=
  if bool_decide (token = "") then None
  else first (λ a, bool_decide (al_token a = token)) (sub_aliases db).

Definition or_else {A} (a b : option A) : option A := match a with Some _ => a | None => b end.

(** A lookup by the token as given, then in lower case when that differs. *)
Definition either_case (look : string → option SubscriptionTokenAlias) (token : string)
    : option SubscriptionTokenAlias :=
  or_else (look token) (if bool_decide (token = lower token) then None else look (lower token)).

(** [_TAG_SAFE.sub("-", s)]: runs of other characters than letters, digits, [_], [-]. *)
Definition tag_safe (c : Ascii.ascii) : bool :=
  let n := byte_of c in
  in_range 48 57 n || in_range 65 90 n || in_range 97 122 n || (n =? 95) || (n =? 45).

Fixpoint sub_unsafe (in_run : bool) (l : list Ascii.ascii) : list Ascii.ascii :=
  match l with
  | [] => []
  | c :: l => if tag_safe c then c :: sub_unsafe false l
              else if in_run then sub_unsafe true l else of_byte 45 :: sub_unsafe true l
  end.

Fixpoint drop_dashes (l : list Ascii.ascii) : list Ascii.ascii :=
  match l with
  | c :: l' => if Ascii.eqb c (of_byte 45) then drop_dashes l' else l
  | [] => []
  end.

Definition safe_slug (raw : string) : string :=
  let s := text (rev (drop_dashes (rev (drop_dashes (sub_unsafe false (chars (strip raw))))))) in
  if bool_decide (s = "") then raw else s.

Definition set_text (o : option string) : option string :=
  match o with Some s => if bool_decide (s = "") then None else Some s | None => None end.

Definition _panel_prefix_candidates (ep : SubscriptionEndpoint) : list string :=
  omap (λ o, option_map safe_slug (set_text o)) [Some (ep_slug ep); ep_legacy_panel_id ep].

Definition panel_endpoint_ids_for_subscription (db : SubDB) (endpoint : SubscriptionEndpoint) : list Z :=
  match set_text (ep_inbound_tag endpoint) with
  | None => []
  | Some raw =>
      let tag := strip raw in
      map ep_id (List.filter (λ ep,
        ep_enabled ep
        && negb (negb (is_none (set_text (ep_inbound_tag ep))) || bool_decide (ep_slug ep = "default"))
        && existsb (λ c, bool_decide (tag = c) || String.prefix (String.append c "-") tag)
             (_panel_prefix_candidates ep)) (sub_endpoints db))
  end.

(** The alias of a panel endpoint behind a per-inbound endpoint. *)
Fixpoint panel_alias (db : SubDB) (token : string) (ids : list Z) : option SubscriptionTokenAlias :=
  match ids with
  | [] => None
  | i :: ids => or_else (either_case (λ t, get_subscription_token_alias db t (Some i)) token)
                  (panel_alias db token ids)
  end.

(** [int(slug.split("-", 1)[1])] of a slug that starts with [reseller-]. *)
Definition slug_tenant (slug : string) : option Z :=
  parse_int (String.substring 9 (String.length slug - 9) slug).

Definition find_by_id (db : SubDB) (id : Z) : option SubUser :=
  first (λ u, su_id u =? id) (sub_users db).

(** The alias lookup for a reseller's own domain. *)
Definition reseller_alias (db : SubDB) (token : string) (endpoint : SubscriptionEndpoint)
    : option SubscriptionTokenAlias :=
  let slug := strip (ep_slug endpoint) in
  if negb (String.prefix "reseller-" slug) then None
  else match either_case (get_subscription_token_alias_any_endpoint db) token with
  | None => None
  | Some candidate =>
      match find_by_id db (al_user_id candidate) with
      | None => None
      | Some dbuser =>
          if negb (truthy (su_admin_id dbuser)) then None
          else match su_admin_id dbuser ≫= λ a, sub_admins db !! a, slug_tenant slug with
          | Some (Some tenant), Some expected => if tenant =? expected then Some candidate else None
          | _, _ => None
          end
      end
  end.

(** The alias a token names for a request that arrived at [endpoint]. *)
Definition resolve_alias (db : SubDB) (endpoint : option SubscriptionEndpoint) (token : string)
    : option SubscriptionTokenAlias :=
  or_else (either_case (λ t, get_subscription_token_alias db t (ep_id <$> endpoint)) token)
  (or_else (match endpoint with
            | Some ep => panel_alias db token (panel_endpoint_ids_for_subscription db ep)
            | None => None end)
  (or_else (match endpoint with Some ep => reseller_alias db token ep | None => None end)
           (either_case (get_subscription_token_alias_any_endpoint db) token))).

(** ** [get_validated_sub] *)

(** [re.fullmatch(r"[0-9a-fA-F]{32}", token)] *)
Definition is_hex (c : Ascii.ascii) : bool :=
  let n := byte_of c in in_range 48 57 n || in_range 97 102 n || in_range 65 70 n.
Definition hex32 (token : string) : bool :=
  (length (chars token) =? 32)%nat && forallb is_hex (chars token).

Definition get_user_by_sub_token (db : SubDB) (sub_token : string) : option SubUser :=
  if bool_decide (sub_token = "") then None
  else first (λ u, bool_decide (su_sub_token u = Some (lower sub_token))) (sub_users db).

Definition get_user (db : SubDB) (username : string) : option SubUser :=
  first (λ u, bool_decide (lower (su_username u) = lower username)) (sub_users db).

Definition not_found {A} : result A := Raise (HTTPException 404 "Not Found").

Definition unless_revoked (u : SubUser) : result SubUser :=
  if is_none (su_sub_revoked_at u) then Ok u else not_found.

(** The check of a signed token.  [tz] is the server's offset from UTC, which
    [timestamp()] subtracts from a naive time. *)
Definition check_signed (tz : Z) (db : SubDB) (token : string) : result SubUser :=
  match get_subscription_payload token with
  | Raise e => Raise e
  | Ok None => not_found
  | Ok (Some sub) =>
      match get_user db (sub_username sub) with
      | None => not_found
      | Some dbuser =>
          let sub_created := sub_created_at sub * SEC in
          let token_ts := Z.quot (sub_created - tz) SEC in
          if 0 <? token_ts then
            if token_ts <? Z.quot (su_created_at dbuser - tz) SEC then not_found
            else match su_sub_revoked_at dbuser with
                 | Some r => if sub_created <? r then not_found else Ok dbuser
                 | None => Ok dbuser
                 end
          else unless_revoked dbuser
      end
  end.

Definition get_validated_sub (tz : Z) (db : SubDB) (endpoint : option SubscriptionEndpoint) (token : string)
    : result SubUser :=
  match (if hex32 token then get_user_by_sub_token db (lower token) else None) with
  | Some dbuser => unless_revoked dbuser
  | None =>
      match resolve_alias db endpoint token ≫= λ a, find_by_id db (al_user_id a) with
      | Some dbuser => unless_revoked dbuser
      | None => check_signed tz db token
      end
  end.
End links.

(** ** Operations on a link *)

(** Random values, drawn per proxy. *)
Record Fresh := mkFresh {
  fresh_uuid : string;
  fresh_password : string;
  fresh_ss2022_key : string → string;
  fresh_keypair : string * string;
  fresh_psk : string }.

Definition revoke (f : Fresh) (p : ProxySettings) : ProxySettings :=
  match p with
  | VMessSettings _ => VMessSettings (fresh_uuid f)
  | VLESSSettings _ flow => VLESSSettings (fresh_uuid f) flow
  | TrojanSettings _ flow => TrojanSettings (fresh_password f) flow
  | ShadowsocksSettings _ m =>
      ShadowsocksSettings (if CoreSync.is_ss2022 m then fresh_ss2022_key f m else fresh_password f) m
  | WireGuardSettings _ _ _ a => WireGuardSettings (fresh_keypair f).1 (fresh_keypair f).2 (fresh_psk f) a
  | Hysteria2Settings _ => Hysteria2Settings (fresh_password f)
  | TUICSettings _ _ => TUICSettings (fresh_uuid f) (fresh_password f)
  | AnyTLSSettings _ => AnyTLSSettings (fresh_password f)
  end.

Definition update_sub_user (id : Z) (f : SubUser → SubUser) (db : SubDB) : SubDB :=
  db <| sub_users := map (λ u, if su_id u =? id then f u else u) (sub_users db) |>.

(** [token_hex] is [secrets.token_hex(16)]. *)
Definition revoke_user_sub (now : Z) (token_hex : string) (fresh : nat → Fresh) (id : Z) : SubDB → SubDB :=
  update_sub_user id (λ u,
    u <| su_sub_revoked_at := Some now |> <| su_sub_token := Some token_hex |>
      <| su_proxies := imap (λ i p, revoke (fresh i) p) (su_proxies u) |>).

Definition rotate_user_sub_link (token_hex : string) (id : Z) : SubDB → SubDB :=
  update_sub_user id (λ u, u <| su_sub_token := Some token_hex |> <| su_sub_revoked_at := None |>).

(** [re.fullmatch(r"[a-z0-9]{8,32}", token)] *)
Definition sub_id_ok (token : string) : bool :=
  let l := chars token in
  (8 <=? length l)%nat && (length l <=? 32)%nat
  && forallb (λ c, in_range 97 122 (byte_of c) || in_range 48 57 (byte_of c)) l.

Definition set_user_sub_token (id : Z) (token : string) (db : SubDB) : result SubDB :=
  let token := lower (strip token) in
  if negb (sub_id_ok token) then Raise (ValueError "Subscription id must be 8–32 lowercase letters or digits")
  else match get_user_by_sub_token db token with
       | Some other =>
           if negb (su_id other =? id) then Raise (ValueError "This subscription id is already taken")
           else Ok (update_sub_user id (λ u, u <| su_sub_token := Some token |> <| su_sub_revoked_at := None |>) db)
       | None => Ok (update_sub_user id (λ u, u <| su_sub_token := Some token |> <| su_sub_revoked_at := None |>) db)
       end.

(** [upsert_subscription_token_alias] *)
Definition upsert_subscription_token_alias (token : string) (user_id : Z) (endpoint_id : option Z)
    (source : string) (db : SubDB) : SubDB :=
  let hit a := bool_decide (al_token a = token) && bool_decide (al_endpoint_id a = endpoint_id) in
  match get_subscription_token_alias db token endpoint_id with
  | Some _ =>
      let fix upd l := match l with
        | [] => []
        | a :: l => if hit a then mkAlias token user_id endpoint_id source :: l else a :: upd l
        end in
      db <| sub_aliases := upd (sub_aliases db) |>
  | None => db <| sub_aliases := sub_aliases db ++ [mkAlias token user_id endpoint_id source] |>
  end.
End SubLinks.

(** ** Facts *)
Module SubLinkFacts.
Import Base64 Base64Facts SubLinks.

Lemma split_comma_app u v : comma ∉ u → split_comma (u ++ comma :: v) = Some (u, v).
Proof.
  induction u as [|c u IH]; intros H; cbn [split_comma app]; [by rewrite Ascii.eqb_refl|].
  destruct (Ascii.eqb_spec c comma) as [->|]; [exfalso; apply H; constructor|].
  rewrite IH; [done|]. intros E. apply H. by constructor.
Qed.

Lemma printed_ascii l : printed l → Forall (λ b, b < 128) (map byte_of l).
Proof. induction 1 as [|c l Hc _ IH]; constructor; [lia|done]. Qed.

(** The time a token may carry. *)
Definition ts_ok (t : Z) : Prop := 0 ≤ t ≤ 253402300799.

Lemma word_char_byte c : Portal.word_char c = true → byte_of c < 128 ∧ c ≠ comma.
Proof.
  intros H. split.
  - unfold Portal.word_char, byte_of in *. rewrite !orb_true_iff, !andb_true_iff, !Nat.leb_le, Nat.eqb_eq in H. lia.
  - intros ->. by vm_compute in H.
Qed.

(** A name whose tokens can be read back. *)
Definition name_ok (u : string) : Prop :=
  decodes (chars u) = true ∧ comma ∉ chars u ∧ (2 ≤ length (chars u))%nat.

Lemma username_name_ok u : Portal.username_format_ok u = true → name_ok u.
Proof.
  unfold Portal.username_format_ok. fold (chars u). intros [[H3 _]%andb_true_iff H]%andb_true_iff.
  apply Nat.leb_le in H3. rewrite forallb_forall in H.
  assert (Hw : Forall (λ c, byte_of c < 128 ∧ c ≠ comma) (chars u)).
  { apply Forall_forall. intros c Hc. apply word_char_byte, H. by apply list_elem_of_In. }
  split_and!.
  - apply utf8_ascii. apply Forall_map. eapply Forall_impl; [exact Hw|]. by intros c [? _].
  - intros E. rewrite Forall_forall in Hw. by destruct (Hw _ E).
  - unfold chars in *. lia.
Qed.

Section facts.
Context (digest : list Ascii.ascii → list Ascii.ascii) (from_jwt : string → option SubPayload).

Section digest.
Hypothesis (digest_length : ∀ l, length (digest l) = 32%nat).

Notation payload := (get_subscription_payload digest from_jwt).
Notation token_of := (create_subscription_token digest).

Definition signed_data (u : string) (t : Z) : list Ascii.ascii := chars u ++ comma :: chars (print_int t).

Lemma signature_ok data n : (n ≤ 42)%nat →
  length (_subscription_signature digest data n) = n
  ∧ Forall in_alphabet (_subscription_signature digest data n).
Proof. intros H. apply b64_prefix. rewrite digest_length. lia. Qed.

Lemma signed_data_decodes u t : name_ok u → decodes (signed_data u t) = true.
Proof.
  intros (H & _ & _). unfold decodes, signed_data. rewrite map_app. apply utf8_app; [done|].
  apply utf8_ascii. constructor; [by vm_compute|]. apply printed_ascii, print_int_chars.
Qed.

Lemma token_chars u t :
  chars (token_of u (Some t))
  = rstrip_pad (b64encode (signed_data u t))
    ++ _subscription_signature digest (rstrip_pad (b64encode (signed_data u t))) _SUBSCRIPTION_SIG_LEN.
Proof. apply chars_text. Qed.

Lemma try_signature_issued u t : name_ok u → ts_ok t →
  try_signature digest (chars (token_of u (Some t))) _SUBSCRIPTION_SIG_LEN = Some (Ok (mkSubPayload u t)).
Proof.
  intros Hu Ht. rewrite token_chars.
  set (d := rstrip_pad (b64encode (signed_data u t))).
  destruct (signature_ok d _SUBSCRIPTION_SIG_LEN) as [Hn _]; [unfold _SUBSCRIPTION_SIG_LEN; lia|].
  set (sg := _subscription_signature digest d _SUBSCRIPTION_SIG_LEN) in *.
  assert (5 ≤ length d)%nat.
  { pose proof (b64_length (signed_data u t)) as H. fold d in H. revert H. unfold signed_data.
    rewrite length_app. cbn [length]. pose proof (print_int_length t). destruct Hu as (_ & _ & ?). lia. }
  unfold try_signature. rewrite length_app, Hn.
  destruct (Nat.ltb_spec (length d + _SUBSCRIPTION_SIG_LEN) (_SUBSCRIPTION_SIG_LEN + 5)); [lia|].
  rewrite Nat.add_sub, take_app_length, drop_app_length. unfold d at 1. rewrite b64_roundtrip.
  rewrite signed_data_decodes by done. cbn [negb]. rewrite bool_decide_true by done.
  unfold signed_data. rewrite split_comma_app by apply Hu.
  rewrite text_chars, parse_print_int, text_chars. unfold utcfromtimestamp, in_range.
  destruct Ht. by rewrite !(proj2 (Z.leb_le _ _)) by lia.
Qed.

(** Parsing the token that [create_subscription_token] made gives the name and the
    time back. *)
Lemma payload_issued u t :
  name_ok u → ts_ok t → payload (token_of u (Some t)) = Ok (Some (mkSubPayload u t)).
Proof.
  intros Hu Ht. pose proof (try_signature_issued u t Hu Ht) as Htry.
  unfold get_subscription_payload.
  destruct (Nat.ltb_spec (length (chars (token_of u (Some t)))) 15) as [Hl|_].
  { exfalso. unfold try_signature in Htry.
    destruct (Nat.ltb_spec (length (chars (token_of u (Some t)))) (_SUBSCRIPTION_SIG_LEN + 5)); [done|].
    unfold _SUBSCRIPTION_SIG_LEN in *. lia. }
  rewrite bool_decide_false.
  - cbn [try_signatures]. by rewrite Htry.
  - intros E. assert (Hdot : of_byte 46 ∈ chars (token_of u (Some t))).
    {
      assert (Hj : of_byte 46 ∈ jwt_prefix) by (apply list_elem_of_lookup; by exists 36%nat).
      rewrite <- E in Hj. rewrite <- (take_drop (length jwt_prefix) (chars _)).
      apply elem_of_app. by left. }
    rewrite token_chars in Hdot.
    assert (Ha : Forall in_alphabet (rstrip_pad (b64encode (signed_data u t)) ++
      _subscription_signature digest (rstrip_pad (b64encode (signed_data u t))) _SUBSCRIPTION_SIG_LEN)).
    { apply Forall_app. split; [apply b64_alphabet|apply signature_ok; unfold _SUBSCRIPTION_SIG_LEN; lia]. }
    rewrite Forall_forall in Ha. apply (in_alphabet_not _ 46 (Ha _ Hdot)); [by right|done].
Qed.

(** ** A signed link at the door *)
Notation validated := (get_validated_sub digest from_jwt).

(** The token is neither a 32-digit id nor an alias of the database. *)
Definition only_signed (db : SubDB) (token : string) : Prop :=
  hex32 token = false
  ∧ Forall (λ a, al_token a ≠ token ∧ al_token a ≠ lower token) (sub_aliases db).

Lemma first_none {A} (f : A → bool) l : Forall (λ a, f a = false) l → first f l = None.
Proof. induction 1 as [|a l Ha _ IH]; [done|]. unfold first in *. cbn. by rewrite Ha. Qed.

Lemma first_some {A} (f : A → bool) l x : first f l = Some x → x ∈ l ∧ f x = true.
Proof. intros H%find_some. by rewrite list_elem_of_In. Qed.

Lemma either_case_none look token :
  look token = None → look (lower token) = None → either_case look token = None.
Proof. intros H1 H2. unfold either_case. rewrite H1, H2. cbn. by case_bool_decide. Qed.

Lemma resolve_alias_none db ep token :
  Forall (λ a, al_token a ≠ token ∧ al_token a ≠ lower token) (sub_aliases db) →
  resolve_alias db ep token = None.
Proof.
  intros H.
  assert (Hs : ∀ t e, t = token ∨ t = lower token → get_subscription_token_alias db t e = None).
  { intros t e Ht. unfold get_subscription_token_alias. case_bool_decide; [done|]. apply first_none.
    eapply Forall_impl; [exact H|]. intros a [? ?]. rewrite bool_decide_false; [done|]. by destruct Ht as [-> | ->]. }
  assert (Ha : ∀ t, t = token ∨ t = lower token → get_subscription_token_alias_any_endpoint db t = None).
  { intros t Ht. unfold get_subscription_token_alias_any_endpoint. case_bool_decide; [done|]. apply first_none.
    eapply Forall_impl; [exact H|]. intros a [? ?]. rewrite bool_decide_false; [done|]. by destruct Ht as [-> | ->]. }
  assert (Hany : either_case (get_subscription_token_alias_any_endpoint db) token = None)
    by (apply either_case_none; auto).
  unfold resolve_alias. rewrite either_case_none by (apply Hs; auto). cbn [or_else]. rewrite Hany.
  destruct ep as [ep|]; [|done].
  replace (panel_alias db token _) with (@None SubscriptionTokenAlias).
  - cbn [or_else]. unfold reseller_alias. rewrite Hany. by destruct (negb _).
  - induction (panel_endpoint_ids_for_subscription db ep) as [|i l IH]; [done|]. cbn [panel_alias].
    by rewrite either_case_none by (apply Hs; auto).
Qed.

(** Only [check_signed] looks at such a token. *)
Lemma validated_signed tz db ep token :
  only_signed db token → validated tz db ep token = check_signed digest from_jwt tz db token.
Proof. intros [Hh Ha]. unfold get_validated_sub. by rewrite Hh, resolve_alias_none. Qed.

(** [check_signed] on an issued link. *)
Lemma check_issued tz db u t :
  Portal.username_format_ok (su_username u) = true → get_user db (su_username u) = Some u → ts_ok t →
  check_signed digest from_jwt tz db (token_of (su_username u) (Some t))
  = let token_ts := Z.quot (t * SEC - tz) SEC in
    if 0 <? token_ts then
      if token_ts <? Z.quot (su_created_at u - tz) SEC then not_found
      else match su_sub_revoked_at u with Some r => if t * SEC <? r then not_found else Ok u | None => Ok u end
    else unless_revoked u.
Proof.
  intros Hn Hu Ht. unfold check_signed. rewrite payload_issued by (done || by apply username_name_ok).
  cbn [sub_username sub_created_at]. by rewrite Hu.
Qed.

(** The whole seconds [timestamp()] gives for a naive time on a server [tz] ahead of UTC. *)
Definition stamp (tz x : Z) : Z := Z.quot (x - tz) SEC.

(** C29. A signed link leads back to its owner, on a server at any offset from UTC: take
    a user found under a username the panel accepts, and a link that
    [create_subscription_token] made for it (at time 0 for a permanent one) whose text
    is neither an alias of the database nor 32 hexadecimal digits, which are looked up
    first.  [get_validated_sub] serves the user when the server reads the link as dated
    (its [timestamp()] positive), the account's [timestamp()] is not newer than the
    link's and no revocation is later than the link; or when the server reads it as
    undated and no revocation is recorded.  Otherwise it answers not found.  (On a UTC
    server the links of time 0 are exactly the undated ones; west of UTC the
    permanent link is read as a dated one, [permanent_link_dead_west_of_utc].) *)
Theorem signed_link_roundtrip tz db ep u issued_at :
  Portal.username_format_ok (su_username u) = true → get_user db (su_username u) = Some u →
  ts_ok (default 0 issued_at) →
  only_signed db (token_of (su_username u) issued_at) →
  validated tz db ep (token_of (su_username u) issued_at)
  = let t := default 0 issued_at * SEC in
    let served :=
      if 0 <? stamp tz t
      then (stamp tz (su_created_at u) <=? stamp tz t)
           && match su_sub_revoked_at u with Some r => r <=? t | None => true end
      else is_none (su_sub_revoked_at u) in
    if served then Ok u else not_found.
Proof.
  intros Hn Hu Ht Ho. rewrite validated_signed by done.
  replace (token_of (su_username u) issued_at) with (token_of (su_username u) (Some (default 0 issued_at))) by done.
  set (t := default 0 issued_at) in *. rewrite check_issued by done. cbv zeta. fold (stamp tz (t * SEC)).
  fold (stamp tz (su_created_at u)). destruct (0 <? stamp tz (t * SEC)).
  - rewrite Z.leb_antisym. destruct (stamp tz (t * SEC) <? stamp tz (su_created_at u)); [done|].
    destruct (su_sub_revoked_at u) as [r|]; [|done]. cbn [negb andb].
    rewrite Z.leb_antisym. by destruct (t * SEC <? r).
  - unfold unless_revoked. by destruct (is_none _).
Qed.

(** West of UTC the permanent link is read as a dated one, older than the account. *)
Theorem permanent_link_dead_west_of_utc tz db ep u :
  Portal.username_format_ok (su_username u) = true → get_user db (su_username u) = Some u →
  tz ≤ - SEC → SEC ≤ su_created_at u →
  only_signed db (token_of (su_username u) None) →
  validated tz db ep (token_of (su_username u) None) = not_found.
Proof.
  intros Hn Hu Ht Hc Ho. rewrite validated_signed by done.
  change (token_of (su_username u) None) with (token_of (su_username u) (Some 0)).
  rewrite check_issued by (done || (unfold ts_ok; lia)). cbv zeta. unfold SEC in *. rewrite !Z.quot_div_nonneg by lia.
  assert (1 ≤ (0 * 1000000 - tz) / 1000000) by (apply Z.div_le_lower_bound; lia).
  assert ((0 * 1000000 - tz) / 1000000 < (su_created_at u - tz) / 1000000).
  { assert ((0 * 1000000 - tz) / 1000000 + 1 ≤ (su_created_at u - tz) / 1000000); [|lia].
    rewrite <- Z.div_add by lia. apply Z.div_le_mono; lia. }
  destruct (Z.ltb_spec 0 ((0 * 1000000 - tz) / 1000000)); [|lia].
  by destruct (Z.ltb_spec ((0 * 1000000 - tz) / 1000000) ((su_created_at u - tz) / 1000000)); [|lia].
Qed.
End digest.

(** ** Revocation *)

(** C30. A revoked subscription is served only to a signed link at least as new as the
    revocation: whatever the endpoint, the aliases and the server's time zone, an
    id link, an alias and an older or undated link of a revoked user are refused. *)
Theorem revoked_user_served_only_by_newer_link tz db ep token u r :
  get_validated_sub digest from_jwt tz db ep token = Ok u → su_sub_revoked_at u = Some r →
  ∃ sub, get_subscription_payload digest from_jwt token = Ok (Some sub)
    ∧ get_user db (sub_username sub) = Some u ∧ r ≤ sub_created_at sub * SEC.
Proof.
  intros H Hr.
  assert (Hx : ∀ v, unless_revoked v = Ok u → False).
  { intros v. unfold unless_revoked. destruct (is_none _) eqn:E; [|done]. intros; simplify_eq. by rewrite Hr in E. }
  unfold get_validated_sub in H. destruct (if hex32 token then _ else _) as [v|]; [by destruct (Hx v)|].
  destruct (_ ≫= _) as [v|]; [by destruct (Hx v)|]. unfold check_signed in H.
  destruct (get_subscription_payload _ _ _) as [[sub|]|]; [|done..].
  destruct (get_user db (sub_username sub)) as [v|] eqn:Hg; [|done].
  exists sub. destruct (0 <? _); [|by destruct (Hx v)]. destruct (_ <? _); [done|]. split; [done|].
  destruct (su_sub_revoked_at v) as [r'|] eqn:E; [|by simplify_eq].
  destruct (Z.ltb_spec (sub_created_at sub * SEC) r'); [done|]. injection H as ->. rewrite Hr in E. injection E as ->. done.
Qed.

(** ** Rotating, setting and revoking a link *)
Lemma first_exists {A} (f : A → bool) l x : x ∈ l → f x = true → ∃ y, first f l = Some y.
Proof.
  intros Hx Hf. destruct (first f l) as [y|] eqn:E; [by exists y|]. unfold first in E.
  apply list_elem_of_In in Hx. by rewrite (find_none _ _ E x Hx) in Hf.
Qed.

Lemma update_sub_user_aliases id f db : sub_aliases (update_sub_user id f db) = sub_aliases db.
Proof. done. Qed.

Lemma get_user_update id f db name u :
  (∀ v, su_username (f v) = su_username v) → get_user db name = Some u →
  get_user (update_sub_user id f db) name = Some (if su_id u =? id then f u else u).
Proof.
  intros Hf. unfold get_user, first, update_sub_user. cbn. induction (sub_users db) as [|v l IH]; [done|]. cbn.
  destruct (su_id v =? id) eqn:E; rewrite ?Hf; case_bool_decide; intros; simplify_eq; rewrite ?E; auto.
Qed.

(** Revoking a subscription also kills the link it hands out: the new id that
    [revoke_user_sub] stores is refused, because the revocation time stays set. *)
Theorem revoke_kills_new_link tz db ep id u now tok fresh :
  u ∈ sub_users db → su_id u = id → hex32 tok = true → lower tok = tok →
  Forall (λ v, su_sub_token v ≠ Some tok) (sub_users db) →
  let db' := revoke_user_sub now tok fresh id db in
  (∃ u', u' ∈ sub_users db' ∧ su_id u' = id ∧ su_sub_token u' = Some tok)
  ∧ get_validated_sub digest from_jwt tz db' ep tok = not_found.
Proof.
  intros Hu Hid Hh Hl Hno db'.
  set (f := λ v, v <| su_sub_revoked_at := Some now |> <| su_sub_token := Some tok |>
      <| su_proxies := imap (λ i p, revoke (fresh i) p) (su_proxies v) |>).
  assert (Hin : f u ∈ sub_users db').
  { unfold db', revoke_user_sub, update_sub_user. cbn. apply list_elem_of_fmap. exists u.
    rewrite (proj2 (Z.eqb_eq _ _) Hid). done. }
  split; [by exists (f u)|].
  unfold get_validated_sub, get_user_by_sub_token. rewrite Hh, !Hl.
  rewrite bool_decide_false by (intros ->; by vm_compute in Hh).
  destruct (first_exists (λ v, bool_decide (su_sub_token v = Some tok)) (sub_users db') (f u) Hin) as [v E];
    [by apply bool_decide_true|].
  rewrite E. apply first_some in E as [Hv Hb%bool_decide_eq_true].
  unfold db', revoke_user_sub, update_sub_user in Hv. cbn in Hv.
  apply list_elem_of_fmap in Hv as (w & -> & Hw). rewrite Forall_forall in Hno.
  destruct (su_id w =? id); [done|]. by destruct (Hno w Hw).
Qed.

(** A custom subscription id of 8 to 14 characters, which [set_user_sub_token]
    accepts, never opens anything: [get_validated_sub] looks ids up only when
    they are 32 hexadecimal digits. *)
Theorem short_custom_id_unreachable tz db db' ep id tok :
  set_user_sub_token id tok db = Ok db' → (String.length (lower (strip tok)) < 15)%nat →
  Forall (λ a, al_token a ≠ lower (strip tok) ∧ al_token a ≠ lower (lower (strip tok))) (sub_aliases db) →
  get_validated_sub digest from_jwt tz db' ep (lower (strip tok)) = not_found.
Proof.
  intros Hs Hl Ha. set (t := lower (strip tok)) in *.
  assert (Hal : sub_aliases db' = sub_aliases db).
  { unfold set_user_sub_token in Hs. fold t in Hs. destruct (negb (sub_id_ok t)); [done|].
    destruct (get_user_by_sub_token db t); [destruct (negb _)|]; by simplify_eq. }
  assert (Hlen : length (chars t) = String.length t).
  { clear. unfold chars. induction t; cbn; auto. }
  assert (Hh : hex32 t = false).
  { unfold hex32. rewrite Hlen. by destruct (Nat.eqb_spec (String.length t) 32); [lia|]. }
  unfold get_validated_sub. rewrite Hh, resolve_alias_none by by rewrite Hal.
  cbn. unfold check_signed, get_subscription_payload. rewrite Hlen.
  by destruct (Nat.ltb_spec (String.length t) 15); [|lia].
Qed.

(** Rotating a link after a revocation brings the revoked link back: the signed
    permanent link is refused after [revoke_user_sub] and served again after
    [rotate_user_sub_link], which clears the revocation. *)
Theorem rotate_revives_revoked_link db ep id u now tok tok' fresh :
  (∀ l, length (digest l) = 32%nat) →
  Portal.username_format_ok (su_username u) = true → get_user db (su_username u) = Some u → su_id u = id →
  let link := create_subscription_token digest (su_username u) None in
  only_signed db link →
  let revoked := revoke_user_sub now tok fresh id db in
  let rotated := rotate_user_sub_link tok' id revoked in
  get_validated_sub digest from_jwt 0 revoked ep link = not_found
  ∧ is_ok (get_validated_sub digest from_jwt 0 rotated ep link) = true.
Proof.
  intros Hd Hn Hu Hid link Ho revoked rotated.
  set (f := λ v, v <| su_sub_revoked_at := Some now |> <| su_sub_token := Some tok |>
      <| su_proxies := imap (λ i p, revoke (fresh i) p) (su_proxies v) |>).
  set (g := λ v : SubUser, v <| su_sub_token := Some tok' |> <| su_sub_revoked_at := None |>).
  assert (H1 : get_user revoked (su_username (f u)) = Some (f u)).
  { pose proof (get_user_update id f db (su_username u) u (λ v, eq_refl) Hu) as H.
    by rewrite (proj2 (Z.eqb_eq _ _) Hid) in H. }
  assert (H2 : get_user rotated (su_username (g (f u))) = Some (g (f u))).
  { pose proof (get_user_update id g revoked (su_username (f u)) (f u) (λ v, eq_refl) H1) as H.
    change (su_id (f u)) with (su_id u) in H. by rewrite (proj2 (Z.eqb_eq _ _) Hid) in H. }
  assert (E : ∀ v d, only_signed d link → su_username v = su_username u → get_user d (su_username v) = Some v →
    get_validated_sub digest from_jwt 0 d ep link = unless_revoked v).
  { intros v d Hs Hv Hg. rewrite validated_signed by done. unfold link.
    change (create_subscription_token digest (su_username u) None)
      with (create_subscription_token digest (su_username u) (Some 0)). rewrite <- Hv.
    rewrite check_issued; [done|done|by rewrite Hv|done|unfold ts_ok; lia]. }
  split; [by rewrite (E (f u))|by rewrite (E (g (f u)))].
Qed.
End facts.
End SubLinkFacts.

(** ** Concrete runs, with a digest in the place of SHA-256 *)
Module SubLinkExamples.
Import Base64 SubLinks SubLinkFacts.

Definition digest0 (l : list Ascii.ascii) : list Ascii.ascii :=
  take 32 (rev l ++ replicate 32 (of_byte 65)).
Lemma digest0_length l : length (digest0 l) = 32%nat.
Proof. unfold digest0. rewrite length_take, length_app, length_replicate. lia. Qed.

Definition no_jwt (_ : string) : option SubPayload := None.

Definition ali : SubUser :=
  mkSubUser 7 "ali_1" (Some 2) (Some "00112233445566778899aabbccddeeff") None 1700000000000000
    [VLESSSettings "old-uuid" ""; TrojanSettings "old-pass" ""].
Definition db0 : SubDB := mkSubDB [ali] {[2 := Some 4]} [] [].
Definition fresh0 (_ : nat) : Fresh := mkFresh "new-uuid" "new-pass" (λ _, "new-key") ("priv", "pub") "psk".

(** The permanent link of [ali] is served in UTC, and a link of 1.7e9 in Tehran. *)
Lemma signed_link_roundtrip_witness :
  get_validated_sub digest0 no_jwt 0 db0 None (create_subscription_token digest0 "ali_1" None) = Ok ali
  ∧ get_validated_sub digest0 no_jwt (12600 * SEC) db0 None
      (create_subscription_token digest0 "ali_1" (Some 1700000000)) = Ok ali.
Proof.
  change "ali_1"%string with (su_username ali). split.
  - rewrite (signed_link_roundtrip digest0 no_jwt digest0_length 0 db0 None ali None);
      [reflexivity|reflexivity|reflexivity|split; cbn; lia|split; [vm_compute; reflexivity|constructor]].
  - rewrite (signed_link_roundtrip digest0 no_jwt digest0_length (12600 * SEC) db0 None ali (Some 1700000000));
      [reflexivity|reflexivity|reflexivity|split; cbn; lia|split; [vm_compute; reflexivity|constructor]].
Defined.

(** [ali], revoked at 1.8e15, is served by a link of the second after. *)
Lemma revoked_user_served_only_by_newer_link_witness :
  let ali' := ali <| su_sub_revoked_at := Some 1800000000000000 |> in
  let db' := db0 <| sub_users := [ali'] |> in
  ∃ sub, get_subscription_payload digest0 no_jwt (create_subscription_token digest0 "ali_1" (Some 1800000001)) = Ok (Some sub)
    ∧ get_user db' (sub_username sub) = Some ali' ∧ 1800000000000000 ≤ sub_created_at sub * SEC.
Proof.
  apply (revoked_user_served_only_by_newer_link digest0 no_jwt 0 _ None
    (create_subscription_token digest0 "ali_1" (Some 1800000001))); vm_compute; reflexivity.
Defined.

Definition new_id : string := "0123456789abcdef0123456789abcdef".

Lemma revoke_kills_new_link_witness :
  get_validated_sub digest0 no_jwt 0 (revoke_user_sub 1800000000000000 new_id fresh0 7 db0) None new_id = not_found.
Proof.
  apply (revoke_kills_new_link digest0 no_jwt 0 db0 None 7 ali);
    [constructor|reflexivity|vm_compute; reflexivity|vm_compute; reflexivity|repeat constructor; discriminate].
Defined.

Lemma short_custom_id_unreachable_witness :
  ∃ db', set_user_sub_token 7 " MyVipLink " db0 = Ok db'
    ∧ get_validated_sub digest0 no_jwt 0 db' None "myviplink" = not_found.
Proof.
  eexists. split; [vm_compute; reflexivity|].
  apply (short_custom_id_unreachable digest0 no_jwt 0 db0 _ None 7 " MyVipLink ");
    [vm_compute; reflexivity|vm_compute; lia|constructor].
Defined.

Lemma rotate_revives_revoked_link_witness :
  let link := create_subscription_token digest0 "ali_1" None in
  let revoked := revoke_user_sub 1800000000000000 new_id fresh0 7 db0 in
  let rotated := rotate_user_sub_link "ffffffffffffffffffffffffffffffff" 7 revoked in
  get_validated_sub digest0 no_jwt 0 revoked None link = not_found
  ∧ is_ok (get_validated_sub digest0 no_jwt 0 rotated None link) = true.
Proof.
  apply (rotate_revives_revoked_link digest0 no_jwt db0 None 7 ali);
    [apply digest0_length|reflexivity|reflexivity|reflexivity|split; [vm_compute; reflexivity|constructor]].
Defined.
End SubLinkExamples.
