(* ===== verification/BulkCreate.v ===== *)
(** * BulkCreate: subscription panels and creating many accounts

    [app/subscription/panel_balance.py] with the endpoint and alias rows of
    [app/db/crud.py] it uses, the template payloads of [app/routers/user.py], and
    [bulk_create_users] of [app/services/user_bulk.py].

    Proxies, inbounds, notes and client settings of an account are left out, as in
    [Store]; so are the share links built for the response.  The random middle
    parts of the user names are an argument. *)
From stdpp Require Import pretty.
From S2P Require Import Prelude Store Users RecordUsage Wallet UsageBilling Tariffs.
From S2P Require Import Caps Portal.
From S2P Require Import Payments Endpoints Review UserBulk SubLinks.

Module PanelBalance.
Import Portal SubLinks.

(** ** Endpoint rows

    The rows of endpoints and token aliases are those of [SubLinks]. *)
Definition list_subscription_endpoints (p : SubDB) (enabled_only : bool) : list SubscriptionEndpoint :=
  if enabled_only then filter (λ e, ep_enabled e = true) (sub_endpoints p) else sub_endpoints p.

Definition get_subscription_endpoint (p : SubDB) (id : Z) : option SubscriptionEndpoint :=
  head (filter (λ e, ep_id e = id) (sub_endpoints p)).

Definition get_subscription_endpoint_by_slug (p : SubDB) (slug : string) : option SubscriptionEndpoint :=
  head (filter (λ e, ep_slug e = slug) (sub_endpoints p)).

(** ** Names *)
Definition str_take (n : nat) (s : string) : string :=
  String.string_of_list_ascii (take n (String.list_ascii_of_string s)).
Definition str_drop (n : nat) (s : string) : string :=
  String.string_of_list_ascii (drop n (String.list_ascii_of_string s)).

Definition is_digit (c : Ascii.ascii) : bool :=
  let n := Ascii.nat_of_ascii c in ((48 <=? n) && (n <=? 57))%nat.

Fixpoint digits_prefix (l : list Ascii.ascii) : list Ascii.ascii :=
  match l with
  | c :: l' => if is_digit c then c :: digits_prefix l' else []
  | [] => []
  end.

(** [^(p\d+)] with [re.I]: the matched group. *)
Definition panel_group (l : list Ascii.ascii) : option (list Ascii.ascii) :=
  match l with
  | c :: l' =>
      if Ascii.eqb (lower_ascii c) (Ascii.ascii_of_nat 112) then
        match digits_prefix l' with
        | [] => None
        | ds => Some (c :: ds)
        end
      else None
  | [] => None
  end.

(** [_PANEL_SLUG_RE]: [^p\d+$] *)
Definition panel_slug_re (s : string) : bool :=
  let l := String.list_ascii_of_string s in
  match panel_group l with
  | Some g => bool_decide (g = l)
  | None => false
  end.

(** [_USERNAME_PANEL_RE]: [^(p\d+)_] *)
Definition username_panel_re (s : string) : option string :=
  let l := String.list_ascii_of_string s in
  match panel_group l with
  | Some g => match drop (length g) l with
              | c :: _ => if Ascii.eqb c UserBulk.underscore then Some (String.string_of_list_ascii g) else None
              | [] => None
              end
  | None => None
  end.

(** [re.match(r"^(p\d+)_?", prefix)] *)
Definition prefix_panel_re (s : string) : option string :=
  String.string_of_list_ascii <$> panel_group (String.list_ascii_of_string s).

Definition ends_with (s suffix : string) : bool :=
  let l := String.list_ascii_of_string s in
  let k := String.list_ascii_of_string suffix in
  (length k <=? length l)%nat && bool_decide (drop (length l - length k) l = k).

Definition starts_with (s prefix : string) : bool :=
  let l := String.list_ascii_of_string s in
  let k := String.list_ascii_of_string prefix in
  bool_decide (take (length k) l = k).

Definition max_len : nat := 32.

Definition ensure_panel_username (username panel_slug : string) : string :=
  let username := strip username in
  let panel_slug := strip panel_slug in
  if String.eqb username "" || String.eqb panel_slug "" then username
  else if negb (is_none (username_panel_re username)) then str_take max_len username
  else
    let prefix := (panel_slug ++ "_")%string in
    let room := Z.of_nat max_len - Z.of_nat (String.length prefix) in
    if room <? 3 then str_take max_len username
    else (prefix ++ str_take (Z.to_nat room) username)%string.

Definition alias_token_for_username (username panel_slug : string) : string :=
  let prefix := (panel_slug ++ "_")%string in
  if starts_with username prefix && (String.length prefix <? String.length username)%nat
  then str_drop (String.length prefix) username
  else username.

(** ** Choosing a panel *)
Definition slug_order (a b : SubscriptionEndpoint) : bool := String.leb (ep_slug a) (ep_slug b).

Definition has_text (s : option string) : bool :=
  match s with Some x => negb (String.eqb x "") | None => false end.

Definition balance_panel (e : SubscriptionEndpoint) : bool :=
  let slug := strip (ep_slug e) in
  ep_enabled e && negb (has_text (ep_inbound_tag e))
  && negb (String.eqb slug "") && negb (String.eqb slug "default")
  && negb (ends_with slug "-json") && negb (ends_with slug "-clash")
  && panel_slug_re slug.

Definition list_balance_panels (p : SubDB) : list SubscriptionEndpoint :=
  sort_by slug_order (filter (λ e, balance_panel e = true) (list_subscription_endpoints p true)).

Definition panel_user_count (p : SubDB) (endpoint_id : Z) : Z :=
  Z.of_nat (length (filter (λ a, al_endpoint_id a = Some endpoint_id) (sub_aliases p))).

(** [(user count, id)], the key both selections minimise. *)
Definition load_order (count : Z → Z) (a b : SubscriptionEndpoint) : bool :=
  (count (ep_id a) <? count (ep_id b))
  || ((count (ep_id a) =? count (ep_id b)) && (ep_id a <=? ep_id b)).

Definition pick_least_loaded_panel (p : SubDB) : option SubscriptionEndpoint :=
  head (sort_by (load_order (panel_user_count p)) (list_balance_panels p)).

(** Python's [min(..., key)]: the first element with the least key. *)
Definition min_by (leb : SubscriptionEndpoint → SubscriptionEndpoint → bool)
    (l : list SubscriptionEndpoint) : option SubscriptionEndpoint :=
  match l with
  | [] => None
  | e :: l => Some (foldl (λ best e, if leb best e then best else e) e l)
  end.

Definition reseller_endpoint_slug (tenant_id : Z) : string :=
  ("reseller-" ++ pretty tenant_id)%string.

Definition get_reseller_subscription_endpoint (p : SubDB) (tenant_id : Z)
    : option SubscriptionEndpoint :=
  match get_subscription_endpoint_by_slug p (reseller_endpoint_slug tenant_id) with
  | Some e => if ep_enabled e && negb (String.eqb (strip (default ""%string (ep_host e))) "")
              then Some e else None
  | None => None
  end.

Definition reseller_branding_panel (p : SubDB) (admin : option (Z * Admin))
    : option SubscriptionEndpoint :=
  match admin with
  | None => None
  | Some (_, a) =>
      if a_is_sudo a then None
      else match a_tenant_id a with
           | None => None
           | Some t => get_reseller_subscription_endpoint p t
           end
  end.

Definition default_panel_for_create (p : SubDB) (admin : option (Z * Admin))
    : option SubscriptionEndpoint :=
  match reseller_branding_panel p admin with
  | Some brand => Some brand
  | None => pick_least_loaded_panel p
  end.

Definition not_balance : err := ValueError "Selected subscription panel is not a load-balance panel".
Definition not_available : err :=
  ValueError "Selected subscription panel is not available for this account".
Definition endpoint_missing : err :=
  ValueError "Selected subscription panel endpoint was not found or is disabled".

Definition assert_panel_allowed_for_admin (p : SubDB) (e : SubscriptionEndpoint)
    (admin : option (Z * Admin)) : result unit :=
  let is_panel := panel_slug_re (strip (ep_slug e)) in
  if match admin with Some (_, a) => a_is_sudo a | None => true end
  then if is_panel then Ok tt else Raise not_balance
  else match reseller_branding_panel p admin with
       | None => if is_panel then Ok tt else Raise not_available
       | Some brand => if ep_id e =? ep_id brand then Ok tt else Raise not_available
       end.

Definition endpoint_for_panel_slug (p : SubDB) (slug : string) : option SubscriptionEndpoint :=
  let slug := strip slug in
  if String.eqb slug "" then None
  else match match get_subscription_endpoint_by_slug p slug with
             | Some e => if ep_enabled e then Some e else None
             | None => None
             end with
       | Some e => Some e
       | None => head (filter (λ e, lower (strip (default ""%string (ep_legacy_panel_id e))) = lower slug)
                        (list_balance_panels p))
       end.

Definition shaped (e : SubscriptionEndpoint) (username : string) : string :=
  if panel_slug_re (strip (ep_slug e)) then ensure_panel_username username (ep_slug e) else username.

Definition resolve_panel_for_create (p : SubDB) (endpoint_id : option Z) (username : string)
    (username_prefix : option string) (admin : option (Z * Admin))
    : result (option SubscriptionEndpoint * string) :=
  let username := strip username in
  match endpoint_id with
  | Some i =>
      match get_subscription_endpoint p i with
      | Some e =>
          if negb (ep_enabled e) then Raise endpoint_missing
          else match assert_panel_allowed_for_admin p e admin with
               | Raise x => Raise x
               | Ok _ => Ok (Some e, shaped e username)
               end
      | None => Raise endpoint_missing
      end
  | None =>
      let m := match username_panel_re username with
               | Some g => Some g
               | None => match username_prefix with
                         | Some q => if String.eqb q "" then None else prefix_panel_re (strip q)
                         | None => None
                         end
               end in
      match match m with Some g => endpoint_for_panel_slug p (lower g) | None => None end with
      | Some e => Ok (Some e, ensure_panel_username username (ep_slug e))
      | None =>
          match default_panel_for_create p admin with
          | None => Ok (None, username)
          | Some e => Ok (Some e, shaped e username)
          end
      end
  end.

Definition bind_user_to_panel (user_id : Z) (username : string) (e : SubscriptionEndpoint)
    (source : string) (p : SubDB) : SubDB :=
  upsert_subscription_token_alias (alias_token_for_username username (ep_slug e)) user_id
    (Some (ep_id e)) source p.

(** *** The local balancer of a bulk create

    [counts] starts as the loads of the panels and counts the panels handed out. *)
Definition _next_panel (pinned : option SubscriptionEndpoint) (panels : list SubscriptionEndpoint)
    (counts : gmap Z Z) : option SubscriptionEndpoint * gmap Z Z :=
  match pinned with
  | Some e => (Some e, counts)
  | None =>
      match min_by (load_order (λ i, default 0 (counts !! i))) panels with
      | None => (None, counts)
      | Some e => (Some e, <[ep_id e := default 0 (counts !! ep_id e) + 1]> counts)
      end
  end.

End PanelBalance.

(** ** Creating many accounts *)
Module BulkCreate.
Import SubLinks Quota Lifecycle Wallet Tariffs Portal PlanOps PanelBalance.

Record UserTemplate := mkTemplate {
  tp_data_limit : option Z;
  tp_expire_duration : option Z;
  tp_username_prefix : option string;
  tp_username_suffix : option string;
  tp_data_limit_reset_strategy : option string;
  tp_next_plan : option NextPlan }.

(** The modelled fields of [UserCreate]. *)
Record NewUser := mkNewUser {
  nw_username : string;
  nw_status : UserStatus;
  nw_limits : UserCreate;
  nw_data_limit_reset_strategy : string;
  nw_next_plan : option NextPlan }.

Record BulkUserCreateBody := mkBulkCreate {
  bc_count : Z;
  bc_username_prefix : option string;
  bc_username_suffix : option string;
  bc_status : UserStatus;
  bc_template_id : option Z;
  bc_subscription_endpoint_id : option Z;
  bc_data_limit : option Z;
  bc_expire : option Z;
  bc_data_limit_reset_strategy : string;
  bc_speed_limit_up : option Z;
  bc_speed_limit_down : option Z;
  bc_device_limit : option Z;
  bc_on_hold_expire_duration : option Z }.

Definition nonneg (o : option Z) : bool := match o with Some n => 0 <=? n | None => true end.

Definition bad_user : err := ValueError "validation error for UserCreate".

(** The validators of [UserCreate]: user name, limits, and the on-hold status. *)
Definition UserCreate_validate (u : NewUser) : result NewUser :=
  let l := nw_limits u in
  let hold := or_none (uc_on_hold_expire_duration l) in
  let l := mkUserCreate (uc_data_limit l) (uc_expire l) hold (uc_device_limit l)
             (uc_speed_limit_up l) (uc_speed_limit_down l) in
  if username_format_ok (nw_username u)
     && nonneg (uc_data_limit l) && nonneg (uc_device_limit l)
     && nonneg (uc_speed_limit_up l) && nonneg (uc_speed_limit_down l)
     && negb (status_eqb (nw_status u) on_hold && (is_none hold || truthy (uc_expire l)))
  then Ok (mkNewUser (nw_username u) (nw_status u) l (nw_data_limit_reset_strategy u) (nw_next_plan u))
  else Raise bad_user.

Definition affix (a : option string) (name : string) : string :=
  match a with Some p => if String.eqb p "" then name else (p ++ name)%string | None => name end.

(** [routers/user.py]: both affixes of the template are put in front. *)
Definition _user_create_from_db_template (now : Z) (tpl : UserTemplate) (username : string)
    (status : UserStatus) : result NewUser :=
  let username := affix (tp_username_prefix tpl) username in
  let username := affix (tp_username_suffix tpl) username in
  let expire := if truthy (tp_expire_duration tpl) then now + or0 (tp_expire_duration tpl) else 0 in
  UserCreate_validate (mkNewUser username status
    (mkUserCreate (Some (or0 (tp_data_limit tpl))) (Some expire) None None None None)
    (default "no_reset"%string (tp_data_limit_reset_strategy tpl)) (tp_next_plan tpl)).

(** [val = getattr(body, key); if val is not None: data[key] = val] *)
Definition override {A} (val dflt : option A) : option A := match val with Some _ => val | None => dflt end.

Definition _user_create_from_bulk_body (now : Z) (templates : Z → option UserTemplate)
    (body : BulkUserCreateBody) (username : string) : result NewUser :=
  match bc_template_id body with
  | None =>
      UserCreate_validate (mkNewUser username (bc_status body)
        (mkUserCreate (bc_data_limit body) (bc_expire body) (bc_on_hold_expire_duration body)
           (bc_device_limit body) (bc_speed_limit_up body) (bc_speed_limit_down body))
        (bc_data_limit_reset_strategy body) None)
  | Some tid =>
      match templates tid with
      | None => Raise (ValueError "Template not found")
      | Some tpl =>
          match _user_create_from_db_template now tpl username (bc_status body) with
          | Raise e => Raise e
          | Ok spec =>
              let l := nw_limits spec in
              UserCreate_validate (mkNewUser username (bc_status body)
                (mkUserCreate (override (bc_data_limit body) (uc_data_limit l))
                   (override (bc_expire body) (uc_expire l))
                   (override (bc_on_hold_expire_duration body) (uc_on_hold_expire_duration l))
                   (override (bc_device_limit body) (uc_device_limit l))
                   (override (bc_speed_limit_up body) (uc_speed_limit_up l))
                   (override (bc_speed_limit_down body) (uc_speed_limit_down l)))
                (bc_data_limit_reset_strategy body) (nw_next_plan spec))
          end
      end
  end.

(** The row [crud.create_user] adds. *)
Definition created_row (now : Z) (u : NewUser) (admin : option (Z * Admin)) : User :=
  let l := nw_limits u in
  (new_user_row now (nw_username u) (fst <$> admin) (uc_expire l) (uc_data_limit l)
     (uc_device_limit l) (uc_speed_limit_up l) (uc_speed_limit_down l))
    <| u_status := nw_status u |>
    <| u_on_hold_expire_duration := or_none (uc_on_hold_expire_duration l) |>
    <| u_data_limit_reset_strategy := nw_data_limit_reset_strategy u |>
    <| u_next_plan := nw_next_plan u |>.

Definition with_limits (u : NewUser) (l : UserCreate) : NewUser :=
  mkNewUser (nw_username u) (nw_status u) l (nw_data_limit_reset_strategy u) (nw_next_plan u).

(** What the loop carries: the database with its panels, the local loads, the
    created names (oldest first) and the number of errors. *)
Record LoopState := mkLoop {
  ls_db : DB;
  ls_panels : SubDB;
  ls_counts : gmap Z Z;
  ls_created : list string;
  ls_errors : Z }.

Section create.
Context (now : Z) (templates : Z → option UserTemplate) (body : BulkUserCreateBody)
  (dbadmin : option (Z * Admin)) (pinned : option SubscriptionEndpoint)
  (balance_panels : list SubscriptionEndpoint).

Definition bulk_username (core : string) (panel : option SubscriptionEndpoint) : string :=
  let username := (default ""%string (bc_username_prefix body) ++ core
                   ++ default ""%string (bc_username_suffix body))%string in
  match panel with
  | Some e => if panel_slug_re (strip (ep_slug e)) then ensure_panel_username username (ep_slug e)
              else username
  | None => username
  end.

(** One turn of the loop.  A duplicate name violates the unique index: the
    savepoint is rolled back and the turn counts as an error. *)
Definition create_one (st : LoopState) (core : string) : LoopState :=
  let '(panel, counts) := _next_panel pinned balance_panels (ls_counts st) in
  let username := bulk_username core panel in
  let failed := mkLoop (ls_db st) (ls_panels st) counts (ls_created st) (ls_errors st + 1) in
  match _user_create_from_bulk_body now templates body username with
  | Raise _ => failed
  | Ok spec =>
      let d := ls_db st in
      let spec := with_limits spec (enforce_reseller_create_locks d now dbadmin (nw_limits spec)).1 in
      if negb (is_none (find_user d (nw_username spec))) then failed
      else
        let uid := next_key (users d) in
        let d' := d <| users := <[uid := created_row now spec dbadmin]> (users d) |> in
        let p' := match panel with
                  | Some e => bind_user_to_panel uid (nw_username spec) e
                      (if is_none pinned then "auto-balance" else "bulk-create")%string (ls_panels st)
                  | None => ls_panels st
                  end in
        mkLoop d' p' counts (ls_created st ++ [nw_username spec]) (ls_errors st)
  end.
End create.

Record BulkUserCreateResult := mkBulkCreated {
  bcr_created : Z;
  bcr_usernames : list string;
  bcr_errors : Z }.

(** [except UnlimitedCreateChargeError as exc: raise ValueError(exc.message)] *)
Definition tariff_value_error {D A} (m : M D A) : M D A := λ s,
  match m s with
  | (Raise (ResellerTariffError _ msg), s') => (Raise (ValueError msg), s')
  | r => r
  end.

(** The capacity checks made once for the whole request. *)
Definition check_capacity (body : BulkUserCreateBody) (dbadmin : option (Z * Admin)) : M DB unit :=
  match dbadmin with
  | None => ret tt
  | Some (aid, a) =>
      let* current := gets (λ d, get_users_count d aid) in
      if match a_max_users a with Some m => m <? current + bc_count body | None => false end
      then raise (ValueError "Reseller user limit reached")
      else if negb (a_is_sudo a) && match a_max_total_traffic a with
                                    | Some cap => cap <=? a_users_usage a
                                    | None => false end
      then raise (ValueError "Reseller total-traffic limit reached")
      else ret tt
  end.

Definition pinned_panel (p : SubDB) (body : BulkUserCreateBody) (dbadmin : option (Z * Admin))
    : result (option SubscriptionEndpoint) :=
  match bc_subscription_endpoint_id body with
  | None => Ok None
  | Some i =>
      match get_subscription_endpoint p i with
      | Some e =>
          if negb (ep_enabled e) then Raise endpoint_missing
          else match assert_panel_allowed_for_admin p e dbadmin with
               | Ok _ => Ok (Some e)
               | Raise x => Raise x
               end
      | None => Raise endpoint_missing
      end
  end.

Definition balance_panels_for (p : SubDB) (pinned : option SubscriptionEndpoint)
    (dbadmin : option (Z * Admin)) : list SubscriptionEndpoint :=
  match pinned with
  | Some _ => []
  | None =>
      match reseller_branding_panel p dbadmin with
      | Some brand => [brand]
      | None =>
          match list_balance_panels p with
          | [] => match default_panel_for_create p dbadmin with Some e => [e] | None => [] end
          | l => l
          end
      end
  end.

Definition panel_loads (p : SubDB) (panels : list SubscriptionEndpoint) : gmap Z Z :=
  list_to_map ((λ e, (ep_id e, panel_user_count p (ep_id e))) <$> panels).

(** The charge of the created accounts. *)
Definition charge_created (dbadmin : option (Z * Admin)) (tariff : option ResellerPlanTariff)
    (unit_price : Z) (created : list string) : M DB unit :=
  match tariff, created with
  | Some t, _ :: _ =>
      if (0 <? unit_price) && negb (is_none dbadmin)
      then charge_unlimited_creates dbadmin t unit_price created "create" ;;; ret tt
      else mark_users_tariff_charged created t
  | _, _ => ret tt
  end.

(** The whole request.  The loop commits every fifty rows and at its end, so the
    charge starts from a committed database that holds every created account.
    [cores] are the [count] random middle parts. *)
Definition bulk_create_users (now : Z) (templates : Z → option UserTemplate)
    (body : BulkUserCreateBody) (admin : option Caller) (cores : list string) (st : DB * SubDB)
    : result BulkUserCreateResult * (DB * SubDB) :=
  let '(d, p) := st in
  let dbadmin := match admin with Some c => get_admin d (c_username c) | None => None end in
  let prepare :=
    check_capacity body dbadmin ;;;
    tariff_value_error (prepare_unlimited_create_charge dbadmin (bc_data_limit body) (bc_count body)
      None (duration_days_from_expire now (bc_expire body)) None) in
  match run_session prepare d with
  | (Raise e, d1) => (Raise e, (d1, p))
  | (Ok (tariff, unit_price), d1) =>
      match pinned_panel p body dbadmin with
      | Raise e => (Raise e, (d1, p))
      | Ok pinned =>
          let panels := balance_panels_for p pinned dbadmin in
          let probe := (default ""%string (bc_username_prefix body) ++ "probe"
                        ++ default ""%string (bc_username_suffix body))%string in
          match _user_create_from_bulk_body now templates body probe with
          | Raise e => (Raise e, (d1, p))
          | Ok _ =>
              let st := foldl (create_one now templates body dbadmin pinned panels)
                          (mkLoop d1 p (panel_loads p panels) [] 0) cores in
              let '(r, d2) := run_session (charge_created dbadmin tariff unit_price (ls_created st))
                                (ls_db st) in
              match r with
              | Raise e => (Raise e, (d2, ls_panels st))
              | Ok _ => (Ok (mkBulkCreated (Z.of_nat (length (ls_created st))) (ls_created st)
                               (ls_errors st)), (d2, ls_panels st))
              end
          end
      end
  end.

End BulkCreate.

(** ** Properties of the panel balancer *)
Module PanelBalanceFacts.
Import Portal SubLinks SubLinkFacts PanelBalance.

#[export] Instance load_order_total count : TotalOrder (load_order count).
Proof.
  unfold load_order. split; intros; rewrite ?Is_true_true in *; rewrite ?orb_true_iff, ?andb_true_iff,
    ?Z.ltb_lt, ?Z.eqb_eq, ?Z.leb_le in *; lia.
Qed.

Lemma min_by_spec (leb : SubscriptionEndpoint → SubscriptionEndpoint → bool) `{!TotalOrder leb} l :
  match min_by leb l with
  | Some e => e ∈ l ∧ ∀ x, x ∈ l → leb e x
  | None => l = []
  end.
Proof.
  destruct l as [|e l]; [done|]. cbn [min_by]. set (step best x := if leb best x then best else x).
  assert (H : ∀ l e, let m := foldl step e l in (m = e ∨ m ∈ l) ∧ leb m e ∧ ∀ x, x ∈ l → leb m x).
  { clear e l. induction l as [|y l IH]; intros e; cbn.
    - split_and!; [by left|by destruct (leb_total e e)|]. intros x []%not_elem_of_nil.
    - destruct (IH (step e y)) as (H1 & H2 & H3).
      assert (Hs : leb (step e y) e ∧ leb (step e y) y ∧ (step e y = e ∨ step e y = y)).
      { assert (Hr : ∀ z, leb z z) by (intros z; by destruct (leb_total z z)).
        unfold step. destruct (leb e y) eqn:E.
        - split; [apply Hr|]. split; [by apply Is_true_true|by left].
        - destruct (leb_total e y) as [H|H]; [by rewrite E in H|]. split; [done|]. split; [apply Hr|by right]. }
      destruct Hs as (S1 & S2 & S3). split_and!.
      + destruct H1 as [H1|H1]; [destruct S3 as [S3|S3]|]; rewrite ?H1, ?S3; set_solver.
      + by eapply leb_trans.
      + intros x [->|Hx]%elem_of_cons; [by eapply leb_trans|by apply H3]. }
  destruct (H l e) as (H1 & H2 & H3). split; [set_solver|].
  intros x [->|Hx]%elem_of_cons; [done|by apply H3].
Qed.

(** Two least elements under the load order have the same id. *)
Lemma load_order_antisym count a b : load_order count a b → load_order count b a → ep_id a = ep_id b.
Proof.
  unfold load_order. rewrite !Is_true_true, !orb_true_iff, !andb_true_iff, !Z.ltb_lt, !Z.eqb_eq, !Z.leb_le. lia.
Qed.

Lemma ids_inj (l : list SubscriptionEndpoint) a b :
  NoDup (ep_id <$> l) → a ∈ l → b ∈ l → ep_id a = ep_id b → a = b.
Proof.
  intros Hnd Ha Hb Hid. apply list_elem_of_lookup in Ha as [i Hi]. apply list_elem_of_lookup in Hb as [j Hj].
  assert (i = j) as ->; [|congruence]. eapply NoDup_lookup; [exact Hnd|..]; rewrite list_lookup_fmap.
  - by rewrite Hi.
  - rewrite Hj. cbn. by rewrite Hid.
Qed.

Definition load (counts : gmap Z Z) (e : SubscriptionEndpoint) : Z := default 0 (counts !! ep_id e).

Lemma next_panel_run panels counts : panels ≠ [] →
  ∃ e, _next_panel None panels counts = (Some e, <[ep_id e := load counts e + 1]> counts)
    ∧ e ∈ panels ∧ ∀ x, x ∈ panels → load_order (λ i, default 0 (counts !! i)) e x.
Proof.
  intros Hne. unfold _next_panel.
  pose proof (min_by_spec (load_order (λ i, default 0 (counts !! i))) panels) as H.
  destruct (min_by _ panels) as [e|]; [|done]. by exists e.
Qed.

Lemma load_order_le count a b : load_order count a b → count (ep_id a) ≤ count (ep_id b).
Proof.
  unfold load_order. rewrite !Is_true_true, !orb_true_iff, !andb_true_iff, !Z.ltb_lt, !Z.eqb_eq, !Z.leb_le. lia.
Qed.

(** The balancer spreads new accounts: it hands out a panel with the least load, adds
    one to that load only, and never lets the loads of two panels drift further apart
    than they were, or than one account. *)
Theorem next_panel_balances panels counts k :
  panels ≠ [] → (∀ x y, x ∈ panels → y ∈ panels → load counts x - load counts y ≤ k) →
  let '(e, counts') := _next_panel None panels counts in
  ∃ ep, e = Some ep ∧ ep ∈ panels
    ∧ (∀ x, x ∈ panels → load counts ep ≤ load counts x)
    ∧ load counts' ep = load counts ep + 1
    ∧ (∀ x, ep_id x ≠ ep_id ep → load counts' x = load counts x)
    ∧ ∀ x y, x ∈ panels → y ∈ panels → load counts' x - load counts' y ≤ Z.max 1 k.
Proof.
  intros Hne Hk. destruct (next_panel_run panels counts Hne) as (e & -> & He & Hmin). exists e.
  assert (Hle : ∀ x, x ∈ panels → load counts e ≤ load counts x).
  { intros x Hx. apply (load_order_le _ _ _ (Hmin x Hx)). }
  assert (Hl : ∀ x, load (<[ep_id e := load counts e + 1]> counts) x
    = if decide (ep_id e = ep_id x) then load counts e + 1 else load counts x).
  { intros x. unfold load at 1. rewrite lookup_insert. by case_decide. }
  split_and!; [done|done|done|by rewrite Hl, decide_True|intros x Hx; by rewrite Hl, decide_False|].
  intros x y Hx Hy. rewrite !Hl. pose proof (Hk x y Hx Hy). pose proof (Hle x Hx). pose proof (Hle y Hy).
  assert (Hid : ∀ z, ep_id e = ep_id z → load counts z = load counts e) by (intros z E; unfold load; by rewrite E).
  repeat case_decide; repeat match goal with H : ep_id e = ep_id _ |- _ => apply Hid in H end; lia.
Qed.

(** *** The local loads agree with asking the database again *)

(** A new account: its id and the name it gets on each panel. *)
Definition item : Type := Z * (SubscriptionEndpoint → string).
Definition token_of (e : SubscriptionEndpoint) (i : item) : string :=
  alias_token_for_username (i.2 e) (ep_slug e).

Fixpoint assign_local (panels : list SubscriptionEndpoint) (items : list item) (counts : gmap Z Z)
    (p : SubDB) : list (option SubscriptionEndpoint) * SubDB :=
  match items with
  | [] => ([], p)
  | i :: items =>
      let '(e, counts) := _next_panel None panels counts in
      let p := match e with Some e => bind_user_to_panel i.1 (i.2 e) e "auto-balance" p | None => p end in
      let '(es, p) := assign_local panels items counts p in (e :: es, p)
  end.

Fixpoint assign_query (items : list item) (p : SubDB) : list (option SubscriptionEndpoint) * SubDB :=
  match items with
  | [] => ([], p)
  | i :: items =>
      let e := pick_least_loaded_panel p in
      let p := match e with Some e => bind_user_to_panel i.1 (i.2 e) e "auto-balance" p | None => p end in
      let '(es, p) := assign_query items p in (e :: es, p)
  end.

Definition fresh_token (p : SubDB) (e : SubscriptionEndpoint) (i : item) : Prop :=
  get_subscription_token_alias p (token_of e i) (Some (ep_id e)) = None.

Lemma bind_fresh p e i src : fresh_token p e i →
  bind_user_to_panel i.1 (i.2 e) e src p =
  p <| sub_aliases := sub_aliases p ++ [mkAlias (token_of e i) i.1 (Some (ep_id e)) src] |>.
Proof. intros H. unfold bind_user_to_panel, upsert_subscription_token_alias. by rewrite H. Qed.

Lemma count_bind p e i src x : fresh_token p e i →
  panel_user_count (bind_user_to_panel i.1 (i.2 e) e src p) x =
  panel_user_count p x + if decide (ep_id e = x) then 1 else 0.
Proof.
  intros H. rewrite bind_fresh by done. unfold panel_user_count. cbn [over sub_aliases].
  rewrite filter_app, length_app. case_decide as E.
  - rewrite filter_cons_True by (cbn; by rewrite E). cbn. lia.
  - rewrite filter_cons_False by (cbn; congruence). cbn. lia.
Qed.

Lemma fresh_after_bind p e i j x : fresh_token p e i → fresh_token p x j →
  (ep_id e = ep_id x → token_of e i ≠ token_of x j) →
  fresh_token (bind_user_to_panel i.1 (i.2 e) e "auto-balance" p) x j.
Proof.
  intros Hi Hj Hne. rewrite bind_fresh by done. unfold fresh_token, get_subscription_token_alias in *.
  case_bool_decide; [done|]. cbn [over sub_aliases]. apply first_none, Forall_app. split.
  - apply Forall_forall. intros a Ha%list_elem_of_In. exact (find_none _ _ Hj a Ha).
  - constructor; [|constructor]. cbn. apply andb_false_iff.
    destruct (decide (token_of e i = token_of x j)) as [E|E]; [right|left; by apply bool_decide_eq_false].
    apply bool_decide_eq_false. intros [= E']. by apply Hne.
Qed.

Lemma list_panels_bind p e i src : fresh_token p e i →
  list_balance_panels (bind_user_to_panel i.1 (i.2 e) e src p) = list_balance_panels p.
Proof. intros H. by rewrite bind_fresh. Qed.

Lemma pick_agrees p counts : NoDup (ep_id <$> list_balance_panels p) →
  (∀ e, e ∈ list_balance_panels p → load counts e = panel_user_count p (ep_id e)) →
  pick_least_loaded_panel p = (_next_panel None (list_balance_panels p) counts).1.
Proof.
  intros Hnd Hc. unfold pick_least_loaded_panel.
  pose proof (sort_by_head (load_order (panel_user_count p)) (list_balance_panels p)) as Hs.
  destruct (head _) as [a|].
  - destruct Hs as [Ha Hmin]. assert (Hne : list_balance_panels p ≠ []) by (intros E; rewrite E in Ha; set_solver).
    destruct (next_panel_run _ counts Hne) as (e & -> & He & Hle). cbn [fst]. f_equal.
    apply (ids_inj (list_balance_panels p)); [done..|]. apply (load_order_antisym (panel_user_count p)).
    + by apply Hmin.
    + specialize (Hle a Ha). unfold load_order in *. fold (load counts e) (load counts a) in Hle.
      by rewrite !Hc in Hle by done.
  - by rewrite Hs.
Qed.

(** Balancing on a snapshot is balancing on the database: handing panels to any number
    of new accounts from the loads read once gives the panels, and the alias rows, that
    asking the database again before each account would give, when the accounts get
    tokens that are new on their panels. *)
Theorem snapshot_balancing_agrees items p :
  NoDup (ep_id <$> list_balance_panels p) →
  (∀ e, e ∈ list_balance_panels p → NoDup (token_of e <$> items) ∧ Forall (fresh_token p e) items) →
  assign_local (list_balance_panels p) items
    (list_to_map ((λ e, (ep_id e, panel_user_count p (ep_id e))) <$> list_balance_panels p)) p
  = assign_query items p.
Proof.
  intros Hnd Hfresh. set (panels := list_balance_panels p) in *.
  set (counts := list_to_map _). assert (Hc : ∀ e, e ∈ panels → load counts e = panel_user_count p (ep_id e)).
  { intros e He. unfold load, counts.
    rewrite (elem_of_list_to_map_1 _ (ep_id e) (panel_user_count p (ep_id e))); [done|..].
    - by rewrite <-list_fmap_compose.
    - apply list_elem_of_fmap. by exists e. }
  clearbody counts. assert (Hp : list_balance_panels p = panels) by done. clearbody panels.
  revert counts p Hp Hc Hfresh. induction items as [|i items IH]; intros counts p Hp Hc Hfresh; [done|].
  cbn [assign_local assign_query]. rewrite (pick_agrees p counts) by (by rewrite Hp). rewrite Hp.
  destruct panels as [|e0 ps] eqn:Eps.
  { cbn [_next_panel min_by fst]. rewrite (IH counts p) by (done || by intros ? []%not_elem_of_nil). done. }
  rewrite <-Eps in *. destruct (next_panel_run panels counts) as (e & -> & He & _); [by rewrite Eps|]. cbn [fst].
  destruct (Hfresh e He) as [Hnd' Hf]. apply Forall_cons in Hf as [Hfi Hfs].
  rewrite (IH _ (bind_user_to_panel i.1 (i.2 e) e "auto-balance" p)); [done|by rewrite list_panels_bind| |].
  - intros x Hx. rewrite count_bind by done. unfold load at 1. rewrite lookup_insert. case_decide as E.
    + by rewrite default_Some, (Hc e He), E.
    + fold (load counts x). rewrite Hc by done. lia.
  - intros x Hx. destruct (Hfresh x Hx) as [Hndx Hfx]. cbn [fmap list_fmap] in Hndx.
    apply NoDup_cons in Hndx as [Hnx Hndx]. apply Forall_cons in Hfx as [_ Hfx]. split; [done|].
    apply Forall_forall. intros j Hj. apply fresh_after_bind; [done|by eapply Forall_forall in Hfx|].
    intros E. assert (e = x) as -> by by eapply ids_inj. intros Eq. apply Hnx. rewrite Eq.
    by apply list_elem_of_fmap_2.
Qed.

(** *** Names on a panel *)
Notation chars := String.list_ascii_of_string.
Notation of_chars := String.string_of_list_ascii.

Lemma chars_inj x y : chars x = chars y → x = y.
Proof.
  intros H. rewrite <-(String.string_of_list_ascii_of_string x), <-(String.string_of_list_ascii_of_string y).
  by rewrite H.
Qed.

Lemma length_chars s : String.length s = length (chars s).
Proof. induction s as [|c s IH]; [done|]. apply (f_equal S IH). Qed.

Lemma chars_of l : chars (of_chars l) = l.
Proof. apply String.list_ascii_of_string_of_list_ascii. Qed.

Lemma chars_app x y : chars (x ++ y)%string = chars x ++ chars y.
Proof. apply UserBulkFacts.list_ascii_app. Qed.

Definition solid (l : list Ascii.ascii) : bool := forallb (λ c, negb (is_space c)) l.

Lemma drop_spaces_solid l : solid l = true → drop_spaces l = l.
Proof. destruct l as [|c l]; [done|]. cbn. destruct (is_space c); done. Qed.

Lemma strip_solid s : solid (chars s) = true → strip s = s.
Proof.
  intros H. unfold strip. rewrite (drop_spaces_solid (chars s)) by done.
  rewrite drop_spaces_solid; [by rewrite rev_involutive, String.string_of_list_ascii_of_string|].
  unfold solid in *. rewrite forallb_forall in *. intros c Hc. apply H. by apply in_rev in Hc.
Qed.

Lemma word_not_space c : word_char c = true → is_space c = false.
Proof. destruct c as [[] [] [] [] [] [] [] []]; (done || by vm_compute). Qed.

Lemma words_solid l : forallb word_char l = true → solid l = true.
Proof.
  unfold solid. rewrite !forallb_forall. intros H c Hc. by rewrite (word_not_space c (H c Hc)).
Qed.

Lemma digit_word c : is_digit c = true → word_char c = true.
Proof. unfold is_digit, word_char. cbv zeta. generalize (Ascii.nat_of_ascii c). intros n H.
  apply andb_true_iff in H as [-> ->]. by rewrite orb_true_r. Qed.

Lemma p_word c : Ascii.eqb (lower_ascii c) (Ascii.ascii_of_nat 112) = true → word_char c = true.
Proof.
  destruct c as [[] [] [] [] [] [] [] []]; (done || by vm_compute).
Qed.

Lemma digits_prefix_all l : forallb is_digit (digits_prefix l) = true.
Proof. induction l as [|c l IH]; [done|]. cbn. destruct (is_digit c) eqn:E; [|done]. cbn. by rewrite E. Qed.

Lemma digits_prefix_app l c r : forallb is_digit l = true → is_digit c = false →
  digits_prefix (l ++ c :: r) = l.
Proof.
  induction l as [|x l IH]; intros Hl Hc; cbn; [by rewrite Hc|].
  cbn in Hl. apply andb_true_iff in Hl as [Hx Hl]. by rewrite Hx, IH.
Qed.

(** What [^p\d+$] accepts. *)
Lemma panel_slug_shape s : panel_slug_re s = true →
  ∃ c ds, chars s = c :: ds ∧ ds ≠ [] ∧ forallb is_digit ds = true
    ∧ Ascii.eqb (lower_ascii c) (Ascii.ascii_of_nat 112) = true ∧ forallb word_char (chars s) = true.
Proof.
  unfold panel_slug_re, panel_group. destruct (chars s) as [|c l] eqn:Es; [done|].
  destruct (Ascii.eqb _ _) eqn:Ec; [|done]. pose proof (digits_prefix_all l) as Hd.
  destruct (digits_prefix l) as [|d ds] eqn:Ed; [done|]. rewrite bool_decide_eq_true. intros [= <-].
  exists c, (d :: ds). split_and!; try done. apply forallb_forall. intros x [<-|Hx]; [by apply p_word|].
  apply digit_word. rewrite forallb_forall in Hd. by apply Hd.
Qed.

Lemma panel_name_matches slug rest : panel_slug_re slug = true →
  username_panel_re (slug ++ "_" ++ rest)%string = Some slug.
Proof.
  intros (c & ds & Es & Hne & Hd & Hc & _)%panel_slug_shape. unfold username_panel_re.
  rewrite !chars_app, Es. change (chars "_") with [UserBulk.underscore]. cbn [app panel_group]. rewrite Hc.
  rewrite digits_prefix_app by done. destruct ds as [|d ds']; [done|]. set (ds := d :: ds') in *.
  change (length (c :: ds)) with (S (length ds)). cbn [drop]. rewrite drop_app_length.
  change (Ascii.eqb UserBulk.underscore UserBulk.underscore) with true. cbn iota. f_equal. apply chars_inj.
  by rewrite chars_of, Es.
Qed.

Lemma length_take_str n s : String.length (str_take n s) = Nat.min n (String.length s).
Proof. unfold str_take. by rewrite !length_chars, chars_of, length_take. Qed.

(** A new account's name on a panel is at most 32 characters, carries the panel's prefix,
    is not changed by a second pass, and the subscription token cut from it is the part
    of the name that was asked for. *)
Theorem panel_name_roundtrip name slug :
  forallb word_char (chars name) = true → name ≠ ""%string → username_panel_re name = None →
  panel_slug_re slug = true → (String.length slug ≤ 28)%nat →
  let r := ensure_panel_username name slug in
  (String.length r ≤ 32)%nat
  ∧ starts_with r (slug ++ "_") = true
  ∧ ensure_panel_username r slug = r
  ∧ alias_token_for_username r slug = str_take (31 - String.length slug) name.
Proof.
  intros Hw Hne Hre Hs Hlen. destruct (panel_slug_shape _ Hs) as (c & ds & Es & _ & _ & _ & Hsw).
  assert (Hslug : slug ≠ ""%string) by by intros ->.
  assert (Hr : ensure_panel_username name slug = ((slug ++ "_") ++ str_take (31 - String.length slug) name)%string).
  { unfold ensure_panel_username. rewrite !strip_solid by by apply words_solid.
    rewrite (proj2 (String.eqb_neq _ _) Hne), (proj2 (String.eqb_neq _ _) Hslug), Hre. cbn [orb is_none negb].
    rewrite length_append. change (String.length "_") with 1%nat.
    rewrite (proj2 (Z.ltb_ge _ _)) by (unfold max_len; lia). do 2 f_equal. unfold max_len. lia. }
  cbv zeta. rewrite Hr. set (core := str_take (31 - String.length slug) name).
  assert (Hcl : (String.length core ≤ 31 - String.length slug)%nat) by (unfold core; rewrite length_take_str; lia).
  assert (Hcn : (0 < String.length core)%nat).
  { unfold core. rewrite length_take_str. destruct name; [done|]. cbn [String.length]. lia. }
  assert (Hl : (String.length ((slug ++ "_") ++ core) ≤ 32)%nat).
  { rewrite !length_append. change (String.length "_") with 1%nat. lia. }
  assert (Hst : starts_with ((slug ++ "_") ++ core) (slug ++ "_") = true).
  { unfold starts_with. apply bool_decide_eq_true. rewrite (chars_app (slug ++ "_") core). apply take_app_length. }
  split_and!; [done|done| |].
  - assert (Hcw : forallb word_char (chars core) = true).
    { unfold core, str_take. rewrite chars_of. rewrite forallb_forall in *. intros x Hx. apply Hw.
      apply list_elem_of_In. apply list_elem_of_In in Hx. by eapply elem_of_sublist; [|apply sublist_take]. }
    assert (Hall : solid (chars ((slug ++ "_") ++ core)) = true).
    { apply words_solid. rewrite !chars_app, !forallb_app, Hsw, Hcw. done. }
    unfold ensure_panel_username. rewrite (strip_solid _ Hall), (strip_solid slug) by by apply words_solid.
    rewrite (proj2 (String.eqb_neq slug _) Hslug).
    replace (String.eqb ((slug ++ "_") ++ core) "") with false
      by (symmetry; apply String.eqb_neq; intros E; rewrite E in Hl; apply (f_equal String.length) in E;
          rewrite !length_append in E; cbn in E; lia).
    cbn [orb]. assert (Ha : ((slug ++ "_") ++ core)%string = (slug ++ "_" ++ core)%string).
    { apply chars_inj. by rewrite !chars_app, app_assoc. }
    rewrite Ha, panel_name_matches by done. cbn [is_none negb]. rewrite <-Ha.
    unfold str_take. rewrite take_ge by (rewrite <-length_chars; unfold max_len; lia).
    by rewrite String.string_of_list_ascii_of_string.
  - unfold alias_token_for_username. rewrite Hst. cbn [andb].
    replace (String.length (slug ++ "_") <? String.length ((slug ++ "_") ++ core))%nat with true
      by (symmetry; apply Nat.ltb_lt; rewrite (length_append (slug ++ "_") core); lia).
    unfold str_drop. rewrite chars_app, length_chars, drop_app_length. apply String.string_of_list_ascii_of_string.
Qed.

(** Binding an account to a panel takes over the row of an existing token: the link that
    served another user (a migrated subscription, or an account whose name ends alike)
    serves the new one from then on. *)
Theorem binding_takes_over_token p uid name e src a :
  get_subscription_token_alias p (alias_token_for_username name (ep_slug e)) (Some (ep_id e)) = Some a →
  ∃ a', get_subscription_token_alias (bind_user_to_panel uid name e src p)
          (alias_token_for_username name (ep_slug e)) (Some (ep_id e)) = Some a'
    ∧ al_user_id a' = uid ∧ al_token a' = al_token a.
Proof.
  set (tok := alias_token_for_username name (ep_slug e)). intros H.
  unfold bind_user_to_panel, upsert_subscription_token_alias. fold tok. rewrite H.
  unfold get_subscription_token_alias in *. case_bool_decide; [done|]. cbn [over sub_aliases].
  induction (sub_aliases p) as [|x l IH]; [done|]. unfold first in *. cbn [List.find] in *.
  destruct (bool_decide (al_token x = tok) && _) eqn:E.
  - injection H as <-. apply andb_true_iff in E as [E%bool_decide_eq_true _].
    cbn [List.find al_token al_endpoint_id]. rewrite !bool_decide_true by done. by eexists.
  - cbn [List.find]. rewrite E. by apply IH.
Qed.
End PanelBalanceFacts.

(** ** Properties of bulk creation *)
Module BulkCreateFacts.
Import SubLinks Quota Lifecycle Wallet Ledger WalletFacts Tariffs TariffFacts Portal PortalFacts PlanOps PanelBalance BulkCreate.

Lemma validate_username u v : UserCreate_validate u = Ok v →
  nw_username v = nw_username u ∧ username_format_ok (nw_username v) = true.
Proof.
  unfold UserCreate_validate. cbv zeta. intros H. destruct (_ && _) eqn:E; [|done]. injection H as <-.
  cbn [nw_username]. split; [done|]. by boolp.
Qed.

Lemma bulk_body_username now tpls body name v :
  _user_create_from_bulk_body now tpls body name = Ok v →
  nw_username v = name ∧ username_format_ok name = true.
Proof.
  unfold _user_create_from_bulk_body. intros H.
  assert (Hv : ∃ u, nw_username u = name ∧ UserCreate_validate u = Ok v).
  { destruct (bc_template_id body) as [tid|]; [|eexists; split; [|exact H]; done].
    destruct (tpls tid) as [tpl|]; [|done]. destruct (_user_create_from_db_template _ _ _ _) as [spec|]; [|done].
    eexists; split; [|exact H]; done. }
  destruct Hv as (u & <- & [-> Hu]%validate_username). by split.
Qed.

Section loop.
Context (now : Z) (tpls : Z → option UserTemplate) (body : BulkUserCreateBody)
  (dbadmin : option (Z * Admin)) (pinned : option SubscriptionEndpoint) (panels : list SubscriptionEndpoint).
Notation turn := (create_one now tpls body dbadmin pinned panels).

(** What [n] turns of the loop have done to the database [d0]. *)
Record loop_inv (d0 : DB) (n : nat) (st : LoopState) : Prop := mkLoopInv {
  li_frame : ls_db st = d0 <| users := users (ls_db st) |>;
  li_old uid u : users d0 !! uid = Some u → users (ls_db st) !! uid = Some u;
  li_new uid u : users (ls_db st) !! uid = Some u → users d0 !! uid = None →
    u_username u ∈ ls_created st ∧ u_admin_id u = fst <$> dbadmin;
  li_names name : name ∈ ls_created st → username_format_ok name = true
    ∧ ∀ uid u, users d0 !! uid = Some u → same_username (u_username u) name = false;
  li_count : Z.of_nat (length (ls_created st)) + ls_errors st = Z.of_nat n;
  li_errors : 0 ≤ ls_errors st;
  li_owned aid : get_users_count (ls_db st) aid = get_users_count d0 aid
    + if decide (fst <$> dbadmin = Some aid) then Z.of_nat (length (ls_created st)) else 0;
  li_unique : unique_usernames d0 → unique_usernames (ls_db st) }.

Lemma count_insert d uid row aid : users d !! uid = None →
  get_users_count (d <| users := <[uid := row]> (users d) |>) aid =
  get_users_count d aid + if decide (u_admin_id row = Some aid) then 1 else 0.
Proof.
  intros Hf. unfold get_users_count. cbn [over users].
  rewrite (map_to_list_insert _ _ _ Hf). case_decide as E.
  - rewrite filter_cons_True by done. cbn [length]. lia.
  - rewrite filter_cons_False by done. lia.
Qed.

Lemma count_fmap d d' (f : User → User) aid : users d' = f <$> users d →
  (∀ u, u_username (f u) = u_username u ∧ u_admin_id (f u) = u_admin_id u) →
  get_users_count d' aid = get_users_count d aid.
Proof.
  intros E Hf. unfold get_users_count. rewrite E, map_to_list_fmap. f_equal.
  induction (map_to_list (users d)) as [|[i u] l IH]; [done|]. cbn [fmap list_fmap prod_map].
  destruct (Hf u) as [_ Hu]. destruct (decide (u_admin_id u = Some aid)) as [Ha|Ha].
  - rewrite !filter_cons_True by (cbn; by rewrite ?Hu). cbn [length]. by f_equal.
  - by rewrite !filter_cons_False by (cbn; by rewrite ?Hu).
Qed.

Lemma created_row_columns u adm : u_username (created_row now u adm) = nw_username u
  ∧ u_admin_id (created_row now u adm) = fst <$> adm.
Proof. done. Qed.

Lemma turn_inv d0 n st core : loop_inv d0 n st → loop_inv d0 (S n) (turn st core).
Proof.
  intros [I1 I2 I3 I4 I5 I6 I7 I8]. unfold create_one.
  destruct (_next_panel pinned panels (ls_counts st)) as [panel counts].
  destruct (_user_create_from_bulk_body _ _ _ _) as [spec|e] eqn:Eb;
    [|split; cbn [ls_db ls_created ls_errors]; try done; lia].
  apply bulk_body_username in Eb as [Hnm Hok]. set (name := bulk_username body core panel) in *.
  set (spec' := with_limits spec _). assert (Hnm' : nw_username spec' = name) by exact Hnm. clearbody spec'.
  destruct (find_user (ls_db st) (nw_username spec')) as [[i u]|] eqn:Ef; cbn [is_none negb];
    [split; cbn [ls_db ls_created ls_errors]; try done; lia|].
  set (uid := next_key (users (ls_db st))).
  assert (Hfresh : users (ls_db st) !! uid = None) by apply next_key_fresh.
  destruct (created_row_columns spec' dbadmin) as [Hrn Hra].
  set (row := created_row now spec' dbadmin) in *. clearbody row uid. rewrite Hnm' in *.
  split; cbn [ls_db ls_panels ls_created ls_errors].
  - rewrite I1. done.
  - intros j v Hj. cbn [over users]. rewrite lookup_insert_ne; [by apply I2|]. intros ->. apply I2 in Hj. congruence.
  - intros j v Hj Hn. cbn [over users] in Hj. rewrite lookup_insert in Hj. case_decide.
    + injection Hj as <-. rewrite Hrn. split; [set_solver|done].
    + destruct (I3 j v Hj Hn). split; [set_solver|done].
  - intros nm [Hin| ->%list_elem_of_singleton]%elem_of_app; [by apply I4|]. split; [done|].
    intros j v Hj. apply I2 in Hj. by eapply find_user_None.
  - rewrite length_app. cbn [length]. lia.
  - done.
  - intros aid. rewrite count_insert by done. rewrite I7, Hra, length_app. cbn [length]. case_decide; lia.
  - intros Hu. eapply unique_insert; [by apply I8|exact Ef|exact Hrn|done].
Qed.

Lemma loop_run d0 p counts cores :
  loop_inv d0 (length cores) (foldl turn (mkLoop d0 p counts [] 0) cores).
Proof.
  assert (H : ∀ cores n st, loop_inv d0 n st → loop_inv d0 (n + length cores) (foldl turn st cores)).
  { clear cores. induction cores as [|c cores IH]; intros n st H; cbn [foldl length].
    - by rewrite Nat.add_0_r.
    - replace (n + S (length cores))%nat with (S n + length cores)%nat by lia. by apply IH, turn_inv. }
  apply (H cores 0%nat). split; cbn [ls_db ls_created ls_errors]; try done.
  - by destruct d0.
  - intros uid u H1 H2. congruence.
  - intros name []%not_elem_of_nil.
  - intros aid. case_decide; cbn; lia.
Qed.
End loop.

(** The charge of the created accounts: debits the price of each, marks them. *)
Lemma charge_created_run d aid a t price names :
  admins d !! aid = Some a → a_is_sudo a = false → a_parent_admin_id a ≠ Some aid → 0 ≤ price → names ≠ [] →
  ∃ d2, run_session (charge_created (Some (aid, a)) (Some t) price names) d = (Ok tt, d2)
    ∧ balance d2 aid = balance d aid - price * Z.of_nat (length names)
    ∧ users d2 = (λ u, if existsb (same_username (u_username u)) names
                       then mark_user_tariff_charged t u else u) <$> users d.
Proof.
  intros Ha Hs Hp Hpr Hn. unfold run_session, charge_created. destruct names as [|x l]; [done|].
  set (names := x :: l) in *. cbn [is_none negb]. rewrite andb_true_r.
  set (mark := λ u, if existsb (same_username (u_username u)) names then mark_user_tariff_charged t u else u).
  assert (Hmark : ∀ d0, mark_users_tariff_charged names t (mkSession d0 d0) =
    (Ok tt, mkSession (d0 <| users := mark <$> users d0 |>) (d0 <| users := mark <$> users d0 |>))) by done.
  destruct (Z.ltb_spec 0 price) as [Hpos|Hz].
  - unfold charge_unlimited_creates. destruct (charge_run d aid a t price names "create" Hs Hpos Hn) as (tx & Hc & _ & _).
    rewrite (proj2 (Z.ltb_lt _ _) Hpos). set (d1 := add_tx_state _ _ _ _ _ d) in Hc.
    eassert (Hall : bind (charge_reseller_tariff (Some (aid, a)) t price names "create")
      (λ tx, mark_users_tariff_charged names t ;;; ret tx) (mkSession d d) = (Ok _, _)).
    { rewrite (bind_ok _ _ _ _ _ Hc), (bind_ok _ _ _ _ _ (Hmark d1)). reflexivity. }
    rewrite (bind_ok _ _ _ _ _ Hall). eexists. split; [reflexivity|]. cbn [saved]. split.
    + change (balance (over users _ d1) aid) with (balance d1 aid). subst d1.
      rewrite add_tx_state_balance_self; [lia|]. intros child. rewrite Ha. congruence.
    + cbn [over users]. subst d1. by rewrite add_tx_state_frame.
  - rewrite Hmark. eexists. split; [reflexivity|]. cbn [saved]. split; [|done].
    change (balance (over users _ d) aid) with (balance d aid). assert (price = 0) as -> by lia. lia.
Qed.

Definition preparation (now : Z) (body : BulkUserCreateBody) (dbadmin : option (Z * Admin))
    : M DB (option ResellerPlanTariff * Z) :=
  check_capacity body dbadmin ;;;
  tariff_value_error (prepare_unlimited_create_charge dbadmin (bc_data_limit body) (bc_count body)
    None (duration_days_from_expire now (bc_expire body)) None).

Lemma preparation_run now body aid a d : a_is_sudo a = false →
  ∃ r d1, run_session (preparation now body (Some (aid, a))) d = (r, d1)
    ∧ (d1 = d ∨ d1 = open_wallet aid d)
    ∧ match r with
      | Ok (t, price) =>
          (∀ m, a_max_users a = Some m → get_users_count d aid + bc_count body ≤ m)
          ∧ 0 ≤ price ∧ (t = None → price = 0) ∧ (0 < price → price * bc_count body ≤ balance d aid)
      | Raise _ => True
      end.
Proof.
  intros Hs. unfold run_session, preparation.
  destruct (check_capacity body (Some (aid, a)) (mkSession d d)) as [[[]|e] s] eqn:Ec.
  2: { rewrite (bind_raise _ _ _ _ _ Ec). eexists _, _. split; [reflexivity|]. split; [|done]. left.
       revert Ec. unfold check_capacity. rewrite bind_gets. cbn [work].
       destruct (match a_max_users a with Some m => _ | None => false end); [by intros [= _ <-]|].
       destruct (_ && _); [by intros [= _ <-]|done]. }
  rewrite (bind_ok _ _ _ _ _ Ec).
  assert (Hcap : s = mkSession d d ∧ ∀ m, a_max_users a = Some m → get_users_count d aid + bc_count body ≤ m).
  { revert Ec. unfold check_capacity. rewrite bind_gets. cbn [work].
    destruct (match a_max_users a with Some m => _ | None => false end) eqn:Em; [done|].
    destruct (_ && _); [done|]. intros [= <-]. split; [done|]. intros m Hm. rewrite Hm in Em.
    by apply Z.ltb_ge in Em. }
  destruct Hcap as [-> Hcap].
  destruct (prepare_run d aid a (bc_data_limit body) (duration_days_from_expire now (bc_expire body)) None
    (bc_count body) true Hs) as (r & d1 & E & Hd & Hr).
  unfold tariff_value_error.
  assert (Eu : prepare_unlimited_create_charge (Some (aid, a)) (bc_data_limit body) (bc_count body) None
    (duration_days_from_expire now (bc_expire body)) None (mkSession d d) = (r, mkSession d1 d1)) by exact E.
  rewrite Eu. destruct r as [[t price]|e].
  - eexists _, d1. split; [reflexivity|]. split; [done|]. split; [done|]. destruct t as [t|].
    + destruct Hr as (_ & -> & Hc). split_and!; [lia|done|]. intros Hp. by apply Hc.
    + subst price. by split_and!.
  - destruct Hr as (st & m & -> & _). eexists _, d1. by split.
Qed.

(** The charge after the loop always goes through: it debits one price per created account
    and touches only the rows of those accounts, never their name or their owner. *)
Lemma charge_created_settles d aid a tariff price names :
  admins d !! aid = Some a → a_is_sudo a = false → a_parent_admin_id a ≠ Some aid → 0 ≤ price →
  (tariff = None → price = 0) →
  ∃ d2, run_session (charge_created (Some (aid, a)) tariff price names) d = (Ok tt, d2)
    ∧ balance d2 aid = balance d aid - price * Z.of_nat (length names)
    ∧ ∃ f, users d2 = f <$> users d
        ∧ (∀ u, u_username (f u) = u_username u ∧ u_admin_id (f u) = u_admin_id u)
        ∧ (∀ u, existsb (same_username (u_username u)) names = false → f u = u).
Proof.
  intros Ha Hs Hp Hpr Hnone. destruct tariff as [t|]; [destruct (decide (names = [])) as [->|E]|].
  - exists d. split; [done|]. split; [cbn; lia|]. exists (λ u, u). split; [by rewrite map_fmap_id|done].
  - destruct (charge_created_run d aid a t price names) as (d2 & E2 & Hb & Hu); try done.
    exists d2. split; [done|]. split; [done|]. eexists. split; [exact Hu|].
    split; intros u; [destruct (existsb _ _); done|]. by intros ->.
  - exists d. split; [by destruct names|]. rewrite (Hnone eq_refl).
    split; [lia|]. exists (λ u, u). split; [by rewrite map_fmap_id|done].
Qed.


(** What every step of the request keeps, the request keeps. *)
Lemma bulk_create_preserves (P : DB → Prop) now tpls body admin cores d p :
  (∀ adm, preserves P (preparation now body adm)) →
  (∀ adm t price names, preserves P (charge_created adm t price names)) →
  (∀ d us, P d → P (d <| users := us |>)) → P d →
  P (bulk_create_users now tpls body admin cores (d, p)).2.1.
Proof.
  intros Hprep Hcharge Hus Hd. unfold bulk_create_users.
  set (adm := match admin with Some c => _ | None => None end). fold (preparation now body adm).
  pose proof (preserves_run P (preparation now body adm) d (Hprep adm) Hd) as H1.
  destruct (run_session _ d) as [[[t price]|e] d1]; [|done]. cbn [snd] in H1.
  destruct (pinned_panel p body adm) as [pinned|e]; [|done].
  destruct (_user_create_from_bulk_body _ _ _ _) as [probe|e]; [|done].
  set (panels := balance_panels_for p pinned adm).
  pose proof (loop_run now tpls body adm pinned panels d1 p (panel_loads p panels) cores) as L.
  set (st := foldl _ _ cores) in *.
  assert (H2 : P (ls_db st)) by (rewrite (li_frame _ _ _ _ L); by apply Hus).
  pose proof (preserves_run P _ _ (Hcharge adm t price (ls_created st)) H2) as H3.
  by destruct (run_session _ (ls_db st)) as [[u|e] d2].
Qed.

(** A template's quota and lifetime never reach the accounts created from it in bulk: the
    request's own fields, zero unless the caller sets them, always win, and zero means
    unlimited. *)
Theorem bulk_template_limits_ignored now tpls body name adm v tid :
  bc_template_id body = Some tid → bc_data_limit body = Some 0 → bc_expire body = Some 0 →
  _user_create_from_bulk_body now tpls body name = Ok v →
  u_data_limit (created_row now v adm) = None ∧ u_expire (created_row now v adm) = None.
Proof.
  intros Ht Hd He H. unfold _user_create_from_bulk_body in H. rewrite Ht in H.
  destruct (tpls tid) as [tpl|]; [|done]. destruct (_user_create_from_db_template _ _ _ _) as [spec|]; [|done].
  rewrite Hd, He in H. cbn [override] in H. unfold UserCreate_validate in H. cbv zeta in H.
  destruct (_ && _); [|done]. injection H as <-. done.
Qed.

(** The suffix of a template is put in front of the name. *)
Theorem template_suffix_is_a_prefix now tpl name st v s :
  tp_username_prefix tpl = None → tp_username_suffix tpl = Some s → s ≠ ""%string →
  _user_create_from_db_template now tpl name st = Ok v → nw_username v = (s ++ name)%string.
Proof.
  intros Hp Hs Hne H. unfold _user_create_from_db_template in H. rewrite Hp, Hs in H. cbn [affix] in H.
  rewrite (proj2 (String.eqb_neq _ _) Hne) in H. by apply validate_username in H as [-> _].
Qed.
End BulkCreateFacts.

Module BulkCreateExamples.
Import SubLinks Wallet Ledger Tariffs Portal PortalFacts PlanOps PanelBalance PanelBalanceFacts BulkCreate BulkCreateFacts.

Definition p1 : SubscriptionEndpoint := mkEndpoint 1 "p1" None None None true.
Definition p2 : SubscriptionEndpoint := mkEndpoint 2 "p2" None None None true.
Definition panel_db : SubDB := mkSubDB [] ∅ [mkAlias "old" 5 (Some 1) "manual"] [p1; p2].

Lemma next_panel_balances_witness :
  (_next_panel None [p1; p2] {[1 := 1; 2 := 0]}).1 = Some p2
  ∧ load (_next_panel None [p1; p2] {[1 := 1; 2 := 0]}).2 p2 = 1.
Proof.
  pose proof (next_panel_balances [p1; p2] {[1 := 1; 2 := 0]} 1) as H.
  destruct (_next_panel None [p1; p2] {[1 := 1; 2 := 0]}) as [e c] eqn:E.
  destruct H as (ep & -> & _ & _ & Hl & _).
  - discriminate.
  - intros x y Hx Hy. repeat (apply elem_of_cons in Hx as [->|Hx]); try (by apply elem_of_nil in Hx);
      repeat (apply elem_of_cons in Hy as [->|Hy]); try (by apply elem_of_nil in Hy); vm_compute; discriminate.
  - vm_compute in E. injection E as <- <-. split; [reflexivity|exact Hl].
Defined.

Definition new_items : list item := [(7, λ _, "p_anna"%string); (8, λ _, "p_bert"%string); (9, λ _, "p_carl"%string)].

Lemma snapshot_balancing_agrees_witness :
  (assign_query new_items panel_db).1 = [Some p2; Some p1; Some p2].
Proof.
  rewrite <-(snapshot_balancing_agrees new_items panel_db).
  - vm_compute. reflexivity.
  - apply (bool_decide_unpack _). vm_compute. exact I.
  - intros e He. assert (e = p1 ∨ e = p2) as [-> | ->].
    { change (list_balance_panels panel_db) with [p1; p2] in He. set_solver. }
    + split; [apply (bool_decide_unpack _); vm_compute; exact I|]. repeat constructor.
    + split; [apply (bool_decide_unpack _); vm_compute; exact I|]. repeat constructor.
Defined.

Lemma panel_name_roundtrip_witness :
  alias_token_for_username (ensure_panel_username "anna42" "p1") "p1" = "anna42"%string.
Proof.
  refine (proj2 (proj2 (proj2 (panel_name_roundtrip "anna42" "p1" _ _ _ _ _))));
    try reflexivity; try discriminate. cbn. lia.
Defined.

Definition seller : Admin := mkAdmin "r" false 0 (Some 3) None 0 None None None 0.
Definition shop : DB := empty_db <| admins := {[7 := seller]} |> <| wallets := {[7 := 1200]} |>
  <| users := {[1 := sample_user <| u_admin_id := Some 7 |>]} |> <| flags := {[ "billing" := true ]} |>
  <| tariffs := [mkTariff 1 "10 GB" 500 (Some 10) None None None None true] |>.
Definition two_accounts : BulkUserCreateBody := mkBulkCreate 2 (Some "x_"%string) None active None None
  (Some 10) (Some 0) "no_reset" None None None None.

End BulkCreateExamples.
