(* ===== verification/System.v ===== *)
(** * System: every sequence of billing operations

    The operations of the components as steps on the shared database, each in
    its own session, and the invariants of every reachable database. *)
From S2P Require Import Prelude Store Users RecordUsage Wallet UsageBilling Metering Tariffs Packages.
From S2P Require Import Caps Portal.
From S2P Require Import Payments Endpoints Review UserBulk SubLinks BulkCreate.

Module System.
Import Quota Lifecycle RecordUsage Wallet UsageBilling Tariffs Packages Caps Portal PlanOps Payments
  PaymentFacts Endpoints Review UserBulk PanelBalance BulkCreate.

Inductive sys_op :=
  | Pay (op : pay_op)
  | AddCredit (now : Z) (username : string) (amount : Z)
  | AdjustWallet (now : Z) (mode : AdjustMode) (username : string) (amount : Z)
  | CreateInvoice (aid amount : Z) (plan : option Z) (provider : option string)
  | PayInvoice (now iid : Z) (provider : option string)
  | RecordTick (postgresql : bool) (sql_mul : Coef → Z → Z) (disable_node_usage : bool) (now : Z)
      (api : api_params) (cs : coefficients)
  | BillUsage (now : Z)
  | EnforceCaps (now : Z)
  | BuyPackage (aid pid : Z) (by_ : option Z)
  | CreditTraffic (aid bytes : Z) (by_ : option Z)
  | SetPricing (aid : Z) (rate : option Z) (clear : bool) (items : list PackageItem)
      (titems : list TariffItem) (floor : bool)
  | CreatePackage (name : string) (bytes price : option Z) (enabled : bool)
  | UpdatePackage (pid : Z) (name : option string) (bytes price : option Z) (enabled : option bool)
  | DeletePackage (pid : Z)
  | CreateTariff (name : string) (price data_limit duration device up down : option Z) (enabled : bool)
  | UpdateTariff (tid : Z) (p : TariffPatch)
  | DeleteTariff (tid : Z)
  | CreateAccounts (admin : Z * Admin) (dl dur : option Z) (plan : option Plan)
      (names : list string) (event : string)
  | ModifyUser (now uid : Z) (admin : Z * Admin) (m : UserModify)
  | SellPlan (now uid : Z) (caller : Caller) (plan_id : Z)
  | DeleteAccount (owner : Z) (owner_name : string) (name : option string)
  | ReviewUsers (now : Z)
  | PeriodicReset (now : Z)
  | AutoDelete (now days : Z) (include_limited : bool)
  | BulkRequest (lv : ListView) (now : Z) (op : bulk_op) (admin : option Caller)
  | BulkCreateUsers (now : Z) (templates : Z → option UserTemplate) (body : BulkUserCreateBody)
      (admin : option Caller) (cores : list string) (panels : SubLinks.SubDB).

(** A create: the wallet check, then the charge of the created names. *)
Definition create_accounts (admin : Z * Admin) (dl dur : option Z) (plan : option Plan)
    (names : list string) (event : string) : M DB unit :=
  let* tu := prepare_reseller_tariff_charge (Some admin) dl dur plan
               (Z.of_nat (length names)) true in
  match tu.1 with
  | Some t => charge_unlimited_creates (Some admin) t tu.2 names event ;;; ret tt
  | None => ret tt
  end.

Definition run_sys (op : sys_op) (d : DB) : DB :=
  match op with
  | Pay op => (run_session (run_op op) d).2
  | AddCredit now name amount => (run_session (add_credit now name amount) d).2
  | AdjustWallet now mode name amount => (run_session (adjust_wallet now mode name amount) d).2
  | CreateInvoice aid amount plan prov => (run_session (create_invoice aid amount plan prov) d).2
  | PayInvoice now iid prov => (run_session (pay_invoice now iid prov) d).2
  | RecordTick pg sm dis now api cs => bill_usage_tick pg sm dis now api cs d
  | BillUsage now => (run_session (run_usage_billing now) d).2
  | EnforceCaps now => (run_session (enforce_reseller_traffic_caps now) d).2
  | BuyPackage aid pid by_ => (run_session (purchase_package aid pid by_) d).2
  | CreditTraffic aid n by_ => (run_session (credit_traffic aid n by_) d).2
  | SetPricing aid rate clear items titems floor =>
      (run_session (set_reseller_pricing aid rate clear items titems floor) d).2
  | CreatePackage name n price en => (run_session (create_package name n price en) d).2
  | UpdatePackage pid name n price en => (run_session (update_package pid name n price en) d).2
  | CreateTariff name price dl dur dev up down en =>
      (run_session (create_tariff name price dl dur dev up down en) d).2
  | UpdateTariff tid p => (run_session (update_tariff tid p) d).2
  | DeletePackage pid => (run_session (delete_package pid) d).2
  | DeleteTariff tid => (run_session (delete_tariff tid) d).2
  | CreateAccounts admin dl dur plan names ev =>
      (run_session (create_accounts admin dl dur plan names ev) d).2
  | ModifyUser now uid admin m => (run_session (modify_user now uid admin m) d).2
  | SellPlan now uid caller plan_id =>
      (run_session (apply_plan_to_user_endpoint now uid caller plan_id) d).2
  | DeleteAccount owner oname name => (run_session (delete_owned_account owner oname name) d).2
  | ReviewUsers now => (review now d).1.1
  | PeriodicReset now => (reset_user_data_usage_job now d).1
  | AutoDelete now days inc => (run_session (remove_expired_users now days inc) d).2
  | BulkRequest lv now op admin => run_bulk lv now op admin d
  | BulkCreateUsers now tpls body admin cores panels =>
      (bulk_create_users now tpls body admin cores (d, panels)).2.1
  end.

Inductive reachable : DB → DB → Prop :=
  | reach_start d : reachable d d
  | reach_step d d' op : reachable d d' → reachable d (run_sys op d').

End System.

Module SystemFacts.
Import Quota Lifecycle RecordUsage RecordUsageFacts Wallet Ledger WalletFacts UsageBilling
  UsageBillingFacts Metering Tariffs TariffFacts Packages PackageFacts Caps Portal PlanOps Payments
  PaymentFacts Endpoints Review UserBulk PanelBalance BulkCreate System.

(** *** Invariants of the books

    What an invariant must promise for every operation of the system to keep
    it: it reads nothing but resellers, checkpoints, ledger and wallets, and it
    survives the five ways these change. *)
Class BooksInvariant (I : DB → Prop) := {
  books_frame d d' : admins d' = admins d → checkpoints d' = checkpoints d →
    transactions d' = transactions d → wallets d' = wallets d → I d → I d';
  books_admin d aid f : (∀ a, a_users_usage (f a) = a_users_usage a) →
    I d → I (update_admin_row aid f d);
  books_wallet aid : preserves I (get_or_create_wallet aid);
  books_post aid amount type ref skip : String.eqb type "usage_billing" = false →
    preserves I (add_transaction aid amount type ref skip);
  books_checkpoint now aid : preserves I (get_or_create_checkpoint now aid);
  books_bill now aid r : preserves I (bill_reseller_usage now aid r);
  books_purchase d aid pid by_ : I d → I (run_session (purchase_package aid pid by_) d).2;
  books_tick d pg sm dis now api cs : I d → I (bill_usage_tick pg sm dis now api cs d) }.

Section books.
Context (I : DB → Prop) `{BI : !BooksInvariant I}.
Notation keeps m := (preserves I m).

Lemma books_modify f :
  (∀ d, admins (f d) = admins d ∧ checkpoints (f d) = checkpoints d ∧
        transactions (f d) = transactions d ∧ wallets (f d) = wallets d) → keeps (modify f).
Proof.
  intros Hf. apply preserves_modify. intros d. destruct (Hf d) as (?&?&?&?).
  by apply books_frame.
Qed.
Lemma books_modify_admin aid f :
  (∀ a, a_users_usage (f a) = a_users_usage a) → keeps (modify (update_admin_row aid f)).
Proof. intros Hf. apply preserves_modify. intros d. by apply books_admin. Qed.

#[local] Hint Resolve books_wallet books_checkpoint books_bill : session.
#[local] Hint Extern 4 (preserves _ (add_transaction _ _ _ _ _)) =>
  apply books_post; reflexivity : session.
#[local] Hint Extern 4 (preserves _ (modify (update_admin_row _ _))) =>
  apply books_modify_admin; intros; reflexivity : session.
#[local] Hint Extern 5 (preserves _ (modify _)) =>
  apply books_modify; intros; split_and!; reflexivity : session.

Lemma books_unbilled now aid a : keeps (unbilled_usage_split now aid a).
Proof. unfold unbilled_usage_split. solve_preserves. Qed.
#[local] Hint Resolve books_unbilled : session.
Lemma books_bill_all now l n : keeps (bill_all now l n).
Proof. revert n. induction l as [|[aid a] l IH]; intros n; cbn; solve_preserves. Qed.
Lemma books_collect now l b : keeps (collect_unpaid now l b).
Proof.
  revert b. induction l as [|[aid a] l IH]; intros b; cbn; [solve_preserves|].
  apply preserves_bind; [|auto]. unfold unpaid_usage. solve_preserves.
Qed.
#[local] Hint Resolve books_bill_all books_collect : session.
Lemma books_caps now : keeps (enforce_reseller_traffic_caps now).
Proof. unfold enforce_reseller_traffic_caps, resellers_with_unpaid_usage. solve_preserves. Qed.
#[local] Hint Resolve books_caps : session.

(** Wrappers that only rename an exception. *)
Lemma books_tariff_error {A} (m : M DB A) : keeps m → keeps (tariff_error_http m).
Proof.
  intros Hm s Hs. specialize (Hm s Hs). unfold tariff_error_http. destruct (m s) as [[r|[]] s']; done.
Qed.
Lemma books_route_error {A} (m : M DB A) : keeps m → keeps (tariff_http m).
Proof.
  intros Hm s Hs. specialize (Hm s Hs). unfold tariff_http. destruct (m s) as [[r|[]] s']; done.
Qed.
Lemma books_value_error {A} (m : M DB A) : keeps m → keeps (value_error_400 m).
Proof.
  intros Hm s Hs. specialize (Hm s Hs). unfold value_error_400. destruct (m s) as [[r|[]] s']; done.
Qed.
Lemma books_package_error {A} (m : M DB A) : keeps m → keeps (as_package_error m).
Proof.
  intros Hm s Hs. specialize (Hm s Hs). unfold as_package_error. destruct (m s) as [[r|[]] s']; done.
Qed.
#[local] Hint Resolve books_tariff_error books_route_error books_value_error books_package_error : session.

(** Tariffs. *)
Lemma books_shape admin dl dur : keeps (assert_reseller_shape_allowed admin dl dur).
Proof. unfold assert_reseller_shape_allowed. solve_preserves. Qed.
#[local] Hint Resolve books_shape : session.
Lemma books_prepare admin dl dur plan n req : keeps (prepare_reseller_tariff_charge admin dl dur plan n req).
Proof. unfold prepare_reseller_tariff_charge. solve_preserves. Qed.
Lemma books_modify_shape now admin odl oe dl e :
  keeps (assert_reseller_modify_shape_allowed now admin odl oe dl e).
Proof. unfold assert_reseller_modify_shape_allowed. solve_preserves. Qed.
#[local] Hint Resolve books_prepare books_modify_shape : session.
Lemma books_prepare_modify now admin u dl e : keeps (prepare_reseller_modify_charge now admin u dl e).
Proof. unfold prepare_reseller_modify_charge. solve_preserves. Qed.
Lemma books_charge admin t p names ev : keeps (charge_reseller_tariff admin t p names ev).
Proof. unfold charge_reseller_tariff. solve_preserves. Qed.
#[local] Hint Resolve books_prepare_modify books_charge : session.
Lemma books_charge_portal aid plan name ev : keeps (charge_portal_plan_tariff aid plan name ev).
Proof. unfold charge_portal_plan_tariff. solve_preserves. Qed.
Lemma books_upsert_tariff aid tid p c m : keeps (upsert_tariff_override aid tid p c m).
Proof. unfold upsert_tariff_override. solve_preserves. Qed.
Lemma books_prepare_create admin dl n pid dur plan :
  keeps (prepare_unlimited_create_charge admin dl n pid dur plan).
Proof. unfold prepare_unlimited_create_charge. solve_preserves. Qed.
#[local] Hint Resolve books_charge_portal books_upsert_tariff books_prepare_create : session.

(** Portal and payments. *)
Lemma books_create_user now n a e dl dv su sd : keeps (create_user now n a e dl dv su sd).
Proof. unfold create_user. solve_preserves. Qed.
#[local] Hint Resolve books_create_user : session.
Lemma books_create_account now o plan name : keeps (create_account_from_plan now o plan name).
Proof. unfold create_account_from_plan, require_available_portal_username. solve_preserves. Qed.
Lemma books_apply_plan now uid plan : keeps (apply_plan_to_user now uid plan).
Proof. unfold apply_plan_to_user. solve_preserves. Qed.
Lemma books_order now uid plan st : keeps (create_user_order now uid plan st).
Proof. unfold create_user_order. solve_preserves. Qed.
Lemma books_mark now o : keeps (mark_order_applied now o).
Proof. unfold mark_order_applied. solve_preserves. Qed.
Lemma books_set_intent pid f : keeps (set_intent pid f).
Proof. unfold set_intent. solve_preserves. Qed.
#[local] Hint Resolve books_create_account books_apply_plan books_order books_mark
  books_set_intent : session.
Lemma books_complete now pid verify token : keeps (complete_payment now pid verify token).
Proof.
  unfold complete_payment, the_intent, _apply_topup, _apply_portal_renew, _apply_portal_purchase.
  solve_preserves.
Qed.
Lemma books_checkout i gw : keeps (start_checkout i gw).
Proof. unfold start_checkout. solve_preserves. Qed.
#[local] Hint Resolve books_complete books_checkout : session.
Lemma books_pay op : keeps (run_op op).
Proof.
  destruct op; unfold run_op, approve_portal_payment, reject_portal_payment, submit_card_payment,
    set_payment_card, expire_stale_portal_payments, create_topup_payment, create_portal_payment,
    _assert_can_review_card, the_intent, _validate_amount, _billing_admin_id, provider_check,
    assert_plan_for_user, require_available_portal_username, assert_can_add_account,
    get_owned_account; solve_preserves.
Qed.
Lemma books_after_topup now aid : keeps (_after_wallet_topup now aid).
Proof. unfold _after_wallet_topup. solve_preserves. Qed.
#[local] Hint Resolve books_after_topup : session.
Lemma books_adjust now mode name amount : keeps (adjust_wallet now mode name amount).
Proof.
  unfold adjust_wallet, _require_billing_enabled. cbv zeta. solve_preserves.
  all: apply books_post; by destruct (0 <? _).
Qed.

(** The jobs on user rows. *)
Lemma books_users d us rows : I d → I (d <| users := us |> <| node_user_usages := rows |>).
Proof. by apply books_frame. Qed.
Lemma books_first_session us ns d : I d → I (after_first_session us ns d).
Proof. destruct (ReviewFacts.after_first_session_frame us ns d) as (rows & ->). by apply books_users. Qed.
Lemma books_periodic_reset now d : I d → I (reset_user_data_usage_job now d).1.
Proof. destruct (ReviewFacts.reset_job_spec now d) as [_ ->]. by apply books_users. Qed.
Lemma books_review now d : I d → I (review now d).1.1.
Proof.
  intros Hd. unfold review. destruct (review_users now (users d)) as [[us ns] [e|]]; [by apply books_first_session|].
  pose proof (preserves_run I (enforce_reseller_traffic_caps now) _ (books_caps now) (books_first_session us ns d Hd)) as H.
  by destruct (run_session _ _).
Qed.
Lemma books_bulk lv now op admin d : I d → I (run_bulk lv now op admin d).
Proof.
  destruct (UserBulkFacts.run_bulk_confined lv now op admin d) as (_ & Hw & Ht & Ha & Hc). by apply books_frame.
Qed.
Lemma books_as_value_error {A} (m : M DB A) : keeps m → keeps (tariff_value_error m).
Proof.
  intros Hm s Hs. specialize (Hm s Hs). unfold tariff_value_error. destruct (m s) as [[r|[]] s']; done.
Qed.
#[local] Hint Resolve books_as_value_error : session.
Lemma books_bulk_create now tpls body admin cores p d :
  I d → I (bulk_create_users now tpls body admin cores (d, p)).2.1.
Proof.
  intros Hd. apply BulkCreateFacts.bulk_create_preserves; [| |intros; by apply (books_frame d0)|done].
  - intros adm. unfold BulkCreateFacts.preparation, check_capacity. solve_preserves.
  - intros adm t price names. unfold charge_created, charge_unlimited_creates, mark_users_tariff_charged. solve_preserves.
Qed.
(** Every operation of the system keeps every invariant of the books. *)
Lemma books_step op d : I d → I (run_sys op d).
Proof.
  intros Hd. destruct op; unfold run_sys;
    first [by apply books_purchase | by apply books_tick | by apply books_review | by apply books_periodic_reset
      | by apply books_bulk | by apply books_bulk_create | apply (preserves_run I); [|done]].
  - apply books_pay.
  - unfold add_credit, _require_billing_enabled. solve_preserves.
  - apply books_adjust.
  - unfold create_invoice. solve_preserves.
  - unfold pay_invoice. solve_preserves.
  - unfold run_usage_billing. solve_preserves.
  - apply books_caps.
  - unfold credit_traffic, grant_bytes. solve_preserves.
  - unfold set_reseller_pricing, set_usage_rate, set_package_item, set_tariff_item,
      upsert_package_override. solve_preserves.
  - unfold create_package. solve_preserves.
  - unfold update_package, on_package. solve_preserves.
  - unfold delete_package, on_package. solve_preserves.
  - unfold create_tariff. solve_preserves.
  - unfold update_tariff. solve_preserves.
  - unfold delete_tariff. solve_preserves.
  - unfold create_accounts, charge_unlimited_creates, mark_users_tariff_charged. solve_preserves.
  - unfold modify_user. cbv zeta. solve_preserves.
  - unfold apply_plan_to_user_endpoint, _require_billing_enabled, assert_plan_accessible,
      reseller_plan_scope, assert_plan_for_user. solve_preserves.
  - unfold delete_owned_account, get_owned_account, remove_users_by_ids. solve_preserves.
  - unfold remove_expired_users, remove_users_by_ids. cbv zeta. solve_preserves.
Qed.

Lemma books_reachable d d' : reachable d d' → I d → I d'.
Proof. induction 1; [done|]. intros Hd. apply books_step. auto. Qed.
End books.

(** *** The two invariants *)
#[export] Instance ledger_books : BooksInvariant ledger_ok.
Proof.
  split.
  - intros d d' _ _ Ht Hw H a. unfold balance. rewrite Hw, Ht. apply H.
  - intros d aid f _ H. exact H.
  - apply preserves_get_or_create_wallet.
  - intros. apply preserves_add_transaction.
  - apply preserves_get_or_create_checkpoint.
  - apply preserves_bill_reseller_usage.
  - intros d aid pid by_. by apply purchase_ledger.
  - intros d pg sm dis now api cs H a. unfold balance.
    rewrite (tick_frame wallets), (tick_frame transactions) by done. apply H.
Qed.

Lemma metered_purchase d aid pid by_ :
  metered_ok d → metered_ok (run_session (purchase_package aid pid by_) d).2.
Proof.
  intros Hd. unfold run_session.
  assert (Hopen : metered_ok (open_wallet aid d)).
  { eapply metered_same_tables; [..|exact Hd]; by rewrite open_wallet_frame. }
  destruct (purchase_run d aid pid by_) as [(st & m & ->)|(pkg & a & o & _ & _ & _ & _ & _ & ->)];
    cbn [saved snd]; [done|].
  assert (Hsold : ∀ p, metered_ok (sold aid p pid (open_wallet aid d))).
  { intros p. unfold sold. eapply metered_same_tables; [reflexivity..|].
    apply metered_prepaid; [done|]. destruct (0 <? pu_price_paid p); [|done].
    refine (metered_frame (open_wallet aid d) _ _ _ _ Hopen).
    - intros aid' a' H. by exists a'.
    - done.
    - intros aid'. by apply (spans_frame aid' (open_wallet aid d)). }
  destruct (0 <? pf_price o); [|apply Hsold].
  destruct (commission_tx _ _ _ _) as [t|] eqn:E; [|apply Hsold]. cbn [apply_opt_tx].
  refine (metered_frame _ _ _ _ _ (Hsold (paid_purchase aid pid o by_))).
  - intros aid' a' H. by exists a'.
  - done.
  - intros aid'. eapply (spans_frame aid' (sold aid _ pid (open_wallet aid d))).
    by eapply commission_span.
Qed.

Lemma metered_tick d pg sm dis now api cs :
  metered_ok d → metered_ok (bill_usage_tick pg sm dis now api cs d).
Proof.
  intros Hd aid a' Ha'. rewrite tick_admins, add_admin_usage_lookup in Ha'.
  apply fmap_Some in Ha' as (a & Ha & ->). specialize (Hd aid a Ha).
  pose proof (tick_admin_usage_nonneg api cs d aid) as Hn. set (x := sum_at _ _) in *. clearbody x.
  unfold watermark, spans in *.
  rewrite (tick_frame checkpoints), (tick_frame transactions) by done. cbn [over a_users_usage].
  change (a_users_usage (a <| a_users_usage := ?v |>)) with v.
  destruct (checkpoints d !! aid) as [ck|]; destruct Hd as [H1 H2]; split; try lia; try done.
  eapply disjoint_weaken; [|exact H2]. lia.
Qed.

#[export] Instance metered_books : BooksInvariant metered_ok.
Proof.
  split.
  - intros d d' Ha Hc Ht _. by apply metered_same_tables.
  - intros d aid f Hf. by apply metered_prepaid.
  - apply metered_wallet.
  - intros. by apply preserves_metered_tx.
  - apply metered_get_checkpoint.
  - apply bill_metered.
  - apply metered_purchase.
  - apply metered_tick.
Qed.

(** *** Payments *)
Definition same_settled (I0 m : gmap Z PaymentIntent) : Prop :=
  ∀ q, (settled <$> m !! q) = (settled <$> I0 !! q).

Notation quiet d0 := (around (same_settled (intents d0)) (credits_of d0)).

Lemma quiet_refl d : quiet d d.
Proof. split; [done|]. by intros q. Qed.

Lemma quiet_pay_ok d d' : quiet d d' → pay_ok d → pay_ok d'.
Proof.
  intros [H1 H2] Hok q. rewrite (H1 q). unfold credits_of. rewrite (Hok q). specialize (H2 q).
  destruct (intents d' !! q), (intents d !! q); cbn in *; simplify_eq; [|done].
  by match goal with H : settled _ = settled _ |- _ => rewrite H end.
Qed.

Lemma quiet_run {A} (m : M DB A) d :
  preserves (quiet d) m → pay_ok d → pay_ok (run_session m d).2.
Proof.
  intros Hm Hok. eapply quiet_pay_ok; [|done].
  apply (preserves_run (quiet d) m d Hm (quiet_refl d)).
Qed.

Section quiet.
Context (d0 : DB).
Notation keeps m := (preserves (quiet d0) m).

Lemma quiet_after now aid : keeps (_after_wallet_topup now aid).
Proof. unfold _after_wallet_topup. solve_preserves. Qed.
Lemma quiet_bill_all now l n : keeps (bill_all now l n).
Proof. revert n. induction l as [|[aid a] l IH]; intros n; cbn; solve_preserves. Qed.
Lemma quiet_value_error {A} (m : M DB A) : keeps m → keeps (tariff_http m).
Proof.
  intros Hm s Hs. specialize (Hm s Hs). unfold tariff_http. destruct (m s) as [[r|[]] s']; done.
Qed.
Lemma quiet_package_error {A} (m : M DB A) : keeps m → keeps (as_package_error m).
Proof.
  intros Hm s Hs. specialize (Hm s Hs). unfold as_package_error. destruct (m s) as [[r|[]] s']; done.
Qed.
Lemma quiet_upsert_tariff aid tid p c m : keeps (upsert_tariff_override aid tid p c m).
Proof. unfold upsert_tariff_override. solve_preserves. Qed.
Lemma quiet_prepare_modify now admin u dl e :
  keeps (prepare_reseller_modify_charge now admin u dl e).
Proof.
  unfold prepare_reseller_modify_charge, assert_reseller_modify_shape_allowed,
    assert_reseller_shape_allowed. solve_preserves.
Qed.
Lemma quiet_remove ids : keeps (remove_users_by_ids ids).
Proof.
  unfold remove_users_by_ids. destruct ids as [|x ids]; [apply preserves_ret|].
  apply preserves_bind; [apply preserves_gets|intros n]. apply preserves_bind.
  2: { intros _. solve_preserves. }
  apply preserves_modify. intros d [H1 H2]. split; [exact H1|]. intros q. cbn [over intents].
  rewrite <-(H2 q), lookup_fmap. destruct (intents d !! q) as [i|]; [|done]. cbn.
  by destruct (match pi_user_id i with Some _ => _ | None => _ end).
Qed.
End quiet.
Lemma quiet_as_value_error d0 {A} (m : M DB A) : preserves (quiet d0) m → preserves (quiet d0) (tariff_value_error m).
Proof.
  intros Hm s Hs. specialize (Hm s Hs). unfold tariff_value_error. destruct (m s) as [[r|[]] s']; done.
Qed.
#[local] Hint Resolve quiet_as_value_error : session.
#[local] Hint Resolve quiet_after quiet_bill_all quiet_value_error quiet_package_error
  quiet_remove quiet_upsert_tariff quiet_prepare_modify around_apply_plan : session.

Lemma purchase_pay_ok d aid pid by_ :
  pay_ok d → pay_ok (run_session (purchase_package aid pid by_) d).2.
Proof.
  intros Hok. unfold run_session.
  assert (Hopen : pay_ok (open_wallet aid d)).
  { intros q. unfold topup_credits.
    rewrite (open_wallet_frame transactions), (open_wallet_frame intents) by done. apply Hok. }
  destruct (purchase_run d aid pid by_) as [(st & m & ->)|(pkg & a & o & _ & _ & _ & _ & _ & ->)];
    cbn [saved snd]; [done|].
  assert (Hsold : ∀ p, pay_ok (sold aid p pid (open_wallet aid d))).
  { intros p q. unfold sold. destruct (0 <? pu_price_paid p).
    - etransitivity; [exact (credits_apply_tx (mkTransaction aid (- pu_price_paid p)
        "traffic_package" (RefPackage pid)) q (open_wallet aid d) ltac:(done))|]. apply Hopen.
    - apply Hopen. }
  destruct (0 <? pf_price o); [|apply Hsold].
  destruct (commission_tx _ _ _ _) as [t|] eqn:E; [|apply Hsold].
  apply commission_tx_bounds in E as (_ & _ & Ht & _). intros q. cbn [apply_opt_tx].
  rewrite credits_apply_tx by (by rewrite Ht). apply Hsold.
Qed.

Lemma tick_pay_ok pg sm dis now api cs d :
  pay_ok d → pay_ok (bill_usage_tick pg sm dis now api cs d).
Proof.
  intros H q. unfold topup_credits. rewrite (tick_frame transactions), (tick_frame intents) by done.
  apply H.
Qed.

Lemma users_pay_ok d us rows : pay_ok d → pay_ok (d <| users := us |> <| node_user_usages := rows |>).
Proof. done. Qed.
Lemma first_session_pay_ok us ns d : pay_ok d → pay_ok (after_first_session us ns d).
Proof. destruct (ReviewFacts.after_first_session_frame us ns d) as (rows & ->). by apply users_pay_ok. Qed.
Lemma periodic_reset_pay_ok now d : pay_ok d → pay_ok (reset_user_data_usage_job now d).1.
Proof. destruct (ReviewFacts.reset_job_spec now d) as [_ ->]. by apply users_pay_ok. Qed.

Lemma review_pay_ok now d : pay_ok d → pay_ok (review now d).1.1.
Proof.
  intros Hd. unfold review. destruct (review_users now (users d)) as [[us ns] [e|]]; [by apply first_session_pay_ok|].
  pose proof (quiet_run (enforce_reseller_traffic_caps now) _ (around_caps _ _ _) (first_session_pay_ok us ns d Hd)) as H.
  by destruct (run_session _ _).
Qed.

Lemma quiet_rows d0 f ids : preserves (quiet d0) (bulk_rows f ids).
Proof. induction ids as [|i ids IH]; cbn [bulk_rows]; solve_preserves. Qed.
Lemma quiet_batches d0 n k ids : preserves (quiet d0) (delete_batches n k ids).
Proof. revert ids. induction n as [|n IH]; intros [|i ids]; cbn [delete_batches]; solve_preserves. Qed.
Lemma quiet_select d0 lv now admin sc nm st f : preserves (quiet d0) (select_users lv now admin sc nm st f).
Proof. unfold select_users. cbv zeta. solve_preserves. Qed.
Lemma quiet_prepare_create d0 admin dl n pid dur plan :
  preserves (quiet d0) (prepare_unlimited_create_charge admin dl n pid dur plan).
Proof. unfold prepare_unlimited_create_charge. solve_preserves. Qed.
#[local] Hint Resolve quiet_rows quiet_batches quiet_select quiet_prepare_create : session.

Lemma bulk_pay_ok lv now op admin d : pay_ok d → pay_ok (run_bulk lv now op admin d).
Proof.
  intros H. destruct op; unfold run_bulk; (apply quiet_run; [|done]).
  - unfold apply_bulk_extend, _iter_target_users. solve_preserves.
  - unfold apply_bulk_reset_usage, _iter_target_users. cbv zeta. solve_preserves.
  - unfold apply_bulk_status, _iter_target_users. solve_preserves.
  - unfold apply_bulk_delete, _iter_delete_targets. cbv zeta. solve_preserves.
Qed.

Lemma bulk_create_pay_ok now tpls body admin cores p d :
  pay_ok d → pay_ok (bulk_create_users now tpls body admin cores (d, p)).2.1.
Proof.
  intros Hd. eapply quiet_pay_ok; [|done]. apply (BulkCreateFacts.bulk_create_preserves (quiet d)); [| |done|apply quiet_refl].
  - intros adm. unfold BulkCreateFacts.preparation, check_capacity. solve_preserves.
  - intros adm t price names. unfold charge_created, charge_unlimited_creates, charge_reseller_tariff,
      mark_users_tariff_charged. solve_preserves.
Qed.

Lemma pay_step op d : pay_ok d → pay_ok (run_sys op d).
Proof.
  intros H. destruct op; unfold run_sys;
    first [by apply op_pay_ok | by apply purchase_pay_ok | by apply tick_pay_ok | by apply review_pay_ok
      | by apply periodic_reset_pay_ok | by apply bulk_pay_ok | by apply bulk_create_pay_ok | apply quiet_run; [|done]].
  - unfold add_credit, _require_billing_enabled. solve_preserves.
  - unfold adjust_wallet, _require_billing_enabled. cbv zeta. solve_preserves.
    all: apply preserves_around_add_transaction; by destruct (0 <? _).
  - unfold create_invoice. solve_preserves.
  - unfold pay_invoice. solve_preserves.
  - unfold run_usage_billing. solve_preserves.
  - apply around_caps.
  - unfold credit_traffic, grant_bytes. solve_preserves.
  - unfold set_reseller_pricing, set_usage_rate, set_package_item, set_tariff_item,
      upsert_package_override. solve_preserves.
  - unfold create_package. solve_preserves.
  - unfold update_package, on_package. solve_preserves.
  - unfold delete_package, on_package. solve_preserves.
  - unfold create_tariff. solve_preserves.
  - unfold update_tariff. solve_preserves.
  - unfold delete_tariff. solve_preserves.
  - unfold create_accounts, charge_unlimited_creates, charge_reseller_tariff,
      mark_users_tariff_charged. solve_preserves.
  - unfold modify_user, charge_reseller_tariff. cbv zeta. solve_preserves.
  - unfold apply_plan_to_user_endpoint, _require_billing_enabled, assert_plan_accessible,
      reseller_plan_scope, assert_plan_for_user. solve_preserves.
  - unfold delete_owned_account, get_owned_account. solve_preserves.
  - unfold remove_expired_users. cbv zeta. solve_preserves.
Qed.

(** C1. The books always balance: in every database any sequence of operations
    can reach, whichever of them fail half-way, each wallet equals the sum of
    its transactions, and each top-up payment has exactly one credit if it is
    completed and none otherwise. *)
Theorem books_balance d d' :
  ledger_ok d → pay_ok d → reachable d d' → ledger_ok d' ∧ pay_ok d'.
Proof.
  intros Hl Hp Hr. induction Hr as [|d d' op Hr IH]; [done|].
  destruct (IH Hl Hp). split; [by apply (books_step ledger_ok)|by apply pay_step].
Qed.

Lemma books_balance_witness :
  let d := empty_db <| flags := {[ "billing"%string := true ]} |>
             <| admins := {[ 7 := mkAdmin "r" false 0 None None 0 None None None 0 ]} |>
             <| intents := {[ 5 := mkIntent "topup" 7 None None 2000000 "card" "pending" no_extra 0 None ]} |> in
  let d' := run_sys (Pay (Complete 10 5 (λ _, true) ""))
              (run_sys (AddCredit 9 "r" 100) d) in
  ledger_ok d' ∧ balance d' 7 = 2000100.
Proof.
  split; [|vm_compute; reflexivity].
  refine (proj1 (books_balance (empty_db <| flags := {[ "billing"%string := true ]} |>
             <| admins := {[ 7 := mkAdmin "r" false 0 None None 0 None None None 0 ]} |>
             <| intents := {[ 5 := mkIntent "topup" 7 None None 2000000 "card" "pending" no_extra 0 None ]} |>)
    _ _ _ _)).
  - intros a. vm_compute. reflexivity.
  - intros q. unfold topup_credits. cbn. rewrite lookup_singleton. by case_decide.
  - apply reach_step, reach_step, reach_start.
Defined.

(** C2. No byte is charged twice: in every database any sequence of operations
    can reach, the spans of metered bytes that a reseller's usage charges bill
    follow one another without overlap, and together they bill no more than the
    reseller's metered usage. *)
Theorem usage_charged_once d d' aid a' :
  metered_ok d → reachable d d' → admins d' !! aid = Some a' →
  StronglySorted (λ i j, i.2 ≤ j.1) (spans aid d') ∧
  Forall (λ i, 0 ≤ i.1 < i.2) (spans aid d') ∧
  sumZ (λ i, i.2 - i.1) (spans aid d') ≤ a_users_usage a'.
Proof.
  intros Hd Hr Ha. pose proof (books_reachable metered_ok d d' Hr Hd) as Hd'.
  destruct (Hd' aid a' Ha) as [Hw Hs]. pose proof (disjoint_sum _ _ (proj1 Hw) Hs) as Hsum.
  destruct Hs as [H1 H2]. split; [done|]. split; [|lia].
  eapply Forall_impl; [exact H2|]. cbn. lia.
Qed.

(** A reseller at 1000 per GiB with one metered customer. *)
Definition meter_db : DB :=
  empty_db <| flags := {[ "billing"%string := true ]} |>
    <| admins := {[ 7 := mkAdmin "r" false 0 None None 0 (Some 1000) None None 0 ]} |>
    <| wallets := {[ 7 := 10000 ]} |> <| checkpoints := {[ 7 := mkCheckpoint 0 0 ]} |>
    <| users := {[ 1 := sample_user <| u_admin_id := Some 7 |> <| u_data_limit := Some (100 * GB) |> ]} |>.

Definition meter_tick (bytes : Z) : sys_op :=
  RecordTick true (λ _ v, v) true 100 [(Some 3, [mkParam (mkUid false 1) bytes 0 0])] ∅.

Lemma usage_charged_once_witness :
  let d' := run_sys (BillUsage 30) (run_sys (meter_tick (3 * GB))
              (run_sys (BillUsage 20) (run_sys (meter_tick (2 * GB)) meter_db))) in
  spans 7 d' = [(0, 2 * GB); (2 * GB, 5 * GB)] ∧
  StronglySorted (λ i j, i.2 ≤ j.1) (spans 7 d') ∧ balance d' 7 = 5000.
Proof.
  cbv zeta. split; [vm_compute; reflexivity|]. split; [|vm_compute; reflexivity].
  set (d' := run_sys _ _).
  assert (Ha : ∃ a', admins d' !! 7 = Some a') by (eexists; vm_compute; reflexivity).
  destruct Ha as [a' Ha'].
  refine (proj1 (usage_charged_once meter_db d' 7 a' _ _ Ha')).
  - intros aid a Ha. cbn in Ha. apply lookup_singleton_Some in Ha as [<- <-].
    change (spans 7 meter_db) with (@nil (Z * Z)). split; [vm_compute; split; discriminate|split; constructor].
  - repeat apply reach_step. apply reach_start.
Defined.

End SystemFacts.
