(* ===== verification/Resellers.v ===== *)
(** * Resellers: roles, admin accounts, sub-resellers and their workspaces

    [app/rbac.py], the admin rows of [app/db/crud.py] with the handlers of
    [app/routers/admin.py], tenants ([app/tenant/__init__.py]), sub-resellers
    ([app/tenant/sub_reseller.py], [app/routers/reseller.py]) and the node quotas of
    [app/tenant/reseller_ops.py].

    An admin row is split: the columns billing uses are the [Admin] of [Store], the
    rest (role, node limit, password) is an [AcctExtra] under the same id; likewise a
    tenant's discount and its other columns.  Passwords are represented by their
    hashes; contact and card columns are left out. *)
From stdpp Require Import pretty.
From S2P Require Import Prelude Store Users RecordUsage Wallet UsageBilling Tariffs.
From S2P Require Import Caps Portal.
From S2P Require Import SubLinks Tokens.

(** ** Roles and permissions, [app/rbac.py] *)
Module Rbac.

Definition PERMISSIONS : gset string := list_to_set
  ["users:read"; "users:write"; "nodes:read"; "nodes:write"; "nodes:provision"; "billing:read";
   "billing:write"; "system:read"; "admins:write"; "core:read"; "core:write"; "hosts:read";
   "hosts:write"; "backup:read"; "backup:write"]%string.

Definition ROLE_PERMISSIONS (role : string) : option (gset string) :=
  if String.eqb role "reseller" then Some (list_to_set
    ["users:read"; "users:write"; "nodes:read"; "nodes:provision"; "billing:read"; "billing:write";
     "system:read"; "hosts:read"; "hosts:write"]%string)
  else if String.eqb role "support" then Some (list_to_set
    ["users:read"; "nodes:read"; "system:read"; "hosts:read"]%string)
  else if String.eqb role "auditor" then Some (list_to_set
    ["users:read"; "nodes:read"; "system:read"; "core:read"; "hosts:read"; "backup:read"; "billing:read"]%string)
  else None.

(** The overrides file: absent or not JSON, or a JSON value.  Of an object the values
    that are lists count, the others are skipped. *)
Inductive Json :=
  | JList (items : list string)
  | JOther.

Inductive OverridesFile :=
  | Unreadable
  | Object (entries : list (string * Json))
  | NotObject.

Definition clean (perms : list string) : gset string := list_to_set perms ∩ PERMISSIONS.

(** A later entry of the same key replaces the earlier one. *)
Definition _load_overrides (f : OverridesFile) : gmap string (gset string) :=
  match f with
  | Object entries =>
      foldl (λ out e, match e.2 with JList ps => <[e.1 := clean ps]> out | JOther => out end) ∅ entries
  | _ => ∅
  end.

Definition store_overrides (o : gmap string (gset string)) : OverridesFile :=
  Object ((λ e, (e.1, JList (elements e.2))) <$> map_to_list o).

Definition save_role_permissions (role : string) (permissions : list string) (f : OverridesFile)
    : result OverridesFile :=
  if String.eqb role "sudo" then Raise (ValueError "sudo role cannot be customized")
  else Ok (store_overrides (<[role := clean permissions]> (_load_overrides f))).

Definition role_permissions (f : OverridesFile) (role : string) : gset string :=
  if String.eqb role "sudo" then PERMISSIONS
  else match _load_overrides f !! role with
       | Some ps => ps
       | None => default ∅ (ROLE_PERMISSIONS role)
       end.

(** The caller as [Admin.get_current] resolves it. *)
Record Actor := mkActor { ac_username : string; ac_is_sudo : bool; ac_role : option string }.

Definition or_reseller (role : option string) : string :=
  match role with Some r => if String.eqb r "" then "reseller"%string else r | None => "reseller"%string end.

Definition has_permission (f : OverridesFile) (admin : Actor) (permission : string) : bool :=
  if ac_is_sudo admin then true
  else bool_decide (permission ∈ role_permissions f (or_reseller (ac_role admin))).

Definition require_permission (f : OverridesFile) (permission : string) (admin : Actor) : result Actor :=
  if has_permission f admin permission then Ok admin
  else Raise (HTTPException 403 "Missing permission").

Definition get_role_matrix (f : OverridesFile) (role : string) : option (gset string) :=
  match _load_overrides f !! role with
  | Some ps => Some ps
  | None => ROLE_PERMISSIONS role
  end.

(** [PUT /admin/rbac/roles/{role}] *)
Definition update_rbac_role (role : string) (permissions : option (list string)) (f : OverridesFile)
    : result OverridesFile :=
  match permissions with
  | None => Raise (HTTPException 400 "permissions must be a list")
  | Some ps => match save_role_permissions role ps f with
               | Raise (ValueError m) => Raise (HTTPException 400 m)
               | r => r
               end
  end.

End Rbac.

(** ** Admin accounts, tenants and sub-resellers *)
Module Resellers.
Import Quota Lifecycle Wallet Portal Rbac.

Record AcctExtra := mkAcctExtra {
  ax_role : option string;
  ax_max_nodes : option Z;
  ax_hashed_password : string;
  ax_password_reset_at : option Z }.
#[export] Instance eta_AcctExtra : Eta AcctExtra := λ x, mkAcctExtra (ax_role x) (ax_max_nodes x)
  (ax_hashed_password x) (ax_password_reset_at x).

Record Tenant := mkTenant {
  tn_slug : string;
  tn_name : string;
  tn_owner_admin_id : option Z;
  tn_enabled : bool;
  tn_max_users : option Z;
  tn_max_nodes : option Z }.
#[export] Instance eta_Tenant : Eta Tenant := λ t, mkTenant (tn_slug t) (tn_name t)
  (tn_owner_admin_id t) (tn_enabled t) (tn_max_users t) (tn_max_nodes t).

Record ResellerDB := mkRDB {
  r_db : DB;
  r_accts : gmap Z AcctExtra;
  r_tenants : gmap Z Tenant }.
#[export] Instance eta_ResellerDB : Eta ResellerDB := λ r, mkRDB (r_db r) (r_accts r) (r_tenants r).

Notation R := (M ResellerDB).

(** A billing operation inside a session whose other tables have no pending change. *)
Definition in_db {A} (m : M DB A) : R A := λ s,
  let '(r, s') := m (mkSession (r_db (work s)) (r_db (saved s))) in
  (r, mkSession ((work s) <| r_db := work s' |>) ((saved s) <| r_db := saved s' |>)).

Definition get_admin (r : ResellerDB) (username : string) : option (Z * Admin) :=
  Portal.get_admin (r_db r) username.

Definition extra_of (r : ResellerDB) (aid : Z) : AcctExtra :=
  default (mkAcctExtra None None "" None) (r_accts r !! aid).

Definition on_db (f : DB → DB) (r : ResellerDB) : ResellerDB := r <| r_db := f (r_db r) |>.
Definition on_admin (aid : Z) (f : Admin → Admin) (r : ResellerDB) : ResellerDB :=
  r <| r_db := update_admin_row aid f (r_db r) |>.
Definition on_extra (aid : Z) (f : AcctExtra → AcctExtra) (r : ResellerDB) : ResellerDB :=
  r <| r_accts := alter f aid (r_accts r) |>.

(** *** Tenants, [app/tenant/__init__.py] *)
Definition alnum (c : Ascii.ascii) : bool :=
  let n := Ascii.nat_of_ascii c in
  (((97 <=? n) && (n <=? 122)) || ((48 <=? n) && (n <=? 57)))%nat.

(** [_slug_re.sub("-", ...)]: every run of other characters becomes one dash. *)
Fixpoint sub_runs (in_run : bool) (l : list Ascii.ascii) : list Ascii.ascii :=
  match l with
  | [] => []
  | c :: l => if alnum c then c :: sub_runs false l
              else if in_run then sub_runs true l
              else Ascii.ascii_of_nat 45 :: sub_runs true l
  end.

Definition slugify (value : string) : string :=
  let l := sub_runs false (String.list_ascii_of_string (lower (strip value))) in
  let slug := String.string_of_list_ascii
                (rev (SubLinks.drop_dashes (rev (SubLinks.drop_dashes l)))) in
  if String.eqb slug "" then "tenant"%string else slug.

Definition slug_taken (r : ResellerDB) (slug : string) : bool :=
  existsb (λ t, String.eqb (tn_slug t.2) slug) (map_to_list (r_tenants r)).

(** The candidates are [base], [base-2], [base-3], ...; the fuel is one more than the
    number of tenants. *)
Definition candidate (base : string) (n : nat) : string :=
  if (n =? 1)%nat then base else (base ++ "-" ++ pretty (N.of_nat n))%string.

Fixpoint free_slug (r : ResellerDB) (base : string) (n fuel : nat) : option string :=
  match fuel with
  | O => None
  | S fuel => if slug_taken r (candidate base n) then free_slug r base (S n) fuel
              else Some (candidate base n)
  end.

Definition _clamp_percent (value : option Z) : Z :=
  match value with None => 0 | Some v => Z.max 0 (Z.min 100 v) end.

Definition create_tenant (name : string) (slug : option string) (owner_admin_id max_users max_nodes : option Z)
    (byo_node_discount_percent : option Z) : R Z :=
  let base := slugify (match slug with Some s => if String.eqb s "" then name else s | None => name end) in
  let* r := gets (λ r, r) in
  match free_slug r base 1 (S (size (r_tenants r))) with
  | None => raise (ValueError "unreachable")
  | Some s =>
      let id := next_key (r_tenants r) in
      modify (λ r, r <| r_tenants := <[id := mkTenant s name owner_admin_id true max_users max_nodes]> (r_tenants r) |>) ;;;
      modify (on_db (λ d, d <| tenants := <[id := _clamp_percent byo_node_discount_percent]> (tenants d) |>)) ;;;
      commit ;;;
      ret id
  end.

Definition update_tenant (tid : Z) (name : option string) (enabled : option bool)
    (max_users max_nodes owner_admin_id byo_node_discount_percent : option Z) : R unit :=
  modify (λ r, r <| r_tenants := alter (λ t,
    let t := if_some name (λ v t, t <| tn_name := v |>) t in
    let t := if_some enabled (λ v t, t <| tn_enabled := v |>) t in
    let t := if_some max_users (λ v t, t <| tn_max_users := Some v |>) t in
    let t := if_some max_nodes (λ v t, t <| tn_max_nodes := Some v |>) t in
    if_some owner_admin_id (λ v t, t <| tn_owner_admin_id := Some v |>) t) tid (r_tenants r) |>) ;;;
  when (negb (is_none byo_node_discount_percent))
    (modify (on_db (λ d, d <| tenants :=
       alter (λ _, _clamp_percent byo_node_discount_percent) tid (tenants d) |>))) ;;;
  commit.

(** *** Admin rows, [app/db/crud.py] *)
Record AdminCreate := mkAdminCreate {
  an_username : string;
  an_hashed_password : string;
  an_is_sudo : bool;
  an_role : option string;
  an_max_users : option Z;
  an_max_total_traffic : option Z;
  an_max_nodes : option Z;
  an_parent_admin_id : option Z;
  an_commission_percent : Z }.

Definition integrity_error : err := ValueError "IntegrityError".

Definition new_admin (n : AdminCreate) : Admin :=
  mkAdmin (an_username n) (an_is_sudo n) 0 (an_max_users n) (an_max_total_traffic n) 0 None None
    (an_parent_admin_id n) (an_commission_percent n).

(** The tenant of a new account: the parent's, or a new one of its own. *)
Definition place_in_tenant (aid : Z) (n : AdminCreate) : R unit :=
  let* parent := gets (λ r, if truthy (an_parent_admin_id n)
                            then admins (r_db r) !! or0 (an_parent_admin_id n) else None) in
  match parent ≫= a_tenant_id with
  | Some t => modify (on_admin aid (λ a, a <| a_tenant_id := Some t |>)) ;;; commit
  | None => ret tt
  end ;;;
  let* row := gets (λ r, admins (r_db r) !! aid) in
  match row with
  | None => ret tt
  | Some a =>
      let role := or_reseller (an_role n) in
      when (negb (a_is_sudo a) && is_none (a_tenant_id a)
            && (String.eqb role "reseller" || String.eqb role "support"))
        (let* tid := create_tenant (a_username a) (Some (a_username a)) (Some aid) (a_max_users a)
                       (an_max_nodes n) (Some 0) in
         modify (on_admin aid (λ a, a <| a_tenant_id := Some tid |>)) ;;; commit)
  end.

Definition create_admin (n : AdminCreate) : R Z :=
  let* taken := gets (λ r, negb (is_none (get_admin r (an_username n)))) in
  if taken then raise integrity_error
  else
    let* aid := gets (λ r, next_key (admins (r_db r))) in
    modify (on_db (λ d, d <| admins := <[aid := new_admin n]> (admins d) |>)) ;;;
    modify (λ r, r <| r_accts := <[aid := mkAcctExtra (an_role n) (an_max_nodes n) (an_hashed_password n) None]>
                                   (r_accts r) |>) ;;;
    commit ;;;
    place_in_tenant aid n ;;;
    let* billing := gets (λ r, is_enabled (r_db r) "billing") in
    when (negb (an_is_sudo n) && billing) (in_db (get_or_create_wallet aid ;;; ret tt)) ;;;
    ret aid.

(** [ensure_db_admin]; [hash] is that of the random unused password. *)
Definition ensure_db_admin (username hash : string) (is_sudo : bool) : R (option Z) :=
  let* row := gets (λ r, get_admin r username) in
  match row with
  | Some (aid, _) => ret (Some aid)
  | None =>
      if negb is_sudo then ret None
      else let* aid := create_admin (mkAdminCreate username hash true None None None None None 0) in
           ret (Some aid)
  end.

(** A patch field: absent, or set to a value that may be null. *)
Record AdminModify := mkAdminModify {
  am_hashed_password : option string;
  am_is_sudo : bool;
  am_role : option (option string);
  am_max_users : option (option Z);
  am_max_total_traffic : option (option Z);
  am_max_nodes : option (option Z);
  am_commission_percent : option (option Z) }.

Definition set_password (now : Z) (hash : option string) (x : AcctExtra) : AcctExtra :=
  match hash with
  | Some h => if String.eqb (ax_hashed_password x) h then x
              else x <| ax_hashed_password := h |> <| ax_password_reset_at := Some now |>
  | None => x
  end.

(** A null commission rate violates the NOT NULL column when the row is flushed. *)
Definition update_admin (now aid : Z) (m : AdminModify) : R unit :=
  match am_commission_percent m with
  | Some None => raise integrity_error
  | c =>
    modify (on_admin aid (λ a,
      let a := if am_is_sudo m then a <| a_is_sudo := true |> else a in
      let a := if_some (am_max_users m) (λ v a, a <| a_max_users := v |>) a in
      let a := if_some (am_max_total_traffic m) (λ v a, a <| a_max_total_traffic := v |>) a in
      if_some (mjoin c) (λ v a, a <| a_commission_percent := v |>) a)) ;;;
    modify (on_extra aid (λ x,
      let x := set_password now (am_hashed_password m) x in
      let x := if_some (am_role m) (λ v x, x <| ax_role := v |>) x in
      if_some (am_max_nodes m) (λ v x, x <| ax_max_nodes := v |>) x)) ;;;
    commit
  end.

Definition partial_update_admin (now aid : Z) (is_sudo : option bool) (hash : option string) : R unit :=
  modify (on_admin aid (λ a, if_some is_sudo (λ v a, a <| a_is_sudo := v |>) a)) ;;;
  modify (on_extra aid (set_password now hash)) ;;;
  commit.

(** Rows whose foreign key names the admin, of the modelled tables: the DELETE sets
    the users' owner to NULL first, every other reference refuses it. *)
Definition admin_referenced (r : ResellerDB) (aid : Z) : bool :=
  existsb (λ t, bool_decide (tn_owner_admin_id t.2 = Some aid)) (map_to_list (r_tenants r))
  || existsb (λ a, bool_decide (a_parent_admin_id a.2 = Some aid)) (map_to_list (admins (r_db r)))
  || existsb (λ n, bool_decide (n_owner_admin_id n.2 = Some aid)) (map_to_list (nodes (r_db r)))
  || bool_decide (is_Some (wallets (r_db r) !! aid))
  || bool_decide (is_Some (checkpoints (r_db r) !! aid))
  || existsb (λ t, tx_admin_id t =? aid) (transactions (r_db r)).

(** [enforced]: whether the database checks foreign keys. *)
Definition remove_admin (enforced : bool) (aid : Z) : R unit :=
  let* refd := gets (λ r, admin_referenced r aid) in
  if enforced && refd then raise integrity_error
  else
    modify (on_db (λ d, d <| admins := delete aid (admins d) |>
                          <| users := (λ u, if bool_decide (u_admin_id u = Some aid)
                                            then u <| u_admin_id := None |> else u) <$> users d |>)) ;;;
    modify (λ r, r <| r_accts := delete aid (r_accts r) |>) ;;;
    commit.

(** *** Handlers of [app/routers/admin.py] *)
Definition create_admin_route (n : AdminCreate) : R Z := λ s,
  match create_admin n s with
  | (Raise (ValueError m), s') =>
      if String.eqb m "IntegrityError" then (Raise (HTTPException 409 "Admin already exists"), s')
      else (Raise (ValueError m), s')
  | x => x
  end.

Definition get_admin_by_username (username : string) : R (Z * Admin) :=
  let* row := gets (λ r, get_admin r username) in
  match row with Some x => ret x | None => raise (HTTPException 404 "Admin not found") end.

Definition modify_admin (now : Z) (username : string) (current : Actor) (m : AdminModify) : R unit :=
  let* row := get_admin_by_username username in
  if negb (String.eqb (a_username row.2) (ac_username current)) && a_is_sudo row.2
  then raise (HTTPException 403 "You're not allowed to edit another sudoer's account.")
  else update_admin now row.1 m.

Definition remove_admin_route (enforced : bool) (username : string) : R unit :=
  let* row := get_admin_by_username username in
  if a_is_sudo row.2 then raise (HTTPException 403 "You're not allowed to delete sudo accounts.")
  else remove_admin enforced row.1.

(** [[a-z0-9_]{3,32}] *)
Definition new_username_ok (s : string) : bool :=
  let l := String.list_ascii_of_string s in
  (3 <=? length l)%nat && (length l <=? 32)%nat
  && forallb (λ c, alnum c || Ascii.eqb c (Ascii.ascii_of_nat 95)) l.

(** [change_my_username]; [verify] is passlib's.  The reply is the name now in force. *)
Definition change_my_username (verify : string → string → bool) (now : Z) (me : Actor)
    (new_username current_password : string) : R string :=
  if ac_is_sudo me then raise (HTTPException 400 "Sudo username cannot be changed here")
  else
  let new_username := lower (strip new_username) in
  if negb (new_username_ok new_username) then raise (HTTPException 400 "Username must be 3-32 chars")
  else if String.eqb new_username (lower (ac_username me)) then ret (ac_username me)
  else
  let* row := gets (λ r, get_admin r (ac_username me)) in
  match row with
  | None => raise (HTTPException 400 "Username change requires a database-backed admin")
  | Some (aid, _) =>
      let* x := gets (λ r, extra_of r aid) in
      if negb (verify current_password (ax_hashed_password x))
      then raise (HTTPException 400 "Current password is incorrect")
      else
      let* other := gets (λ r, get_admin r new_username) in
      if negb (is_none other) then raise (HTTPException 409 "Username already taken")
      else
        modify (on_admin aid (λ a, a <| a_username := new_username |>)) ;;;
        modify (on_extra aid (λ x, x <| ax_password_reset_at := Some now |>)) ;;;
        commit ;;;
        ret new_username
  end.

(** *** Sub-resellers, [app/tenant/sub_reseller.py] *)
Definition db_admin (r : ResellerDB) (who : Actor) : option (Z * Admin) := get_admin r (ac_username who).

(** Rows in id order. *)
Definition by_id {A} (m : gmap Z A) : list (Z * A) :=
  sort_by (λ x y, (x.1 <=? y.1)%Z) (map_to_list m).

Definition list_children (r : ResellerDB) (parent_id : Z) : list (Z * Admin) :=
  filter (λ x, a_parent_admin_id x.2 = Some parent_id ∧ a_is_sudo x.2 = false) (by_id (admins (r_db r))).

Definition count_children (r : ResellerDB) (parent_id : Z) : Z :=
  Z.of_nat (length (filter (λ x, a_parent_admin_id x.2 = Some parent_id) (map_to_list (admins (r_db r))))).

Definition assert_can_create_child (parent : Z * Admin) : R unit :=
  if a_is_sudo parent.2 then ret tt
  else
    let* current := gets (λ r, count_children r parent.1) in
    let* limit := gets (λ r, get_int (r_db r) "reseller.sub_reseller_max" 10) in
    if limit <=? current then raise (HTTPException 400 "Sub-reseller limit reached") else ret tt.

Definition clamp_child_quota (parent_value child_value : option Z) : option Z :=
  match parent_value, child_value with
  | None, _ => child_value
  | Some _, None => parent_value
  | Some p, Some c => Some (Z.min p c)
  end.

Definition create_sub_reseller (parent : Z * Admin) (username hash : string)
    (max_users max_nodes commission_percent : option Z) : R Z :=
  assert_can_create_child parent ;;;
  let* taken := gets (λ r, get_admin r username) in
  if negb (is_none taken) then raise (HTTPException 409 "Admin already exists")
  else
    let* px := gets (λ r, extra_of r parent.1) in
    let* cid := create_admin (mkAdminCreate username hash false (Some "reseller"%string)
                   (clamp_child_quota (a_max_users parent.2) max_users) None
                   (clamp_child_quota (ax_max_nodes px) max_nodes) None 0) in
    let* dflt := gets (λ r, get_int (r_db r) "reseller.default_commission_percent" 0) in
    modify (on_admin cid (λ c, c <| a_parent_admin_id := Some parent.1 |>
                                 <| a_tenant_id := a_tenant_id parent.2 |>
                                 <| a_commission_percent :=
      match commission_percent with
      | Some v => Z.max 0 (Z.min 100 v)
      | None => if a_commission_percent parent.2 =? 0 then dflt else a_commission_percent parent.2
      end |>)) ;;;
    commit ;;;
    ret cid.

(** An [Ellipsis] argument is [None], an explicit null [Some None]. *)
Definition update_sub_reseller (parent child : Z * Admin) (max_users max_nodes : option (option Z))
    (commission_percent : option Z) (hash : option string) : R unit :=
  if negb (bool_decide (a_parent_admin_id child.2 = Some parent.1))
  then raise (HTTPException 403 "Not your sub-reseller")
  else
    let* px := gets (λ r, extra_of r parent.1) in
    modify (on_admin child.1 (λ c,
      let c := if_some max_users (λ v c, c <| a_max_users :=
                 match v with None => None | Some _ => clamp_child_quota (a_max_users parent.2) v end |>) c in
      if_some commission_percent (λ v c, c <| a_commission_percent := Z.max 0 (Z.min 100 v) |>) c)) ;;;
    modify (on_extra child.1 (λ x,
      let x := if_some max_nodes (λ v x, x <| ax_max_nodes :=
                 match v with None => None | Some _ => clamp_child_quota (ax_max_nodes px) v end |>) x in
      if_some hash (λ h x, x <| ax_hashed_password := h |>) x)) ;;;
    commit.

Definition assert_manages_admin (actor : Actor) (target : Z * Admin) : R unit :=
  if ac_is_sudo actor then ret tt
  else
    let* row := gets (λ r, db_admin r actor) in
    match row with
    | None => raise (HTTPException 403 "Not allowed")
    | Some (aid, _) =>
        if bool_decide (a_parent_admin_id target.2 = Some aid) then ret tt
        else if target.1 =? aid then ret tt
        else raise (HTTPException 403 "Not allowed to manage this account")
    end.

(** *** Handlers of [app/routers/reseller.py], behind their permission *)
Definition guarded {A} (f : OverridesFile) (permission : string) (who : Actor) (m : R A) : R A :=
  match require_permission f permission who with Ok _ => m | Raise e => raise e end.

Definition list_sub_accounts (f : OverridesFile) (who : Actor) : R (list (Z * Admin)) :=
  guarded f "system:read" who
    (let* parent := gets (λ r, db_admin r who) in
     match parent with
     | None => raise (HTTPException 400 "Admin not found")
     | Some (pid, _) => if ac_is_sudo who then ret [] else gets (λ r, list_children r pid)
     end).

Definition add_sub_account (f : OverridesFile) (who : Actor) (username hash : string)
    (max_users max_nodes commission_percent : option Z) : R Z :=
  guarded f "users:write" who
    (if ac_is_sudo who then raise (HTTPException 400 "Use /api/admin for sudo-created accounts")
     else let* parent := gets (λ r, db_admin r who) in
     match parent with
     | None => raise (HTTPException 400 "Admin not found")
     | Some p => create_sub_reseller p (strip username) hash max_users max_nodes commission_percent
     end).

Definition patch_sub_account (f : OverridesFile) (who : Actor) (username : string)
    (max_users max_nodes : option (option Z)) (commission_percent : option Z) (hash : option string) : R unit :=
  guarded f "users:write" who
    (if ac_is_sudo who then raise (HTTPException 400 "Use /api/admin for sudo-managed accounts")
     else let* parent := gets (λ r, db_admin r who) in
     match parent with
     | None => raise (HTTPException 400 "Admin not found")
     | Some p =>
         let* child := gets (λ r, get_admin r username) in
         match child with
         | None => raise (HTTPException 404 "Sub-reseller not found")
         | Some c => update_sub_reseller p c max_users max_nodes commission_percent hash
         end
     end).

(** *** Backfill at start-up *)
Definition needs_tenant (r : ResellerDB) (x : Z * Admin) : bool :=
  negb (a_is_sudo x.2) && is_none (a_tenant_id x.2)
  && match ax_role (extra_of r x.1) with
     | Some role => String.eqb role "reseller" || String.eqb role "support"
     | None => false
     end.

(** The row is re-read through the session, so its current columns are used. *)
Definition ensure_reseller_tenants : R Z :=
  let* legacy := gets (λ r, filter (needs_tenant r) (by_id (admins (r_db r)))) in
  for_each legacy (λ x,
    let* a := gets (λ r, default x.2 (admins (r_db r) !! x.1)) in
    let* ex := gets (λ r, extra_of r x.1) in
    let* tid := create_tenant (a_username a) (Some (a_username a)) (Some x.1) (a_max_users a)
                  (ax_max_nodes ex) (Some 0) in
    modify (on_admin x.1 (λ a, a <| a_tenant_id := Some tid |>)) ;;;
    commit) ;;;
  ret (Z.of_nat (length legacy)).

(** *** Scoping and node quotas, [app/tenant/__init__.py] and [app/tenant/reseller_ops.py] *)
Definition admin_tenant_id (r : ResellerDB) (who : Actor) : option Z :=
  if ac_is_sudo who then None else db_admin r who ≫= λ x, a_tenant_id x.2.

Definition scope_users_query (r : ResellerDB) (tenant_id : option Z) (l : list (Z * User)) : list (Z * User) :=
  match tenant_id with
  | None => l
  | Some t => filter (λ x, (u_admin_id x.2 ≫= λ a, admins (r_db r) !! a ≫= a_tenant_id) = Some t) l
  end.

Definition scope_nodes_query (tenant_id : option Z) (l : list (Z * Node)) : list (Z * Node) :=
  match tenant_id with
  | None => l
  | Some t => filter (λ x, n_tenant_id x.2 = Some t) l
  end.

Definition all_nodes (r : ResellerDB) : list (Z * Node) := by_id (nodes (r_db r)).

Definition tenant_owned_node_ids (r : ResellerDB) (tenant_id : Z) : gset Z :=
  list_to_set ((scope_nodes_query (Some tenant_id) (all_nodes r)).*1).

Definition count_users_for_admin (r : ResellerDB) (aid : Z) : Z :=
  Z.of_nat (length (filter (λ x, u_admin_id x.2 = Some aid) (map_to_list (users (r_db r))))).

Definition count_owned_nodes (r : ResellerDB) (aid : Z) (tenant_id : option Z) : Z :=
  Z.of_nat (length (match tenant_id with
                    | Some t => scope_nodes_query (Some t) (all_nodes r)
                    | None => filter (λ x, n_owner_admin_id x.2 = Some aid) (all_nodes r)
                    end)).

(** [min(limits)] of the bounds present. *)
Definition tightest (own tenant : option Z) : option Z :=
  match own, tenant with
  | Some a, Some b => Some (Z.min a b)
  | Some a, None => Some a
  | None, t => t
  end.

Definition resolve_max_nodes (r : ResellerDB) (aid : Z) (tenant_id : option Z) : option Z :=
  tightest (ax_max_nodes (extra_of r aid)) (tenant_id ≫= λ t, r_tenants r !! t ≫= tn_max_nodes).

Definition resolve_max_users (r : ResellerDB) (a : Admin) (tenant_id : option Z) : option Z :=
  tightest (a_max_users a) (tenant_id ≫= λ t, r_tenants r !! t ≫= tn_max_users).

Definition assert_can_add_node (who : Actor) : R unit :=
  if ac_is_sudo who then ret tt
  else
    let* row := gets (λ r, db_admin r who) in
    match row with
    | None => raise (HTTPException 400 "Admin not found in database")
    | Some (aid, _) =>
        let* tid := gets (λ r, admin_tenant_id r who) in
        let* limit := gets (λ r, resolve_max_nodes r aid tid) in
        match limit with
        | None => ret tt
        | Some l =>
            let* current := gets (λ r, count_owned_nodes r aid tid) in
            if l <=? current then raise (HTTPException 400 "Node limit reached") else ret tt
        end
    end.

Definition scoped_nodes_query (r : ResellerDB) (who : Actor) : list (Z * Node) :=
  if ac_is_sudo who then all_nodes r
  else match db_admin r who with
       | None => []
       | Some (aid, _) =>
           match admin_tenant_id r who with
           | Some t => scope_nodes_query (Some t) (all_nodes r)
           | None => filter (λ x, n_owner_admin_id x.2 = Some aid) (all_nodes r)
           end
       end.

Definition list_protocol_capability_nodes (r : ResellerDB) (who : Actor) : list (Z * Node) :=
  if ac_is_sudo who then all_nodes r
  else
    let scoped := (scoped_nodes_query r who).*1 in
    filter (λ x, (n_tenant_id x.2 = None ∧ n_owner_admin_id x.2 = None) ∨ x.1 ∈ scoped) (all_nodes r).

Definition admin_owns_node (r : ResellerDB) (who : Actor) (n : Node) : bool :=
  if ac_is_sudo who then true
  else match db_admin r who with
       | None => false
       | Some (aid, _) =>
           match admin_tenant_id r who with
           | Some t => bool_decide (n_tenant_id n = Some t)
           | None => bool_decide (n_owner_admin_id n = Some aid)
           end
       end.

Definition assert_owns_node (who : Actor) (n : Node) : R unit :=
  let* ok := gets (λ r, admin_owns_node r who n) in
  if ok then ret tt else raise (HTTPException 403 "Node not in your workspace").

End Resellers.

(** ** Facts about roles *)
Module RbacFacts.
Import Rbac.

Lemma clean_in_catalogue ps : clean ps ⊆ PERMISSIONS.
Proof. unfold clean. set_solver. Qed.

Lemma clean_elements (ps : gset string) : ps ⊆ PERMISSIONS → clean (elements ps) = ps.
Proof. intros H. unfold clean. rewrite list_to_set_elements_L. set_solver. Qed.

(** Whatever the file holds, an override stays within the catalogue. *)
Lemma loaded_in_catalogue f : map_Forall (λ _ ps, ps ⊆ PERMISSIONS) (_load_overrides f).
Proof.
  destruct f as [|entries|]; try apply map_Forall_empty. cbn.
  assert (H : ∀ o : gmap string (gset string), map_Forall (λ _ ps, ps ⊆ PERMISSIONS) o →
    map_Forall (λ _ ps, ps ⊆ PERMISSIONS)
      (foldl (λ out e, match e.2 with JList ps => <[e.1 := clean ps]> out | JOther => out end) o entries)).
  { induction entries as [|[k [ps|]] l IH]; intros o Ho; cbn; [done| |by apply IH].
    apply IH, map_Forall_insert_2; [apply clean_in_catalogue | done]. }
  apply H, map_Forall_empty.
Qed.

Lemma foldl_entries (l : list (string * gset string)) :
  NoDup l.*1 → Forall (λ e, e.2 ⊆ PERMISSIONS) l → ∀ o : gmap string (gset string),
  foldl (λ out (e : string * Json), match e.2 with JList ps => <[e.1 := clean ps]> out | JOther => out end) o
    ((λ e : string * gset string, (e.1, JList (elements e.2))) <$> l) = list_to_map l ∪ o.
Proof.
  induction l as [|[k ps] l IH]; intros Hnd Hall o; cbn; [by rewrite (left_id_L ∅ (∪))|].
  apply NoDup_cons in Hnd as [Hk Hnd]. apply Forall_cons in Hall as [Hps Hall].
  rewrite IH, clean_elements by done.
  rewrite <- insert_union_l, insert_union_r; [done | by apply not_elem_of_list_to_map_1].
Qed.

(** What is written is what the next load reads. *)
Lemma load_store o : map_Forall (λ _ ps, ps ⊆ PERMISSIONS) o → _load_overrides (store_overrides o) = o.
Proof.
  intros H. unfold store_overrides, _load_overrides. rewrite foldl_entries.
  - by rewrite list_to_map_to_list, (right_id_L ∅ (∪)).
  - apply NoDup_fst_map_to_list.
  - apply Forall_forall. intros [k ps] Hk. apply elem_of_map_to_list in Hk. exact (H k ps Hk).
Qed.

(** Customising a role: the sudo role is refused and every other is accepted;
    after the save an account of that role that is not sudo has exactly the catalogue
    permissions of the request, whatever else the request names, and accounts of
    every other role have what they had. *)
Theorem save_role_roundtrip role ps f :
  match save_role_permissions role ps f with
  | Ok f' =>
      role ≠ "sudo"%string ∧
      (∀ who p, or_reseller (ac_role who) = role → ac_is_sudo who = false →
         has_permission f' who p = bool_decide (p ∈ ps ∧ p ∈ PERMISSIONS)) ∧
      (∀ who p, or_reseller (ac_role who) ≠ role → has_permission f' who p = has_permission f who p)
  | Raise e => role = "sudo"%string ∧ e = ValueError "sudo role cannot be customized"
  end.
Proof.
  unfold save_role_permissions. destruct (String.eqb_spec role "sudo") as [Hs|Hs]; [done|].
  assert (Hload : _load_overrides (store_overrides (<[role := clean ps]> (_load_overrides f)))
                  = <[role := clean ps]> (_load_overrides f)).
  { apply load_store, map_Forall_insert_2; [apply clean_in_catalogue | apply loaded_in_catalogue]. }
  split_and!; [done | intros who p Hr Hn | intros who p Hr]; unfold has_permission, role_permissions.
  - rewrite Hn, Hr, Hload, lookup_insert_eq. apply String.eqb_neq in Hs. rewrite Hs.
    apply bool_decide_ext. unfold clean. set_solver.
  - rewrite Hload, lookup_insert_ne by done. done.
Qed.

(** Without the sudo flag no file grants more than the catalogue. *)
Lemma permissions_in_catalogue f who p :
  ac_is_sudo who = false → has_permission f who p = true → p ∈ PERMISSIONS.
Proof.
  unfold has_permission, role_permissions. intros ->. rewrite bool_decide_eq_true.
  destruct (String.eqb _ "sudo"); [done|].
  destruct (_load_overrides f !! _) as [ps|] eqn:E.
  - pose proof (loaded_in_catalogue f _ _ E). set_solver.
  - unfold ROLE_PERMISSIONS. repeat case_match; cbn [default]; unfold PERMISSIONS; set_solver.
Qed.

(** The role text alone is enough for every permission: an account whose flag says it
    is not sudo but whose role reads "sudo" passes every permission check. *)
Lemma sudo_role_text_suffices f u p :
  has_permission f (mkActor u false (Some "sudo"%string)) p = bool_decide (p ∈ PERMISSIONS).
Proof. done. Qed.

End RbacFacts.

(** ** Facts about accounts and workspaces *)
Module ResellersFacts.
Import Quota Lifecycle Wallet Ledger WalletFacts Portal Rbac Resellers.

Lemma candidate_inj base n m : (1 ≤ n)%nat → (1 ≤ m)%nat → candidate base n = candidate base m → n = m.
Proof.
  assert (Hne : ∀ k, base ≠ (base ++ "-" ++ pretty (N.of_nat k))%string).
  { intros k H. apply (f_equal String.length) in H. rewrite !length_append in H.
    change (String.length "-") with 1%nat in H. lia. }
  unfold candidate. intros Hn Hm.
  destruct (Nat.eqb_spec n 1) as [->|], (Nat.eqb_spec m 1) as [->|]; intros H; try done.
  - by destruct (Hne m).
  - by destruct (Hne n).
  - apply (inj (String.append base)), (inj (String.append "-")) in H.
    assert (Hn' : N.of_nat n = N.of_nat m) by (by apply (inj pretty)). lia.
Qed.

Lemma slug_taken_spec r s : slug_taken r s = true ↔ ∃ i t, r_tenants r !! i = Some t ∧ tn_slug t = s.
Proof.
  unfold slug_taken. rewrite existsb_exists. split.
  - intros ([i t] & Hin & He). apply list_elem_of_In, elem_of_map_to_list in Hin.
    apply String.eqb_eq in He. by eauto.
  - intros (i & t & Hi & He). exists (i, t). split.
    + by apply list_elem_of_In, elem_of_map_to_list.
    + by apply String.eqb_eq.
Qed.

Lemma free_slug_none r base fuel : ∀ n, free_slug r base n fuel = None →
  Forall (λ k, slug_taken r (candidate base k) = true) (seq n fuel).
Proof.
  induction fuel as [|fuel IH]; intros n H; cbn in *; [constructor|].
  destruct (slug_taken r (candidate base n)) eqn:E; [|done]. constructor; [done | by apply IH].
Qed.

Lemma free_slug_some r base fuel : ∀ n s, free_slug r base n fuel = Some s →
  slug_taken r s = false ∧ ∃ k, (n ≤ k < n + fuel)%nat ∧ s = candidate base k ∧
    Forall (λ j, slug_taken r (candidate base j) = true) (seq n (k - n)).
Proof.
  induction fuel as [|fuel IH]; intros n s H; cbn in H; [done|].
  destruct (slug_taken r (candidate base n)) eqn:E.
  - apply IH in H as (Hs & k & Hk & -> & Hall). split; [done|]. exists k. split_and!; [lia..|done|].
    replace (k - n)%nat with (S (k - S n)) by lia. by constructor.
  - injection H as <-. split; [done|]. exists n. split_and!; [lia..|done|].
    replace (n - n)%nat with 0%nat by lia. constructor.
Qed.

(** Among as many candidates as there are tenants plus one, one is free. *)
Lemma free_slug_finds r base :
  ∃ k, (1 ≤ k ≤ S (size (r_tenants r)))%nat ∧
    free_slug r base 1 (S (size (r_tenants r))) = Some (candidate base k) ∧
    slug_taken r (candidate base k) = false ∧
    ∀ j, (1 ≤ j < k)%nat → slug_taken r (candidate base j) = true.
Proof.
  destruct (free_slug r base 1 (S (size (r_tenants r)))) as [s|] eqn:E.
  - apply free_slug_some in E as (Hs & k & Hk & -> & Hall). exists k. split_and!; [lia..|done|done|].
    intros j Hj. rewrite Forall_forall in Hall. apply Hall, elem_of_seq. lia.
  - exfalso. apply free_slug_none in E. rewrite Forall_forall in E.
    assert (Hsub : candidate base <$> seq 1 (S (size (r_tenants r))) ⊆ (tn_slug ∘ snd) <$> map_to_list (r_tenants r)).
    { intros s Hs. apply list_elem_of_fmap in Hs as (k & -> & Hk). apply E, slug_taken_spec in Hk as (i & t & Hi & <-).
      apply list_elem_of_fmap. exists (i, t). split; [done | by apply elem_of_map_to_list]. }
    assert (Hnd : NoDup (candidate base <$> seq 1 (S (size (r_tenants r))))).
    { apply NoDup_fmap_2_strong; [|apply NoDup_seq]. intros x y Hx Hy. rewrite elem_of_seq in Hx, Hy.
      apply candidate_inj; lia. }
    pose proof (submseteq_length _ _ (NoDup_submseteq _ _ Hnd Hsub)) as Hlen.
    rewrite !length_fmap, length_seq, <- (length_map_to_list (r_tenants r)) in Hlen. lia.
Qed.

(** *** What the writers do to the tables *)
Definition slugs_unique (r : ResellerDB) : Prop :=
  ∀ i j t u, r_tenants r !! i = Some t → r_tenants r !! j = Some u → tn_slug t = tn_slug u → i = j.

Definition with_tenant (id : Z) (t : Tenant) (pct : Z) (r : ResellerDB) : ResellerDB :=
  on_db (λ d, d <| tenants := <[id := pct]> (tenants d) |>)
    (r <| r_tenants := <[id := t]> (r_tenants r) |>).

Lemma create_tenant_runs name slug owner mu mn pct r sv :
  ∃ s, slug_taken r s = false ∧
    (let r' := with_tenant (next_key (r_tenants r)) (mkTenant s name owner true mu mn) (_clamp_percent pct) r in
     create_tenant name slug owner mu mn pct (mkSession r sv)
     = (Ok (next_key (r_tenants r)), mkSession r' r')).
Proof.
  destruct (free_slug_finds r (slugify (match slug with Some s => if String.eqb s "" then name else s | None => name end)))
    as (k & _ & Hk & Hfree & _).
  eexists. split; [exact Hfree|]. unfold create_tenant. rewrite bind_gets. cbn [work]. by rewrite Hk.
Qed.

Lemma create_tenant_unique id x pct r :
  r_tenants r !! id = None → slug_taken r (tn_slug x) = false → slugs_unique r →
  slugs_unique (with_tenant id x pct r).
Proof.
  intros Hid Hs Hu i j t u. cbn. rewrite !lookup_insert.
  assert (Hno : ∀ i t, r_tenants r !! i = Some t → tn_slug t ≠ tn_slug x).
  { intros i' t' Hi He. assert (slug_taken r (tn_slug x) = true) as Ht by (apply slug_taken_spec; eauto). congruence. }
  repeat case_decide; subst; intros H1 H2 He; simplify_eq/=; try done.
  - by destruct (Hno _ _ H2).
  - by destruct (Hno _ _ H1).
  - by eapply Hu.
Qed.

Lemma alter_admin_admins aid f r : admins (r_db (on_admin aid f r)) = alter f aid (admins (r_db r)).
Proof. done. Qed.

(** The tenant a new account is put in. *)
Definition tenant_for (r : ResellerDB) (n : AdminCreate) : option Z :=
  match (if truthy (an_parent_admin_id n) then admins (r_db r) !! or0 (an_parent_admin_id n) else None) ≫= a_tenant_id with
  | Some t => Some t
  | None => if negb (an_is_sudo n) && (String.eqb (or_reseller (an_role n)) "reseller"
                                       || String.eqb (or_reseller (an_role n)) "support")
            then Some (next_key (r_tenants r)) else None
  end.

(** The tenant tables after it: as before, the account joining no tenant or that of
    an existing account, or with one more, of its own. *)
Inductive tenants_after (r r' : ResellerDB) (aid : Z) : option Z → Prop :=
  | joins t : (∀ u, t = Some u → ∃ i a, admins (r_db r) !! i = Some a ∧ a_tenant_id a = Some u) →
      r_tenants r' = r_tenants r → tenants (r_db r') = tenants (r_db r) → tenants_after r r' aid t
  | opens x : slug_taken r (tn_slug x) = false → tn_owner_admin_id x = Some aid →
      r_tenants r' = <[next_key (r_tenants r) := x]> (r_tenants r) →
      tenants (r_db r') = <[next_key (r_tenants r) := 0]> (tenants (r_db r)) →
      tenants_after r r' aid (Some (next_key (r_tenants r))).

(** The row is there and the tables around it are as before, the tenant tables and the
    account's wallet apart. *)
Record account_added (r r' : ResellerDB) (aid : Z) (n : AdminCreate) (t : option Z) : Prop := {
  aa_admins : admins (r_db r') = <[aid := (new_admin n) <| a_tenant_id := t |>]> (admins (r_db r));
  aa_db : ∃ ts ws, r_db r' = (r_db r) <| admins := admins (r_db r') |> <| tenants := ts |> <| wallets := ws |>
            ∧ ∀ a, a ≠ aid → ws !! a = wallets (r_db r) !! a;
  aa_accts : r_accts r' = <[aid := mkAcctExtra (an_role n) (an_max_nodes n) (an_hashed_password n) None]> (r_accts r);
  aa_tenants : tenants_after r r' aid t }.

(** The part of [create_admin] after the row is written. *)
Lemma place_in_tenant_runs aid n (r : ResellerDB) :
  admins (r_db r) !! aid = Some (new_admin n) →
  ∃ r', place_in_tenant aid n (mkSession r r) = (Ok tt, mkSession r' r') ∧
    admins (r_db r') = alter (λ a, a <| a_tenant_id := tenant_for r n |>) aid (admins (r_db r)) ∧
    (∃ ts, r_db r' = (r_db r) <| admins := admins (r_db r') |> <| tenants := ts |>) ∧
    r_accts r' = r_accts r ∧ tenants_after r r' aid (tenant_for r n).
Proof.
  intros Hrow. unfold place_in_tenant, tenant_for. rewrite bind_gets. cbn [work].
  destruct ((if truthy (an_parent_admin_id n) then _ else None) ≫= a_tenant_id) as [t|] eqn:Hp.
  - rewrite (bind_ok _ _ _ tt (mkSession _ _)) by done. rewrite bind_gets. cbn [work].
    rewrite alter_admin_admins, lookup_alter_eq, Hrow. cbn [fmap option_fmap option_map].
    replace (negb _ && _ && _) with false by (cbn; by rewrite andb_false_r).
    eexists. split; [reflexivity|]. split_and!; try done.
    + exists (tenants (r_db r)). cbn. by destruct r as [[] ? ?].
    + apply joins; [|done..]. intros u [= <-]. destruct (truthy _); [|done].
      apply bind_Some in Hp as (a & Ha & Ht). eauto.
  - rewrite (bind_ok _ _ _ tt (mkSession r r)) by done. rewrite bind_gets. cbn [work].
    rewrite Hrow. cbn [new_admin a_is_sudo a_tenant_id is_none]. rewrite andb_true_r.
    destruct (negb (an_is_sudo n) && _); cbn [when].
    + edestruct create_tenant_runs as (s & Hs & Hrun). rewrite (bind_ok _ _ _ _ _ Hrun).
      eexists. split; [reflexivity|]. split_and!; try done.
      * eexists. cbn. by destruct r as [[] ? ?].
      * apply (opens r _ aid (mkTenant s (an_username n) (Some aid) true (an_max_users n) (an_max_nodes n))); done.
    + eexists. split; [reflexivity|]. split_and!; try done.
      * symmetry. apply alter_id. intros a Ha. simplify_eq. done.
      * exists (tenants (r_db r)). cbn. by destruct r as [[] ? ?].
      * by apply joins.
Qed.

Lemma wallet_opened aid (r : ResellerDB) :
  ∃ ws, in_db (get_or_create_wallet aid ;;; ret tt) (mkSession r r)
        = (Ok tt, let r' := on_db (λ d, d <| wallets := ws |>) r in mkSession r' r')
    ∧ (∀ a, a ≠ aid → ws !! a = wallets (r_db r) !! a) ∧ is_Some (ws !! aid).
Proof.
  unfold in_db, get_or_create_wallet. cbn [work saved]. unfold bind at 1. rewrite bind_gets. cbn [work].
  destruct (wallets (r_db r) !! aid) as [b|] eqn:E.
  - exists (wallets (r_db r)). split_and!; [|done|by rewrite E]. cbn. by destruct r as [[] ? ?].
  - exists (<[aid := 0]> (wallets (r_db r))). split_and!; [done| |by rewrite lookup_insert_eq].
    intros a Ha. by rewrite lookup_insert_ne.
Qed.

Lemma tenant_for_insert r r0 aid n a :
  admins (r_db r0) = <[aid := a]> (admins (r_db r)) → r_tenants r0 = r_tenants r →
  admins (r_db r) !! aid = None → a_tenant_id a = None → tenant_for r0 n = tenant_for r n.
Proof.
  intros Hadm Ht Hf Ha. unfold tenant_for. rewrite Hadm, Ht. destruct (truthy (an_parent_admin_id n)); [|done].
  rewrite lookup_insert. case_decide as E; [|done]. rewrite <- E, Hf. cbn. by rewrite Ha.
Qed.

Lemma create_admin_runs n (r sv : ResellerDB) :
  match get_admin r (an_username n) with
  | Some _ => create_admin n (mkSession r sv) = (Raise integrity_error, mkSession r sv)
  | None =>
      ∃ r', create_admin n (mkSession r sv) = (Ok (next_key (admins (r_db r))), mkSession r' r') ∧
        account_added r r' (next_key (admins (r_db r))) n (tenant_for r n)
  end.
Proof.
  unfold create_admin. rewrite bind_gets. cbn [work].
  destruct (get_admin r (an_username n)); [done|]. cbn [is_none negb].
  rewrite bind_gets. cbn [work]. set (aid := next_key _).
  rewrite !bind_modify. cbn [work saved].
  set (x := mkAcctExtra _ _ _ _).
  set (r0 := (on_db _ r) <| r_accts := _ |>).
  rewrite (bind_ok commit _ _ tt (mkSession r0 r0)) by done.
  assert (Hfresh : admins (r_db r) !! aid = None) by apply next_key_fresh.
  destruct (place_in_tenant_runs aid n r0) as (r1 & Hrun & Hadm & (ts & Hdb) & Hacc & Hten).
  { apply lookup_insert_eq. }
  rewrite (bind_ok _ _ _ _ _ Hrun), bind_gets. cbn [work].
  rewrite (tenant_for_insert r r0 aid n (new_admin n) eq_refl eq_refl Hfresh eq_refl) in Hadm, Hten.
  cbn in Hadm. rewrite alter_insert_eq in Hadm.
  assert (Hten' : tenants_after r r1 aid (tenant_for r n)).
  { destruct Hten as [t Hin H1 H2|tn H1 H2 H3 H4]; [apply joins; [|done..] | exact (opens r r1 aid tn H1 H2 H3 H4)].
    intros u Hu. destruct (Hin u Hu) as (i & a & Hi & Ha). cbn in Hi. rewrite lookup_insert in Hi.
    case_decide; simplify_eq/=; eauto. }
  clear Hten Hrun. destruct (negb (an_is_sudo n) && is_enabled (r_db r1) "billing"); cbn [when].
  - destruct (wallet_opened aid r1) as (ws & Hw & Hother & _). rewrite (bind_ok _ _ _ _ _ Hw).
    eexists. split; [reflexivity|]. constructor; try done.
    + exists ts, ws. split; [|by rewrite Hdb in Hother].
      cbn. rewrite Hdb. cbn. by destruct r as [[] ? ?].
    + destruct Hten'; [by apply joins | by eapply opens].
  - eexists. split; [reflexivity|]. constructor; try done.
    exists ts, (wallets (r_db r)). split; [|done]. rewrite Hdb. cbn. by destruct r as [[] ? ?].
Qed.

(** *** Account tables stay well formed *)
Record accounts_wf (r : ResellerDB) : Prop := {
  wf_names : ∀ i j a b, admins (r_db r) !! i = Some a → admins (r_db r) !! j = Some b →
               a_username a = a_username b → i = j;
  wf_slugs : slugs_unique r;
  wf_accts : dom (r_accts r) = dom (admins (r_db r));
  wf_tenants : ∀ i, is_Some (r_tenants r !! i) → is_Some (tenants (r_db r) !! i);
  wf_homes : ∀ i a t, admins (r_db r) !! i = Some a → a_tenant_id a = Some t → is_Some (r_tenants r !! t) }.

Lemma get_admin_some r name aid a : get_admin r name = Some (aid, a) →
  admins (r_db r) !! aid = Some a ∧ a_username a = name.
Proof.
  unfold get_admin, Portal.get_admin. intros H. apply head_Some_elem_of, list_elem_of_filter in H as [He Hin].
  apply elem_of_map_to_list in Hin. apply String.eqb_eq in He. done.
Qed.

Lemma get_admin_none r name : get_admin r name = None ↔
  ∀ aid a, admins (r_db r) !! aid = Some a → a_username a ≠ name.
Proof.
  unfold get_admin, Portal.get_admin. rewrite head_None. split.
  - intros H aid a Ha He. apply (filter_nil_not_elem_of _ _ (aid, a)) in H.
    + apply H. by apply elem_of_map_to_list.
    + by apply String.eqb_eq.
  - intros H. destruct (filter _ _) as [|[aid a] l] eqn:E; [done|]. exfalso.
    assert (Hin : (aid, a) ∈ filter (λ p : Z * Admin, String.eqb (a_username p.2) name = true) (map_to_list (admins (r_db r))))
      by (rewrite E; left).
    apply list_elem_of_filter in Hin as [He Hin]. apply elem_of_map_to_list in Hin.
    apply String.eqb_eq in He. by destruct (H _ _ Hin).
Qed.

(** Where names are unique the lookup by name is the row of that name. *)
Lemma get_admin_unique r aid a : accounts_wf r → admins (r_db r) !! aid = Some a →
  get_admin r (a_username a) = Some (aid, a).
Proof.
  intros Hwf Ha. destruct (get_admin r (a_username a)) as [[j b]|] eqn:E.
  - apply get_admin_some in E as [Hb Hn]. assert (j = aid) as -> by by eapply (wf_names r Hwf). congruence.
  - by destruct (proj1 (get_admin_none _ _) E _ _ Ha).
Qed.

Lemma alter_row {A} (f : A → A) k (m : gmap Z A) i a : alter f k m !! i = Some a →
  ∃ x, m !! i = Some x ∧ a = if decide (k = i) then f x else x.
Proof.
  destruct (decide (k = i)) as [<-|Hne].
  - rewrite lookup_alter_eq. destruct (m !! k) as [x|]; intros [= <-]. by exists x.
  - rewrite lookup_alter_ne by done. intros Hx. by exists a.
Qed.

Lemma wf_on_admin aid f r : (∀ a, admins (r_db r) !! aid = Some a →
    (a_username (f a) = a_username a ∨ get_admin r (a_username (f a)) = None) ∧
    (a_tenant_id (f a) = a_tenant_id a ∨ ∃ t, a_tenant_id (f a) = Some t ∧ is_Some (r_tenants r !! t)
                                         ∨ a_tenant_id (f a) = None)) →
  accounts_wf r → accounts_wf (on_admin aid f r).
Proof.
  intros Hf [Hn Hs Ha Ht Hh]. constructor; cbn.
  - intros i j a b Hi Hj He.
    destruct (alter_row _ _ _ _ _ Hi) as (x & Hx & Ex), (alter_row _ _ _ _ _ Hj) as (y & Hy & Ey).
    destruct (decide (i = j)) as [|Hne]; [done|]. exfalso.
    assert (Hold : ∀ k z c, admins (r_db r) !! k = Some z → k ≠ aid → a_username (f c) = a_username z →
                     admins (r_db r) !! aid = Some c → False).
    { intros k z c Hk Hka Hz Hc. destruct (Hf c Hc) as [[E|E] _].
      - apply Hka. eapply Hn; [done..|]. congruence.
      - rewrite Hz in E. by destruct (proj1 (get_admin_none _ _) E _ _ Hk). }
    subst a b. destruct (decide (aid = i)) as [<-|Hi'], (decide (aid = j)) as [<-|Hj']; [done|..].
    + exact (Hold j y x Hy (not_eq_sym Hj') He Hx).
    + exact (Hold i x y Hx (not_eq_sym Hi') (eq_sym He) Hy).
    + apply Hne. by eapply Hn.
  - exact Hs.
  - by rewrite dom_alter_L.
  - exact Ht.
  - intros i a t. rewrite lookup_alter. case_decide; subst; [|apply Hh].
    rewrite fmap_Some. intros (b & Hb & ->) E.
    destruct (Hf b Hb) as [_ [E'|(t' & [[E' ?]|E'])]]; rewrite E' in E; [by eapply Hh|by simplify_eq|done].
Qed.

Lemma wf_on_extra aid f r : accounts_wf r → accounts_wf (on_extra aid f r).
Proof. intros [Hn Hs Ha Ht Hh]. constructor; cbn; try done. by rewrite dom_alter_L. Qed.

Lemma wf_tenants_after r r' aid t : tenants_after r r' aid t → slugs_unique r →
  (∀ i, is_Some (r_tenants r !! i) → is_Some (tenants (r_db r) !! i)) →
  (∀ i a t, admins (r_db r) !! i = Some a → a_tenant_id a = Some t → is_Some (r_tenants r !! t)) →
  slugs_unique r' ∧ (∀ i, is_Some (r_tenants r' !! i) → is_Some (tenants (r_db r') !! i)) ∧
  (∀ u, t = Some u → is_Some (r_tenants r' !! u)) ∧ r_tenants r ⊆ r_tenants r'.
Proof.
  intros [u Hin H1 H2|x Hfree Ho H1 H2] Hs Ht Hh; rewrite ?H1, ?H2; unfold slugs_unique; rewrite ?H1.
  - split_and!; [done..| |done]. intros v Hv. destruct (Hin v Hv) as (i & a & Hi & Ha). by eapply Hh.
  - split_and!.
    + exact (create_tenant_unique _ x 0 r (next_key_fresh _) Hfree Hs).
    + intros i. rewrite !lookup_insert. case_decide; [done|apply Ht].
    + intros v [= <-]. by rewrite lookup_insert_eq.
    + apply insert_subseteq, next_key_fresh.
Qed.

Lemma wf_added r r' n : accounts_wf r → get_admin r (an_username n) = None →
  account_added r r' (next_key (admins (r_db r))) n (tenant_for r n) → accounts_wf r'.
Proof.
  intros [Hn Hs Ha Ht Hh] Hnone [Hadm _ Hacc Hten].
  destruct (wf_tenants_after _ _ _ _ Hten Hs Ht Hh) as (Hs' & Ht' & Hhome & Hsub).
  set (aid := next_key _) in *. constructor.
  - intros i j a b. rewrite Hadm, !lookup_insert.
    pose proof (proj1 (get_admin_none _ _) Hnone) as Hno.
    repeat case_decide; subst; intros H1 H2 He; simplify_eq/=; try done.
    + by destruct (Hno _ _ H2).
    + by destruct (Hno _ _ H1).
    + by eapply Hn.
  - exact Hs'.
  - by rewrite Hadm, Hacc, !dom_insert_L, Ha.
  - exact Ht'.
  - intros i a t. rewrite Hadm, lookup_insert. case_decide.
    + intros [= <-]. cbn. apply Hhome.
    + intros H1 H2. destruct (Hh _ _ _ H1 H2) as [x Hx]. exists x. by eapply lookup_weaken.
Qed.

Lemma wf_create_admin n : preserves accounts_wf (create_admin n).
Proof.
  intros [r sv] [Hr Hsv]. pose proof (create_admin_runs n r sv) as H.
  destruct (get_admin r (an_username n)) eqn:E; [by rewrite H|].
  destruct H as (r' & -> & Hadd).
  assert (accounts_wf r') by exact (wf_added r r' n Hr E Hadd). done.
Qed.

Lemma wf_modify_admin aid f :
  (∀ a, a_username (f a) = a_username a ∧ a_tenant_id (f a) = a_tenant_id a) →
  preserves accounts_wf (modify (on_admin aid f)).
Proof.
  intros Hf. apply preserves_modify. intros r. apply wf_on_admin. intros a _.
  destruct (Hf a). auto.
Qed.

Lemma wf_modify_extra aid f : preserves accounts_wf (modify (on_extra aid f)).
Proof. apply preserves_modify. intros r. apply wf_on_extra. Qed.

#[local] Hint Resolve wf_create_admin wf_modify_extra : session.

Lemma wf_update_admin now aid m : preserves accounts_wf (update_admin now aid m).
Proof.
  unfold update_admin. destruct (am_commission_percent m) as [[c|]|] eqn:E; [|apply preserves_raise|];
    (apply preserves_bind; [|intros; apply preserves_bind; [auto with session | intros; apply preserves_commit]]);
    apply wf_modify_admin; intros a; by destruct m as [? [] ? [] [] ? ?].
Qed.

Lemma wf_remove_admin enforced aid : preserves accounts_wf (remove_admin enforced aid).
Proof.
  intros [r sv] [Hr Hsv]. unfold remove_admin. rewrite bind_gets.
  destruct (enforced && _); [done|].
  assert (H : accounts_wf (on_db (λ d, d <| admins := delete aid (admins d) |>
        <| users := (λ u, if bool_decide (u_admin_id u = Some aid) then u <| u_admin_id := None |> else u) <$> users d |>) r
      <| r_accts := delete aid (r_accts r) |>)).
  { change (accounts_wf r) in Hr. destruct Hr as [Hn Hs Ha Ht Hh]. constructor; cbn; try done.
    - intros i j a b [_ Hi]%lookup_delete_Some [_ Hj]%lookup_delete_Some. by apply Hn.
    - by rewrite !dom_delete_L, Ha.
    - intros i a t [_ Hi]%lookup_delete_Some. by eapply Hh. }
  split; exact H.
Qed.

Lemma wf_change_username verify now me new pw :
  preserves accounts_wf (change_my_username verify now me new pw).
Proof.
  intros [r sv] Hg. unfold change_my_username. destruct (ac_is_sudo me); [done|].
  set (name := lower (strip new)). destruct (negb _); [done|]. destruct (String.eqb _ _); [done|].
  rewrite bind_gets. cbn [work]. destruct (get_admin r (ac_username me)) as [[aid a]|] eqn:E; [|done].
  rewrite bind_gets. destruct (negb (verify _ _)); [done|]. rewrite bind_gets. cbn [work].
  destruct (get_admin r name) eqn:Hfree; [done|].
  assert (H : accounts_wf (on_extra aid (λ x, x <| ax_password_reset_at := Some now |>)
               (on_admin aid (λ a, a <| a_username := name |>) r))).
  { apply wf_on_extra, wf_on_admin; [|apply Hg]. intros b _. cbn. auto. }
  split; exact H.
Qed.

Lemma assert_child_pure parent s : (assert_can_create_child parent s).2 = s.
Proof. unfold assert_can_create_child, bind, gets. by repeat case_match. Qed.

(** The row of a child as [create_sub_reseller] leaves it. *)
Definition child_row (p : Z * Admin) (n : AdminCreate) (commission : Z) : Admin :=
  (new_admin n) <| a_parent_admin_id := Some p.1 |> <| a_tenant_id := a_tenant_id p.2 |>
                <| a_commission_percent := commission |>.

Definition child_body (p : Z * Admin) (px : AcctExtra) (username hash : string) (mu mn : option Z) : AdminCreate :=
  mkAdminCreate username hash false (Some "reseller"%string) (clamp_child_quota (a_max_users p.2) mu) None
    (clamp_child_quota (ax_max_nodes px) mn) None 0.

Definition child_commission (p : Z * Admin) (dflt : Z) (cp : option Z) : Z :=
  match cp with
  | Some v => Z.max 0 (Z.min 100 v)
  | None => if a_commission_percent p.2 =? 0 then dflt else a_commission_percent p.2
  end.

(** Every run of [create_sub_reseller]: refused at the limit, refused for a name in use,
    or the account of [create_admin] moved under its parent. *)
Lemma create_sub_reseller_runs p username hash mu mn cp (r sv : ResellerDB) :
  let limit := get_int (r_db r) "reseller.sub_reseller_max" 10 in
  let n := child_body p (extra_of r p.1) username hash mu mn in
  let cid := next_key (admins (r_db r)) in
  let run := create_sub_reseller p username hash mu mn cp (mkSession r sv) in
  (a_is_sudo p.2 = false ∧ limit ≤ count_children r p.1 ∧
     run = (Raise (HTTPException 400 "Sub-reseller limit reached"), mkSession r sv)) ∨
  ((a_is_sudo p.2 = true ∨ count_children r p.1 < limit) ∧
    ((is_Some (get_admin r username) ∧ run = (Raise (HTTPException 409 "Admin already exists"), mkSession r sv)) ∨
     (get_admin r username = None ∧
      ∃ r1, account_added r r1 cid n (tenant_for r n) ∧
      let r' := on_admin cid (λ _, child_row p n (child_commission p
                  (get_int (r_db r) "reseller.default_commission_percent" 0) cp)) r1 in
      run = (Ok cid, mkSession r' r')))).
Proof.
  cbv zeta. set (n := child_body _ _ _ _ _ _).
  unfold create_sub_reseller, assert_can_create_child.
  assert (Hlim : (a_is_sudo p.2 = false ∧ get_int (r_db r) "reseller.sub_reseller_max" 10 ≤ count_children r p.1)
    ∨ (a_is_sudo p.2 = true ∨ count_children r p.1 < get_int (r_db r) "reseller.sub_reseller_max" 10)).
  { destruct (a_is_sudo p.2); [auto|]. lia. }
  destruct Hlim as [[Hs Hl]|Hok]; [left | right].
  - rewrite Hs. split_and!; [done..|]. apply bind_raise. rewrite !bind_gets. cbn [work].
    by rewrite (proj2 (Z.leb_le _ _) Hl).
  - split; [done|]. rewrite (bind_ok _ _ _ tt (mkSession r sv)).
    2:{ destruct (a_is_sudo p.2); [done|]. destruct Hok as [?|Hok]; [done|]. rewrite !bind_gets. cbn [work].
        by rewrite (proj2 (Z.leb_gt _ _) Hok). }
    rewrite bind_gets. cbn [work]. destruct (get_admin r username) as [x|] eqn:E; [left; split; [done|done]|].
    right. split; [done|]. cbn [is_none negb]. rewrite bind_gets. cbn [work].
    pose proof (create_admin_runs n r sv) as Hrun. change (an_username n) with username in Hrun. rewrite E in Hrun.
    destruct Hrun as (r1 & Hrun & Hadd). exists r1. split; [done|].
    rewrite (bind_ok _ _ _ _ _ Hrun), bind_gets, bind_modify. cbn [work saved].
    destruct (aa_db _ _ _ _ _ Hadd) as (ts & ws & Hdb & _).
    assert (Hset : ∀ k d, get_int (r_db r1) k d = get_int (r_db r) k d) by (intros k d; by rewrite Hdb).
    rewrite Hset. set (r' := on_admin _ _ _). set (r'' := on_admin _ (λ _, _) _).
    assert (r' = r'') as ->; [|done]. subst r' r''. unfold on_admin, update_admin_row.
    rewrite (aa_admins _ _ _ _ _ Hadd), !alter_insert_eq. done.
Qed.

Lemma wf_create_sub_reseller pid p username hash mu mn cp r sv :
  admins (r_db r) !! pid = Some p → good accounts_wf (mkSession r sv) →
  good accounts_wf (create_sub_reseller (pid, p) username hash mu mn cp (mkSession r sv)).2.
Proof.
  intros Hp [Hr Hsv]. change (accounts_wf r) in Hr.
  destruct (create_sub_reseller_runs (pid, p) username hash mu mn cp r sv)
    as [(_ & _ & ->)|(_ & [[_ ->]|(Hn & r1 & Hadd & ->)])]; [done..|].
  set (r' := on_admin _ _ _). assert (accounts_wf r'); [|done].
  apply wf_on_admin; [|exact (wf_added r r1 (child_body (pid, p) _ username hash mu mn) Hr Hn Hadd)].
  intros a. rewrite (aa_admins _ _ _ _ _ Hadd), lookup_insert_eq. intros [= <-]. split; [by left|].
  right. cbn. destruct (a_tenant_id p) as [t|] eqn:Et; [|exists 0; by right].
  exists t. left. split; [done|]. destruct (wf_homes _ Hr _ _ _ Hp Et) as [x Hx]. exists x.
  destruct (wf_tenants_after _ _ _ _ (aa_tenants _ _ _ _ _ Hadd) (wf_slugs _ Hr) (wf_tenants _ Hr) (wf_homes _ Hr))
    as (_ & _ & _ & Hsub). by eapply lookup_weaken.
Qed.

Lemma wf_update_sub_reseller p c mu mn cp h : preserves accounts_wf (update_sub_reseller p c mu mn cp h).
Proof.
  unfold update_sub_reseller. destruct (negb _); [apply preserves_raise|].
  apply preserves_bind; [apply preserves_gets|]. intros px.
  apply preserves_bind; [|intros; apply preserves_bind; [auto with session | intros; apply preserves_commit]].
  apply wf_modify_admin. intros a. by destruct mu, cp.
Qed.

Lemma wf_guarded {A} f p who (m : R A) : preserves accounts_wf m → preserves accounts_wf (guarded f p who m).
Proof. unfold guarded. destruct (require_permission f p who); auto using preserves_raise. Qed.

(** One account of the backfill. *)
Definition backfill (x : Z * Admin) : R unit :=
  let* a := gets (λ r, default x.2 (admins (r_db r) !! x.1)) in
  let* ex := gets (λ r, extra_of r x.1) in
  let* tid := create_tenant (a_username a) (Some (a_username a)) (Some x.1) (a_max_users a)
                (ax_max_nodes ex) (Some 0) in
  modify (on_admin x.1 (λ a, a <| a_tenant_id := Some tid |>)) ;;;
  commit.

Lemma backfill_runs x (r sv : ResellerDB) :
  ∃ t, slug_taken r (tn_slug t) = false ∧ tn_owner_admin_id t = Some x.1 ∧
    let r' := on_admin x.1 (λ a, a <| a_tenant_id := Some (next_key (r_tenants r)) |>)
                (with_tenant (next_key (r_tenants r)) t 0 r) in
    backfill x (mkSession r sv) = (Ok tt, mkSession r' r').
Proof.
  unfold backfill. rewrite !bind_gets. cbn [work].
  edestruct create_tenant_runs as (s & Hs & Hrun). eexists (mkTenant s _ _ _ _ _).
  split_and!; [exact Hs | reflexivity |]. by rewrite (bind_ok _ _ _ _ _ Hrun).
Qed.

Lemma wf_with_tenant id x pct r : r_tenants r !! id = None → slug_taken r (tn_slug x) = false →
  accounts_wf r → accounts_wf (with_tenant id x pct r).
Proof.
  intros Hid Hfree [Hn Hs Ha Ht Hh]. constructor; try done.
  - by apply create_tenant_unique.
  - intros i. cbn. rewrite !lookup_insert. case_decide; [done|apply Ht].
  - intros i a t Hi Hat. cbn. rewrite lookup_insert. case_decide; [done|]. by eapply Hh.
Qed.

Lemma wf_backfill x : preserves accounts_wf (backfill x).
Proof.
  intros [r sv] [Hr Hsv]. destruct (backfill_runs x r sv) as (t & Hfree & _ & ->).
  set (r' := on_admin _ _ _). assert (accounts_wf r'); [|done].
  apply wf_on_admin; [|apply wf_with_tenant; [apply next_key_fresh | done | exact Hr]].
  intros a _. split; [by left|]. right. eexists. left. split; [done|]. cbn. by rewrite lookup_insert_eq.
Qed.

Lemma wf_ensure_tenants : preserves accounts_wf ensure_reseller_tenants.
Proof.
  apply preserves_bind; [apply preserves_gets|]. intros l.
  apply preserves_bind; [|intros; apply preserves_ret].
  apply (preserves_for_each _ l backfill). apply wf_backfill.
Qed.

(** The requests on accounts. *)
Inductive AccountOp :=
  | CreateAdmin (n : AdminCreate)
  | EnsureAdmin (username hash : string) (is_sudo : bool)
  | ModifyAdmin (now : Z) (username : string) (who : Actor) (m : AdminModify)
  | RemoveAdmin (enforced : bool) (username : string)
  | ChangeUsername (verify : string → string → bool) (now : Z) (me : Actor) (new pw : string)
  | AddSub (f : OverridesFile) (who : Actor) (username hash : string) (mu mn cp : option Z)
  | PatchSub (f : OverridesFile) (who : Actor) (username : string) (mu mn : option (option Z))
      (cp : option Z) (hash : option string)
  | Backfill.

Definition run_op (o : AccountOp) : R unit :=
  match o with
  | CreateAdmin n => create_admin_route n ;;; ret tt
  | EnsureAdmin u h s => ensure_db_admin u h s ;;; ret tt
  | ModifyAdmin now u who m => modify_admin now u who m
  | RemoveAdmin e u => remove_admin_route e u
  | ChangeUsername v now me new pw => change_my_username v now me new pw ;;; ret tt
  | AddSub f who u h mu mn cp => add_sub_account f who u h mu mn cp ;;; ret tt
  | PatchSub f who u mu mn cp h => patch_sub_account f who u mu mn cp h
  | Backfill => ensure_reseller_tenants ;;; ret tt
  end.

Lemma wf_create_route n : preserves accounts_wf (create_admin_route n).
Proof.
  intros s Hs. pose proof (wf_create_admin n s Hs) as H. unfold create_admin_route.
  destruct (create_admin n s) as [[?|[]] s']; try exact H. by destruct (String.eqb _ _).
Qed.

Lemma wf_find_admin u : preserves accounts_wf (get_admin_by_username u).
Proof.
  unfold get_admin_by_username. apply preserves_bind; [apply preserves_gets|].
  intros [x|]; [apply preserves_ret | apply preserves_raise].
Qed.

Lemma wf_add_sub f who u h mu mn cp : preserves accounts_wf (add_sub_account f who u h mu mn cp).
Proof.
  apply wf_guarded. destruct (ac_is_sudo who); [apply preserves_raise|].
  intros [r sv] Hg. rewrite bind_gets. cbn [work]. destruct (db_admin r who) as [[pid p]|] eqn:E; [|done].
  apply wf_create_sub_reseller; [|done]. by apply get_admin_some in E as [? _].
Qed.

Lemma wf_patch_sub f who u mu mn cp h : preserves accounts_wf (patch_sub_account f who u mu mn cp h).
Proof.
  apply wf_guarded. destruct (ac_is_sudo who); [apply preserves_raise|].
  apply preserves_bind; [apply preserves_gets|]. intros [p|]; [|apply preserves_raise].
  apply preserves_bind; [apply preserves_gets|]. intros [c|]; [|apply preserves_raise].
  apply wf_update_sub_reseller.
Qed.

Lemma wf_op o : preserves accounts_wf (run_op o).
Proof.
  destruct o; cbn [run_op]; try (apply preserves_bind; [|intros; apply preserves_ret]).
  - apply wf_create_route.
  - unfold ensure_db_admin. apply preserves_bind; [apply preserves_gets|]. intros [[? ?]|]; [apply preserves_ret|].
    destruct (negb is_sudo); [apply preserves_ret|]. apply preserves_bind; [apply wf_create_admin|].
    intros; apply preserves_ret.
  - apply preserves_bind; [apply wf_find_admin|]. intros [aid a]. destruct (_ && _); [apply preserves_raise|].
    apply wf_update_admin.
  - apply preserves_bind; [apply wf_find_admin|]. intros [aid a]. destruct (a_is_sudo _); [apply preserves_raise|].
    apply wf_remove_admin.
  - apply wf_change_username.
  - apply wf_add_sub.
  - apply wf_patch_sub.
  - apply wf_ensure_tenants.
Qed.

(** C15. Whatever sequence of account requests is served, each in its own session with
    its successes and its refusals, names stay unique among admins and slugs among
    tenants, every account keeps its login columns, every tenant its discount row, and
    an account is never left in a tenant that does not exist. *)
Theorem accounts_stay_well_formed (ops : list AccountOp) (r : ResellerDB) :
  accounts_wf r → accounts_wf (foldl (λ r o, (run_session (run_op o) r).2) r ops).
Proof.
  revert r. induction ops as [|o ops IH]; intros r Hr; [done|]. cbn.
  apply IH. apply preserves_run; [apply wf_op | done].
Qed.

(** *** Sub-resellers *)
Definition within (child parent : option Z) : Prop :=
  match parent with None => True | Some p => ∃ c, child = Some c ∧ c ≤ p end.

Lemma clamp_within p c : within (clamp_child_quota p c) p.
Proof. destruct p as [p|], c as [c|]; cbn; try done; eexists; (split; [done|lia]). Qed.

Lemma count_children_insert r r' cid c pid :
  admins (r_db r) !! cid = None → admins (r_db r') = <[cid := c]> (admins (r_db r)) →
  count_children r' pid ≤ count_children r pid + 1.
Proof.
  intros Hf He. unfold count_children. rewrite He, (map_to_list_insert _ _ _ Hf), filter_cons.
  case_decide; cbn [length]; lia.
Qed.

Lemma permission_ok f p who w : require_permission f p who = Ok w → has_permission f who p = true.
Proof. unfold require_permission. by destruct (has_permission f who p). Qed.

(** A successful [add_sub_account], taken apart. *)
Lemma add_sub_account_ok f who username hash mu mn cp r cid r' :
  run_session (add_sub_account f who username hash mu mn cp) r = (Ok cid, r') →
  ∃ pid p r1, has_permission f who "users:write" = true ∧ ac_is_sudo who = false ∧
    db_admin r who = Some (pid, p) ∧ get_admin r (strip username) = None ∧
    (a_is_sudo p = true ∨ count_children r pid < get_int (r_db r) "reseller.sub_reseller_max" 10) ∧
    cid = next_key (admins (r_db r)) ∧
    let n := child_body (pid, p) (extra_of r pid) (strip username) hash mu mn in
    let c := child_row (pid, p) n (child_commission (pid, p)
               (get_int (r_db r) "reseller.default_commission_percent" 0) cp) in
    account_added r r1 cid n (tenant_for r n) ∧ r' = on_admin cid (λ _, c) r1 ∧
    admins (r_db r') = <[cid := c]> (admins (r_db r)).
Proof.
  unfold run_session, add_sub_account, guarded.
  destruct (require_permission f "users:write" who) as [w|] eqn:Ep; [|done]. apply permission_ok in Ep.
  destruct (ac_is_sudo who); [done|]. rewrite bind_gets. cbn [work].
  destruct (db_admin r who) as [[pid p]|] eqn:E; [|done].
  destruct (create_sub_reseller_runs (pid, p) (strip username) hash mu mn cp r r)
    as [(_ & _ & ->)|(Hlim & [[_ ->]|(Hn & r1 & Hadd & ->)])]; [done..|].
  intros [= <- <-]. exists pid, p, r1. split_and!; try done.
  rewrite alter_admin_admins, (aa_admins _ _ _ _ _ Hadd). by rewrite alter_insert_eq.
Qed.

(** A sub-reseller is created within its parent's means: the caller holds the permission
    and is an account of the database, the name was free, the new row is not sudo, its
    parent is the caller and its tenant the caller's, its user and node quotas do not
    exceed the caller's, the commission rate lies in 0..100 when the caller's and the
    platform's do, every other account is unchanged, and a caller that is not sudo has
    at most the configured number of children afterwards. *)
Theorem sub_reseller_within_parent f who username hash mu mn cp r cid r' :
  run_session (add_sub_account f who username hash mu mn cp) r = (Ok cid, r') →
  has_permission f who "users:write" = true ∧ ac_is_sudo who = false ∧
  get_admin r (strip username) = None ∧ admins (r_db r) !! cid = None ∧
  ∃ pid p c, db_admin r who = Some (pid, p) ∧
    admins (r_db r') = <[cid := c]> (admins (r_db r)) ∧
    a_username c = strip username ∧ a_is_sudo c = false ∧
    a_parent_admin_id c = Some pid ∧ a_tenant_id c = a_tenant_id p ∧
    within (a_max_users c) (a_max_users p) ∧
    within (ax_max_nodes (extra_of r' cid)) (ax_max_nodes (extra_of r pid)) ∧
    (0 ≤ a_commission_percent p ≤ 100 →
     0 ≤ get_int (r_db r) "reseller.default_commission_percent" 0 ≤ 100 → 0 ≤ a_commission_percent c ≤ 100) ∧
    (a_is_sudo p = false → count_children r' pid ≤ get_int (r_db r) "reseller.sub_reseller_max" 10).
Proof.
  intros (pid & p & r1 & Hp & Hs & Hrow & Hn & Hlim & -> & Hadd & Hr' & Hadm)%add_sub_account_ok.
  pose proof (next_key_fresh (admins (r_db r))) as Hfresh. split_and!; [done..|].
  eexists pid, p, _. split_and!; [done | exact Hadm | reflexivity..| | | |].
  - apply clamp_within.
  - subst r'. unfold extra_of at 1. cbn. rewrite (aa_accts _ _ _ _ _ Hadd), lookup_insert_eq. apply clamp_within.
  - cbn. unfold child_commission. destruct cp; [lia|]. by case_match.
  - intros Hnot. destruct Hlim as [Hlim|Hlim]; [congruence|].
    pose proof (count_children_insert _ _ _ _ pid Hfresh Hadm). lia.
Qed.

(** What the creation leaves out: the child has no traffic cap whatever the parent's is,
    and beside it a tenant row it owns and in which no account is. *)
Lemma sub_reseller_leftovers f who username hash mu mn cp r cid r' : accounts_wf r →
  run_session (add_sub_account f who username hash mu mn cp) r = (Ok cid, r') →
  ∃ c t x, admins (r_db r') !! cid = Some c ∧ a_max_total_traffic c = None ∧
    r_tenants r !! t = None ∧ r_tenants r' !! t = Some x ∧ tn_owner_admin_id x = Some cid ∧
    ∀ aid a, admins (r_db r') !! aid = Some a → a_tenant_id a ≠ Some t.
Proof.
  intros Hwf (pid & p & r1 & _ & _ & Hrow & Hn & _ & -> & Hadd & Hr' & Hadm)%add_sub_account_ok.
  apply get_admin_some in Hrow as [Hrow _].
  pose proof (aa_tenants _ _ _ _ _ Hadd) as Hten. cbn in Hten.
  remember (Some (next_key (r_tenants r))) as t eqn:Et.
  destruct Hten as [t Hin _ _|x _ Ho Ht _].
  - exfalso. subst t. destruct (Hin _ eq_refl) as (i & a & Hi & Ha).
    destruct (wf_homes _ Hwf _ _ _ Hi Ha) as [y Hy]. by rewrite next_key_fresh in Hy.
  - eexists _, (next_key (r_tenants r)), x. split_and!.
    + by rewrite Hadm, lookup_insert_eq.
    + done.
    + apply next_key_fresh.
    + subst r'. cbn. by rewrite Ht, lookup_insert_eq.
    + done.
    + assert (Hold : ∀ i b, admins (r_db r) !! i = Some b → a_tenant_id b ≠ Some (next_key (r_tenants r))).
      { intros i b Hi Hb. destruct (wf_homes _ Hwf _ _ _ Hi Hb) as [y Hy]. by rewrite next_key_fresh in Hy. }
      intros aid a. rewrite Hadm, lookup_insert. case_decide; [intros [= <-]; cbn; by eapply Hold | by apply Hold].
Qed.

(** A run of [patch_sub_account]: refused, or the two rows of a child of the caller. *)
Lemma patch_sub_account_runs f who username mu mn cp h r :
  let run := run_session (patch_sub_account f who username mu mn cp h) r in
  (∃ e, run = (Raise e, r)) ∨
  (∃ pid p cid c x, has_permission f who "users:write" = true ∧ ac_is_sudo who = false ∧
     db_admin r who = Some (pid, p) ∧ get_admin r username = Some (cid, c) ∧
     a_parent_admin_id c = Some pid ∧
     run = (Ok tt, on_extra cid x (on_admin cid (λ c,
       let c := if_some mu (λ v c, c <| a_max_users :=
                  match v with None => None | Some _ => clamp_child_quota (a_max_users p) v end |>) c in
       if_some cp (λ v c, c <| a_commission_percent := Z.max 0 (Z.min 100 v) |>) c) r)) ∧
     (∀ e, ax_password_reset_at (x e) = ax_password_reset_at e ∧ ax_role (x e) = ax_role e ∧
           ax_hashed_password (x e) = default (ax_hashed_password e) h)).
Proof.
  cbv zeta. unfold run_session, patch_sub_account, guarded.
  destruct (require_permission f "users:write" who) as [w|] eqn:Ep; [|left; by eexists].
  apply permission_ok in Ep. destruct (ac_is_sudo who) eqn:Es; [left; by eexists|].
  rewrite bind_gets. cbn [work]. destruct (db_admin r who) as [[pid p]|] eqn:E; [|left; by eexists].
  rewrite bind_gets. cbn [work]. destruct (get_admin r username) as [[cid c]|] eqn:Ec; [|left; by eexists].
  unfold update_sub_reseller. cbn [fst snd]. destruct (bool_decide (a_parent_admin_id c = Some pid)) eqn:Epar.
  - apply bool_decide_eq_true in Epar. right. cbn [negb]. rewrite bind_gets.
    eexists pid, p, cid, c, _. split_and!; try done. intros e. by destruct mn, h.
  - left. by eexists.
Qed.

(** The requests a reseller makes about its sub-accounts. *)
Definition from_reseller (who : Actor) (o : AccountOp) : bool :=
  match o with
  | AddSub _ w _ _ _ _ _ | PatchSub _ w _ _ _ _ _ => String.eqb (ac_username w) (ac_username who)
  | _ => false
  end.

(** The handler with its reply dropped. *)
Lemma add_sub_run f who u h mu mn cp r res r' :
  run_session (run_op (AddSub f who u h mu mn cp)) r = (res, r') →
  (∃ e, (res, r') = (Raise e, r)) ∨
  ∃ cid, run_session (add_sub_account f who u h mu mn cp) r = (Ok cid, r').
Proof.
  cbn [run_op]. unfold run_session, bind.
  destruct (add_sub_account f who u h mu mn cp (mkSession r r)) as [[cid|e] s] eqn:E; intros [= <- <-]; [by eauto|].
  left. exists e. f_equal. unfold add_sub_account, guarded in E. destruct (require_permission _ _ _); [|by inversion E].
  destruct (ac_is_sudo who); [by inversion E|]. rewrite bind_gets in E. cbn [work] in E.
  destruct (db_admin r who) as [p|]; [|by inversion E].
  destruct (create_sub_reseller_runs p (strip u) h mu mn cp r r)
    as [(_ & _ & Hr)|(_ & [[_ Hr]|(_ & r1 & _ & Hr)])]; rewrite Hr in E; try discriminate E; by inversion E.
Qed.

(** The columns a parent may set on a child: the user quota and the commission rate of
    its row, the node limit and the password of its login. *)
Definition same_but_quotas (a b : Admin) : Prop :=
  b = a <| a_max_users := a_max_users b |> <| a_commission_percent := a_commission_percent b |>.
Definition same_but_nodes_password (x y : AcctExtra) : Prop :=
  y = x <| ax_max_nodes := ax_max_nodes y |> <| ax_hashed_password := ax_hashed_password y |>.

Definition own_child (who : Actor) (r : ResellerDB) (aid : Z) : Prop :=
  ∃ pid p a, db_admin r who = Some (pid, p) ∧ admins (r_db r) !! aid = Some a ∧ a_parent_admin_id a = Some pid.

Record confined_to_children (who : Actor) (r r' : ResellerDB) : Prop := {
  cc_rows : ∀ aid a, admins (r_db r) !! aid = Some a → ∃ b, admins (r_db r') !! aid = Some b ∧
    (b = a ∨ same_but_quotas a b ∧ own_child who r aid);
  cc_new : ∀ aid b, admins (r_db r) !! aid = None → admins (r_db r') !! aid = Some b →
    a_is_sudo b = false ∧ ∃ pid p, db_admin r who = Some (pid, p) ∧ a_parent_admin_id b = Some pid;
  cc_logins : ∀ aid, r_accts r' !! aid = r_accts r !! aid
    ∨ (own_child who r aid ∧ ∃ x y, r_accts r !! aid = Some x ∧ r_accts r' !! aid = Some y ∧ same_but_nodes_password x y)
    ∨ (admins (r_db r) !! aid = None ∧ is_Some (admins (r_db r') !! aid));
  cc_tenants : ∀ t, is_Some (r_tenants r !! t) →
    r_tenants r' !! t = r_tenants r !! t ∧ tenants (r_db r') !! t = tenants (r_db r) !! t;
  cc_new_tenants : ∀ t x, r_tenants r !! t = None → r_tenants r' !! t = Some x →
    ∃ cid, tn_owner_admin_id x = Some cid ∧ admins (r_db r) !! cid = None ∧ is_Some (admins (r_db r') !! cid);
  cc_rest : ∃ A ts ws, r_db r' = (r_db r) <| admins := A |> <| tenants := ts |> <| wallets := ws |> ∧
    ∀ aid, is_Some (admins (r_db r) !! aid) → ws !! aid = wallets (r_db r) !! aid }.

Lemma confined_refl who r : confined_to_children who r r.
Proof.
  constructor; [intros aid a Ha; exists a; auto | by intros; congruence | by left | done | by intros; congruence |].
  exists (admins (r_db r)), (tenants (r_db r)), (wallets (r_db r)). split; [by destruct r as [[] ? ?]|done].
Qed.

Lemma tenants_after_frame r r' cid t : tenants_after r r' cid t →
  (∀ t, is_Some (r_tenants r !! t) →
     r_tenants r' !! t = r_tenants r !! t ∧ tenants (r_db r') !! t = tenants (r_db r) !! t) ∧
  (∀ t x, r_tenants r !! t = None → r_tenants r' !! t = Some x → tn_owner_admin_id x = Some cid).
Proof.
  intros [t' _ H1 H2|x _ Ho H1 H2]; rewrite H1, H2; [by split; [|intros; congruence]|].
  pose proof (next_key_fresh (r_tenants r)) as Hf. split.
  - intros u [y Hu]. rewrite !lookup_insert_ne by congruence. done.
  - intros u y Hn. rewrite lookup_insert. case_decide; congruence.
Qed.

(** A new sub-account. *)
Lemma confined_added who r r' r1 cid pid p n t c :
  db_admin r who = Some (pid, p) → cid = next_key (admins (r_db r)) →
  account_added r r1 cid n t → r' = on_admin cid (λ _, c) r1 →
  admins (r_db r') = <[cid := c]> (admins (r_db r)) →
  a_is_sudo c = false → a_parent_admin_id c = Some pid →
  confined_to_children who r r'.
Proof.
  intros Hrow -> Hadd Hr' Hadm Hsu Hpar. pose proof (next_key_fresh (admins (r_db r))) as Hfresh.
  destruct (tenants_after_frame _ _ _ _ (aa_tenants _ _ _ _ _ Hadd)) as [Ht Hnew].
  assert (Htn : r_tenants r' = r_tenants r1 ∧ tenants (r_db r') = tenants (r_db r1)
    ∧ r_accts r' = r_accts r1) by (by subst r'). destruct Htn as (E1 & E2 & E3).
  constructor; rewrite ?Hadm, ?E1, ?E2, ?E3.
  - intros aid a Ha. exists a. rewrite lookup_insert_ne by congruence. auto.
  - intros aid b Hnone. rewrite lookup_insert. case_decide; [intros [= <-]; eauto | congruence].
  - intros aid. rewrite (aa_accts _ _ _ _ _ Hadd), lookup_insert. case_decide; [subst|by left].
    right; right. split; [done|]. by rewrite lookup_insert_eq.
  - exact Ht.
  - intros t' x H1 H2. eexists. split_and!; [by eapply Hnew|done|by rewrite lookup_insert_eq].
  - destruct (aa_db _ _ _ _ _ Hadd) as (ts & ws & Hdb & Hws). exists (admins (r_db r')), ts, ws. split.
    + subst r'. cbn. rewrite Hdb. by destruct r as [[] ? ?].
    + intros aid [a Ha]. apply Hws. congruence.
Qed.

(** C16. A reseller's sub-account requests reach nothing else: an account that was there is
    unchanged, its login and password included, unless its parent is the caller, and
    then only its user quota, commission rate, node limit and password can differ; a
    new row is a child of the caller and not sudo; tenants that exist are as before and
    a new one is owned by the new account; users, nodes, the ledger, settings and the
    wallets of existing accounts are as before. *)
Theorem sub_accounts_confined who o r : from_reseller who o = true →
  confined_to_children who r (run_session (run_op o) r).2.
Proof.
  intros Hfrom.
  destruct o as [| | | | |f w u h mu mn cp|f w u mu mn cp h|]; try discriminate Hfrom;
    apply String.eqb_eq in Hfrom.
  - destruct (run_session (run_op (AddSub f w u h mu mn cp)) r) as [res r'] eqn:E.
    apply add_sub_run in E as [[e [= -> ->]]|(cid & E)]; [apply confined_refl|].
    apply add_sub_account_ok in E as (pid & p & r1 & _ & _ & Hrow & _ & _ & -> & Hadd & Hr' & Hadm).
    unfold db_admin in *. rewrite Hfrom in Hrow. by eapply confined_added.
  - cbn [run_op]. destruct (patch_sub_account_runs f w u mu mn cp h r)
      as [[e ->]|(pid & p & cid & c & x & _ & _ & Hrow & Hc & Hpar & -> & Hx)]; [apply confined_refl|].
    unfold db_admin in *. rewrite Hfrom in Hrow. apply get_admin_some in Hc as [Hc _]. cbn [snd].
    assert (Hown : own_child who r cid) by (exists pid, p, c; done). constructor.
    + intros aid a Ha. cbn. rewrite lookup_alter. case_decide; [subst aid|exists a; auto].
      rewrite Ha. eexists. split; [reflexivity|]. right. split; [|done].
      unfold same_but_quotas. destruct mu, cp, a; done.
    + intros aid b Hnone (y & Hy & _)%alter_row. congruence.
    + intros aid. cbn. rewrite lookup_alter. case_decide; [subst aid|by left].
      destruct (r_accts r !! cid) as [e|] eqn:He; [|by left]. right; left. split; [done|].
      exists e, (x e). split_and!; [done|done|]. destruct (Hx e) as (H1 & H2 & _).
      unfold same_but_nodes_password. destruct (x e), e. cbn in *. by subst.
    + done.
    + intros t y H1 H2. cbn in H2. congruence.
    + set (r' := on_extra cid x _). exists (admins (r_db r')), (tenants (r_db r)), (wallets (r_db r)).
      split; [by destruct r as [[] ? ?] | done].
Qed.

Lemma extra_after {A} (g : AcctExtra → A) (v : A) r cid c x f : accounts_wf r →
  admins (r_db r) !! cid = Some c → g (x (extra_of r cid)) = v →
  g (extra_of (on_extra cid x (on_admin cid f r)) cid) = v.
Proof.
  intros Hwf Hc <-. assert (Hd : cid ∈ dom (r_accts r)) by (rewrite (wf_accts r Hwf); by apply elem_of_dom_2 in Hc).
  apply elem_of_dom in Hd as [e He]. unfold extra_of. cbn. by rewrite lookup_alter_eq, He.
Qed.

(** What a parent's patch does to a child's user quota: absent it is unchanged, a number
    is cut to the parent's own, and an explicit null removes the limit, whatever the
    parent's is; and a new password leaves the time of the last reset, by which old
    sessions are refused, as it was. *)
Theorem patch_sub_account_quota f who username mu mn cp h r r' : accounts_wf r →
  run_session (patch_sub_account f who username mu mn cp h) r = (Ok tt, r') →
  ∃ pid p cid c c', db_admin r who = Some (pid, p) ∧ get_admin r username = Some (cid, c) ∧
    a_parent_admin_id c = Some pid ∧ admins (r_db r') !! cid = Some c' ∧
    match mu with
    | None => a_max_users c' = a_max_users c
    | Some None => a_max_users c' = None
    | Some (Some v) => within (a_max_users c') (a_max_users p) ∧ within (a_max_users c') (Some v)
    end ∧
    (∀ v, cp = Some v → 0 ≤ a_commission_percent c' ≤ 100) ∧
    ax_hashed_password (extra_of r' cid) = default (ax_hashed_password (extra_of r cid)) h ∧
    ax_password_reset_at (extra_of r' cid) = ax_password_reset_at (extra_of r cid).
Proof.
  intros Hwf Hrun. destruct (patch_sub_account_runs f who username mu mn cp h r)
    as [[e H]|(pid & p & cid & c & x & _ & _ & Hrow & Hc & Hpar & H & Hx)]; rewrite H in Hrun; [done|].
  injection Hrun as <-. pose proof (proj1 (get_admin_some _ _ _ _ Hc)) as Hcid.
  eexists pid, p, cid, c, _. split_and!; [done..| | | | |].
  - cbn. by rewrite lookup_alter_eq, Hcid.
  - destruct mu as [[v|]|], cp; cbn; try done; (split; [apply (clamp_within _ (Some v))|]);
      destruct (a_max_users p); cbn; eexists; (split; [done|lia]).
  - intros v ->. destruct mu; cbn; lia.
  - eapply extra_after; [done | exact Hcid | apply Hx].
  - eapply extra_after; [done | exact Hcid | apply Hx].
Qed.

(** *** The start-up backfill *)
Record backfilled (l : list Z) (r r' : ResellerDB) : Prop := {
  bf_done : ∀ i, i ∈ l → ∃ a t x, admins (r_db r) !! i = Some a ∧
    admins (r_db r') !! i = Some (a <| a_tenant_id := Some t |>) ∧
    r_tenants r !! t = None ∧ r_tenants r' !! t = Some x ∧ tn_owner_admin_id x = Some i;
  bf_rest : ∀ i, i ∉ l → admins (r_db r') !! i = admins (r_db r) !! i;
  bf_tenants : r_tenants r ⊆ r_tenants r';
  bf_accts : r_accts r' = r_accts r }.

Lemma backfill_loop (l : list (Z * Admin)) : ∀ r sv,
  NoDup l.*1 → (∀ x, x ∈ l → is_Some (admins (r_db r) !! x.1)) →
  ∃ r' sv', for_each l backfill (mkSession r sv) = (Ok tt, mkSession r' sv') ∧
    (sv = r → sv' = r') ∧ backfilled l.*1 r r'.
Proof.
  induction l as [|x l IH]; intros r sv Hnd Hall; cbn [for_each fmap list_fmap].
  { exists r, sv. split_and!; [done..|]. constructor; try done. intros i Hi. by apply elem_of_nil in Hi. }
  apply NoDup_cons in Hnd as [Hx Hnd].
  destruct (backfill_runs x r sv) as (t & _ & Ho & Hrun). rewrite (bind_ok _ _ _ _ _ Hrun).
  set (k := next_key (r_tenants r)) in *. set (r1 := on_admin _ _ _).
  assert (Hk : r_tenants r !! k = None) by apply next_key_fresh.
  destruct (Hall x) as [a Ha]; [by left|].
  destruct (IH r1 r1 Hnd) as (r' & sv' & Hl & Hsv & [Hd Hr Ht Hacc]).
  { intros y Hy. cbn. rewrite lookup_alter. case_decide; [|apply Hall; by right]. subst. by rewrite Ha. }
  exists r', sv'. split_and!; [done | auto |]. constructor.
  - intros i Hi. apply elem_of_cons in Hi as [->|Hi].
    + exists a, k, t. split_and!; [done | | done | | done].
      * rewrite (Hr x.1 Hx). cbn. by rewrite lookup_alter_eq, Ha.
      * eapply lookup_weaken; [|exact Ht]. apply lookup_insert_eq.
    + destruct (Hd i Hi) as (b & t' & y & Hb & Hb' & Hn & Hy & Hoy). exists b, t', y.
      assert (i ≠ x.1) by (by intros ->). cbn in Hb, Hn. rewrite lookup_alter_ne in Hb by done.
      rewrite lookup_insert_None in Hn. destruct_and!. done.
  - intros i Hi. apply not_elem_of_cons in Hi as [Hi1 Hi2]. rewrite (Hr i Hi2). cbn. by rewrite lookup_alter_ne.
  - etrans; [|exact Ht]. cbn. by apply insert_subseteq.
  - exact Hacc.
Qed.

Lemma by_id_NoDup {A} (m : gmap Z A) : NoDup (by_id m).*1.
Proof. unfold by_id. rewrite sort_by_perm. apply NoDup_fst_map_to_list. Qed.

Lemma elem_of_by_id {A} (m : gmap Z A) i a : (i, a) ∈ by_id m ↔ m !! i = Some a.
Proof. unfold by_id. by rewrite elem_of_sort_by, elem_of_map_to_list. Qed.

(** After the start-up backfill every reseller and support account has a tenant: each that
    had none is in a new one it owns, the rest are unchanged, the reply is their
    number, and a second run finds nobody and changes nothing. *)
Theorem backfill_completes r :
  ∃ r', run_session ensure_reseller_tenants r
        = (Ok (Z.of_nat (length (filter (needs_tenant r) (by_id (admins (r_db r)))))), r') ∧
    backfilled (filter (needs_tenant r) (by_id (admins (r_db r)))).*1 r r' ∧
    run_session ensure_reseller_tenants r' = (Ok 0, r').
Proof.
  set (l := filter (needs_tenant r) (by_id (admins (r_db r)))).
  destruct (backfill_loop l r r) as (r' & sv' & Hl & Hsv & Hb).
  { eapply sublist_NoDup; [exact (by_id_NoDup (admins (r_db r))) | apply fmap_sublist, sublist_filter]. }
  { intros [i a] [_ Hin]%list_elem_of_filter. apply elem_of_by_id in Hin. by exists a. }
  rewrite (Hsv eq_refl) in Hl. exists r'. split_and!; [|done|].
  - unfold run_session, ensure_reseller_tenants. rewrite bind_gets. cbn [work]. fold l.
    by rewrite (bind_ok _ _ _ _ _ Hl).
  - assert (Hnil : filter (needs_tenant r') (by_id (admins (r_db r'))) = []).
    { destruct (filter (needs_tenant r') _) as [|[i a] l'] eqn:Hf; [done|]. exfalso.
      assert (Hin : (i, a) ∈ filter (needs_tenant r') (by_id (admins (r_db r')))) by (rewrite Hf; left).
      apply list_elem_of_filter in Hin as [Hneed Hin]. apply elem_of_by_id in Hin.
      destruct (decide (i ∈ l.*1)) as [Hi|Hi].
      - destruct (bf_done _ _ _ Hb i Hi) as (b & t & x & _ & Hb' & _). simplify_eq. unfold needs_tenant in Hneed.
        cbn in Hneed. by rewrite andb_false_r in Hneed.
      - rewrite (bf_rest _ _ _ Hb i Hi) in Hin. apply Hi. apply list_elem_of_fmap. exists (i, a). split; [done|].
        apply list_elem_of_filter. split; [|by apply elem_of_by_id].
        unfold needs_tenant, extra_of in *. by rewrite (bf_accts _ _ _ Hb) in Hneed. }
    unfold run_session, ensure_reseller_tenants. rewrite bind_gets. cbn [work]. by rewrite Hnil.
Qed.

(** *** Node scoping *)
(** The list of nodes a caller sees and the check on a single node agree: a node of the
    database is listed exactly when the ownership check passes on it. *)
Theorem scoped_nodes_agree r who i n : nodes (r_db r) !! i = Some n →
  ((i, n) ∈ scoped_nodes_query r who ↔
   run_session (assert_owns_node who n) r = (Ok tt, r)).
Proof.
  intros Hn. assert (Hin : (i, n) ∈ all_nodes r) by by apply elem_of_by_id.
  unfold assert_owns_node, run_session. rewrite bind_gets. cbn [work].
  unfold scoped_nodes_query, admin_owns_node, scope_nodes_query.
  destruct (ac_is_sudo who); [done|]. destruct (db_admin r who) as [[aid a]|].
  - destruct (admin_tenant_id r who) as [t|]; rewrite list_elem_of_filter; cbn [snd];
      case_bool_decide; split; intros; destruct_and?; done.
  - rewrite elem_of_nil. done.
Qed.

(** A rename frees the old name. *)
Lemma rename_frees_name verify now me new pw r res r' : accounts_wf r →
  run_session (change_my_username verify now me new pw) r = (Ok res, r') →
  res = ac_username me ∨ get_admin r' (ac_username me) = None.
Proof.
  intros Hwf. unfold run_session, change_my_username. destruct (ac_is_sudo me); [done|].
  set (name := lower (strip new)). destruct (negb _); [done|].
  destruct (String.eqb _ _); [intros [= <- <-]; by left|].
  rewrite bind_gets. cbn [work]. destruct (get_admin r (ac_username me)) as [[aid a]|] eqn:E; [|done].
  rewrite bind_gets. destruct (negb (verify _ _)); [done|]. rewrite bind_gets. cbn [work].
  destruct (get_admin r name) eqn:Hfree; [done|]. cbn [is_none negb]. rewrite !bind_modify.
  intros [= <- <-]. right. apply get_admin_none. intros i b Hb.
  apply get_admin_some in E as [Ha Hname]. destruct (alter_row _ _ _ _ _ Hb) as (y & Hy & ->). case_decide.
  - cbn. intros He. rewrite He in Hfree. by destruct (proj1 (get_admin_none _ _) Hfree _ _ Ha).
  - intros He. assert (aid = i) by (eapply (wf_names r Hwf); [done..|congruence]). done.
Qed.

(** Where foreign keys are enforced, the owner of a tenant cannot be deleted: the error of
    the database reaches the client as it is. *)
Lemma owner_not_deleted username aid a t x r :
  get_admin r username = Some (aid, a) → a_is_sudo a = false →
  r_tenants r !! t = Some x → tn_owner_admin_id x = Some aid →
  run_session (remove_admin_route true username) r = (Raise integrity_error, r).
Proof.
  intros Hg Hs Ht Ho. unfold run_session, remove_admin_route, get_admin_by_username.
  rewrite (bind_ok _ _ _ (aid, a) (mkSession r r)) by (rewrite bind_gets; cbn [work]; by rewrite Hg).
  cbn [snd fst]. rewrite Hs. unfold remove_admin. rewrite bind_gets. cbn [work].
  assert (admin_referenced r aid = true) as ->; [|done].
  unfold admin_referenced. rewrite !orb_true_iff. do 5 left. apply existsb_exists. exists (t, x). split.
  - by apply list_elem_of_In, elem_of_map_to_list.
  - by apply bool_decide_eq_true.
Qed.
End ResellersFacts.

(** ** Examples *)
Module ResellersExamples.
Import Quota Lifecycle Wallet Ledger Portal Rbac RbacFacts Resellers ResellersFacts.

Definition boss : Admin := mkAdmin "boss" false 0 (Some 50) (Some 1000) 0 None (Some 1) None 10.
Definition kid : Admin := mkAdmin "kid" false 0 (Some 5) None 0 None (Some 1) (Some 1) 10.
Definition stray : Admin := mkAdmin "stray" false 0 None None 0 None None None 0.

(** A reseller with one child, and an account from before tenants. *)
Definition shop : ResellerDB := mkRDB
  (empty_db <| admins := {[1 := boss; 2 := kid; 3 := stray]} |> <| tenants := {[1 := 0]} |>
            <| nodes := {[7 := mkNode (Some 1) None; 8 := mkNode None None]} |>)
  {[1 := mkAcctExtra (Some "reseller"%string) (Some 3) "hb" None;
    2 := mkAcctExtra (Some "reseller"%string) None "hk" (Some 4);
    3 := mkAcctExtra (Some "support"%string) None "hs" None]}
  {[1 := mkTenant "boss" "boss" (Some 1) true (Some 50) (Some 3)]}.

Definition the_boss : Actor := mkActor "boss" false (Some "reseller"%string).

Definition shop' : ResellerDB :=
  (run_session (add_sub_account Unreadable the_boss " pal " "h" (Some 80) None None) shop).2.

Lemma shop_wf : accounts_wf shop.
Proof.
  assert (Hrow : ∀ i a, admins (r_db shop) !! i = Some a →
    (i = 1 ∧ a = boss) ∨ (i = 2 ∧ a = kid) ∨ (i = 3 ∧ a = stray)).
  { intros i a. cbn. rewrite !lookup_insert_Some, lookup_singleton_Some. naive_solver. }
  constructor.
  - intros i j a b [[-> ->]|[[-> ->]|[-> ->]]]%Hrow [[-> ->]|[[-> ->]|[-> ->]]]%Hrow; cbn; done.
  - intros i j t u. cbn. rewrite !lookup_singleton_Some. naive_solver.
  - by vm_compute.
  - intros i [x Hx]. cbn in *. apply lookup_singleton_Some in Hx as [<- _]. by eexists.
  - intros i a t [[-> ->]|[[-> ->]|[-> ->]]]%Hrow; cbn; intros [= <-]; by eexists.
Qed.

Lemma sub_reseller_within_parent_witness :
  run_session (add_sub_account Unreadable the_boss " pal " "h" (Some 80) None None) shop = (Ok 4, shop') ∧
  get_admin shop "pal" = None.
Proof.
  assert (H : run_session (add_sub_account Unreadable the_boss " pal " "h" (Some 80) None None) shop = (Ok 4, shop'))
    by (vm_compute; reflexivity).
  split; [exact H|]. exact (proj1 (proj2 (proj2 (sub_reseller_within_parent _ _ _ _ _ _ _ _ _ _ H)))).
Defined.

(** The quota asked for is cut to the parent's, the traffic cap is not inherited and a
    second tenant was opened. *)
Example pal_row : admins (r_db shop') !! 4
  = Some (mkAdmin "pal" false 0 (Some 50) None 0 None (Some 1) (Some 1) 10)
  ∧ tn_owner_admin_id <$> r_tenants shop' !! 2 = Some (Some 4).
Proof. split; vm_compute; reflexivity. Qed.

Lemma sub_accounts_confined_witness :
  confined_to_children the_boss shop (run_session (run_op
    (PatchSub Unreadable the_boss "kid" (Some None) None (Some 140) None)) shop).2 ∧
  from_reseller the_boss (PatchSub Unreadable the_boss "kid" (Some None) None (Some 140) None) = true.
Proof. split; [apply sub_accounts_confined; reflexivity | reflexivity]. Defined.

Definition unbounded : ResellerDB :=
  (run_session (patch_sub_account Unreadable the_boss "kid" (Some None) None None (Some "new"%string)) shop).2.

Lemma patch_sub_account_quota_witness :
  ∃ pid p cid c c', db_admin shop the_boss = Some (pid, p) ∧ get_admin shop "kid" = Some (cid, c) ∧
    a_parent_admin_id c = Some pid ∧ admins (r_db unbounded) !! cid = Some c' ∧ a_max_users c' = None ∧
    ax_password_reset_at (extra_of unbounded cid) = ax_password_reset_at (extra_of shop cid).
Proof.
  assert (H : run_session (patch_sub_account Unreadable the_boss "kid" (Some None) None None (Some "new"%string)) shop
              = (Ok tt, unbounded)) by (vm_compute; reflexivity).
  destruct (patch_sub_account_quota _ _ _ _ _ _ _ _ _ shop_wf H)
    as (pid & p & cid & c & c' & H1 & H2 & H3 & H4 & H5 & _ & _ & H6).
  exists pid, p, cid, c, c'. split_and!; assumption.
Defined.

Lemma accounts_stay_well_formed_witness :
  accounts_wf (foldl (λ r o, (run_session (run_op o) r).2) shop
    [AddSub Unreadable the_boss "pal" "h" None None None; Backfill; RemoveAdmin false "kid"]).
Proof. apply accounts_stay_well_formed, shop_wf. Defined.

Lemma scoped_nodes_agree_witness :
  nodes (r_db shop) !! 7 = Some (mkNode (Some 1) None) ∧
  ((7, mkNode (Some 1) None) ∈ scoped_nodes_query shop the_boss ↔
   run_session (assert_owns_node the_boss (mkNode (Some 1) None)) shop = (Ok tt, shop)).
Proof. split; [reflexivity | apply scoped_nodes_agree; reflexivity]. Defined.

Example backfill_stray :
  (run_session ensure_reseller_tenants shop).1 = Ok 1 ∧
  a_tenant_id <$> admins (r_db (run_session ensure_reseller_tenants shop).2) !! 3 = Some (Some 2).
Proof. split; vm_compute; reflexivity. Qed.

Example slug_of_name : slugify "  My Shop!! "%string = "my-shop"%string.
Proof. vm_compute. reflexivity. Qed.

End ResellersExamples.
