(* ===== verification/LoginLimit.v ===== *)
(** * LoginLimit: failed log-ins per client address

    [app/login_limit.py]: the client address of a request, the admin allow-list,
    the budget of failed log-ins in Redis and in memory, and how the log-in
    handlers compose them.  Allow-list entries are IPv4 and already read; Redis
    is a store with expiry whose commands may fail; times are microseconds. *)
From S2P Require Import Prelude Ipv4.

Module LoginLimit.
Import Ipv4.

(** ** The client address *)

(** Header lookup does not depend on case. *)
Record Request := mkRequest {
  x_forwarded_for : option string;
  x_real_ip : option string;
  client_host : option string }.

Definition nonempty (o : option string) : option string :=
  match o with Some s => if bool_decide (s = "") then None else Some s | None => None end.

Definition comma : Ascii.ascii := Ascii.ascii_of_nat 44.

(** [s.split(",")[0].strip()] *)
Definition first_entry (s : string) : string :=
  strip (String.string_of_list_ascii (default [] (head (split_on comma (String.list_ascii_of_string s))))).

Definition get_request_client_ip (r : Request) : string :=
  match nonempty (first_entry <$> nonempty (x_forwarded_for r)) with
  | Some first => first
  | None =>
      match nonempty (strip <$> x_real_ip r) with
      | Some real => real
      | None => default "unknown" (nonempty (client_host r))
      end
  end.

(** ** The allow-list *)
Inductive AllowEntry := AllowAddress (a : Z) | AllowNetwork (n : Subnet) | Malformed.

Definition entry_allows (addr : Z) (e : AllowEntry) : bool :=
  match e with
  | AllowAddress a => addr =? a
  | AllowNetwork n => in_net (ip_network n) addr
  | Malformed => false
  end.

Definition _ip_in_allowlist (ip : string) (allowlist : list AllowEntry) : bool :=
  match ip_address ip with
  | None => false
  | Some addr => existsb (entry_allows addr) allowlist
  end.

Definition enforce_admin_ip_allowlist (client_ip : string) (allowlist : list AllowEntry) : result unit :=
  match allowlist with
  | [] => Ok tt
  | _ => if _ip_in_allowlist client_ip allowlist then Ok tt
         else Raise (HTTPException 403 "Admin access is not allowed from this IP")
  end.

(** ** The budget *)

(** A Redis key: its counter and when it expires. *)
Notation Redis := (gmap string (Z * option Z)).

Record Limiter := mkLimiter {
  attempts : gmap string (list Z);
  redis : option Redis }.            (* [None]: not configured *)

(** Which Redis commands of a call succeed. *)
Record Faults := mkFaults { get_ok : bool; incr_ok : bool; expire_ok : bool; delete_ok : bool }.

Definition too_many {A} : result A := Raise (HTTPException 429 "Too many login attempts").

Definition live_key (now : Z) (r : Redis) (k : string) : option (Z * option Z) :=
  match r !! k with
  | Some (n, Some e) => if now <? e then Some (n, Some e) else None
  | o => o
  end.

Definition redis_count (now : Z) (r : Redis) (k : string) : Z :=
  match live_key now r k with Some (n, _) => n | None => 0 end.

(** INCR keeps the expiry of a live key. *)
Definition redis_incr (now : Z) (k : string) (r : Redis) : Redis :=
  match live_key now r k with
  | Some (n, e) => <[k := (n + 1, e)]> r
  | None => <[k := (1, None)]> r
  end.

Definition redis_expire (now : Z) (k : string) (window : Z) (r : Redis) : Redis :=
  alter (λ p, (p.1, Some (now + window))) k r.

Definition recent (now window : Z) (l : list Z) : list Z := filter (λ t, now - t < window) l.

Definition enforce_memory (ip : string) (max_attempts window now : Z) (st : Limiter) : result unit * Limiter :=
  let l := recent now window (default [] (attempts st !! ip)) in
  (if max_attempts <=? Z.of_nat (length l) then too_many else Ok tt,
   mkLimiter (<[ip := l]> (attempts st)) (redis st)).

Definition enforce_login_rate_limit (f : Faults) (rq : Request) (max_attempts window now : Z) (st : Limiter)
    : result unit * Limiter :=
  let ip := get_request_client_ip rq in
  match redis st with
  | Some r => if get_ok f
              then (if max_attempts <=? redis_count now r ip then too_many else Ok tt, st)
              else enforce_memory ip max_attempts window now st
  | None => enforce_memory ip max_attempts window now st
  end.

Definition record_memory (ip : string) (window now : Z) (st : Limiter) : Limiter :=
  let l := recent now window (default [] (attempts st !! ip)) in
  mkLimiter (<[ip := l ++ [now]]> (attempts st)) (redis st).

Definition record_login_failure (f : Faults) (rq : Request) (window now : Z) (st : Limiter) : Limiter :=
  let ip := get_request_client_ip rq in
  match redis st with
  | Some r =>
      if negb (incr_ok f) then record_memory ip window now st
      else
        let r := redis_incr now ip r in
        let st := mkLimiter (attempts st) (Some r) in
        if redis_count now r ip =? 1 then
          if expire_ok f then mkLimiter (attempts st) (Some (redis_expire now ip window r))
          else record_memory ip window now st
        else st
  | None => record_memory ip window now st
  end.

Definition clear_login_failures (f : Faults) (rq : Request) (st : Limiter) : Limiter :=
  let ip := get_request_client_ip rq in
  mkLimiter (delete ip (attempts st))
    (match redis st with
     | Some r => Some (if delete_ok f then delete ip r else r)
     | None => None
     end).

(** A log-in handler: the limit, then the password, then the bookkeeping.  The
    answer says whether the password was looked at, and accepted. *)
Definition login (f : Faults) (max_attempts window now : Z) (rq : Request) (password_ok : bool) (st : Limiter)
    : result bool * Limiter :=
  match enforce_login_rate_limit f rq max_attempts window now st with
  | (Raise e, st) => (Raise e, st)
  | (Ok _, st) => if password_ok then (Ok true, clear_login_failures f rq st)
                  else (Ok false, record_login_failure f rq window now st)
  end.
End LoginLimit.

(** ** Facts *)
Module LoginLimitFacts.
Import Ipv4 Ipv4Facts LoginLimit.

(** *** The budget, in memory *)

(** What the budget should be: a log of the password checks of an address, the times of
    the failures since the last success. *)
Record Check := mkCheck { ck_time : Z; ck_ip : string; ck_ok : bool }.

Definition open_failures (ip : string) (h : list Check) : list Z :=
  foldl (λ acc c, if bool_decide (ck_ip c = ip) then (if ck_ok c then [] else acc ++ [ck_time c]) else acc) [] h.

Record Try := mkTry { tr_now : Z; tr_request : Request; tr_password_ok : bool }.

(** A run of log-ins: the limiter and the log of the checks. *)
Definition try_step (f : Faults) (max_attempts window : Z) (s : Limiter * list Check) (t : Try)
    : Limiter * list Check :=
  match login f max_attempts window (tr_now t) (tr_request t) (tr_password_ok t) s.1 with
  | (Ok good, st) => (st, s.2 ++ [mkCheck (tr_now t) (get_request_client_ip (tr_request t)) good])
  | (Raise _, st) => (st, s.2)
  end.

Lemma recent_recent now now' w l : now ≤ now' → recent now' w (recent now w l) = recent now' w l.
Proof.
  intros H. unfold recent. rewrite list_filter_filter_l; [done|]. intros t. lia.
Qed.

Lemma recent_app now w l l' : recent now w (l ++ l') = recent now w l ++ recent now w l'.
Proof. apply filter_app. Qed.

Lemma open_failures_snoc ip h c :
  open_failures ip (h ++ [c])
  = if bool_decide (ck_ip c = ip) then (if ck_ok c then [] else open_failures ip h ++ [ck_time c])
    else open_failures ip h.
Proof. unfold open_failures. by rewrite foldl_app. Qed.

(** The limiter remembers the failures that still count, from [now] on. *)
Definition remembers (w now : Z) (s : Limiter * list Check) : Prop :=
  redis s.1 = None ∧
  ∀ ip now', now ≤ now' →
    recent now' w (default [] (attempts s.1 !! ip)) = recent now' w (open_failures ip s.2).

Lemma remembers_step f m w now s t :
  remembers w now s → now ≤ tr_now t → remembers w (tr_now t) (try_step f m w s t).
Proof.
  intros [Hr H] Hle. set (ip0 := get_request_client_ip (tr_request t)).
  set (l0 := recent (tr_now t) w (default [] (attempts s.1 !! ip0))).
  assert (Hl : ∀ ip now', tr_now t ≤ now' →
    recent now' w (default [] (<[ip0 := l0]> (attempts s.1) !! ip)) = recent now' w (open_failures ip s.2)).
  { intros ip now' Hn. destruct (decide (ip = ip0)) as [->|].
    - rewrite lookup_insert_eq, default_Some. unfold l0. rewrite recent_recent by done. apply H. lia.
    - rewrite lookup_insert_ne by done. apply H. lia. }
  unfold try_step, login, enforce_login_rate_limit. rewrite Hr. unfold enforce_memory. fold ip0. fold l0.
  destruct (m <=? Z.of_nat (length l0)); [by split; [|exact Hl]|].
  destruct (tr_password_ok t).
  - split; [cbn; by rewrite Hr|]. intros ip now' Hn. cbn [fst snd]. rewrite open_failures_snoc. cbn [ck_ip ck_ok].
    unfold clear_login_failures. cbn [attempts]. fold ip0. case_bool_decide as E.
    + subst ip. by rewrite lookup_delete_eq.
    + rewrite lookup_delete_ne by done. by apply Hl.
  - unfold record_login_failure. cbn [redis]. rewrite Hr. fold ip0. split; [done|]. intros ip now' Hn. cbn [fst snd].
    rewrite open_failures_snoc. cbn [ck_ip ck_ok ck_time]. unfold record_memory. cbn [attempts].
    case_bool_decide as E.
    + subst ip. rewrite !lookup_insert_eq, !default_Some, !recent_app. f_equal. unfold l0.
      rewrite !recent_recent by done. apply H. lia.
    + rewrite lookup_insert_ne by done. by apply Hl.
Qed.

(** Clock readings of a run that started at [now0]. *)
Fixpoint in_order (now0 : Z) (ts : list Try) : Prop :=
  match ts with [] => True | t :: ts => now0 ≤ tr_now t ∧ in_order (tr_now t) ts end.

Definition last_time (now0 : Z) (ts : list Try) : Z := foldl (λ _ t, tr_now t) now0 ts.

Lemma remembers_run f m w ts now s :
  remembers w now s → in_order now ts → remembers w (last_time now ts) (foldl (try_step f m w) s ts).
Proof.
  revert now s. induction ts as [|t ts IH]; intros now s Hs Ho; [done|]. destruct Ho as [Hn Ho]. cbn.
  apply IH; [|done]. by apply (remembers_step f m w now).
Qed.

(** C39. The budget of the in-memory limiter (no Redis configured) is exact when the
    clock does not run backwards: after any sequence of log-ins from any addresses, a request
    is let through to the password check if and only if its address has fewer than
    [max_attempts] failures in the last [window] since its last success. *)
Theorem login_limit_exact f m w ts now0 now rq :
  in_order now0 ts → last_time now0 ts ≤ now →
  let s := foldl (try_step f m w) (mkLimiter ∅ None, []) ts in
  is_ok (enforce_login_rate_limit f rq m w now s.1).1 = true
  ↔ Z.of_nat (length (recent now w (open_failures (get_request_client_ip rq) s.2))) < m.
Proof.
  intros Ho Hn s. destruct (remembers_run f m w ts now0 (mkLimiter ∅ None, [])) as [Hr H]; [|done|].
  { split; [done|]. intros ip now' _. cbn. by rewrite lookup_empty. }
  fold s in Hr, H. unfold enforce_login_rate_limit. rewrite Hr. unfold enforce_memory. cbn [fst].
  rewrite (H _ now) by done.
  destruct (Z.leb_spec m (Z.of_nat (length (recent now w (open_failures (get_request_client_ip rq) s.2)))));
    cbn; split; (done || lia).
Qed.

(** *** Behind the proxy *)

(** The panel's nginx appends the peer's address to the header the client sent
    ([$proxy_add_x_forwarded_for]). *)
Definition proxied (sent remote : string) : Request :=
  mkRequest (Some (String.append sent (String.append ", " remote))) (Some remote) (Some "172.17.0.1").

Lemma chars_append a b :
  String.list_ascii_of_string (String.append a b) = String.list_ascii_of_string a ++ String.list_ascii_of_string b.
Proof. induction a as [|c a IH]; [done|]. exact (f_equal (cons c) IH). Qed.

Lemma ip_chars_plain_comma a : plain comma (ip_chars a) = true.
Proof.
  assert (H : ∀ k, plain comma (octet_chars (octet k a)) = true).
  { intros k. apply (octet_check (λ n, plain comma (octet_chars n))); [by vm_compute|apply octet_range]. }
  unfold ip_chars, plain in *. rewrite !forallb_app. cbn. by rewrite !forallb_app, !H; cbn; rewrite !forallb_app, !H; cbn; rewrite !H.
Qed.

Lemma proxied_ip a remote : get_request_client_ip (proxied (ip_str a) remote) = ip_str a.
Proof.
  unfold get_request_client_ip, proxied. cbn [x_forwarded_for].
  assert (Hne : String.append (ip_str a) (String.append ", " remote) ≠ "").
  { pose proof (ip_str_nonempty a). by destruct (ip_str a). }
  cbn [nonempty]. rewrite bool_decide_false by done. cbn [fmap option_fmap option_map nonempty].
  assert (first_entry (String.append (ip_str a) (String.append ", " remote)) = ip_str a) as ->.
  { unfold first_entry. rewrite chars_append. unfold ip_str at 1.
    rewrite String.list_ascii_of_string_of_list_ascii.
    change (String.list_ascii_of_string (String.append ", " remote))
      with (comma :: String.list_ascii_of_string (String.append " " remote)).
    rewrite split_on_app by apply ip_chars_plain_comma. cbn [head default]. apply strip_ip. }
  by rewrite bool_decide_false by apply ip_str_nonempty.
Qed.

(** A client chooses its own address: behind the panel's proxy the address is the
    first entry of a header the client sends, so any client passes the admin
    allow-list by naming an allowed address, and starts with a full budget by
    naming one that has not failed. *)
Theorem forged_header_bypasses_limits allow a remote f m w now st :
  0 ≤ a < 2 ^ 32 → existsb (entry_allows a) allow = true →
  redis st = None → attempts st !! ip_str a = None → 0 < m →
  let rq := proxied (ip_str a) remote in
  enforce_admin_ip_allowlist (get_request_client_ip rq) allow = Ok tt
  ∧ (enforce_login_rate_limit f rq m w now st).1 = Ok tt.
Proof.
  intros Ha He Hr Hs Hm rq. unfold rq. rewrite proxied_ip. split.
  - unfold enforce_admin_ip_allowlist, _ip_in_allowlist. rewrite (ip_address_str a Ha), He. by destruct allow.
  - unfold enforce_login_rate_limit. rewrite Hr, proxied_ip. unfold enforce_memory. rewrite Hs.
    change (recent now w (default [] None)) with (@nil Z). cbn [fst].
    change (Z.of_nat (length (@nil Z))) with 0. by rewrite (proj2 (Z.leb_gt m 0)) by lia.
Qed.

(** *** Redis *)

Lemma incr_no_expiry f rq w now st r n :
  redis st = Some r → r !! get_request_client_ip rq = Some (n, None) → 1 ≤ n → incr_ok f = true →
  ∃ r', redis (record_login_failure f rq w now st) = Some r' ∧ r' !! get_request_client_ip rq = Some (n + 1, None).
Proof.
  intros Hr Hn Hle Hi. set (ip := get_request_client_ip rq) in *. exists (<[ip := (n + 1, None)]> r).
  rewrite lookup_insert_eq. split; [|done]. unfold record_login_failure. fold ip. rewrite Hr, Hi. cbn [negb].
  assert (Hk : live_key now r ip = Some (n, None)) by (unfold live_key; by rewrite Hn).
  unfold redis_incr. rewrite Hk. unfold redis_count, live_key. rewrite lookup_insert_eq.
  by destruct (Z.eqb_spec (n + 1) 1); [lia|].
Qed.

(** When EXPIRE fails after the first INCR the counter never expires: once the budget is
    used up the address is refused at every later time. *)
Theorem counter_without_expiry_locks_for_good f f' rq m w now now' st r (later : list Z) :
  redis st = Some r → live_key now r (get_request_client_ip rq) = None →
  incr_ok f = true → expire_ok f = false → incr_ok f' = true → get_ok f' = true →
  m ≤ 1 + Z.of_nat (length later) →
  (enforce_login_rate_limit f' rq m w now'
     (foldl (λ s t, record_login_failure f' rq w t s) (record_login_failure f rq w now st) later)).1 = too_many.
Proof.
  intros Hr Hk Hi He Hi' Hg Hm. set (ip := get_request_client_ip rq) in *.
  assert (Hst : redis (record_login_failure f rq w now st) = Some (<[ip := (1, None)]> r)).
  { unfold record_login_failure. fold ip. rewrite Hr, Hi. cbn [negb]. unfold redis_incr. rewrite Hk.
    unfold redis_count, live_key. rewrite lookup_insert_eq. cbn. by rewrite He. }
  assert (Hrun : ∀ l s n, 1 ≤ n → (∃ r', redis s = Some r' ∧ r' !! ip = Some (n, None)) →
    ∃ r', redis (foldl (λ s t, record_login_failure f' rq w t s) s l) = Some r'
        ∧ r' !! ip = Some (n + Z.of_nat (length l), None)).
  { induction l as [|t l IH]; intros s n Hn (r' & H1 & H2); cbn [foldl length].
    - exists r'. split; [done|]. by rewrite Z.add_0_r.
    - destruct (IH _ (n + 1) ltac:(lia) (incr_no_expiry f' rq w t s r' n H1 H2 Hn Hi')) as (r2 & ? & E).
      exists r2. split; [done|]. rewrite E. do 2 f_equal. lia. }
  destruct (Hrun later (record_login_failure f rq w now st) 1 ltac:(lia)) as (r' & H1 & H2).
  { exists (<[ip := (1, None)]> r). by rewrite lookup_insert_eq. }
  unfold enforce_login_rate_limit. fold ip. rewrite H1, Hg. unfold redis_count, live_key. rewrite H2.
  cbn [fst]. by rewrite (proj2 (Z.leb_le _ _) Hm).
Qed.
End LoginLimitFacts.

(** ** Concrete runs *)
Module LoginLimitExamples.
Import Ipv4 LoginLimit LoginLimitFacts.

Definition sound : Faults := mkFaults true true true true.
Definition rq0 : Request := mkRequest (Some "203.0.113.7, 10.0.0.1") None None.
Definition fails (n : nat) : list Try := map (λ i, mkTry (Z.of_nat i) rq0 false) (seq 0 n).

(** Ten failures lock the address out; one window later it is free again. *)
Lemma login_limit_exact_witness :
  let s := foldl (try_step sound 10 900) (mkLimiter ∅ None, []) (fails 12) in
  is_ok (enforce_login_rate_limit sound rq0 10 900 20 s.1).1 = false
  ∧ is_ok (enforce_login_rate_limit sound rq0 10 900 950 s.1).1 = true.
Proof.
  split.
  - apply not_true_is_false. rewrite (login_limit_exact sound 10 900 (fails 12) 0 20 rq0);
      [vm_compute; discriminate|vm_compute; intuition discriminate|vm_compute; discriminate].
  - apply (login_limit_exact sound 10 900 (fails 12) 0 950 rq0);
      [vm_compute; intuition discriminate|vm_compute; discriminate|vm_compute; reflexivity].
Defined.

(** Only 192.0.2.1 is allowed; a client at 198.51.100.9 gets in. *)
Lemma forged_header_bypasses_limits_witness :
  enforce_admin_ip_allowlist (get_request_client_ip (proxied (ip_str 3221225985) "198.51.100.9"))
    [AllowAddress 3221225985] = Ok tt.
Proof.
  apply (forged_header_bypasses_limits [AllowAddress 3221225985] 3221225985 "198.51.100.9" sound 10 900 0 (mkLimiter ∅ None));
    [lia|reflexivity|reflexivity|reflexivity|lia].
Defined.
End LoginLimitExamples.
