(* ===== verification/FamilyGuard.v ===== *)
(** * FamilyGuard: parental controls of an account

    [app/family_guard/policy.py] (the stored controls and their normalisation),
    [app/family_guard/schedule.py] (windows, daily minutes, pauses),
    [jobs/family_guard_enforce.py] and the PIN-protected update of
    [routers/portal.py], with what [disconnect_users_everywhere] of [quota.py]
    does with its argument.

    The JSON of [User.family_controls] is a record with its fields; the local
    clock of the account's time zone ([ZoneInfo]) is a reading [Local]. *)
From S2P Require Import Prelude Ipv4 Base64.

Module FamilyGuard.
Import Base64.
Import Ipv4(split_on).

(** ** [policy.py] *)
Notation Window := (string * string)%type (only parsing).

Record Schedule := mkSchedule {
  sc_tz : string;
  sc_windows : gmap Z (list (string * string));    (* by ISO weekday *)
  sc_daily_minutes : option Z }.
#[export] Instance eta_Schedule : Eta Schedule := λ s,
  mkSchedule (sc_tz s) (sc_windows s) (sc_daily_minutes s).

Record Runtime := mkRuntime {
  rt_day : option string;
  rt_used_seconds : Z;
  rt_schedule_blocked : bool;
  rt_block_reason : option string }.
#[export] Instance eta_Runtime : Eta Runtime := λ r,
  mkRuntime (rt_day r) (rt_used_seconds r) (rt_schedule_blocked r) (rt_block_reason r).

Record Controls := mkControls {
  fc_enabled : bool;
  fc_block_adult : bool;
  fc_block_ads : bool;
  fc_services : list string;
  fc_custom_domains : list string;
  fc_schedule : Schedule;
  fc_pause_until : option Z;
  fc_runtime : Runtime;
  fc_pin_hash : option string }.
#[export] Instance eta_Controls : Eta Controls := λ c,
  mkControls (fc_enabled c) (fc_block_adult c) (fc_block_ads c) (fc_services c) (fc_custom_domains c)
    (fc_schedule c) (fc_pause_until c) (fc_runtime c) (fc_pin_hash c).

#[export] Instance Schedule_eq_dec : EqDecision Schedule.
Proof. solve_decision. Defined.
#[export] Instance Runtime_eq_dec : EqDecision Runtime.
Proof. solve_decision. Defined.
#[export] Instance Controls_eq_dec : EqDecision Controls.
Proof. solve_decision. Defined.

Definition no_windows : gmap Z (list (string * string)) :=
  list_to_map (map (λ i, (i, [])) [1; 2; 3; 4; 5; 6; 7]).

Definition default_controls : Controls :=
  mkControls false false false [] [] (mkSchedule "Asia/Tehran" no_windows None) None
    (mkRuntime None 0 false None) None.

(** *** Domains *)
(** [s.replace(p, "")]; the fuel is the length of the text. *)
Fixpoint remove_all (fuel : nat) (p l : list Ascii.ascii) : list Ascii.ascii :=
  match fuel, l with
  | S n, c :: l' => if is_prefix p l then remove_all n p (drop (length p) l) else c :: remove_all n p l'
  | _, _ => l
  end.
Definition replace_empty (p : string) (l : list Ascii.ascii) : list Ascii.ascii :=
  remove_all (length l) (chars p) l.

Definition before (c : Z) (l : list Ascii.ascii) : list Ascii.ascii :=
  default [] (head (split_on (of_byte c) l)).

Fixpoint lstrip_dots (l : list Ascii.ascii) : list Ascii.ascii :=
  match l with c :: l' => if Ascii.eqb c (of_byte 46) then lstrip_dots l' else l | [] => [] end.

Definition unprefix (p : string) (l : list Ascii.ascii) : list Ascii.ascii :=
  if is_prefix (chars p) l then drop (length (chars p)) l else l.

Definition label_char (c : Ascii.ascii) : bool :=
  let n := byte_of c in
  in_range 97 122 n || in_range 65 90 n || in_range 48 57 n || (n =? 45).

(** [$] also matches before a final newline. *)
Definition drop_newline (l : list Ascii.ascii) : list Ascii.ascii :=
  match rev l with c :: r => if Ascii.eqb c (of_byte 10) then rev r else l | [] => [] end.

Definition domain_re (l : list Ascii.ascii) : bool :=
  let l := drop_newline l in
  let labels := split_on (of_byte 46) l in
  (1 <=? length l)%nat && (length l <=? 253)%nat
  && negb (is_prefix [of_byte 45] l)
  && (2 <=? length labels)%nat
  && forallb (λ w, negb (bool_decide (w = [])) && forallb label_char w) labels.

Definition _parse_domain (raw : string) : option string :=
  let s := chars (lower (strip raw)) in
  if bool_decide (s = []) then None
  else
    let s := replace_empty "http://" (replace_empty "https://" s) in
    let s := before 35 (before 63 (before 47 s)) in
    let s := unprefix "*." s in
    let s := unprefix "www." (lstrip_dots s) in
    if domain_re s then Some (text s) else None.

(** *** Windows *)
Definition digit_upto (hi : Z) (c : Ascii.ascii) : bool := in_range 48 (48 + hi) (byte_of c).
Definition colon : Ascii.ascii := of_byte 58.

(** [^([01]?\d|2[0-3]):([0-5]\d)$] *)
Definition time_re (s : string) : bool :=
  match chars s with
  | [h; c; m; n] => digit_upto 9 h && Ascii.eqb c colon && digit_upto 5 m && digit_upto 9 n
  | [g; h; c; m; n] =>
      ((digit_upto 1 g && digit_upto 9 h) || (Ascii.eqb g (of_byte 50) && digit_upto 3 h))
      && Ascii.eqb c colon && digit_upto 5 m && digit_upto 9 n
  | _ => false
  end.

(** A value of the request: a list of pairs, or something else. *)
Notation RawWindows := (list (string * option (list (list string)))).

Definition clean_pair (pair : list string) : option (string * string) :=
  match pair with
  | [a; b] => let start := strip a in let stop := strip b in
              if time_re start && time_re stop then Some (start, stop) else None
  | _ => None
  end.

Definition _normalize_windows (raw : option RawWindows) : gmap Z (list (string * string)) :=
  match raw with
  | None => no_windows
  | Some raw =>
      foldl (λ out kv,
        match parse_int kv.1 with
        | None => out
        | Some day =>
            if (day <? 1) || (7 <? day) then out
            else <[day := match kv.2 with Some l => omap clean_pair l | None => [] end]> out
        end) no_windows raw
  end.

(** *** Merging a request *)

(** The request: an outer [None] is a field that was not sent, an inner [None] one of
    the wrong type ([null] included). *)
Record SchedulePatch := mkSchedulePatch {
  ps_tz : option (option string);
  ps_windows : option (option RawWindows);
  ps_daily_minutes : option (option Z) }.

Record Patch := mkPatch {
  pa_enabled : option bool;
  pa_block_adult : option bool;
  pa_block_ads : option bool;
  pa_services : option (option (list string));
  pa_custom_domains : option (option (list string));
  pa_schedule : option (option SchedulePatch) }.

Definition pick_services (catalog : list string) (l : list string) : list string :=
  foldl (λ acc sid, let key := lower (strip sid) in
           if bool_decide (key ∈ catalog) && negb (bool_decide (key ∈ acc)) then acc ++ [key] else acc) [] l.

Fixpoint pick_domains (acc : list string) (l : list string) : list string :=
  match l with
  | [] => acc
  | raw :: l =>
      let acc := match _parse_domain raw with
                 | Some d => if bool_decide (d ∈ acc) then acc else acc ++ [d]
                 | None => acc
                 end in
      if (500 <=? length acc)%nat then acc else pick_domains acc l
  end.

Definition merge_schedule (p : SchedulePatch) (s : Schedule) : Schedule :=
  let s := match ps_tz p with
           | Some (Some z) => if bool_decide (strip z = "") then s
                              else s <| sc_tz := String.substring 0 64 (strip z) |>
           | _ => s
           end in
  let s := if_some (ps_windows p) (λ w s, s <| sc_windows := _normalize_windows w |>) s in
  if_some (ps_daily_minutes p) (λ dm s,
    s <| sc_daily_minutes := if or0 dm <=? 0 then None else Some (Z.min (24 * 60) (Z.max 1 (or0 dm))) |>) s.

Definition merge_controls (catalog : list string) (existing : option Controls) (p : Patch) : Controls :=
  let c := default default_controls existing in
  let c := if_some (pa_enabled p) (λ b c, c <| fc_enabled := b |>) c in
  let c := if_some (pa_block_adult p) (λ b c, c <| fc_block_adult := b |>) c in
  let c := if_some (pa_block_ads p) (λ b c, c <| fc_block_ads := b |>) c in
  let c := match pa_services p with
           | Some (Some l) => c <| fc_services := pick_services catalog l |> | _ => c end in
  let c := match pa_custom_domains p with
           | Some (Some l) => c <| fc_custom_domains := pick_domains [] l |> | _ => c end in
  match pa_schedule p with
  | Some (Some sp) => c <| fc_schedule := merge_schedule sp (fc_schedule c) |>
  | _ => c
  end.

(** [now] is [int(datetime.utcnow().timestamp())]. *)
Definition is_pause_active (now : Z) (c : Controls) : bool :=
  match fc_pause_until c with Some t => negb (t =? 0) && (now <? t) | None => false end.

(** ** [schedule.py] *)
Record Local := mkLocal { lo_weekday : Z; lo_minute : Z; lo_day : string }.

(** [h, m = value.split(":")], [None] for the [ValueError]. *)
Definition _parse_hm (value : string) : option (Z * Z) :=
  match split_on colon (chars value) with
  | [h; m] => match parse_int (text h), parse_int (text m) with
              | Some h, Some m => Some (h, m) | _, _ => None end
  | _ => None
  end.

Definition window_open (minutes : Z) (w : string * string) : bool :=
  match _parse_hm w.1, _parse_hm w.2 with
  | Some (sh, sm), Some (eh, em) =>
      let start := sh * 60 + sm in
      let stop := eh * 60 + em in
      if start =? stop then false
      else if start <? stop then (start <=? minutes) && (minutes <? stop)
      else (start <=? minutes) || (minutes <? stop)
  | _, _ => false
  end.

Definition within_windows (now_local : Local) (windows : list (string * string)) : bool :=
  match windows with [] => true | _ => existsb (window_open (lo_minute now_local)) windows end.

Definition evaluate_access (now : Z) (now_local : Local) (c : Controls) : bool * option string :=
  if negb (fc_enabled c) then (true, None)
  else if is_pause_active now c then (true, None)
  else
    let sched := fc_schedule c in
    let windows := default [] (sc_windows sched !! lo_weekday now_local) in
    let any_windows := existsb (λ p, negb (bool_decide (p.2 = []))) (map_to_list (sc_windows sched)) in
    if any_windows && negb (within_windows now_local windows) then (false, Some "outside_schedule")
    else match sc_daily_minutes sched with
         | Some daily =>
             if (0 <? daily) && bool_decide (rt_day (fc_runtime c) = Some (lo_day now_local))
                && (daily * 60 <=? rt_used_seconds (fc_runtime c))
             then (false, Some "daily_limit") else (true, None)
         | None => (true, None)
         end.

Definition tick_usage (now : Z) (now_local : Local) (online : bool) (interval_seconds : Z) (c : Controls) : Controls :=
  let r := fc_runtime c in
  let r := if bool_decide (rt_day r = Some (lo_day now_local)) then r
           else r <| rt_day := Some (lo_day now_local) |> <| rt_used_seconds := 0 |> in
  let r := if online && fc_enabled c && negb (is_pause_active now c)
           then r <| rt_used_seconds := rt_used_seconds r + Z.max 0 interval_seconds |> else r in
  c <| fc_runtime := r |>.

Definition set_block_state (blocked : bool) (reason : option string) (c : Controls) : Controls :=
  let r := fc_runtime c in
  let r := r <| rt_schedule_blocked := blocked |> <| rt_block_reason := if blocked then reason else None |> in
  c <| fc_runtime := r |>.

Definition pause_for (now minutes : Z) (c : Controls) : Controls :=
  set_block_state false None (c <| fc_pause_until := Some (now + Z.max 1 minutes * 60) |>).

(** ** [quota.disconnect_users_everywhere], what it reads of its argument *)

(** A row object, or a bare id, on which attribute access raises. *)
Inductive Arg := Row (id : Z) (username : string) | BareId (id : Z).

Definition arg_row (a : Arg) : option (Z * string) :=
  match a with Row i u => Some (i, u) | BareId _ => None end.

(** Main core: the set of emails is built first, so one bad argument raises before any
    removal ([except Exception] around the call). *)
Definition cut_on_core (core_up : bool) (args : list Arg) : list Z :=
  if core_up then match all_some (map arg_row args) with Some l => l.*1 | None => [] end else [].

(** WireGuard: peers are switched off one by one; the log call in the inner handler
    raises again on a bad argument and ends the loop. *)
Fixpoint peers_off (args : list Arg) : list Z :=
  match args with
  | Row i _ :: args => i :: peers_off args
  | _ => []
  end.

(** ** [jobs/family_guard_enforce.py] *)
Definition _JOB_INTERVAL_SEC : Z := 60.
Definition _ONLINE_FRESH_SEC : Z := 180.

Record FamilyUser := mkFamilyUser {
  fu_id : Z;
  fu_username : string;
  fu_served : bool;                  (* status active or on_hold *)
  fu_online_at : option Z;
  fu_controls : option Controls }.
#[export] Instance eta_FamilyUser : Eta FamilyUser := λ u,
  mkFamilyUser (fu_id u) (fu_username u) (fu_served u) (fu_online_at u) (fu_controls u).

Definition _is_online (now : Z) (u : FamilyUser) : bool :=
  match fu_online_at u with Some t => now - t <=? _ONLINE_FRESH_SEC | None => false end.

(** One row: the new row, and whether it is to be cut or restored. *)
Definition enforce_row (now : Z) (local : string → Local) (u : FamilyUser) : FamilyUser * bool * bool :=
  match fu_controls u with
  | Some c =>
      if negb (fu_served u) || negb (fc_enabled c) then (u, false, false)
      else
        let lt := local (sc_tz (fc_schedule c)) in
        let updated := tick_usage now lt (_is_online now u) _JOB_INTERVAL_SEC c in
        let '(allowed, reason) := evaluate_access now lt updated in
        let was_blocked := rt_schedule_blocked (fc_runtime c) in
        (u <| fu_controls := Some (set_block_state (negb allowed) reason updated) |>,
         negb allowed && negb was_blocked, allowed && was_blocked)
  | None => (u, false, false)
  end.

Record Enforced := mkEnforced {
  en_rows : list FamilyUser;
  en_to_disconnect : list Z;
  en_to_restore : list Z;
  en_cut : list Z;               (* removed from the main core *)
  en_peers_off : list Z }.       (* WireGuard peers switched off *)

Definition enforce_family_guard (now : Z) (local : string → Local) (core_up : bool) (rows : list FamilyUser)
    : Enforced :=
  let out := map (enforce_row now local) rows in
  let cut := map (λ p, fu_id (fst (fst p))) (List.filter (λ p, snd (fst p)) out) in
  let back := map (λ p, fu_id (fst (fst p))) (List.filter (λ p, snd p) out) in
  let args := map BareId cut in
  mkEnforced (map (λ p, fst (fst p)) out) cut back (cut_on_core core_up args) (peers_off args).

(** ** The portal's update *)
Definition _verify_family_pin (verify : string → string → bool) (c : option Controls) (pin : option string)
    : result unit :=
  match c ≫= fc_pin_hash with
  | None => Ok tt
  | Some h =>
      match pin with
      | Some p => if bool_decide (p = "") || negb (verify p h) then Raise (HTTPException 403 "PIN") else Ok tt
      | None => Raise (HTTPException 403 "PIN")
      end
  end.

Record PutBody := mkPutBody {
  pb_patch : Patch;
  pb_pin : option string;
  pb_new_pin : option string;
  pb_clear_pin : bool;
  pb_pause_minutes : option Z }.

Definition pin_ok (pin : string) : bool :=
  forallb is_digit (chars pin) && (4 <=? length (chars pin))%nat && (length (chars pin) <=? 8)%nat.

Definition put_family_controls (verify : string → string → bool) (hash : string → string)
    (catalog : list string) (now : Z) (local : string → Local) (b : PutBody) (existing : option Controls)
    : result Controls :=
  match _verify_family_pin verify existing (pb_pin b) with
  | Raise e => Raise e
  | Ok _ =>
      let merged := merge_controls catalog existing (pb_patch b) in
      let merged := match pb_pause_minutes b with
                    | Some m => if m =? 0 then merged else pause_for now m merged
                    | None => merged
                    end in
      let with_pin :=
        if pb_clear_pin b then Ok (merged <| fc_pin_hash := None |>)
        else match pb_new_pin b with
             | Some raw => if bool_decide (raw = "") then Ok merged
                           else if pin_ok (strip raw) then Ok (merged <| fc_pin_hash := Some (hash (strip raw)) |>)
                           else Raise (HTTPException 400 "PIN must be 4–8 digits")
             | None => Ok merged
             end in
      match with_pin with
      | Raise e => Raise e
      | Ok merged =>
          let '(allowed, reason) := evaluate_access now (local (sc_tz (fc_schedule merged))) merged in
          Ok (set_block_state (negb allowed) reason merged)
      end
  end.
End FamilyGuard.

(** ** Facts *)
Module FamilyGuardFacts.
Import Base64 Base64Facts FamilyGuard.
Import Ipv4(split_on).

(** *** Reading a time *)
Definition digit_chars : list Ascii.ascii := map (λ n, of_byte (48 + n)) (seqZ 0 10).

Lemma digit_upto_elem hi c : hi ≤ 9 → digit_upto hi c = true →
  ∃ d, 0 ≤ d ≤ hi ∧ c = of_byte (48 + d).
Proof.
  intros Hhi H. unfold digit_upto, in_range in H. apply andb_true_iff in H as [H1%Z.leb_le H2%Z.leb_le].
  exists (byte_of c - 48). split; [lia|]. replace (48 + (byte_of c - 48)) with (byte_of c) by lia.
  symmetry. apply of_byte_of.
Qed.

Lemma digit_In d : 0 ≤ d ≤ 9 → In d (seqZ 0 10).
Proof. intros H. apply list_elem_of_In, elem_of_seqZ. lia. Qed.

(** One and two digits, checked over all of them. *)
Definition reads_one (d : Z) : bool := bool_decide (parse_int (text [of_byte (48 + d)]) = Some d).
Definition reads_two (d e : Z) : bool :=
  bool_decide (parse_int (text [of_byte (48 + d); of_byte (48 + e)]) = Some (10 * d + e)).

Lemma reads_one_ok d : 0 ≤ d ≤ 9 → parse_int (text [of_byte (48 + d)]) = Some d.
Proof.
  intros H. assert (Hall : forallb reads_one (seqZ 0 10) = true) by (vm_compute; reflexivity).
  rewrite forallb_forall in Hall. apply (bool_decide_eq_true_1 _ (Hall d (digit_In d H))).
Qed.

Lemma reads_two_ok d e : 0 ≤ d ≤ 9 → 0 ≤ e ≤ 9 →
  parse_int (text [of_byte (48 + d); of_byte (48 + e)]) = Some (10 * d + e).
Proof.
  intros Hd He.
  assert (Hall : forallb (λ d, forallb (reads_two d) (seqZ 0 10)) (seqZ 0 10) = true) by (vm_compute; reflexivity).
  rewrite forallb_forall in Hall. pose proof (Hall d (digit_In d Hd)) as H.
  rewrite forallb_forall in H. apply (bool_decide_eq_true_1 _ (H e (digit_In e He))).
Qed.

Lemma digit_not_colon d : 0 ≤ d ≤ 9 → of_byte (48 + d) ≠ colon.
Proof. intros H E. apply (f_equal byte_of) in E. unfold colon in E. rewrite !byte_of_byte in E; lia. Qed.

Lemma split_colon_cons c l : c ≠ colon →
  split_on colon (c :: l) = match split_on colon l with [] => [[c]] | w :: ws => (c :: w) :: ws end.
Proof. intros H. cbn. by rewrite bool_decide_false. Qed.

Lemma split_colon_here l : split_on colon (colon :: l) = [] :: split_on colon l.
Proof. cbn. by rewrite bool_decide_true. Qed.

(** A time the policy accepts is one the schedule can read. *)
Lemma time_re_parses s : time_re s = true → ∃ h m, _parse_hm s = Some (h, m) ∧ 0 ≤ h < 24 ∧ 0 ≤ m < 60.
Proof.
  unfold time_re, _parse_hm. destruct (chars s) as [|a [|b [|c [|d [|e [|? ?]]]]]]; try done; intros H.
  - apply andb_true_iff in H as [[[Ha Hb]%andb_true_iff Hc]%andb_true_iff Hd].
    apply Ascii.eqb_eq in Hb as ->. apply digit_upto_elem in Ha as (x & Hx & ->); [|lia].
    apply digit_upto_elem in Hc as (y & Hy & ->); [|lia]. apply digit_upto_elem in Hd as (z & Hz & ->); [|lia].
    pose proof (digit_not_colon x ltac:(lia)). pose proof (digit_not_colon y ltac:(lia)).
    pose proof (digit_not_colon z ltac:(lia)).
    rewrite split_colon_cons, split_colon_here, !split_colon_cons by done. cbn [split_on].
    rewrite reads_one_ok, reads_two_ok by lia. exists x, (10 * y + z). split; [done|lia].
  - apply andb_true_iff in H as [[[Ha Hb]%andb_true_iff Hc]%andb_true_iff Hd].
    apply Ascii.eqb_eq in Hb as ->. apply digit_upto_elem in Hc as (y & Hy & ->); [|lia].
    apply digit_upto_elem in Hd as (z & Hz & ->); [|lia].
    assert (Hh : ∃ v w, a = of_byte (48 + v) ∧ b = of_byte (48 + w) ∧ 0 ≤ v ≤ 2 ∧ 0 ≤ w ≤ 9 ∧ 10 * v + w < 24).
    { apply orb_true_iff in Ha as [[H1 H2]%andb_true_iff|[H1 H2]%andb_true_iff].
      - apply digit_upto_elem in H1 as (v & ? & ->); [|lia]. apply digit_upto_elem in H2 as (w & ? & ->); [|lia].
        exists v, w. split_and!; (done || lia).
      - apply Ascii.eqb_eq in H1 as ->. apply digit_upto_elem in H2 as (w & ? & ->); [|lia].
        exists 2, w. split_and!; (done || lia). }
    destruct Hh as (v & w & -> & -> & Hv & Hw & Hvw).
    pose proof (digit_not_colon v ltac:(lia)). pose proof (digit_not_colon w ltac:(lia)).
    pose proof (digit_not_colon y ltac:(lia)). pose proof (digit_not_colon z ltac:(lia)).
    rewrite !split_colon_cons, split_colon_here, !split_colon_cons by done. cbn [split_on].
    rewrite !reads_two_ok by lia. exists (10 * v + w), (10 * y + z). split; [done|lia].
Qed.

(** *** Windows on the clock face *)
Definition clock_of (s : string) : Z := match _parse_hm s with Some (h, m) => h * 60 + m | None => 0 end.

(** A window of the policy is an arc of the day's clock: for the times the policy
    accepts, [window_open] holds exactly when the minutes passed since the start
    of the window, going round midnight, are fewer than its length. *)
Theorem window_is_clock_arc minute w :
  time_re w.1 = true → time_re w.2 = true → 0 ≤ minute < 1440 →
  window_open minute w
  = ((minute - clock_of w.1) mod 1440 <? (clock_of w.2 - clock_of w.1) mod 1440).
Proof.
  intros (h1 & m1 & E1 & Hh1 & Hm1)%time_re_parses (h2 & m2 & E2 & Hh2 & Hm2)%time_re_parses Hm.
  unfold window_open, clock_of. rewrite E1, E2. set (s := h1 * 60 + m1). set (e := h2 * 60 + m2).
  assert (0 ≤ s < 1440) by lia. assert (0 ≤ e < 1440) by lia. clearbody s e.
  assert (M : ∀ a b, 0 ≤ a < 1440 → 0 ≤ b < 1440 → (a - b) mod 1440 = if b <=? a then a - b else a - b + 1440).
  { intros a b Ha Hb. destruct (Z.leb_spec b a); [apply Z.mod_small; lia|].
    rewrite <- (Z.mod_add _ 1) by lia. rewrite Z.mod_small by lia. lia. }
  rewrite !M by lia.
  destruct (Z.eqb_spec s e), (Z.ltb_spec s e), (Z.leb_spec s minute), (Z.ltb_spec minute e), (Z.leb_spec s e);
    cbn; symmetry; first [apply Z.ltb_lt | apply Z.ltb_ge]; lia.
Qed.

(** *** The stored controls *)
Definition windows_ok (ws : gmap Z (list (string * string))) : Prop :=
  map_Forall (λ day l, 1 ≤ day ≤ 7 ∧ Forall (λ w, time_re w.1 = true ∧ time_re w.2 = true) l) ws.

Record controls_ok (catalog : list string) (c : Controls) : Prop := mkControlsOk {
  co_windows : windows_ok (sc_windows (fc_schedule c));
  co_daily : ∀ n, sc_daily_minutes (fc_schedule c) = Some n → 1 ≤ n ≤ 1440;
  co_services : NoDup (fc_services c) ∧ fc_services c ⊆ catalog;
  co_domains : NoDup (fc_custom_domains c) ∧ (length (fc_custom_domains c) ≤ 500)%nat }.

Lemma windows_ok_insert day l ws :
  1 ≤ day ≤ 7 → Forall (λ w, time_re w.1 = true ∧ time_re w.2 = true) l → windows_ok ws →
  windows_ok (<[day := l]> ws).
Proof. intros Hd Hl Hw. by apply map_Forall_insert_2. Qed.

Lemma no_windows_ok : windows_ok no_windows.
Proof.
  intros day l H. apply elem_of_list_to_map_2, list_elem_of_In, in_map_iff in H as (i & E & Hi).
  injection E as -> <-. split; [|constructor]. apply list_elem_of_In in Hi. set_solver by lia.
Qed.

Lemma clean_pairs_ok l : Forall (λ w, time_re w.1 = true ∧ time_re w.2 = true) (omap clean_pair l).
Proof.
  apply Forall_forall. intros w (p & _ & Hp)%list_elem_of_omap. unfold clean_pair in Hp.
  destruct p as [|a [|b [|? ?]]]; try done. destruct (_ && _) eqn:E; [|done]. injection Hp as <-.
  by apply andb_true_iff in E.
Qed.

Lemma normalize_windows_ok raw : windows_ok (_normalize_windows raw).
Proof.
  destruct raw as [raw|]; [|apply no_windows_ok]. unfold _normalize_windows.
  generalize no_windows_ok. generalize no_windows. induction raw as [|[k v] raw IH]; intros ws Hw; [done|].
  cbn [foldl fst snd]. apply IH. destruct (parse_int k) as [day|]; [|done].
  destruct (Z.ltb_spec day 1), (Z.ltb_spec 7 day); cbn [orb]; try done.
  apply windows_ok_insert; [lia| |done]. destruct v as [l|]; [apply clean_pairs_ok|constructor].
Qed.

Lemma pick_services_ok catalog l : NoDup (pick_services catalog l) ∧ pick_services catalog l ⊆ catalog.
Proof.
  unfold pick_services.
  assert (H : ∀ acc, NoDup acc ∧ acc ⊆ catalog →
    let r := foldl (λ acc sid, if bool_decide (lower (strip sid) ∈ catalog) && negb (bool_decide (lower (strip sid) ∈ acc))
      then acc ++ [lower (strip sid)] else acc) acc l in NoDup r ∧ r ⊆ catalog).
  { induction l as [|s l IH]; intros acc Ha; [done|]. cbn [foldl]. apply IH. destruct Ha as [H1 H2].
    repeat case_bool_decide; cbn; try done. split.
    - apply NoDup_app. split_and!; [done| |apply NoDup_singleton]. intros x Hx ->%list_elem_of_singleton. done.
    - intros x [Hx| ->%list_elem_of_singleton]%elem_of_app; [by apply H2|done]. }
  apply H. split; [constructor|]. by intros x ?%elem_of_nil.
Qed.

Lemma pick_domains_ok acc l :
  NoDup acc → (length acc < 500)%nat → NoDup (pick_domains acc l) ∧ (length (pick_domains acc l) ≤ 500)%nat.
Proof.
  revert acc. induction l as [|raw l IH]; intros acc Hn Hl; [cbn; split; [done|lia]|]. cbn [pick_domains].
  set (acc' := match _parse_domain raw with Some _ => _ | None => acc end).
  assert (H : NoDup acc' ∧ (length acc' ≤ 500)%nat).
  { unfold acc'. destruct (_parse_domain raw) as [d|]; [|split; [done|lia]].
    case_bool_decide; [split; [done|lia]|]. rewrite length_app. cbn [length]. split; [|lia].
    apply NoDup_app. split_and!; [done| |apply NoDup_singleton]. by intros x Hx ->%list_elem_of_singleton. }
  destruct H as [H1 H2]. destruct (Nat.leb_spec 500 (length acc')); [done|]. by apply IH.
Qed.

Lemma merge_schedule_ok p s :
  windows_ok (sc_windows s) → (∀ n, sc_daily_minutes s = Some n → 1 ≤ n ≤ 1440) →
  windows_ok (sc_windows (merge_schedule p s))
  ∧ ∀ n, sc_daily_minutes (merge_schedule p s) = Some n → 1 ≤ n ≤ 1440.
Proof.
  intros Hw Hd. unfold merge_schedule.
  set (s1 := match ps_tz p with Some _ => _ | None => s end).
  assert (H1 : windows_ok (sc_windows s1) ∧ ∀ n, sc_daily_minutes s1 = Some n → 1 ≤ n ≤ 1440).
  { unfold s1. destruct (ps_tz p) as [[z|]|]; [case_bool_decide|..]; done. }
  clearbody s1. destruct H1 as [Hw1 Hd1].
  set (s2 := if_some (ps_windows p) _ s1).
  assert (H2 : windows_ok (sc_windows s2) ∧ ∀ n, sc_daily_minutes s2 = Some n → 1 ≤ n ≤ 1440).
  { unfold s2. destruct (ps_windows p) as [w|]; cbn [if_some]; [|done]. split; [|done]. apply normalize_windows_ok. }
  clearbody s2. destruct H2 as [Hw2 Hd2].
  destruct (ps_daily_minutes p) as [dm|]; cbn [if_some]; [|done]. split; [done|]. intros n.
  change (sc_daily_minutes _) with (if or0 dm <=? 0 then None else Some (Z.min (24 * 60) (Z.max 1 (or0 dm)))).
  destruct (or0 dm <=? 0); [done|]. intros [= <-]. lia.
Qed.

Lemma default_controls_ok catalog : controls_ok catalog default_controls.
Proof.
  split; [apply no_windows_ok|done| |split; [constructor|cbn; lia]].
  split; [constructor|]. by intros x ?%elem_of_nil.
Qed.

Lemma merge_controls_ok catalog existing p :
  (∀ c, existing = Some c → controls_ok catalog c) → controls_ok catalog (merge_controls catalog existing p).
Proof.
  intros He. unfold merge_controls.
  assert (H0 : controls_ok catalog (default default_controls existing)).
  { destruct existing as [c|]; [by apply He|apply default_controls_ok]. }
  revert H0. generalize (default default_controls existing) as c0. intros c0 H0.
  assert (F : ∀ c c', fc_services c' = fc_services c → fc_custom_domains c' = fc_custom_domains c →
    fc_schedule c' = fc_schedule c → controls_ok catalog c → controls_ok catalog c').
  { intros c c' E1 E2 E3 [? ? ? ?]. split; rewrite ?E1, ?E2, ?E3; done. }
  set (c1 := if_some (pa_enabled p) _ c0). assert (H1 : controls_ok catalog c1).
  { unfold c1. destruct (pa_enabled p); [|done]. by apply (F c0). }
  clearbody c1. set (c2 := if_some (pa_block_adult p) _ c1). assert (H2 : controls_ok catalog c2).
  { unfold c2. destruct (pa_block_adult p); [|done]. by apply (F c1). }
  clearbody c2. set (c3 := if_some (pa_block_ads p) _ c2). assert (H3 : controls_ok catalog c3).
  { unfold c3. destruct (pa_block_ads p); [|done]. by apply (F c2). }
  clearbody c3. set (c4 := match pa_services p with Some _ => _ | None => c3 end).
  assert (H4 : controls_ok catalog c4).
  { unfold c4. destruct (pa_services p) as [[l|]|]; [|done..]. destruct H3. split; try done. apply pick_services_ok. }
  clearbody c4. set (c5 := match pa_custom_domains p with Some _ => _ | None => c4 end).
  assert (H5 : controls_ok catalog c5).
  { unfold c5. destruct (pa_custom_domains p) as [[l|]|]; [|done..]. destruct H4. split; try done.
    apply pick_domains_ok; [constructor|cbn; lia]. }
  clearbody c5. destruct (pa_schedule p) as [[sp|]|]; [|done..]. destruct H5 as [Hw Hd ? ?].
  destruct (merge_schedule_ok sp (fc_schedule c5) Hw Hd). by split.
Qed.

Lemma set_block_ok catalog b r c : controls_ok catalog c → controls_ok catalog (set_block_state b r c).
Proof. by intros [? ? ? ?]. Qed.

(** C40. What the portal stores is well formed, whatever the request holds: weekdays 1
    to 7, only windows the schedule can read, a daily limit between a minute and a
    day, services of the catalogue without repeats and at most 500 distinct
    domains; and with a PIN set nothing is stored unless the PIN verifies. *)
Theorem put_family_controls_ok verify hash catalog now local b existing c' :
  (∀ c, existing = Some c → controls_ok catalog c) →
  put_family_controls verify hash catalog now local b existing = Ok c' →
  controls_ok catalog c'
  ∧ (∀ c h, existing = Some c → fc_pin_hash c = Some h → ∃ pin, pb_pin b = Some pin ∧ verify pin h = true)
  ∧ rt_schedule_blocked (fc_runtime c')
    = negb (evaluate_access now (local (sc_tz (fc_schedule c'))) c').1.
Proof.
  intros He H. unfold put_family_controls in H.
  destruct (_verify_family_pin verify existing (pb_pin b)) as [[]|] eqn:Hpin; [|done].
  pose proof (merge_controls_ok catalog existing (pb_patch b) He) as Hm.
  set (m0 := merge_controls catalog existing (pb_patch b)) in *.
  set (m1 := match pb_pause_minutes b with Some _ => _ | None => m0 end) in H.
  assert (H1 : controls_ok catalog m1).
  { unfold m1. destruct (pb_pause_minutes b) as [n|]; [|done]. destruct (n =? 0); [done|]. by destruct Hm. }
  clearbody m0 m1.
  destruct (if pb_clear_pin b then _ else _) as [m2|] eqn:E; [|done].
  assert (H2 : controls_ok catalog m2).
  { destruct (pb_clear_pin b); [injection E as <-; by destruct H1|].
    destruct (pb_new_pin b) as [raw|]; [|by injection E as <-].
    case_bool_decide; [by injection E as <-|]. destruct (pin_ok _); [|done]. injection E as <-. by destruct H1. }
  destruct (evaluate_access now (local (sc_tz (fc_schedule m2))) m2) as [allowed reason] eqn:Ea.
  injection H as <-. split_and!.
  - by apply set_block_ok.
  - intros c h -> Hh. unfold _verify_family_pin in Hpin. cbn in Hpin. rewrite Hh in Hpin.
    destruct (pb_pin b) as [pin|]; [|done]. destruct (_ || _) eqn:Ev; [done|].
    apply orb_false_iff in Ev as [_ Ev%negb_false_iff]. by exists pin.
  - change (evaluate_access now _ (set_block_state (negb allowed) reason m2))
      with (evaluate_access now (local (sc_tz (fc_schedule m2))) m2). by rewrite Ea.
Qed.

(** *** The job *)

(** The job flags but does not cut: every account it newly blocks is marked blocked,
    yet no user is removed from the core and no WireGuard peer is switched off,
    because bare ids are passed where rows are expected; and while the block lasts
    the account is not listed again. *)
Theorem family_guard_cuts_nobody now local core_up rows :
  let r := enforce_family_guard now local core_up rows in
  en_cut r = [] ∧ en_peers_off r = []
  ∧ (∀ id, id ∈ en_to_disconnect r → ∃ u c, u ∈ en_rows r ∧ fu_id u = id
       ∧ fu_controls u = Some c ∧ rt_schedule_blocked (fc_runtime c) = true)
  ∧ (∀ u c, u ∈ rows → fu_controls u = Some c → rt_schedule_blocked (fc_runtime c) = true →
       (enforce_row now local u).1.2 = false).
Proof.
  intros r. unfold r, enforce_family_guard. cbn [en_cut en_peers_off en_to_disconnect en_rows].
  set (cut := map _ (List.filter _ _)). split_and!.
  - unfold cut_on_core. destruct core_up; [|done]. by destruct cut.
  - by destruct cut.
  - intros id Hid. unfold cut in Hid.
    apply list_elem_of_In, in_map_iff in Hid as ([[u x] y] & <- & [Hin Hx]%filter_In). cbn in Hx. subst x.
    apply in_map_iff in Hin as (v & Ev & Hv).
    assert (Hout : u ∈ map (λ p, p.1.1) (map (enforce_row now local) rows)).
    { apply list_elem_of_In, in_map_iff. exists (u, true, y). split; [done|]. apply in_map_iff. by exists v. }
    unfold enforce_row in Ev. destruct (fu_controls v) as [c|]; [|done].
    destruct (negb (fu_served v) || _); [done|].
    destruct (evaluate_access _ _ _) as [allowed reason]. injection Ev as Eu Ex _.
    destruct allowed; [done|].
    exists u. eexists. split_and!; [exact Hout|done|by rewrite <- Eu|done].
  - intros u c _ Hc Hb. unfold enforce_row. rewrite Hc. destruct (_ || _); [done|].
    destruct (evaluate_access _ _ _) as [allowed reason]. rewrite Hb. cbn. apply andb_false_r.
Qed.

(** A day without windows is open all day, also when other days have windows; the
    comment in [evaluate_access] says that it is blocked. *)
Theorem day_without_windows_is_open now lt c :
  fc_enabled c = true → default [] (sc_windows (fc_schedule c) !! lo_weekday lt) = [] →
  sc_daily_minutes (fc_schedule c) = None → evaluate_access now lt c = (true, None).
Proof.
  intros He Hw Hd. unfold evaluate_access. rewrite He, Hw, Hd. cbn [negb within_windows].
  destruct (is_pause_active now c); [done|]. by rewrite andb_false_r.
Qed.

(** The windows of another weekday never matter, so the hours after midnight of a
    window that runs over it are taken on the morning of its own day. *)
Theorem only_todays_windows_count now lt c ws :
  default [] (ws !! lo_weekday lt) = default [] (sc_windows (fc_schedule c) !! lo_weekday lt) →
  default [] (ws !! lo_weekday lt) ≠ [] →
  evaluate_access now lt (c <| fc_schedule := mkSchedule (sc_tz (fc_schedule c)) ws (sc_daily_minutes (fc_schedule c)) |>)
  = evaluate_access now lt c.
Proof.
  intros E Hne.
  assert (Hany : ∀ w : gmap Z (list (string * string)), default [] (w !! lo_weekday lt) ≠ [] →
    existsb (λ p, negb (bool_decide (p.2 = []))) (map_to_list w) = true).
  { intros w Hw. destruct (w !! lo_weekday lt) as [l|] eqn:El; [|done]. apply existsb_exists.
    exists (lo_weekday lt, l). split; [by apply list_elem_of_In, elem_of_map_to_list|].
    cbn. apply negb_true_iff, bool_decide_eq_false. done. }
  unfold evaluate_access. cbn -[existsb within_windows map_to_list].
  rewrite (Hany ws), (Hany (sc_windows (fc_schedule c))), E by (done || by rewrite <- E). done.
Qed.
End FamilyGuardFacts.

(** ** Concrete runs *)
Module FamilyGuardExamples.
Import FamilyGuard FamilyGuardFacts.

(** 22:00 to 07:00, at 23:30, 03:00 and 12:00. *)
Lemma window_is_clock_arc_witness :
  window_open 1410 ("22:00", "07:00") = true ∧ window_open 180 ("22:00", "07:00") = true
  ∧ window_open 720 ("22:00", "07:00") = false.
Proof.
  split_and!; rewrite window_is_clock_arc by first [reflexivity | lia]; vm_compute; reflexivity.
Defined.

Definition no_patch : Patch := mkPatch None None None None None None.
Definition evening : Patch :=
  mkPatch (Some true) None None (Some (Some ["YouTube "; "youtube"; "nosuch"]))
    (Some (Some ["https://www.Example.com/x"; "bad domain"; "example.com"]))
    (Some (Some (mkSchedulePatch None (Some (Some [("1", Some [["22:00"; "7:00"]; ["25:00"; "1:00"]]); ("9", None)])) (Some (Some 9999))))).
Definition body (p : Patch) (pin : option string) : PutBody := mkPutBody p pin None false None.
Definition noon (_ : string) : Local := mkLocal 1 720 "2024-01-01".
Definition pin_check (p h : string) : bool := bool_decide (String.append "h" p = h).

(** Windows and domains are cleaned, the daily limit clamped, the account blocked at noon. *)
Lemma put_family_controls_ok_witness :
  ∃ c', put_family_controls pin_check (λ p, String.append "h" p) ["youtube"] 0 noon (body evening None) None = Ok c'
    ∧ controls_ok ["youtube"] c' ∧ fc_custom_domains c' = ["example.com"]
    ∧ fc_services c' = ["youtube"] ∧ rt_schedule_blocked (fc_runtime c') = true.
Proof.
  eexists. split; [vm_compute; reflexivity|]. split_and!; [|reflexivity..].
  apply (put_family_controls_ok pin_check (λ p, String.append "h" p) ["youtube"] 0 noon (body evening None) None);
    [done|vm_compute; reflexivity].
Defined.

Definition weekday_only : Controls :=
  default_controls <| fc_enabled := true |>
    <| fc_schedule := mkSchedule "Asia/Tehran" (<[1 := [("08:00", "09:00")]]> no_windows) None |>.

(** Tuesday has no windows and is open, although Monday has one. *)
Lemma day_without_windows_is_open_witness :
  evaluate_access 0 (mkLocal 2 0 "2024-01-02") weekday_only = (true, None)
  ∧ (evaluate_access 0 (mkLocal 1 0 "2024-01-01") weekday_only).1 = false.
Proof.
  split; [|vm_compute; reflexivity].
  apply day_without_windows_is_open; vm_compute; reflexivity.
Defined.

(** At Monday noon the account is listed for disconnection, flagged, and left connected. *)
Example family_guard_run :
  let r := enforce_family_guard 0 noon true [mkFamilyUser 7 "kid" true (Some 0) (Some weekday_only)] in
  en_to_disconnect r = [7] ∧ en_cut r = [] ∧ cut_on_core true [Row 7 "kid"] = [7].
Proof. vm_compute. auto. Qed.
End FamilyGuardExamples.
