(* ===== verification/Devices.v ===== *)
(** * Devices: concurrent devices, lockouts and session limits

    [app/utils/device_limit.py], [app/utils/session_limit.py],
    [app/utils/device_exclusivity.py] and the guards of [app/routers/subscription.py]
    that use them.

    Times are microseconds ([datetime]).  The columns [device_ips] (JSON text) and
    [device_conn_hold] (JSON) are kept as the values they hold: a timestamp text is a
    [Stamp], which says whether [fromisoformat] accepts it.  The addresses of the
    panel and its nodes are an argument; display labels and formatted messages are
    left out. *)
From S2P Require Import Prelude.

Module UserAgent.

(** The alternatives of the patterns, without regard to case; those of
    [_LINK_PREVIEW_UA_RE] under the anchor are apart. *)
Definition any_in (pats : list string) (text : string) : bool := existsb (λ p, contains (lower p) text) pats.

Definition browser_pats : list string := ["Mozilla/"; "Chrome/"; "Safari/"; "Firefox/"; "Edg/"]%string.
Definition vpn_pats : list string :=
  ["v2rayNG"; "v2rayN"; "Hiddify"; "V2Box"; "Happ/"; "Karing"; "Clash"; "Streisand"; "Shadowrocket";
   "Quantumult"; "Stash"; "NekoBox"; "Nekoray"; "sing-box"; "FairVPN"; "Napsternet"; "Loon"; "Surge";
   "mihomo"; "FLClash"]%string.
Definition preview_pats : list string :=
  ["WhatsApp"; "TelegramBot"; "Telegram"; "facebookexternalhit"; "Facebot"; "Twitterbot"; "Slackbot";
   "Discordbot"; "LinkedInBot"; "SkypeUriPreview"; "Viber"; "Line/"; "Googlebot"; "bingbot"; "Baiduspider";
   "YandexBot"; "Applebot"; "DuckDuckBot"; "preview"; "crawler"; "spider"; "bot/"]%string.
Definition preview_starts : list string :=
  ["got"; "curl"; "wget"; "python-requests"; "axios"; "Go-http-client"; "Java/"]%string.

Definition _is_browser_ua (ua : string) : bool :=
  let ua := lower ua in
  if negb (any_in browser_pats ua) then false
  else negb (any_in vpn_pats ua).

Definition _is_link_preview_ua (ua : string) : bool :=
  let ua := lower (strip ua) in
  if String.eqb ua "" then false
  else if any_in vpn_pats ua then false
  else any_in preview_pats ua || existsb (λ p, startswith (lower p) ua) preview_starts.

(** [platform/(ios|android|windows|macos|linux|mac)]: the leftmost match, its
    alternatives in order. *)
Fixpoint hint_at (l : list Ascii.ascii) (os : list string) : option string :=
  match os with
  | [] => None
  | o :: os => if is_prefix (String.list_ascii_of_string o) l then Some o else hint_at l os
  end.

Fixpoint platform_hint (l : list Ascii.ascii) : option string :=
  let here := if is_prefix (String.list_ascii_of_string "platform/") l
              then hint_at (drop 9 l) ["ios"; "android"; "windows"; "macos"; "linux"; "mac"]%string else None in
  match here, l with
  | Some p, _ => Some p
  | None, [] => None
  | None, _ :: l => platform_hint l
  end.

(** Alternatives such as [hiddify.*android] are left out where a shorter one of the
    same pattern ([android]) matches whenever they do. *)
Definition classify_client_platform (user_agent : string) : string :=
  let ua := lower user_agent in
  match platform_hint (String.list_ascii_of_string ua) with
  | Some p => if String.eqb p "macos" || String.eqb p "mac" then "macos" else p
  | None =>
      if any_in ["android"; "v2rayng"; "napsternet"] ua then "android"
      else if any_in ["iphone"; "ipad"; "ios"; "shadowrocket"; "stash"; "quantumult"; "streisand"] ua then "ios"
      else if contains "hiddify" ua && negb (any_in ["windows"; "macintosh"; "darwin"] ua) then "android"
      else if any_in ["windows"; "v2rayn/"; "cfw"; "nekoray"] ua then "windows"
      else if any_in ["macintosh"; "mac os"; "darwin"] ua then "macos"
      else if any_in ["linux"; "ubuntu"] ua then "linux"
      else "other"
  end%string.

(** [_KNOWN_CLIENT_UA_RE.match] of the subscription router: literal beginnings. *)
Definition known_client_starts : list string :=
  ["Surge"; "Loon"; "Quantumult"; "Clash"; "clash"; "Mihomo"; "mihomo"; "Stash"; "stash"; "HiddifyNext";
   "Hiddify/"; "V2Box"; "V2box"; "v2Box"; "v2box"; "v2rayN/"; "v2rayNG/"; "Happ/"; "Karing"; "karing";
   "Sing-box"; "sing-box"; "Singbox"; "singbox"; "NekoBox"; "SagerNet"]%string.

Definition known_client (ua : string) : bool :=
  existsb (λ p, startswith p ua) known_client_starts || startswith "flclash" (lower ua).

End UserAgent.

(** ** Devices of a user *)
Module DeviceLimit.
Import UserAgent.

Definition second : Z := 1000000.
Definition minute : Z := 60 * second.
Definition _ACTIVE_WINDOW : Z := 24 * 60 * minute.
Definition _ONLINE_DISPLAY_WINDOW : Z := 2 * 60 * minute.
Definition _CONCURRENT_IP_WINDOW : Z := 45 * minute.
Definition DEVICE_LOCKOUT_MINUTES : Z := 30.

(** A non-empty text in a time field. *)
Inductive Stamp := Iso (t : Z) | NotIso (s : string).

Record Entry := mkEntry {
  e_seen : option Stamp;
  e_ip : option string;
  e_ua : string;
  e_platform : option string;
  e_hwid_hint : string;
  e_apps : list string;
  e_recent : list (string * Stamp) }.

(** The values of the map: old text entries, objects, or neither. *)
Inductive Value := VText (s : Stamp) | VDict (e : Entry) | VOther.

Definition DeviceIps := list (string * Value).

(** [_parse_seen_ts] *)
Definition _parse_seen_ts (raw : option Stamp) : option Z :=
  match raw with Some (Iso t) => Some t | _ => None end.

Definition _entry_seen (v : Value) : option Stamp :=
  match v with VText s => Some s | VDict e => e_seen e | VOther => None end.

Definition fresh (cutoff : Z) (ts : option Z) : bool :=
  match ts with Some t => cutoff <=? t | None => false end.

Definition _prune (ips : DeviceIps) (now window : Z) : DeviceIps :=
  filter (λ kv, fresh (now - window) (_parse_seen_ts (_entry_seen kv.2))) ips.

Section infra.
(** [_infrastructure_ips]: the panel's and the nodes' addresses. *)
Context (infra : gset string).

Definition _is_infrastructure_ip (ip : string) : bool :=
  String.eqb ip "" || bool_decide (ip ∈ infra).

Definition _client_device_entries (ips : DeviceIps) : DeviceIps :=
  filter (λ kv, startswith "fp:" kv.1 || startswith "hw:" kv.1 || negb (bool_decide (kv.1 ∈ infra))) ips.

(** [dict[key] = value], [dict.setdefault] and [dict.get]. *)
Fixpoint dict_set {A} (k : string) (v : A) (d : list (string * A)) : list (string * A) :=
  match d with
  | [] => [(k, v)]
  | (k', v') :: d => if String.eqb k' k then (k, v) :: d else (k', v') :: dict_set k v d
  end.

Fixpoint dict_get {A} (k : string) (d : list (string * A)) : option A :=
  match d with
  | [] => None
  | (k', v) :: d => if String.eqb k' k then Some v else dict_get k d
  end.

Definition setdefault {A} (k : string) (v : A) (d : list (string * A)) : list (string * A) :=
  match dict_get k d with Some _ => d | None => dict_set k v d end.

Definition device_fingerprint (user_agent : string) : string :=
  ("plat:" ++ classify_client_platform user_agent)%string.

(** The rest of the text after the first colon. *)
Definition after_colon (key : string) : string :=
  String.string_of_list_ascii (drop 5 (String.list_ascii_of_string key)).

Definition _platform_from_entry (key : string) (v : Value) : string :=
  if startswith "plat:" key then
    let p := after_colon key in if String.eqb p "" then "other"%string else p
  else match v with
       | VDict e => match e_platform e with
                    | Some p => if String.eqb p "" then "other"%string else p
                    | None => "other"%string end
       | _ => "other"%string
       end.

(** Addresses of the entry inside the window with the time they were seen. *)
Definition _entry_recent_ips (v : Value) (now window : Z) : list (string * Z) :=
  match v with
  | VDict e =>
      let cutoff := now - window in
      let out := foldl (λ out p, if _is_infrastructure_ip p.1 then out
                                 else match _parse_seen_ts (Some p.2) with
                                      | Some t => if cutoff <=? t then dict_set p.1 t out else out
                                      | None => out end) [] (e_recent e) in
      match e_ip e with
      | Some ip =>
          if _is_infrastructure_ip ip then out
          else match _parse_seen_ts (e_seen e) with
               | Some t => if cutoff <=? t then setdefault ip t out else out
               | None => out
               end
      | None => out
      end
  | _ => []
  end.

Definition _entry_is_active (v : Value) (now window : Z) : bool :=
  match v with
  | VDict e =>
      match _entry_recent_ips v now window with
      | _ :: _ => true
      | [] => fresh (now - window) (_parse_seen_ts (e_seen e))
      end
  | _ => fresh (now - window) (_parse_seen_ts (_entry_seen v))
  end.

Definition ignored_ua (v : Value) : bool :=
  match v with VDict e => _is_browser_ua (e_ua e) || _is_link_preview_ua (e_ua e) | _ => false end.

(** The branch for bare addresses inside the inactive case of the source never adds a
    slot: its condition is the one that has just failed. *)
Definition slot_of (now window : Z) (kv : string * Value) : option string :=
  if ignored_ua kv.2 then None
  else if negb (_entry_is_active kv.2 now window) then
    if negb (startswith "plat:" kv.1 || startswith "fp:" kv.1 || startswith "hw:" kv.1)
       && negb (_is_infrastructure_ip kv.1) && fresh (now - window) (_parse_seen_ts (_entry_seen kv.2))
    then Some "other"%string else None
  else Some (_platform_from_entry kv.1 kv.2).

Definition _active_platform_slots (ips : DeviceIps) (now window : Z) : gset string :=
  list_to_set (omap (slot_of now window) ips).

Definition _recent_client_ips (ips : DeviceIps) (now window : Z) : gset string :=
  list_to_set (flat_map (λ kv, match kv.2 with
    | VDict _ => (_entry_recent_ips kv.2 now window).*1
    | v => if startswith "plat:" kv.1 || startswith "fp:" kv.1 || startswith "hw:" kv.1 then []
           else if _is_infrastructure_ip kv.1 then []
           else if fresh (now - window) (_parse_seen_ts (_entry_seen v)) then [kv.1] else []
    end) ips).

Definition _count_platform_slots (ips : DeviceIps) : nat :=
  size (list_to_set ((λ kv, _platform_from_entry kv.1 kv.2) <$> ips) : gset string).

Definition _collapse_same_platform (ips : DeviceIps) (platform keep_key : string) : DeviceIps :=
  filter (λ kv, String.eqb kv.1 keep_key || negb (String.eqb (_platform_from_entry kv.1 kv.2) platform)) ips.

(** *** Lockouts: the keys of [device_conn_hold] *)
Record Evidence := mkEvidence {
  ev_platform : string;
  ev_ip : string;
  ev_app : string;
  ev_user_agent : string;
  ev_seen_at : Z }.

Record Hold := mkHold {
  h_until : option Stamp;
  h_reason : option string;
  h_evidence : option (list Evidence);
  h_winner : option string;
  h_held : option (list string);
  h_updated_at : option string }.
#[global] Instance eta_Hold : Eta Hold := λ h, mkHold (h_until h) (h_reason h) (h_evidence h)
  (h_winner h) (h_held h) (h_updated_at h).
Definition empty_hold : Hold := mkHold None None None None None None.

(** The columns of a user row that matter here. *)
Record DeviceUser := mkDeviceUser {
  du_username : string;
  du_live : bool;                       (* status active or on hold *)
  du_device_limit : option Z;
  du_device_ips : option DeviceIps;     (* None: NULL, or not a JSON object *)
  du_conn_hold : option Hold;           (* None: NULL, or not an object *)
  du_online_at : option Z;
  du_session_limit : option Z }.
#[global] Instance eta_DeviceUser : Eta DeviceUser := λ u, mkDeviceUser (du_username u) (du_live u)
  (du_device_limit u) (du_device_ips u) (du_conn_hold u) (du_online_at u) (du_session_limit u).

Definition _parse_ips (u : DeviceUser) : DeviceIps := default [] (du_device_ips u).
Definition _hold_dict (u : DeviceUser) : Hold := default empty_hold (du_conn_hold u).

(** [int(total_seconds())] truncates towards zero. *)
Definition get_device_lockout_remaining (now : Z) (u : DeviceUser) : option Z :=
  match h_until (_hold_dict u) with
  | Some (Iso until) =>
      let remaining := Z.quot (until - now) second in
      if 0 <? remaining then Some remaining else None
  | _ => None
  end.

Definition take_str (n : nat) (s : string) : string :=
  String.string_of_list_ascii (take n (String.list_ascii_of_string s)).

Definition app_names : list string :=
  ["v2rayNG"; "v2rayN"; "HiddifyNext"; "Hiddify"; "Shadowrocket"; "Streisand"; "Stash"; "Quantumult";
   "NekoBox"; "Nekoray"; "Clash"; "Sing-box"; "FairVPN"; "NapsternetV"]%string.

Fixpoint until_slash (l : list Ascii.ascii) : list Ascii.ascii :=
  match l with
  | [] => []
  | c :: l => if Ascii.eqb c (Ascii.ascii_of_nat 47) then [] else c :: until_slash l
  end.

Definition _app_label_from_ua (user_agent : string) : string :=
  let ua := strip user_agent in
  if String.eqb ua "" then ""%string
  else match List.find (λ n, contains (lower n) (lower ua)) app_names with
       | Some n => n
       | None =>
           let first := take_str 40 (strip (String.string_of_list_ascii
                          (until_slash (String.list_ascii_of_string ua)))) in
           if String.eqb first "" then take_str 40 ua else first
       end.

(** [max(recent.items(), key=...)]: the first of the latest. *)
Definition latest (l : list (string * Z)) : option (string * Z) :=
  match l with
  | [] => None
  | x :: l => Some (foldl (λ best y, if (best.2 <? y.2)%Z then y else best) x l)
  end.

Definition evidence_of (now : Z) (kv : string * Value) : option Evidence :=
  match kv.2 with
  | VDict e =>
      if negb (_entry_is_active kv.2 now _CONCURRENT_IP_WINDOW) then None
      else
        let '(ip, seen) :=
          match latest (_entry_recent_ips kv.2 now _CONCURRENT_IP_WINDOW) with
          | Some x => x
          | None => (default ""%string (e_ip e), default now (_parse_seen_ts (e_seen e)))
          end in
        if _is_infrastructure_ip ip then None
        else Some (mkEvidence (_platform_from_entry kv.1 kv.2) ip
                     (_app_label_from_ua (match last (e_apps e) with Some a => a | None => e_ua e end))
                     (take_str 180 (e_ua e)) seen)
  | _ => None
  end.

(** One row per platform, the later one replacing the earlier. *)
Definition add_evidence (rows : list (string * Evidence)) (ev : Evidence) : list (string * Evidence) :=
  match dict_get (ev_platform ev) rows with
  | Some prev => if ev_seen_at prev <=? ev_seen_at ev then dict_set (ev_platform ev) ev rows else rows
  | None => dict_set (ev_platform ev) ev rows
  end.

Definition collect_device_evidence (now : Z) (u : DeviceUser) (extra_ip extra_ua extra_platform : string)
    : list Evidence :=
  let ips := _client_device_entries (_prune (_parse_ips u) now _ACTIVE_WINDOW) in
  let rows := foldl add_evidence [] (omap (evidence_of now) ips) in
  let extra_ip := strip extra_ip in
  let rows :=
    if _is_infrastructure_ip extra_ip then rows
    else
      let plat := strip (if String.eqb extra_platform "" then classify_client_platform extra_ua else extra_platform) in
      add_evidence rows (mkEvidence plat extra_ip (_app_label_from_ua extra_ua) (take_str 180 extra_ua) now) in
  take 12 (sort_by (λ a b, ev_seen_at a <=? ev_seen_at b) rows.*2).

Definition get_device_lockout_evidence (now : Z) (u : DeviceUser) : list Evidence :=
  match h_evidence (_hold_dict u) with
  | Some (e :: l) => e :: l
  | _ => collect_device_evidence now u "" "" ""
  end.

(** The minutes applied; zero when the account has no limit. *)
Definition start_device_lockout (now : Z) (u : DeviceUser) (minutes : Z) (reason : string)
    (extra_ip extra_ua extra_platform : string) : Z * DeviceUser :=
  if negb (pos_limit (du_device_limit u)) then (0, u)
  else
    let minutes := Z.max 1 (if minutes =? 0 then DEVICE_LOCKOUT_MINUTES else minutes) in
    let hold := (_hold_dict u) <| h_until := Some (Iso (now + minutes * minute)) |> in
    let hold := hold <| h_reason := Some reason |> in
    let snap := collect_device_evidence now u extra_ip extra_ua extra_platform in
    let hold := match snap with [] => hold | _ => hold <| h_evidence := Some snap |> end in
    (minutes, u <| du_conn_hold := Some hold |>).

Definition hold_empty (h : Hold) : bool :=
  is_none (h_until h) && is_none (h_reason h) && is_none (h_evidence h)
  && is_none (h_winner h) && is_none (h_held h) && is_none (h_updated_at h).

Definition clear_device_lockout (u : DeviceUser) : DeviceUser :=
  let hold := _hold_dict u in
  if is_none (h_until hold) && is_none (h_reason hold) && is_none (h_evidence hold) then u
  else
    let hold := hold <| h_until := None |> <| h_reason := None |> <| h_evidence := None |> in
    u <| du_conn_hold := if hold_empty hold then None else Some hold |>.

Definition count_active_devices (now : Z) (u : DeviceUser) : nat :=
  let ips := _client_device_entries (_prune (_parse_ips u) now _ACTIVE_WINDOW) in
  let slots := _active_platform_slots ips now _CONCURRENT_IP_WINDOW in
  if (size slots =? 0)%nat then _count_platform_slots ips else size slots.

(** [window]: ONLINE_WINDOW_MINUTES. *)
Definition account_is_online (window now : Z) (u : DeviceUser) : bool :=
  match du_online_at u with None => false | Some seen => now - seen <=? window * minute end.

(** *** A subscription request *)
Record Request := mkRequest { rq_ip : string; rq_ua : string; rq_hwid : string }.

(** [ua not in apps]: append, keep the last eight. *)
Definition note_app (ua : string) (apps : list string) : list string :=
  if negb (String.eqb ua "") && negb (bool_decide (ua ∈ apps)) then
    let l := apps ++ [take_str 80 ua] in drop (length l - 8) l
  else apps.

Definition record_and_check_device_limit (now : Z) (rq : Request) (enforce : bool) (u : DeviceUser) : DeviceUser :=
  let hw := strip (rq_hwid rq) in
  let ua := strip (rq_ua rq) in
  let client_ip := rq_ip rq in
  if _is_browser_ua ua then u
  else if _is_link_preview_ua ua then u
  else if _is_infrastructure_ip client_ip && String.eqb hw "" && String.eqb ua "" then u
  else
    let platform := classify_client_platform (rq_ua rq) in
    let key := device_fingerprint (rq_ua rq) in
    let ips := _client_device_entries (_prune (_parse_ips u) now _ACTIVE_WINDOW) in
    let ips := _collapse_same_platform ips platform key in
    let prev := match dict_get key ips with Some (VDict e) => Some e | _ => None end in
    let apps := note_app ua (take 8 (match prev with Some e => e_apps e | None => [] end)) in
    let usable_ip := negb (_is_infrastructure_ip client_ip) in
    let active_slots := _active_platform_slots ips now _CONCURRENT_IP_WINDOW in
    let platform_known := bool_decide (platform ∈ active_slots) in
    let cap := or0 (du_device_limit u) in
    if enforce && (0 <? cap) && negb platform_known && (cap <=? Z.of_nat (size active_slots))
    then (start_device_lockout now u DEVICE_LOCKOUT_MINUTES "device_limit"
            (if usable_ip then client_ip else ""%string) ua platform).2
    else
      let recent := if usable_ip then [(client_ip, Iso now)] else [] in
      let ip := if usable_ip then Some client_ip else prev ≫= e_ip in
      let entry := mkEntry (Some (Iso now)) ip (take_str 180 (rq_ua rq)) (Some platform) (take_str 32 hw) apps recent in
      u <| du_device_ips := Some (dict_set key (VDict entry) ips) |>.

Record Policy := mkPolicy {
  po_minutes_left : Z;
  po_lockout_seconds_left : Z;
  po_blocked_devices : list Evidence }.

Definition blocked (now remaining : Z) (u : DeviceUser) : Policy :=
  mkPolicy (Z.max 1 ((remaining + 59) / 60)) remaining (get_device_lockout_evidence now u).

(** [None]: the configurations may be exported. *)
Definition apply_subscription_device_policy (now : Z) (rq : Request) (u : DeviceUser) : option Policy * DeviceUser :=
  match get_device_lockout_remaining now u with
  | Some remaining => (Some (blocked now remaining u), u)
  | None =>
      if negb (pos_limit (du_device_limit u))
      then (None, record_and_check_device_limit now rq false u)
      else
        let u := record_and_check_device_limit now rq true u in
        match get_device_lockout_remaining now u with
        | Some remaining => (Some (blocked now remaining u), u)
        | None => (None, u)
        end
  end.

End infra.
End DeviceLimit.

(** ** The live check over all users, [enforce_live_device_limits] *)
Module LiveDevices.
Import UserAgent DeviceLimit.

Record LiveState := mkLiveState {
  lv_users : gmap Z DeviceUser;
  lv_streak : gmap Z Z;                 (* _LIVE_OVER_STREAK *)
  lv_kicked : list Z }.                 (* users cut from the cores *)
#[global] Instance eta_LiveState : Eta LiveState := λ s, mkLiveState (lv_users s) (lv_streak s) (lv_kicked s).

Definition _LIVE_OVER_STREAK_NEED : Z := 3.

Section live.
Context (infra : gset string).
(** [_xray_online_device_count]: what the cores report for a user, if anything. *)
Context (online : Z → option Z).

Definition limited (ids : option (list Z)) (x : Z * DeviceUser) : bool :=
  pos_limit (du_device_limit x.2) && du_live x.2
  && match ids with None => true | Some l => bool_decide (x.1 ∈ l) end.

Definition lock_and_kick (now uid : Z) (s : LiveState) : LiveState :=
  match lv_users s !! uid with
  | None => s
  | Some row =>
      let row := match get_device_lockout_remaining now row with
                 | None => (start_device_lockout infra now row DEVICE_LOCKOUT_MINUTES "device_limit_live" "" "" "").2
                 | Some _ => row
                 end in
      s <| lv_users := <[uid := row]> (lv_users s) |> <| lv_kicked := lv_kicked s ++ [uid] |>
  end.

(** One target; the second component says whether its streak stays hot. *)
Definition check_target (now : Z) (x : Z * Z) (s : LiveState) : LiveState * bool :=
  let '(uid, limit) := x in
  let over := match online uid with Some n => limit <? n | None => false end in
  if negb over then (s <| lv_streak := delete uid (lv_streak s) |>, false)
  else
    let streak := or0 (lv_streak s !! uid) + 1 in
    let s := s <| lv_streak := <[uid := streak]> (lv_streak s) |> in
    if streak <? _LIVE_OVER_STREAK_NEED then (s, true) else (lock_and_kick now uid s, true).

Fixpoint check_targets (now : Z) (l : list (Z * Z)) (hot : gset Z) (s : LiveState) : LiveState * gset Z :=
  match l with
  | [] => (s, hot)
  | x :: l => let '(s, h) := check_target now x s in
              check_targets now l (if h then {[x.1]} ∪ hot else hot) s
  end.

Definition targets (candidate_uids : option (list Z)) (s : LiveState) : list (Z * Z) :=
  (λ x, (x.1, or0 (du_device_limit x.2))) <$> filter (limited candidate_uids) (map_to_list (lv_users s)).

Definition enforce_live_device_limits (now : Z) (candidate_uids : option (list Z)) (s : LiveState)
    : Z * LiveState :=
  match candidate_uids with
  | Some [] => (0, s)
  | _ =>
      let '(s', hot) := check_targets now (targets candidate_uids s) ∅ s in
      let s' := match candidate_uids with
                | None => s' <| lv_streak := filter (λ kv, kv.1 ∈ hot) (lv_streak s') |>
                | Some _ => s'
                end in
      (Z.of_nat (length (lv_kicked s')) - Z.of_nat (length (lv_kicked s)), s')
  end.
End live.

(** *** Legacy holds, [app/utils/device_exclusivity.py] *)
Definition ALL_PROTOS : list string := ["wireguard"; "xray"; "singbox"]%string.

Record ProtoHold := mkProtoHold { ph_winner : string; ph_held : list string; ph_updated_at : string }.

Definition normalize_hold (raw : option Hold) : option ProtoHold :=
  match raw with
  | None => None
  | Some h =>
      match h_winner h, h_held h with
      | Some w, Some held =>
          if bool_decide (w ∈ ALL_PROTOS)
          then Some (mkProtoHold w (filter (λ p, p ∈ ALL_PROTOS ∧ p ≠ w) held) (default ""%string (h_updated_at h)))
          else None
      | _, _ => None
      end
  end.

Definition get_hold (u : DeviceUser) : option ProtoHold := normalize_hold (du_conn_hold u).

Definition has_legacy (h : Hold) : bool :=
  negb (is_none (h_winner h) && is_none (h_held h) && is_none (h_updated_at h)).

Definition strip_legacy (h : Hold) : option Hold :=
  let h := h <| h_winner := None |> <| h_held := None |> <| h_updated_at := None |> in
  if hold_empty h then None else Some h.

(** The part of [enforce_device_exclusivity] that changes rows. *)
Definition clear_hold (u : DeviceUser) : DeviceUser :=
  match du_conn_hold u with
  | Some h => if has_legacy h then u <| du_conn_hold := strip_legacy h |> else u
  | None => u
  end.
Definition clear_holds (us : gmap Z DeviceUser) : gmap Z DeviceUser := clear_hold <$> us.

Definition cleared_users (us : gmap Z DeviceUser) : list (Z * DeviceUser) :=
  filter (λ x, match du_conn_hold x.2 with Some h => has_legacy h | None => false end = true) (map_to_list us).

(** [kick_excess_xray_ips]: whether the sessions of the user are reset. *)
Definition kick_excess_xray_ips (online : Z → option Z) (uid : Z) (u : DeviceUser) : bool :=
  match du_device_limit u with
  | Some cap => (0 <? cap) && match online uid with Some n => cap <? n | None => false end
  | None => false
  end.

Definition enforce_device_exclusivity (online : Z → option Z) (kick_ids : list Z) (us : gmap Z DeviceUser)
    : Z * list Z * gmap Z DeviceUser :=
  let us' := clear_holds us in
  let kicks := filter (λ uid, match us' !! uid with
                              | Some u => kick_excess_xray_ips online uid u
                              | None => false end = true) kick_ids in
  (Z.of_nat (length (cleared_users us)), kicks, us').

(** *** Session limits, [app/utils/session_limit.py] *)
Definition check_session_limit (now : Z) (u : DeviceUser) : result unit :=
  match du_session_limit u with
  | Some limit_min =>
      if limit_min <=? 0 then Ok tt
      else match du_online_at u with
           | None => Ok tt
           | Some online_at =>
               if limit_min * minute <? now - online_at
               then Raise (HTTPException 403 "Session time limit exceeded; reconnect to continue")
               else Ok tt
           end
  | None => Ok tt
  end.

Definition touch_online (now : Z) (u : DeviceUser) : DeviceUser :=
  if pos_limit (du_session_limit u) then u <| du_online_at := Some now |> else u.

(** [_enforce_export_guards] *)
Definition _enforce_export_guards (now : Z) (rq : Request) (u : DeviceUser) : result DeviceUser :=
  let is_browser := any_in browser_pats (lower (rq_ua rq)) && negb (known_client (rq_ua rq)) in
  let after := if negb is_browser then touch_online now u else u in
  match check_session_limit now u with
  | Ok _ => Ok after
  | Raise (HTTPException code detail) =>
      if negb (code =? 403) || negb (contains "Session time limit" detail)
      then Raise (HTTPException code detail) else Ok after
  | Raise e => Raise e
  end.

Section router.
Context (infra : gset string).

(** [_merge_device_policy_access]: whether the configurations are available. *)
Definition _merge_device_policy_access (now : Z) (rq : Request) (enforce config_available : bool) (u : DeviceUser)
    : bool * DeviceUser :=
  if negb config_available then (false, u)
  else if negb enforce then
    match get_device_lockout_remaining now u with
    | None => (true, record_and_check_device_limit infra now rq false u)
    | Some _ => (false, u)
    end
  else
    let '(policy, u) := apply_subscription_device_policy infra now rq u in
    (is_none policy, u).

(** [_ensure_device_export_allowed] *)
Definition _ensure_device_export_allowed (now : Z) (rq : Request) (u : DeviceUser) : result unit * DeviceUser :=
  match get_device_lockout_remaining now u with
  | None =>
      let '(policy, u) := apply_subscription_device_policy infra now rq u in
      (match policy with None => Ok tt | Some _ => Raise (HTTPException 403 "Device limit") end, u)
  | Some _ => (Raise (HTTPException 403 "Device limit"), u)
  end.
End router.
End LiveDevices.

(** ** Facts *)
Module DeviceFacts.
Import UserAgent DeviceLimit LiveDevices.

Section infra.
Context (infra : gset string).
Notation entries := (_client_device_entries infra).
Notation slots_of := (_active_platform_slots infra).

(** The platforms that count towards the limit of a user at a time. *)
Definition active (t : Z) (u : DeviceUser) : gset string :=
  slots_of (entries (_prune (_parse_ips u) t _ACTIVE_WINDOW)) t _CONCURRENT_IP_WINDOW.

(** A request that takes part in the count. *)
Definition counted (rq : Request) : bool :=
  negb (_is_browser_ua (strip (rq_ua rq))) && negb (_is_link_preview_ua (strip (rq_ua rq)))
  && negb (_is_infrastructure_ip infra (rq_ip rq) && String.eqb (strip (rq_hwid rq)) "" && String.eqb (strip (rq_ua rq)) "").

Definition platform_of (rq : Request) : string := classify_client_platform (rq_ua rq).

(** The other platforms of the user when the request arrives. *)
Definition kept (t : Z) (rq : Request) (u : DeviceUser) : DeviceIps :=
  _collapse_same_platform (entries (_prune (_parse_ips u) t _ACTIVE_WINDOW)) (platform_of rq)
    (device_fingerprint (rq_ua rq)).

Lemma dict_set_nonempty {A} k (v : A) d : dict_set k v d ≠ [].
Proof. destruct d as [|[k' v'] d]; cbn; [done|]. by destruct (String.eqb k' k). Qed.

Lemma elem_of_dict_set {A} k (v : A) d x : x ∈ dict_set k v d → x = (k, v) ∨ x ∈ d.
Proof.
  induction d as [|[k' v'] d IH]; cbn; [rewrite list_elem_of_singleton; auto|].
  destruct (String.eqb k' k); rewrite !elem_of_cons; naive_solver.
Qed.

Lemma fresh_later t t' w ts : t ≤ t' → fresh (t' - w) ts = true → fresh (t - w) ts = true.
Proof. intros Hle. destruct ts as [s|]; cbn; [|done]. rewrite !Z.leb_le. lia. Qed.

(** An entry counts exactly when its own time or that of an outside address does. *)
Lemma entry_is_active_spec e t w :
  _entry_is_active infra (VDict e) t w = true ↔
  fresh (t - w) (_parse_seen_ts (e_seen e)) = true ∨
  ∃ p, p ∈ e_recent e ∧ _is_infrastructure_ip infra p.1 = false ∧ fresh (t - w) (_parse_seen_ts (Some p.2)) = true.
Proof.
  unfold _entry_is_active, _entry_recent_ips.
  set (f := λ (out : list (string * Z)) (p : string * Stamp), _).
  assert (Hf : ∀ l out, foldl f out l ≠ [] ↔ out ≠ [] ∨ ∃ p, p ∈ l ∧ _is_infrastructure_ip infra p.1 = false
                 ∧ fresh (t - w) (_parse_seen_ts (Some p.2)) = true).
  { induction l as [|p l IH]; intros out; cbn [foldl]; [set_solver|]. rewrite IH.
    assert (Hp : f out p ≠ [] ↔ out ≠ [] ∨ (_is_infrastructure_ip infra p.1 = false
                   ∧ fresh (t - w) (_parse_seen_ts (Some p.2)) = true)).
    { subst f. cbn beta. destruct (_is_infrastructure_ip infra p.1); [naive_solver|].
      destruct p.2 as [s|s]; cbn [_parse_seen_ts fresh]; [|naive_solver].
      destruct (t - w <=? s); [|naive_solver]. split; [auto|]. intros _. apply dict_set_nonempty. }
    rewrite Hp. setoid_rewrite elem_of_cons. naive_solver. }
  specialize (Hf (e_recent e) []). set (out := foldl f [] (e_recent e)) in *.
  assert (Hout : ∀ l : list (string * Z), match l with _ :: _ => true | [] => fresh (t - w) (_parse_seen_ts (e_seen e)) end
            = true ↔ l ≠ [] ∨ fresh (t - w) (_parse_seen_ts (e_seen e)) = true) by (intros []; naive_solver).
  assert (Hf' : out ≠ [] ↔ ∃ p, p ∈ e_recent e ∧ _is_infrastructure_ip infra p.1 = false
            ∧ fresh (t - w) (_parse_seen_ts (Some p.2)) = true) by (rewrite Hf; split; [by intros [?|?] | by right]).
  rewrite Hout, <- Hf'. clear Hf Hf' Hout. destruct (e_ip e) as [ip|]; [|tauto].
  destruct (_is_infrastructure_ip infra ip); [tauto|].
  destruct (_parse_seen_ts (e_seen e)) as [s|]; [|tauto]. cbn [fresh].
  destruct (t - w <=? s); tauto.
Qed.

Lemma entry_active_later v t t' w : t ≤ t' → _entry_is_active infra v t' w = true → _entry_is_active infra v t w = true.
Proof.
  intros Hle. destruct v as [s|e|]; [by apply fresh_later| |done]. rewrite !entry_is_active_spec.
  intros [H|(p & Hp & Hi & H)]; [left; by eapply fresh_later|right; exists p; split_and!; [done..|by eapply fresh_later]].
Qed.

(** The dead branch of [_active_platform_slots]. *)
Lemma slot_of_spec t w kv s : slot_of infra t w kv = Some s ↔
  ignored_ua kv.2 = false ∧ _entry_is_active infra kv.2 t w = true ∧ s = _platform_from_entry kv.1 kv.2.
Proof.
  unfold slot_of. destruct (ignored_ua kv.2); [naive_solver|].
  destruct (_entry_is_active infra kv.2 t w) eqn:E; cbn [negb]; [naive_solver|].
  assert (fresh (t - w) (_parse_seen_ts (_entry_seen kv.2)) = false) as ->.
  { destruct kv.2 as [s'|e|]; [exact E| |done]. cbn [_entry_seen].
    destruct (fresh _ _) eqn:F; [|done]. assert (_entry_is_active infra (VDict e) t w = true) by
      (apply entry_is_active_spec; by left). congruence. }
  rewrite andb_false_r. naive_solver.
Qed.

Lemma elem_of_slots ips t w s : s ∈ slots_of ips t w ↔
  ∃ kv, kv ∈ ips ∧ ignored_ua kv.2 = false ∧ _entry_is_active infra kv.2 t w = true ∧ s = _platform_from_entry kv.1 kv.2.
Proof.
  unfold _active_platform_slots. rewrite elem_of_list_to_set, list_elem_of_omap. setoid_rewrite slot_of_spec. done.
Qed.

Lemma slots_mono ips ips' t t' w : (∀ kv, kv ∈ ips' → kv ∈ ips) → t ≤ t' → slots_of ips' t' w ⊆ slots_of ips t w.
Proof.
  intros Hsub Hle s. rewrite !elem_of_slots. intros (kv & Hin & Hi & Ha & ->).
  exists kv. split_and!; auto. by eapply entry_active_later.
Qed.

Lemma entries_sub ips kv : kv ∈ entries ips → kv ∈ ips.
Proof. unfold _client_device_entries. by intros [_ H]%list_elem_of_filter. Qed.

Lemma prune_later ips t t' w kv : t ≤ t' → kv ∈ entries (_prune ips t' w) → kv ∈ entries (_prune ips t w).
Proof.
  intros Hle. unfold _client_device_entries, _prune. rewrite !list_elem_of_filter.
  intros (H1 & H2 & H3). split_and!; [done| |done]. apply Is_true_true in H2. apply Is_true_true. by eapply fresh_later.
Qed.

(** Time only frees slots. *)
Lemma active_later u t t' : t ≤ t' → active t' u ⊆ active t u.
Proof. intros Hle. apply slots_mono; [|done]. intros kv. by apply prune_later. Qed.

Lemma kept_sub t rq u kv : kv ∈ kept t rq u → kv ∈ entries (_prune (_parse_ips u) t _ACTIVE_WINDOW).
Proof. unfold kept, _collapse_same_platform. by intros [_ H]%list_elem_of_filter. Qed.

Lemma kept_slots t rq u : slots_of (kept t rq u) t _CONCURRENT_IP_WINDOW ⊆ active t u.
Proof. apply slots_mono; [apply kept_sub | done]. Qed.

Lemma hint_at_in l os p : hint_at l os = Some p → p ∈ os.
Proof. induction os as [|o os IH]; cbn; [done|]. case_match; [intros [= <-]; left | right; auto]. Qed.

Lemma platform_hint_in l p : platform_hint l = Some p →
  p ∈ ["ios"; "android"; "windows"; "macos"; "linux"; "mac"]%string.
Proof.
  induction l as [|c l IH]; [done|]. cbn -[hint_at is_prefix drop].
  destruct (is_prefix _ _); [|apply IH]. destruct (hint_at _ _) as [q|] eqn:E; [|apply IH].
  intros [= <-]. by eapply hint_at_in.
Qed.

Lemma classify_nonempty ua : classify_client_platform ua ≠ ""%string.
Proof.
  unfold classify_client_platform. destruct (platform_hint _) as [p|] eqn:E.
  - apply platform_hint_in in E. destruct (String.eqb p "macos" || _); [done|]. intros ->. set_solver.
  - repeat case_match; done.
Qed.

Lemma platform_of_fingerprint ua v :
  _platform_from_entry (device_fingerprint ua) v = classify_client_platform ua.
Proof.
  unfold _platform_from_entry, device_fingerprint, after_colon.
  pose proof (classify_nonempty ua) as Hne. set (p := classify_client_platform ua) in *. clearbody p.
  change (startswith "plat:" ("plat:" ++ p)) with true. cbn iota.
  change (drop 5 (String.list_ascii_of_string ("plat:" ++ p))) with (String.list_ascii_of_string p).
  rewrite String.string_of_list_ascii_of_string. apply String.eqb_neq in Hne. by rewrite Hne.
Qed.

(** *** What one request does *)
Definition recorded (t : Z) (rq : Request) (u : DeviceUser) : DeviceUser :=
  record_and_check_device_limit infra t rq false u.

Definition full (t : Z) (rq : Request) (u : DeviceUser) : bool :=
  let slots := slots_of (kept t rq u) t _CONCURRENT_IP_WINDOW in
  counted rq && (0 <? or0 (du_device_limit u)) && negb (bool_decide (platform_of rq ∈ slots))
  && (or0 (du_device_limit u) <=? Z.of_nat (size slots)).

Definition locked (t : Z) (rq : Request) (u : DeviceUser) : DeviceUser :=
  (start_device_lockout infra t u DEVICE_LOCKOUT_MINUTES "device_limit"
     (if negb (_is_infrastructure_ip infra (rq_ip rq)) then rq_ip rq else ""%string)
     (strip (rq_ua rq)) (platform_of rq)).2.

(** The check locks exactly a full account and records otherwise. *)
Lemma record_enforced t rq u :
  record_and_check_device_limit infra t rq true u = if full t rq u then locked t rq u else recorded t rq u.
Proof.
  unfold recorded, locked, record_and_check_device_limit, full, counted, platform_of, kept.
  destruct (_is_browser_ua _); [done|]. destruct (_is_link_preview_ua _); [done|].
  by destruct (_is_infrastructure_ip infra (rq_ip rq) && _ && _).
Qed.

Lemma recorded_hold t rq u : du_conn_hold (recorded t rq u) = du_conn_hold u ∧
  du_device_limit (recorded t rq u) = du_device_limit u.
Proof.
  unfold recorded, record_and_check_device_limit. destruct (_is_browser_ua _); [done|].
  destruct (_is_link_preview_ua _); [done|]. destruct (_is_infrastructure_ip infra (rq_ip rq) && _ && _);
    split; reflexivity.
Qed.

Lemma recorded_ips t rq u : recorded t rq u = u ∨
  ∃ e, du_device_ips (recorded t rq u) = Some (dict_set (device_fingerprint (rq_ua rq)) (VDict e) (kept t rq u))
       ∧ e_seen e = Some (Iso t) ∧ counted rq = true.
Proof.
  unfold recorded, record_and_check_device_limit, counted, kept, platform_of.
  destruct (_is_browser_ua _); [by left|]. destruct (_is_link_preview_ua _); [by left|].
  destruct (_is_infrastructure_ip infra (rq_ip rq) && _ && _); [by left|]. right. eexists. done.
Qed.

(** The slots after recording: those before and the platform of the request. *)
Lemma recorded_slots t rq u : active t (recorded t rq u) ⊆
  if counted rq then {[platform_of rq]} ∪ slots_of (kept t rq u) t _CONCURRENT_IP_WINDOW else active t u.
Proof.
  destruct (recorded_ips t rq u) as [->|(e & He & _ & Hc)].
  - destruct (counted rq); [|done]. intros s Hs. apply elem_of_slots in Hs as (kv & Hin & Hi & Ha & ->).
    destruct (decide (_platform_from_entry kv.1 kv.2 = platform_of rq)) as [->|Hne]; [set_solver|].
    apply elem_of_union_r, elem_of_slots. exists kv. split_and!; try done.
    unfold kept, _collapse_same_platform. apply list_elem_of_filter. split; [|done].
    apply String.eqb_neq in Hne. apply Is_true_true. rewrite Hne. apply orb_true_r.
  - rewrite Hc. intros s Hs. apply elem_of_slots in Hs as (kv & Hin & Hi & Ha & ->).
    apply entries_sub in Hin. unfold _prune in Hin. apply list_elem_of_filter in Hin as [_ Hin].
    unfold _parse_ips in Hin. rewrite He in Hin. cbn in Hin. apply elem_of_dict_set in Hin as [->|Hin].
    + cbn [fst snd]. rewrite platform_of_fingerprint. set_solver.
    + apply elem_of_union_r, elem_of_slots. by exists kv.
Qed.

Lemma start_lockout_runs t u m reason ip ua p : 0 < or0 (du_device_limit u) → 0 < m →
  ∃ h, start_device_lockout infra t u m reason ip ua p = (m, u <| du_conn_hold := Some h |>) ∧
       h_until h = Some (Iso (t + m * minute)) ∧ h_reason h = Some reason ∧ h_winner h = h_winner (_hold_dict u).
Proof.
  intros Hl Hm. unfold start_device_lockout.
  replace (pos_limit (du_device_limit u)) with true.
  2:{ unfold pos_limit. destruct (du_device_limit u); cbn in *; [|lia]. symmetry. by apply Z.ltb_lt. }
  cbn [negb]. destruct (Z.eqb_spec m 0); [lia|]. rewrite Z.max_r by lia. eexists. split; [reflexivity|].
  by case_match.
Qed.

Lemma remaining_fresh_lock t t' u h m : h_until h = Some (Iso (t + m * minute)) →
  get_device_lockout_remaining t' (u <| du_conn_hold := Some h |>) =
  if t' + second <=? t + m * minute then Some (Z.quot (t + m * minute - t') second) else None.
Proof.
  intros Hu. unfold get_device_lockout_remaining.
  change (_hold_dict (u <| du_conn_hold := Some h |>)) with h. rewrite Hu.
  unfold second. destruct (Z.leb_spec (t' + 1000000) (t + m * minute)) as [Hle|Hgt].
  - rewrite (proj2 (Z.ltb_lt _ _)); [done|]. rewrite Z.quot_div_nonneg by lia. apply Z.div_str_pos. lia.
  - rewrite (proj2 (Z.ltb_ge _ _)); [done|].
    destruct (Z.le_gt_cases 0 (t + m * minute - t')).
    + rewrite Z.quot_small by lia. done.
    + apply Z.quot_le_upper_bound; lia.
Qed.

Lemma full_limit t rq u : full t rq u = true → 0 < or0 (du_device_limit u) ∧ pos_limit (du_device_limit u) = true.
Proof.
  unfold full. rewrite !andb_true_iff, Z.ltb_lt. intros [[[_ H] _] _]. split; [done|].
  destruct (du_device_limit u); cbn in *; [by apply Z.ltb_lt | lia].
Qed.

Lemma locked_runs t rq u : full t rq u = true →
  ∃ h, locked t rq u = u <| du_conn_hold := Some h |> ∧ h_until h = Some (Iso (t + 30 * minute)).
Proof.
  intros [Hl _]%full_limit. unfold locked.
  edestruct (start_lockout_runs t u DEVICE_LOCKOUT_MINUTES "device_limit") as (h & E & Hu & _); [done..|].
  rewrite E. by exists h.
Qed.

Lemma remaining_hold t u u' : du_conn_hold u' = du_conn_hold u →
  get_device_lockout_remaining t u' = get_device_lockout_remaining t u.
Proof. intros H. unfold get_device_lockout_remaining, _hold_dict. by rewrite H. Qed.

Lemma full_unlimited t rq u : pos_limit (du_device_limit u) = false → full t rq u = false.
Proof. intros H. destruct (full t rq u) eqn:E; [|done]. apply full_limit in E as [_ E]. congruence. Qed.

(** One enforced request in an account that is not locked. *)
Lemma policy_runs t rq u : get_device_lockout_remaining t u = None →
  apply_subscription_device_policy infra t rq u =
  if full t rq u then (Some (blocked infra t 1800 (locked t rq u)), locked t rq u) else (None, recorded t rq u).
Proof.
  intros Hn. unfold apply_subscription_device_policy. rewrite Hn.
  destruct (pos_limit (du_device_limit u)) eqn:Hp; cbn [negb]; [|by rewrite full_unlimited].
  rewrite record_enforced. destruct (full t rq u) eqn:Hf.
  - destruct (locked_runs t rq u Hf) as (h & Hh & Hu). rewrite Hh at 1. rewrite (remaining_fresh_lock t t u h 30 Hu).
    rewrite (proj2 (Z.leb_le _ _)) by (unfold second, minute, second; lia).
    replace (Z.quot (t + 30 * minute - t) second) with 1800; [done|].
    replace (t + 30 * minute - t) with (1800 * second) by (unfold minute; lia). by rewrite Z.quot_mul.
  - by rewrite (remaining_hold t u) by apply recorded_hold; rewrite Hn.
Qed.

(** A subscription request is refused exactly when a lockout is running or starts with it,
    and one starts exactly when the request counts, the account has a limit, its
    platform is not among the active ones and those already fill the limit.  A lockout
    lasts thirty minutes: within it (up to its last second) every request of any
    client is refused, nothing is recorded and nothing prolongs it; afterwards the
    account is free again. *)
Theorem lockout_exact t rq u : get_device_lockout_remaining t u = None →
  let '(policy, u') := apply_subscription_device_policy infra t rq u in
  (policy = None ↔ full t rq u = false) ∧
  (full t rq u = true →
     du_device_ips u' = du_device_ips u ∧
     (∀ p, policy = Some p → po_minutes_left p = 30 ∧ po_lockout_seconds_left p = 1800) ∧
     (∀ t' rq', t ≤ t' → t' + second ≤ t + 30 * minute →
        ∃ p, apply_subscription_device_policy infra t' rq' u' = (Some p, u') ∧
             1 ≤ po_minutes_left p ≤ 30 ∧ 1 ≤ po_lockout_seconds_left p ≤ 1800) ∧
     (∀ t', t + 30 * minute < t' + second → get_device_lockout_remaining t' u' = None)).
Proof.
  intros Hn. rewrite (policy_runs t rq u Hn). destruct (full t rq u) eqn:Hf; [|done].
  split; [done|]. intros _. destruct (locked_runs t rq u Hf) as (h & -> & Hu).
  split_and!; [done | by intros p [= <-] | |].
  - intros t' rq' Hle Hin. unfold apply_subscription_device_policy.
    rewrite (remaining_fresh_lock t t' u h 30 Hu), (proj2 (Z.leb_le _ _)) by done.
    eexists. split; [reflexivity|]. cbn [blocked po_minutes_left po_lockout_seconds_left].
    set (q := Z.quot _ _). assert (1 ≤ q ≤ 1800).
    { subst q. unfold minute, second in *. rewrite Z.quot_div_nonneg by lia. split.
      - apply Z.div_le_lower_bound; lia.
      - apply Z.div_le_upper_bound; lia. }
    split; [|done]. assert (1 ≤ (q + 59) / 60 ≤ 30); [|lia].
    split; [apply Z.div_le_lower_bound; lia|]. assert ((q + 59) / 60 < 31); [|lia]. apply Z.div_lt_upper_bound; lia.
  - intros t' Hgt. rewrite (remaining_fresh_lock t t' u h 30 Hu). by rewrite (proj2 (Z.leb_gt _ _)).
Qed.

(** *** One phone is one device *)
Definition on_platform (p : string) (ips : DeviceIps) : Prop :=
  Forall (λ kv, _platform_from_entry kv.1 kv.2 = p) ips.

Lemma on_platform_recorded p t rq u :
  (counted rq = true → platform_of rq = p) → on_platform p (_parse_ips u) → on_platform p (_parse_ips (recorded t rq u)).
Proof.
  intros Hp Hall. destruct (recorded_ips t rq u) as [->|(e & He & _ & Hc)]; [done|].
  unfold on_platform in *. rewrite Forall_forall in *. unfold _parse_ips at 1. rewrite He. cbn [default from_option].
  intros kv [->|Hin]%elem_of_dict_set.
  - cbn. rewrite platform_of_fingerprint. by apply Hp.
  - apply Hall. apply kept_sub, entries_sub in Hin. by apply list_elem_of_filter in Hin as [_ ?].
Qed.

Lemma on_platform_not_full p t rq u :
  (counted rq = true → platform_of rq = p) → on_platform p (_parse_ips u) → full t rq u = false.
Proof.
  intros Hp Hall. unfold full. destruct (counted rq) eqn:Hc; [|done]. rewrite (Hp eq_refl).
  destruct (Z.ltb_spec 0 (or0 (du_device_limit u))) as [Hl|]; [|done]. cbn [andb].
  set (sl := slots_of _ _ _). case_bool_decide as Hin; [done|]. cbn [negb andb].
  assert (sl = ∅) as ->; [|rewrite size_empty; apply Z.leb_gt; lia].
  apply set_eq. intros s. split; [|set_solver]. intros Hs. exfalso. apply Hin.
  apply elem_of_slots in Hs as Hs'. destruct Hs' as (kv & Hkv & _ & _ & ->).
  apply kept_sub, entries_sub in Hkv. apply list_elem_of_filter in Hkv as [_ Hkv].
  unfold on_platform in Hall. rewrite Forall_forall in Hall. by rewrite (Hall kv Hkv) in Hs.
Qed.

Fixpoint serve (l : list (Z * Request)) (u : DeviceUser) : list (option Policy) * DeviceUser :=
  match l with
  | [] => ([], u)
  | (t, rq) :: l => let '(p, u) := apply_subscription_device_policy infra t rq u in
                    let '(ps, u) := serve l u in (p :: ps, u)
  end.

(** One device never locks itself out: whatever the limit, a sequence of requests that all
    come from one platform, mixed with browser views and link previews of any kind and
    with any addresses and times, is served in full. *)
Theorem one_platform_never_locked p l u :
  (∀ t, get_device_lockout_remaining t u = None) → on_platform p (_parse_ips u) →
  Forall (λ x, counted x.2 = true → platform_of x.2 = p) l →
  Forall (λ policy, policy = None) (serve l u).1 ∧ ∀ t, get_device_lockout_remaining t (serve l u).2 = None.
Proof.
  revert u. induction l as [|[t rq] l IH]; intros u Hn Hp Hall; [done|].
  apply Forall_cons in Hall as [Hrq Hall]. cbn [serve].
  rewrite (policy_runs t rq u (Hn t)), (on_platform_not_full p t rq u Hrq Hp).
  specialize (IH (recorded t rq u)). destruct (serve l (recorded t rq u)) as [ps u']. cbn [fst snd] in *.
  destruct IH as [H1 H2]; [|by apply on_platform_recorded|done|].
  - intros t'. rewrite (remaining_hold t' u); [done|apply recorded_hold].
  - split; [by constructor | done].
Qed.

(** *** The limit holds *)
Lemma limit_kept t rq u : du_device_limit (apply_subscription_device_policy infra t rq u).2 = du_device_limit u.
Proof.
  destruct (get_device_lockout_remaining t u) eqn:E; [unfold apply_subscription_device_policy; by rewrite E|].
  rewrite (policy_runs t rq u E). destruct (full t rq u) eqn:Hf; [|apply recorded_hold].
  by destruct (locked_runs t rq u Hf) as (h & -> & _).
Qed.

Lemma slots_step t t' rq u : 0 < or0 (du_device_limit u) → t ≤ t' →
  Z.of_nat (size (active t u)) ≤ or0 (du_device_limit u) →
  Z.of_nat (size (active t' (apply_subscription_device_policy infra t' rq u).2)) ≤ or0 (du_device_limit u).
Proof.
  intros Hl Hle Hsz.
  assert (Hold : Z.of_nat (size (active t' u)) ≤ or0 (du_device_limit u)).
  { pose proof (subseteq_size _ _ (active_later u t t' Hle)). lia. }
  destruct (get_device_lockout_remaining t' u) eqn:E; [unfold apply_subscription_device_policy; by rewrite E|].
  rewrite (policy_runs t' rq u E). destruct (full t' rq u) eqn:Hf.
  - destruct (locked_runs t' rq u Hf) as (h & -> & _). exact Hold.
  - cbn [snd]. pose proof (subseteq_size _ _ (recorded_slots t' rq u)) as Hrec.
    destruct (counted rq) eqn:Hc; [|lia]. unfold full in Hf. rewrite Hc, (proj2 (Z.ltb_lt _ _) Hl) in Hf.
    cbn [andb] in Hf. pose proof (subseteq_size _ _ (kept_slots t' rq u)) as Hk. set (sl := slots_of _ _ _) in *.
    case_bool_decide as Hin; cbn [negb andb] in Hf.
    + rewrite (subseteq_union_1_L {[platform_of rq]} sl) in Hrec by (by apply singleton_subseteq_l). lia.
    + apply Z.leb_gt in Hf. rewrite size_union, size_singleton in Hrec by (by apply disjoint_singleton_l). lia.
Qed.

(** C17. The limit holds: along any sequence of requests in time order, from any mix of
    platforms, with lockouts starting and ending in between, the number of platforms
    that count never exceeds the account's limit, now or later. *)
Theorem slots_within_limit l : ∀ t u, 0 < or0 (du_device_limit u) →
  Z.of_nat (size (active t u)) ≤ or0 (du_device_limit u) → StronglySorted Z.le (t :: l.*1) →
  ∀ t', Forall (λ x, x ≤ t') (t :: l.*1) →
    Z.of_nat (size (active t' (serve l u).2)) ≤ or0 (du_device_limit u).
Proof.
  induction l as [|[t1 rq] l IH]; intros t u Hl Hsz Hs t' Hall.
  - cbn [serve snd]. apply Forall_cons in Hall as [Hle _].
    pose proof (subseteq_size _ _ (active_later u t t' Hle)). lia.
  - inversion_clear Hs as [|? ? Hs' Hf]. cbn [fmap list_fmap fst] in *. apply Forall_cons in Hf as [Hle _].
    apply Forall_cons in Hall as [_ Hall]. cbn [serve].
    pose proof (slots_step t t1 rq u Hl Hle Hsz) as Hstep. pose proof (limit_kept t1 rq u) as Hlim.
    destruct (apply_subscription_device_policy infra t1 rq u) as [p u1]. cbn [snd] in *.
    specialize (IH t1 u1). destruct (serve l u1) as [ps u2]. cbn [snd] in *.
    rewrite <- Hlim in *. by apply IH.
Qed.
End infra.

(** *** The session limit and legacy holds *)

(** The refusal of [check_session_limit] never reaches the client: the guard that calls it
    catches exactly that exception. *)
Lemma session_limit_has_no_effect now rq u :
  ∃ u', _enforce_export_guards now rq u = Ok u' ∧ (u' = u ∨ u' = touch_online now u).
Proof.
  unfold _enforce_export_guards.
  assert (H : check_session_limit now u = Ok tt ∨ check_session_limit now u
    = Raise (HTTPException 403 "Session time limit exceeded; reconnect to continue")).
  { unfold check_session_limit. repeat case_match; auto. }
  destruct H as [-> | ->].
  - eexists. split; [reflexivity|]. destruct (negb _); auto.
  - change (negb (403 =? 403) || negb (contains "Session time limit" "Session time limit exceeded; reconnect to continue"))
      with false. eexists. split; [reflexivity|]. destruct (negb (_ && _)); auto.
Qed.

(** Clearing the legacy protocol holds leaves every running lockout as it is, no hold is left,
    and a second run clears nobody. *)
Lemma clearing_keeps_lockouts online ids us :
  let '(n, _, us') := enforce_device_exclusivity online ids us in
  (∀ uid u, us !! uid = Some u → ∃ u', us' !! uid = Some u' ∧ get_hold u' = None ∧
     (∀ t, get_device_lockout_remaining t u' = get_device_lockout_remaining t u) ∧
     du_device_ips u' = du_device_ips u ∧ du_device_limit u' = du_device_limit u) ∧
  (enforce_device_exclusivity online ids us').1.1 = 0 ∧ clear_holds us' = us'.
Proof.
  unfold enforce_device_exclusivity. cbn [fst]. set (f := clear_hold).
  assert (Hf : ∀ u, match du_conn_hold (f u) with Some h => has_legacy h | None => false end = false).
  { intros u. subst f. unfold clear_hold. destruct (du_conn_hold u) as [h|] eqn:E; [|by rewrite E].
    destruct (has_legacy h) eqn:Hl; [|by rewrite E]. cbn. unfold strip_legacy.
    destruct (hold_empty _); done. }
  assert (Hid : ∀ u, f (f u) = f u).
  { intros u. pose proof (Hf u) as H. set (v := f u) in *. clearbody v. subst f. unfold clear_hold.
    destruct (du_conn_hold v) as [h|]; [|done]. by rewrite H. }
  split_and!.
  - intros uid u Hu. exists (f u). unfold clear_holds. rewrite lookup_fmap, Hu. split; [done|].
    subst f. unfold clear_hold. destruct (du_conn_hold u) as [h|] eqn:E.
    2:{ unfold get_hold. by rewrite E. }
    destruct (has_legacy h) eqn:Hl.
    + split_and!; try done.
      * unfold get_hold. cbn. unfold strip_legacy. by destruct (hold_empty _).
      * intros t. unfold get_device_lockout_remaining, _hold_dict. rewrite E. cbn. unfold strip_legacy.
        destruct (hold_empty _) eqn:He; [|done]. unfold hold_empty in He. cbn in He. rewrite !andb_true_iff in He.
        destruct He as [[[[[He _] _] _] _] _]. by destruct (h_until h).
    + split_and!; try done. unfold get_hold. rewrite E. unfold has_legacy in Hl. cbn.
      by destruct (h_winner h).
  - unfold cleared_users. destruct (filter _ _) as [|[uid u] l] eqn:E; [done|]. exfalso.
    assert (Hin : (uid, u) ∈ filter (λ x : Z * DeviceUser,
        match du_conn_hold x.2 with Some h => has_legacy h | None => false end = true) (map_to_list (clear_holds us)))
      by (rewrite E; left).
    apply list_elem_of_filter in Hin as [Ht Hin]. apply elem_of_map_to_list in Hin. cbn [snd] in Ht.
    unfold clear_holds in Hin. rewrite lookup_fmap in Hin. destruct (us !! uid) as [v|]; [|done].
    cbn in Hin. injection Hin as <-. pose proof (Hf v) as Hv. subst f. by rewrite Hv in Ht.
  - unfold clear_holds. rewrite <- map_fmap_compose. apply map_fmap_ext. intros uid u _. apply Hid.
Qed.

(** *** The live check *)
Section live.
Context (infra : gset string) (online : Z → option Z).

Lemma check_target_other now x s uid : uid ≠ x.1 →
  lv_streak (check_target infra online now x s).1 !! uid = lv_streak s !! uid ∧
  lv_users (check_target infra online now x s).1 !! uid = lv_users s !! uid.
Proof.
  destruct x as [i l]. cbn [fst]. intros Hne. unfold check_target.
  destruct (negb _); cbn.
  - by rewrite lookup_delete_ne.
  - destruct (_ <? _); cbn; [by rewrite lookup_insert_ne|].
    unfold lock_and_kick. cbn. destruct (lv_users s !! i); cbn; by rewrite !lookup_insert_ne.
Qed.

Lemma check_targets_other now l uid : ∀ hot s, uid ∉ l.*1 →
  lv_streak (check_targets infra online now l hot s).1 !! uid = lv_streak s !! uid ∧
  lv_users (check_targets infra online now l hot s).1 !! uid = lv_users s !! uid.
Proof.
  induction l as [|x l IH]; intros hot s Hn; cbn [check_targets]; [done|].
  cbn [fmap list_fmap] in Hn. apply not_elem_of_cons in Hn as [Hx Hl].
  pose proof (check_target_other now x s uid Hx) as [H1 H2].
  destruct (check_target infra online now x s) as [s' h]. cbn [fst] in *.
  destruct (IH (if h then {[x.1]} ∪ hot else hot) s' Hl) as [H3 H4]. by rewrite H3, H4.
Qed.

(** A tick for other candidates leaves a user's streak standing: with a candidate list the
    observations that add up to a lockout need not be consecutive. *)
Lemma gap_keeps_streak now ids s uid : uid ∉ ids →
  lv_streak (enforce_live_device_limits infra online now (Some ids) s).2 !! uid = lv_streak s !! uid.
Proof.
  intros Hn. destruct ids as [|i ids]; [done|]. unfold enforce_live_device_limits.
  assert (Ht : uid ∉ (targets (Some (i :: ids)) s).*1).
  { unfold targets. rewrite <- list_fmap_compose. intros (x & -> & Hx)%list_elem_of_fmap.
    apply list_elem_of_filter in Hx as [Hx _]. apply Is_true_true in Hx. unfold limited in Hx.
    rewrite !andb_true_iff, bool_decide_eq_true in Hx. by destruct Hx as [_ Hx]. }
  pose proof (check_targets_other now _ uid ∅ s Ht) as [H _].
  destruct (check_targets infra online now (targets (Some (i :: ids)) s) ∅ s) as [s' hot]. exact H.
Qed.

(** What a tick does to a user it looks at. *)
Lemma check_target_spec now uid limit s u :
  lv_users s !! uid = Some u → du_device_limit u = Some limit → 0 < limit →
  let s' := (check_target infra online now (uid, limit) s).1 in
  let over := match online uid with Some n => limit <? n | None => false end in
  let streak := or0 (lv_streak s !! uid) + 1 in
  lv_streak s' !! uid = (if over then Some streak else None) ∧
  ∃ u', lv_users s' !! uid = Some u' ∧
    if over && (_LIVE_OVER_STREAK_NEED <=? streak)
    then is_Some (get_device_lockout_remaining now u') ∧ uid ∈ lv_kicked s'
    else u' = u.
Proof.
  intros Hu Hl Hpos. cbv zeta. unfold check_target.
  destruct (match online uid with Some n => limit <? n | None => false end); cbn [negb andb].
  2:{ cbn. rewrite lookup_delete_eq. eauto. }
  destruct (Z.ltb_spec (or0 (lv_streak s !! uid) + 1) _LIVE_OVER_STREAK_NEED) as [Hlt|Hge]; cbn.
  - rewrite lookup_insert_eq. split; [done|]. exists u. split; [done|].
    by rewrite (proj2 (Z.leb_gt _ _)).
  - unfold lock_and_kick. cbn. rewrite Hu. cbn. rewrite !lookup_insert_eq. split; [done|]. eexists. split; [done|].
    rewrite (proj2 (Z.leb_le _ _)) by done. split; [|set_solver].
    destruct (get_device_lockout_remaining now u) as [r|] eqn:E; [by rewrite E|].
    edestruct (start_lockout_runs infra now u DEVICE_LOCKOUT_MINUTES "device_limit_live") as (h & Eh & Huntil & _);
      [by rewrite Hl | done|]. rewrite Eh. cbn [snd]. rewrite (remaining_fresh_lock now now u h _ Huntil).
    rewrite (proj2 (Z.leb_le _ _)); [done|]. unfold DEVICE_LOCKOUT_MINUTES, minute, second. lia.
Qed.
End live.
End DeviceFacts.

(** ** Examples *)
Module DeviceExamples.
Import UserAgent DeviceLimit LiveDevices DeviceFacts.

Definition infra0 : gset string := {["127.0.0.1"; "::1"; "unknown"]}%string.
Definition alice : DeviceUser := mkDeviceUser "alice" true (Some 1) None None None (Some 10).
Definition phone : Request := mkRequest "1.1.1.1" "Shadowrocket/1982 iPhone" "".
Definition phone_lte : Request := mkRequest "2.2.2.2" "Stash/2.5 iOS" "".
Definition laptop : Request := mkRequest "3.3.3.3" "v2rayN/6.0 Windows" "".
Definition preview : Request := mkRequest "4.4.4.4" "WhatsApp/2.23" "".

Example platforms : platform_of <$> [phone; phone_lte; laptop] = ["ios"; "ios"; "windows"]%string.
Proof. vm_compute. reflexivity. Qed.

Definition at_home : DeviceUser := (apply_subscription_device_policy infra0 0 phone alice).2.

Lemma lockout_exact_witness :
  get_device_lockout_remaining (5 * minute) at_home = None ∧ full infra0 (5 * minute) laptop at_home = true ∧
  (apply_subscription_device_policy infra0 (5 * minute) laptop at_home).1 ≠ None.
Proof.
  assert (Hn : get_device_lockout_remaining (5 * minute) at_home = None) by (vm_compute; reflexivity).
  assert (Hf : full infra0 (5 * minute) laptop at_home = true) by (vm_compute; reflexivity).
  pose proof (lockout_exact infra0 (5 * minute) laptop at_home Hn) as H.
  split; [exact Hn|]. split; [exact Hf|].
  destruct (apply_subscription_device_policy infra0 (5 * minute) laptop at_home) as [p u'].
  destruct H as [H _]. intros Hp. apply H in Hp. congruence.
Defined.

Definition day_out : list (Z * Request) := [(0, phone); (minute, preview); (2 * minute, phone_lte); (90 * minute, phone)].

Lemma one_platform_never_locked_witness :
  Forall (λ policy, policy = None) (serve infra0 day_out alice).1.
Proof.
  apply (one_platform_never_locked infra0 "ios" day_out alice).
  - intros t. reflexivity.
  - constructor.
  - unfold day_out. repeat constructor; vm_compute; first [reflexivity | discriminate].
Defined.

Definition shared_use : list (Z * Request) :=
  [(0, phone); (5 * minute, laptop); (20 * minute, phone); (80 * minute, laptop); (81 * minute, phone)].

Lemma slots_within_limit_witness :
  Z.of_nat (size (active infra0 (81 * minute) (serve infra0 shared_use alice).2)) ≤ 1.
Proof.
  apply (slots_within_limit infra0 shared_use 0 alice).
  - vm_compute. reflexivity.
  - vm_compute. discriminate.
  - unfold shared_use. repeat constructor; vm_compute; discriminate.
  - unfold shared_use. repeat constructor; vm_compute; discriminate.
Defined.

(** The laptop is refused at minute 5, the phone within the lockout too; after it the
    laptop takes the slot. *)
Example shared_replies : is_none <$> (serve infra0 shared_use alice).1 = [true; false; false; true; false].
Proof. vm_compute. reflexivity. Qed.
End DeviceExamples.
