(* ===== verification/Leases.v ===== *)
(** * Leases: leader election and failover detection

    [app/ha.py], [app/runtime_role.py] and [app/cluster/__init__.py].

    The panel instances share one Redis key.  Each Redis command is atomic; the
    commands of one iteration of the renew loop interleave with those of the other
    instances and with the passing of time, so the election is a step relation whose
    steps are single commands.  Times are milliseconds of Redis' clock. *)
From S2P Require Import Prelude.

Module Ha.

Section config.
(** [HA_LEADER_TTL] in seconds. *)
Context (HA_LEADER_TTL : Z).

Definition ttl_ms : Z := Z.max HA_LEADER_TTL 2 * 1000.
(** The pause of the renew loop, in seconds. *)
Definition interval : Z := Z.max (HA_LEADER_TTL / 3) 1.

(** Where the renew loop of an instance is: waiting, past the wait, after a refused
    [SET NX], after a [GET] that returned its own name. *)
Inductive Pc := Idle | Started | NxRefused | GotOwn.
(** Where [stop] is, which another thread of the instance runs. *)
Inductive StopPc := Running | StopGotOwn | Stopped.

Record Redis := mkRedis {
  now : Z;
  leader_key : option (string * Z);       (* holder and expiry *)
  is_leader_flag : gmap string bool;      (* [_is_leader] of each instance *)
  pc : gmap string Pc;
  stopper : gmap string StopPc }.
#[export] Instance eta_Redis : Eta Redis := λ s,
  mkRedis (now s) (leader_key s) (is_leader_flag s) (pc s) (stopper s).

(** An expired key is absent. *)
Definition holder (s : Redis) : option string :=
  match leader_key s with
  | Some (h, e) => if now s <? e then Some h else None
  | None => None
  end.

Definition is_leader (i : string) (s : Redis) : bool := default false (is_leader_flag s !! i).
Definition at_pc (i : string) (s : Redis) : Pc := default Idle (pc s !! i).
Definition at_stop (i : string) (s : Redis) : StopPc := default Running (stopper s !! i).

Definition outcome (i : string) (leader : bool) (s : Redis) : Redis :=
  s <| is_leader_flag := <[i := leader]> (is_leader_flag s) |> <| pc := <[i := Idle]> (pc s) |>.

Definition take_key (i : string) (s : Redis) : Redis := s <| leader_key := Some (i, now s + ttl_ms) |>.

(** [_stop.wait] timed out. *)
Definition begin (i : string) (s : Redis) : Redis := s <| pc := <[i := Started]> (pc s) |>.

(** [client.set(key, me, nx=True, px=ttl)] *)
Definition set_nx (i : string) (s : Redis) : Redis :=
  match holder s with
  | None => outcome i true (take_key i s)
  | Some _ => s <| pc := <[i := NxRefused]> (pc s) |>
  end.

(** [client.get(key) == me] *)
Definition get_key (i : string) (s : Redis) : Redis :=
  if bool_decide (holder s = Some i) then s <| pc := <[i := GotOwn]> (pc s) |> else outcome i false s.

(** [client.set(key, me, px=ttl)] *)
Definition renew (i : string) (s : Redis) : Redis := outcome i true (take_key i s).

(** An exception anywhere in the iteration. *)
Definition fail (i : string) (s : Redis) : Redis := outcome i false s.

(** [stop]: [_stop] is set, then the key is deleted if the value read is ours; the flag
    is left, and nothing waits for an iteration under way. *)
Definition stop_get (i : string) (s : Redis) : Redis :=
  s <| stopper := <[i := if bool_decide (holder s = Some i) then StopGotOwn else Stopped]> (stopper s) |>.
Definition stop_delete (i : string) (s : Redis) : Redis :=
  s <| leader_key := None |> <| stopper := <[i := Stopped]> (stopper s) |>.
Definition stop_fail (i : string) (s : Redis) : Redis := s <| stopper := <[i := Stopped]> (stopper s) |>.

Definition wait (d : Z) (s : Redis) : Redis := s <| now := now s + d |>.

Inductive step : Redis → Redis → Prop :=
  | step_wait d s : 0 < d → step s (wait d s)
  | step_begin i s : at_pc i s = Idle → at_stop i s = Running → step s (begin i s)
  | step_set_nx i s : at_pc i s = Started → step s (set_nx i s)
  | step_get i s : at_pc i s = NxRefused → step s (get_key i s)
  | step_renew i s : at_pc i s = GotOwn → step s (renew i s)
  | step_fail i s : at_pc i s ≠ Idle → step s (fail i s)
  | step_stop i s : at_stop i s = Running → step s (stop_get i s)
  | step_stop_delete i s : at_stop i s = StopGotOwn → step s (stop_delete i s)
  | step_stop_fail i s : at_stop i s ≠ Stopped → step s (stop_fail i s).

(** One whole iteration, [_try_acquire_or_renew] with nothing in between. *)
Definition _try_acquire_or_renew (i : string) (s : Redis) : Redis :=
  match holder s with
  | None => outcome i true (take_key i s)
  | Some h => if String.eqb h i then outcome i true (take_key i s) else outcome i false s
  end.

(** [start]: what the flag is set to, and whether the loop is started. *)
Definition start (role : string) (ha_enabled redis_url : bool) (acquired : option bool) : bool * bool :=
  if String.eqb role "api" then (false, false)
  else if String.eqb role "worker" then (true, false)
  else if negb (ha_enabled && redis_url) then (true, false)
  else (default false acquired, true).

(** [run_if_leader] *)
Definition run_if_leader {A} (i : string) (s : Redis) (func : A) : option A :=
  if is_leader i s then Some func else None.

End config.

(** [runtime_role.role] *)
Definition role (env : option string) : string :=
  let raw := lower (strip (match env with Some e => if String.eqb e "" then "all" else e | None => "all" end)) in
  if bool_decide (raw ∈ ["all"; "api"; "worker"]) then raw else "all"%string.

Definition owns_control_plane (env : option string) : bool :=
  bool_decide (role env ∈ ["all"; "worker"]%string).
Definition owns_http (env : option string) : bool :=
  bool_decide (role env ∈ ["all"; "api"]%string).

End Ha.

(** ** Failover detection, [app/cluster/__init__.py] *)
Module Cluster.

Inductive NodeStatus := connected | connecting | error | disabled.
#[export] Instance NodeStatus_eq_dec : EqDecision NodeStatus.
Proof. solve_decision. Defined.

Record NodeRow := mkNodeRow {
  nd_status : NodeStatus;
  nd_group_id : option Z;
  nd_last_status_change : option Z }.
#[export] Instance eta_NodeRow : Eta NodeRow := λ n, mkNodeRow (nd_status n) (nd_group_id n) (nd_last_status_change n).

Inductive Event :=
  | node_down (node_id : Z) (fallback_nodes : list Z)
  | node_recovered (node_id : Z).

Record ClusterState := mkClusterState {
  cs_nodes : gmap Z NodeRow;
  _reported_down : gset Z;
  _reconnect_attempted : gset Z;
  cs_events : list Event;           (* published, oldest first *)
  cs_removed : list Z }.            (* taken out of the live registry *)
#[export] Instance eta_ClusterState : Eta ClusterState := λ s, mkClusterState (cs_nodes s)
  (_reported_down s) (_reconnect_attempted s) (cs_events s) (cs_removed s).

Section detect.
Context (DOWN_SECONDS : Z) (AUTO_RECONNECT AUTO_DISABLE : bool).

(** Rows in id order. *)
Definition get_nodes (s : ClusterState) : list (Z * NodeRow) :=
  sort_by (λ x y, (x.1 <=? y.1)%Z) (map_to_list (cs_nodes s)).

Definition _healthy_fallbacks (s : ClusterState) (id : Z) (n : NodeRow) : list Z :=
  let up := filter (λ x, nd_status x.2 = connected ∧ x.1 ≠ id) (get_nodes s) in
  let same_group := filter (λ x, truthy (nd_group_id n) = true ∧ nd_group_id x.2 = nd_group_id n) up in
  (match same_group with [] => up | l => l end).*1.

(** [reconnect id]: whether [connect_node] returns without an exception. *)
Definition detect_node (now : Z) (reconnect : Z → bool) (s : ClusterState) (x : Z * NodeRow) : ClusterState :=
  let '(id, n) := x in
  let cutoff := now - DOWN_SECONDS in
  if match nd_last_status_change n with None => true | Some t => cutoff <? t end then s
  else if bool_decide (id ∈ _reported_down s) then s
  else
    let try_it := AUTO_RECONNECT && negb (bool_decide (id ∈ _reconnect_attempted s)) in
    let s := if try_it then s <| _reconnect_attempted := {[id]} ∪ _reconnect_attempted s |> else s in
    if try_it && reconnect id then s
    else
      let s := s <| _reported_down := {[id]} ∪ _reported_down s |>
                 <| cs_events := cs_events s ++ [node_down id (_healthy_fallbacks s id n)] |> in
      if AUTO_DISABLE
      then s <| cs_nodes := <[id := mkNodeRow disabled (nd_group_id n) (Some now)]> (cs_nodes s) |>
             <| cs_removed := cs_removed s ++ [id] |>
      else s.

(** [announce]: the recovered nodes in the order the set yields them. *)
Definition forget_recovered (s : ClusterState) : ClusterState :=
  let recovered := list_to_set ((filter (λ x, nd_status x.2 = connected) (get_nodes s)).*1) : gset Z in
  s <| cs_events := cs_events s ++ (node_recovered <$> elements (_reported_down s ∩ recovered)) |>
    <| _reported_down := _reported_down s ∖ recovered |>
    <| _reconnect_attempted := _reconnect_attempted s ∖ recovered |>.

Definition detect_failures (now : Z) (reconnect : Z → bool) (s : ClusterState) : ClusterState :=
  let error_nodes := filter (λ x, nd_status x.2 = error) (get_nodes s) in
  forget_recovered (foldl (detect_node now reconnect) s error_nodes).

End detect.
End Cluster.

(** ** Facts about the election *)
Module HaFacts.
Import Ha.

Section config.
Context (T : Z).
Notation ttl := (ttl_ms T).

(** The loop comes round well before the key expires. *)
Lemma interval_within_ttl : 0 < interval T * 1000 < ttl.
Proof.
  unfold interval, ttl_ms. assert (T / 3 ≤ Z.max T 2 / 3) by (apply Z.div_le_mono; lia).
  assert (Z.max T 2 / 3 < Z.max T 2) by (apply Z.div_lt; lia). lia.
Qed.

(** The commands of an iteration that nothing interrupts amount to
    [_try_acquire_or_renew]. *)
Lemma iteration_composes i s : at_pc i s = Started → rtc (step T) s (_try_acquire_or_renew T i s).
Proof.
  intros Hp. eapply rtc_l; [by apply step_set_nx|]. unfold set_nx, _try_acquire_or_renew.
  destruct (holder s) as [h|] eqn:Eh; [|apply rtc_refl]. set (s1 := s <| pc := _ |>).
  assert (H1 : at_pc i s1 = NxRefused) by (unfold at_pc; cbn; by rewrite lookup_insert_eq).
  eapply rtc_l; [by apply step_get|]. unfold get_key. change (holder s1) with (holder s). rewrite Eh.
  destruct (String.eqb_spec h i) as [->|Hne].
  - rewrite bool_decide_eq_true_2 by done. set (s2 := s1 <| pc := _ |>).
    eapply rtc_l; [apply (step_renew T i s2); unfold at_pc; cbn; by rewrite lookup_insert_eq|].
    replace (renew T i s2) with (outcome i true (take_key T i s)); [apply rtc_refl|].
    unfold renew, outcome, take_key. cbn. by rewrite !insert_insert_eq.
  - rewrite bool_decide_eq_false_2 by congruence.
    replace (outcome i false s1) with (outcome i false s); [apply rtc_refl|].
    unfold outcome. cbn. by rewrite !insert_insert_eq.
Qed.

(** An instance leads while its flag is up and it has not been stopped; it is engaged
    while it leads or is about to act on having read its own name. *)
Definition leads (i : string) (s : Redis) : Prop := is_leader i s = true ∧ at_stop i s = Running.
Definition engaged (i : string) (s : Redis) : Prop :=
  leads i s ∨ at_pc i s = GotOwn ∨ at_stop i s = StopGotOwn.

(** The timely runs: the commands of all instances interleave freely, but the key does
    not expire under an engaged instance and none is stopped in mid-iteration. *)
Definition in_time (s : Redis) : Prop :=
  (∀ i e, leader_key s = Some (i, e) → engaged i s → now s < e) ∧
  (∀ i, at_stop i s ≠ Running → at_pc i s = Idle).
Definition timely (s s' : Redis) : Prop := step T s s' ∧ in_time s'.

Definition leases_ok (s : Redis) : Prop := ∀ i, engaged i s → holder s = Some i.

Lemma is_leader_outcome i b j s : is_leader j (outcome i b s) = if decide (i = j) then b else is_leader j s.
Proof. unfold is_leader, outcome. cbn. rewrite lookup_insert. by case_decide. Qed.

Lemma ttl_pos : 0 < ttl.
Proof. unfold ttl_ms. lia. Qed.

Lemma holder_taken i s : holder (take_key T i s) = Some i.
Proof. unfold holder. cbn. pose proof ttl_pos. by rewrite (proj2 (Z.ltb_lt _ _)) by lia. Qed.

(** The fields of one instance. *)
Definition same_fields (j : string) (s s' : Redis) : Prop :=
  is_leader_flag s' !! j = is_leader_flag s !! j ∧ pc s' !! j = pc s !! j ∧ stopper s' !! j = stopper s !! j.

Lemma engaged_frame j s s' : same_fields j s s' → engaged j s' → engaged j s.
Proof. unfold engaged, leads, is_leader, at_pc, at_stop. by intros (-> & -> & ->). Qed.

(** A step of instance [i] that leaves the key alone keeps the invariant if it keeps it
    for [i]. *)
Lemma own_step i s s' : leases_ok s → holder s' = holder s → (∀ j, i ≠ j → same_fields j s s') →
  (engaged i s' → engaged i s ∨ holder s = Some i) → leases_ok s'.
Proof.
  intros Hok Hh Hf Hi j Hj. rewrite Hh. destruct (decide (i = j)) as [<-|Hne].
  - destruct (Hi Hj); [by apply Hok | done].
  - by apply Hok, (engaged_frame j s s' (Hf j Hne)).
Qed.

(** A step of [i] that gives or takes away the key, when nobody else is engaged. *)
Lemma grant_step i s s' : leases_ok s → (holder s = None ∨ holder s = Some i) →
  (∀ j, i ≠ j → same_fields j s s') → (engaged i s' → holder s' = Some i) → leases_ok s'.
Proof.
  intros Hok Hh Hf Hi j Hj. destruct (decide (i = j)) as [<-|Hne]; [by apply Hi|].
  apply (engaged_frame j s s' (Hf j Hne)), Hok in Hj. destruct Hh as [H|H]; congruence.
Qed.

Ltac frame_fields := intros ? ?; repeat split; cbn; rewrite ?lookup_insert_ne by done; done.

(** [engaged] of the instance that moved, after the updates of its own entries. *)
Ltac engaged_cases :=
  unfold engaged, leads, is_leader, at_pc, at_stop in *; cbn in *; rewrite ?lookup_insert_eq in *; cbn in *.

Lemma timely_ok s s' : timely s s' → leases_ok s → leases_ok s'.
Proof.
  intros [Hs [Ht Hc]] Hok. destruct Hs as [d s|i s Hp Hr|i s Hp|i s Hp|i s Hp|i s Hp|i s Hp|i s Hp|i s Hp].
  - intros i Hi. specialize (Hok i Hi). unfold holder in Hok |- *. cbn.
    destruct (leader_key s) as [[h e]|] eqn:E; [|done]. destruct (now s <? e); [|done]. injection Hok as ->.
    pose proof (Ht i e E Hi) as Hlt. cbn in Hlt. by rewrite (proj2 (Z.ltb_lt _ _) Hlt).
  - eapply (own_step i); [exact Hok|done|frame_fields|]. engaged_cases. naive_solver.
  - unfold set_nx in *. destruct (holder s) as [h|] eqn:E.
    + eapply (own_step i); [exact Hok|done|frame_fields|]. engaged_cases. naive_solver.
    + apply (grant_step i s); [done|by left|frame_fields|]. intros _. apply (holder_taken i s).
  - unfold get_key in *. case_bool_decide as E.
    + eapply (own_step i); [exact Hok|done|frame_fields|]. by right.
    + eapply (own_step i); [exact Hok|done|frame_fields|]. engaged_cases. naive_solver.
  - apply (grant_step i s); [done|right; apply Hok; right; by left|frame_fields|]. intros _. apply (holder_taken i s).
  - eapply (own_step i); [exact Hok|done|frame_fields|]. engaged_cases. naive_solver.
  - eapply (own_step i); [exact Hok|done|frame_fields|]. unfold stop_get. case_bool_decide as E; [by right|].
    engaged_cases. naive_solver.
  - apply (grant_step i s); [done|right; apply Hok; by right; right|frame_fields|]. specialize (Hc i). engaged_cases.
    intros [[_ [=]]|[Hg|[=]]]. by rewrite Hc in Hg.
  - eapply (own_step i); [exact Hok|done|frame_fields|]. engaged_cases. naive_solver.
Qed.

(** C18. When the key never expires under an instance that holds or has just read it, and no
    instance is stopped in mid-iteration, then in every interleaving of the single
    commands of all instances there is at most one leader, and it is the one the key
    names. *)
Theorem timely_single_leader x y i j :
  (∀ k, ~ engaged k x) → rtc timely x y → leads i y → leads j y → i = j ∧ holder y = Some i.
Proof.
  intros H0 Hr. assert (Hok : leases_ok y).
  { assert (leases_ok x) as Hx by (intros k Hk; by destruct (H0 k)). clear H0.
    induction Hr as [|? ? ? Hs _ IH]; [done|]. by apply IH, (timely_ok _ _ Hs). }
  intros Hi Hj. pose proof (Hok i (or_introl Hi)). pose proof (Hok j (or_introl Hj)). split; congruence.
Qed.

(** When the key is gone, an instance between iterations can take it, whatever the others
    believe. *)
Lemma can_take j s : holder s = None → at_pc j s = Idle → at_stop j s = Running →
  rtc (step T) s (outcome j true (take_key T j (begin j s))).
Proof.
  intros Hh Hp Hs. eapply rtc_l; [by apply (step_begin T j)|]. eapply rtc_l; [|apply rtc_refl].
  pose proof (step_set_nx T j (begin j s)) as H. unfold set_nx in H. change (holder (begin j s)) with (holder s) in H.
  rewrite Hh in H. apply H. unfold at_pc. cbn. by rewrite lookup_insert_eq.
Qed.

Lemma expired s i e : leader_key s = Some (i, e) → now s < e →
  step T s (wait (e - now s) s) ∧ holder (wait (e - now s) s) = None.
Proof.
  intros Ek Hlt. split; [apply step_wait; lia|]. unfold holder. cbn. rewrite Ek. by rewrite (proj2 (Z.ltb_ge _ _)) by lia.
Qed.

(** Without that, leadership is not exclusive: from any state in which one instance leads
    and holds the key, an instance that is between iterations can become a leader while
    the first still is, since nothing but its own next iteration clears the flag. *)
Theorem stalled_leader_keeps_running s i j :
  i ≠ j → leads i s → holder s = Some i → at_pc j s = Idle → at_stop j s = Running →
  ∃ s', rtc (step T) s s' ∧ leads i s' ∧ leads j s' ∧ holder s' = Some j.
Proof.
  intros Hne [Hi Hri] Hh Hj Hrj. unfold holder in Hh. destruct (leader_key s) as [[h e]|] eqn:Ek; [|done].
  destruct (Z.ltb_spec (now s) e) as [Hlt|]; [|done]. injection Hh as ->.
  destruct (expired s i e Ek Hlt) as [Hw Hn]. set (s1 := wait (e - now s) s) in *.
  exists (outcome j true (take_key T j (begin j s1))). unfold leads. rewrite !is_leader_outcome, decide_False, decide_True by done.
  split_and!; try done; [eapply rtc_l; [exact Hw|]; by apply can_take | apply (holder_taken j (begin j s1))].
Qed.

(** The GET and the SET of a renewal are two commands: if the key expires between them and
    another instance takes it, the renewal takes it away again. *)
Lemma renewal_steals s i j e : i ≠ j → at_pc i s = GotOwn → at_stop i s = Running → at_pc j s = Idle →
  at_stop j s = Running → leader_key s = Some (i, e) → now s < e →
  ∃ s', rtc (step T) s s' ∧ leads i s' ∧ leads j s' ∧ holder s' = Some i.
Proof.
  intros Hne Hi Hri Hj Hrj Ek Hlt. destruct (expired s i e Ek Hlt) as [Hw Hn]. set (s1 := wait (e - now s) s) in *.
  set (s2 := outcome j true (take_key T j (begin j s1))). exists (renew T i s2).
  assert (Hi2 : at_pc i s2 = GotOwn).
  { unfold at_pc, s2, outcome. cbn. rewrite !lookup_insert_ne by done. exact Hi. }
  unfold leads, renew. rewrite !is_leader_outcome, decide_True, decide_False by done. split_and!; try done.
  - eapply rtc_l; [exact Hw|]. eapply rtc_r; [by apply can_take | by apply step_renew].
  - change (is_leader j s2 = true). unfold s2. by rewrite is_leader_outcome, decide_True.
  - apply (holder_taken i s2).
Qed.

(** [stop] does not wait for the loop: an instance stopped between the GET and the SET of a
    renewal releases the key and then takes it again, so that nobody can take over until
    it expires. *)
Lemma stopped_in_renewal_retakes s i : at_pc i s = GotOwn → at_stop i s = Running → holder s = Some i →
  ∃ s', rtc (step T) s s' ∧ at_stop i s' = Stopped ∧ holder s' = Some i.
Proof.
  intros Hp Hr Hh. exists (renew T i (stop_delete i (stop_get i s))).
  assert (Hg : at_stop i (stop_get i s) = StopGotOwn).
  { unfold at_stop, stop_get. cbn. by rewrite lookup_insert_eq, bool_decide_eq_true_2. }
  split_and!; [|by unfold at_stop; cbn; rewrite lookup_insert_eq | apply (holder_taken i (stop_delete i (stop_get i s)))].
  eapply rtc_l; [by apply step_stop|]. eapply rtc_l; [by apply step_stop_delete|].
  eapply rtc_l; [by apply step_renew | apply rtc_refl].
Qed.
End config.
End HaFacts.

(** ** Facts about failover detection *)
Module ClusterFacts.
Import Cluster.

Section detect.
Context (D : Z) (RC AD : bool).

(** The reports about a node, read in order: whether it is reported down, or [None] if
    a report does not fit the one before. *)
Definition report (id : Z) (st : option bool) (e : Event) : option bool :=
  match e with
  | node_down i _ => if i =? id then match st with Some false => Some true | _ => None end else st
  | node_recovered i => if i =? id then match st with Some true => Some false | _ => None end else st
  end.
Definition reports (id : Z) (evs : list Event) : option bool := foldl (report id) (Some false) evs.

Definition alternating (s : ClusterState) : Prop :=
  ∀ id, reports id (cs_events s) = Some (bool_decide (id ∈ _reported_down s)).

Lemma reports_app id a b : reports id (a ++ b) = foldl (report id) (reports id a) b.
Proof. apply foldl_app. Qed.

Lemma detect_node_alternating now rc s x : alternating s → alternating (detect_node D RC AD now rc s x).
Proof.
  intros Ha. destruct x as [i n]. unfold detect_node. case_match; [done|].
  case_bool_decide as Hi; [done|].
  set (s1 := if RC && _ then _ else s). set (b := RC && _) in *.
  assert (Ha1 : alternating s1 ∧ i ∉ _reported_down s1) by (subst s1; by destruct b).
  clearbody s1. destruct Ha1 as [Ha1 Hi1]. destruct (b && rc i); [done|].
  assert (Ha2 : ∀ fb, alternating (s1 <| _reported_down := {[i]} ∪ _reported_down s1 |>
                                      <| cs_events := cs_events s1 ++ [node_down i fb] |>)).
  { intros fb id. change (reports id (cs_events s1 ++ [node_down i fb])
      = Some (bool_decide (id ∈ {[i]} ∪ _reported_down s1))).
    rewrite reports_app, (Ha1 id). cbn -[bool_decide].
    destruct (Z.eqb_spec i id) as [->|Hne].
    - rewrite (bool_decide_eq_false_2 _ Hi1), bool_decide_eq_true_2; [done|]. apply elem_of_union_l, elem_of_singleton_2. done.
    - f_equal. apply bool_decide_ext. rewrite elem_of_union, elem_of_singleton. naive_solver. }
  destruct AD; [|apply Ha2]. exact (Ha2 _).
Qed.

Lemma recovered_reports id (l : list Z) : NoDup l → ∀ b, (id ∈ l → b = true) →
  foldl (report id) (Some b) (node_recovered <$> l) = Some (b && negb (bool_decide (id ∈ l))).
Proof.
  induction l as [|i l IH]; intros Hnd b Hb; cbn -[bool_decide].
  - rewrite (bool_decide_eq_false_2 (id ∈ [])); [by rewrite andb_true_r | apply not_elem_of_nil].
  - apply NoDup_cons in Hnd as [Hi Hnd]. destruct (Z.eqb_spec i id) as [->|Hne].
    + rewrite Hb by left. rewrite IH; [|done|done]. rewrite (bool_decide_eq_true_2 (id ∈ id :: l)) by left. done.
    + rewrite IH; [|done|intros; apply Hb; by right]. do 2 f_equal. f_equal.
      apply bool_decide_ext. rewrite elem_of_cons. naive_solver.
Qed.

Lemma forget_alternating s : alternating s → alternating (forget_recovered s).
Proof.
  intros Ha id. unfold forget_recovered. set (rec := list_to_set _).
  change (reports id (cs_events s ++ (node_recovered <$> elements (_reported_down s ∩ rec)))
    = Some (bool_decide (id ∈ _reported_down s ∖ rec))).
  rewrite reports_app, (Ha id), recovered_reports.
  - f_equal. rewrite <- bool_decide_not, <- bool_decide_and. apply bool_decide_ext.
    rewrite elem_of_elements, elem_of_intersection, elem_of_difference. tauto.
  - apply NoDup_elements.
  - rewrite elem_of_elements, elem_of_intersection. intros [H _]. by apply bool_decide_eq_true_2.
Qed.

Lemma detect_alternating now rc s : alternating s → alternating (detect_failures D RC AD now rc s).
Proof.
  intros Ha. unfold detect_failures. apply forget_alternating. set (l := filter _ _). clearbody l.
  revert s Ha. induction l as [|x l IH]; intros s Ha; cbn; [done|]. by apply IH, detect_node_alternating.
Qed.

(** The life of the detector: ticks, and changes of the node rows by the rest of the
    panel in between. *)
Inductive cluster_step : ClusterState → ClusterState → Prop :=
  | tick now rc s : cluster_step s (detect_failures D RC AD now rc s)
  | change nodes s : cluster_step s (s <| cs_nodes := nodes |>).

Definition fresh_state (nodes : gmap Z NodeRow) : ClusterState := mkClusterState nodes ∅ ∅ [] [].

(** Outages are reported once: whatever happens to the nodes between ticks, the reports
    about a node are down, recovered, down, recovered and so on, never two of a kind
    in a row, and the node is remembered as down exactly while the last one says so. *)
Theorem reports_alternate nodes s id :
  rtc cluster_step (fresh_state nodes) s →
  reports id (cs_events s) = Some (bool_decide (id ∈ _reported_down s)).
Proof.
  intros Hr. assert (Ha : alternating s); [|apply Ha].
  assert (H0 : alternating (fresh_state nodes)).
  { intros i. cbn -[bool_decide]. by rewrite bool_decide_eq_false_2 by apply not_elem_of_empty. }
  revert H0. induction Hr as [|x y z Hs _ IH]; [done|]. intros H0. apply IH. destruct Hs; [by apply detect_alternating | exact H0].
Qed.

(** *** An outage is noticed *)
Definition stale_error (now : Z) (n : NodeRow) : Prop :=
  nd_status n = error ∧ ∃ t, nd_last_status_change n = Some t ∧ t ≤ now - D.

Lemma detect_node_grows now rc s x :
  _reported_down s ⊆ _reported_down (detect_node D RC AD now rc s x) ∧
  _reconnect_attempted s ⊆ _reconnect_attempted (detect_node D RC AD now rc s x) ∧
  ∀ i, i ≠ x.1 → cs_nodes (detect_node D RC AD now rc s x) !! i = cs_nodes s !! i.
Proof.
  destruct x as [i n]. unfold detect_node. case_match; [done|]. case_bool_decide; [done|].
  destruct (RC && _); cbn [andb]; [destruct (rc i)|]; destruct AD; cbn; split_and!;
    try (intros; by rewrite lookup_insert_ne); try done; apply union_subseteq_r.
Qed.

(** A node that is due is reported, or its one reconnect attempt is used up. *)
Lemma detect_node_due now rc s id n : stale_error now n →
  let s' := detect_node D RC AD now rc s (id, n) in
  id ∈ _reported_down s' ∨ (id ∉ _reconnect_attempted s ∧ id ∈ _reconnect_attempted s').
Proof.
  intros [_ (t & Ht & Hle)]. unfold detect_node. rewrite Ht, (proj2 (Z.ltb_ge _ _) Hle).
  case_bool_decide as Hd; [by left|].
  destruct (bool_decide_reflect (id ∈ _reconnect_attempted s)) as [Ha|Ha]; cbn [negb].
  - rewrite andb_false_r. cbn [andb]. left. destruct AD; cbn; apply elem_of_union_l, elem_of_singleton_2; done.
  - rewrite andb_true_r. destruct RC; cbn [andb].
    + destruct (rc id).
      * right. split; [done|]. cbn. apply elem_of_union_l, elem_of_singleton_2. done.
      * left. destruct AD; cbn; apply elem_of_union_l, elem_of_singleton_2; done.
    + left. destruct AD; cbn; apply elem_of_union_l, elem_of_singleton_2; done.
Qed.

Lemma foldl_grows now rc l : ∀ s,
  _reported_down s ⊆ _reported_down (foldl (detect_node D RC AD now rc) s l) ∧
  _reconnect_attempted s ⊆ _reconnect_attempted (foldl (detect_node D RC AD now rc) s l) ∧
  ∀ i, i ∉ l.*1 → cs_nodes (foldl (detect_node D RC AD now rc) s l) !! i = cs_nodes s !! i.
Proof.
  induction l as [|x l IH]; intros s; cbn [foldl]; [done|].
  destruct (detect_node_grows now rc s x) as (H1 & H2 & H3), (IH (detect_node D RC AD now rc s x)) as (H4 & H5 & H6).
  split_and!; [by etrans|by etrans|]. intros i. cbn [fmap list_fmap]. rewrite not_elem_of_cons. intros [Hx Hl].
  by rewrite H6, H3.
Qed.

Lemma fold_due now rc l s id n : (id, n) ∈ l → stale_error now n → id ∈ _reconnect_attempted s ∨ RC = false →
  id ∈ _reported_down (foldl (detect_node D RC AD now rc) s l).
Proof.
  intros Hin Hst. revert s. induction l as [|x l IH]; intros s Ha; [by apply elem_of_nil in Hin|]. cbn [foldl].
  apply elem_of_cons in Hin as [<-|Hin].
  - apply foldl_grows. destruct (detect_node_due now rc s id n Hst) as [H|[H1 H2]]; [done|].
    destruct Ha as [Ha|Ha]; [done|]. exfalso. revert H2. unfold detect_node. rewrite Ha. cbn [andb].
    repeat case_match; cbn; done.
  - apply IH; [done|]. destruct Ha as [Ha|Ha]; [left|by right]. by apply (detect_node_grows now rc s x).
Qed.

Lemma fold_due_any now rc l id n : (id, n) ∈ l → stale_error now n → ∀ s,
  let s' := foldl (detect_node D RC AD now rc) s l in id ∈ _reported_down s' ∨ id ∈ _reconnect_attempted s'.
Proof.
  intros Hin Hst. cbv zeta. induction l as [|x l IH]; intros s; [by apply elem_of_nil in Hin|]. cbn [foldl].
  apply elem_of_cons in Hin as [<-|Hin]; [|by apply IH].
  destruct (foldl_grows now rc l (detect_node D RC AD now rc s (id, n))) as (H1 & H2 & _).
  destruct (detect_node_due now rc s id n Hst) as [H|[_ H]]; [left|right]; auto.
Qed.

(** A row is left alone or disabled. *)
Lemma fold_rows now rc l i : ∀ s, let s' := foldl (detect_node D RC AD now rc) s l in
  cs_nodes s' !! i = cs_nodes s !! i ∨ nd_status <$> cs_nodes s' !! i = Some disabled.
Proof.
  cbv zeta. induction l as [|x l IH]; intros s; cbn [foldl]; [by left|].
  destruct (IH (detect_node D RC AD now rc s x)) as [->|H]; [|by right].
  destruct (decide (i = x.1)) as [->|Hne].
  - destruct x as [j n]. unfold detect_node. cbn [fst]. case_match; [by left|]. case_bool_decide; [by left|].
    destruct (RC && _); cbn [andb]; [destruct (rc j)|]; destruct AD; cbn; rewrite ?lookup_insert_eq; auto.
  - left. by apply detect_node_grows.
Qed.

Lemma elem_of_get_nodes s i n : (i, n) ∈ get_nodes s ↔ cs_nodes s !! i = Some n.
Proof. unfold get_nodes. by rewrite elem_of_sort_by, elem_of_map_to_list. Qed.

(** Only connected nodes are forgotten. *)
Lemma forget_keeps s i : (∀ n, cs_nodes s !! i = Some n → nd_status n ≠ connected) →
  (i ∈ _reported_down s → i ∈ _reported_down (forget_recovered s)) ∧
  (i ∈ _reconnect_attempted s → i ∈ _reconnect_attempted (forget_recovered s)).
Proof.
  intros Hn. unfold forget_recovered. cbn. rewrite !elem_of_difference.
  assert (Hno : i ∉ (list_to_set ((filter (λ x, nd_status x.2 = connected) (get_nodes s)).*1) : gset Z)); [|auto].
  rewrite elem_of_list_to_set. intros ([j n] & -> & Hin)%list_elem_of_fmap.
  apply list_elem_of_filter in Hin as [Hc Hin]. apply elem_of_get_nodes in Hin. by destruct (Hn n Hin).
Qed.

(** One tick over a node that is due. *)
Lemma tick_due now rc s id n : cs_nodes s !! id = Some n → stale_error now n →
  let s' := detect_failures D RC AD now rc s in
  (id ∈ _reported_down s' ∨ id ∈ _reconnect_attempted s') ∧
  (id ∈ _reconnect_attempted s → id ∈ _reported_down s').
Proof.
  intros Hn Hst. cbv zeta. unfold detect_failures. set (l := filter _ _).
  assert (Hin : (id, n) ∈ l).
  { apply list_elem_of_filter. split; [apply Hst | by apply elem_of_get_nodes]. }
  assert (Hrow : ∀ m, cs_nodes (foldl (detect_node D RC AD now rc) s l) !! id = Some m → nd_status m ≠ connected).
  { intros m Hm. destruct Hst as [He _]. destruct (fold_rows now rc l id s) as [H|H]; rewrite Hm in H.
    - rewrite Hn in H. injection H as ->. by rewrite He.
    - cbn in H. injection H as H. by rewrite H. }
  destruct (forget_keeps _ id Hrow) as [H1 H2]. split.
  - destruct (fold_due_any now rc l id n Hin Hst s); auto.
  - intros Ha. apply H1. by eapply fold_due; [|done|left].
Qed.

(** An outage does not go unnoticed: a node that has been in error for the configured time
    is reported as down by the second tick that finds it so, whatever its reconnect
    attempt does and whatever happens to the other nodes in between. *)
Theorem outage_noticed now rc now' rc' s id n nodes' :
  cs_nodes s !! id = Some n → stale_error now n → now ≤ now' → nodes' !! id = Some n →
  let s1 := detect_failures D RC AD now rc s in
  id ∈ _reported_down s1 ∨ id ∈ _reported_down (detect_failures D RC AD now' rc' (s1 <| cs_nodes := nodes' |>)).
Proof.
  intros Hn Hst Hle Hn'. cbv zeta. destruct (tick_due now rc s id n Hn Hst) as [[H|H] _]; [by left|right].
  assert (Hst' : stale_error now' n).
  { destruct Hst as [He (t & Ht & Hc)]. split; [done|]. exists t. split; [done|lia]. }
  set (s1 := detect_failures D RC AD now rc s) in *. clearbody s1.
  apply (tick_due now' rc' (s1 <| cs_nodes := nodes' |>) id n); [exact Hn' | exact Hst' | exact H].
Qed.
End detect.
End ClusterFacts.

(** ** Examples *)
Module LeaseExamples.
Import Ha HaFacts Cluster ClusterFacts.

Definition quiet : Redis := mkRedis 0 None ∅ ∅ ∅.
Definition elected : Redis := set_nx 15 "a" (begin "a" quiet).

Lemma quiet_idle k : ~ engaged k quiet.
Proof.
  unfold engaged, leads, is_leader, at_pc, at_stop, quiet. cbn. rewrite !lookup_empty. cbn. by intros [[? _]|[?|?]].
Qed.

Lemma one_elected_leads : leads "a" elected.
Proof. split; vm_compute; reflexivity. Qed.

Lemma timely_single_leader_witness : leads "a" elected ∧ holder elected = Some "a"%string.
Proof.
  split; [exact one_elected_leads|].
  apply (timely_single_leader 15 quiet elected "a" "a"); [exact quiet_idle| |exact one_elected_leads..].
  assert (Hst : ∀ i, at_stop i quiet = Running) by (intros i; unfold at_stop; cbn; by rewrite lookup_empty).
  eapply rtc_l with (begin "a" quiet); [split; [apply step_begin; reflexivity|split; [done|]]|].
  { intros i Hi. by destruct (Hi (Hst i)). }
  eapply rtc_l; [|apply rtc_refl]. split; [apply step_set_nx; vm_compute; reflexivity|split].
  - intros i e [= <- <-] _. vm_compute. reflexivity.
  - intros i Hi. by destruct (Hi (Hst i)).
Defined.

Lemma stalled_leader_keeps_running_witness :
  ∃ s', rtc (step 15) elected s' ∧ leads "a" s' ∧ leads "b" s' ∧ holder s' = Some "b"%string.
Proof.
  apply stalled_leader_keeps_running; [discriminate | exact one_elected_leads | vm_compute; reflexivity..].
Defined.

Definition down_node : NodeRow := mkNodeRow error (Some 1) (Some 100).
Definition up_node : NodeRow := mkNodeRow connected (Some 2) (Some 100).
Definition two_nodes : gmap Z NodeRow := {[1 := down_node; 2 := up_node]}.

(** The first tick tries to reconnect, the second reports the node with the fallback. *)
Example two_ticks :
  cs_events (detect_failures 60 true true 230 (λ _, true) (detect_failures 60 true true 200 (λ _, true)
    (fresh_state two_nodes))) = [node_down 1 [2]].
Proof. vm_compute. reflexivity. Qed.

Lemma reports_alternate_witness :
  reports 1 (cs_events (detect_failures 60 false false 200 (λ _, true) (fresh_state two_nodes)))
  = Some (bool_decide (1 ∈ _reported_down (detect_failures 60 false false 200 (λ _, true) (fresh_state two_nodes)))).
Proof. apply (reports_alternate 60 false false two_nodes). eapply rtc_l; [apply tick | apply rtc_refl]. Defined.

Lemma outage_noticed_witness :
  1 ∈ _reported_down (detect_failures 60 true true 200 (λ _, true) (fresh_state two_nodes)) ∨
  1 ∈ _reported_down (detect_failures 60 true true 230 (λ _, true)
        ((detect_failures 60 true true 200 (λ _, true) (fresh_state two_nodes)) <| cs_nodes := two_nodes |>)).
Proof.
  apply (outage_noticed 60 true true 200 (λ _, true) 230 (λ _, true) (fresh_state two_nodes) 1 down_node two_nodes).
  - reflexivity.
  - split; [reflexivity|]. exists 100. split; [reflexivity|]. lia.
  - lia.
  - reflexivity.
Defined.
End LeaseExamples.
