(* ===== verification/Platform.v ===== *)
(** * Platform: feature flags, settings, API keys and the billing guard

    [app/feature_flags.py], [app/platform_settings.py], [app/api_keys.py] with
    [app/routers/api_keys.py], and [app/billing_guard.py].

    Flags and settings are read through a cache of each process; the reads and the
    writes of a process are not one step, so the races are runs of a step relation.
    SHA-256 is a parameter. *)
From S2P Require Import Prelude Store Users Wallet Base64.
From S2P Require Import Resellers.

(** ** A table read through per-process caches *)
Module Cache.
Section cache.
Context {R K V : Type} `{!EqDecision K, !Countable K}.
(** What a key resolves to in the table. *)
Context (resolve : R → K → V).

Definition cached_read (k : K) (rows : R) (cache : gmap K V) : V * gmap K V :=
  match cache !! k with
  | Some v => (v, cache)
  | None => let v := resolve rows k in (v, <[k := v]> cache)
  end.

Definition coherent (rows : R) (cache : gmap K V) : Prop :=
  ∀ k v, cache !! k = Some v → v = resolve rows k.

(** Several processes, and threads that have read the table but not yet stored what
    they read in their process' cache. *)
Record Procs := mkProcs {
  p_rows : R;
  p_caches : gmap Z (gmap K V);
  p_pending : list (Z * K * V) }.

Definition cache_of (p : Z) (s : Procs) : gmap K V := default ∅ (p_caches s !! p).
Definition set_cache (p : Z) (c : gmap K V) (s : Procs) : Procs :=
  mkProcs (p_rows s) (<[p := c]> (p_caches s)) (p_pending s).

Inductive cache_step : Procs → Procs → Prop :=
  (* a miss: the table is read *)
  | cs_load p k s : cache_of p s !! k = None →
      cache_step s (mkProcs (p_rows s) (p_caches s) ((p, k, resolve (p_rows s) k) :: p_pending s))
  (* and the value stored *)
  | cs_store p k v l l' s : p_pending s = l ++ (p, k, v) :: l' →
      cache_step s (set_cache p (<[k := v]> (cache_of p s)) (mkProcs (p_rows s) (p_caches s) (l ++ l')))
  (* a write commits, then empties the cache of the process that made it *)
  | cs_commit rows s : cache_step s (mkProcs rows (p_caches s) (p_pending s))
  | cs_clear p s : cache_step s (set_cache p ∅ s).

(** What a reader gets now. *)
Definition seen_by (p : Z) (k : K) (s : Procs) : V := (cached_read k (p_rows s) (cache_of p s)).1.
End cache.
End Cache.

(** ** Feature flags *)
Module FeatureFlags.
Import Cache.

(** The flags that are on by default. *)
Definition _default (name : string) : bool :=
  bool_decide (name ∈ ["smart_routing"; "tunneling"; "setup_wizard"]%string).

(** Rows by name and admin; [None] is the global row. *)
Definition FlagRows := gmap (string * option Z) bool.
Notation FlagKey := (string * option Z)%type.

Definition resolve_flag (rows : FlagRows) (k : FlagKey) : bool :=
  let own := match k.2 with Some _ => rows !! k | None => None end in
  match own with
  | Some b => b
  | None => match rows !! (k.1, None) with Some b => b | None => _default k.1 end
  end.

Definition is_enabled (name : string) (admin_id : option Z) (rows : FlagRows) (cache : gmap FlagKey bool)
    : bool * gmap FlagKey bool := cached_read resolve_flag (name, admin_id) rows cache.

Definition set_flag (name : string) (enabled : bool) (admin_id : option Z) (rows : FlagRows)
    : FlagRows * gmap FlagKey bool := (<[(name, admin_id) := enabled]> rows, ∅).

End FeatureFlags.

(** ** Settings *)
Module Settings.
Import Base64.

Inductive Val :=
  | VNone
  | VBool (b : bool)
  | VInt (n : Z)
  | VStr (s : string)
  | VJson (items : list string).

Inductive Ty := TInt | TBool | TJson | TStr.   (* a secret is text *)

Definition truthy_text (s : string) : bool := bool_decide (lower s ∈ ["1"; "true"; "yes"; "on"]%string).

Section settings.
(** The registry: the type of a known key; and [_env_default]. *)
Context (SETTING_SPECS : string → option Ty) (SECRET : string → bool) (_env_default : string → Val).
(** [json.loads], and [str] of a list. *)
Context (json_loads : string → option Val) (str_json : list string → string).

(** [None]: an exception of [int] or [json.loads]. *)
Definition _coerce (v : Val) (ty : Ty) : option Val :=
  match v, ty with
  | VNone, _ => Some VNone
  | VInt n, TInt => Some (VInt n)
  | VBool b, TInt => Some (VInt (if b then 1 else 0))
  | VStr s, TInt => VInt <$> parse_int s
  | VJson _, TInt => None
  | VBool b, TBool => Some (VBool b)
  | VInt n, TBool => Some (VBool (n =? 1))
  | VStr s, TBool => Some (VBool (truthy_text s))
  | VJson _, TBool => Some (VBool false)
  | VStr s, TJson => if String.eqb (strip s) "" then Some (VJson []) else json_loads (strip s)
  | v, TJson => Some v
  | VStr s, TStr => Some (VStr s)
  | VInt n, TStr => Some (VStr (print_int n))
  | VBool b, TStr => Some (VStr (if b then "True" else "False")%string)
  | VJson l, TStr => Some (VStr (str_json l))
  end.

Record SettingStore := mkStore { st_rows : gmap string Val; st_cache : gmap string Val }.

Definition from_table (key : string) (dflt : Val) (s : SettingStore) : Val :=
  match st_rows s !! key with
  | Some VNone | None => match _env_default key with VNone => dflt | v => v end
  | Some v => v
  end.

(** [None]: the coercion of a value in the table raises. *)
Definition get_setting (key : string) (dflt : Val) (s : SettingStore) : option (Val * SettingStore) :=
  match st_cache s !! key with
  | Some v => Some (v, s)
  | None =>
      let v := from_table key dflt s in
      match (match SETTING_SPECS key with Some ty => _coerce v ty | None => Some v end) with
      | None => None
      | Some v => Some (v, mkStore (st_rows s) (<[key := v]> (st_cache s)))
      end
  end.

Definition get_int (key : string) (dflt : Z) (s : SettingStore) : option (Z * SettingStore) :=
  match get_setting key (VInt dflt) s with
  | None => None
  | Some (v, s) => Some (match v with
                         | VInt n => n
                         | VBool b => if b then 1 else 0
                         | VStr t => default dflt (parse_int t)
                         | _ => dflt end, s)
  end.

Definition get_bool (key : string) (dflt : bool) (s : SettingStore) : option (bool * SettingStore) :=
  match get_setting key (VBool dflt) s with
  | None => None
  | Some (v, s) => Some (match v with
                         | VBool b => b
                         | VInt n => n =? 1
                         | VStr t => truthy_text t
                         | _ => false end, s)
  end.

Definition get_str (key : string) (dflt : string) (s : SettingStore) : option (string * SettingStore) :=
  match get_setting key (VStr dflt) s with
  | None => None
  | Some (v, s) => Some (match v with
                         | VNone => dflt
                         | VStr t => t
                         | VInt n => print_int n
                         | VBool b => (if b then "True" else "False")%string
                         | VJson l => str_json l end, s)
  end.

Definition set_setting (key : string) (v : Val) (s : SettingStore) : result SettingStore :=
  match SETTING_SPECS key with
  | None => Raise (ValueError "Unknown setting")
  | Some ty => match _coerce v ty with
               | None => Raise (ValueError "invalid value")
               | Some stored => Ok (mkStore (<[key := stored]> (st_rows s)) ∅)
               end
  end.

(** A masked secret sent back by the form: its first character is a bullet, or it has
    the ellipsis in the middle. *)
Context (masked : string → bool).

Definition keep_secret (key : string) (v : Val) : bool :=
  SECRET key && match v with
                | VNone => true
                | VStr s => String.eqb s "" || masked s
                | VBool b => negb b
                | VInt n => n =? 0
                | VJson l => match l with [] => true | _ => false end
                end.

Fixpoint apply_updates (updates : list (string * Val)) (s : SettingStore) : result unit * SettingStore :=
  match updates with
  | [] => (Ok tt, s)
  | (k, v) :: rest =>
      if negb (bool_decide (is_Some (SETTING_SPECS k))) || keep_secret k v then apply_updates rest s
      else match set_setting k v s with
           | Ok s' => apply_updates rest s'
           | Raise e => (Raise e, s)
           end
  end.

Definition raise_at {A} (s : SettingStore) : result A * SettingStore := (Raise (ValueError "invalid value"), s).

Definition put (key : string) (v : Val) (s : SettingStore) : result unit * SettingStore :=
  match set_setting key v s with Ok s' => (Ok tt, s') | Raise e => (Raise e, s) end.

(** "Entering a CentralPay API key activates the gateway; clearing disables it." *)
Definition centralpay_rule (updates : list (string * Val)) (s : SettingStore) : result unit * SettingStore :=
  match list_find (λ kv, kv.1 = "payment.centralpay_api_key"%string) (rev updates) with
  | None => (Ok tt, s)
  | Some (_, (_, v)) =>
      match v with
      | VStr raw =>
          if String.eqb raw "" then
            match get_str "payment.centralpay_api_key" "" s with
            | None => raise_at s
            | Some (k, s) => if String.eqb k "" then put "payment.centralpay_enabled" (VBool false) s else (Ok tt, s)
            end
          else if masked raw then (Ok tt, s) else put "payment.centralpay_enabled" (VBool true) s
      | VNone =>
          match get_str "payment.centralpay_api_key" "" s with
          | None => raise_at s
          | Some (k, s) => if String.eqb k "" then put "payment.centralpay_enabled" (VBool false) s else (Ok tt, s)
          end
      | VBool false | VInt 0 | VJson [] => (Ok tt, s)
      | _ => put "payment.centralpay_enabled" (VBool true) s
      end
  end.

(** Stripe is switched off again, and the request refused, without its webhook secret. *)
Definition stripe_rule (s : SettingStore) : result unit * SettingStore :=
  match get_bool "payment.stripe_enabled" false s with
  | None => raise_at s
  | Some (on, s) =>
      if negb on then (Ok tt, s)
      else match get_str "payment.stripe_webhook_secret" "" s with
           | None => raise_at s
           | Some (secret, s) =>
               if negb (String.eqb (strip secret) "") then (Ok tt, s)
               else match put "payment.stripe_enabled" (VBool false) s with
                    | (Ok _, s) => (Raise (ValueError "Stripe requires payment.stripe_webhook_secret"), s)
                    | x => x
                    end
           end
  end.

Definition update_settings_bulk (updates : list (string * Val)) (s : SettingStore) : result unit * SettingStore :=
  match apply_updates updates s with
  | (Raise e, s) => (Raise e, s)
  | (Ok _, s) =>
      match centralpay_rule updates s with
      | (Raise e, s) => (Raise e, s)
      | (Ok _, s) => stripe_rule s
      end
  end.

End settings.
End Settings.

(** ** API keys *)
Module ApiKeys.
Import Wallet Rbac.

Definition V2_SCOPES : list string :=
  ["users:read"; "users:write"; "templates:read"; "plans:read"; "plans:write"; "billing:read"; "billing:write";
   "reseller:read"; "branding:read"; "branding:write"; "*"]%string.

(** Each scope with the permission needed to mint it. *)
Definition V2_SCOPE_RBAC : list (string * string) :=
  [("users:read", "users:read"); ("users:write", "users:write"); ("templates:read", "users:read");
   ("plans:read", "billing:read"); ("plans:write", "billing:write"); ("billing:read", "billing:read");
   ("billing:write", "billing:write"); ("reseller:read", "system:read"); ("branding:read", "system:read");
   ("branding:write", "users:write")]%string.

Definition sorted_scopes (l : list string) : list string := sort_by String.leb l.

Definition allowed_scopes_for_admin (f : OverridesFile) (admin : Actor) : list string :=
  if ac_is_sudo admin then sorted_scopes V2_SCOPES
  else sorted_scopes ((filter (λ x, has_permission f admin x.2 = true) V2_SCOPE_RBAC).*1).

(** First occurrences, in order. *)
Fixpoint dedupe (seen : list string) (l : list string) : list string :=
  match l with
  | [] => []
  | s :: l => if bool_decide (s ∈ seen) then dedupe seen l else s :: dedupe (s :: seen) l
  end.

Definition clamp_scopes_for_admin (f : OverridesFile) (admin : Actor) (scopes : list string) : result (list string) :=
  let allowed := allowed_scopes_for_admin f admin in
  match scopes with
  | [] => Ok (sorted_scopes (filter (λ s, s ≠ "*"%string) allowed))
  | _ =>
      let cleaned := filter (λ s, s ≠ ""%string ∧ s ∈ V2_SCOPES ∧ (s = "*"%string → ac_is_sudo admin = true) ∧ s ∈ allowed)
                       (strip <$> scopes) in
      match dedupe [] cleaned with
      | [] => Raise (HTTPException 400 "No valid scopes for your role")
      | l => Ok l
      end
  end.

Record ApiKey := mkApiKey {
  ak_admin_id : Z;
  ak_name : string;
  ak_key_hash : string;
  ak_scopes : list string;
  ak_revoked : bool;
  ak_last_used_at : option Z }.
#[export] Instance eta_ApiKey : Eta ApiKey := λ k, mkApiKey (ak_admin_id k) (ak_name k) (ak_key_hash k)
  (ak_scopes k) (ak_revoked k) (ak_last_used_at k).

Section keys.
Context (_hash : string → string).

Notation KeyRows := (gmap Z ApiKey).

(** [raw] is the key [generate_key] drew; its prefix column is a display value. *)
Definition create_api_key (raw : string) (admin_id : Z) (name : string) (scopes : list string) (ks : KeyRows)
    : Z * KeyRows :=
  let id := next_key ks in
  (id, <[id := mkApiKey admin_id name (_hash raw) scopes false None]> ks).

Definition by_id (ks : KeyRows) : list (Z * ApiKey) := sort_by (λ x y, (x.1 <=? y.1)%Z) (map_to_list ks).

Definition authenticate_api_key (now : Z) (raw : string) (ks : KeyRows) : option (Z * ApiKey) * KeyRows :=
  match head (filter (λ x, ak_key_hash x.2 = _hash raw ∧ ak_revoked x.2 = false) (by_id ks)) with
  | None => (None, ks)
  | Some (id, k) => let k := k <| ak_last_used_at := Some now |> in (Some (id, k), <[id := k]> ks)
  end.

(** [required.split(":", 1)[0] + ":*"] *)
Fixpoint until_colon (l : list Ascii.ascii) : list Ascii.ascii :=
  match l with
  | [] => []
  | c :: l => if Ascii.eqb c (Ascii.ascii_of_nat 58) then [] else c :: until_colon l
  end.

Definition _scopes_allow (record : option ApiKey) (required : string) : bool :=
  match record with
  | None => true
  | Some k =>
      match ak_scopes k with
      | [] => false
      | scopes =>
          if bool_decide ("*"%string ∈ scopes) || bool_decide (required ∈ scopes) then true
          else bool_decide ((String.string_of_list_ascii (until_colon (String.list_ascii_of_string required)) ++ ":*")%string
                            ∈ scopes)
      end
  end.

(** [get_v2_admin] with an API key header or a bearer token; [find_admin] and [bearer]
    are the lookups of the owner's row and of the token's admin. *)
Definition get_v2_admin (find_admin : Z → option Actor) (bearer : option Actor) (now : Z) (api_key : option string)
    (ks : KeyRows) : result (Actor * option ApiKey) * KeyRows :=
  match api_key with
  | Some raw =>
      match authenticate_api_key now raw ks with
      | (None, ks) => (Raise (HTTPException 401 "Invalid API key"), ks)
      | (Some (_, k), ks) =>
          match find_admin (ak_admin_id k) with
          | None => (Raise (HTTPException 401 "API key owner not found"), ks)
          | Some a => (Ok (a, Some k), ks)
          end
      end
  | None =>
      match bearer with
      | None => (Raise (HTTPException 401 "Provide an X-API-Key or a bearer token"), ks)
      | Some a => (Ok (a, None), ks)
      end
  end.

Definition require_v2_scope (find_admin : Z → option Actor) (bearer : option Actor) (now : Z)
    (api_key : option string) (scope : string) (ks : KeyRows) : result Actor * KeyRows :=
  match get_v2_admin find_admin bearer now api_key ks with
  | (Raise e, ks) => (Raise e, ks)
  | (Ok (a, record), ks) =>
      if _scopes_allow record scope then (Ok a, ks) else (Raise (HTTPException 403 "API key missing scope"), ks)
  end.

(** The handlers; [admin_id] is the row [_admin_id] finds or creates. *)
Definition create_route (f : OverridesFile) (admin : Actor) (admin_id : Z) (raw name : string)
    (scopes : list string) (ks : KeyRows) : result Z * KeyRows :=
  match clamp_scopes_for_admin f admin scopes with
  | Raise e => (Raise e, ks)
  | Ok ss => let '(id, ks) := create_api_key raw admin_id name ss ks in (Ok id, ks)
  end.

Definition revoke_api_key (admin_id key_id : Z) (ks : KeyRows) : result unit * KeyRows :=
  match ks !! key_id with
  | Some k => if ak_admin_id k =? admin_id then (Ok tt, <[key_id := k <| ak_revoked := true |>]> ks)
              else (Raise (HTTPException 404 "API key not found"), ks)
  | None => (Raise (HTTPException 404 "API key not found"), ks)
  end.
End keys.
End ApiKeys.

(** ** The billing guard, [app/billing_guard.py] *)
Module BillingGuard.

Definition _DISCONNECT_COOLDOWN_SEC : Z := 60.
Definition _RECLAIM_COOLDOWN_SEC : Z := 10.

Record GuardState := mkGuard {
  _blind_local_cycles : Z;
  _last_disconnect_at : Z;
  _last_reclaim_at : Z }.
#[export] Instance eta_GuardState : Eta GuardState := λ g, mkGuard (_blind_local_cycles g)
  (_last_disconnect_at g) (_last_reclaim_at g).

Definition reset_billing_guard_state : GuardState := mkGuard 0 0 0.

(** What one run of the check finds: the core and its stats API now, and after the
    reclaim attempt. *)
Record Probe := mkProbe {
  pr_now : Z;
  pr_has_billable_inbounds : bool;
  pr_restarting : bool;
  pr_started_at : option Z;
  pr_unmanaged : bool;
  pr_api_ok : bool;
  pr_core_started : bool;
  pr_reclaimed : bool }.

Inductive Action := RecoverLimits | DisconnectLocal.
#[export] Instance Action_eq_dec : EqDecision Action.
Proof. solve_decision. Defined.

Section guard.
Context (CYCLES : Z).    (* BILLING_BLIND_DISCONNECT_CYCLES *)

Definition _attempt_core_reclaim (p : Probe) (g : GuardState) : bool * GuardState :=
  if pr_now p - _last_reclaim_at g <? _RECLAIM_COOLDOWN_SEC then (false, g)
  else (pr_reclaimed p, g <| _last_reclaim_at := pr_now p |>).

Definition cool_down (g : GuardState) : GuardState :=
  g <| _blind_local_cycles := Z.max 0 (_blind_local_cycles g - 1) |>.

Definition billing_ok (p : Probe) : bool := pr_api_ok p && (pr_unmanaged p || pr_core_started p).

Definition check_billing_integrity (p : Probe) (g : GuardState) : list Action * GuardState :=
  if CYCLES <=? 0 then ([], g)
  else if negb (pr_has_billable_inbounds p) then ([], g <| _blind_local_cycles := 0 |>)
  else if pr_restarting p then ([], cool_down g)
  else if pr_now p - _last_disconnect_at g <? _DISCONNECT_COOLDOWN_SEC
  then ([], g <| _blind_local_cycles := 0 |>)
  else if match pr_started_at p with Some t => pr_now p - t <? 15 | None => false end then ([], cool_down g)
  else if billing_ok p then
    ((if 0 <? _blind_local_cycles g then [RecoverLimits] else []), cool_down g)
  else
    let '(reclaimed, g) := _attempt_core_reclaim p g in
    if reclaimed then ([], g <| _blind_local_cycles := 0 |>)
    else
      let g := g <| _blind_local_cycles := _blind_local_cycles g + 1 |> in
      if CYCLES <=? _blind_local_cycles g
      then ([DisconnectLocal], g <| _blind_local_cycles := 0 |> <| _last_disconnect_at := pr_now p |>)
      else ([], g).

Fixpoint run_guard (ps : list Probe) (g : GuardState) : list (Z * Action) * GuardState :=
  match ps with
  | [] => ([], g)
  | p :: ps => let '(acts, g) := check_billing_integrity p g in
               let '(rest, g) := run_guard ps g in
               (((λ a, (pr_now p, a)) <$> acts) ++ rest, g)
  end.
End guard.

(** The rows [recover_false_billing_limits] sets active. *)
Definition falsely_limited (u : User) : bool :=
  status_eqb (u_status u) limited && (u_overage_traffic u =? 0)
  && match u_data_limit u with
     | None => true
     | Some l => (l =? 0) || ((0 <? l) && (u_used_traffic u <? l))
     end.

Definition recover_row (now : Z) (u : User) : User :=
  if falsely_limited u
  then u <| u_status := active |> <| u_last_status_change := Some now |> <| u_edit_at := Some now |>
  else u.

Definition recover_false_billing_limits (now : Z) : M DB Z :=
  let* n := gets (λ d, Z.of_nat (length (filter (λ x, falsely_limited x.2 = true) (map_to_list (users d))))) in
  modify (λ d, d <| users := recover_row now <$> users d |>) ;;;
  when (negb (n =? 0)) commit ;;;
  ret n.
End BillingGuard.

(** ** Facts about caches *)
Module CacheFacts.
Import Cache FeatureFlags.

Section cache.
Context {R K V : Type} `{!EqDecision K, !Countable K} (resolve : R → K → V).

Lemma cached_read_spec k rows cache : coherent resolve rows cache →
  (cached_read resolve k rows cache).1 = resolve rows k ∧ coherent resolve rows (cached_read resolve k rows cache).2.
Proof.
  intros Hc. unfold cached_read. destruct (cache !! k) as [v|] eqn:E; [by apply Hc in E as ->|].
  split; [done|]. intros k' v' Hk. cbn in Hk. rewrite lookup_insert in Hk. case_decide; [by simplify_eq|by apply Hc].
Qed.
End cache.

(** The requests of one process, one after the other: the answers of the reads. *)
Inductive FlagOp := ReadFlag (name : string) (admin_id : option Z) | WriteFlag (name : string) (on : bool) (admin_id : option Z).

Fixpoint serve_flags (ops : list FlagOp) (rows : FlagRows) (cache : gmap FlagKey bool) : list bool :=
  match ops with
  | [] => []
  | ReadFlag n a :: ops => let '(b, cache) := is_enabled n a rows cache in b :: serve_flags ops rows cache
  | WriteFlag n on a :: ops => let '(rows, cache) := set_flag n on a rows in serve_flags ops rows cache
  end.

(** Without any cache. *)
Fixpoint serve_uncached (ops : list FlagOp) (rows : FlagRows) : list bool :=
  match ops with
  | [] => []
  | ReadFlag n a :: ops => resolve_flag rows (n, a) :: serve_uncached ops rows
  | WriteFlag n on a :: ops => serve_uncached ops (<[(n, a) := on]> rows)
  end.

(** In one process that handles one request at a time the cache is invisible: every read
    of a flag, global or for an admin, gives what the table says at that moment, through
    any sequence of reads and writes. *)
Theorem flag_cache_transparent ops rows cache : coherent resolve_flag rows cache →
  serve_flags ops rows cache = serve_uncached ops rows.
Proof.
  revert rows cache. induction ops as [|[n a|n on a] ops IH]; intros rows cache Hc; cbn; [done| |].
  - pose proof (cached_read_spec resolve_flag (n, a) rows cache Hc) as [H1 H2]. unfold is_enabled.
    destruct (cached_read resolve_flag (n, a) rows cache) as [b c]. cbn in *. rewrite H1. f_equal. by apply IH.
  - apply IH. intros k v Hk. by rewrite lookup_empty in Hk.
Qed.

Definition off_rows : FlagRows := ∅.
Definition on_rows : FlagRows := {[("billing"%string, None) := true]}.
Definition billing_key : FlagKey := ("billing"%string, None).

(** A read that loads before a write and stores after its invalidation leaves the old value
    in the cache, and no thread is left that would correct it. *)
Lemma raced_read_stays_stale : ∃ s,
  rtc (cache_step resolve_flag) (mkProcs off_rows ∅ []) s ∧ p_rows s = on_rows ∧ p_pending s = [] ∧
  seen_by resolve_flag 1 billing_key s = false ∧ resolve_flag (p_rows s) billing_key = true.
Proof.
  eexists. split_and!.
  - eapply rtc_l; [apply (cs_load _ 1 billing_key); vm_compute; reflexivity|].
    eapply rtc_l; [apply (cs_commit _ on_rows)|]. eapply rtc_l; [apply (cs_clear _ 1)|].
    eapply rtc_l; [apply (cs_store _ 1 billing_key false [] []); vm_compute; reflexivity|]. apply rtc_refl.
  - reflexivity.
  - reflexivity.
  - vm_compute. reflexivity.
  - vm_compute. reflexivity.
Qed.

(** A flag switched in one process does not reach the other: a process that has read the
    flag once keeps answering with the old value, whatever the others read, write or
    invalidate, until it empties its own cache. *)
Theorem other_process_keeps_old_flag (p : Z) (k : FlagKey) v s s' :
  cache_of p s !! k = Some v → (∀ x, x ∈ p_pending s → x.1.1 ≠ p) →
  rtc (λ a b, cache_step resolve_flag a b ∧ (∀ x, x ∈ p_pending b → x.1.1 ≠ p) ∧
              (cache_of p b = ∅ → cache_of p a = ∅)) s s' →
  seen_by resolve_flag p k s' = v.
Proof.
  intros Hc Hp Hr. assert (H : cache_of p s' !! k = Some v ∧ ∀ x, x ∈ p_pending s' → x.1.1 ≠ p).
  { induction Hr as [|a b c (Hs & Hpb & Hne) _ IH]; [done|]. apply IH; [|done].
    destruct Hs as [q k' a Hq|q k' v' l l' a Hpend|rows a|q a]; try exact Hc.
    - assert (q ≠ p) by (apply (Hp (q, k', v')); rewrite Hpend; set_solver).
      unfold cache_of, set_cache in *. cbn. by rewrite lookup_insert_ne.
    - destruct (decide (q = p)) as [->|Hqp].
      + exfalso. unfold cache_of, set_cache in Hne. cbn in Hne. rewrite lookup_insert_eq in Hne.
        specialize (Hne eq_refl). unfold cache_of in Hc. rewrite Hne in Hc. by rewrite lookup_empty in Hc.
      + unfold cache_of, set_cache in *. cbn. by rewrite lookup_insert_ne. }
  unfold seen_by, cached_read. by rewrite (proj1 H).
Qed.
End CacheFacts.

(** ** Facts about settings *)
Module SettingsFacts.
Import Settings.

Section settings.
Context (SPECS : string → option Ty) (SECRET : string → bool) (env : string → Val)
        (json_loads : string → option Val) (str_json : list string → string) (masked : string → bool).
Notation read key dflt := (get_setting SPECS env json_loads str_json key dflt).

Definition stripe : string := "payment.stripe_enabled".
Definition webhook : string := "payment.stripe_webhook_secret".

(** The gateway as a process that has nothing cached sees it. *)
Definition stripe_on (rows : gmap string Val) : bool :=
  match get_bool SPECS env json_loads str_json stripe false (mkStore rows ∅) with Some (b, _) => b | None => false end.
Definition webhook_secret (rows : gmap string Val) : string :=
  match get_str SPECS env json_loads str_json webhook "" (mkStore rows ∅) with Some (t, _) => t | None => "" end%string.

Definition uncached (s : SettingStore) : Prop := st_cache s !! stripe = None ∧ st_cache s !! webhook = None.

Lemma read_fresh key dflt s : st_cache s !! key = None →
  read key dflt s = match read key dflt (mkStore (st_rows s) ∅) with
                    | Some (v, _) => Some (v, mkStore (st_rows s) (<[key := v]> (st_cache s)))
                    | None => None end.
Proof.
  intros Hc. unfold get_setting, from_table. cbn. rewrite Hc, lookup_empty.
  destruct (SPECS key) as [ty|]; [|done]. by destruct (_coerce _ _ _ ty).
Qed.

Lemma set_uncached key v s s' : set_setting SPECS json_loads str_json key v s = Ok s' → uncached s'.
Proof. unfold set_setting. intros H. repeat case_match; simplify_eq. split; apply lookup_empty. Qed.

Lemma put_uncached key v s : uncached s → uncached (put SPECS json_loads str_json key v s).2.
Proof.
  intros Hu. unfold put. destruct (set_setting _ _ _ key v s) eqn:E; cbn; [|done]. by eapply set_uncached.
Qed.

Lemma apply_uncached ups : ∀ s, uncached s → uncached (apply_updates SPECS SECRET json_loads str_json masked ups s).2.
Proof.
  induction ups as [|[k v] ups IH]; intros s Hu; cbn; [done|]. destruct (_ || _); [by apply IH|].
  destruct (set_setting _ _ _ k v s) eqn:E; [|done]. by eapply IH, set_uncached.
Qed.

Lemma get_str_uncached key d s t s' : key ≠ stripe → key ≠ webhook → uncached s →
  get_str SPECS env json_loads str_json key d s = Some (t, s') → uncached s'.
Proof.
  intros H1 H2 [Hs Hw]. unfold get_str, get_setting. destruct (st_cache s !! key); [by intros [= _ <-]|].
  destruct (SPECS key) as [ty|]; [destruct (_coerce _ _ _ ty); [|done]|];
    intros [= _ <-]; split; cbn; by rewrite lookup_insert_ne.
Qed.

Lemma centralpay_uncached ups s : uncached s →
  uncached (centralpay_rule SPECS env json_loads str_json masked ups s).2.
Proof.
  intros Hu. unfold centralpay_rule. destruct (list_find _ _) as [[i [k v]]|]; [|done].
  assert (Hclear : uncached (match get_str SPECS env json_loads str_json "payment.centralpay_api_key" "" s with
     | None => raise_at s
     | Some (k, s) => if String.eqb k "" then put SPECS json_loads str_json "payment.centralpay_enabled" (VBool false) s
                      else (Ok tt, s) end).2).
  { destruct (get_str _ _ _ _ _ _ s) as [[t s']|] eqn:E; [|done]. apply get_str_uncached in E; [|done..].
    destruct (String.eqb t ""); [by apply put_uncached | done]. }
  destruct v as [|[]|[]|t|[]]; try done; try (by apply put_uncached); try exact Hclear.
  destruct (String.eqb t ""); [exact Hclear|]. destruct (masked t); [done | by apply put_uncached].
Qed.

(** Stripe is never left on without its webhook secret: when a settings request is
    accepted, whatever it changes, a gateway that is on has a secret that is not
    blank; and the request that would leave it without one is refused with the gateway
    switched off. *)
Theorem stripe_needs_secret ups s s' res :
  SPECS stripe = Some TBool → SPECS webhook = Some TStr → uncached s →
  update_settings_bulk SPECS SECRET env json_loads str_json masked ups s = (res, s') →
  (res = Ok tt → stripe_on (st_rows s') = true → strip (webhook_secret (st_rows s')) ≠ ""%string) ∧
  (res = Raise (ValueError "Stripe requires payment.stripe_webhook_secret") → stripe_on (st_rows s') = false).
Proof.
  intros Hs1 Hs2 Hu. unfold update_settings_bulk.
  assert (Hset : ∀ k v s, (apply_updates SPECS SECRET json_loads str_json masked [(k, v)] s).1
            ≠ Raise (ValueError "Stripe requires payment.stripe_webhook_secret")).
  { intros k v s0. cbn. unfold set_setting. repeat case_match; simplify_eq; done. }
  pose proof (apply_uncached ups s Hu) as H1.
  assert (Ha : (apply_updates SPECS SECRET json_loads str_json masked ups s).1
            ≠ Raise (ValueError "Stripe requires payment.stripe_webhook_secret")).
  { clear -Hset. revert s. induction ups as [|[k v] ups IH]; intros s; [done|]. cbn. destruct (_ || _); [apply IH|].
    destruct (set_setting _ _ _ k v s) eqn:E; [apply IH|]. unfold set_setting in E. repeat case_match; simplify_eq; done. }
  destruct (apply_updates _ _ _ _ _ ups s) as [[[]|e] s1]; cbn [fst snd] in *; [|intros [= <- <-]; split; [done|congruence]].
  pose proof (centralpay_uncached ups s1 H1) as H2.
  assert (Hc : (centralpay_rule SPECS env json_loads str_json masked ups s1).1
            ≠ Raise (ValueError "Stripe requires payment.stripe_webhook_secret")).
  { clear. unfold centralpay_rule, put, raise_at, set_setting. repeat case_match; simplify_eq; done. }
  destruct (centralpay_rule _ _ _ _ _ ups s1) as [[[]|e] s2]; cbn [fst snd] in *; [|intros [= <- <-]; split; [done|congruence]].
  clear Ha Hc Hset H1. destruct H2 as [Hst Hwh]. unfold stripe_rule, stripe_on, webhook_secret, get_bool, get_str.
  fold stripe. fold webhook. rewrite (read_fresh stripe _ s2 Hst).
  destruct (read stripe (VBool false) (mkStore (st_rows s2) ∅)) as [[v1 c1]|] eqn:E1; [|intros [= <- <-]; split; discriminate].
  set (on := match v1 with VBool b => b | _ => _ end).
  assert (Hwh' : st_cache (mkStore (st_rows s2) (<[stripe := v1]> (st_cache s2))) !! webhook = None).
  { cbn. by rewrite lookup_insert_ne. }
  destruct on eqn:Hon; cbn [negb].
  2:{ intros [= <- <-]. cbn [st_rows]. rewrite E1. fold on. by rewrite Hon. }
  rewrite (read_fresh webhook _ _ Hwh'). cbn [st_rows].
  destruct (read webhook (VStr "") (mkStore (st_rows s2) ∅)) as [[v2 c2]|] eqn:E2.
  2:{ intros [= <- <-]. split; discriminate. }
  set (secret := match v2 with VNone => _ | _ => _ end).
  destruct (String.eqb_spec (strip secret) "") as [Hb|Hb]; cbn [negb].
  - unfold put, set_setting. rewrite Hs1. cbn [_coerce]. intros [= <- <-]. split; [done|]. intros _.
    cbn [st_rows]. unfold get_setting, from_table. cbn [st_cache st_rows]. rewrite lookup_empty, lookup_insert_eq, Hs1. done.
  - intros [= <- <-]. cbn [st_rows]. rewrite E1, E2. done.
Qed.

(** The cache remembers the default of the first reader: where neither the table nor the
    environment has a value, later readers get it in place of their own default. *)
Lemma first_default_sticks key d d' s : SPECS key = Some TInt → env key = VNone → st_rows s !! key = None →
  st_cache s !! key = None →
  ∃ s', get_int SPECS env json_loads str_json key d s = Some (d, s') ∧
        get_int SPECS env json_loads str_json key d' s' = Some (d, s').
Proof.
  intros Hs He Hr Hc. eexists. unfold get_int, get_setting, from_table. rewrite Hc, Hr, He, Hs. split; [reflexivity|].
  cbn. by rewrite lookup_insert_eq.
Qed.
End settings.
End SettingsFacts.

(** ** Facts about API keys *)
Module ApiKeyFacts.
Import Wallet Ledger Rbac ApiKeys.

Lemma dedupe_spec l : ∀ seen s, s ∈ dedupe seen l → s ∈ l ∧ s ∉ seen.
Proof.
  induction l as [|x l IH]; intros seen s; cbn; [by intros ?%elem_of_nil|]. case_bool_decide as Hx.
  - intros [H1 H2]%IH. split; [by right|done].
  - intros [->|[H1 H2]%IH]%elem_of_cons; [split; [left|done]|]. apply not_elem_of_cons in H2 as [_ H2]. split; [by right|done].
Qed.

(** What a minted key may hold. *)
Lemma clamped_scopes f admin scopes ss s : clamp_scopes_for_admin f admin scopes = Ok ss → s ∈ ss →
  s ∈ V2_SCOPES ∧ (s = "*"%string → ac_is_sudo admin = true) ∧
  (ac_is_sudo admin = false → ∃ p, (s, p) ∈ V2_SCOPE_RBAC ∧ has_permission f admin p = true).
Proof.
  assert (Hallowed : s ∈ allowed_scopes_for_admin f admin → s ∈ V2_SCOPES ∧
     (ac_is_sudo admin = false → ∃ p, (s, p) ∈ V2_SCOPE_RBAC ∧ has_permission f admin p = true)).
  { unfold allowed_scopes_for_admin, sorted_scopes. destruct (ac_is_sudo admin); rewrite elem_of_sort_by; [done|].
    intros ([s' p] & -> & [Hp Hin]%list_elem_of_filter)%list_elem_of_fmap. cbn [fst snd] in *. split; [|eauto].
    assert (H : Forall (λ x, x.1 ∈ V2_SCOPES) V2_SCOPE_RBAC) by (apply (bool_decide_unpack _); vm_compute; exact I).
    rewrite Forall_forall in H. exact (H _ Hin). }
  unfold clamp_scopes_for_admin. intros Hc Hs. destruct scopes as [|x l].
  - injection Hc as <-. unfold sorted_scopes in Hs. rewrite elem_of_sort_by in Hs.
    apply list_elem_of_filter in Hs as [Hne Hin]. apply Hallowed in Hin as [? ?]. done.
  - destruct (dedupe [] _) as [|y r] eqn:E; [done|]. injection Hc as <-. rewrite <- E in Hs.
    apply dedupe_spec in Hs as [Hs _]. apply list_elem_of_filter in Hs as [(_ & H1 & H2 & H3) _].
    apply Hallowed in H3 as [_ ?]. done.
Qed.

Lemma contains_suffix g : contains ":*" (g ++ ":*") = true.
Proof.
  induction g as [|c g IH]; [done|].
  change (contains ":*" (String c g ++ ":*")) with
    (is_prefix (String.list_ascii_of_string ":*") (c :: String.list_ascii_of_string (g ++ ":*"))
     || contains ":*" (g ++ ":*")). rewrite IH. apply orb_true_r.
Qed.

(** Only the scope itself, or the star, opens a scope: no key holds a wildcard of a group. *)
Lemma scopes_allow_minted k r : (∀ s, s ∈ ak_scopes k → s ∈ V2_SCOPES) → _scopes_allow (Some k) r = true →
  "*"%string ∈ ak_scopes k ∨ r ∈ ak_scopes k.
Proof.
  intros Hall. unfold _scopes_allow. destruct (ak_scopes k) as [|s l] eqn:E; [done|].
  case_bool_decide; [by left|]. case_bool_decide; [by right|]. cbn [orb]. rewrite bool_decide_eq_true.
  set (g := String.string_of_list_ascii _). intros Hin. exfalso. apply Hall in Hin. clearbody g.
  assert (Hno : Forall (λ x, contains ":*" x = false) V2_SCOPES) by (apply (bool_decide_unpack _); vm_compute; exact I).
  rewrite Forall_forall in Hno. specialize (Hno _ Hin). by rewrite contains_suffix in Hno.
Qed.

Section keys.
Context (_hash : string → string).

(** C19. An API key never opens more than its maker could: a key made by an account that is
    not sudo passes the check of a scope only if the account's role held, when the key
    was made, the permission that scope is mapped to. *)
Theorem key_within_role f admin admin_id raw name scopes ks id ks' k r :
  ac_is_sudo admin = false →
  create_route _hash f admin admin_id raw name scopes ks = (Ok id, ks') → ks' !! id = Some k →
  _scopes_allow (Some k) r = true →
  ∃ p, (r, p) ∈ V2_SCOPE_RBAC ∧ has_permission f admin p = true.
Proof.
  intros Hs Hc Hk Hr. unfold create_route in Hc. destruct (clamp_scopes_for_admin f admin scopes) as [ss|] eqn:E; [|done].
  cbn in Hc. injection Hc as <- <-. rewrite lookup_insert_eq in Hk. injection Hk as <-.
  apply scopes_allow_minted in Hr as [Hr|Hr]; cbn [ak_scopes] in *.
  - eapply clamped_scopes in Hr as (_ & H & _); [|exact E]. rewrite (H eq_refl) in Hs. done.
  - eapply clamped_scopes in Hr as (_ & _ & H); [|exact E]. by apply H.
  - intros s Hin. by eapply clamped_scopes in Hin as (? & _); [|exact E].
Qed.

Lemma authenticated_row now raw ks id k ks' : authenticate_api_key _hash now raw ks = (Some (id, k), ks') →
  ∃ k0, ks !! id = Some k0 ∧ ak_key_hash k0 = _hash raw ∧ ak_revoked k0 = false ∧ ak_scopes k = ak_scopes k0.
Proof.
  unfold authenticate_api_key. destruct (head _) as [[i k0]|] eqn:E; [|done]. intros [= <- <- _].
  apply head_Some_elem_of, list_elem_of_filter in E as [[H1 H2] Hin]. unfold by_id in Hin.
  rewrite elem_of_sort_by in Hin. apply elem_of_map_to_list in Hin. by exists k0.
Qed.

Lemma authenticate_keeps now raw ks i k : ks !! i = Some k → ∃ k', (authenticate_api_key _hash now raw ks).2 !! i = Some k' ∧
  ak_revoked k' = ak_revoked k ∧ ak_scopes k' = ak_scopes k ∧ ak_key_hash k' = ak_key_hash k ∧ ak_admin_id k' = ak_admin_id k.
Proof.
  intros Hi. unfold authenticate_api_key. destruct (head _) as [[j k0]|] eqn:E; cbn; [|by exists k].
  apply head_Some_elem_of, list_elem_of_filter in E as [_ Hin]. unfold by_id in Hin.
  rewrite elem_of_sort_by in Hin. apply elem_of_map_to_list in Hin.
  rewrite lookup_insert. case_decide; subst; [|by exists k]. simplify_eq. by eexists.
Qed.

(** A revoked key is dead: nothing that later happens to the other keys brings it back. *)
Lemma revoked_key_refused admin_id key_id ks ks' now raw :
  revoke_api_key admin_id key_id ks = (Ok tt, ks') →
  ∀ id k ks2, authenticate_api_key _hash now raw ks' = (Some (id, k), ks2) → id ≠ key_id.
Proof.
  unfold revoke_api_key. intros Hr id k ks2 (k0 & H0 & _ & Hrev & _)%authenticated_row ->.
  destruct (ks !! key_id) as [k1|] eqn:E; [|done]. destruct (ak_admin_id k1 =? admin_id); [|done].
  injection Hr as <-. rewrite lookup_insert_eq in H0. by simplify_eq.
Qed.

(** A fresh key opens its owner's session at once. *)
Lemma issued_key_accepted now raw admin_id name ss ks : (∀ i k, ks !! i = Some k → ak_key_hash k ≠ _hash raw) →
  let '(id, ks') := create_api_key _hash raw admin_id name ss ks in
  ∃ k, (authenticate_api_key _hash now raw ks').1 = Some (id, k) ∧ ak_admin_id k = admin_id ∧ ak_scopes k = ss.
Proof.
  intros Hfresh. cbn. set (id := next_key ks). set (k0 := mkApiKey _ _ _ _ _ _). unfold authenticate_api_key.
  set (l := filter _ _). assert (Hl : ∀ x, x ∈ l ↔ x = (id, k0)).
  { intros [i k]. subst l. rewrite list_elem_of_filter. unfold by_id. rewrite elem_of_sort_by, elem_of_map_to_list.
    rewrite lookup_insert_Some. cbn [snd]. split.
    - intros [[H1 H2] [[<- <-]|[_ H3]]]; [done|]. by destruct (Hfresh _ _ H3).
    - intros [= -> ->]. split; [done|by left]. }
  destruct l as [|x l]; [exfalso; eapply not_elem_of_nil, Hl; reflexivity|]. assert (x = (id, k0)) as -> by (apply Hl; left).
  cbn. eexists. done.
Qed.
End keys.
End ApiKeyFacts.

(** ** Facts about the billing guard *)
Module GuardFacts.
Import BillingGuard.

Section guard.
Context (CYCLES : Z).

Definition disconnects (l : list (Z * Action)) : list Z :=
  (filter (λ x, match x.2 with DisconnectLocal => true | _ => false end = true) l).*1.

(** One check disconnects at most once, never within the cooldown, and then stamps it. *)
Lemma check_disconnects p g : let '(acts, g') := check_billing_integrity CYCLES p g in
  (disconnects ((λ a, (pr_now p, a)) <$> acts) = [] ∧ _last_disconnect_at g' = _last_disconnect_at g) ∨
  (disconnects ((λ a, (pr_now p, a)) <$> acts) = [pr_now p] ∧ _last_disconnect_at g' = pr_now p ∧
   _last_disconnect_at g + _DISCONNECT_COOLDOWN_SEC ≤ pr_now p).
Proof.
  unfold check_billing_integrity. destruct (CYCLES <=? 0); [by left|]. destruct (negb _); [by left|].
  destruct (pr_restarting p); [by left|].
  destruct (Z.ltb_spec (pr_now p - _last_disconnect_at g) _DISCONNECT_COOLDOWN_SEC) as [|Hcool]; [by left|].
  destruct (match pr_started_at p with Some t => pr_now p - t <? 15 | None => false end); [by left|].
  destruct (billing_ok p); [left; by destruct (0 <? _)|].
  unfold _attempt_core_reclaim. destruct (_ <? _RECLAIM_COOLDOWN_SEC); [|destruct (pr_reclaimed p); [by left|]];
    (destruct (CYCLES <=? _); [right; split_and!; [done..|lia] | by left]).
Qed.

(** The guard does not feed itself: along any sequence of checks, whatever the core does,
    two forced disconnects are at least the cooldown apart. *)
Theorem disconnects_spaced ps g :
  Sorted (λ t t', t + 60 ≤ t') (_last_disconnect_at g :: disconnects (run_guard CYCLES ps g).1).
Proof.
  revert g. induction ps as [|p ps IH]; intros g; cbn [run_guard]; [repeat constructor|].
  pose proof (check_disconnects p g) as H. destruct (check_billing_integrity CYCLES p g) as [acts g1].
  specialize (IH g1). destruct (run_guard CYCLES ps g1) as [rest g2]. cbn [fst] in *.
  unfold disconnects in *. rewrite filter_app, fmap_app.
  destruct H as [[-> Hg]|(-> & Hg & Hc)]; [rewrite <- Hg; exact IH|]. cbn [app].
  constructor; [rewrite <- Hg; exact IH|]. constructor. unfold _DISCONNECT_COOLDOWN_SEC in Hc. lia.
Qed.

Definition blind (p : Probe) : bool := negb (billing_ok p).

Lemma check_counts p g : 0 ≤ _blind_local_cycles g → let '(acts, g') := check_billing_integrity CYCLES p g in
  0 ≤ _blind_local_cycles g' ≤ _blind_local_cycles g + (if blind p then 1 else 0) ∧
  (DisconnectLocal ∈ acts → CYCLES ≤ _blind_local_cycles g + (if blind p then 1 else 0)).
Proof.
  intros Hg. unfold check_billing_integrity, blind, cool_down.
  assert (Hno : ∀ P, (DisconnectLocal ∈ ([] : list Action) → P)) by (intros P ?%elem_of_nil; done).
  destruct (CYCLES <=? 0); [split; [case_match; lia|apply Hno]|].
  destruct (negb (pr_has_billable_inbounds p)); [cbn; split; [case_match; lia|apply Hno]|].
  destruct (pr_restarting p); [cbn; split; [case_match; lia|apply Hno]|].
  destruct (_ <? _DISCONNECT_COOLDOWN_SEC); [cbn; split; [case_match; lia|apply Hno]|].
  destruct (match pr_started_at p with Some t => pr_now p - t <? 15 | None => false end); [cbn; split; [case_match; lia|apply Hno]|].
  destruct (billing_ok p); cbn [negb].
  - cbn. split; [lia|]. destruct (0 <? _); [|apply Hno]. intros [?|H]%elem_of_cons; [done|by apply elem_of_nil in H].
  - unfold _attempt_core_reclaim. destruct (_ <? _RECLAIM_COOLDOWN_SEC); [|destruct (pr_reclaimed p); [cbn; split; [lia|apply Hno]|]];
      cbn; (destruct (Z.leb_spec CYCLES (_blind_local_cycles g + 1)); cbn; [split; [lia|by intros _]|split; [lia|apply Hno]]).
Qed.

(** A disconnect needs the configured number of blind checks: starting from a fresh guard,
    nobody is disconnected before at least that many checks found the accounting
    blind, however the counter decays and resets in between. *)
Theorem disconnect_needs_blindness ps :
  disconnects (run_guard CYCLES ps reset_billing_guard_state).1 ≠ [] →
  CYCLES ≤ Z.of_nat (length (filter (λ p, blind p = true) ps)).
Proof.
  assert (H : ∀ g, 0 ≤ _blind_local_cycles g → disconnects (run_guard CYCLES ps g).1 ≠ [] →
    CYCLES ≤ _blind_local_cycles g + Z.of_nat (length (filter (λ p, blind p = true) ps))).
  { induction ps as [|p ps IH]; intros g Hg; cbn [run_guard]; [done|].
    pose proof (check_counts p g Hg) as Hc. destruct (check_billing_integrity CYCLES p g) as [acts g1].
    destruct Hc as [Hc Hd]. specialize (IH g1 ltac:(lia)). destruct (run_guard CYCLES ps g1) as [rest g2].
    cbn [fst] in *. unfold disconnects in *. rewrite filter_app, fmap_app. intros Hne.
    assert (Hlen : Z.of_nat (length (filter (λ p, blind p = true) (p :: ps)))
                   = (if blind p then 1 else 0) + Z.of_nat (length (filter (λ p, blind p = true) ps))).
    { rewrite filter_cons. destruct (blind p); [rewrite decide_True by done|rewrite decide_False by done]; cbn [length]; lia. }
    rewrite Hlen. destruct (decide (DisconnectLocal ∈ acts)) as [Hin|Hin]; [specialize (Hd Hin); lia|].
    assert (Hempty : (filter (λ x : Z * Action, match x.2 with DisconnectLocal => true | _ => false end = true)
       ((λ a, (pr_now p, a)) <$> acts)) = []).
    { clear -Hin. induction acts as [|a acts IHa]; [done|]. apply not_elem_of_cons in Hin as [Ha Hin].
      cbn [fmap list_fmap]. rewrite filter_cons, decide_False; [by apply IHa|]. cbn. by destruct a. }
    rewrite Hempty in Hne. specialize (IH Hne). lia. }
  intros Hne. specialize (H reset_billing_guard_state ltac:(done) Hne). cbn in H. lia.
Qed.
End guard.

(** The recovery looks at traffic only: an account that was limited and has meanwhile passed
    its expiry is set active. *)
Lemma recovery_revives_expired now u e : u_status u = limited → u_overage_traffic u = 0 → u_data_limit u = None →
  u_expire u = Some e → 0 < e ≤ now → u_status (recover_row now u) = active ∧ u_expire (recover_row now u) = Some e.
Proof.
  intros Hs Ho Hl He _. unfold recover_row, falsely_limited. rewrite Hs, Ho, Hl. cbn. done.
Qed.
End GuardFacts.

(** ** Examples *)
Module PlatformExamples.
Import Cache FeatureFlags CacheFacts Settings SettingsFacts Rbac ApiKeys ApiKeyFacts BillingGuard GuardFacts.

Lemma flag_cache_transparent_witness :
  serve_flags [ReadFlag "billing" (Some 3); WriteFlag "billing" true None; ReadFlag "billing" (Some 3)] ∅ ∅ = [false; true].
Proof. rewrite flag_cache_transparent; [vm_compute; reflexivity|]. intros k v H. by rewrite lookup_empty in H. Defined.

Definition worker_read :=
  mkProcs (R:=FlagRows) (K:=FlagKey) (V:=bool) ∅ {[2 := {[billing_key := false]}]} [].

Lemma other_process_keeps_old_flag_witness :
  seen_by resolve_flag 2 billing_key (mkProcs on_rows (<[1 := ∅]> (p_caches worker_read)) []) = false.
Proof.
  apply (other_process_keeps_old_flag 2 billing_key false worker_read).
  - vm_compute. reflexivity.
  - intros x Hx. by apply elem_of_nil in Hx.
  - eapply rtc_l; [split_and!; [apply (cs_commit _ on_rows)|by intros x Hx%elem_of_nil|done]|].
    eapply rtc_l; [split_and!; [apply (cs_clear _ 1)|by intros x Hx%elem_of_nil|done]|]. apply rtc_refl.
Defined.

Definition specs (k : string) : option Ty :=
  if String.eqb k stripe then Some TBool else if String.eqb k webhook then Some TStr else None.

Lemma stripe_needs_secret_witness :
  stripe_on specs (λ _, VNone) (λ _, None) (λ _, ""%string)
    (st_rows (update_settings_bulk specs (String.eqb webhook) (λ _, VNone) (λ _, None) (λ _, ""%string) (λ _, false)
       [(stripe, VBool true)] (mkStore ∅ ∅)).2) = false.
Proof.
  eapply (stripe_needs_secret specs (String.eqb webhook) (λ _, VNone) (λ _, None) (λ _, ""%string) (λ _, false)
            [(stripe, VBool true)] (mkStore ∅ ∅)); [reflexivity | reflexivity | split; reflexivity | | ].
  - apply surjective_pairing.
  - vm_compute. reflexivity.
Defined.

Definition helper : Actor := mkActor "help" false (Some "support"%string).

Lemma key_within_role_witness :
  ∃ p, ("users:read"%string, p) ∈ V2_SCOPE_RBAC ∧ has_permission Unreadable helper p = true.
Proof.
  eapply (key_within_role (λ s, s) Unreadable helper 5 "raw" "n" ["users:write"; "users:read"]%string ∅ 1
            (<[1 := mkApiKey 5 "n" "raw" ["users:read"%string] false None]> ∅)
            (mkApiKey 5 "n" "raw" ["users:read"%string] false None)); vm_compute; reflexivity.
Defined.

Definition dark (t : Z) : Probe := mkProbe t true false (Some 0) true false false false.

Lemma disconnect_needs_blindness_witness :
  2 ≤ Z.of_nat (length (filter (λ p, blind p = true) [dark 100; dark 105; dark 110])).
Proof. apply (disconnect_needs_blindness 2 [dark 100; dark 105; dark 110]). vm_compute. discriminate. Defined.

Example guard_storm : disconnects (run_guard 2 (dark <$> [100; 105; 110; 130; 170; 175; 180]) reset_billing_guard_state).1 = [105; 170 + 5].
Proof. vm_compute. reflexivity. Qed.
End PlatformExamples.
