(* ===== verification/Json.v ===== *)
(** * Json: the configuration values the panel handles as Python objects

    What the code uses of Python's dictionaries, lists and scalars as [json] produces
    them.  An object is a finite map: the order of its keys is not observed, since the
    code compares objects with [==] and with [json.dumps(..., sort_keys=True)].
    Numbers are integers. *)
From stdpp Require Import pretty.
From S2P Require Import Prelude.

Inductive json :=
  | JNull
  | JBool (b : bool)
  | JNum (n : Z)
  | JStr (s : string)
  | JArr (l : list json)
  | JObj (m : gmap string json).

#[export] Instance json_eq_dec : EqDecision json.
Proof.
  refine (fix go x y := let _ : EqDecision json := @go in
    match x, y with
    | JNull, JNull => left _
    | JBool a, JBool b => cast_if (decide (a = b))
    | JNum a, JNum b => cast_if (decide (a = b))
    | JStr a, JStr b => cast_if (decide (a = b))
    | JArr a, JArr b => cast_if (decide (a = b))
    | JObj a, JObj b => cast_if (decide (a = b))
    | _, _ => right _
    end); abstract congruence.
Defined.

Notation obj := (gmap string json).

Module Py.

(** Truth of a value. *)
Definition truth (v : json) : bool :=
  match v with
  | JNull => false
  | JBool b => b
  | JNum n => negb (n =? 0)
  | JStr s => negb (String.eqb s "")
  | JArr l => match l with [] => false | _ => true end
  | JObj m => negb (bool_decide (m = ∅))
  end.

(** [d.get(k)], [None] where the key is missing. *)
Definition get (k : string) (d : obj) : json := default JNull (d !! k).
Definition has (k : string) (d : obj) : bool := truth (get k d).

Definition is_dict (v : json) : option obj := match v with JObj m => Some m | _ => None end.

(** [d.setdefault(k, v)] *)
Definition setdefault (k : string) (v : json) (d : obj) : obj :=
  match d !! k with Some _ => d | None => <[k := v]> d end.

(** How Python prints lists and dictionaries. *)
Class Repr := repr : json → string.

Section print.
Context {R : Repr}.

Definition str (v : json) : string :=
  match v with
  | JNull => "None"
  | JBool true => "True"
  | JBool false => "False"
  | JNum n => pretty n
  | JStr s => s
  | JArr _ | JObj _ => repr v
  end.

(** [str(d.get(k) or "")] *)
Definition text (k : string) (d : obj) : string := if has k d then str (get k d) else "".

(** [any(s in str(x) for x in v)] where [v = d.get(k) or []], if it is a list. *)
Definition any_text (s k : string) (d : obj) : bool :=
  match get k d with JArr l => existsb (λ x, contains s (str x)) l | _ => false end.
End print.

End Py.
