(* ===== verification/Warp.v ===== *)
(** * Warp: the routing surgery around WARP exits

    [app/xray/warp_routing.py]: installing and removing WARP outbounds in an Xray
    configuration, with the routing rules that keep the exit from black-holing
    traffic.  Xray takes the first rule that matches a flow.

    A configuration is the part the code looks at, with the rest of its keys in
    [payload_rest] and [routing_rest]; outbounds, inbounds, rules and balancers are
    lists of objects, and a missing list is the empty one.  The functions work on a copy
    of their argument or return the argument they changed, so they are functions of it.  The address DNS
    gives for the WARP endpoint is an argument. *)
From S2P Require Import Prelude.
From S2P Require Import Json.
From S2P Require Import Ipv4.
From stdpp Require Import pretty.
Open Scope Z_scope.

Module Warp.
Import Py.
Import Ipv4(split_on).

Record Routing := mkRouting {
  domainStrategy : option json;
  rules : list obj;
  balancers : list obj;
  routing_rest : obj }.
#[export] Instance eta_Routing : Eta Routing := λ r,
  mkRouting (domainStrategy r) (rules r) (balancers r) (routing_rest r).

Record Payload := mkPayload {
  inbounds : list obj;
  outbounds : list obj;
  routing : option Routing;     (* [None]: missing or not an object *)
  dns : option obj;
  payload_rest : obj }.
#[export] Instance eta_Payload : Eta Payload := λ p,
  mkPayload (inbounds p) (outbounds p) (routing p) (dns p) (payload_rest p).

Definition dict (l : list (string * json)) : obj := list_to_map l.
Definition strs (l : list string) : json := JArr (JStr <$> l).

Definition WARP_BYPASS_RULE : obj := dict
  [("type", JStr "field");
   ("domain", strs ["domain:engage.cloudflareclient.com"; "domain:cloudflareclient.com"; "domain:cloudflare.com"]);
   ("outboundTag", JStr "DIRECT")]%string.
Definition WARP_DNS_DIRECT_RULE : obj := dict
  [("type", JStr "field"); ("port", JStr "53"); ("network", JStr "udp"); ("outboundTag", JStr "DIRECT")]%string.
Definition WARP_PRIVATE_DIRECT_RULE : obj := dict
  [("type", JStr "field"); ("ip", strs ["geoip:private"]); ("outboundTag", JStr "DIRECT")]%string.
Definition API_INBOUND_RULE : obj := dict
  [("type", JStr "field"); ("inboundTag", strs ["API_INBOUND"]); ("outboundTag", JStr "API")]%string.
Definition WARP_DEFAULT_RULE : obj := dict
  [("type", JStr "field"); ("network", JStr "tcp,udp"); ("outboundTag", JStr "warp")]%string.

Definition SENSITIVE_WARP_MARK : string := "_nxSensitiveWarp".
Definition SENSITIVE_WARP_QUIC_MARK : string := "_nxSensitiveWarpQuic".
Definition SENSITIVE_WARP_BALANCER_TAG : string := "warp-sensitive-lb".
Definition SENSITIVE_WARP_SNIFFING : json := JObj (dict
  [("enabled", JBool true); ("destOverride", strs ["http"; "tls"; "quic"]); ("routeOnly", JBool false)]%string).

Definition SENSITIVE_WARP_DOMAINS : list string :=
  ["domain:googleapis.com"; "domain:gstatic.com"; "domain:googleusercontent.com";
   "domain:googlevideo.com"; "domain:ytimg.com"; "domain:ggpht.com"; "domain:youtu.be";
   "domain:youtube.com"; "domain:google.com"; "domain:accounts.google.com"; "domain:play.google.com";
   "domain:clients6.google.com"; "domain:gemini.google.com"; "domain:gemini.google";
   "domain:gemini.gstatic.com"; "domain:bard.google.com"; "domain:aistudio.google.com";
   "domain:ai.google.dev"; "domain:ai.studio"; "domain:makersuite.google.com";
   "domain:generativelanguage.googleapis.com"; "domain:aisandbox-pa.googleapis.com";
   "domain:aicode.googleapis.com"; "domain:aida.googleapis.com";
   "domain:cloudaicompanion.googleapis.com"; "domain:cloudcode-pa.googleapis.com";
   "domain:daily-cloudcode-pa.googleapis.com"; "domain:notebooklm.googleapis.com";
   "domain:notebooklm-pa.googleapis.com"; "domain:notebooklm.google.com"; "domain:notebooklm.google";
   "domain:notebook.google.com"; "domain:alkalimakersuite-pa.clients6.google.com";
   "domain:alkalicore-pa.clients6.google.com";
   "domain:webchannel-alkalimakersuite-pa.clients6.google.com";
   "domain:robinfrontend-pa.googleapis.com"; "domain:proactivebackend-pa.googleapis.com";
   "domain:geller-pa.googleapis.com"; "domain:deepmind.com"; "domain:deepmind.google";
   "domain:generativeai.google"; "domain:labs.google"; "domain:labs.google.com"; "domain:jules.google";
   "domain:jules.google.com"; "domain:flow.google"; "domain:flow.google.com";
   "domain:flow.withgoogle.com"; "domain:veo.google"; "domain:veo.googleapis.com"; "domain:fx.google";
   "domain:musicfx.google"; "domain:musicfx.withgoogle.com"; "domain:imagen.google";
   "domain:whisk.google"; "domain:whisk.google.com"; "domain:aitestkitchen.withgoogle.com";
   "domain:experiments.withgoogle.com"; "domain:flow-pa.googleapis.com";
   "domain:labs-pa.googleapis.com"; "domain:fx-pa.googleapis.com"; "domain:alkali-pa.googleapis.com";
   "domain:opal.google"; "domain:opal.google.com"; "domain:stitch.withgoogle.com"; "domain:chatgpt.com";
   "domain:openai.com"; "domain:api.openai.com"; "domain:claude.ai"; "domain:anthropic.com";
   "domain:api.anthropic.com"; "domain:spotify.com"; "domain:spoti.fi"; "domain:scdn.co";
   "domain:pscdn.co"; "domain:spotifycdn.com"; "domain:spotifycdn.net"; "keyword:spotify"]%string.
Definition SENSITIVE_WARP_GEOSITES : list string :=
  ["geosite:google"; "geosite:youtube"; "geosite:openai"; "geosite:spotify"]%string.
Definition SENSITIVE_WARP_IPS : list string := ["geoip:google"]%string.
Definition _SENSITIVE_DOMAIN_CHUNK : nat := 48.

Definition WARP_OUTBOUND_MTU : Z := 1280.
Definition WARP_OUTBOUND_WORKERS : Z := 4.
Definition WARP_PLAIN_DNS_SERVERS : list string := ["1.1.1.1"; "8.8.8.8"; "1.0.0.1"]%string.
Definition DEFAULT_WARP_ENDPOINT_HOST : string := "engage.cloudflareclient.com".
Definition DEFAULT_WARP_ENDPOINT_PORT : Z := 2408.
Definition WARP_PINNED_IP_MARKER : string := "_nxWarpPinnedIp".

(** Drop repetitions, keep the first. *)
Fixpoint dedup {A} `{EqDecision A} (seen : list A) (l : list A) : list A :=
  match l with
  | [] => []
  | x :: l => if bool_decide (x ∈ seen) then dedup seen l else x :: dedup (x :: seen) l
  end.

Definition comma : Ascii.ascii := Ascii.ascii_of_nat 44.
Definition semicolon : Ascii.ascii := Ascii.ascii_of_nat 59.

Definition parse_warp_tags (raw : option string) : list string :=
  let text := strip (default "" raw) in
  let text := if String.eqb text "" then "warp" else text in
  let chars := (λ c, if bool_decide (c = semicolon) then comma else c) <$> String.list_ascii_of_string text in
  let parts := (λ w, strip (String.string_of_list_ascii w)) <$> split_on comma chars in
  match dedup [] (filter (λ t, t ≠ ""%string) parts) with
  | [] => ["warp"%string]
  | tags => tags
  end.

Definition primary_warp_tag (raw : option string) : string := default "warp"%string (head (parse_warp_tags raw)).

Definition is_warp_tag (tag : string) : bool :=
  let t := strip tag in String.eqb t "warp" || startswith "warp-" t.

Definition _endpoint_looks_like_warp (endpoint : string) : bool := contains DEFAULT_WARP_ENDPOINT_HOST endpoint.

Section env.
Context {R : Repr}.
(** [resolve_warp_endpoint_ip()] *)
Context (resolve_warp_endpoint_ip : option string).

Definition tag_of (o : obj) : string := text "tag" o.
Definition ot (r : obj) : string := text "outboundTag" r.

(** [(ob.get("settings") or {}).get("peers")], the first one's endpoint. *)
Definition settings_of (o : obj) : obj := default ∅ (is_dict (get "settings" o)).
Definition first_endpoint (settings : obj) : string :=
  match get "peers" settings with
  | JArr (JObj p :: _) => text "endpoint" p
  | _ => ""
  end.

Definition warp_like (ob : obj) : bool :=
  let settings := settings_of ob in
  String.eqb (text "protocol" ob) "wireguard" &&
  (is_warp_tag (tag_of ob) || _endpoint_looks_like_warp (first_endpoint settings) || has WARP_PINNED_IP_MARKER settings).

Definition _warp_outbounds (obs : list obj) : list obj := filter (λ ob, warp_like ob = true) obs.

Definition warp_outbound_tags (obs : list obj) : list string :=
  tag_of <$> filter (λ o, has "tag" o = true) (_warp_outbounds obs).

(** [(changed, outbound)] *)
Definition apply_warp_endpoint (outbound : obj) (host : string) (port : Z) : bool * obj :=
  match get "settings" outbound with
  | JObj settings =>
      match get "peers" settings with
      | JArr (JObj p :: ps) =>
          let p := <["endpoint"%string := JStr (host ++ ":" ++ pretty port)]> p in
          let settings := <["peers"%string := JArr (JObj p :: ps)]> settings in
          let settings := <[WARP_PINNED_IP_MARKER := JStr host]> settings in
          (true, <["settings"%string := JObj settings]> outbound)
      | _ => (false, outbound)
      end
  | _ => (false, outbound)
  end.

(** [probe host port]: [None] when it raises. *)
Fixpoint find_working_warp_endpoint (candidates : list (string * Z)) (probe : string → Z → option bool) : option (string * Z) :=
  match candidates with
  | [] => None
  | (host, port) :: rest =>
      match probe host port with
      | Some true => Some (host, port)
      | _ => find_working_warp_endpoint rest probe
      end
  end.

Definition _pin_warp_endpoint_ip (outbound : obj) : bool * obj :=
  match get "settings" outbound with
  | JObj settings =>
      match get "peers" settings with
      | JArr (JObj p :: _) =>
          let current := text "endpoint" p in
          let pinned := get WARP_PINNED_IP_MARKER settings in
          if truth pinned && startswith (str pinned ++ ":") current then (false, outbound)
          else match resolve_warp_endpoint_ip with
               | Some ip => if String.eqb ip "" then (false, outbound)
                            else apply_warp_endpoint outbound ip DEFAULT_WARP_ENDPOINT_PORT
               | None => (false, outbound)
               end
      | _ => (false, outbound)
      end
  | _ => (false, outbound)
  end.

Definition put_if (k : string) (v : json) (x : bool * obj) : bool * obj :=
  if bool_decide (get k x.2 = v) then x else (true, <[k := v]> x.2).

Definition _ensure_warp_outbound_settings (outbound : obj) : bool * obj :=
  let outbound := setdefault "settings" (JObj ∅) outbound in
  match get "settings" outbound with
  | JObj settings =>
      let x := put_if "mtu" (JNum WARP_OUTBOUND_MTU) (false, settings) in
      let x := put_if "workers" (JNum WARP_OUTBOUND_WORKERS) x in
      let '(changed, settings) := put_if "noKernelTun" (JBool true) x in
      let '(pinned, outbound) := _pin_warp_endpoint_ip (<["settings"%string := JObj settings]> outbound) in
      (changed || pinned, outbound)
  | _ => (false, outbound)
  end.

Definition _has_warp_bypass (rules : list obj) : bool :=
  existsb (λ r, String.eqb (ot r) "DIRECT" && any_text DEFAULT_WARP_ENDPOINT_HOST "domain" r) rules.

Definition _has_dns_direct_rule (rules : list obj) : bool :=
  existsb (λ r, String.eqb (ot r) "DIRECT" && (String.eqb (text "port" r) "53" && contains "udp" (text "network" r))) rules.

Definition _has_private_direct_rule (rules : list obj) : bool :=
  existsb (λ r, String.eqb (ot r) "DIRECT" && any_text "geoip:private" "ip" r) rules.

(** ["API_INBOUND" in (rule.get("inboundTag") or [])]: an entry of a list, a part of a
    text. *)
Definition lists_api (v : json) : bool :=
  match v with
  | JArr l => bool_decide (JStr "API_INBOUND" ∈ l)
  | JStr s => contains "API_INBOUND" s
  | JObj m => bool_decide (is_Some (m !! "API_INBOUND"%string))
  | _ => false
  end.

Definition _is_api_inbound_rule (r : obj) : bool := String.eqb (ot r) "API" && lists_api (get "inboundTag" r).

Definition pin_api_inbound_route (p : Payload) : Payload :=
  let has_api_ib := existsb (λ ib, String.eqb (tag_of ib) "API_INBOUND") (inbounds p) in
  match routing p with
  | None =>
      if negb has_api_ib then p
      else p <| routing := Some (mkRouting (Some (JStr "IPIfNonMatch")) [API_INBOUND_RULE] [] ∅) |>
  | Some rt =>
      let api := filter (λ r, _is_api_inbound_rule r = true) (rules rt) in
      let rest := filter (λ r, _is_api_inbound_rule r = false) (rules rt) in
      match api with
      | [] => if negb has_api_ib then p else p <| routing := Some (rt <| rules := API_INBOUND_RULE :: rest |>) |>
      | _ => p <| routing := Some (rt <| rules := api ++ rest |>) |>
      end
  end.

Definition _is_catch_all_network_rule (r : obj) : bool :=
  let net := text "network" r in
  contains "tcp" net && contains "udp" net &&
  negb (has "domain" r) && negb (has "ip" r) && negb (has "source" r) && negb (has "sourceIP" r) &&
  negb (has "inboundTag" r) && negb (has "protocol" r) && negb (has "port" r).

(** The escapes for the endpoint, for private addresses and for DNS. *)
Definition escape_rule (r : obj) : bool :=
  any_text DEFAULT_WARP_ENDPOINT_HOST "domain" r || any_text "geoip:private" "ip" r || String.eqb (text "port" r) "53".

Definition _is_bootstrap_direct_rule (r : obj) : bool :=
  if negb (String.eqb (ot r) "DIRECT") then false
  else if _is_catch_all_network_rule r then false
  else escape_rule r.

Fixpoint insert_before_catchall (rules : list obj) (rule : obj) : list obj :=
  match rules with
  | [] => [rule]
  | r :: rest => if _is_catch_all_network_rule r then rule :: r :: rest else r :: insert_before_catchall rest rule
  end.

Definition insert_rule_before_catchall (rules : list obj) (rule : obj) : list obj :=
  if _is_catch_all_network_rule rule then rules ++ [rule] else insert_before_catchall rules rule.

Definition _dedupe_rules (rules : list obj) : list obj := dedup [] rules.

Inductive RuleClass := CApi | CBootstrap | CSpecificWarp | CSpecificOther | CCatchWarp | CCatchDirect.
#[export] Instance RuleClass_eq_dec : EqDecision RuleClass.
Proof. solve_decision. Defined.

Definition classify (r : obj) : RuleClass :=
  if _is_api_inbound_rule r then CApi
  else if String.eqb (ot r) "DIRECT" && _is_catch_all_network_rule r then CCatchDirect
  else if is_warp_tag (ot r) && _is_catch_all_network_rule r then CCatchWarp
  else if _is_bootstrap_direct_rule r then CBootstrap
  else if is_warp_tag (ot r) || String.eqb (text "balancerTag" r) SENSITIVE_WARP_BALANCER_TAG then CSpecificWarp
  else CSpecificOther.

Definition of_class (c : RuleClass) (rules : list obj) : list obj := filter (λ r, classify r = c) rules.

Definition _unshadow_warp_rules (rules : list obj) : list obj :=
  let catch_warp := of_class CCatchWarp rules in
  let catch_direct := match catch_warp with [] => of_class CCatchDirect rules | _ => [] end in
  _dedupe_rules (of_class CApi rules ++ of_class CBootstrap rules ++ of_class CSpecificWarp rules ++
                 of_class CSpecificOther rules ++ catch_warp ++ catch_direct).

(** The outbound after [settings.pop("finalRules")]. *)
Definition sanitize_outbound (ob : obj) : obj :=
  if String.eqb (tag_of ob) "DIRECT" && String.eqb (text "protocol" ob) "freedom" then
    match get "settings" ob with
    | JObj settings =>
        match settings !! "finalRules"%string with
        | None => ob
        | Some _ =>
            let settings := delete "finalRules"%string settings in
            if bool_decide (settings = ∅) then delete "settings"%string ob
            else <["settings"%string := JObj settings]> ob
        end
    | _ => ob
    end
  else ob.

Definition _sanitize_direct_outbound (p : Payload) : Payload :=
  p <| outbounds := sanitize_outbound <$> outbounds p |>.

Definition _has_warp_default_rule (rules : list obj) (tag : string) : bool :=
  existsb (λ r, String.eqb (ot r) tag && _is_catch_all_network_rule r) rules.

Definition rules_of (p : Payload) : list obj := match routing p with Some rt => rules rt | None => [] end.

Definition present_tags (p : Payload) : list string := tag_of <$> filter (λ o, has "tag" o = true) (outbounds p).

(** WARP tags the rules name and no outbound has. *)
Definition missing_warp_tags (p : Payload) : list string :=
  filter (λ t, is_warp_tag t = true ∧ t ∉ present_tags p) (ot <$> rules_of p).

Definition redirect (targets : list string) (r : obj) : obj :=
  if bool_decide (ot r ∈ targets) then <["outboundTag"%string := JStr "DIRECT"]> r else r.

Definition rewrite_missing_warp_routes (p : Payload) (missing_tags : option (list string)) : Payload :=
  let targets := match missing_tags with
                 | None => missing_warp_tags p
                 | Some tags => filter (λ t, t ≠ ""%string) tags
                 end in
  match routing p, targets with
  | None, _ | _, [] => p
  | Some rt, _ => p <| routing := Some (rt <| rules := _dedupe_rules (redirect targets <$> rules rt) |>) |>
  end.

Definition _is_sensitive_warp_rule (r : obj) : bool :=
  has SENSITIVE_WARP_MARK r || has SENSITIVE_WARP_QUIC_MARK r
  || String.eqb (text "balancerTag" r) SENSITIVE_WARP_BALANCER_TAG
  || (is_warp_tag (ot r) && (has "domain" r || has "ip" r))
  || (String.eqb (ot r) "BLOCK" && String.eqb (text "network" r) "udp" && String.eqb (text "port" r) "443" && has "inboundTag" r).

Definition sensitive_balancer (b : obj) : bool :=
  has SENSITIVE_WARP_MARK b || String.eqb (tag_of b) SENSITIVE_WARP_BALANCER_TAG.

Definition strip_sensitive_warp_routing (p : Payload) : Payload :=
  match routing p with
  | None => p
  | Some rt =>
      p <| routing := Some (rt <| rules := filter (λ r, _is_sensitive_warp_rule r = false) (rules rt) |>
                               <| balancers := filter (λ b, sensitive_balancer b = false) (balancers rt) |>) |>
  end.

Definition strip_warp_from_config (p : Payload) (tags : option (list string)) : Payload :=
  let remove_tags := match tags with
                     | None => warp_outbound_tags (outbounds p) ++ filter (λ t, is_warp_tag t = true) (ot <$> rules_of p)
                     | Some tags => filter (λ t, t ≠ ""%string) tags
                     end in
  match remove_tags with
  | [] => rewrite_missing_warp_routes p None
  | _ =>
      let p := p <| outbounds := filter (λ o, tag_of o ∉ remove_tags) (outbounds p) |> in
      rewrite_missing_warp_routes (strip_sensitive_warp_routing p) (Some remove_tags)
  end.

Definition over_https (s : string) : bool := startswith "https://" s || startswith "h3://" s || startswith "quic://" s.

(** [list(d.get(k) or [])] *)
Definition items (k : string) (d : obj) : list json := match get k d with JArr l => l | _ => [] end.

Definition keeps_server (s : json) : bool :=
  match s with
  | JStr a => negb (over_https a)
  | JObj m => negb (over_https (text "address" m))
  | _ => true
  end.

Fixpoint add_plain (plain : list string) (servers : list json) : list json :=
  match plain with
  | [] => servers
  | s :: plain => add_plain plain (if bool_decide (JStr s ∈ servers) then servers else servers ++ [JStr s])
  end.

Definition apply_warp_dns_for_exit (p : Payload) : Payload :=
  let d := default ∅ (dns p) in
  let servers_out := add_plain WARP_PLAIN_DNS_SERVERS (filter (λ s, keeps_server s = true) (items "servers" d)) in
  let servers_out := match servers_out with [] => JStr <$> WARP_PLAIN_DNS_SERVERS | _ => servers_out end in
  let d := <["servers"%string := JArr servers_out]> d in
  p <| dns := Some (setdefault "queryStrategy" (JStr "UseIPv4") d) |>.

Definition has_sensitive (rules : list obj) : bool :=
  existsb (λ r, has SENSITIVE_WARP_MARK r || has SENSITIVE_WARP_QUIC_MARK r
                || String.eqb (text "balancerTag" r) SENSITIVE_WARP_BALANCER_TAG
                || (is_warp_tag (ot r) && (has "domain" r || has "ip" r))) rules.

(** The three [rules.insert(insert_at, ...)]. *)
Definition insert_escapes (rs : list obj) : list obj :=
  let add_bypass := negb (_has_warp_bypass rs) in
  let head1 := if add_bypass then [WARP_BYPASS_RULE] else [] in
  let head2 := if negb (_has_private_direct_rule (head1 ++ rs)) then head1 ++ [WARP_PRIVATE_DIRECT_RULE] else head1 in
  let head3 := if negb (_has_dns_direct_rule (head2 ++ rs)) then head2 ++ [WARP_DNS_DIRECT_RULE] else head2 in
  head3 ++ rs.

Definition default_rule (tag : string) : obj := <["outboundTag"%string := JStr tag]> WARP_DEFAULT_RULE.

Definition empty_routing : Routing := mkRouting (Some (JStr "IPIfNonMatch")) [] [] ∅.

(** [routing.setdefault("domainStrategy", "IPIfNonMatch")] *)
Definition with_strategy (rt : Routing) : Routing :=
  match domainStrategy rt with Some _ => rt | None => rt <| domainStrategy := Some (JStr "IPIfNonMatch") |> end.

Definition or_text (dflt : string) (k : string) (d : obj) : string := if has k d then text k d else dflt.

Definition apply_warp_safe_routing (p : Payload) : Payload :=
  let p := rewrite_missing_warp_routes p None in
  match _warp_outbounds (outbounds p) with
  | [] => p
  | warp_ob :: _ =>
      let obs := (λ ob, if warp_like ob then (_ensure_warp_outbound_settings ob).2 else ob) <$> outbounds p in
      let p := p <| outbounds := obs |> in
      let rt := default empty_routing (routing p) in
      let rt := with_strategy rt in
      let rs := insert_escapes (rules rt) in
      let first_tag := match obs with o :: _ => tag_of o | [] => "" end in
      let primary := or_text "warp" "tag" warp_ob in
      let rs := if negb (has_sensitive rs) && String.eqb first_tag primary && negb (_has_warp_default_rule rs primary)
                then rs ++ [default_rule primary] else rs in
      let rs := _unshadow_warp_rules (_dedupe_rules rs) in
      let p := _sanitize_direct_outbound (p <| routing := Some (rt <| rules := rs |>) |>) in
      let p := if _has_warp_default_rule rs primary then apply_warp_dns_for_exit p else p in
      pin_api_inbound_route p
  end.

(** What [ensure_warp_exit] and [ensure_warp_sensitive_exit] move to the front. *)
Definition front_rule (r : obj) : bool := String.eqb (ot r) "DIRECT" && escape_rule r.

Definition ensure_warp_exit (p : Payload) (outbound : obj) (as_default_exit : bool) : Payload :=
  let tag := or_text "warp" "tag" outbound in
  let outbound := (_ensure_warp_outbound_settings (<["tag"%string := JStr tag]> outbound)).2 in
  let existing := outbounds p in
  let drop := if as_default_exit then warp_outbound_tags existing ++ [tag] else [tag] in
  let p := p <| outbounds := filter (λ o, tag_of o ∉ drop) existing ++ [outbound] |> in
  let p := apply_warp_safe_routing p in
  if negb as_default_exit then p
  else
    let p := apply_warp_dns_for_exit p in
    let rt := default empty_routing (routing p) in
    let rs := filter (λ r, ((is_warp_tag (ot r) || String.eqb (ot r) "DIRECT") && _is_catch_all_network_rule r) = false)
                (rules rt) in
    let front := (if negb (_has_warp_bypass rs) then [WARP_BYPASS_RULE] else [])
              ++ (if negb (_has_private_direct_rule rs) then [WARP_PRIVATE_DIRECT_RULE] else [])
              ++ (if negb (_has_dns_direct_rule rs) then [WARP_DNS_DIRECT_RULE] else []) in
    let bootstrap := filter (λ r, front_rule r = true) rs in
    let rest := filter (λ r, front_rule r = false) rs in
    p <| routing := Some (rt <| rules := _dedupe_rules (front ++ bootstrap ++ rest ++ [default_rule tag]) |>) |>.

(** [range(0, len(domains), chunk)] *)
Fixpoint chunks {A} (fuel n : nat) (l : list A) : list (list A) :=
  match fuel, l with
  | O, _ | _, [] => []
  | S fuel, _ => take n l :: chunks fuel n (drop n l)
  end.

Definition field_rule (k : string) (vs : list string) (target : string * string) : obj :=
  dict [(target.1, JStr target.2); (k, strs vs); ("type"%string, JStr "field")].

(** [target]: the key and the tag the rules get. *)
Definition _sensitive_domain_rules (target : string * string) : list obj :=
  ((λ part, field_rule "domain" part target) <$>
     chunks (length SENSITIVE_WARP_DOMAINS) _SENSITIVE_DOMAIN_CHUNK SENSITIVE_WARP_DOMAINS)
  ++ ((λ g, field_rule "domain" [g] target) <$> SENSITIVE_WARP_GEOSITES)
  ++ ((λ ip, field_rule "ip" [ip] target) <$> SENSITIVE_WARP_IPS).

Definition upper_ascii (c : Ascii.ascii) : Ascii.ascii :=
  let n := Ascii.nat_of_ascii c in
  if ((97 <=? n) && (n <=? 122))%nat then Ascii.ascii_of_nat (n - 32) else c.
Definition upper (s : string) : string :=
  String.string_of_list_ascii (map upper_ascii (String.list_ascii_of_string s)).
Definition endswith (p s : string) : bool :=
  is_prefix (rev (String.list_ascii_of_string p)) (rev (String.list_ascii_of_string s)).

Definition tproxy_of (ib : obj) : string :=
  let stream := default ∅ (is_dict (get "streamSettings" ib)) in
  let sockopt := default ∅ (is_dict (get "sockopt" stream)) in
  lower (text "tproxy" sockopt).

Definition _inbound_needs_sensitive_sniffing (ib : obj) : bool :=
  let tag := tag_of ib in
  let proto := text "protocol" ib in
  if String.eqb tag "" || bool_decide (tag ∈ ["API_INBOUND"; "api"]%string) || startswith "API" (upper tag) then false
  else if bool_decide (proto ∈ ["blackhole"; "dns"]%string) then false
  else if String.eqb proto "wireguard" || contains "xray-wg-in" tag || endswith "-singbox-in" tag then true
  else if startswith "tunnel-" tag && endswith "-exit" tag then true
  else if endswith "-warp-tproxy" tag then true
  else if startswith "in" tag then true
  else if bool_decide (proto ∈ ["vless"; "vmess"; "trojan"; "shadowsocks"; "socks"; "http"]%string) then true
  else String.eqb proto "dokodemo-door" && String.eqb (tproxy_of ib) "tproxy".

Definition _sensitive_quic_inbound_tags (p : Payload) : list string :=
  tag_of <$> filter (λ ib, negb (String.eqb (tag_of ib) "") && _inbound_needs_sensitive_sniffing ib = true) (inbounds p).

Definition BLOCK_OUTBOUND : obj := dict
  [("tag", JStr "BLOCK"); ("protocol", JStr "blackhole"); ("settings", JObj ∅)]%string.

Definition _ensure_block_outbound (p : Payload) : Payload :=
  if existsb (λ o, String.eqb (tag_of o) "BLOCK") (outbounds p) then p
  else p <| outbounds := outbounds p ++ [BLOCK_OUTBOUND] |>.

Definition _sensitive_quic_block_rule (inbound_tags : list string) : obj := dict
  [("type", JStr "field"); ("inboundTag", strs inbound_tags); ("network", JStr "udp"); ("port", JStr "443");
   ("outboundTag", JStr "BLOCK")]%string.

Definition sniffed (ib : obj) : obj :=
  if negb (_inbound_needs_sensitive_sniffing ib) then ib
  else if bool_decide (get "sniffing" ib = SENSITIVE_WARP_SNIFFING) then ib
  else <["sniffing"%string := SENSITIVE_WARP_SNIFFING]> ib.

Definition ensure_tunnel_exit_sniffing (p : Payload) : Payload := p <| inbounds := sniffed <$> inbounds p |>.

Definition quic_block (r : obj) : bool :=
  String.eqb (ot r) "BLOCK" && String.eqb (text "network" r) "udp" && String.eqb (text "port" r) "443" && has "inboundTag" r.

(** After the leading rules to [DIRECT]. *)
Fixpoint insert_after_direct (rules : list obj) (rule : obj) : list obj :=
  match rules with
  | [] => [rule]
  | r :: rest => if String.eqb (ot r) "DIRECT" then r :: insert_after_direct rest rule else rule :: r :: rest
  end.

Definition refresh_sensitive_quic_block (p : Payload) : Payload :=
  let tags := _sensitive_quic_inbound_tags p in
  let rt := default (mkRouting None [] [] ∅) (routing p) in
  let rs := filter (λ r, quic_block r = false) (rules rt) in
  match tags with
  | [] => p <| routing := Some (rt <| rules := rs |>) |>
  | _ =>
      let p := _ensure_block_outbound p in
      p <| routing := Some (rt <| rules := insert_after_direct rs (_sensitive_quic_block_rule tags) |>) |>
  end.

(** The outbounds to install: those with a tag, trimmed, with their settings. *)
Definition prepare (raw : obj) : option obj :=
  let tag := strip (tag_of raw) in
  if String.eqb tag "" then None
  else Some (_ensure_warp_outbound_settings (<["tag"%string := JStr tag]> raw)).2.

Definition SENSITIVE_BALANCER (tags : list string) : obj := dict
  [("tag", JStr SENSITIVE_WARP_BALANCER_TAG); ("selector", strs tags);
   ("strategy", JObj (dict [("type", JStr "random")]))]%string.

(** Where the sensitive rules point, and the balancers that go with it. *)
Definition target_of (tags : list string) : string * string :=
  match tags with
  | [tag] => ("outboundTag", tag)%string
  | _ => ("balancerTag"%string, SENSITIVE_WARP_BALANCER_TAG)
  end.
Definition balancers_for (tags : list string) (bs : list obj) : list obj :=
  match tags with
  | [_] => []
  | _ => filter (λ b, sensitive_balancer b = false) bs ++ [SENSITIVE_BALANCER tags]
  end.

Definition install_outbounds (p : Payload) (prepared : list obj) : Payload :=
  let existing := outbounds p in
  let drop := (tag_of <$> prepared) ++ [SENSITIVE_WARP_BALANCER_TAG] ++ (tag_of <$> _warp_outbounds existing) in
  _ensure_block_outbound (p <| outbounds := filter (λ o, tag_of o ∉ drop) existing ++ prepared |>).

(** The escapes in front, then the sensitive rules, then the others. *)
Definition split_rules (target : string * string) (rs : list obj) : list obj :=
  let front := filter (λ r, front_rule r = true) rs in
  let rest := filter (λ r, front_rule r = false) rs in
  let front := if negb (_has_warp_bypass (front ++ rest)) then WARP_BYPASS_RULE :: front else front in
  let front := if negb (_has_private_direct_rule (front ++ rest)) then front ++ [WARP_PRIVATE_DIRECT_RULE] else front in
  let front := if negb (_has_dns_direct_rule (front ++ rest)) then front ++ [WARP_DNS_DIRECT_RULE] else front in
  _dedupe_rules (front ++ _sensitive_domain_rules target ++ rest).

Definition ensure_warp_sensitive_exit (p : Payload) (obs : list obj) : Payload :=
  let p := strip_sensitive_warp_routing p in
  let prepared := omap prepare obs in
  let tags := tag_of <$> prepared in
  match prepared with
  | [] => p
  | _ =>
      let p := install_outbounds p prepared in
      let p := apply_warp_dns_for_exit p in
      let p := apply_warp_safe_routing p in
      let p := strip_sensitive_warp_routing p in
      let p := ensure_tunnel_exit_sniffing p in
      let rt := default empty_routing (routing p) in
      let rs := filter (λ r, (is_warp_tag (ot r) && _is_catch_all_network_rule r) = false) (rules rt) in
      let rt := rt <| domainStrategy := Some (JStr "IPIfNonMatch") |>
                   <| rules := split_rules (target_of tags) rs |>
                   <| balancers := balancers_for tags (balancers rt) |> in
      pin_api_inbound_route (refresh_sensitive_quic_block (p <| routing := Some rt |>))
  end.

Definition singbox_warp_socks_port (node_id : Z) : Z := 23000 + node_id mod 1000.
Definition singbox_warp_inbound_tag (node_id : Z) : string := "node-" ++ pretty node_id ++ "-singbox-in".

Definition singbox_inbound (node_id : Z) : obj := dict
  [("tag", JStr (singbox_warp_inbound_tag node_id)); ("listen", JStr "127.0.0.1");
   ("port", JNum (singbox_warp_socks_port node_id)); ("protocol", JStr "socks");
   ("settings", JObj (dict [("udp", JBool true); ("auth", JStr "noauth")]));
   ("sniffing", SENSITIVE_WARP_SNIFFING)]%string.

Definition inject_singbox_warp_inbound (p : Payload) (node_id : Z) : Payload :=
  let tag := singbox_warp_inbound_tag node_id in
  p <| inbounds := filter (λ ib, get "tag" ib ≠ JStr tag) (inbounds p) ++ [singbox_inbound node_id] |>.

End env.
End Warp.

(** ** Facts *)
Module WarpFacts.
Import Py Warp.

Section dedup.
Context {A : Type} `{EqDecision A}.
Implicit Types (l seen : list A) (x : A).

Lemma elem_of_dedup x seen l : x ∈ dedup seen l ↔ x ∈ l ∧ x ∉ seen.
Proof.
  revert seen. induction l as [|y l IH]; intros seen; cbn.
  - split; [intros H; by apply not_elem_of_nil in H | intros [H _]; by apply not_elem_of_nil in H].
  - case_bool_decide as Hy; rewrite ?elem_of_cons, IH, ?elem_of_cons; [naive_solver|].
    destruct (decide (x = y)) as [->|]; naive_solver.
Qed.

Lemma NoDup_dedup seen l : NoDup (dedup seen l).
Proof.
  revert seen. induction l as [|y l IH]; intros seen; cbn; [constructor|].
  case_bool_decide; [done|]. constructor; [|done]. rewrite elem_of_dedup, elem_of_cons. naive_solver.
Qed.

Lemma dedup_id seen l : NoDup l → (∀ x, x ∈ l → x ∉ seen) → dedup seen l = l.
Proof.
  intros Hl. revert seen. induction Hl as [|y l Hy _ IH]; intros seen Hs; cbn; [done|].
  rewrite bool_decide_eq_false_2 by (apply Hs; left). f_equal. apply IH.
  intros x Hx. rewrite elem_of_cons. intros [->|Hin]; [done|]. by apply (Hs x); [right|].
Qed.

Lemma dedup_seen seen seen' l : (∀ x, x ∈ l → (x ∈ seen ↔ x ∈ seen')) → dedup seen l = dedup seen' l.
Proof.
  revert seen seen'. induction l as [|y l IH]; intros seen seen' H; cbn; [done|].
  rewrite (bool_decide_ext _ _ (H y (list_elem_of_here _ _))). case_bool_decide.
  - apply IH. intros x Hx. apply H. by right.
  - f_equal. apply IH. intros x Hx. rewrite !elem_of_cons. rewrite (H x); [done|by right].
Qed.

Lemma dedup_app seen l l' : dedup seen (l ++ l') = dedup seen l ++ dedup (l ++ seen) l'.
Proof.
  revert seen. induction l as [|y l IH]; intros seen; cbn; [done|]. case_bool_decide as Hy; rewrite IH; cbn.
  - f_equal. apply dedup_seen. intros x _. rewrite elem_of_cons, !elem_of_app. naive_solver.
  - do 2 f_equal. apply dedup_seen. intros x _. rewrite elem_of_cons, !elem_of_app, elem_of_cons. naive_solver.
Qed.

Lemma dedup_sorted (P : A → A → Prop) seen l : StronglySorted P l → StronglySorted P (dedup seen l).
Proof.
  intros Hl. revert seen. induction Hl as [|y l _ IH Hy]; intros seen; cbn; [constructor|].
  case_bool_decide; [apply IH|]. constructor; [apply IH|]. rewrite Forall_forall in *.
  intros x Hx. apply Hy. by apply elem_of_dedup in Hx as [? _].
Qed.
End dedup.

(** *** Routing

    The rule that takes a flow is the first one it matches. *)
Definition route (m : obj → bool) (rs : list obj) : option obj := head (filter (λ r, m r = true) rs).

Lemma route_best (P : obj → obj → Prop) m rs r r' : StronglySorted P rs → (∀ x, P x x) →
  route m rs = Some r → r' ∈ rs → m r' = true → P r r'.
Proof.
  intros Hs Hrefl. unfold route. induction Hs as [|x rs _ IH Hx]; [done|]. rewrite Forall_forall in Hx.
  rewrite filter_cons, elem_of_cons. case_decide as Hm.
  - intros [= ->] [->|Hin] _; [done | by apply Hx].
  - intros Hr [->|Hin] Hm'; [done | by apply IH].
Qed.

Section filter.
Context {A : Type} (P : A → Prop) `{∀ x, Decision (P x)}.
Lemma filter_none (l : list A) : (∀ x, x ∈ l → ¬ P x) → filter P l = [].
Proof.
  induction l as [|x l IH]; intros Hn; [done|]. rewrite filter_cons, decide_False by (apply Hn; left).
  apply IH. intros y Hy. apply Hn. by right.
Qed.
Lemma filter_all (l : list A) : (∀ x, x ∈ l → P x) → filter P l = l.
Proof.
  induction l as [|x l IH]; intros Ha; [done|]. rewrite filter_cons, decide_True by (apply Ha; left).
  f_equal. apply IH. intros y Hy. apply Ha. by right.
Qed.
End filter.

Lemma existsb_elem {A} (f : A → bool) l : existsb f l = true ↔ ∃ x, x ∈ l ∧ f x = true.
Proof. rewrite existsb_exists. by setoid_rewrite list_elem_of_In. Qed.

Section env.
Context {R : Repr}.
Context (ip : option string).

(** *** Reading keys *)
Lemma get_insert_eq k v d : get k (<[k := v]> d) = v.
Proof. unfold get. by rewrite lookup_insert_eq. Qed.
Lemma get_insert_ne k k' v d : k' ≠ k → get k (<[k' := v]> d) = get k d.
Proof. intros H. unfold get. by rewrite lookup_insert_ne. Qed.
Lemma text_insert_eq k s d : text k (<[k := JStr s]> d) = s.
Proof. unfold text, has. rewrite get_insert_eq. cbn. by destruct (String.eqb_spec s ""). Qed.

(** Agreement on a key. *)
Lemma has_get k d d' : get k d' = get k d → has k d' = has k d.
Proof. unfold has. by intros ->. Qed.
Lemma text_get k d d' : get k d' = get k d → text k d' = text k d.
Proof. unfold text, has. by intros ->. Qed.

Lemma text_has k d : text k d ≠ ""%string → has k d = true.
Proof. unfold text. by destruct (has k d). Qed.

(** The operations on outbounds touch nothing but their settings. *)
Definition but_settings (o o' : obj) : Prop := ∀ k, k ≠ "settings"%string → get k o' = get k o.

Lemma but_settings_insert o v : but_settings o (<["settings"%string := v]> o).
Proof. intros k Hk. by rewrite get_insert_ne. Qed.
Lemma but_settings_trans o o' o'' : but_settings o o' → but_settings o' o'' → but_settings o o''.
Proof. intros H H' k Hk. by rewrite H', H. Qed.

Lemma endpoint_but_settings o h n : but_settings o (apply_warp_endpoint o h n).2.
Proof.
  unfold apply_warp_endpoint. destruct (get "settings" o); try done.
  destruct (get "peers" m) as [| | | |[|[] l]|]; try done. apply but_settings_insert.
Qed.

Lemma pin_but_settings o : but_settings o (_pin_warp_endpoint_ip ip o).2.
Proof.
  unfold _pin_warp_endpoint_ip. destruct (get "settings" o); try done.
  destruct (get "peers" m) as [| | | |[|[] l]|]; try done. case_match; [done|]. destruct ip as [i|]; [|done].
  case_match; [done|]. apply endpoint_but_settings.
Qed.

Lemma setdefault_but_settings o v : but_settings o (setdefault "settings" v o).
Proof. unfold setdefault. destruct (o !! _); [done | apply but_settings_insert]. Qed.

Lemma ensure_but_settings o : but_settings o (_ensure_warp_outbound_settings ip o).2.
Proof.
  unfold _ensure_warp_outbound_settings. pose proof (setdefault_but_settings o (JObj ∅)) as H.
  set (o1 := setdefault _ _ o) in *. destruct (get "settings" o1) as [| | | | |m]; try exact H.
  destruct (put_if _ _ _) as [c st]. pose proof (pin_but_settings (<["settings"%string := JObj st]> o1)) as Hp.
  destruct (_pin_warp_endpoint_ip ip _) as [b o2]. cbn [snd] in *.
  eapply but_settings_trans; [exact H|]. eapply but_settings_trans; [apply but_settings_insert | exact Hp].
Qed.

Lemma sanitize_but_settings o : but_settings o (sanitize_outbound o).
Proof.
  unfold sanitize_outbound. case_match; [|done]. destruct (get "settings" o); try done.
  destruct (m !! _); [|done]. case_bool_decide; [|apply but_settings_insert].
  intros k Hk. unfold get. by rewrite lookup_delete_ne.
Qed.

Lemma tag_but_settings o o' : but_settings o o' → tag_of o' = tag_of o ∧ has "tag" o' = has "tag" o.
Proof. intros H. split; [apply text_get | apply has_get]; by apply H. Qed.

Definition tags_in (obs : list obj) : list string := tag_of <$> filter (λ o, has "tag" o = true) obs.

Lemma tags_in_map f obs : (∀ o, but_settings o (f o)) → tags_in (f <$> obs) = tags_in obs.
Proof.
  intros Hf. unfold tags_in. induction obs as [|o obs IH]; [done|]. rewrite fmap_cons, !filter_cons.
  destruct (tag_but_settings o (f o) (Hf o)) as [H1 H2]. rewrite H2.
  case_decide; [rewrite !fmap_cons; by rewrite H1, IH | exact IH].
Qed.

(** *** Rules *)
Definition closed (tags : list string) (rs : list obj) : Prop :=
  ∀ r, r ∈ rs → is_warp_tag (ot r) = true → ot r ∈ tags.

Lemma ot_redirect ts r : ot (redirect ts r) = if bool_decide (ot r ∈ ts) then "DIRECT"%string else ot r.
Proof. unfold redirect. case_bool_decide; [apply text_insert_eq | done]. Qed.

Lemma rewrite_outbounds p ts : outbounds (rewrite_missing_warp_routes p ts) = outbounds p
  ∧ inbounds (rewrite_missing_warp_routes p ts) = inbounds p.
Proof. unfold rewrite_missing_warp_routes. repeat case_match; done. Qed.

Lemma missing_spec p t : t ∈ ot <$> rules_of p → is_warp_tag t = true → t ∈ present_tags p ∨ t ∈ missing_warp_tags p.
Proof.
  intros Hin Hw. destruct (decide (t ∈ present_tags p)); [by left|right].
  unfold missing_warp_tags. by rewrite list_elem_of_filter.
Qed.

Lemma rewrite_closed p : closed (present_tags p) (rules_of (rewrite_missing_warp_routes p None)).
Proof.
  unfold rewrite_missing_warp_routes. destruct (routing p) as [rt|] eqn:Er.
  2:{ intros r Hr. unfold rules_of in Hr. rewrite Er in Hr. by apply not_elem_of_nil in Hr. }
  assert (Hrt : rules_of p = rules rt) by (unfold rules_of; by rewrite Er).
  destruct (missing_warp_tags p) as [|t ts] eqn:Em; intros r Hr Hw.
  - destruct (missing_spec p (ot r)) as [|H]; [by apply list_elem_of_fmap_2 | done | done |].
    rewrite Em in H. by apply not_elem_of_nil in H.
  - cbn in Hr. apply elem_of_dedup in Hr as [Hr _]. apply list_elem_of_fmap in Hr as (r0 & -> & Hr0).
    rewrite ot_redirect in Hw |- *. case_bool_decide as Ht; [done|].
    destruct (missing_spec p (ot r0)) as [|H]; [|done|done|by rewrite Em in H].
    rewrite Hrt. by apply list_elem_of_fmap_2.
Qed.

(** *** The order of the rules *)
Definition rank (c : RuleClass) : nat :=
  match c with CApi => 0 | CBootstrap => 1 | CSpecificWarp => 2 | CSpecificOther => 3 | CCatchWarp => 4 | CCatchDirect => 5 end.
Definition before (r r' : obj) : Prop := (rank (classify r) ≤ rank (classify r'))%nat.

Lemma StronglySorted_app_2 {A} (P : A → A → Prop) l l' :
  StronglySorted P l → StronglySorted P l' → (∀ x y, x ∈ l → y ∈ l' → P x y) → StronglySorted P (l ++ l').
Proof.
  intros Hl Hl' H. induction Hl as [|x l _ IH Hx]; [done|]. cbn. constructor.
  - apply IH. intros y z Hy. apply H. by right.
  - apply Forall_app. split; [done|]. apply Forall_forall. intros y Hy. apply H; [left | done].
Qed.

Lemma StronglySorted_same {A} (P : A → A → Prop) l : (∀ x y, x ∈ l → y ∈ l → P x y) → StronglySorted P l.
Proof.
  induction l as [|x l IH]; intros H; constructor.
  - apply IH. intros y z Hy Hz. apply H; by right.
  - apply Forall_forall. intros y Hy. apply H; [left | by right].
Qed.

Lemma elem_of_class r c rs : r ∈ of_class c rs ↔ r ∈ rs ∧ classify r = c.
Proof. unfold of_class. rewrite list_elem_of_filter. naive_solver. Qed.

Lemma class_sorted c rs : StronglySorted before (of_class c rs).
Proof.
  apply StronglySorted_same. intros x y Hx Hy. apply elem_of_class in Hx as [_ Hx], Hy as [_ Hy].
  unfold before. by rewrite Hx, Hy.
Qed.

(** The last group, of which at most one kind is kept. *)
Definition catch_direct_of (rs : list obj) : list obj :=
  match of_class CCatchWarp rs with [] => of_class CCatchDirect rs | _ => [] end.

Lemma elem_of_catch_direct r rs : r ∈ catch_direct_of rs → r ∈ rs ∧ classify r = CCatchDirect.
Proof.
  unfold catch_direct_of. case_match; [apply elem_of_class | intros H1; by apply not_elem_of_nil in H1].
Qed.

Lemma catch_direct_sorted rs : StronglySorted before (catch_direct_of rs).
Proof. unfold catch_direct_of. case_match; [apply class_sorted | constructor]. Qed.

Lemma unshadow_eq rs : _unshadow_warp_rules rs = dedup [] (of_class CApi rs ++ of_class CBootstrap rs ++
  of_class CSpecificWarp rs ++ of_class CSpecificOther rs ++ of_class CCatchWarp rs ++ catch_direct_of rs).
Proof. done. Qed.

Lemma unshadow_sorted rs : StronglySorted before (_unshadow_warp_rules rs).
Proof.
  rewrite unshadow_eq. apply dedup_sorted.
  repeat first [apply catch_direct_sorted | apply class_sorted | apply StronglySorted_app_2];
    intros x y; rewrite ?elem_of_app; intros Hx Hy; apply elem_of_class in Hx as [_ Hx];
    repeat match type of Hy with _ ∨ _ => destruct Hy as [Hy|Hy] end;
    first [apply elem_of_class in Hy as [_ Hy] | apply elem_of_catch_direct in Hy as [_ Hy]];
    unfold before; rewrite Hx, Hy; cbn; lia.
Qed.

Lemma elem_of_unshadow r rs : r ∈ _unshadow_warp_rules rs → r ∈ rs.
Proof.
  rewrite unshadow_eq, elem_of_dedup, !elem_of_app. intros [H _].
  repeat match type of H with _ ∨ _ => destruct H as [H|H] end;
    first [by apply elem_of_class in H as [? _] | by apply elem_of_catch_direct in H as [? _]].
Qed.

Lemma unshadow_keeps r rs : r ∈ rs → classify r ≠ CCatchDirect → r ∈ _unshadow_warp_rules rs.
Proof.
  intros Hr Hc. rewrite unshadow_eq, elem_of_dedup, !elem_of_app, !elem_of_class. split; [|apply not_elem_of_nil].
  destruct (classify r); naive_solver.
Qed.

(** *** The API rule *)
Definition pin_rules (has_api : bool) (rs : list obj) : list obj :=
  let api := filter (λ r, _is_api_inbound_rule r = true) rs in
  let rest := filter (λ r, _is_api_inbound_rule r = false) rs in
  match api with
  | [] => if has_api then API_INBOUND_RULE :: rest else rs
  | _ => api ++ rest
  end.

Definition api_listed (p : Payload) : bool := existsb (λ ib, String.eqb (tag_of ib) "API_INBOUND") (inbounds p).

Lemma pin_spec p rt : routing p = Some rt →
  pin_api_inbound_route p = p <| routing := Some (rt <| rules := pin_rules (api_listed p) (rules rt) |>) |>.
Proof.
  intros Hr. unfold pin_api_inbound_route, pin_rules. rewrite Hr. fold (api_listed p).
  destruct (filter _ (rules rt)) eqn:E; [|done]. destruct (api_listed p); [done|]. cbn.
  destruct p, rt. cbn in *. by rewrite Hr.
Qed.

Lemma api_rule_is_api : classify API_INBOUND_RULE = CApi.
Proof. reflexivity. Qed.

Lemma is_api_class r : _is_api_inbound_rule r = true ↔ classify r = CApi.
Proof. unfold classify. destruct (_is_api_inbound_rule r); [done|]. repeat case_match; done. Qed.

Lemma elem_of_pin r b rs : r ∈ pin_rules b rs → r ∈ rs ∨ r = API_INBOUND_RULE.
Proof.
  unfold pin_rules. destruct (filter (λ r, _is_api_inbound_rule r = true) rs) as [|a api] eqn:E; intros Hr.
  - destruct b; [|by left]. apply elem_of_cons in Hr as [->|Hr]; [by right|]. apply list_elem_of_filter in Hr. left. tauto.
  - left. rewrite <- E, elem_of_app, !list_elem_of_filter in Hr. tauto.
Qed.

Lemma pin_keeps r b rs : r ∈ rs → r ∈ pin_rules b rs.
Proof.
  intros Hr. unfold pin_rules. destruct (filter (λ r, _is_api_inbound_rule r = true) rs) as [|a api] eqn:E.
  - destruct b; [|done]. right. rewrite list_elem_of_filter. split; [|done].
    destruct (_is_api_inbound_rule r) eqn:Er; [|done]. exfalso.
    assert (r ∈ filter (λ r, _is_api_inbound_rule r = true) rs) as H by by rewrite list_elem_of_filter.
    rewrite E in H. by apply not_elem_of_nil in H.
  - rewrite <- E, elem_of_app, !list_elem_of_filter. destruct (_is_api_inbound_rule r); tauto.
Qed.

(** On a sorted list the API rules are already in front. *)
Lemma api_front rs : StronglySorted before rs →
  filter (λ r, _is_api_inbound_rule r = true) rs ++ filter (λ r, _is_api_inbound_rule r = false) rs = rs.
Proof.
  induction 1 as [|r rs _ IH Hr]; [done|]. rewrite !filter_cons. destruct (_is_api_inbound_rule r) eqn:E.
  - rewrite decide_True, decide_False by done. cbn. by rewrite IH.
  - rewrite decide_False, decide_True by done.
    assert (Hnil : filter (λ r, _is_api_inbound_rule r = true) rs = []).
    { apply filter_none. intros x Hx Ha. rewrite Forall_forall in Hr. specialize (Hr x Hx). unfold before in Hr.
      apply is_api_class in Ha. rewrite Ha in Hr. cbn in Hr. assert (Hc : rank (classify r) = 0%nat) by lia.
      assert (classify r = CApi) as Hc' by (destruct (classify r); done). apply is_api_class in Hc'. congruence. }
    rewrite Hnil in *. cbn in *. by rewrite IH.
Qed.

Lemma pin_sorted b rs : StronglySorted before rs → StronglySorted before (pin_rules b rs).
Proof.
  intros Hs. unfold pin_rules. destruct (filter (λ r, _is_api_inbound_rule r = true) rs) as [|a api] eqn:E.
  - destruct b; [|done]. pose proof (api_front rs Hs) as H. rewrite E in H. cbn in H. rewrite H.
    constructor; [done|]. apply Forall_forall. intros x _. unfold before. rewrite api_rule_is_api. cbn. lia.
  - rewrite <- E, api_front by done. exact Hs.
Qed.

(** *** [apply_warp_safe_routing] *)
Definition fixed (ob : obj) : obj := if warp_like ob then (_ensure_warp_outbound_settings ip ob).2 else ob.
Definition primary_of (w : obj) : string := or_text "warp" "tag" w.
Definition first_tag_of (obs : list obj) : string := match obs with o :: _ => tag_of o | [] => "" end.

(** The rules before they are put in order. *)
Definition candidate_rules (first primary : string) (rs : list obj) : list obj :=
  let rs := insert_escapes rs in
  if negb (has_sensitive rs) && String.eqb first primary && negb (_has_warp_default_rule rs primary)
  then rs ++ [default_rule primary] else rs.

Definition ordered (p : Payload) (w : obj) : list obj :=
  _unshadow_warp_rules (_dedupe_rules
    (candidate_rules (first_tag_of (fixed <$> outbounds p)) (primary_of w) (rules_of (rewrite_missing_warp_routes p None)))).

Lemma safe_nothing p : _warp_outbounds (outbounds p) = [] →
  apply_warp_safe_routing ip p = rewrite_missing_warp_routes p None.
Proof. intros H. unfold apply_warp_safe_routing. by rewrite (proj1 (rewrite_outbounds p None)), H. Qed.

Lemma rules_strategy rt : rules (with_strategy rt) = rules rt.
Proof. unfold with_strategy. by case_match. Qed.

Lemma rules_of_default p d : rules d = [] → rules (default d (routing p)) = rules_of p.
Proof. unfold rules_of. by destruct (routing p). Qed.

(** The payload before [pin_api_inbound_route]. *)
Definition arranged (p : Payload) (w : obj) : Payload :=
  let p1 := rewrite_missing_warp_routes p None in
  let rt := with_strategy (default empty_routing (routing p1)) in
  let p2 := _sanitize_direct_outbound (p1 <| outbounds := fixed <$> outbounds p1 |>
                                          <| routing := Some (rt <| rules := ordered p w |>) |>) in
  if _has_warp_default_rule (ordered p w) (primary_of w) then apply_warp_dns_for_exit p2 else p2.

Lemma safe_eq p w ws : _warp_outbounds (outbounds p) = w :: ws →
  apply_warp_safe_routing ip p = pin_api_inbound_route (arranged p w).
Proof.
  intros H. unfold apply_warp_safe_routing, arranged, ordered, candidate_rules.
  rewrite (proj1 (rewrite_outbounds p None)), H. cbv zeta.
  set (p1 := rewrite_missing_warp_routes p None).
  change (routing (p1 <| outbounds := _ |>)) with (routing p1).
  rewrite rules_strategy, rules_of_default by done. done.
Qed.

Lemma arranged_fields p w :
  inbounds (arranged p w) = inbounds p ∧ outbounds (arranged p w) = sanitize_outbound <$> (fixed <$> outbounds p) ∧
  ∃ rt, routing (arranged p w) = Some (rt <| rules := ordered p w |>).
Proof.
  destruct (rewrite_outbounds p None) as [Ho Hi]. unfold arranged. rewrite Ho.
  set (p1 := rewrite_missing_warp_routes p None) in *. set (o := ordered p w). clearbody o.
  destruct (_has_warp_default_rule _ _); (split_and!; [exact Hi | done | by eexists]).
Qed.

Lemma safe_fields p w ws : _warp_outbounds (outbounds p) = w :: ws →
  rules_of (apply_warp_safe_routing ip p) = pin_rules (api_listed p) (ordered p w) ∧
  outbounds (apply_warp_safe_routing ip p) = sanitize_outbound <$> (fixed <$> outbounds p).
Proof.
  intros H. rewrite (safe_eq p w ws H). destruct (arranged_fields p w) as (Hi & Ho & rt & Hr).
  rewrite (pin_spec _ _ Hr). unfold api_listed. rewrite Hi. by rewrite <- Ho.
Qed.

Lemma fixed_but_settings o : but_settings o (fixed o).
Proof. unfold fixed. case_match; [apply ensure_but_settings | done]. Qed.

Lemma safe_tags p : present_tags (apply_warp_safe_routing ip p) = present_tags p.
Proof.
  change (tags_in (outbounds (apply_warp_safe_routing ip p)) = tags_in (outbounds p)).
  destruct (_warp_outbounds (outbounds p)) as [|w ws] eqn:E.
  - rewrite safe_nothing by done. by rewrite (proj1 (rewrite_outbounds p None)).
  - rewrite (proj2 (safe_fields p w ws E)).
    rewrite (tags_in_map sanitize_outbound) by apply sanitize_but_settings. apply tags_in_map, fixed_but_settings.
Qed.

(** The escapes that are added. *)
Definition escapes : list obj := [WARP_BYPASS_RULE; WARP_PRIVATE_DIRECT_RULE; WARP_DNS_DIRECT_RULE].

Lemma insert_escapes_app rs : ∃ hd, insert_escapes rs = hd ++ rs ∧ ∀ r, r ∈ hd → r ∈ escapes.
Proof.
  unfold insert_escapes. eexists. split; [reflexivity|]. intros r. unfold escapes.
  rewrite !elem_of_cons. repeat case_match; rewrite ?elem_of_app, ?elem_of_cons; rewrite ?elem_of_nil; tauto.
Qed.

Lemma elem_of_candidate r f pr rs : r ∈ candidate_rules f pr rs → r ∈ rs ∨ r ∈ escapes ∨ (f = pr ∧ r = default_rule pr).
Proof.
  unfold candidate_rules. destruct (insert_escapes_app rs) as (hd & -> & Hhd).
  destruct (_ && _) eqn:E.
  - rewrite !elem_of_app, elem_of_cons, elem_of_nil. rewrite !andb_true_iff, String.eqb_eq in E. naive_solver.
  - rewrite elem_of_app. naive_solver.
Qed.

Lemma candidate_keeps r f pr rs : r ∈ insert_escapes rs → r ∈ candidate_rules f pr rs.
Proof. unfold candidate_rules. case_match; rewrite ?elem_of_app; auto. Qed.

Lemma existsb_mono {A} (f : A → bool) l l' : (∀ x, x ∈ l → x ∈ l') → existsb f l = true → existsb f l' = true.
Proof. rewrite !existsb_elem. naive_solver. Qed.

Lemma insert_escapes_has rs : _has_warp_bypass (insert_escapes rs) = true ∧
  _has_private_direct_rule (insert_escapes rs) = true ∧ _has_dns_direct_rule (insert_escapes rs) = true.
Proof.
  unfold insert_escapes.
  set (h1 := if negb (_has_warp_bypass rs) then [WARP_BYPASS_RULE] else []).
  set (h2 := if negb (_has_private_direct_rule (h1 ++ rs)) then h1 ++ [WARP_PRIVATE_DIRECT_RULE] else h1).
  set (h3 := if negb (_has_dns_direct_rule (h2 ++ rs)) then h2 ++ [WARP_DNS_DIRECT_RULE] else h2).
  assert (H12 : ∀ x, x ∈ h1 ++ rs → x ∈ h2 ++ rs) by (intros x; subst h2; case_match; rewrite !elem_of_app; tauto).
  assert (H23 : ∀ x, x ∈ h2 ++ rs → x ∈ h3 ++ rs) by (intros x; subst h3; case_match; rewrite !elem_of_app; tauto).
  assert (H1 : _has_warp_bypass (h1 ++ rs) = true).
  { subst h1. destruct (_has_warp_bypass rs) eqn:E; [exact E | reflexivity]. }
  assert (H2 : _has_private_direct_rule (h2 ++ rs) = true).
  { subst h2. destruct (_has_private_direct_rule (h1 ++ rs)) eqn:E; cbn [negb]; [exact E|].
    apply existsb_elem. exists WARP_PRIVATE_DIRECT_RULE. split; [|reflexivity]. rewrite !elem_of_app, elem_of_cons. tauto. }
  assert (H3 : _has_dns_direct_rule (h3 ++ rs) = true).
  { subst h3. destruct (_has_dns_direct_rule (h2 ++ rs)) eqn:E; cbn [negb]; [exact E|].
    apply existsb_elem. exists WARP_DNS_DIRECT_RULE. split; [|reflexivity]. rewrite !elem_of_app, elem_of_cons. tauto. }
  split_and!; [eapply existsb_mono, existsb_mono, H1; eauto | eapply existsb_mono, H2; eauto | exact H3].
Qed.

Lemma any_text_has s k d : any_text s k d = true → has k d = true.
Proof. unfold any_text, has. destruct (get k d) as [| | | |[|x l]|]; done. Qed.

(** An escape is never taken for a catch-all, so it stays in front. *)
Lemma escape_bootstrap r : front_rule r = true → classify r = CBootstrap.
Proof.
  unfold front_rule. rewrite andb_true_iff, String.eqb_eq. intros [Ht He].
  assert (Hc : _is_catch_all_network_rule r = false).
  { apply not_true_is_false. unfold _is_catch_all_network_rule. rewrite !andb_true_iff, !negb_true_iff. intros H.
    unfold escape_rule in He. rewrite !orb_true_iff, String.eqb_eq in He. destruct He as [[He|He]|He].
    - apply any_text_has in He. naive_solver congruence.
    - apply any_text_has in He. naive_solver congruence.
    - assert (has "port" r = true) by (apply text_has; by rewrite He). naive_solver congruence. }
  unfold classify, _is_api_inbound_rule, _is_bootstrap_direct_rule. by rewrite Ht, Hc, He.
Qed.

(** Rules in front survive the ordering. *)
Lemma ordered_keeps f p w : (∀ r, f r = true → front_rule r = true) →
  (∀ rs, existsb f (insert_escapes rs) = true) → existsb f (ordered p w) = true.
Proof.
  intros Hf Hi. unfold ordered. set (c := candidate_rules _ _ _).
  assert (H : existsb f c = true).
  { eapply existsb_mono; [|apply (Hi (rules_of (rewrite_missing_warp_routes p None)))]. intros r. apply candidate_keeps. }
  apply existsb_elem in H as (r & Hr & Hfr). apply existsb_elem. exists r. split; [|done].
  apply unshadow_keeps; [|by rewrite (escape_bootstrap r (Hf r Hfr))].
  apply elem_of_dedup. split; [done | apply not_elem_of_nil].
Qed.

Lemma escape_has_front r :
  (String.eqb (ot r) "DIRECT" && any_text DEFAULT_WARP_ENDPOINT_HOST "domain" r = true → front_rule r = true) ∧
  (String.eqb (ot r) "DIRECT" && any_text "geoip:private" "ip" r = true → front_rule r = true) ∧
  (String.eqb (ot r) "DIRECT" && (String.eqb (text "port" r) "53" && contains "udp" (text "network" r)) = true → front_rule r = true).
Proof.
  unfold front_rule, escape_rule. rewrite !andb_true_iff, !orb_true_iff. tauto.
Qed.

Lemma ordered_closed p w : closed (present_tags p) (ordered p w).
Proof.
  intros r Hr Hw. unfold ordered in Hr. apply elem_of_unshadow, elem_of_dedup in Hr as [Hr _].
  apply elem_of_candidate in Hr as [Hr|[Hr|[Hf ->]]].
  - by apply (rewrite_closed p).
  - unfold escapes in Hr. rewrite !elem_of_cons, elem_of_nil in Hr.
    destruct Hr as [->|[->|[->|[]]]]; vm_compute in Hw; done.
  - unfold default_rule, ot in *. rewrite text_insert_eq in *. rewrite <- Hf in *.
    destruct (outbounds p) as [|o obs] eqn:E; cbn in Hw |- *; [done|].
    destruct (tag_but_settings o (fixed o) (fixed_but_settings o)) as [Ht Hh]. rewrite Ht in *.
    unfold present_tags. rewrite E, filter_cons, decide_True; [left|].
    apply text_has. intros H0. unfold tag_of in Hw. rewrite H0 in Hw. done.
Qed.

(** C23. Traffic is not black-holed: after [apply_warp_safe_routing], whatever the configuration
    was, no rule names a WARP outbound that does not exist; and where a WARP outbound
    exists, the escapes for its own endpoint, for private addresses and for DNS are
    there. *)
Theorem safe_routing_closed p :
  let p' := apply_warp_safe_routing ip p in
  (∀ r, r ∈ rules_of p' → is_warp_tag (ot r) = true → ot r ∈ present_tags p') ∧
  (_warp_outbounds (outbounds p) ≠ [] →
     _has_warp_bypass (rules_of p') = true ∧ _has_private_direct_rule (rules_of p') = true ∧
     _has_dns_direct_rule (rules_of p') = true).
Proof.
  cbv zeta. rewrite safe_tags. destruct (_warp_outbounds (outbounds p)) as [|w ws] eqn:E.
  { rewrite safe_nothing by done. split; [apply rewrite_closed | done]. }
  rewrite (proj1 (safe_fields p w ws E)). split.
  - intros r Hr Hw. apply elem_of_pin in Hr as [Hr | ->]; [by apply (ordered_closed p w) | vm_compute in Hw; done].
  - intros _. assert (Hmono : ∀ r, r ∈ ordered p w → r ∈ pin_rules (api_listed p) (ordered p w)) by (intros r; apply pin_keeps).
    split_and!; (eapply existsb_mono; [exact Hmono|]; apply ordered_keeps; [intros r; apply escape_has_front | intros rs; apply insert_escapes_has]).
Qed.

(** Rules of the same configuration cannot shadow each other: in what
    [apply_warp_safe_routing] produces for a WARP exit, the rule that takes a flow is
    of the best class among all the rules the flow matches, where the panel's API
    comes before the escapes, these before the WARP rules, these before the operator's
    own, and catch-alls come last; no rule but a catch-all to [DIRECT] is lost. *)
Theorem safe_routing_order p m r r' : _warp_outbounds (outbounds p) ≠ [] →
  let p' := apply_warp_safe_routing ip p in
  route m (rules_of p') = Some r → r' ∈ rules_of p' → m r' = true →
  (rank (classify r) ≤ rank (classify r'))%nat ∧
  (∀ x, x ∈ rules_of (rewrite_missing_warp_routes p None) → classify x ≠ CCatchDirect → x ∈ rules_of p').
Proof.
  intros Hw. cbv zeta. destruct (_warp_outbounds (outbounds p)) as [|w ws] eqn:E; [done|].
  rewrite (proj1 (safe_fields p w ws E)). intros Hm Hr' Hm'. split.
  - eapply (route_best before); [apply pin_sorted, unshadow_sorted | unfold before; lia | done..].
  - intros x Hx Hc. apply pin_keeps, unshadow_keeps; [|done]. apply elem_of_dedup. split; [|apply not_elem_of_nil].
    apply candidate_keeps. destruct (insert_escapes_app (rules_of (rewrite_missing_warp_routes p None))) as (hd & -> & _).
    rewrite elem_of_app. by right.
Qed.

(** *** Removal *)
Lemma strip_sensitive_outbounds p : outbounds (strip_sensitive_warp_routing p) = outbounds p
  ∧ inbounds (strip_sensitive_warp_routing p) = inbounds p.
Proof. unfold strip_sensitive_warp_routing. by destruct (routing p). Qed.

Lemma strip_sensitive_rules p :
  rules_of (strip_sensitive_warp_routing p) = filter (λ r, _is_sensitive_warp_rule r = false) (rules_of p).
Proof. unfold strip_sensitive_warp_routing, rules_of. destruct (routing p) eqn:E; [done|]. by rewrite E. Qed.

Lemma rewrite_rules r p ts : r ∈ rules_of (rewrite_missing_warp_routes p (Some ts)) →
  ot r = "DIRECT"%string ∨ r ∈ rules_of p ∧ (ot r ∈ ts → ot r = ""%string).
Proof.
  unfold rewrite_missing_warp_routes. destruct (routing p) as [rt|] eqn:Er.
  2:{ intros H. unfold rules_of in H. rewrite Er in H. by apply not_elem_of_nil in H. }
  assert (Hrt : rules_of p = rules rt) by (unfold rules_of; by rewrite Er).
  assert (Hf : ∀ t, t ∈ ts → t ∈ filter (λ t, t ≠ ""%string) ts ∨ t = ""%string).
  { intros t Ht. destruct (decide (t = ""%string)); [by right|left]. by rewrite list_elem_of_filter. }
  destruct (filter _ ts) as [|t l] eqn:Et; intros Hr.
  - right. split; [done|]. intros H. destruct (Hf _ H) as [H'|]; [by apply not_elem_of_nil in H' | done].
  - cbn in Hr. apply elem_of_dedup in Hr as [Hr _]. apply list_elem_of_fmap in Hr as (r0 & -> & Hr0).
    rewrite ot_redirect. unfold redirect. case_bool_decide as Hb; [by left|right]. rewrite Hrt. split; [done|].
    intros H. destruct (Hf _ H) as [|]; done.
Qed.

Lemma filter_nil_elem {A} (P : A → Prop) `{∀ x, Decision (P x)} (l : list A) x : filter P l = [] → x ∈ l → ¬ P x.
Proof. intros Hf Hx HP. by apply (filter_nil_not_elem_of P l x). Qed.

(** What [strip_warp_from_config] takes out. *)
Definition doomed (p : Payload) : list string :=
  warp_outbound_tags (outbounds p) ++ filter (λ t, is_warp_tag t = true) (ot <$> rules_of p).

Lemma doomed_rule p r : r ∈ rules_of p → is_warp_tag (ot r) = true → ot r ∈ doomed p.
Proof.
  intros Hr Hw. unfold doomed. rewrite elem_of_app, list_elem_of_filter. right. split; [done|].
  by apply list_elem_of_fmap_2.
Qed.

Lemma doomed_outbound p o : o ∈ outbounds p → warp_like o = true → has "tag" o = true → tag_of o ∈ doomed p.
Proof.
  intros Ho Hw Ht. unfold doomed, warp_outbound_tags, _warp_outbounds. rewrite elem_of_app. left.
  apply list_elem_of_fmap_2. by rewrite !list_elem_of_filter.
Qed.

Lemma strip_nothing p : doomed p = [] → rules_of (strip_warp_from_config p None) = rules_of p
  ∧ outbounds (strip_warp_from_config p None) = outbounds p.
Proof.
  intros Hd. unfold strip_warp_from_config. fold (doomed p). rewrite Hd. split; [|apply rewrite_outbounds].
  assert (Hm : missing_warp_tags p = []).
  { apply filter_none. intros t Ht [Hw _]. apply app_eq_nil in Hd as [_ Hd]. by apply (filter_nil_elem _ _ _ Hd Ht). }
  unfold rewrite_missing_warp_routes. rewrite Hm. by destruct (routing p).
Qed.

(** Removing WARP removes all of it: afterwards no rule names a WARP tag, no tagged WARP
    outbound is left, and a rule that named an outbound which is gone now goes to
    [DIRECT]. *)
Theorem strip_removes_warp p :
  let p' := strip_warp_from_config p None in
  (∀ r, r ∈ rules_of p' → is_warp_tag (ot r) = false) ∧
  (∀ o, o ∈ outbounds p' → warp_like o = true → has "tag" o = false) ∧
  (∀ t r, t ∈ present_tags p → t ∉ present_tags p' → t ≠ ""%string → r ∈ rules_of p' → ot r = t → t = "DIRECT"%string).
Proof.
  cbv zeta. destruct (doomed p) as [|d ds] eqn:Ed.
  - destruct (strip_nothing p Ed) as [Hr Ho]. unfold present_tags. rewrite Hr, Ho. split_and!; [| |done].
    + intros r Hin. apply not_true_is_false. intros Hw. pose proof (doomed_rule p r Hin Hw) as H. rewrite Ed in H. by apply not_elem_of_nil in H.
    + intros o Hin Hw. apply not_true_is_false. intros Ht. pose proof (doomed_outbound p o Hin Hw Ht) as H. rewrite Ed in H. by apply not_elem_of_nil in H.
  - unfold strip_warp_from_config. fold (doomed p). rewrite Ed. rewrite <- Ed.
    set (q := p <| outbounds := _ |>). set (q' := strip_sensitive_warp_routing q).
    assert (Ho : outbounds (rewrite_missing_warp_routes q' (Some (doomed p))) = filter (λ o, tag_of o ∉ doomed p) (outbounds p)).
    { rewrite (proj1 (rewrite_outbounds _ _)). apply (strip_sensitive_outbounds q). }
    assert (Hr : ∀ r, r ∈ rules_of (rewrite_missing_warp_routes q' (Some (doomed p))) →
              ot r = "DIRECT"%string ∨ r ∈ rules_of p ∧ (ot r ∈ doomed p → ot r = ""%string)).
    { intros r Hin. apply rewrite_rules in Hin as [?|[Hin Hd]]; [by left|right]. split; [|done].
      unfold q' in Hin. rewrite strip_sensitive_rules in Hin. by apply list_elem_of_filter in Hin as [_ ?]. }
    split_and!.
    + intros r Hin. apply not_true_is_false. intros Hw. destruct (Hr r Hin) as [H|[Hp Hd]]; [by rewrite H in Hw|].
      rewrite (Hd (doomed_rule p r Hp Hw)) in Hw. done.
    + intros o Hin Hw. rewrite Ho, list_elem_of_filter in Hin. destruct Hin as [Hnot Hin].
      apply not_true_is_false. intros Ht. by apply Hnot, doomed_outbound.
    + intros t r Htp Htn Hne Hin Hot. destruct (Hr r Hin) as [H|[Hp Hd]]; [congruence|]. exfalso. apply Hne. rewrite <- Hot.
      apply Hd. rewrite Hot. destruct (decide (t ∈ doomed p)) as [|Hnd]; [done|]. exfalso. apply Htn.
      unfold present_tags in *. apply list_elem_of_fmap in Htp as (o & -> & Hino). apply list_elem_of_filter in Hino as [Hh Hino].
      apply list_elem_of_fmap_2. rewrite Ho, !list_elem_of_filter. done.
Qed.

(** What the search for leftovers does not see: rules that reach WARP through the
    balancer.  When the WARP outbounds are already gone they are neither removed nor
    sent to [DIRECT]. *)
Lemma balancer_rules_left p : _warp_outbounds (outbounds p) = [] → (∀ r, r ∈ rules_of p → is_warp_tag (ot r) = false) →
  rules_of (strip_warp_from_config p None) = rules_of p ∧ rules_of (apply_warp_safe_routing ip p) = rules_of p.
Proof.
  intros Hw Hr. assert (Hf : filter (λ t, is_warp_tag t = true) (ot <$> rules_of p) = []).
  { apply filter_none. intros t Ht. apply list_elem_of_fmap in Ht as (r & -> & Hin). by rewrite Hr. }
  split.
  - apply strip_nothing. unfold doomed, warp_outbound_tags. by rewrite Hw, Hf.
  - rewrite safe_nothing by done. unfold rewrite_missing_warp_routes.
    assert (Hm : missing_warp_tags p = []).
    { apply filter_none. intros t Ht [H _]. by apply (filter_nil_elem _ _ _ Hf Ht). }
    rewrite Hm. by destruct (routing p).
Qed.

(** *** The sensitive split *)

(** The sensitive rules come first, but for rules satisfying [G]. *)
Definition guarded (G : obj → Prop) (sens rs : list obj) : Prop :=
  ∃ a b, rs = a ++ b ∧ (∀ r, r ∈ a → G r) ∧ (∀ r, r ∈ sens → r ∈ a).

Lemma guarded_route G sens rs m r r0 : guarded G sens rs →
  r ∈ sens → m r = true → route m rs = Some r0 → G r0.
Proof.
  intros (a & b & -> & Ha & Hs) Hr Hm. unfold route. rewrite filter_app.
  destruct (filter (λ r, m r = true) a) as [|x l] eqn:E.
  - exfalso. by apply (filter_nil_elem _ _ _ E (Hs r Hr)).
  - intros [= <-]. assert (x ∈ filter (λ r, m r = true) a) as Hx by (rewrite E; left).
    apply list_elem_of_filter in Hx as [_ Hx]. by apply Ha.
Qed.

Lemma guarded_in G sens rs r : guarded G sens rs → r ∈ sens → r ∈ rs.
Proof. intros (a & b & -> & _ & Hs) Hr. rewrite elem_of_app. left. by apply Hs. Qed.

Lemma guarded_dedup G sens front rest : (∀ r, r ∈ front ∨ r ∈ sens → G r) →
  guarded G sens (_dedupe_rules (front ++ sens ++ rest)).
Proof.
  intros Hg. unfold _dedupe_rules. rewrite app_assoc, dedup_app. do 2 eexists. split; [reflexivity|]. split.
  - intros r Hr. apply elem_of_dedup in Hr as [Hr _]. by apply Hg, elem_of_app.
  - intros r Hr. apply elem_of_dedup. split; [rewrite elem_of_app; by right | apply not_elem_of_nil].
Qed.

Lemma guarded_filter G sens rs (P : obj → Prop) `{∀ r, Decision (P r)} :
  (∀ r, r ∈ sens → P r) → guarded G sens rs → guarded G sens (filter P rs).
Proof.
  intros HP (a & b & -> & Ha & Hs). exists (filter P a), (filter P b). rewrite filter_app. split; [done|]. split.
  - intros r Hr. apply list_elem_of_filter in Hr as [_ Hr]. by apply Ha.
  - intros r Hr. apply list_elem_of_filter. auto.
Qed.

Lemma insert_after_app a b q :
  insert_after_direct (a ++ b) q = insert_after_direct a q ++ b ∧ a ≠ [] ∨
  insert_after_direct (a ++ b) q = a ++ insert_after_direct b q.
Proof.
  induction a as [|x a IH]; [by right|]. cbn. destruct (String.eqb (ot x) "DIRECT"); [|by left].
  destruct IH as [[-> _]| ->]; [by left | by right].
Qed.

Lemma elem_of_insert_after r l q : r ∈ insert_after_direct l q ↔ r ∈ l ∨ r = q.
Proof.
  induction l as [|x l IH]; cbn; [rewrite elem_of_cons, elem_of_nil; naive_solver|].
  case_match; rewrite !elem_of_cons, ?IH; tauto.
Qed.

Lemma guarded_insert (G : obj → Prop) sens rs q : G q → guarded G sens rs → guarded G sens (insert_after_direct rs q).
Proof.
  intros Hq (a & b & -> & Ha & Hs). destruct (insert_after_app a b q) as [[-> _]| ->].
  - exists (insert_after_direct a q), b. split; [done|]. setoid_rewrite elem_of_insert_after. split; [|auto].
    intros r [Hr | ->]; auto.
  - by exists a, (insert_after_direct b q).
Qed.

Lemma guarded_pin (G : obj → Prop) sens rs c : (∀ r, r ∈ sens → _is_api_inbound_rule r = false) →
  (∀ r, _is_api_inbound_rule r = true → G r) → guarded G sens rs → guarded G sens (pin_rules c rs).
Proof.
  intros Hna Hg H. unfold pin_rules. set (api := filter (λ r, _is_api_inbound_rule r = true) rs).
  assert (Hrest : guarded G sens (filter (λ r, _is_api_inbound_rule r = false) rs)) by by apply guarded_filter.
  assert (Hc : ∀ l, (∀ r, r ∈ l → G r) → guarded G sens (l ++ filter (λ r, _is_api_inbound_rule r = false) rs)).
  { intros l Hl. destruct Hrest as (a & b & Heq & Ha & Hs). rewrite Heq. exists (l ++ a), b. rewrite app_assoc.
    split; [done|]. split; [intros r; rewrite elem_of_app; naive_solver | intros r Hr; rewrite elem_of_app; auto]. }
  destruct api as [|x l] eqn:E.
  - destruct c; [|done]. apply (Hc [API_INBOUND_RULE]). intros r Hr. apply elem_of_cons in Hr as [->|Hr]; [by apply Hg|by apply not_elem_of_nil in Hr].
  - rewrite <- E. apply Hc. intros r Hr. unfold api in Hr. apply list_elem_of_filter in Hr as [Hr _]. by apply Hg.
Qed.

(** What the sensitive rules look like. *)
Lemma elem_of_sensitive r tgt : r ∈ _sensitive_domain_rules tgt →
  ∃ k vs, (k = "domain" ∨ k = "ip")%string ∧ vs ≠ [] ∧ r = field_rule k vs tgt.
Proof.
  unfold _sensitive_domain_rules. rewrite !elem_of_app, !list_elem_of_fmap.
  intros [(vs & -> & Hvs)|[(g & -> & _)|(g & -> & _)]].
  - exists "domain"%string, vs. split_and!; [by left| |done]. intros ->. vm_compute in Hvs.
    repeat (apply elem_of_cons in Hvs as [Hvs|Hvs]; [done|]). by apply not_elem_of_nil in Hvs.
  - exists "domain"%string, [g]. split_and!; [by left|done|done].
  - exists "ip"%string, [g]. split_and!; [by right|done|done].
Qed.

Definition is_target (tgt : string * string) : Prop := (tgt.1 = "outboundTag" ∨ tgt.1 = "balancerTag")%string.

Lemma sensitive_shape r tgt : is_target tgt → r ∈ _sensitive_domain_rules tgt →
  quic_block r = false ∧ _is_api_inbound_rule r = false ∧ _is_catch_all_network_rule r = false.
Proof.
  intros Ht Hr. apply elem_of_sensitive in Hr as (k & vs & Hk & Hvs & ->). destruct tgt as [tk tv].
  assert (Hnet : text "network" (field_rule k vs (tk, tv)) = ""%string).
  { destruct Ht as [Ht|Ht], Hk as [-> | ->]; cbn in Ht; subst tk; reflexivity. }
  assert (Hin : get "inboundTag" (field_rule k vs (tk, tv)) = JNull).
  { destruct Ht as [Ht|Ht], Hk as [-> | ->]; cbn in Ht; subst tk; reflexivity. }
  unfold quic_block, _is_api_inbound_rule, _is_catch_all_network_rule, has. rewrite Hnet, Hin.
  split_and!; [by rewrite !andb_false_r | by rewrite andb_false_r | done].
Qed.

(** *** Steps of [ensure_warp_sensitive_exit] *)
Lemma refresh_fields p : inbounds (refresh_sensitive_quic_block p) = inbounds p ∧
  (∀ t, t ∈ present_tags p → t ∈ present_tags (refresh_sensitive_quic_block p)) ∧
  (∃ rt', routing (refresh_sensitive_quic_block p) = Some rt' ∧
          balancers rt' = balancers (default (mkRouting None [] [] ∅) (routing p))) ∧
  rules_of (refresh_sensitive_quic_block p) =
    (let rs := filter (λ r, quic_block r = false) (rules_of p) in
     match _sensitive_quic_inbound_tags p with
     | [] => rs
     | tags => insert_after_direct rs (_sensitive_quic_block_rule tags)
     end).
Proof.
  unfold refresh_sensitive_quic_block. rewrite <- (rules_of_default p (mkRouting None [] [] ∅)) by done.
  destruct (_sensitive_quic_inbound_tags p) as [|t ts]; [split_and!; [done|done|by eexists|done]|].
  unfold _ensure_block_outbound. destruct (existsb _ (outbounds p)); (split_and!; [done| |by eexists|done]); [done|].
  intros x Hx. unfold present_tags in *. cbn. rewrite filter_app, fmap_app, elem_of_app. by left.
Qed.

Lemma block_present p ts : ts ≠ [] → _sensitive_quic_inbound_tags p = ts →
  "BLOCK"%string ∈ present_tags (refresh_sensitive_quic_block p).
Proof.
  intros Hne Hts. unfold refresh_sensitive_quic_block. rewrite Hts. destruct ts as [|t ts]; [done|].
  unfold _ensure_block_outbound. destruct (existsb _ (outbounds p)) eqn:E; unfold present_tags; cbn.
  - apply existsb_elem in E as (o & Ho & Ht). apply String.eqb_eq in Ht. rewrite <- Ht at 1. apply list_elem_of_fmap_2.
    rewrite list_elem_of_filter. split; [|done]. apply text_has. unfold tag_of in Ht. by rewrite Ht.
  - rewrite filter_app, fmap_app, elem_of_app. right. left.
Qed.

Lemma pin_fields p rt : routing p = Some rt →
  inbounds (pin_api_inbound_route p) = inbounds p ∧ outbounds (pin_api_inbound_route p) = outbounds p ∧
  rules_of (pin_api_inbound_route p) = pin_rules (api_listed p) (rules_of p) ∧
  ∃ rt', routing (pin_api_inbound_route p) = Some rt' ∧ balancers rt' = balancers rt.
Proof.
  intros H. assert (Hr : rules_of p = rules rt) by (unfold rules_of; by rewrite H).
  rewrite (pin_spec _ _ H), Hr. split_and!; [done|done|done|by eexists].
Qed.

Lemma target_is_target tags : is_target (target_of tags).
Proof. unfold target_of, is_target. destruct tags as [|t [|]]; auto. Qed.

(** The payload before the split rules are put in. *)
Definition installed (p : Payload) (obs : list obj) : Payload :=
  ensure_tunnel_exit_sniffing (strip_sensitive_warp_routing (apply_warp_safe_routing ip (apply_warp_dns_for_exit
    (install_outbounds (strip_sensitive_warp_routing p) (omap (prepare ip) obs))))).

Definition with_split (tags : list string) (q : Payload) : Payload :=
  let rt := default empty_routing (routing q) in
  let rs := filter (λ r, (is_warp_tag (ot r) && _is_catch_all_network_rule r) = false) (rules rt) in
  q <| routing := Some (rt <| domainStrategy := Some (JStr "IPIfNonMatch") |>
                           <| rules := split_rules (target_of tags) rs |>
                           <| balancers := balancers_for tags (balancers rt) |>) |>.

Lemma sensitive_eq p obs : omap (prepare ip) obs ≠ [] →
  ensure_warp_sensitive_exit ip p obs = pin_api_inbound_route (refresh_sensitive_quic_block
    (with_split (tag_of <$> omap (prepare ip) obs) (installed p obs))).
Proof.
  intros H. unfold ensure_warp_sensitive_exit, installed. destruct (omap (prepare ip) obs); [done|].
  cbv zeta. set (q := ensure_tunnel_exit_sniffing _). clearbody q. done.
Qed.

Lemma prepare_tagged raw o : prepare ip raw = Some o → has "tag" o = true ∧ tag_of o = strip (tag_of raw).
Proof.
  unfold prepare. destruct (String.eqb_spec (strip (tag_of raw)) "") as [|Hne]; [done|]. intros [= <-].
  destruct (tag_but_settings _ _ (ensure_but_settings (<["tag"%string := JStr (strip (tag_of raw))]> raw))) as [-> ->].
  unfold tag_of. rewrite text_insert_eq. split; [|done]. apply text_has. by rewrite text_insert_eq.
Qed.

Lemma sniffing_tags p : present_tags (ensure_tunnel_exit_sniffing p) = present_tags p.
Proof. done. Qed.
Lemma strip_sensitive_tags p : present_tags (strip_sensitive_warp_routing p) = present_tags p.
Proof. unfold present_tags. by rewrite (proj1 (strip_sensitive_outbounds p)). Qed.
Lemma dns_tags p : present_tags (apply_warp_dns_for_exit p) = present_tags p.
Proof. done. Qed.

Lemma installed_tags p obs t : t ∈ tag_of <$> omap (prepare ip) obs → t ∈ present_tags (installed p obs).
Proof.
  intros Ht. unfold installed. rewrite sniffing_tags, strip_sensitive_tags, safe_tags, dns_tags.
  apply list_elem_of_fmap in Ht as (o & -> & Ho). apply list_elem_of_fmap_2. rewrite list_elem_of_filter. split.
  - apply list_elem_of_omap in Ho as (raw & _ & Hp). by apply (prepare_tagged raw o).
  - unfold install_outbounds, _ensure_block_outbound. case_match; cbn; rewrite !elem_of_app; auto.
Qed.

Lemma safe_inbounds p : inbounds (apply_warp_safe_routing ip p) = inbounds p.
Proof.
  destruct (_warp_outbounds (outbounds p)) as [|w ws] eqn:E.
  - rewrite safe_nothing by done. apply rewrite_outbounds.
  - rewrite (safe_eq p w ws E). destruct (arranged_fields p w) as (Hi & _ & rt & Hr).
    by rewrite (proj1 (pin_fields _ _ Hr)).
Qed.

Lemma install_inbounds p pr : inbounds (install_outbounds p pr) = inbounds p.
Proof. unfold install_outbounds, _ensure_block_outbound. by case_match. Qed.
Lemma dns_inbounds p : inbounds (apply_warp_dns_for_exit p) = inbounds p.
Proof. done. Qed.
Lemma sniffing_inbounds p : inbounds (ensure_tunnel_exit_sniffing p) = sniffed <$> inbounds p.
Proof. done. Qed.

Lemma installed_inbounds p obs : inbounds (installed p obs) = sniffed <$> inbounds p.
Proof.
  unfold installed. rewrite sniffing_inbounds, (proj2 (strip_sensitive_outbounds _)), safe_inbounds, dns_inbounds, install_inbounds.
  by rewrite (proj2 (strip_sensitive_outbounds p)).
Qed.

Lemma sniffed_spec ib : _inbound_needs_sensitive_sniffing (sniffed ib) = true →
  get "sniffing" (sniffed ib) = SENSITIVE_WARP_SNIFFING.
Proof.
  unfold sniffed. destruct (_inbound_needs_sensitive_sniffing ib) eqn:E; cbn [negb]; [|by rewrite E].
  case_bool_decide as Hs; [done|]. intros _. apply get_insert_eq.
Qed.

(** [split_rules]: escapes in front, no catch-all added. *)
Lemma split_guarded G tgt rs : (∀ r, front_rule r = true → G r) → (∀ r, r ∈ _sensitive_domain_rules tgt → G r) →
  guarded G (_sensitive_domain_rules tgt) (split_rules tgt rs).
Proof.
  intros Hf Hs. unfold split_rules. apply guarded_dedup. intros r [Hr|Hr]; [|by apply Hs]. apply Hf.
  assert (Hfr : ∀ x, x ∈ filter (λ r, front_rule r = true) rs → front_rule x = true)
    by (intros x Hx; by apply list_elem_of_filter in Hx as [? _]).
  repeat match type of Hr with
  | context [if negb ?b then _ else _] => destruct b; cbn [negb] in Hr
  end; rewrite ?elem_of_app, ?elem_of_cons in Hr; rewrite ?elem_of_nil in Hr; naive_solver.
Qed.

Lemma elem_of_split r tgt rs : r ∈ split_rules tgt rs → r ∈ rs ∨ r ∈ escapes ∨ r ∈ _sensitive_domain_rules tgt.
Proof.
  unfold split_rules, _dedupe_rules. rewrite elem_of_dedup. intros [Hr _]. unfold escapes.
  assert (Hfr : ∀ b x, x ∈ filter (λ r, front_rule r = b) rs → x ∈ rs)
    by (intros b x Hx; by apply list_elem_of_filter in Hx as [_ ?]).
  rewrite !elem_of_app in Hr. destruct Hr as [Hr|[Hr|Hr]]; [|by right; right|left; by apply (Hfr false)].
  repeat match type of Hr with
  | context [if negb ?b then _ else _] => destruct b; cbn [negb] in Hr
  end; rewrite ?elem_of_app, ?elem_of_cons in Hr; rewrite ?elem_of_nil in Hr; rewrite !elem_of_cons; naive_solver.
Qed.

Lemma quic_rule_blocks ts : ts ≠ [] → quic_block (_sensitive_quic_block_rule ts) = true.
Proof. destruct ts; [done|reflexivity]. Qed.

(** What may take a flow before the rest of the rules does: the sensitive rules, a rule that
    leads the API inbound to [API], an escape to [DIRECT] (for WARP's endpoint, private
    addresses or DNS, also one the operator wrote), and the QUIC block the panel installs
    for the inbounds [ts]. *)
Definition ahead (sens : list obj) (ts : list string) (r : obj) : Prop :=
  r ∈ sens ∨ _is_api_inbound_rule r = true ∨ front_rule r = true ∨ (ts ≠ [] ∧ r = _sensitive_quic_block_rule ts).

Lemma with_split_fields tags q :
  inbounds (with_split tags q) = inbounds q ∧ present_tags (with_split tags q) = present_tags q ∧
  balancers (default (mkRouting None [] [] ∅) (routing (with_split tags q)))
    = balancers_for tags (balancers (default empty_routing (routing q))) ∧
  ∃ rs, (∀ r, r ∈ rs → is_warp_tag (ot r) && _is_catch_all_network_rule r = false) ∧
        rules_of (with_split tags q) = split_rules (target_of tags) rs.
Proof.
  split_and!; [done|done|done|]. eexists. split; [|reflexivity]. intros r Hr. by apply list_elem_of_filter in Hr as [? _].
Qed.

Lemma finish_fields q rt0 : routing q = Some rt0 →
  let p' := pin_api_inbound_route (refresh_sensitive_quic_block q) in
  inbounds p' = inbounds q ∧ present_tags p' = present_tags (refresh_sensitive_quic_block q) ∧
  rules_of p' = pin_rules (api_listed q) (rules_of (refresh_sensitive_quic_block q)) ∧
  ∃ rt, routing p' = Some rt ∧ balancers rt = balancers (default (mkRouting None [] [] ∅) (routing q)).
Proof.
  intros H. cbv zeta. destruct (refresh_fields q) as (Hi & _ & (rt & Hr & Hb) & _).
  destruct (pin_fields _ _ Hr) as (Hi' & Ho' & Hr' & rt' & Hrt' & Hb').
  split_and!; [congruence| | |].
  - unfold present_tags. by rewrite Ho'.
  - rewrite Hr'. unfold api_listed. by rewrite Hi.
  - exists rt'. split; [done|congruence].
Qed.

Lemma refresh_guarded sens q : (∀ r, r ∈ sens → quic_block r = false) →
  let G := ahead sens (_sensitive_quic_inbound_tags q) in
  guarded G sens (rules_of q) → guarded G sens (rules_of (refresh_sensitive_quic_block q)).
Proof.
  cbv zeta. intros Hq Hg. destruct (refresh_fields q) as (_ & _ & _ & ->). cbv zeta.
  destruct (_sensitive_quic_inbound_tags q) as [|t ts] eqn:E; [by apply guarded_filter|].
  apply guarded_insert; [|by apply guarded_filter]. right. right. by right.
Qed.

Lemma elem_of_refresh r q : r ∈ rules_of (refresh_sensitive_quic_block q) →
  r ∈ rules_of q ∨ ot r = "BLOCK"%string.
Proof.
  destruct (refresh_fields q) as (_ & _ & _ & ->). cbv zeta.
  destruct (_sensitive_quic_inbound_tags q) as [|t ts].
  - rewrite list_elem_of_filter. tauto.
  - rewrite elem_of_insert_after, list_elem_of_filter. intros [[_ ?]| ->]; [by left | by right].
Qed.

Lemma quic_blocked q ib : ib ∈ inbounds q → _inbound_needs_sensitive_sniffing ib = true →
  "BLOCK"%string ∈ present_tags (refresh_sensitive_quic_block q) ∧
  ∃ r, r ∈ rules_of (refresh_sensitive_quic_block q) ∧ quic_block r = true ∧ JStr (tag_of ib) ∈ items "inboundTag" r.
Proof.
  intros Hib Hn. assert (Ht : tag_of ib ∈ _sensitive_quic_inbound_tags q).
  { apply list_elem_of_fmap_2. rewrite list_elem_of_filter, Hn. split; [|done].
    unfold _inbound_needs_sensitive_sniffing in Hn. destruct (String.eqb (tag_of ib) ""); done. }
  destruct (refresh_fields q) as (_ & _ & _ & Hr). destruct (_sensitive_quic_inbound_tags q) as [|t ts] eqn:E.
  { by apply not_elem_of_nil in Ht. }
  split; [by apply (block_present q (t :: ts))|]. exists (_sensitive_quic_block_rule (t :: ts)).
  split_and!; [rewrite Hr; apply elem_of_insert_after; by right | by apply quic_rule_blocks |].
  change (JStr (tag_of ib) ∈ JStr <$> (t :: ts)). by apply list_elem_of_fmap_2.
Qed.


(** With one account the operator's own balancers go too, and the rules that use them are
    left without. *)
Lemma one_account_drops_balancers p obs o : omap (prepare ip) obs = [o] →
  ∃ rt, routing (ensure_warp_sensitive_exit ip p obs) = Some rt ∧ balancers rt = [].
Proof.
  intros H. rewrite sensitive_eq by by rewrite H. rewrite H.
  destruct (finish_fields (with_split (tag_of <$> [o]) (installed p obs)) _ eq_refl) as (_ & _ & _ & rt & Hrt & Hb).
  exists rt. split; [done|]. by rewrite Hb, (proj1 (proj2 (proj2 (with_split_fields _ _)))).
Qed.
End env.
End WarpFacts.

(** ** Examples *)
Module WarpExamples.
Import Py Warp WarpFacts.

#[local] Instance no_repr : Repr := λ _, ""%string.

Definition address : option string := Some "162.159.192.1"%string.
Definition warp_out (tag : string) : obj := dict
  [("tag", JStr tag); ("protocol", JStr "wireguard");
   ("settings", JObj (dict [("peers", JArr [JObj (dict [("endpoint", JStr "engage.cloudflareclient.com:2408")])])]))]%string.
Definition direct_out : obj := dict [("tag", JStr "DIRECT"); ("protocol", JStr "freedom")]%string.
Definition to (tag : string) (keys : list (string * json)) : obj := dict (("outboundTag"%string, JStr tag) :: keys).

(** Everything to [DIRECT] first, then a rule to an account that is gone. *)
Definition panel : Payload := mkPayload
  [dict [("tag", JStr "API_INBOUND")]; dict [("tag", JStr "in1"); ("protocol", JStr "vless")]]%string
  [direct_out; warp_out "warp"]
  (Some (mkRouting None [to "DIRECT" [("network", JStr "tcp,udp")]; to "warp-9" [("domain", strs ["domain:x.org"])];
                         to "warp" [("inboundTag", strs ["in1"])]] [] ∅))%string None ∅.

Example panel_safe : ot <$> rules_of (apply_warp_safe_routing address panel)
  = ["API"; "DIRECT"; "DIRECT"; "DIRECT"; "warp"; "DIRECT"; "DIRECT"]%string.
Proof. vm_compute. reflexivity. Qed.

Example panel_split : ot <$> rules_of (ensure_warp_sensitive_exit address panel [warp_out "warp"])
  = ["API"; "DIRECT"; "DIRECT"; "DIRECT"; "BLOCK"; "warp"; "warp"; "warp"; "warp"; "warp"; "warp"; "warp"; "warp"; "DIRECT"]%string.
Proof. vm_compute. reflexivity. Qed.

(** After a full exit the rule of the panel's API is behind the escape for private
    addresses; the start of the core pins it again. *)
Example full_exit_order : ot <$> rules_of (ensure_warp_exit address panel (warp_out "warp") true)
  = ["DIRECT"; "DIRECT"; "DIRECT"; "API"; "warp"; "DIRECT"; "warp"]%string.
Proof. vm_compute. reflexivity. Qed.

Example tags_parsed : parse_warp_tags (Some " warp; warp-2,,warp "%string) = ["warp"; "warp-2"]%string.
Proof. vm_compute. reflexivity. Qed.

(** A flow into [in1] that only the WARP rule and the catch-all match. *)
Definition to_in1 (r : obj) : bool := has "inboundTag" r && negb (_is_api_inbound_rule r) || _is_catch_all_network_rule r.

Lemma nonempty_of_length {A} (l : list A) n : length l = S n → l ≠ [].
Proof. by destruct l. Qed.
Lemma panel_has_warp : _warp_outbounds (outbounds panel) ≠ [].
Proof. apply (nonempty_of_length _ 0). vm_compute. reflexivity. Qed.
Lemma two_prepared : omap (prepare address) [warp_out "warp"; warp_out "warp-2"] ≠ [].
Proof. apply (nonempty_of_length _ 1). vm_compute. reflexivity. Qed.

Lemma safe_routing_order_witness :
  (rank (classify (to "warp" [("inboundTag", strs ["in1"])])) ≤ rank (classify (to "DIRECT" [("network", JStr "tcp,udp")])))%nat ∧
  (∀ x, x ∈ rules_of (rewrite_missing_warp_routes panel None) → classify x ≠ CCatchDirect →
        x ∈ rules_of (apply_warp_safe_routing address panel)).
Proof.
  apply (safe_routing_order address panel to_in1 (to "warp" [("inboundTag", strs ["in1"])])
           (to "DIRECT" [("network", JStr "tcp,udp")]))%string.
  - exact panel_has_warp.
  - vm_compute. reflexivity.
  - apply (bool_decide_eq_true_1 _). vm_compute. reflexivity.
  - vm_compute. reflexivity.
Defined.

(** The operator's rules, one of them over its own balancer. *)
Definition balanced : Payload := mkPayload (inbounds panel) [direct_out]
  (Some (mkRouting None [dict [("balancerTag", JStr "mine"); ("domain", strs ["domain:y.org"])]%string]
           [dict [("tag", JStr "mine")]%string] ∅)) None ∅.

Definition two_accounts : Payload := ensure_warp_sensitive_exit address panel [warp_out "warp"; warp_out "warp-2"].
Definition in1_sniffed : obj :=
  <["sniffing"%string := SENSITIVE_WARP_SNIFFING]> (dict [("tag", JStr "in1"); ("protocol", JStr "vless")]%string).


(** The operator's balancer is gone and its rule is not. *)
Example balancer_dropped :
  let p' := ensure_warp_sensitive_exit address balanced [warp_out "warp"] in
  (balancers <$> routing p') = Some [] ∧ existsb (λ r, String.eqb (text "balancerTag" r) "mine") (rules_of p') = true.
Proof. vm_compute. split; reflexivity. Qed.

(** Rules to the balancer of accounts that are gone. *)
Definition orphaned : Payload := mkPayload [] [direct_out]
  (Some (mkRouting None (_sensitive_domain_rules ("balancerTag"%string, SENSITIVE_WARP_BALANCER_TAG))
           [SENSITIVE_BALANCER ["warp"; "warp-2"]]%string ∅)) None ∅.

Lemma balancer_rules_left_example :
  rules_of (strip_warp_from_config orphaned None) = rules_of orphaned ∧
  rules_of (apply_warp_safe_routing address orphaned) = rules_of orphaned.
Proof.
  apply balancer_rules_left; [vm_compute; reflexivity|]. intros r Hr. unfold rules_of, orphaned in Hr. cbn [routing rules] in Hr.
  apply elem_of_sensitive in Hr as (k & vs & [-> | ->] & _ & ->); reflexivity.
Qed.
End WarpExamples.
