(* ===== verification/Reports.v ===== *)
(** * Reports: the revenue and income reports

    [app/billing/mrr.py], [app/billing/gateway_income.py] and the handlers of
    [app/routers/billing.py] that serve them.  Times are seconds (UTC); a calendar day
    is named by the time it starts at, since its text is only a label.  The date of a
    transaction is a nullable column that no other part reads: the ledger comes here
    as rows with their dates.  Columns for the gateway switches of an admin and for
    the gateway's reference numbers are left out of the report rows. *)
From stdpp Require pretty.
From S2P Require Import Prelude.
From S2P Require Import Store.
From S2P Require Import Portal.
From S2P Require Import Endpoints.

(** ** Totals by key: the loops [d[k] = d.get(k, 0) + v] *)
Module Totals.
Section tally.
Context {A K : Type} `{Countable K} (key : A → K) (val : A → Z).

Definition tally_from (m : gmap K Z) (l : list A) : gmap K Z :=
  foldl (λ m x, <[key x := default 0 (m !! key x) + val x]> m) m l.
Definition tally (l : list A) : gmap K Z := tally_from ∅ l.

Lemma tally_lookup_from m l k : default 0 (tally_from m l !! k) = default 0 (m !! k) + sumZ val (filter (λ x, key x = k) l).
Proof.
  unfold tally_from. revert m. induction l as [|x l IH]; intros m; cbn [foldl]; [cbn; rewrite sumZ_nil; lia|].
  rewrite IH, filter_cons. case_decide as Hk.
  - subst k. rewrite lookup_insert_eq. autorewrite with sumZ. cbn. lia.
  - by rewrite lookup_insert_ne.
Qed.

Lemma tally_lookup l k : default 0 (tally l !! k) = sumZ val (filter (λ x, key x = k) l).
Proof. unfold tally. rewrite tally_lookup_from, lookup_empty. cbn. lia. Qed.

Lemma sum_insert (w : K → Z) m k v :
  sumZ (λ g, w g.1 * g.2) (map_to_list (<[k := default 0 (m !! k) + v]> m))
  = sumZ (λ g, w g.1 * g.2) (map_to_list m) + w k * v.
Proof.
  destruct (m !! k) as [y|] eqn:E; cbn.
  - rewrite <- (insert_delete_id m k y E) at 2. rewrite <- insert_delete_eq.
    rewrite !map_to_list_insert by apply lookup_delete_eq. autorewrite with sumZ. cbn. lia.
  - rewrite map_to_list_insert by done. autorewrite with sumZ. cbn. lia.
Qed.

(** The entries of a tally, weighted by key, add up to the rows they come from. *)
Lemma tally_weighted (w : K → Z) l : sumZ (λ g, w g.1 * g.2) (map_to_list (tally l)) = sumZ (λ x, w (key x) * val x) l.
Proof.
  assert (Hg : ∀ m, sumZ (λ g, w g.1 * g.2) (map_to_list (tally_from m l))
               = sumZ (λ g, w g.1 * g.2) (map_to_list m) + sumZ (λ x, w (key x) * val x) l).
  { unfold tally_from. induction l as [|x l IH]; intros m; cbn [foldl]; [rewrite sumZ_nil; lia|].
    rewrite IH, sum_insert. autorewrite with sumZ. lia. }
  unfold tally. rewrite Hg, map_to_list_empty, sumZ_nil. lia.
Qed.

Lemma tally_sum l : sumZ snd (map_to_list (tally l)) = sumZ val l.
Proof.
  pose proof (tally_weighted (λ _, 1) l) as Hw. etrans; [|etrans; [exact Hw|]]; apply sumZ_ext; intros; lia.
Qed.
End tally.

(** Splitting a total by a key whose values are all listed. *)
Lemma sum_by_key {A K} `{EqDecision K} (key : A → K) (f : A → Z) (ks : list K) l :
  NoDup ks → (∀ x, x ∈ l → key x ∈ ks) → sumZ (λ k, sumZ f (filter (λ x, key x = k) l)) ks = sumZ f l.
Proof.
  intros Hnd. induction l as [|x l IH]; intros Hin; [by apply sumZ_zero|].
  rewrite sumZ_cons, <- IH by (intros y Hy; apply Hin; by right).
  assert (Hx : key x ∈ ks) by (apply Hin; left). clear IH Hin.
  transitivity (sumZ (λ k, (if decide (key x = k) then f x else 0) + sumZ f (filter (λ x, key x = k) l)) ks).
  { apply sumZ_ext. intros k _. rewrite filter_cons. case_decide; autorewrite with sumZ; lia. }
  rewrite sumZ_add. f_equal. induction Hnd as [|k ks Hk Hnd IH]; [by apply not_elem_of_nil in Hx|].
  rewrite sumZ_cons. apply elem_of_cons in Hx as [Hx|Hx].
  - rewrite decide_True by done. rewrite (sumZ_zero _ ks); [lia|]. intros y Hy. rewrite decide_False; [done|]. congruence.
  - rewrite decide_False by congruence. rewrite IH by done. lia.
Qed.
End Totals.

(** ** [billing/mrr.py] *)
Module Mrr.
Import Totals.

Definition REVENUE_TYPES : list string := ["usage_billing"; "plan_sale"; "portal_renew"; "invoice"; "traffic_package"]%string.

Definition DAY : Z := 86400.
Definition _day_start (now : Z) : Z := now - now mod DAY.

(** A transaction with its [created_at]. *)
Notation TxRow := (Transaction * option Z)%type.

Definition of_reseller (d : DB) (t : Transaction) : bool :=
  match admins d !! tx_admin_id t with Some a => negb (a_is_sudo a) | None => false end.

(** The common filter of the two queries. *)
Definition revenue_since (d : DB) (since : Z) (ledger : list TxRow) : list TxRow :=
  filter (λ x, of_reseller d x.1 = true ∧ (match x.2 with Some t => since <=? t | None => false end) = true ∧
               tx_amount x.1 < 0 ∧ tx_type x.1 ∈ REVENUE_TYPES) ledger.

Record ResellerRevenue := mkResellerRevenue {
  rr_admin_id : Z;
  rr_username : string;
  rr_revenue : Z;
  rr_wallet_balance : Z;
  rr_prepaid_traffic_remaining : Z;
  rr_is_sub : bool }.

Record MrrReport := mkMrrReport {
  m_period_days : Z;
  m_total_revenue : Z;
  m_mrr_estimate : Z;
  m_by_type : gmap string Z;
  m_wallet_float : Z;
  m_active_resellers : Z;
  m_sub_resellers : Z;
  m_top_resellers : list (Z * string * Z);
  m_resellers : list ResellerRevenue;
  m_daily : list (Z * Z) }.

(** [(-revenue, -wallet_balance, username)] *)
Definition revenue_order (x y : ResellerRevenue) : bool :=
  if rr_revenue x =? rr_revenue y then
    if rr_wallet_balance x =? rr_wallet_balance y then String.leb (rr_username x) (rr_username y)
    else rr_wallet_balance y <? rr_wallet_balance x
  else rr_revenue y <? rr_revenue x.

Definition resellers_of (d : DB) : list (Z * Admin) :=
  sort_by (λ x y, String.leb (a_username x.2) (a_username y.2))
    (filter (λ x, a_is_sudo x.2 = false) (map_to_list (admins d))).

(** [GROUP BY type, admin_id] with the sum of the amounts. *)
Definition revenue_groups (rows : list TxRow) : list (string * Z * Z) :=
  map_to_list (tally (λ x, (tx_type x.1, tx_admin_id x.1)) (λ x, tx_amount x.1) rows).

Definition day_map (rows : list TxRow) : gmap Z Z :=
  tally (λ x, _day_start (default 0 x.2)) (λ x, Z.abs (tx_amount x.1)) (filter (λ x, is_Some x.2) rows).

(** [range(13, -1, -1)] *)
Definition last_days (n : nat) (today : Z) : list Z := (λ i, today - Z.of_nat i * DAY) <$> reverse (seq 0 n).

Definition compute_mrr (d : DB) (ledger : list TxRow) (now : Z) (days : Z) : MrrReport :=
  let days := Z.max 1 (Z.min (if days =? 0 then 30 else days) 365) in
  let since := now - days * DAY in
  let today := _day_start now in
  let rows := revenue_groups (revenue_since d since ledger) in
  let by_type := tally (λ g, g.1.1) (λ g, Z.abs g.2) rows in
  let by_reseller := tally (λ g, g.1.2) (λ g, Z.abs g.2) rows in
  let total_revenue := sumZ (λ g, Z.abs g.2) rows in
  let days_of := day_map (revenue_since d (today - 13 * DAY) ledger) in
  let daily := (λ start, (start, default 0 (days_of !! start))) <$> last_days 14 today in
  let resellers := resellers_of d in
  let wallet_float := sumZ (λ x, default 0 (wallets d !! x.1)) resellers in
  let reseller_rows := sort_by revenue_order
    ((λ x, mkResellerRevenue x.1 (a_username x.2) (default 0 (by_reseller !! x.1)) (default 0 (wallets d !! x.1))
             (a_prepaid_traffic_remaining x.2) (negb (is_none (a_parent_admin_id x.2)))) <$> resellers) in
  let top := take 10 ((λ r, (rr_admin_id r, rr_username r, rr_revenue r)) <$> filter (λ r, 0 < rr_revenue r) reseller_rows) in
  mkMrrReport days total_revenue total_revenue by_type wallet_float (Z.of_nat (length resellers))
    (Z.of_nat (length (filter (λ x, is_Some (a_parent_admin_id x.2)) resellers))) top reseller_rows daily.

Definition owner_mrr (ledger : list TxRow) (now days : Z) : M DB MrrReport :=
  Endpoints._require_billing_enabled ;;;
  if (days <? 1) || (365 <? days) then raise (HTTPException 422 "days must be 1-365")
  else gets (λ d, compute_mrr d ledger now days).

End Mrr.

(** ** [billing/gateway_income.py] *)
Module GatewayIncome.
Import Totals Mrr.

Definition CHECKOUT_PROVIDERS : list string := ["centralpay"; "stripe"; "demo"; "card"]%string.
Definition GATEWAY_PROVIDERS : list string := ["centralpay"; "stripe"; "demo"]%string.
Definition ALL_KINDS : list string := ["portal_renew"; "portal_purchase"; "topup"]%string.
Definition SUCCESS_STATUSES : list string := ["completed"]%string.
Definition FAILED_STATUSES : list string := ["failed"; "rejected"; "expired"]%string.

(** [(today, yesterday, week)] *)
Definition _day_bounds (now : Z) : Z * Z * Z :=
  let today := now - now mod DAY in (today, today - DAY, today - 6 * DAY).

(** Intents with their ids. *)
Notation Rows := (list (Z * PaymentIntent)).

Definition _sum_amount (rows : Rows) : Z := sumZ (λ r, pi_amount r.2) rows.

Definition stamp (use_completed : bool) (r : Z * PaymentIntent) : Z :=
  if use_completed then default (pi_created_at r.2) (pi_completed_at r.2) else pi_created_at r.2.

Definition is_before (stop : option Z) (ts : Z) : bool := match stop with Some e => ts <? e | None => true end.

Definition _in_range (rows : Rows) (start : Z) (stop : option Z) (use_completed : bool) : Rows :=
  filter (λ r, start ≤ stamp use_completed r ∧ is_before stop (stamp use_completed r) = true) rows.

Definition of_kind (rows : Rows) (kind : string) : Rows := filter (λ r, pi_kind r.2 = kind) rows.
Definition _kind_amount (rows : Rows) (kind : string) : Z := _sum_amount (of_kind rows kind).

Record Bucket := mkBucket {
  b_success_count : Z; b_success_amount : Z;
  b_failed_count : Z; b_failed_amount : Z;
  b_renew_count : Z; b_renew_amount : Z;
  b_purchase_count : Z; b_purchase_amount : Z;
  b_topup_count : Z; b_topup_amount : Z }.

Definition count (rows : Rows) : Z := Z.of_nat (length rows).

Definition _period_bucket (success failed : Rows) : Bucket :=
  mkBucket (count success) (_sum_amount success) (count failed) (_sum_amount failed)
    (count (of_kind success "portal_renew")) (_kind_amount success "portal_renew")
    (count (of_kind success "portal_purchase")) (_kind_amount success "portal_purchase")
    (count (of_kind success "topup")) (_kind_amount success "topup").

Definition _daily_series (success failed : Rows) (days : Z) (today_start : Z) : list (Z * Bucket) :=
  let days := Z.to_nat (Z.max 1 (Z.min (if days =? 0 then 14 else days) 90)) in
  (λ start, (start, _period_bucket (_in_range success start (Some (start + DAY)) true)
                                   (_in_range failed start (Some (start + DAY)) false))) <$> last_days days today_start.

Record PaymentRow := mkPaymentRow {
  pr_id : Z;
  pr_kind : string;
  pr_provider : string;
  pr_amount : Z;
  pr_status : string;
  pr_admin_id : Z;
  pr_username : option string;
  pr_plan_id : option Z;
  pr_plan_name : option string;
  pr_created_at : Z;
  pr_completed_at : option Z }.

(** [a or b] on texts. *)
Definition or_str (a b : option string) : option string :=
  match a with Some s => if String.eqb s "" then b else a | None => b end.

Definition _payment_row (d : DB) (r : Z * PaymentIntent) : PaymentRow :=
  let i := r.2 in
  let username := match pi_user_id i with
                  | Some uid => if uid =? 0 then None else u_username <$> users d !! uid
                  | None => None
                  end in
  let plan_name := match pi_plan_id i with
                   | Some pid => if pid =? 0 then None else p_name <$> head (filter (λ p, p_id p = pid) (plans d))
                   | None => None
                   end in
  let extra := pi_extra i in
  mkPaymentRow r.1 (pi_kind i) (pi_provider i) (pi_amount i) (pi_status i) (pi_admin_id i)
    (or_str username (or_str (x_created_username extra) (or_str (x_target_username extra) (x_new_username extra))))
    (pi_plan_id i) plan_name (pi_created_at i) (pi_completed_at i).

(** [{k: _sum_amount([x for x in rows if key(x) == k]) for k in sorted({key(x) for x in rows})}] *)
Definition amounts_by (key : PaymentIntent → string) (rows : Rows) : gmap string Z :=
  list_to_map ((λ k, (k, _sum_amount (filter (λ r, key r.2 = k) rows))) <$> ((λ r, key r.2) <$> rows)).

Record Periods := mkPeriods { p_today : Bucket; p_yesterday : Bucket; p_week : Bucket; p_total : Bucket }.

Record ResellerRow := mkResellerRow {
  g_admin_id : Z;
  g_username : string;
  g_is_sudo : bool;
  g_today : Z; g_yesterday : Z; g_week : Z; g_total : Z;
  g_payments_count : Z; g_failed_count : Z; g_failed_amount : Z;
  g_today_failed_count : Z; g_yesterday_failed_count : Z; g_week_failed_count : Z;
  g_renew_amount : Z; g_purchase_amount : Z; g_topup_amount : Z;
  g_by_provider : gmap string Z;
  g_by_kind : gmap string Z;
  g_periods : Periods }.

Definition periods_of (success failed : Rows) (today yesterday week : Z) : Periods :=
  mkPeriods
    (_period_bucket (_in_range success today None true) (_in_range failed today None false))
    (_period_bucket (_in_range success yesterday (Some today) true) (_in_range failed yesterday (Some today) false))
    (_period_bucket (_in_range success week None true) (_in_range failed week None false))
    (_period_bucket success failed).

Definition _reseller_row (aid : Z) (admin : option Admin) (success failed : Rows) (today yesterday week : Z) : ResellerRow :=
  mkResellerRow aid
    (match admin with Some a => a_username a | None => "#" ++ pretty.pretty aid end)
    (match admin with Some a => a_is_sudo a | None => false end)
    (_sum_amount (_in_range success today None true)) (_sum_amount (_in_range success yesterday (Some today) true))
    (_sum_amount (_in_range success week None true)) (_sum_amount success)
    (count success) (count failed) (_sum_amount failed)
    (count (_in_range failed today None false)) (count (_in_range failed yesterday (Some today) false))
    (count (_in_range failed week None false))
    (_kind_amount success "portal_renew") (_kind_amount success "portal_purchase") (_kind_amount success "topup")
    (amounts_by pi_provider success) (amounts_by pi_kind success)
    (periods_of success failed today yesterday week).

Record Income := mkIncome {
  inc_by_provider : gmap string Z;
  inc_by_kind : gmap string Z;
  inc_periods : Periods;
  inc_daily : list (Z * Bucket);
  inc_resellers : list ResellerRow;
  inc_recent : list PaymentRow }.

(** [ORDER BY date DESC NULLS LAST, id DESC] *)
Definition newest_first (date : PaymentIntent → option Z) (x y : Z * PaymentIntent) : bool :=
  match date x.2, date y.2 with
  | Some a, Some b => if a =? b then y.1 <=? x.1 else b <? a
  | Some _, None => true
  | None, Some _ => false
  | None, None => y.1 <=? x.1
  end.

(** [(-total, -failed_count, username)] *)
Definition income_order (x y : ResellerRow) : bool :=
  if g_total x =? g_total y then
    if g_failed_count x =? g_failed_count y then String.leb (g_username x) (g_username y)
    else g_failed_count y <? g_failed_count x
  else g_total y <? g_total x.

Definition of_admin (admin_id : option Z) (i : PaymentIntent) : bool :=
  match admin_id with Some a => pi_admin_id i =? a | None => true end.
Definition of_provider (provider : option string) (i : PaymentIntent) : bool :=
  match provider with Some p => String.eqb p "" || String.eqb (pi_provider i) p | None => true end.

(** [base.filter(...)] with the statuses asked for. *)
Definition selected (d : DB) (admin_id : option Z) (provider : option string) (include_card : bool) (statuses : list string) : Rows :=
  filter (λ r, pi_kind r.2 ∈ ALL_KINDS ∧ pi_provider r.2 ∈ (if include_card then CHECKOUT_PROVIDERS else GATEWAY_PROVIDERS) ∧
               of_admin admin_id r.2 = true ∧ of_provider provider r.2 = true ∧
               pi_status r.2 ∈ statuses) (map_to_list (intents d)).

(** The admins with a row: who has intents, and every reseller in the report on all. *)
Definition listed_admins (d : DB) (admin_id : option Z) (success failed : Rows) : list Z :=
  sort_by Z.leb (remove_dups (((λ r, pi_admin_id r.2) <$> success ++ failed) ++
    match admin_id with
    | None => (filter (λ x, a_is_sudo x.2 = false) (map_to_list (admins d))).*1
    | Some _ => []
    end)).

Definition recent_rows (success failed : Rows) (payments_limit : Z) : Rows :=
  let mixed := take (Z.to_nat (Z.max 1 (Z.min payments_limit 500))) success in
  if count mixed <? payments_limit then mixed ++ take (Z.to_nat (payments_limit - count mixed)) failed else mixed.

Definition compute_gateway_income (d : DB) (now : Z) (admin_id : option Z) (provider : option string)
    (include_payments : bool) (payments_limit : Z) (include_card : bool) : Income :=
  let '(today, yesterday, week) := _day_bounds now in
  let success := sort_by (newest_first pi_completed_at) (selected d admin_id provider include_card SUCCESS_STATUSES) in
  let failed := sort_by (newest_first (λ i, Some (pi_created_at i))) (selected d admin_id provider include_card FAILED_STATUSES) in
  let by_provider := tally (λ r, pi_provider r.2) (λ r, pi_amount r.2) success in
  let by_kind := tally (λ r, pi_kind r.2) (λ r, pi_amount r.2) success in
  let resellers := sort_by income_order
    ((λ aid, _reseller_row aid (admins d !! aid) (filter (λ r, pi_admin_id r.2 = aid) success)
               (filter (λ r, pi_admin_id r.2 = aid) failed) today yesterday week)
       <$> listed_admins d admin_id success failed) in
  let recent := if include_payments then _payment_row d <$> recent_rows success failed payments_limit else [] in
  mkIncome by_provider by_kind (periods_of success failed today yesterday week)
    (_daily_series success failed 14 today) resellers recent.

(** The handler; [may_checkout]: [admin_may_use_centralpay] or [admin_may_use_card] of the
    caller's row. *)
Definition gateway_income (caller_is_sudo : bool) (caller : string) (may_checkout : Admin → bool)
    (now : Z) (provider username : option string) (payments_limit : Z) : M DB Income :=
  Endpoints._require_billing_enabled ;;;
  if (payments_limit <? 1) || (500 <? payments_limit) then raise (HTTPException 422 "payments_limit must be 1-500")
  else
    let* scope :=
      if caller_is_sudo then
        match username with
        | Some name =>
            if String.eqb name "" then ret None
            else let* target := gets (λ d, Portal.get_admin d (strip name)) in
                 match target with
                 | None => raise (HTTPException 404 "Admin not found")
                 | Some (aid, _) => ret (Some aid)
                 end
        | None => ret None
        end
      else
        let* dbadmin := gets (λ d, Portal.get_admin d caller) in
        match dbadmin with
        | None => raise (HTTPException 403 "Checkout income is only available")
        | Some (aid, a) => if may_checkout a then ret (Some aid)
                           else raise (HTTPException 403 "Checkout income is only available")
        end in
    let provider := match provider with
                    | Some p => if String.eqb (strip p) "" then None else Some (strip p)
                    | None => None
                    end in
    gets (λ d, compute_gateway_income d now scope provider true payments_limit true).

End GatewayIncome.

(** ** Facts *)
Module ReportFacts.
Import Totals Mrr GatewayIncome.

Lemma sumZ_fmap {A B} (g : A → B) (f : B → Z) l : sumZ f (g <$> l) = sumZ (λ x, f (g x)) l.
Proof. induction l as [|x l IH]; [done|]. rewrite fmap_cons, !sumZ_cons. by rewrite IH. Qed.

(** *** Revenue *)
Definition owed (x : Transaction * option Z) : Z := - tx_amount x.1.

Lemma revenue_negative d since ledger x : x ∈ revenue_since d since ledger → tx_amount x.1 < 0.
Proof. unfold revenue_since. rewrite list_elem_of_filter. tauto. Qed.

Lemma group_nonpos rows g : (∀ x, x ∈ rows → tx_amount x.1 < 0) → g ∈ revenue_groups rows → g.2 ≤ 0.
Proof.
  intros Hneg Hg. unfold revenue_groups in Hg. destruct g as [k v]. apply elem_of_map_to_list in Hg.
  pose proof (tally_lookup (λ x : Transaction * option Z, (tx_type x.1, tx_admin_id x.1)) (λ x, tx_amount x.1) rows k) as H.
  rewrite Hg in H. cbn in *. subst v.
  assert (0 ≤ sumZ owed (filter (λ x, (tx_type x.1, tx_admin_id x.1) = k) rows)) as H.
  { apply sumZ_nonneg. intros x Hx. apply list_elem_of_filter in Hx as [_ Hx]. unfold owed. specialize (Hneg x Hx). lia. }
  assert (Ha : ∀ l, sumZ owed l = - sumZ (λ x : Transaction * option Z, tx_amount x.1) l).
  { intros l. unfold owed. induction l as [|y l IH]; autorewrite with sumZ; lia. }
  rewrite Ha in H. lia.
Qed.

(** A weighted sum of the groups' absolute values. *)
Lemma groups_weighted (w : string * Z → Z) rows : (∀ x, x ∈ rows → tx_amount x.1 < 0) →
  sumZ (λ g, w g.1 * Z.abs g.2) (revenue_groups rows) = sumZ (λ x, w (tx_type x.1, tx_admin_id x.1) * owed x) rows.
Proof.
  intros Hneg.
  transitivity (sumZ (λ g : string * Z * Z, - w g.1 * g.2) (revenue_groups rows)).
  { apply sumZ_ext. intros g Hg. pose proof (group_nonpos rows g Hneg Hg). rewrite Z.abs_neq by done. lia. }
  unfold revenue_groups. rewrite (tally_weighted _ _ (λ k, - w k)). apply sumZ_ext. intros x _. unfold owed. lia.
Qed.

Lemma total_revenue_eq rows : (∀ x, x ∈ rows → tx_amount x.1 < 0) →
  sumZ (λ g, Z.abs g.2) (revenue_groups rows) = sumZ owed rows.
Proof.
  intros Hneg. pose proof (groups_weighted (λ _, 1) rows Hneg) as H.
  etrans; [|etrans; [exact H|]]; apply sumZ_ext; intros; lia.
Qed.

Lemma sumZ_filter_weight {A} (P : A → Prop) `{∀ x, Decision (P x)} (f : A → Z) l :
  sumZ f (filter P l) = sumZ (λ x, (if decide (P x) then 1 else 0) * f x) l.
Proof.
  induction l as [|x l IH]; [done|]. rewrite filter_cons. case_decide as E; autorewrite with sumZ; rewrite IH;
    (destruct (decide (P x)); [|]); try done; lia.
Qed.

Lemma by_reseller_eq rows a : (∀ x, x ∈ rows → tx_amount x.1 < 0) →
  default 0 (tally (λ g : string * Z * Z, g.1.2) (λ g, Z.abs g.2) (revenue_groups rows) !! a)
  = sumZ owed (filter (λ x, tx_admin_id x.1 = a) rows).
Proof.
  intros Hneg. rewrite tally_lookup, !sumZ_filter_weight.
  pose proof (groups_weighted (λ k, if decide (k.2 = a) then 1 else 0) rows Hneg) as H. exact H.
Qed.

Lemma resellers_nodup d : NoDup (resellers_of d).*1.
Proof.
  unfold resellers_of. rewrite sort_by_perm. eapply sublist_NoDup; [apply (NoDup_fst_map_to_list (admins d))|].
  apply fmap_sublist, sublist_filter.
Qed.

Lemma elem_of_resellers d a : a ∈ (resellers_of d).*1 ↔ ∃ adm, admins d !! a = Some adm ∧ a_is_sudo adm = false.
Proof.
  unfold resellers_of. rewrite sort_by_perm, list_elem_of_fmap. split.
  - intros ([k adm] & -> & Hin). apply list_elem_of_filter in Hin as [Hs Hin]. apply elem_of_map_to_list in Hin. by exists adm.
  - intros (adm & Ha & Hs). exists (a, adm). split; [done|]. apply list_elem_of_filter. by rewrite elem_of_map_to_list.
Qed.

(** The days of the chart. *)
Lemma last_days_nodup n today : NoDup (last_days n today).
Proof.
  unfold last_days. apply NoDup_fmap_2_strong.
  - intros x y _ _ Heq. unfold DAY in Heq. lia.
  - rewrite reverse_Permutation. apply NoDup_seq.
Qed.

Lemma elem_of_last_days n today t : today mod DAY = 0 → today - (Z.of_nat n - 1) * DAY ≤ t < today + DAY →
  _day_start t ∈ last_days n today.
Proof.
  intros Hm Ht. unfold last_days. apply list_elem_of_fmap.
  assert (Hd : _day_start t = t / DAY * DAY) by (unfold _day_start; pose proof (Z.div_mod t DAY ltac:(unfold DAY; lia)); lia).
  assert (Htd : today = today / DAY * DAY) by (pose proof (Z.div_mod today DAY ltac:(unfold DAY; lia)); lia).
  set (q := today / DAY) in *. set (r := t / DAY) in *.
  assert (Hr : r * DAY ≤ t < (r + 1) * DAY).
  { pose proof (Z.div_mod t DAY ltac:(unfold DAY; lia)). pose proof (Z.mod_pos_bound t DAY ltac:(unfold DAY; lia)).
    fold r in H. lia. }
  exists (Z.to_nat (q - r)). unfold DAY in *. split; [lia|].
  rewrite elem_of_reverse, elem_of_seq. lia.
Qed.

(** The revenue report adds up: the total is what the revenue transactions of the period
    took from resellers' wallets; the figures by type and those by reseller are that
    total split; and the days of the chart hold all of the last two weeks. *)
Theorem mrr_adds_up d ledger now days :
  (∀ x t, x ∈ ledger → x.2 = Some t → t < _day_start now + DAY) →
  let r := compute_mrr d ledger now days in
  let rows := revenue_since d (now - m_period_days r * DAY) ledger in
  m_total_revenue r = sumZ owed rows ∧
  sumZ snd (map_to_list (m_by_type r)) = m_total_revenue r ∧
  sumZ rr_revenue (m_resellers r) = m_total_revenue r ∧
  sumZ snd (m_daily r) = sumZ owed (revenue_since d (_day_start now - 13 * DAY) ledger) ∧
  1 ≤ m_period_days r ≤ 365.
Proof.
  intros Hpast. cbv zeta. unfold compute_mrr. cbn [m_period_days m_total_revenue m_by_type m_resellers m_daily].
  set (n := Z.max 1 _). set (rows := revenue_since d (now - n * DAY) ledger).
  assert (Hneg : ∀ x, x ∈ rows → tx_amount x.1 < 0) by (intros x; apply revenue_negative).
  split_and!; [by apply total_revenue_eq | apply tally_sum | | | lia | lia].
  - rewrite sort_by_perm. rewrite total_revenue_eq by done.
    transitivity (sumZ (λ a, sumZ owed (filter (λ x, tx_admin_id x.1 = a) rows)) (resellers_of d).*1).
    + rewrite !sumZ_fmap. apply sumZ_ext. intros x _. by apply by_reseller_eq.
    + apply (sum_by_key (λ x : Transaction * option Z, tx_admin_id x.1)); [apply resellers_nodup|]. intros x Hx.
      apply elem_of_resellers. unfold rows, revenue_since in Hx. apply list_elem_of_filter in Hx as [(Ho & _) _].
      unfold of_reseller in Ho. destruct (admins d !! tx_admin_id x.1) as [adm|]; [|done]. exists adm. split; [done|].
      by apply negb_true_iff.
  - set (recent := revenue_since d (_day_start now - 13 * DAY) ledger).
    assert (Hdated : ∀ x, x ∈ recent → is_Some x.2 ∧ _day_start (default 0 x.2) ∈ last_days 14 (_day_start now)).
    { intros x Hx. unfold recent, revenue_since in Hx. apply list_elem_of_filter in Hx as [(_ & Ht & _) Hin].
      destruct x as [tx [t|]]; [|done]. split; [by eexists|]. cbn [snd] in Ht. apply Z.leb_le in Ht.
      change (_day_start t ∈ last_days 14 (_day_start now)). apply elem_of_last_days.
      - unfold _day_start. rewrite Zminus_mod_idemp_r, Z.sub_diag. done.
      - specialize (Hpast _ t Hin eq_refl). lia. }
    transitivity (sumZ (λ s, sumZ (λ x : Transaction * option Z, Z.abs (tx_amount x.1))
                         (filter (λ x, _day_start (default 0 x.2) = s) (filter (λ x, is_Some x.2) recent)))
                       (last_days 14 (_day_start now))).
    + rewrite sumZ_fmap. apply sumZ_ext. intros s _. apply tally_lookup.
    + rewrite (sum_by_key (λ x : Transaction * option Z, _day_start (default 0 x.2))); [|apply last_days_nodup|].
      * assert (Hf : filter (λ x : Transaction * option Z, is_Some x.2) recent = recent).
        { clear -Hdated. induction recent as [|x l IH]; [done|]. rewrite filter_cons, decide_True by (apply Hdated; left).
          f_equal. apply IH. intros y Hy. apply Hdated. by right. }
        rewrite Hf. apply sumZ_ext. intros x Hx. unfold owed. apply revenue_negative in Hx. lia.
      * intros x Hx. apply list_elem_of_filter in Hx as [_ Hx]. by apply Hdated.
Qed.

(** *** Income *)
Lemma count_sum (rows : list (Z * PaymentIntent)) : count rows = sumZ (λ _, 1) rows.
Proof. unfold count. induction rows as [|x l IH]; [done|]. rewrite sumZ_cons, <- IH. cbn [length]. lia. Qed.

Lemma selected_spec d aid prov card st r : r ∈ selected d aid prov card st →
  intents d !! r.1 = Some r.2 ∧ pi_kind r.2 ∈ ALL_KINDS ∧ of_admin aid r.2 = true ∧ pi_status r.2 ∈ st.
Proof. unfold selected. rewrite list_elem_of_filter. destruct r as [i x]. rewrite elem_of_map_to_list. cbn. tauto. Qed.

(** The three kinds make up the figures of a bucket. *)
Lemma bucket_kinds success failed : (∀ r, r ∈ success → pi_kind r.2 ∈ ALL_KINDS) →
  let b := _period_bucket success failed in
  b_renew_amount b + b_purchase_amount b + b_topup_amount b = b_success_amount b ∧
  b_renew_count b + b_purchase_count b + b_topup_count b = b_success_count b.
Proof.
  intros Hk. cbn. rewrite !count_sum. unfold _kind_amount, _sum_amount, of_kind.
  assert (Hnd : NoDup ALL_KINDS) by (apply (bool_decide_eq_true_1 _); vm_compute; reflexivity).
  split.
  - rewrite <- (sum_by_key (λ r : Z * PaymentIntent, pi_kind r.2) (λ r, pi_amount r.2) ALL_KINDS success Hnd Hk).
    unfold ALL_KINDS. autorewrite with sumZ. lia.
  - rewrite <- (sum_by_key (λ r : Z * PaymentIntent, pi_kind r.2) (λ _, 1) ALL_KINDS success Hnd Hk).
    unfold ALL_KINDS. autorewrite with sumZ. lia.
Qed.

Lemma in_range_sub rows s e c r : r ∈ _in_range rows s e c → r ∈ rows.
Proof. unfold _in_range. rewrite list_elem_of_filter. tauto. Qed.

Lemma listed_nodup d aid s f : NoDup (listed_admins d aid s f).
Proof. unfold listed_admins. rewrite sort_by_perm. apply NoDup_remove_dups. Qed.

Lemma elem_of_listed d aid s f a : a ∈ listed_admins d aid s f ↔
  (∃ r, r ∈ s ++ f ∧ pi_admin_id r.2 = a) ∨ (aid = None ∧ a ∈ (resellers_of d).*1).
Proof.
  unfold listed_admins. rewrite sort_by_perm, elem_of_remove_dups, elem_of_app, list_elem_of_fmap.
  assert (Hr : a ∈ (resellers_of d).*1 ↔ a ∈ (filter (λ x, a_is_sudo x.2 = false) (map_to_list (admins d))).*1).
  { unfold resellers_of. by rewrite sort_by_perm. }
  destruct aid; rewrite ?Hr, ?elem_of_nil; naive_solver.
Qed.

(** Figures of the rows, summed, are the figures of the whole. *)
Lemma rows_sum (h : PaymentIntent → Z) (ids : list Z) (rows : list (Z * PaymentIntent)) : NoDup ids →
  (∀ r, r ∈ rows → pi_admin_id r.2 ∈ ids) →
  sumZ (λ a, sumZ (λ r, h r.2) (filter (λ r, pi_admin_id r.2 = a) rows)) ids = sumZ (λ r, h r.2) rows.
Proof. intros Hn Hin. by apply (sum_by_key (λ r : Z * PaymentIntent, pi_admin_id r.2)). Qed.


(** *** Days *)
Lemma day_range rows s c : s mod DAY = 0 →
  _in_range rows s (Some (s + DAY)) c = filter (λ r, _day_start (stamp c r) = s) rows.
Proof.
  intros Hs. unfold _in_range. apply list_filter_iff. intros r. cbn. rewrite Z.ltb_lt. set (t := stamp c r).
  unfold _day_start. unfold DAY in *. split; intros H.
  - assert (Hm : (t - s) mod 86400 = t - s) by (apply Z.mod_small; lia).
    rewrite Zminus_mod, Hs, Z.sub_0_r, Z.mod_mod in Hm by lia. lia.
  - pose proof (Z.mod_pos_bound t 86400 ltac:(lia)). lia.
Qed.

Lemma last_days_mod n today s : today mod DAY = 0 → s ∈ last_days n today → s mod DAY = 0.
Proof.
  intros Ht Hs. unfold last_days in Hs. apply list_elem_of_fmap in Hs as (i & -> & _).
  rewrite Zminus_mod, Ht, Z.mod_mul by (unfold DAY; lia). done.
Qed.

(** The buckets of consecutive days hold what the whole span holds. *)
Lemma days_cover rows c n today : today mod DAY = 0 → (∀ r, r ∈ rows → stamp c r < today + DAY) →
  sumZ (λ s, _sum_amount (_in_range rows s (Some (s + DAY)) c)) (last_days n today)
  = _sum_amount (_in_range rows (today - (Z.of_nat n - 1) * DAY) None c).
Proof.
  intros Hm Hlt. set (rows' := _in_range rows (today - (Z.of_nat n - 1) * DAY) None c).
  transitivity (sumZ (λ s, sumZ (λ r : Z * PaymentIntent, pi_amount r.2) (filter (λ r, _day_start (stamp c r) = s) rows'))
                     (last_days n today)).
  - apply sumZ_ext. intros s Hs. unfold _sum_amount. rewrite day_range by by eapply last_days_mod. f_equal.
    unfold rows', _in_range. rewrite list_filter_filter. apply list_filter_iff. intros r. cbn. split; [|tauto].
    intros Hd. split; [done|]. split; [|done].
    unfold last_days in Hs. apply list_elem_of_fmap in Hs as (i & Hs & Hi). rewrite elem_of_reverse, elem_of_seq in Hi.
    pose proof (Z.mod_pos_bound (stamp c r) DAY ltac:(unfold DAY; lia)). unfold _day_start, DAY in *. lia.
  - unfold _sum_amount. apply (sum_by_key (λ r, _day_start (stamp c r))); [apply last_days_nodup|].
    intros r Hr. unfold rows', _in_range in Hr. apply list_elem_of_filter in Hr as [[Hge _] Hr].
    apply elem_of_last_days; [done|]. split; [lia|by apply Hlt].
Qed.

(** The chart and the periods agree: when no completed payment is dated after today, the last
    seven days of the chart add up to the week, its last day is today and the one
    before is yesterday. *)
Theorem income_days_agree d now admin_id provider pay limit card :
  let inc := compute_gateway_income d now admin_id provider pay limit card in
  (∀ id i, intents d !! id = Some i → default (pi_created_at i) (pi_completed_at i) < _day_start now + DAY) →
  length (inc_daily inc) = 14%nat ∧
  sumZ (λ x, b_success_amount x.2) (drop 7 (inc_daily inc)) = b_success_amount (p_week (inc_periods inc)) ∧
  (b_success_amount ∘ snd <$> inc_daily inc !! 13%nat) = Some (b_success_amount (p_today (inc_periods inc))) ∧
  (b_success_amount ∘ snd <$> inc_daily inc !! 12%nat) = Some (b_success_amount (p_yesterday (inc_periods inc))).
Proof.
  cbv zeta. intros Hpast. unfold compute_gateway_income, _day_bounds. fold (_day_start now). set (today := _day_start now) in *.
  set (s := sort_by (newest_first pi_completed_at) _). set (f := sort_by _ (selected d admin_id provider card FAILED_STATUSES)).
  assert (Hm : today mod DAY = 0) by (unfold today, _day_start; by rewrite Zminus_mod_idemp_r, Z.sub_diag).
  assert (Hs : ∀ r, r ∈ s → stamp true r < today + DAY).
  { intros r Hr. unfold s in Hr. rewrite elem_of_sort_by in Hr. apply selected_spec in Hr as (Hi & _). by apply (Hpast r.1). }
  assert (Hd : ∀ n, sumZ (λ x, b_success_amount x.2)
                 ((λ start, (start, _period_bucket (_in_range s start (Some (start + DAY)) true)
                      (_in_range f start (Some (start + DAY)) false))) <$> last_days n today)
               = _sum_amount (_in_range s (today - (Z.of_nat n - 1) * DAY) None true)).
  { intros n. rewrite sumZ_fmap. cbn. by apply days_cover. }
  cbn [inc_daily inc_periods p_week p_today p_yesterday periods_of _period_bucket b_success_amount].
  unfold _daily_series. change (Z.to_nat _) with 14%nat. split_and!; [done| | |].
  - rewrite <- fmap_drop. change (drop 7 (last_days 14 today)) with (last_days 7 today). rewrite Hd. replace (today - (Z.of_nat 7 - 1) * DAY) with (today - 6 * DAY) by lia. done.
  - pose proof (days_cover s true 1 today Hm Hs) as H1. change (last_days 1 today) with [today - 0 * DAY] in H1.
    rewrite list_lookup_fmap. change (last_days 14 today !! 13%nat) with (Some (today - 0 * DAY)).
    rewrite sumZ_cons, sumZ_nil in H1. replace (today - (Z.of_nat 1 - 1) * DAY) with today in H1 by lia.
    cbn [fmap option_fmap option_map compose snd b_success_amount _period_bucket]. f_equal. lia.
  - rewrite list_lookup_fmap. change (last_days 14 today !! 12%nat) with (Some (today - 1 * DAY)).
    cbn [fmap option_fmap option_map compose snd b_success_amount _period_bucket].
    replace (today - 1 * DAY + DAY) with today by lia. replace (today - 1 * DAY) with (today - DAY) by lia. done.
Qed.

(** *** Who sees what *)
Lemma recent_rows_spec s f n r : 1 ≤ n ≤ 500 →
  (r ∈ recent_rows s f n → r ∈ s ∨ r ∈ f) ∧ Z.of_nat (length (recent_rows s f n)) ≤ n.
Proof.
  intros Hn. unfold recent_rows. set (mixed := take _ s).
  assert (Hl : count mixed ≤ n).
  { unfold count, mixed. rewrite length_take. lia. }
  assert (Hm : r ∈ mixed → r ∈ s) by (intros Hr; by apply elem_of_take in Hr as (i & Hi & _); eapply list_elem_of_lookup_2).
  destruct (Z.ltb_spec (count mixed) n); [|auto]. rewrite elem_of_app, length_app, length_take. split.
  - intros [Hr|Hr]; [auto|]. right. apply elem_of_take in Hr as (i & Hi & _). by eapply list_elem_of_lookup_2.
  - unfold count in *. lia.
Qed.

Lemma scoped_income d now aid prov limit : 1 ≤ limit ≤ 500 →
  let inc := compute_gateway_income d now (Some aid) prov true limit true in
  (∀ r, r ∈ inc_recent inc → pr_admin_id r = aid) ∧ (∀ g, g ∈ inc_resellers inc → g_admin_id g = aid) ∧
  Z.of_nat (length (inc_recent inc)) ≤ limit.
Proof.
  intros Hl. cbv zeta. unfold compute_gateway_income. destruct (_day_bounds now) as [[t y] w].
  set (s := sort_by _ (selected d _ _ _ SUCCESS_STATUSES)). set (f := sort_by _ (selected d _ _ _ FAILED_STATUSES)).
  assert (Hown : ∀ r, r ∈ s ∨ r ∈ f → pi_admin_id r.2 = aid).
  { intros r [Hr|Hr]; [unfold s in Hr | unfold f in Hr]; rewrite elem_of_sort_by in Hr;
      apply selected_spec in Hr as (_ & _ & Ha & _); by apply Z.eqb_eq in Ha. }
  cbn [inc_recent inc_resellers]. split_and!.
  - intros r Hr. apply list_elem_of_fmap in Hr as (x & -> & Hx). by apply Hown, (recent_rows_spec s f limit x Hl).
  - intros g Hg. rewrite elem_of_sort_by in Hg. apply list_elem_of_fmap in Hg as (a & -> & Ha). cbn.
    apply elem_of_listed in Ha as [(r & Hr & <-)|[? _]]; [|done]. apply Hown. by apply elem_of_app in Hr.
  - rewrite length_fmap. by apply (recent_rows_spec s f limit (0, mkIntent "" 0 None None 0 "" "" (mkExtra None None None None None None None None None None) 0 None)).
Qed.

(** A reseller's income report is about nobody else: it is served only with a checkout of its
    own switched on, lists payments and figures of the reseller alone, at most as many
    payments as asked for, and changes nothing. *)
Theorem income_scoped caller may now provider username limit s inc s' :
  gateway_income false caller may now provider username limit s = (Ok inc, s') →
  s' = s ∧ ∃ aid a, Portal.get_admin (work s) caller = Some (aid, a) ∧ may a = true ∧
    (∀ r, r ∈ inc_recent inc → pr_admin_id r = aid) ∧ (∀ g, g ∈ inc_resellers inc → g_admin_id g = aid) ∧
    Z.of_nat (length (inc_recent inc)) ≤ limit.
Proof.
  unfold gateway_income, Endpoints._require_billing_enabled. unfold bind at 1. rewrite bind_gets.
  destruct (is_enabled (work s) "billing"); [|done]. cbn [ret].
  destruct ((limit <? 1) || (500 <? limit)) eqn:El; [done|]. apply orb_false_iff in El as [E1 E2].
  unfold bind at 1. rewrite bind_gets. destruct (Portal.get_admin (work s) caller) as [[aid a]|] eqn:Ea; [|done].
  destruct (may a) eqn:Em; [|done]. cbn [ret]. intros [= <- <-]. split; [done|]. exists aid, a.
  split; [done|]. split; [done|]. apply scoped_income. lia.
Qed.
End ReportFacts.

(** ** Examples *)
Module ReportExamples.
Import Totals Mrr GatewayIncome ReportFacts.

Definition shop : Admin := mkAdmin "shop" false 0 None None 0 None None None 0.
Definition boss : Admin := mkAdmin "boss" true 0 None None 0 None None None 0.
Definition no_extra : Extra := mkExtra None None None None None None None None None None.
Definition paid (kind provider : string) (aid amount at_ : Z) : PaymentIntent :=
  mkIntent kind aid None None amount provider "completed" no_extra at_ (Some at_).

(** Noon of the hundredth day. *)
Definition noon : Z := 100 * DAY + 43200.
Definition books : DB := empty_db <| admins := {[1 := boss; 2 := shop]} |> <| wallets := {[2 := 70]} |>
  <| flags := {["billing"%string := true]} |>
  <| intents := {[1 := paid "portal_renew" "card" 2 30 (noon - 60); 2 := paid "topup" "stripe" 2 50 (noon - DAY);
                  3 := paid "portal_purchase" "card" 1 11 (noon - 5 * DAY)]} |>.
Definition ledger : list (Transaction * option Z) :=
  [(mkTransaction 2 (-20) "plan_sale" RefNone, Some (noon - 100)); (mkTransaction 2 50 "topup" RefNone, Some noon);
   (mkTransaction 2 (-5) "usage_billing" RefNone, Some (noon - 3 * DAY)); (mkTransaction 1 (-9) "plan_sale" RefNone, Some noon)].

Example revenue_of_shop : m_total_revenue (compute_mrr books ledger noon 30) = 25.
Proof. vm_compute. reflexivity. Qed.

Lemma ledger_past x t : x ∈ ledger → x.2 = Some t → t < _day_start noon + DAY.
Proof.
  unfold ledger. rewrite !elem_of_cons, elem_of_nil. intros [->|[->|[->|[->|[]]]]] [= <-]; vm_compute; reflexivity.
Qed.

Lemma mrr_adds_up_witness : sumZ rr_revenue (m_resellers (compute_mrr books ledger noon 30))
  = m_total_revenue (compute_mrr books ledger noon 30).
Proof. exact (proj1 (proj2 (proj2 (mrr_adds_up books ledger noon 30 ledger_past)))). Defined.

Example income_of_all : b_success_amount (p_week (inc_periods (compute_gateway_income books noon None None true 10 true))) = 91.
Proof. vm_compute. reflexivity. Qed.

Lemma books_past id i : intents books !! id = Some i → default (pi_created_at i) (pi_completed_at i) < _day_start noon + DAY.
Proof.
  intros H. apply elem_of_map_to_list in H. vm_compute in H.
  repeat (apply elem_of_cons in H as [[= -> ->]|H]; [vm_compute; reflexivity|]). by apply not_elem_of_nil in H.
Qed.

Lemma income_days_agree_witness :
  sumZ (λ x, b_success_amount x.2) (drop 7 (inc_daily (compute_gateway_income books noon None None true 10 true))) = 91.
Proof.
  rewrite (proj1 (proj2 (income_days_agree books noon None None true 10 true books_past))). vm_compute. reflexivity.
Defined.

Definition session : Session DB := mkSession books books.
Definition own_report : Income := compute_gateway_income books noon (Some 2) None true 10 true.

Lemma income_scoped_witness : Z.of_nat (length (inc_recent own_report)) ≤ 10 ∧ length (inc_recent own_report) = 2%nat.
Proof.
  split; [|vm_compute; reflexivity].
  destruct (income_scoped "shop" (λ _, true) noon None None 10 session own_report session) as (_ & aid & a & _ & _ & _ & _ & H).
  - vm_compute. reflexivity.
  - exact H.
Defined.
End ReportExamples.
