(* ===== verification/Gateways.v ===== *)
(** * Gateways: payment methods, their verification and the callbacks

    [app/billing/providers.py], and the handlers of [app/routers/billing.py] and
    [app/routers/portal.py] through which a payment is reported as done.

    The settings are the values at the moment of the call ([PayConfig]); the registry
    [_PROVIDERS] is apart, since it is rebuilt only when settings are saved.  What the
    gateways answer over HTTP, SHA-1, HMAC, random choices and the reading of JSON are
    arguments.  The keys a gateway keeps in the [extra] of an intent are a record of
    their own ([GatewayExtra]).  An exception that is no HTTP answer is [TypeError]. *)
From stdpp Require Import pretty.
From S2P Require Import Prelude.
From S2P Require Import Json.
From S2P Require Import Store.
From S2P Require Import Ipv4.
From S2P Require Import Wallet.
From S2P Require Import Portal.
From S2P Require Import Payments.
From S2P Require Import Endpoints.
Open Scope Z_scope.

(** ** Cards *)
Module Cards.
Import Py.

Definition MAX_PAYMENT_CARDS : nat := 12.

Record Card := mkCard {
  cd_id : string;
  cd_number : string;
  cd_holder : string;
  cd_bank : string;
  cd_enabled : bool }.

(** As it is stored. *)
Definition card_json (c : Card) : json := JObj (list_to_map
  [("id", JStr (cd_id c)); ("number", JStr (cd_number c)); ("holder", JStr (cd_holder c));
   ("bank", JStr (cd_bank c)); ("enabled", JBool (cd_enabled c))]%string).

(** [s.replace(" ", "")] *)
Definition no_blanks (s : string) : string :=
  String.string_of_list_ascii (filter (λ c, Ascii.nat_of_ascii c ≠ 32%nat) (String.list_ascii_of_string s)).

Definition take_str (n : nat) (s : string) : string :=
  String.string_of_list_ascii (take n (String.list_ascii_of_string s)).

Section cards.
Context {R : Repr}.
(** [hashlib.sha1(s).hexdigest()], [secrets.token_hex(8)] and [random.choice]. *)
Context (sha1 : string → string) (_new_card_id : string) (choice : list Card → option Card).

(** [str(raw.get(k) or raw.get(k') or "")] *)
Definition either (k k' : string) (raw : obj) : string :=
  if has k raw then str (get k raw) else text k' raw.

Definition card_enabled_of (raw : obj) : bool :=
  match raw !! "enabled"%string with
  | None => true
  | Some (JStr s) => bool_decide (lower s ∈ ["1"; "true"; "yes"; "on"]%string)
  | Some v => truth v
  end.

Definition normalize_payment_card (assign_id : bool) (raw : json) : option Card :=
  match raw with
  | JObj raw =>
      let number := no_blanks (strip (either "number" "card_number" raw)) in
      if String.eqb number "" then None
      else
        let holder := strip (either "holder" "card_holder" raw) in
        let bank := strip (either "bank" "card_bank" raw) in
        let cid := strip (text "id" raw) in
        let cid := if String.eqb cid "" && assign_id
                   then take_str 16 (sha1 ("card:" ++ number ++ ":" ++ holder ++ ":" ++ bank)) else cid in
        Some (mkCard (if String.eqb cid "" then _new_card_id else cid) number holder bank (card_enabled_of raw))
  | _ => None
  end.

(** [json_loads]: [None] for a text that is no JSON. *)
Context (json_loads : string → option json).

Definition normalize_payment_cards (raw : json) : list Card :=
  let value := match raw with
               | JStr s => if String.eqb (strip s) "" then None else json_loads (strip s)
               | v => Some v
               end in
  match value with
  | Some (JArr items) => take MAX_PAYMENT_CARDS (omap (normalize_payment_card true) items)
  | _ => []
  end.

Definition enabled_payment_cards (cards : list Card) : list Card :=
  filter (λ c, cd_enabled c = true ∧ strip (cd_number c) ≠ ""%string) cards.

Definition legacy_cards_from_scalars (number holder bank : string) : list Card :=
  let number := no_blanks (strip number) in
  if String.eqb number "" then []
  else [mkCard (take_str 16 (sha1 ("legacy:" ++ number))) number (strip holder) (strip bank) true].

Definition pick_payment_card (cards : list Card) (card_id : option string) : option Card :=
  match enabled_payment_cards cards with
  | [] => None
  | enabled =>
      match match card_id with
            | Some cid => if String.eqb cid "" then None else head (filter (λ c, cd_id c = cid) enabled)
            | None => None
            end with
      | Some c => Some c
      | None => choice enabled
      end
  end.

(** The [payment.card*] settings, and the card columns of an admin. *)
Record PlatformCards := mkPlatformCards {
  pc_enabled : bool;
  pc_cards : json;
  pc_number : string; pc_holder : string; pc_bank : string }.

Record CardAdmin := mkCardAdmin {
  ca_is_sudo : bool;
  ca_parent_admin_id : option Z;
  ca_centralpay_enabled : bool;
  ca_card_enabled : bool;
  ca_cards : json;
  ca_number : option string; ca_holder : option string; ca_bank : option string }.

Definition load_platform_cards_raw (p : PlatformCards) : list Card :=
  match normalize_payment_cards (pc_cards p) with
  | [] => legacy_cards_from_scalars (pc_number p) (pc_holder p) (pc_bank p)
  | cards => cards
  end.

Definition load_admin_cards_raw (p : PlatformCards) (a : CardAdmin) : list Card :=
  if ca_is_sudo a then load_platform_cards_raw p
  else match normalize_payment_cards (ca_cards a) with
       | [] => legacy_cards_from_scalars (default "" (ca_number a)) (default "" (ca_holder a)) (default "" (ca_bank a))
       | cards => cards
       end.

Definition list_platform_cards (p : PlatformCards) (include_disabled : bool) : list Card :=
  if negb (pc_enabled p) then []
  else if include_disabled then load_platform_cards_raw p else enabled_payment_cards (load_platform_cards_raw p).

Definition list_cards_for_admin (p : PlatformCards) (a : option CardAdmin) (include_disabled : bool) : list Card :=
  match a with
  | None => []
  | Some a =>
      if ca_is_sudo a then list_platform_cards p include_disabled
      else if negb (ca_card_enabled a) then []
      else if include_disabled then load_admin_cards_raw p a else enabled_payment_cards (load_admin_cards_raw p a)
  end.

Definition resolve_topup_payee (admins : gmap Z CardAdmin) (payer : option CardAdmin) : option CardAdmin :=
  match payer with
  | None => None
  | Some a => if truthy (ca_parent_admin_id a) then admins !! or0 (ca_parent_admin_id a) else None
  end.

Definition list_topup_cards_for_admin (p : PlatformCards) (admins : gmap Z CardAdmin) (a : option CardAdmin)
    (include_disabled : bool) : list Card :=
  match resolve_topup_payee admins a with
  | Some payee => list_cards_for_admin p (Some payee) include_disabled
  | None => list_platform_cards p include_disabled
  end.

(** The card the scalar columns repeat. *)
Definition mirror_of (cards : list Card) : option Card :=
  match enabled_payment_cards cards with
  | c :: _ => Some c
  | [] => head cards
  end.

Definition none_if_empty (s : string) : option string := if String.eqb s "" then None else Some s.

(** [dbadmin.cards = normalized or None] and so on; the caller commits. *)
Definition save_admin_cards (enabled : bool) (cards : json) (a : CardAdmin) : list Card * CardAdmin :=
  let normalized := normalize_payment_cards cards in
  let mirror := mirror_of normalized in
  (normalized,
   mkCardAdmin (ca_is_sudo a) (ca_parent_admin_id a) (ca_centralpay_enabled a) enabled
     (match normalized with [] => JNull | l => JArr (card_json <$> l) end)
     (mirror ≫= λ c, none_if_empty (cd_number c)) (mirror ≫= λ c, none_if_empty (cd_holder c))
     (mirror ≫= λ c, none_if_empty (cd_bank c))).

(** The values of the bulk update. *)
Definition save_platform_cards (enabled : bool) (cards : json) : list Card * PlatformCards :=
  let normalized := normalize_payment_cards cards in
  let mirror := mirror_of normalized in
  (normalized, mkPlatformCards enabled (JArr (card_json <$> normalized))
     (default "" (cd_number <$> mirror)) (default "" (cd_holder <$> mirror)) (default "" (cd_bank <$> mirror)))%string.

Definition admin_may_use_centralpay (a : option CardAdmin) : bool :=
  match a with None => false | Some a => ca_is_sudo a || ca_centralpay_enabled a end.
Definition admin_may_use_card (p : PlatformCards) (a : option CardAdmin) : bool :=
  match a with None => false | Some a => if ca_is_sudo a then pc_enabled p else ca_card_enabled a end.

Definition filter_providers_for_admin (providers : list string) (a : option CardAdmin) : list string :=
  if negb (bool_decide ("centralpay"%string ∈ providers)) then providers
  else if admin_may_use_centralpay a then providers
  else filter (λ p, p ≠ "centralpay"%string) providers.

Definition resolve_platform_card (p : PlatformCards) (card_id : option string) : option Card :=
  pick_payment_card (list_platform_cards p false) card_id.
Definition resolve_card_for_admin (p : PlatformCards) (a : option CardAdmin) (card_id : option string) : option Card :=
  pick_payment_card (list_cards_for_admin p a false) card_id.
Definition card_payment_enabled_for_admin (p : PlatformCards) (a : option CardAdmin) : bool :=
  match list_cards_for_admin p a false with [] => false | _ => true end.

(** [CardProvider.create_payment]: the card the payment is made out to. *)
Definition card_create_payment (p : PlatformCards) (admins : gmap Z CardAdmin) (kind card_id : string) (admin_id : Z) : result Card :=
  let prefer_id := if String.eqb (strip card_id) "" then None else Some (strip card_id) in
  let dbadmin := if admin_id =? 0 then None else admins !! admin_id in
  if String.eqb kind "topup"
  then match pick_payment_card (list_topup_cards_for_admin p admins dbadmin false) prefer_id with
       | Some c => Ok c
       | None => Raise (ValueError (match resolve_topup_payee admins dbadmin with
                                    | Some _ => "Parent reseller card payment is not configured"
                                    | None => "Platform card payment is not configured" end))
       end
  else match pick_payment_card (list_cards_for_admin p dbadmin false) prefer_id with
       | Some c => Ok c
       | None => Raise (ValueError "Card payment is not configured for this account")
       end.

(** The first argument: [gateway_providers()]. *)
Definition topup_providers_for_admin (gateways : list string) (p : PlatformCards) (admins : gmap Z CardAdmin)
    (a : option CardAdmin) : list string :=
  if match a with Some a => truthy (ca_parent_admin_id a) | None => false end
  then match list_topup_cards_for_admin p admins a false with [] => [] | _ => ["card"%string] end
  else gateways ++ match list_platform_cards p false with [] => [] | _ => ["card"%string] end.

(** [(methods, gateway_providers, cards)]; the single card of older clients is one of them. *)
Definition portal_payment_methods (gateway_on : bool) (gateways : list string) (p : PlatformCards) (a : option CardAdmin)
    : list string * list string * list Card :=
  let gateway := filter_providers_for_admin (if gateway_on then gateways else []) a in
  let cards := list_cards_for_admin p a false in
  (match gateway with [] => [] | _ => ["gateway"%string] end ++ match cards with [] => [] | _ => ["card"%string] end,
   gateway, cards).

End cards.
End Cards.

(** ** Providers *)
Module Gateways.
Import Py Cards.

Inductive Provider := ManualProvider | CardProvider | DemoProvider | StripeProvider | CentralPayProvider.
#[export] Instance Provider_eq_dec : EqDecision Provider.
Proof. solve_decision. Defined.

Record PayConfig := mkPayConfig {
  gateway_enabled : bool;
  demo_enabled : bool;
  stripe_enabled : bool;
  stripe_secret_key : string;
  stripe_webhook_secret : string;
  centralpay_api_key : string;
  centralpay_relay_base : string;
  panel_public_address : string }.

Definition reload_providers (c : PayConfig) : gmap string Provider :=
  let reg := {["manual"%string := ManualProvider; "card"%string := CardProvider]} in
  if negb (gateway_enabled c) then reg
  else
    let reg := if demo_enabled c then <["demo"%string := DemoProvider]> reg else reg in
    let reg := if stripe_enabled c && negb (String.eqb (strip (stripe_secret_key c)) "")
                  && negb (String.eqb (strip (stripe_webhook_secret c)) "")
               then <["stripe"%string := StripeProvider]> reg else reg in
    if negb (String.eqb (strip (centralpay_api_key c)) "")
    then <["centralpay"%string := CentralPayProvider]> reg else reg.

Definition get_provider (reg : gmap string Provider) (name : string) : Provider :=
  default ManualProvider (reg !! (if String.eqb name "" then "manual"%string else name)).

Definition available_providers (reg : gmap string Provider) (online_only : bool) : list string :=
  let names := sort_by String.leb (map_to_list reg).*1 in
  if online_only then filter (λ n, n ∉ ["manual"; "card"]%string) names else names.

Definition provider_supports_intent (reg : gmap string Provider) (name : string) : bool :=
  bool_decide (is_Some (reg !! name)) && negb (String.eqb name "manual").

(** What the gateways keep with an intent, and the payload of a completion. *)
Record GatewayExtra := mkGatewayExtra {
  gx_confirm_token : option string;
  gx_stripe_session_id : option string;
  gx_centralpay_order_id : option Z }.
Record Completion := mkCompletion {
  cp_admin_approved : bool;
  cp_confirm_token : option string;
  cp_stripe_webhook : option string;
  cp_session_id : option string;
  cp_orderId : option Z }.

Definition ORDER_ID_BASE : Z := 2100000000.
Definition external_order_id (intent_id : Z) : Z := ORDER_ID_BASE + intent_id.
Definition intent_id_from_order_id (order_id : Z) : Z :=
  if ORDER_ID_BASE <=? order_id then order_id - ORDER_ID_BASE else order_id.

(** An HTTP exchange: no answer, or a status with its text, read as JSON if it is. *)
Inductive Reply := Unreachable | Response (status : Z) (body : string) (parsed : option json).

Section external.
Context {R : Repr}.
(** SHA-1, a fresh card id and a random choice; reading JSON, HMAC. *)
Context (sha1 : string → string) (_new_card_id : string) (choice : list Card → option Card).
Context (json_loads : string → option json) (hmac_sha256 : string → string → string).
(** [payment_status == "paid"] at Stripe, and CentralPay's answer to a verification. *)
Context (_session_paid : string → bool) (post_verify : Z → Reply).

(** Is [d.get("success") is False]? *)
Definition says_failure (v : option json) : bool :=
  match v with Some (JObj d) => bool_decide (get "success" d = JBool false) | _ => false end.

Definition _parse_json (r : Reply) : result json :=
  match r with
  | Unreachable => Raise (ValueError "CentralPay unreachable")
  | Response status body parsed =>
      if says_failure parsed then Raise (ValueError "CentralPay failed")
      else if (status =? 403) || contains "cloudflare" (lower body) || contains "<!DOCTYPE html>" (take_str 64 body)
              || contains "you have been blocked" (lower body)
      then Raise (ValueError "CentralPay API is blocked by Cloudflare for this server IP")
      else if 400 <=? status then Raise (ValueError "CentralPay HTTP")
      else match parsed with Some v => Ok v | None => Raise (ValueError "CentralPay bad response") end
  end.

(** [int(s)] for decimal digits with a sign; underscores are not read. *)
Definition int_of_text (l : list Ascii.ascii) : option Z :=
  let digits m := match m with [] => None | _ => Ipv4.digits_value 0 m end in
  match l with
  | c :: m => if bool_decide (c = Ascii.ascii_of_nat 45) then Z.opp <$> digits m
              else if bool_decide (c = Ascii.ascii_of_nat 43) then digits m else digits l
  | [] => None
  end.

(** [int(v or 0)] *)
Definition py_int (v : json) : option Z :=
  if negb (truth v) then Some 0
  else match v with
       | JNum n => Some n
       | JBool b => Some (if b then 1 else 0)
       | JStr s => int_of_text (String.list_ascii_of_string (strip s))
       | _ => None
       end.

(** [(data.get("data") or {}).get("amount")] *)
Definition paid_amount (d : obj) : option Z :=
  match get "data" d with
  | JObj info => py_int (get "amount" info)
  | v => if truth v then None else Some 0
  end.

Definition verify_centralpay (c : PayConfig) (pid : Z) (i : PaymentIntent) (gx : GatewayExtra) (payload : Completion) : result bool :=
  if String.eqb (pi_status i) "completed" then Ok true
  else if String.eqb (strip (centralpay_api_key c)) "" then Ok false
  else
    let expected := if truthy (gx_centralpay_order_id gx) then or0 (gx_centralpay_order_id gx) else external_order_id pid in
    let order_id := if truthy (cp_orderId payload) then or0 (cp_orderId payload) else expected in
    if negb (order_id =? expected) then Ok false
    else match _parse_json (post_verify order_id) with
         | Raise _ => Ok false
         | Ok (JObj data) =>
             if negb (has "success" data) then Ok false
             else match paid_amount data with
                  | None => Raise TypeError
                  | Some paid => Ok (paid =? pi_amount i)
                  end
         | Ok _ => Raise TypeError
         end.

Definition verify_demo (gx : GatewayExtra) (payload : Completion) : bool :=
  match gx_confirm_token gx with
  | Some t => negb (String.eqb t "") && bool_decide (cp_confirm_token payload = Some t)
  | None => false
  end.

Definition verify_stripe (gx : GatewayExtra) (payload : Completion) : bool :=
  if bool_decide (cp_stripe_webhook payload = Some "checkout.session.completed"%string)
  then match gx_stripe_session_id gx with
       | Some sid => negb (String.eqb sid "") && bool_decide (cp_session_id payload = Some sid)
       | None => false
       end
  else match cp_session_id payload with
       | Some sid => if String.eqb sid "" then false else _session_paid sid
       | None => false
       end.

(** The card provider takes the word of a reviewer, the manual one any. *)
Definition verify (p : Provider) (c : PayConfig) (pid : Z) (i : PaymentIntent) (gx : GatewayExtra) (payload : Completion) : result bool :=
  match p with
  | ManualProvider => Ok true
  | CardProvider => Ok (cp_admin_approved payload)
  | DemoProvider => Ok (verify_demo gx payload)
  | StripeProvider => Ok (verify_stripe gx payload)
  | CentralPayProvider => verify_centralpay c pid i gx payload
  end.

(** The process: settings, registry, cards, and the gateway keys of the intents. *)
Record Process := mkProcess {
  config : PayConfig;
  registry : gmap string Provider;
  platform_cards : PlatformCards;
  card_admins : gmap Z CardAdmin;
  extras : gmap Z GatewayExtra }.

Definition no_gateway_extra : GatewayExtra := mkGatewayExtra None None None.
Definition extra_of (pr : Process) (pid : Z) : GatewayExtra := default no_gateway_extra (extras pr !! pid).

(** ** Starting a payment *)

(** [s.rstrip("/")] *)
Fixpoint drop_slashes (l : list Ascii.ascii) : list Ascii.ascii :=
  match l with
  | c :: m => if bool_decide (c = Ascii.ascii_of_nat 47) then drop_slashes m else l
  | [] => []
  end.
Definition rstrip_slash (s : string) : string :=
  String.string_of_list_ascii (rev (drop_slashes (rev (String.list_ascii_of_string s)))).

Definition _relay_base (c : PayConfig) : string := rstrip_slash (strip (centralpay_relay_base c)).

Definition _panel_public_base (c : PayConfig) : string :=
  let addr := rstrip_slash (strip (panel_public_address c)) in
  if String.eqb addr "" then ""
  else if startswith "http://" addr || startswith "https://" addr then addr
  else ("https://" ++ addr)%string.

Definition _return_url (c : PayConfig) (order_id : Z) (public_base : string) : result string :=
  let base := rstrip_slash (strip public_base) in
  let base := if String.eqb base "" then _panel_public_base c else base in
  if String.eqb base "" then
    if String.eqb (_relay_base c) "" then Raise (ValueError "CentralPay needs a public panel URL")
    else Ok (_relay_base c ++ "/return?orderId=" ++ pretty order_id)%string
  else Ok (base ++ "/api/billing/return/centralpay?orderId=" ++ pretty order_id)%string.

(** [DemoProvider.create_payment] *)
Definition demo_create_payment (token : string) (gx : GatewayExtra) : GatewayExtra :=
  mkGatewayExtra (Some token) (gx_stripe_session_id gx) (gx_centralpay_order_id gx).

(** What the world answers while a payment is created: a random token, Stripe's session
    for an amount and an intent, CentralPay's link for amount, user, order and return
    address. *)
Record Answers := mkAnswers {
  token_urlsafe : string;
  checkout_session : Z → Z → Reply;
  get_link : Z → Z → Z → string → Reply }.

(** [data["id"]] of the session; Stripe's ids are texts. *)
Definition stripe_create_payment (c : PayConfig) (an : Answers) (pid : Z) (i : PaymentIntent) (gx : GatewayExtra) : result GatewayExtra :=
  if String.eqb (stripe_secret_key c) "" then Raise (ValueError "Stripe secret key not configured")
  else match checkout_session an (pi_amount i) pid with
       | Unreachable => Raise TypeError
       | Response status _ parsed =>
           if 400 <=? status then Raise (ValueError "Stripe error")
           else match parsed with
                | None => Raise (ValueError "Expecting value")
                | Some (JObj data) =>
                    match data !! "id"%string with
                    | Some (JStr sid) => Ok (mkGatewayExtra (gx_confirm_token gx) (Some sid) (gx_centralpay_order_id gx))
                    | _ => Raise TypeError
                    end
                | Some _ => Raise TypeError
                end
       end.

(** The id CentralPay is given for the payer. *)
Definition payer_id (i : PaymentIntent) : Z := if truthy (pi_user_id i) then or0 (pi_user_id i) else pi_admin_id i.

Definition centralpay_create_payment (c : PayConfig) (an : Answers) (pid : Z) (i : PaymentIntent) (gx : GatewayExtra)
    (public_base : string) : result GatewayExtra :=
  if String.eqb (strip (centralpay_api_key c)) "" then Raise (ValueError "CentralPay API key not configured")
  else if pi_amount i <=? 0 then Raise (ValueError "Invalid payment amount")
  else if payer_id i <=? 0 then Raise (ValueError "CentralPay userId missing")
  else
    let order_id := external_order_id pid in
    match _return_url c order_id public_base with
    | Raise e => Raise e
    | Ok url =>
        match _parse_json (get_link an (pi_amount i) (payer_id i) order_id url) with
        | Raise e => Raise e
        | Ok (JObj data) =>
            if negb (has "success" data) then Raise (ValueError "CentralPay getLink failed")
            else match get "data" data with
                 | JObj info =>
                     if has "redirectUrl" info
                     then Ok (mkGatewayExtra (gx_confirm_token gx) (gx_stripe_session_id gx) (Some order_id))
                     else Raise (ValueError "CentralPay did not return redirectUrl")
                 | v => if truth v then Raise TypeError else Raise (ValueError "CentralPay did not return redirectUrl")
                 end
        | Ok _ => Raise TypeError
        end
    end.

(** Which keys of [extra] the provider of an intent sets, or why it cannot start. *)
Definition create_payment (p : Provider) (pr : Process) (an : Answers) (pid : Z) (i : PaymentIntent)
    (card_id public_base : string) : result GatewayExtra :=
  let gx := extra_of pr pid in
  match p with
  | ManualProvider => Ok gx
  | CardProvider =>
      match card_create_payment sha1 _new_card_id choice json_loads (platform_cards pr) (card_admins pr) (pi_kind i) card_id (pi_admin_id i) with
      | Ok _ => Ok gx
      | Raise e => Raise e
      end
  | DemoProvider => Ok (demo_create_payment (token_urlsafe an) gx)
  | StripeProvider => stripe_create_payment (config pr) an pid i gx
  | CentralPayProvider => centralpay_create_payment (config pr) an pid i gx public_base
  end.

(** [_require_provider(name, dbadmin, kind=...)] *)
Definition _require_provider (pr : Process) (name : string) (dbadmin : option CardAdmin) (kind : string) : M DB unit :=
  let name := lower (strip name) in
  if String.eqb name "demo" && negb (demo_enabled (config pr)) then raise (HTTPException 403 "Demo gateway is disabled")
  else if negb (provider_supports_intent (registry pr) name) then raise (HTTPException 422 "Provider is not available")
  else if String.eqb name "centralpay" && negb (String.eqb kind "topup")
          && match dbadmin with Some a => negb (admin_may_use_centralpay (Some a)) | None => false end
  then raise (HTTPException 403 "CentralPay is not enabled for this reseller")
  else if String.eqb name "card" then
    if String.eqb kind "topup" then
      match dbadmin with
      | Some a =>
          match list_topup_cards_for_admin sha1 _new_card_id json_loads (platform_cards pr) (card_admins pr) (Some a) false with
          | _ :: _ => ret tt
          | [] => raise (HTTPException 403 (match resolve_topup_payee (card_admins pr) (Some a) with
                                            | Some _ => "Parent reseller card payment is not configured"
                                            | None => "Platform card payment is not configured" end))
          end
      | None =>
          match resolve_platform_card sha1 _new_card_id choice json_loads (platform_cards pr) None with
          | Some _ => ret tt
          | None => raise (HTTPException 403 "Platform card payment is not configured")
          end
      end
    else match dbadmin with
         | Some a => if is_none (resolve_card_for_admin sha1 _new_card_id choice json_loads (platform_cards pr) (Some a) None)
                     then raise (HTTPException 403 "Card payment is not configured for this reseller") else ret tt
         | None => ret tt
         end
  else ret tt.

(** [topup_wallet]: the row is made under the next id. *)
Definition topup_wallet (pr : Process) (an : Answers) (now admin_id : Z) (is_sudo : bool) (amount : Z)
    (provider card_id public_base : string) : M DB Z :=
  Endpoints._require_billing_enabled ;;;
  if is_sudo then raise (HTTPException 400 "Platform owner wallet is managed manually")
  else
    let* pid := gets (λ d, Wallet.next_key (intents d)) in
    Payments.create_topup_payment now admin_id amount provider
      (_require_provider pr provider (card_admins pr !! admin_id) "topup")
      (λ i, match create_payment (get_provider (registry pr) provider) pr an pid i card_id public_base with
            | Ok _ => Ok (pi_extra i)
            | Raise e => Raise e
            end).

(** The process after a payment was created. *)
Definition with_extra (pr : Process) (pid : Z) (gx : GatewayExtra) : Process :=
  mkProcess (config pr) (registry pr) (platform_cards pr) (card_admins pr) (<[pid := gx]> (extras pr)).

(** ** Settling a payment: [complete_payment(db, intent, payload)] with [verify] *)
Definition settle (pr : Process) (now pid : Z) (payload : Completion) (token : string) : M DB unit :=
  let* i := Payments.the_intent pid in
  match verify (get_provider (registry pr) (pi_provider i)) (config pr) pid i (extra_of pr pid) payload with
  | Ok b => Payments.complete_payment now pid (λ _, b) token
  | Raise e =>
      if String.eqb (pi_status i) "completed" then ret tt
      else if negb (Payments.reviewable_status (pi_status i)) then raise (HTTPException 409 "Payment is not pending")
      else raise e
  end.

(** ** The handlers *)
Definition token_body (confirm_token : option string) : Completion := mkCompletion false confirm_token None None None.

(** What the two completion handlers share. *)
Definition complete_checked (pr : Process) (now pid : Z) (i : PaymentIntent) (body : option string) (token : string) : M DB unit :=
  if String.eqb (pi_provider i) "card" then raise (HTTPException 400 "Card payments must be submitted for review")
  else if String.eqb (pi_provider i) "demo" && negb (demo_enabled (config pr))
  then raise (HTTPException 403 "Demo gateway is disabled")
  else settle pr now pid (token_body body) token.

Definition complete_wallet_payment (pr : Process) (now pid admin_id : Z) (body : option string) (token : string) : M DB unit :=
  Endpoints._require_billing_enabled ;;;
  let* i := Payments.get_intent_for_admin pid admin_id in
  if negb (String.eqb (pi_kind i) "topup") then raise (HTTPException 400 "Not a top-up payment")
  else complete_checked pr now pid i body token.

Definition portal_complete_payment (pr : Process) (now pid user_id : Z) (body : option string) (token : string) : M DB unit :=
  Endpoints._require_billing_enabled ;;;
  let* i := Payments.get_intent_for_user pid user_id in
  if negb (Payments.is_portal_kind (pi_kind i)) then raise (HTTPException 400 "Not a portal payment")
  else complete_checked pr now pid i body token.

(** [dict(p.split("=", 1) for p in sig.split(",") if "=" in p).get(k, "")]: the last one
    counts. *)
Definition equals_sign : Ascii.ascii := Ascii.ascii_of_nat 61.
Definition comma : Ascii.ascii := Ascii.ascii_of_nat 44.
Fixpoint split_equals (l : list Ascii.ascii) : option (list Ascii.ascii * list Ascii.ascii) :=
  match l with
  | [] => None
  | c :: l => if bool_decide (c = equals_sign) then Some ([], l)
              else match split_equals l with Some (k, v) => Some (c :: k, v) | None => None end
  end.
Definition sig_part (k : string) (sig : string) : string :=
  let parts := omap split_equals (Ipv4.split_on comma (String.list_ascii_of_string sig)) in
  match last (filter (λ p, p.1 = String.list_ascii_of_string k) parts) with
  | Some (_, v) => String.string_of_list_ascii v
  | None => ""
  end.

(** [d.get(k, {})] must be an object to go on. *)
Definition sub (k : string) (d : obj) : option obj :=
  match d !! k with None => Some ∅ | Some (JObj m) => Some m | Some _ => None end.

(** The intent and the session an event is about; [None]: nothing to do. *)
Definition webhook_event (event : json) : result (option (Z * option string)) :=
  match event with
  | JObj e =>
      if negb (bool_decide (get "type" e = JStr "checkout.session.completed")) then Ok None
      else match sub "data" e ≫= sub "object" with
           | None => Raise TypeError
           | Some session =>
               match sub "metadata" session with
               | None => Raise TypeError
               | Some md =>
                   let pid := get "payment_intent_id" md in
                   if negb (truth pid) then Ok None
                   else match py_int pid with
                        | None => Raise (ValueError "invalid literal for int()")
                        | Some pid => Ok (Some (pid, match get "id" session with JStr s => Some s | _ => None end))
                        end
               end
           end
  | _ => Raise TypeError
  end.

Definition signature_ok (secret sig body : string) : bool :=
  negb (String.eqb (sig_part "t" sig) "") && negb (String.eqb (sig_part "v1" sig) "") &&
  String.eqb (hmac_sha256 secret (sig_part "t" sig ++ "." ++ body)) (sig_part "v1" sig).

Definition stripe_webhook (pr : Process) (now : Z) (sig body : string) (token : string) : M DB unit :=
  let secret := strip (stripe_webhook_secret (config pr)) in
  if negb (stripe_enabled (config pr)) then raise (HTTPException 404 "Stripe disabled")
  else if String.eqb secret "" then raise (HTTPException 503 "Stripe webhook secret is not configured")
  else if String.eqb sig "" then raise (HTTPException 400 "Missing Stripe-Signature header")
  else if negb (signature_ok secret sig body) then raise (HTTPException 400 "Invalid signature")
  else match json_loads body with
       | None => raise (HTTPException 400 "Invalid JSON")
       | Some event =>
           match webhook_event event with
           | Raise e => raise e
           | Ok None => ret tt
           | Ok (Some (pid, session_id)) =>
               let* i := gets (λ d, intents d !! pid) in
               match i with
               | None => ret tt
               | Some i =>
                   if String.eqb (pi_status i) "completed" then ret tt
                   else settle pr now pid (mkCompletion false None (Some "checkout.session.completed"%string) session_id None) token
               end
           end
       end.

(** Whether the browser is sent to the page of success. *)
Definition centralpay_return (pr : Process) (now orderId : Z) (token : string) : M DB bool :=
  if String.eqb (strip (centralpay_api_key (config pr))) "" then ret false
  else
    let pid := intent_id_from_order_id orderId in
    let* i := gets (λ d, intents d !! pid) in
    match i with
    | None => ret false
    | Some i =>
        if negb (String.eqb (pi_provider i) "centralpay") then ret false
        else if String.eqb (pi_status i) "completed" then ret true
        else λ s, match settle pr now pid (mkCompletion false None None None (Some orderId)) token s with
                  | (Ok _, s') => (Ok true, s')
                  | (Raise _, s') => (Ok false, s')
                  end
    end.

End external.
End Gateways.

(** ** Facts *)
Module CardFacts.
Import Py Cards.

(** *** Trimmed texts *)
Definition solid_head (l : list Ascii.ascii) : Prop := match l with c :: _ => is_space c = false | [] => True end.
Definition tight (l : list Ascii.ascii) : Prop := solid_head l ∧ solid_head (rev l).

Lemma solid_head_drop l : solid_head (drop_spaces l).
Proof. induction l as [|c l IH]; cbn; [done|]. by destruct (is_space c) eqn:E. Qed.
Lemma drop_spaces_solid_head l : solid_head l → drop_spaces l = l.
Proof. destruct l as [|c l]; cbn; [done|]. by intros ->. Qed.

Lemma drop_spaces_suffix l : ∃ k, l = k ++ drop_spaces l.
Proof.
  induction l as [|c l [k IH]]; [by exists []|]. cbn. destruct (is_space c); [|by exists []]. exists (c :: k). cbn. by rewrite <- IH.
Qed.

Definition trim (l : list Ascii.ascii) : list Ascii.ascii := rev (drop_spaces (rev (drop_spaces l))).

Lemma tight_trim l : tight (trim l).
Proof.
  unfold trim. split; [|rewrite rev_involutive; apply solid_head_drop].
  pose proof (solid_head_drop l) as Hh. set (m := drop_spaces l) in *. clearbody m.
  destruct (drop_spaces_suffix (rev m)) as [k Hk]. apply (f_equal (@rev _)) in Hk. rewrite rev_involutive, rev_app_distr in Hk.
  destruct (rev (drop_spaces (rev m))) as [|c t] eqn:E; [done|]. rewrite Hk in Hh. exact Hh.
Qed.

Lemma trim_tight l : tight l → trim l = l.
Proof. intros [H1 H2]. unfold trim. rewrite (drop_spaces_solid_head l H1), drop_spaces_solid_head by done. apply rev_involutive. Qed.

Lemma filter_rev {A} (P : A → Prop) `{∀ x, Decision (P x)} (l : list A) : rev (filter P l) = filter P (rev l).
Proof.
  induction l as [|x l IH]; [done|]. cbn [rev]. rewrite filter_app, <- IH, !filter_cons, filter_nil.
  case_decide; cbn [rev]; [done | by rewrite app_nil_r].
Qed.

Lemma tight_no_blanks l : tight l → tight (filter (λ c, Ascii.nat_of_ascii c ≠ 32%nat) l).
Proof.
  assert (H : ∀ m, solid_head m → solid_head (filter (λ c, Ascii.nat_of_ascii c ≠ 32%nat) m)).
  { intros [|c m]; cbn [solid_head]; [done|]. intros Hc. rewrite filter_cons, decide_True; [exact Hc|].
    intros E. unfold is_space in Hc. by rewrite E in Hc. }
  intros [H1 H2]. split; [by apply H|]. rewrite filter_rev. by apply H.
Qed.

Definition trimmed (s : string) : Prop := tight (String.list_ascii_of_string s).

Lemma strip_clean s : trimmed s → strip s = s.
Proof.
  intros H. change (strip s) with (String.string_of_list_ascii (trim (String.list_ascii_of_string s))).
  rewrite trim_tight by exact H. apply String.string_of_list_ascii_of_string.
Qed.
Lemma clean_strip s : trimmed (strip s).
Proof.
  unfold trimmed. change (strip s) with (String.string_of_list_ascii (trim (String.list_ascii_of_string s))).
  rewrite String.list_ascii_of_string_of_list_ascii. apply tight_trim.
Qed.
Lemma clean_no_blanks s : trimmed s → trimmed (no_blanks s).
Proof. unfold trimmed, no_blanks. rewrite String.list_ascii_of_string_of_list_ascii. apply tight_no_blanks. Qed.
Lemma no_blanks_idem s : no_blanks (no_blanks s) = no_blanks s.
Proof.
  unfold no_blanks. rewrite String.list_ascii_of_string_of_list_ascii, list_filter_filter. f_equal.
  apply list_filter_iff. tauto.
Qed.

Section cards.
Context {R : Repr} (sha1 : string → string) (new_id : string) (json_loads : string → option json).
(** [hexdigest] and [token_hex] give hexadecimal digits. *)
Hypothesis sha1_hex : ∀ s, trimmed (take_str 16 (sha1 s)) ∧ take_str 16 (sha1 s) ≠ ""%string.

Notation norm := (normalize_payment_card sha1 new_id).
Notation norms := (normalize_payment_cards sha1 new_id json_loads).

(** What every normalised card looks like. *)
Definition good_card (c : Card) : Prop :=
  cd_id c ≠ ""%string ∧ trimmed (cd_id c) ∧ cd_number c ≠ ""%string ∧ trimmed (cd_number c) ∧
  no_blanks (cd_number c) = cd_number c ∧ trimmed (cd_holder c) ∧ trimmed (cd_bank c).

Lemma norm_good raw c : norm true raw = Some c → good_card c.
Proof.
  destruct raw as [| | | | |raw]; try done. cbn -[strip no_blanks take_str].
  set (number := no_blanks _). destruct (String.eqb_spec number "") as [|Hn]; [done|]. intros [= <-]. unfold good_card.
  cbn [cd_id cd_number cd_holder cd_bank]. set (h := strip (either "holder" _ raw)). set (b := strip (either "bank" _ raw)).
  assert (Hid : ∀ cid, trimmed cid → let cid := if String.eqb cid "" && true then take_str 16 (sha1 ("card:" ++ number ++ ":" ++ h ++ ":" ++ b)) else cid in
             (if String.eqb cid "" then new_id else cid) ≠ ""%string ∧ trimmed (if String.eqb cid "" then new_id else cid)).
  { intros cid Hc. cbv zeta. destruct (String.eqb_spec cid "") as [->|Hne]; cbn [andb].
    - destruct (sha1_hex ("card:" ++ number ++ ":" ++ h ++ ":" ++ b)) as [H1 H2].
      destruct (String.eqb_spec (take_str 16 (sha1 ("card:" ++ number ++ ":" ++ h ++ ":" ++ b))) ""); done.
    - destruct (String.eqb_spec cid ""); done. }
  destruct (Hid (strip (text "id" raw)) (clean_strip _)) as [H1 H2].
  split_and!; [exact H1 | exact H2 | exact Hn | apply clean_no_blanks, clean_strip | apply no_blanks_idem | apply clean_strip..].
Qed.

Lemma norm_stored c : good_card c → norm true (card_json c) = Some c.
Proof.
  intros (Hi & Hci & Hn & Hcn & Hb & Hh & Hk). destruct c as [i n h b e]. cbn [cd_id cd_number cd_holder cd_bank] in *.
  unfold card_json, normalize_payment_card, either, text, has. cbn [cd_id cd_number cd_holder cd_bank cd_enabled].
  set (m := list_to_map _).
  assert (Hg : get "id" m = JStr i ∧ get "number" m = JStr n ∧ get "holder" m = JStr h ∧ get "bank" m = JStr b ∧
               m !! "enabled"%string = Some (JBool e) ∧ get "card_holder" m = JNull ∧ get "card_bank" m = JNull) by (repeat split; reflexivity).
  destruct Hg as (-> & -> & -> & -> & He & -> & ->). clearbody m. unfold card_enabled_of. rewrite He. cbn [truth str negb].
  assert (Hor : ∀ s, trimmed s → strip (if negb (String.eqb s "") then s else if false then "None"%string else ""%string) = s).
  { intros s Hs. destruct (String.eqb_spec s "") as [->|]; cbn [negb]; [reflexivity | by apply strip_clean]. }
  rewrite !Hor by done.
  assert (Hs : ∀ x y : string, x ≠ ""%string → (if negb (String.eqb x "") then x else y) = x)
    by (intros x y Hx; destruct (String.eqb_spec x ""); done).
  rewrite !Hs by done. rewrite !strip_clean, Hb by done.
  destruct (String.eqb_spec n "") as [|_]; [done|]. destruct (String.eqb_spec i "") as [|Hne]; [done|]. cbn [andb].
  destruct (String.eqb_spec i ""); done.
Qed.

Lemma norms_good raw c : c ∈ norms raw → good_card c.
Proof.
  unfold normalize_payment_cards. destruct (match raw with JStr _ => _ | _ => _ end) as [[| | | |items|]|];
    try (intros H; by apply not_elem_of_nil in H).
  intros H. apply elem_of_take in H as (i & Hi & _). apply list_elem_of_lookup_2, list_elem_of_omap in Hi as (x & _ & Hx).
  by eapply norm_good.
Qed.

Lemma norms_length raw : (length (norms raw) ≤ MAX_PAYMENT_CARDS)%nat.
Proof.
  unfold normalize_payment_cards. destruct (match raw with JStr _ => _ | _ => _ end) as [[| | | |items|]|];
    try (cbn; lia). rewrite length_take. lia.
Qed.

Lemma norms_stored l : (∀ c, c ∈ l → good_card c) → (length l ≤ MAX_PAYMENT_CARDS)%nat → norms (JArr (card_json <$> l)) = l.
Proof.
  intros Hg Hl. cbn -[take]. transitivity (take MAX_PAYMENT_CARDS l); [f_equal|by apply take_ge].
  clear Hl. induction l as [|c l IH]; [done|]. cbn [fmap list_fmap omap list_omap].
  rewrite norm_stored by (apply Hg; left). f_equal. apply IH. intros x Hx. apply Hg. by right.
Qed.

Lemma empty_legacy : legacy_cards_from_scalars sha1 "" "" "" = [].
Proof. reflexivity. Qed.

(** Saved cards come back as they were saved: what a reseller's or the platform's card form
    stores is read back unchanged, in order and with the same ids, at most twelve
    cards, each with a number without blanks; an empty form leaves no card behind in
    the old single-card columns. *)
Theorem saved_cards_roundtrip enabled raw a p : ca_is_sudo a = false →
  let '(l, a') := save_admin_cards sha1 new_id json_loads enabled raw a in
  let '(l', p') := save_platform_cards sha1 new_id json_loads enabled raw in
  load_admin_cards_raw sha1 new_id json_loads p a' = l ∧ load_platform_cards_raw sha1 new_id json_loads p' = l' ∧
  (length l ≤ 12)%nat ∧ (∀ c, c ∈ l → good_card c) ∧ (enabled = false → list_cards_for_admin sha1 new_id json_loads p (Some a') true = []).
Proof.
  intros Hs. unfold save_admin_cards, save_platform_cards. pose proof (norms_good raw) as Hg. pose proof (norms_length raw) as Hl.
  set (l := norms raw) in *. clearbody l. split_and!; [| |exact Hl|exact Hg|].
  - unfold load_admin_cards_raw. cbn [ca_is_sudo ca_cards ca_number ca_holder ca_bank]. rewrite Hs.
    destruct l as [|c t] eqn:E; [reflexivity|]. rewrite <- E in *. rewrite norms_stored by done. by rewrite E.
  - unfold load_platform_cards_raw. cbn [pc_cards pc_number pc_holder pc_bank].
    destruct l as [|c t] eqn:E; [reflexivity|]. rewrite <- E in *. rewrite norms_stored by done. by rewrite E.
  - intros ->. unfold list_cards_for_admin. cbn [ca_is_sudo ca_card_enabled]. by rewrite Hs.
Qed.
End cards.
End CardFacts.

Module GatewayFacts.
Import Py Cards Gateways.

Lemma order_id_roundtrip n : 0 ≤ n → intent_id_from_order_id (external_order_id n) = n.
Proof. intros H. unfold intent_id_from_order_id, external_order_id. rewrite (proj2 (Z.leb_le _ _)); lia. Qed.

(** What is in the registry. *)
Lemma registry_card c : reload_providers c !! "card"%string = Some CardProvider.
Proof. unfold reload_providers. repeat case_match; rewrite ?lookup_insert_ne by done; reflexivity. Qed.

(** Without the master switch no gateway is registered. *)
Lemma registry_off c name : gateway_enabled c = false → name ≠ "card"%string →
  get_provider (reload_providers c) name = ManualProvider.
Proof.
  intros Hg Hn. unfold get_provider, reload_providers. rewrite Hg. cbn [negb].
  destruct (String.eqb_spec name "") as [->|Hne]; [reflexivity|].
  destruct (decide (name = "manual"%string)) as [->|Hm]; [reflexivity|].
  rewrite lookup_insert_ne, lookup_singleton_ne by done. done.
Qed.

Section external.
Context {R : Repr} (paid : string → bool) (post : Z → Reply) (hmac : string → string → string) (loads : string → option json).

(** Everything that can report a payment as done, the review by an admin apart. *)
Inductive Callback :=
  | CompleteTopup (now pid admin_id : Z) (body : option string) (token : string)
  | CompletePortal (now pid user_id : Z) (body : option string) (token : string)
  | StripeEvent (now : Z) (sig body token : string)
  | CentralPayReturn (now orderId : Z) (token : string).

Definition run_callback (pr : Process) (cb : Callback) : M DB unit :=
  match cb with
  | CompleteTopup now pid aid body token => complete_wallet_payment paid post pr now pid aid body token
  | CompletePortal now pid uid body token => portal_complete_payment paid post pr now pid uid body token
  | StripeEvent now sig body token => stripe_webhook loads hmac paid post pr now sig body token
  | CentralPayReturn now oid token => centralpay_return paid post pr now oid token ;;; ret tt
  end.

(** What stands behind the report, per provider of the intent. *)
Definition body_token (cb : Callback) : option string :=
  match cb with CompleteTopup _ _ _ b _ | CompletePortal _ _ _ b _ => b | _ => None end.

Definition stripe_signed (pr : Process) (cb : Callback) (pid : Z) (sid : string) : Prop :=
  match cb with
  | StripeEvent _ sig body _ =>
      signature_ok hmac (strip (stripe_webhook_secret (config pr))) sig body = true ∧
      ∃ event, loads body = Some event ∧ webhook_event event = Ok (Some (pid, Some sid))
  | _ => False
  end.

Definition centralpay_confirms (pr : Process) (pid : Z) (i : PaymentIntent) : Prop :=
  ∃ data, _parse_json (post (if truthy (gx_centralpay_order_id (extra_of pr pid))
                             then or0 (gx_centralpay_order_id (extra_of pr pid)) else external_order_id pid)) = Ok (JObj data) ∧
          has "success" data = true ∧ paid_amount data = Some (pi_amount i).

Definition confirmed (pr : Process) (cb : Callback) (pid : Z) (i : PaymentIntent) : Prop :=
  match get_provider (registry pr) (pi_provider i) with
  | ManualProvider | CardProvider => False
  | DemoProvider => ∃ t, t ≠ ""%string ∧ gx_confirm_token (extra_of pr pid) = Some t ∧ body_token cb = Some t
  | StripeProvider => ∃ sid, sid ≠ ""%string ∧ gx_stripe_session_id (extra_of pr pid) = Some sid ∧ stripe_signed pr cb pid sid
  | CentralPayProvider => centralpay_confirms pr pid i
  end.

(** The intent names no provider, the manual one, or one that is not registered. *)
Definition manually_settled (pr : Process) (i : PaymentIntent) : Prop :=
  get_provider (registry pr) (pi_provider i) = ManualProvider.

Definition accepted (pr : Process) (cb : Callback) (pid : Z) (i : PaymentIntent) : Prop :=
  confirmed pr cb pid i ∨ manually_settled pr i.

(** *** Nothing changes unless the provider says so *)
Lemma complete_unverified now pid token d : (Payments.complete_payment now pid (λ _, false) token (mkSession d d)).2 = mkSession d d.
Proof.
  unfold Payments.complete_payment, Payments.the_intent, bind, gets. cbn [work].
  destruct (intents d !! pid) as [i|]; [|done]. cbn. repeat case_match; simplify_eq/=; done.
Qed.

Lemma settle_changes pr now pid payload token d :
  (settle paid post pr now pid payload token (mkSession d d)).2 ≠ mkSession d d →
  ∃ i, intents d !! pid = Some i ∧ Payments.reviewable_status (pi_status i) = true ∧
       verify paid post (get_provider (registry pr) (pi_provider i)) (config pr) pid i (extra_of pr pid) payload = Ok true.
Proof.
  unfold settle. destruct (intents d !! pid) as [i|] eqn:Hi.
  2:{ unfold Payments.the_intent, bind, gets. cbn [work]. by rewrite Hi. }
  rewrite (bind_ok _ _ _ _ _ (PaymentFacts.the_intent_run d d pid i Hi)).
  destruct (verify _ _ _ _ _ _ _ _) as [[|]|e] eqn:Ev.
  - intros Hch. exists i. split; [done|]. split; [|done]. destruct (Payments.reviewable_status (pi_status i)) eqn:Hr; [done|].
    exfalso. apply Hch. unfold Payments.complete_payment. rewrite (bind_ok _ _ _ _ _ (PaymentFacts.the_intent_run d d pid i Hi)).
    rewrite Hr. by destruct (String.eqb _ _).
  - by rewrite complete_unverified.
  - by repeat case_match.
Qed.

Lemma centralpay_verified pr pid i gx payload : gx = extra_of pr pid → Payments.reviewable_status (pi_status i) = true →
  verify_centralpay post (config pr) pid i gx payload = Ok true → centralpay_confirms pr pid i.
Proof.
  intros -> Hr. unfold verify_centralpay, centralpay_confirms.
  destruct (String.eqb_spec (pi_status i) "completed") as [Hc|_]; [by rewrite Hc in Hr|].
  destruct (String.eqb _ ""); [done|]. set (expected := if truthy (gx_centralpay_order_id _) then _ else _).
  destruct (negb _) eqn:Ho; [done|]. apply negb_false_iff, Z.eqb_eq in Ho. rewrite Ho.
  destruct (_parse_json (post expected)) as [[| | | | |data]|]; try done.
  destruct (has "success" data) eqn:Hs; cbn [negb]; [|done]. destruct (paid_amount data) as [n|] eqn:Hp; [|done].
  intros [= He]. apply Z.eqb_eq in He. exists data. split_and!; [done|done|congruence].
Qed.

(** [verify] with the payload of each handler. *)
Lemma verified_body pr pid i b : Payments.reviewable_status (pi_status i) = true →
  verify paid post (get_provider (registry pr) (pi_provider i)) (config pr) pid i (extra_of pr pid) (token_body b) = Ok true →
  ∀ cb, body_token cb = b → accepted pr cb pid i.
Proof.
  intros Hr Hv cb Hb. unfold accepted, confirmed, manually_settled.
  destruct (get_provider _ _); cbn in Hv; unfold verify_demo, verify_stripe in Hv; cbn in Hv; try done; try (by right); left.
  - destruct (gx_confirm_token (extra_of pr pid)) as [t|]; [|done]. injection Hv as Hv. apply andb_true_iff in Hv as [H1 H2].
    apply bool_decide_eq_true in H2. exists t. split_and!; [by destruct (String.eqb_spec t "")|done|congruence].
  - by eapply centralpay_verified.
Qed.

Lemma verified_event pr pid i sid cb : Payments.reviewable_status (pi_status i) = true →
  verify paid post (get_provider (registry pr) (pi_provider i)) (config pr) pid i (extra_of pr pid)
    (mkCompletion false None (Some "checkout.session.completed"%string) sid None) = Ok true →
  (∀ s, sid = Some s → stripe_signed pr cb pid s) → accepted pr cb pid i.
Proof.
  intros Hr Hv Hs. unfold accepted, confirmed, manually_settled.
  destruct (get_provider _ _); cbn in Hv; unfold verify_demo, verify_stripe in Hv; cbn in Hv; try done; try (by right); left.
  - destruct (gx_confirm_token _) as [t|]; [|done]. by rewrite andb_false_r in Hv.
  - destruct (gx_stripe_session_id (extra_of pr pid)) as [s|]; [|done]. injection Hv as Hv. apply andb_true_iff in Hv as [H1 H2].
    apply bool_decide_eq_true in H2. exists s. split_and!; [by destruct (String.eqb_spec s "")|done|by apply Hs].
  - by eapply centralpay_verified.
Qed.

Lemma verified_return pr pid i oid cb : Payments.reviewable_status (pi_status i) = true →
  verify paid post (get_provider (registry pr) (pi_provider i)) (config pr) pid i (extra_of pr pid)
    (mkCompletion false None None None (Some oid)) = Ok true → accepted pr cb pid i.
Proof.
  intros Hr Hv. unfold accepted, confirmed, manually_settled.
  destruct (get_provider _ _); cbn in Hv; unfold verify_demo, verify_stripe in Hv; cbn in Hv; try done; try (by right); left.
  - destruct (gx_confirm_token _) as [t|]; [|done]. by rewrite andb_false_r in Hv.
  - by eapply centralpay_verified.
Qed.

(** The session after a handler's reads. *)
Lemma read_only {A B} (m : M DB A) (k : A → M DB B) d : (m (mkSession d d)).2 = mkSession d d →
  (bind m k (mkSession d d)).2 ≠ mkSession d d → ∃ a, m (mkSession d d) = (Ok a, mkSession d d) ∧ (k a (mkSession d d)).2 ≠ mkSession d d.
Proof. unfold bind. destruct (m (mkSession d d)) as [[a|e] s]; cbn; intros ->; [eauto | done]. Qed.

Lemma intent_for_admin_reads pid aid d : (Payments.get_intent_for_admin pid aid (mkSession d d)).2 = mkSession d d.
Proof.
  unfold Payments.get_intent_for_admin, Payments.the_intent, bind, gets. cbn [work].
  destruct (intents d !! pid) as [i|]; [|done]. cbn. by destruct (_ =? _).
Qed.
Lemma intent_for_user_reads pid uid d : (Payments.get_intent_for_user pid uid (mkSession d d)).2 = mkSession d d.
Proof.
  unfold Payments.get_intent_for_user, Payments.the_intent, bind, gets. cbn [work].
  destruct (intents d !! pid) as [i|]; [|done]. cbn. case_bool_decide; [done|]. by case_match.
Qed.
Lemma billing_reads d : (Endpoints._require_billing_enabled (mkSession d d)).2 = mkSession d d.
Proof. unfold Endpoints._require_billing_enabled, bind, gets. by case_match. Qed.

Lemma checked_accepted pr now pid j b token d cb : body_token cb = b →
  (complete_checked paid post pr now pid j b token (mkSession d d)).2 ≠ mkSession d d →
  ∃ i, intents d !! pid = Some i ∧ Payments.reviewable_status (pi_status i) = true ∧ accepted pr cb pid i.
Proof.
  intros Hb. unfold complete_checked. case_match; [done|]. case_match; [done|]. intros Hch.
  apply settle_changes in Hch as (i & Hi & Hr & Hv). exists i. split_and!; [done|done|]. by eapply verified_body.
Qed.

Lemma handler_accepted pr cb d : (run_callback pr cb (mkSession d d)).2 ≠ mkSession d d →
  ∃ pid i, intents d !! pid = Some i ∧ Payments.reviewable_status (pi_status i) = true ∧ accepted pr cb pid i.
Proof.
  destruct cb as [now pid aid b token|now pid uid b token|now sig body token|now oid token]; cbn [run_callback]; intros Hch.
  - unfold complete_wallet_payment in Hch. apply read_only in Hch as (_ & _ & Hch); [|apply billing_reads].
    apply read_only in Hch as (j & _ & Hch); [|apply intent_for_admin_reads]. destruct (negb _); [done|].
    apply (checked_accepted _ _ _ _ _ _ _ (CompleteTopup now pid aid b token) eq_refl) in Hch as (i & ?). eauto.
  - unfold portal_complete_payment in Hch. apply read_only in Hch as (_ & _ & Hch); [|apply billing_reads].
    apply read_only in Hch as (j & _ & Hch); [|apply intent_for_user_reads]. destruct (negb _); [done|].
    apply (checked_accepted _ _ _ _ _ _ _ (CompletePortal now pid uid b token) eq_refl) in Hch as (i & ?). eauto.
  - unfold stripe_webhook in Hch. destruct (negb (stripe_enabled _)); [done|]. destruct (String.eqb _ ""); [done|].
    destruct (String.eqb sig ""); [done|]. destruct (signature_ok _ _ _ _) eqn:Hsig; cbn [negb] in Hch; [|done].
    destruct (loads body) as [event|] eqn:Hl; [|done]. destruct (webhook_event event) as [[[pid sid]|]|] eqn:He; [|done..].
    rewrite bind_gets in Hch. cbn [work] in Hch. destruct (intents d !! pid) as [j|] eqn:Hj; [|done].
    destruct (String.eqb (pi_status j) _); [done|]. apply settle_changes in Hch as (i & Hi & Hr & Hv).
    exists pid, i. split_and!; [done|done|]. eapply verified_event; [done|exact Hv|]. intros s ->. split; [done|]. by exists event.
  - unfold bind in Hch. destruct (centralpay_return _ _ _ _ _ _ _) as [r s] eqn:Hc in Hch.
    assert (Hs : s ≠ mkSession d d) by (by destruct r). clear Hch. unfold centralpay_return in Hc.
    destruct (String.eqb _ ""); [injection Hc as ? ?; congruence|]. rewrite bind_gets in Hc. cbn [work] in Hc.
    set (pid := intent_id_from_order_id oid) in Hc. destruct (intents d !! pid) as [j|]; [|injection Hc as ? ?; congruence].
    destruct (negb _); [injection Hc as ? ?; congruence|]. destruct (String.eqb (pi_status j) _); [injection Hc as ? ?; congruence|].
    assert (Hch : (settle paid post pr now pid (mkCompletion false None None None (Some oid)) token (mkSession d d)).2 ≠ mkSession d d).
    { destruct (settle _ _ _ _ _ _ _ _) as [[] s'] in Hc |- *; injection Hc as <- <-; exact Hs. }
    apply settle_changes in Hch as (i & Hi & Hr & Hv). exists pid, i. split_and!; [done|done|]. by eapply verified_return.
Qed.

(** C20. A payment of a registered provider is taken as done only when that provider says
    so.  Whatever a completion request, a Stripe event or a CentralPay return holds, the
    database changes only if an open intent is confirmed - the demo token the intent was
    issued, a Stripe event with a valid signature for this very intent and its session,
    or CentralPay's answer for its order with exactly its amount; never for a card
    payment - or has no registered provider: [get_provider] then falls back on the
    manual one, which asks for nothing ([unregistered_gateway_credits]). *)
Theorem callbacks_need_confirmation pr cb d :
  (run_session (run_callback pr cb) d).2 ≠ d →
  ∃ pid i, intents d !! pid = Some i ∧ Payments.reviewable_status (pi_status i) = true ∧
    (confirmed pr cb pid i ∨ manually_settled pr i).
Proof.
  unfold run_session. destruct (run_callback pr cb (mkSession d d)) as [r s] eqn:E. cbn [snd]. intros Hs.
  apply handler_accepted. rewrite E. cbn. intros ->. done.
Qed.

(** *** Settling a verified top-up *)
Lemma settle_topup pr now pid payload token d i :
  intents d !! pid = Some i → pi_kind i = "topup"%string → Payments.reviewable_status (pi_status i) = true →
  verify paid post (get_provider (registry pr) (pi_provider i)) (config pr) pid i (extra_of pr pid) payload = Ok true →
  ∃ s, settle paid post pr now pid payload token (mkSession d d) = (Ok tt, s) ∧
       PaymentFacts.topup_credits pid (saved s) = S (PaymentFacts.topup_credits pid d) ∧
       (pi_status <$> intents (saved s) !! pid) = Some "completed"%string.
Proof.
  intros Hi Hk Hr Hv. unfold settle. rewrite (bind_ok _ _ _ _ _ (PaymentFacts.the_intent_run d d pid i Hi)), Hv.
  unfold Payments.complete_payment. rewrite (bind_ok _ _ _ _ _ (PaymentFacts.the_intent_run d d pid i Hi)).
  destruct (String.eqb_spec (pi_status i) "completed") as [Hc|_]; [by rewrite Hc in Hr|]. rewrite Hr, Hk.
  change (String.eqb "topup" "topup") with true. cbn [negb].
  destruct (PaymentFacts.apply_topup_any now pid i d i Hi Hk) as ([d1 d1'] & Ht & Hg).
  rewrite (bind_ok _ _ _ _ _ Ht). destruct Hg as [(H1 & _ & j & Hj & _) _]. cbn [work] in Hj, H1. cbn.
  eexists. split; [reflexivity|]. cbn [saved]. split; [|cbn; by rewrite lookup_alter_eq, Hj].
  change (PaymentFacts.topup_credits pid d1 = S (PaymentFacts.topup_credits pid d)). rewrite (H1 pid).
  unfold PaymentFacts.credits_of. rewrite decide_True by done. lia.
Qed.

Lemma complete_topup pr now pid body token d i :
  is_enabled d "billing" = true → intents d !! pid = Some i → pi_kind i = "topup"%string →
  pi_provider i ≠ "card"%string → (pi_provider i = "demo"%string → demo_enabled (config pr) = true) →
  complete_wallet_payment paid post pr now pid (pi_admin_id i) body token (mkSession d d) =
  settle paid post pr now pid (token_body body) token (mkSession d d).
Proof.
  intros Hb Hi Hk Hp Hd. unfold complete_wallet_payment, Endpoints._require_billing_enabled.
  rewrite (bind_ok _ _ _ tt (mkSession d d)) by (rewrite bind_gets; cbn [work]; by rewrite Hb).
  rewrite (bind_ok _ _ _ i (mkSession d d)).
  2:{ unfold Payments.get_intent_for_admin. rewrite (bind_ok _ _ _ _ _ (PaymentFacts.the_intent_run d d pid i Hi)). by rewrite Z.eqb_refl. }
  rewrite Hk. change (negb (String.eqb "topup" "topup")) with false. cbv iota. unfold complete_checked.
  destruct (String.eqb_spec (pi_provider i) "card"); [done|]. destruct (String.eqb_spec (pi_provider i) "demo") as [E|]; [|done].
  by rewrite (Hd E).
Qed.

Lemma unregistered_manual pr name : registry pr !! name = None → name ≠ ""%string →
  get_provider (registry pr) name = ManualProvider.
Proof. intros Hr Hn. unfold get_provider. destruct (String.eqb_spec name ""); [done|]. by rewrite Hr. Qed.

(** A gateway that is switched off settles everything: the registry answers for an unknown
    provider with the manual one, which verifies without a check.  The owner of an
    open top-up through a gateway that is no longer registered gets the wallet
    credited by asking for completion, with any body and no payment. *)
Theorem unregistered_gateway_credits pr now pid body token d i :
  is_enabled d "billing" = true → intents d !! pid = Some i → pi_kind i = "topup"%string →
  Payments.reviewable_status (pi_status i) = true → pi_provider i ∉ ["card"; "demo"; ""]%string →
  registry pr !! pi_provider i = None →
  let '(res, d') := run_session (complete_wallet_payment paid post pr now pid (pi_admin_id i) body token) d in
  res = Ok tt ∧ PaymentFacts.topup_credits pid d' = S (PaymentFacts.topup_credits pid d) ∧
  (pi_status <$> intents d' !! pid) = Some "completed"%string.
Proof.
  intros Hb Hi Hk Hr Hp Hreg. rewrite !not_elem_of_cons in Hp. destruct Hp as (Hp1 & Hp2 & Hp3 & _). unfold run_session.
  rewrite (complete_topup pr now pid body token d i) by done.
  destruct (settle_topup pr now pid (token_body body) token d i) as (s & -> & H1 & H2); [done..| |by split_and!].
  by rewrite unregistered_manual by done.
Qed.


(** *** Creating a top-up *)
Lemma topup_created sha1 new_id choice pr an now aid amount name card_id base d gx :
  is_enabled d "billing" = true → Payments.RESELLER_TOPUP_MIN_AMOUNT ≤ amount ≤ get_int d "payment.max_amount" 100000000 →
  (_require_provider sha1 new_id choice loads pr name (card_admins pr !! aid) "topup") (mkSession d d) = (Ok tt, mkSession d d) →
  (∀ i, create_payment sha1 new_id choice loads (get_provider (registry pr) name) pr an (Wallet.next_key (intents d)) i card_id base = Ok gx) →
  let i := mkIntent "topup" aid None None amount name "pending" no_extra now None in
  run_session (topup_wallet sha1 new_id choice loads pr an now aid false amount name card_id base) d =
  (Ok (Wallet.next_key (intents d)), d <| intents := <[Wallet.next_key (intents d) := i]> (intents d) |>).
Proof.
  intros Hb [Ha1 Ha2] Hq Hc. cbv zeta. unfold run_session, topup_wallet, Endpoints._require_billing_enabled.
  rewrite (bind_ok _ _ _ tt (mkSession d d)) by (rewrite bind_gets; cbn [work]; by rewrite Hb).
  rewrite bind_gets. cbn [work]. unfold Payments.create_topup_payment. rewrite (bind_ok _ _ _ _ _ Hq).
  rewrite (bind_ok _ _ _ amount (mkSession d d)).
  2:{ unfold Payments._validate_amount. rewrite !bind_gets. cbn [work]. rewrite (proj2 (Z.ltb_ge _ _)), (proj2 (Z.ltb_ge _ _)) by lia. done. }
  unfold Payments.start_checkout. rewrite bind_gets. cbn [work]. rewrite bind_modify. unfold bind at 1, commit at 1. cbn [work].
  rewrite Hc. unfold bind, Payments.set_intent, modify, commit, ret, update_intent_row. cbn [work saved]. f_equal.
  cbn. f_equal. by rewrite alter_insert_eq.
Qed.
Lemma requires_card sha1 new_id choice pr name aid a d :
  lower (strip name) = "card"%string → registry pr !! "card"%string = Some CardProvider → card_admins pr !! aid = Some a →
  list_topup_cards_for_admin sha1 new_id loads (platform_cards pr) (card_admins pr) (Some a) false ≠ [] →
  _require_provider sha1 new_id choice loads pr name (card_admins pr !! aid) "topup" (mkSession d d) = (Ok tt, mkSession d d).
Proof.
  intros Hn Hreg Ha Hl. unfold _require_provider. cbv zeta. rewrite Hn. change (String.eqb "card" "demo") with false. cbn [andb].
  unfold provider_supports_intent. rewrite Hreg, bool_decide_eq_true_2 by eauto. change (String.eqb "card" "manual") with false. cbn [andb negb].
  change (String.eqb "card" "centralpay") with false. cbn [andb]. change (String.eqb "card" "card") with true.
  change (String.eqb "topup" "topup") with true. cbv iota. rewrite Ha.
  by destruct (list_topup_cards_for_admin _ _ _ _ _ _ _).
Qed.


(** A card that is offered for a top-up can be paid to, and it is the payee's. *)
Lemma offered_card_works sha1 new_id choice gateways p admins aid a card_id :
  (∀ l, l ≠ [] → ∃ c, c ∈ l ∧ choice l = Some c) → "card"%string ∉ gateways → aid ≠ 0 → admins !! aid = Some a →
  "card"%string ∈ topup_providers_for_admin sha1 new_id loads gateways p admins (Some a) →
  ∃ c, card_create_payment sha1 new_id choice loads p admins "topup" card_id aid = Ok c ∧
       c ∈ list_topup_cards_for_admin sha1 new_id loads p admins (Some a) false.
Proof.
  intros Hch Hg Ha0 Ha Hin. unfold card_create_payment. rewrite (proj2 (Z.eqb_neq _ _) Ha0), Ha.
  change (String.eqb "topup" "topup") with true. cbv iota.
  assert (Hl : list_topup_cards_for_admin sha1 new_id loads p admins (Some a) false ≠ []).
  { unfold topup_providers_for_admin in Hin. destruct (truthy (ca_parent_admin_id a)) eqn:Ht.
    - destruct (list_topup_cards_for_admin _ _ _ _ _ _ _); [by apply not_elem_of_nil in Hin | done].
    - unfold list_topup_cards_for_admin, resolve_topup_payee. rewrite Ht. rewrite elem_of_app in Hin.
      destruct (list_platform_cards _ _ _ _ _); [|done]. destruct Hin as [Hin | Hin]; [done | by apply not_elem_of_nil in Hin]. }
  assert (He : enabled_payment_cards (list_topup_cards_for_admin sha1 new_id loads p admins (Some a) false) =
               list_topup_cards_for_admin sha1 new_id loads p admins (Some a) false).
  { assert (Hidem : ∀ l, enabled_payment_cards (enabled_payment_cards l) = enabled_payment_cards l).
    { intros l. unfold enabled_payment_cards. rewrite list_filter_filter. apply list_filter_iff. tauto. }
    unfold list_topup_cards_for_admin, list_cards_for_admin, list_platform_cards. repeat case_match; try done; apply Hidem. }
  set (l := list_topup_cards_for_admin _ _ _ _ _ _ _) in *. clearbody l. unfold pick_payment_card. rewrite He.
  destruct l as [|c t] eqn:E; [done|]. rewrite <- E in *. destruct (Hch l Hl) as (c' & Hc' & Hc).
  set (byid := match (if String.eqb (strip card_id) "" then _ else _) with Some _ => _ | None => _ end).
  destruct byid as [x|] eqn:Hb; [|by exists c'; rewrite Hc]. exists x. split; [done|]. subst byid.
  destruct (String.eqb (strip card_id) ""); [done|]. destruct (String.eqb (strip card_id) ""); [done|].
  assert (Hx : x ∈ filter (λ c, cd_id c = strip card_id) l) by (apply head_Some_elem_of in Hb; done).
  by apply list_elem_of_filter in Hx as [_ Hx].
Qed.
End external.
End GatewayFacts.

Module GatewayExamples.
Import Py Cards Gateways CardFacts GatewayFacts.

#[local] Instance no_repr : Repr := λ _, ""%string.
Definition digest (_ : string) : string := "0123456789abcdef0123456789abcdef01234567".
Definition no_json (_ : string) : option json := None.
Definition first_card (l : list Card) : option Card := head l.

Definition seller : CardAdmin := mkCardAdmin false None false true JNull None None None.
Definition form : json := JArr
  [JObj (list_to_map [("number", JStr " 6037 9911 "); ("holder", JStr "Ann "); ("enabled", JStr "no")]%string);
   JObj (list_to_map [("card_number", JNum 5022); ("id", JStr "b")]%string); JStr "x"].
Definition no_cards : PlatformCards := mkPlatformCards false JNull "" "" "".

Lemma digest_hex s : trimmed (take_str 16 (digest s)) ∧ take_str 16 (digest s) ≠ ""%string.
Proof. split; [split; reflexivity | done]. Qed.

Lemma saved_cards_roundtrip_witness :
  load_admin_cards_raw digest "0" no_json no_cards (save_admin_cards digest "0" no_json true form seller).2 =
  [mkCard "0123456789abcdef" "60379911" "Ann" "" false; mkCard "b" "5022" "" "" true].
Proof.
  pose proof (saved_cards_roundtrip digest "0" no_json digest_hex true form seller no_cards eq_refl) as H.
  etransitivity; [exact (proj1 H)|]. vm_compute. reflexivity.
Defined.

(** A shop whose customers pay by CentralPay or to the platform's card. *)
Definition settings_on : PayConfig := mkPayConfig true false false "" "" "key" "" "panel.example/".
Definition owner_card : PlatformCards :=
  mkPlatformCards true (JArr [card_json (mkCard "m" "1111" "Boss" "Bank" true)]) "1111" "Boss" "Bank".
Definition proc : Process := mkProcess settings_on (reload_providers settings_on) owner_card {[7 := seller]} ∅.
Definition answers : Answers := mkAnswers "t" (λ _ _, Unreachable) (λ _ _ _ _,
  Response 200 "" (Some (JObj (list_to_map [("success", JBool true);
    ("data", JObj (list_to_map [("redirectUrl", JStr "https://pay")]%string))]%string)))).
Definition receipt (n : Z) : obj := list_to_map [("success", JBool true);
  ("data", JObj (list_to_map [("amount", JNum n)]%string))]%string.
Definition paid_order (order : Z) : Reply :=
  if order =? external_order_id 5 then Response 200 "" (Some (JObj (receipt 2000000))) else Unreachable.
Definition unpaid (_ : string) : bool := false.
Definition open_topup : PaymentIntent := mkIntent "topup" 7 None None 2000000 "centralpay" "pending" no_extra 0 None.
Definition till : DB := empty_db <| flags := {["billing"%string := true]} |> <| intents := {[5 := open_topup]} |>.


(** The same return, seen by the rule on confirmations. *)
Lemma callbacks_need_confirmation_witness :
  ∃ pid i, intents till !! pid = Some i ∧ Payments.reviewable_status (pi_status i) = true ∧
    confirmed paid_order (λ _ _, ""%string) no_json proc (CentralPayReturn 9 2100000005 "") pid i.
Proof.
  destruct (callbacks_need_confirmation unpaid paid_order (λ _ _, ""%string) no_json proc
    (CentralPayReturn 9 2100000005 "") till) as (pid & i & Hi & Hr & [Hc|Hm]).
  - intros H. apply (f_equal (λ d, length (transactions d))) in H. vm_compute in H. discriminate H.
  - by exists pid, i.
  - cbn in Hi. apply lookup_singleton_Some in Hi as [<- <-]. vm_compute in Hm. discriminate Hm.
Defined.

(** The master switch is off: the same top-up is credited for the asking. *)
Definition settings_off : PayConfig := mkPayConfig false false false "" "" "key" "" "".
Definition proc_off : Process := mkProcess settings_off (reload_providers settings_off) owner_card ∅ ∅.
Definition silent (_ : Z) : Reply := Unreachable.

Lemma unregistered_gateway_credits_witness :
  PaymentFacts.topup_credits 5 (run_session (complete_wallet_payment unpaid silent proc_off 9 5 7 None "") till).2 = 1%nat.
Proof.
  assert (Hp : "centralpay"%string ∉ ["card"; "demo"; ""]%string) by (apply (bool_decide_eq_true_1 _); vm_compute; reflexivity).
  pose proof (unregistered_gateway_credits unpaid silent proc_off 9 5 None "" till open_topup eq_refl eq_refl eq_refl eq_refl Hp eq_refl) as H.
  change (pi_admin_id open_topup) with 7 in H. revert H. destruct (run_session _ till) as [r d'].
  intros (_ & H & _). exact H.
Defined.

Definition bare : DB := empty_db <| flags := {["billing"%string := true]} |>.

(** The wallet after the two requests, with no payment made. *)
Example free_money :
  let d1 := (run_session (topup_wallet digest "0" first_card no_json proc answers 9 7 false 2000000 " Card" "" "") bare).2 in
  let d2 := (run_session (complete_wallet_payment unpaid silent proc 9 1 7 None "") d1).2 in
  (wallets d1 !! 7, wallets d2 !! 7) = (None, Some 2000000).
Proof. vm_compute. reflexivity. Qed.
End GatewayExamples.
