(* ===== verification/Storefront.v ===== *)
(** * Storefront: public sign-up, invitations and reseller applications

    [app/storefront/__init__.py] and the handlers of [app/routers/storefront.py].

    The storefront columns of an admin are a [Front] under the admin's id, the
    applications and the branding domains tables of their own beside the accounts of
    [Resellers].  The three platform switches are an argument, as are the random
    invite codes, the password hash and whether [UserCreate] accepts a request (it asks
    the core's configuration).  Texts that are only shown (branding, headlines, links)
    and contact columns are left out, and the rate limit of the public handlers is
    that of [LoginLimit]. *)
From S2P Require Import Prelude.
From S2P Require Import Store.
From S2P Require Import Users.
From S2P Require Import Wallet.
From S2P Require Import Tariffs.
From S2P Require Import Portal.
From S2P Require Import SubLinks.
From S2P Require Import BulkCreate.
From S2P Require Import Resellers.

Module Storefront.
Import Lifecycle Wallet Tariffs Portal Rbac Resellers.

Record Front := mkFront {
  ft_invite_code : option string;
  ft_public_signup_enabled : bool;
  ft_reseller_apply_enabled : bool;
  ft_storefront_headline : option string;
  ft_storefront_tagline : option string }.
#[export] Instance eta_Front : Eta Front := λ f, mkFront (ft_invite_code f) (ft_public_signup_enabled f)
  (ft_reseller_apply_enabled f) (ft_storefront_headline f) (ft_storefront_tagline f).

(** The columns of a new admin row. *)
Definition new_front : Front := mkFront None true true None None.

Record ResellerApplication := mkApplication {
  ap_username : string;
  ap_password_plain : option string;
  ap_status : string;
  ap_parent_admin_id : option Z;
  ap_tenant_id : option Z;
  ap_invite_code : option string;
  ap_created_admin_id : option Z;
  ap_reviewed_by_admin_id : option Z;
  ap_reviewed_at : option Z;
  ap_reject_reason : option string }.
#[export] Instance eta_Application : Eta ResellerApplication := λ a, mkApplication (ap_username a) (ap_password_plain a)
  (ap_status a) (ap_parent_admin_id a) (ap_tenant_id a) (ap_invite_code a) (ap_created_admin_id a)
  (ap_reviewed_by_admin_id a) (ap_reviewed_at a) (ap_reject_reason a).

Record BrandingSettings := mkBranding {
  br_domain : string;
  br_tenant_id : option Z;
  br_admin_id : option Z }.

Record ShopDB := mkShop {
  sh_r : ResellerDB;
  sh_fronts : gmap Z Front;
  sh_apps : gmap Z ResellerApplication;
  sh_brandings : list BrandingSettings;
  sh_panels : SubLinks.SubDB }.
#[export] Instance eta_ShopDB : Eta ShopDB := λ s, mkShop (sh_r s) (sh_fronts s) (sh_apps s) (sh_brandings s) (sh_panels s).

Notation Shop := (M ShopDB).

(** An account operation inside a session whose other tables have no pending change. *)
Definition in_shop {A} (m : R A) : Shop A := λ s,
  let '(r, s') := m (mkSession (sh_r (work s)) (sh_r (saved s))) in
  (r, mkSession ((work s) <| sh_r := work s' |>) ((saved s) <| sh_r := saved s' |>)).

Definition front_of (s : ShopDB) (aid : Z) : Front := default new_front (sh_fronts s !! aid).
Definition the_admins (s : ShopDB) : gmap Z Admin := admins (r_db (sh_r s)).
Definition on_front (aid : Z) (f : Front → Front) (s : ShopDB) : ShopDB :=
  s <| sh_fronts := <[aid := f (front_of s aid)]> (sh_fronts s) |>.

(** ** Invite codes *)

(** [Admin.invite_code == code] *)
Definition admin_by_invite (s : ShopDB) (code : string) : option (Z * Admin) :=
  head (filter (λ x, ft_invite_code (front_of s x.1) = Some code) (map_to_list (the_admins s))).

(** [codes]: the random codes of the up to twelve attempts. *)
Definition ensure_invite_code (codes : list string) (aid : Z) : Shop string :=
  let* f := gets (λ s, front_of s aid) in
  match ft_invite_code f with
  | Some (String _ _ as code) => ret code
  | _ =>
      let* free := gets (λ s, head (filter (λ c, admin_by_invite s c = None) (take 12 codes))) in
      match free with
      | Some code =>
          modify (on_front aid (λ f, f <| ft_invite_code := Some code |>)) ;;;
          commit ;;;
          ret code
      | None => raise (HTTPException 500 "Could not allocate invite code")
      end
  end.

Definition rotate_invite_code (codes : list string) (aid : Z) : Shop string :=
  modify (on_front aid (λ f, f <| ft_invite_code := None |>)) ;;;
  commit ;;;
  ensure_invite_code codes aid.

(** ** Whose store *)
Record StoreSettings := mkStoreSettings {
  st_enabled : bool;
  st_public_signup_enabled : bool;
  st_reseller_apply_enabled : bool }.

Record Ctx := mkCtx {
  cx_owner : option (Z * Admin);
  cx_tenant_id : option Z;
  cx_signup_enabled : bool;
  cx_reseller_apply_enabled : bool;
  cx_ref : option string;
  cx_sudo_invite : bool }.

(** [(s or "").strip().lower() or None] *)
Definition given (s : option string) : option string :=
  let t := lower (strip (default ""%string s)) in if String.eqb t "" then None else Some t.

(** [s.split(":")[0]] *)
Fixpoint upto_colon (l : list Ascii.ascii) : list Ascii.ascii :=
  match l with
  | [] => []
  | c :: l => if bool_decide (c = Ascii.ascii_of_nat 58) then [] else c :: upto_colon l
  end.
Definition before_colon (s : string) : string :=
  String.string_of_list_ascii (upto_colon (String.list_ascii_of_string s)).

Definition admin_at (s : ShopDB) (aid : option Z) : option (Z * Admin) :=
  if truthy aid then (λ a, (or0 aid, a)) <$> the_admins s !! or0 aid else None.

Definition tenant_by_slug (s : ShopDB) (slug : string) : option (Z * Tenant) :=
  head (filter (λ x, tn_slug x.2 = slug) (by_id (r_tenants (sh_r s)))).
Definition tenant_at (s : ShopDB) (tid : Z) : option (Z * Tenant) := (λ t, (tid, t)) <$> r_tenants (sh_r s) !! tid.

(** The store a domain belongs to; [None]: the domain has no tenant. *)
Definition by_domain (s : ShopDB) (host : string) : option (option (Z * Admin) * option (Z * Tenant)) :=
  match head (filter (λ b, br_domain b = host) (sh_brandings s)) with
  | Some b =>
      match br_tenant_id b with
      | None => None
      | Some tid =>
          let tenant_row := tenant_at s tid in
          Some (if truthy (br_admin_id b) then admin_at s (br_admin_id b)
                else tenant_row ≫= λ t, admin_at s (tn_owner_admin_id t.2), tenant_row)
      end
  | None => None
  end.

Definition ctx_of (cfg : StoreSettings) (s : ShopDB) (owner : option (Z * Admin)) (tenant_row : option (Z * Tenant))
    (invite : option string) (sudo_invite : bool) : Ctx :=
  let allows (g : Front → bool) := match owner with Some o => g (front_of s o.1) | None => true end in
  mkCtx owner
    (match tenant_row with Some t => Some t.1 | None => owner ≫= λ o, a_tenant_id o.2 end)
    (st_enabled cfg && st_public_signup_enabled cfg && allows ft_public_signup_enabled)
    (st_enabled cfg && st_reseller_apply_enabled cfg && allows ft_reseller_apply_enabled)
    invite sudo_invite.

Definition resolve_context (cfg : StoreSettings) (host_header tenant domain ref : option string) (s : ShopDB) : result Ctx :=
  let host := lower (strip (match domain with
                            | Some (String _ _ as d) => d
                            | _ => before_colon (default ""%string host_header) end)) in
  match given ref with
  | Some code =>
      match admin_by_invite s code with
      | None => Raise (HTTPException 404 "Invite code not found")
      | Some o =>
          if a_is_sudo o.2 then Ok (ctx_of cfg s None None (Some code) true)
          else Ok (ctx_of cfg s (Some o)
                     (if truthy (a_tenant_id o.2) then tenant_at s (or0 (a_tenant_id o.2)) else None) (Some code) false)
      end
  | None =>
      match match given tenant with
            | None => Ok (None, None)
            | Some slug =>
                match tenant_by_slug s slug with
                | None => Raise (HTTPException 404 "Store not found")
                | Some t => Ok (admin_at s (tn_owner_admin_id t.2), Some t)
                end
            end with
      | Raise e => Raise e
      | Ok (Some o, t) => Ok (ctx_of cfg s (Some o) t None false)
      | Ok (None, t) =>
          let '(o, t) := if String.eqb host "" then (None, t) else default (None, t) (by_domain s host) in
          Ok (ctx_of cfg s o t None false)
      end
  end.

Definition public_plans_for_owner (d : DB) (owner : option (Z * Admin)) : list Plan :=
  match owner with
  | Some o => PlanOps.get_plans_for_user_reseller d o.1 true
  | None => PlanOps.get_global_plans d true
  end.

(** ** Customers *)

(** The checks both public requests begin with; the name is normalised. *)
Definition newcomer_name (username password : string) : result string :=
  let username := lower (strip username) in
  if negb (username_format_ok username) then Raise (HTTPException 400 "Username only can be 3 to 32 characters")
  else if (String.length password <? 4)%nat then Raise (HTTPException 400 "Password must be at least 4 characters")
  else Ok username.

Definition register_customer (now : Z) (ctx : Ctx) (username password : string) (user_valid : bool) : Shop Z :=
  if negb (cx_signup_enabled ctx) then raise (HTTPException 403 "Public signup is disabled")
  else match newcomer_name username password with
  | Raise e => raise e
  | Ok username =>
      let* taken := gets (λ s, negb (is_none (find_user (r_db (sh_r s)) username))
                               || negb (is_none (get_admin (sh_r s) username))) in
      if taken then raise (HTTPException 409 "Username already exists")
      else if negb user_valid then raise (HTTPException 400 "Invalid user")
      else
        let* uid := in_shop (in_db (value_error_400
                      (create_user now username (cx_owner ctx) (Some 0) (Some 0) None None None))) in
        modify (λ s, match PanelBalance.default_panel_for_create (sh_panels s) (cx_owner ctx) with
                     | Some e => s <| sh_panels := PanelBalance.bind_user_to_panel uid username e "public-signup" (sh_panels s) |>
                     | None => s
                     end) ;;;
        commit ;;;
        let* free := gets (λ s, filter (λ p, p_price p = 0) (public_plans_for_owner (r_db (sh_r s)) (cx_owner ctx))) in
        match free with
        | plan :: _ => swallow (in_shop (in_db (apply_plan_to_user now uid plan)))
        | [] => ret tt
        end ;;;
        ret uid
  end.

(** ** Resellers *)
Section review.
(** The password hash, and whether the database enforces foreign keys. *)
Context (hash : string → string) (enforced : bool).

Inductive Applied := Created (aid : Z) | Pending (app : Z).

Definition top_level_body (username password : string) : AdminCreate :=
  mkAdminCreate username (hash password) false (Some "reseller"%string) None None None None 0.

(** [except Exception as exc: raise HTTPException(400)] *)
Definition other_error_400 {D A} (m : M D A) : M D A := λ s,
  match m s with
  | (Raise (HTTPException st msg), s') => (Raise (HTTPException st msg), s')
  | (Raise _, s') => (Raise (HTTPException 400 "error"), s')
  | r => r
  end.

Definition apply_reseller (ctx : Ctx) (username password : string) : Shop Applied :=
  if negb (cx_reseller_apply_enabled ctx) then raise (HTTPException 403 "Reseller applications are disabled")
  else match newcomer_name username password with
  | Raise e => raise e
  | Ok username =>
      let* taken := gets (λ s, negb (is_none (get_admin (sh_r s) username))
                               || negb (is_none (find_user (r_db (sh_r s)) username))) in
      if taken then raise (HTTPException 409 "Username already exists")
      else
      let* pending := gets (λ s, existsb (λ x, String.eqb (ap_username x.2) username && String.eqb (ap_status x.2) "pending")
                                   (map_to_list (sh_apps s))) in
      if pending then raise (HTTPException 409 "Application already pending")
      else
      match cx_owner ctx, cx_ref ctx with
      | Some parent, Some _ =>
          let* cid := in_shop (other_error_400 (create_sub_reseller parent username (hash password) None None None)) in
          ret (Created cid)
      | None, Some _ =>
          if cx_sudo_invite ctx
          then let* aid := in_shop (create_admin (top_level_body username password)) in ret (Created aid)
          else
            let* i := gets (λ s, next_key (sh_apps s)) in
            modify (λ s, s <| sh_apps := <[i := mkApplication username (Some password) "pending" None
                                (cx_tenant_id ctx) (cx_ref ctx) None None None None]> (sh_apps s) |>) ;;;
            commit ;;; ret (Pending i)
      | _, None =>
          let* i := gets (λ s, next_key (sh_apps s)) in
          modify (λ s, s <| sh_apps := <[i := mkApplication username (Some password) "pending" (fst <$> cx_owner ctx)
                              (cx_tenant_id ctx) None None None None None]> (sh_apps s) |>) ;;;
          commit ;;; ret (Pending i)
      end
  end.

(** The reviewer: id and [is_sudo]; 0 for the owner of the environment, who has no row. *)
Record Reviewer := mkReviewer { rv_id : Z; rv_is_sudo : bool }.

Definition application_visible (actor : Reviewer) (status : option string) (a : ResellerApplication) : bool :=
  match status with Some (String _ _ as st) => String.eqb (ap_status a) st | _ => true end
  && (rv_is_sudo actor || bool_decide (ap_parent_admin_id a = Some (rv_id actor))).

Definition list_applications (actor : Reviewer) (status : option string) (s : ShopDB) : list (Z * ResellerApplication) :=
  take 200 (rev (filter (λ x, application_visible actor status x.2 = true) (by_id (sh_apps s)))).

(** What both decisions check first. *)
Definition open_application (actor : Reviewer) (app_id : Z) : Shop ResellerApplication :=
  let* app := gets (λ s, sh_apps s !! app_id) in
  match app with
  | None => raise (HTTPException 404 "Application not found")
  | Some app =>
      if negb (String.eqb (ap_status app) "pending") then raise (HTTPException 400 ("Application is " ++ ap_status app))
      else if negb (rv_is_sudo actor) && negb (bool_decide (ap_parent_admin_id app = Some (rv_id actor)))
      then raise (HTTPException 403 "Not your application")
      else ret app
  end.

(** The commit of a decision: [reviewed_by_admin_id] refers to an admin. *)
Definition commit_decision (actor : Reviewer) (app_id : Z) (f : ResellerApplication → ResellerApplication) : Shop unit :=
  modify (λ s, s <| sh_apps := alter f app_id (sh_apps s) |>) ;;;
  let* known := gets (λ s, negb (is_none (the_admins s !! rv_id actor))) in
  if enforced && negb known then raise integrity_error else commit.

Definition approve_application (now : Z) (actor : Reviewer) (app_id : Z) : Shop Z :=
  let* app := open_application actor app_id in
  match ap_password_plain app with
  | None | Some EmptyString => raise (HTTPException 400 "Application password missing")
  | Some password =>
      let* taken := gets (λ s, get_admin (sh_r s) (ap_username app)) in
      if negb (is_none taken) then raise (HTTPException 409 "Username already taken")
      else
      let* created :=
        if truthy (ap_parent_admin_id app)
        then let* parent := gets (λ s, admin_at s (ap_parent_admin_id app)) in
             match parent with
             | None => raise (HTTPException 400 "Parent reseller missing")
             | Some parent => in_shop (create_sub_reseller parent (ap_username app) (hash password) None None None)
             end
        else if negb (rv_is_sudo actor)
             then raise (HTTPException 403 "Only platform owner can approve top-level resellers")
             else in_shop (create_admin (top_level_body (ap_username app) password)) in
      commit_decision actor app_id (λ a, a <| ap_status := "approved"%string |> <| ap_password_plain := None |>
        <| ap_created_admin_id := Some created |> <| ap_reviewed_by_admin_id := Some (rv_id actor) |>
        <| ap_reviewed_at := Some now |>) ;;;
      ret created
  end.

(** [reason]: the text as stored. *)
Definition reject_application (now : Z) (actor : Reviewer) (app_id : Z) (reason : option string) : Shop unit :=
  let* app := open_application actor app_id in
  commit_decision actor app_id (λ a, a <| ap_status := "rejected"%string |> <| ap_password_plain := None |>
    <| ap_reject_reason := reason |> <| ap_reviewed_by_admin_id := Some (rv_id actor) |> <| ap_reviewed_at := Some now |>).

(** ** The handlers *)

(** The row of the caller, or the owner of the environment. *)
Definition reviewer_of (who : Actor) : Shop Reviewer :=
  let* row := gets (λ s, get_admin (sh_r s) (ac_username who)) in
  match row with
  | Some (aid, a) => ret (mkReviewer aid (a_is_sudo a))
  | None => if ac_is_sudo who then ret (mkReviewer 0 true) else raise (HTTPException 400 "Admin not found")
  end.

Definition permitted {A} (f : OverridesFile) (permission : string) (who : Actor) (m : Shop A) : Shop A :=
  match require_permission f permission who with Ok _ => m | Raise e => raise e end.

Definition approve_reseller_application (f : OverridesFile) (who : Actor) (now app_id : Z) : Shop Z :=
  permitted f "users:write" who (let* actor := reviewer_of who in approve_application now actor app_id).

Definition reject_reseller_application (f : OverridesFile) (who : Actor) (now app_id : Z) (reason : option string) : Shop unit :=
  permitted f "users:write" who (let* actor := reviewer_of who in reject_application now actor app_id reason).

Definition with_ctx {A} (cfg : StoreSettings) (host tenant ref : option string) (k : Ctx → Shop A) : Shop A :=
  let* c := gets (resolve_context cfg host tenant None ref) in
  match c with Ok c => k c | Raise e => raise e end.

Definition public_register (cfg : StoreSettings) (host tenant ref : option string) (now : Z) (username password : string)
    (user_valid : bool) : Shop Z :=
  with_ctx cfg host tenant ref (λ c, register_customer now c username password user_valid).

Definition public_reseller_apply (cfg : StoreSettings) (host tenant ref : option string) (username password : string) : Shop Applied :=
  with_ctx cfg host tenant ref (λ c, apply_reseller c username password).

Definition my_row (who : Actor) : Shop Z :=
  let* row := gets (λ s, get_admin (sh_r s) (ac_username who)) in
  match row with Some (aid, _) => ret aid | None => raise (HTTPException 400 "Admin not found") end.

Definition rotate_my_invite (f : OverridesFile) (who : Actor) (codes : list string) : Shop string :=
  permitted f "system:read" who (let* aid := my_row who in rotate_invite_code codes aid).

(** The reply of [mine_storefront] makes a code where there is none. *)
Definition get_my_storefront (f : OverridesFile) (who : Actor) (codes : list string) : Shop string :=
  permitted f "system:read" who (let* aid := my_row who in ensure_invite_code codes aid).

Definition cut_text (n : nat) (val : option string) : option string :=
  match val with
  | Some (String _ _ as v) => Some (String.string_of_list_ascii (take n (String.list_ascii_of_string (strip v))))
  | _ => None
  end.

(** [None]: the field is not in the body; a null flag is ignored, a null text stored. *)
Definition put_my_storefront (f : OverridesFile) (who : Actor) (codes : list string) (signup apply : option bool)
    (headline tagline : option (option string)) : Shop string :=
  permitted f "system:read" who (
    let* aid := my_row who in
    modify (on_front aid (λ x,
      mkFront (ft_invite_code x) (default (ft_public_signup_enabled x) signup) (default (ft_reseller_apply_enabled x) apply)
        (match headline with Some v => cut_text 256 v | None => ft_storefront_headline x end)
        (match tagline with Some v => cut_text 512 v | None => ft_storefront_tagline x end))) ;;;
    commit ;;;
    ensure_invite_code codes aid).

End review.
End Storefront.

(** ** Facts *)
Module StorefrontFacts.
Import Lifecycle Wallet Ledger Tariffs Portal Rbac Resellers ResellersFacts Storefront.

Definition is_pending (a : ResellerApplication) : Prop := ap_status a = "pending"%string.

(** *** Accounts that join *)

(** One account more, of this name, under this parent and not sudo. *)
Record joined (r : ResellerDB) (parent : option Z) (name : string) (aid : Z) (r' : ResellerDB) : Prop := {
  jn_fresh : admins (r_db r) !! aid = None;
  jn_id : 0 < aid;
  jn_free : get_admin r name = None;
  jn_row : ∃ a, admins (r_db r') = <[aid := a]> (admins (r_db r)) ∧ a_username a = name ∧
                a_is_sudo a = false ∧ a_parent_admin_id a = parent;
  jn_wf : accounts_wf r → accounts_wf r' }.

Lemma next_key_pos {A} (m : gmap Z A) : 0 < next_key m.
Proof.
  unfold next_key. enough (0 ≤ map_fold (λ k _ acc, Z.max k acc) 0 m) by lia.
  apply (map_fold_weak_ind (λ r _, 0 ≤ r)); [done|]. intros. lia.
Qed.

Lemma joined_top hash name pw r : get_admin r name = None →
  ∃ aid r', create_admin (top_level_body hash name pw) (mkSession r r) = (Ok aid, mkSession r' r') ∧ joined r None name aid r'.
Proof.
  intros Hn. pose proof (create_admin_runs (top_level_body hash name pw) r r) as H. change (an_username _) with name in H.
  rewrite Hn in H. destruct H as (r' & Hrun & Hadd). eexists _, r'. split; [exact Hrun|]. constructor.
  - apply next_key_fresh.
  - apply next_key_pos.
  - done.
  - eexists. split; [exact (aa_admins _ _ _ _ _ Hadd)|]. done.
  - intros Hw. exact (wf_added r r' (top_level_body hash name pw) Hw Hn Hadd).
Qed.

Lemma joined_child p name h r : admins (r_db r) !! p.1 = Some p.2 → get_admin r name = None →
  let run := create_sub_reseller p name h None None None (mkSession r r) in
  (∃ st msg, run = (Raise (HTTPException st msg), mkSession r r)) ∨
  (∃ aid r', run = (Ok aid, mkSession r' r') ∧ joined r (Some p.1) name aid r').
Proof.
  intros Hp Hn. cbv zeta. destruct p as [pid p]. cbn [fst snd] in *.
  pose proof (wf_create_sub_reseller pid p name h None None None r r Hp) as Hwf.
  destruct (create_sub_reseller_runs (pid, p) name h None None None r r) as [(_ & _ & ->)|(_ & [[_ ->]|(_ & r1 & Hadd & Hrun)])];
    [left; by eauto..|].
  right. rewrite Hrun in Hwf |- *. eexists _, _. split; [reflexivity|]. constructor.
  - apply next_key_fresh.
  - apply next_key_pos.
  - done.
  - eexists. split; [rewrite alter_admin_admins, (aa_admins _ _ _ _ _ Hadd), alter_insert_eq; reflexivity | done].
  - intros Hw. apply (Hwf (conj Hw Hw)).
Qed.

Lemma in_shop_run {A} (m : R A) s res r1 r2 : m (mkSession (sh_r s) (sh_r s)) = (res, mkSession r1 r2) →
  in_shop m (mkSession s s) = (res, mkSession (s <| sh_r := r1 |>) (s <| sh_r := r2 |>)).
Proof. intros H. unfold in_shop. cbn [work saved]. by rewrite H. Qed.

Lemma in_db_run {A} (m : M DB A) r res d1 d2 : m (mkSession (r_db r) (r_db r)) = (res, mkSession d1 d2) →
  in_db m (mkSession r r) = (res, mkSession (r <| r_db := d1 |>) (r <| r_db := d2 |>)).
Proof. intros H. unfold in_db. cbn [work saved]. by rewrite H. Qed.

Lemma same_r s : s <| sh_r := sh_r s |> = s.
Proof. by destruct s. Qed.

(** *** What one request can do *)
Inductive Cause :=
  | BySignup
  | ByFront
  | BySubmission
  | ByInvite (parent : option Z)
  | ByApproval (actor : Reviewer) (app : Z)
  | ByRejection (actor : Reviewer) (app : Z).

(** Who may decide on an application. *)
Definition may_decide (actor : Reviewer) (a : ResellerApplication) : Prop :=
  rv_is_sudo actor = true ∨ ap_parent_admin_id a = Some (rv_id actor).

Definition same_accounts (r r' : ResellerDB) : Prop :=
  admins (r_db r') = admins (r_db r) ∧ tenants (r_db r') = tenants (r_db r) ∧ r_accts r' = r_accts r ∧ r_tenants r' = r_tenants r.

Definition unused_by_others (s : ShopDB) (aid : Z) (code : option string) : Prop :=
  ∀ c j, code = Some c → j ≠ aid → is_Some (the_admins s !! j) → ft_invite_code (front_of s j) ≠ Some c.

Definition approved_with (now : Z) (actor : Reviewer) (aid : Z) (a : ResellerApplication) : ResellerApplication :=
  a <| ap_status := "approved"%string |> <| ap_password_plain := None |> <| ap_created_admin_id := Some aid |>
    <| ap_reviewed_by_admin_id := Some (rv_id actor) |> <| ap_reviewed_at := Some now |>.
Definition rejected_with (now : Z) (actor : Reviewer) (reason : option string) (a : ResellerApplication) : ResellerApplication :=
  a <| ap_status := "rejected"%string |> <| ap_password_plain := None |> <| ap_reject_reason := reason |>
    <| ap_reviewed_by_admin_id := Some (rv_id actor) |> <| ap_reviewed_at := Some now |>.

(** The parent an approved application leads to; a zero id counts as none. *)
Definition parent_of (a : ResellerApplication) : option Z :=
  if truthy (ap_parent_admin_id a) then ap_parent_admin_id a else None.

Inductive change (s : ShopDB) : Cause → ShopDB → Prop :=
  | ch_none c : change s c s
  | ch_user r' p' : same_accounts (sh_r s) r' → change s BySignup (s <| sh_r := r' |> <| sh_panels := p' |>)
  | ch_front aid f : is_Some (the_admins s !! aid) →
      ft_invite_code f = ft_invite_code (front_of s aid) ∨ unused_by_others s aid (ft_invite_code f) →
      change s ByFront (s <| sh_fronts := <[aid := f]> (sh_fronts s) |>)
  | ch_submitted i a pw : sh_apps s !! i = None → is_pending a → ap_password_plain a = Some pw → (4 ≤ String.length pw)%nat →
      (∀ j b, sh_apps s !! j = Some b → is_pending b → ap_username b ≠ ap_username a) →
      change s BySubmission (s <| sh_apps := <[i := a]> (sh_apps s) |>)
  | ch_invited parent name aid r' : joined (sh_r s) parent name aid r' →
      change s (ByInvite parent) (s <| sh_r := r' |>)
  | ch_approved now actor i a aid r' : sh_apps s !! i = Some a → is_pending a → may_decide actor a →
      (parent_of a = None → rv_is_sudo actor = true) → joined (sh_r s) (parent_of a) (ap_username a) aid r' →
      change s (ByApproval actor i)
        (s <| sh_r := r' |> <| sh_apps := <[i := approved_with now actor aid a]> (sh_apps s) |>)
  | ch_approval_lost actor i a aid r' : sh_apps s !! i = Some a → is_pending a → may_decide actor a →
      (parent_of a = None → rv_is_sudo actor = true) → joined (sh_r s) (parent_of a) (ap_username a) aid r' →
      change s (ByApproval actor i) (s <| sh_r := r' |>)
  | ch_rejected now actor i a reason : sh_apps s !! i = Some a → is_pending a → may_decide actor a →
      change s (ByRejection actor i) (s <| sh_apps := <[i := rejected_with now actor reason a]> (sh_apps s) |>).

(** *** Every request is one of them *)
Lemma invite_unused s c j : admin_by_invite s c = None → is_Some (the_admins s !! j) → ft_invite_code (front_of s j) ≠ Some c.
Proof.
  intros H [a Ha] Hc. unfold admin_by_invite in H. rewrite head_None in H.
  eapply (filter_nil_not_elem_of _ _ (j, a)) in H; [|exact Hc]. apply H. by apply elem_of_map_to_list.
Qed.

Lemma invite_owner s c o : admin_by_invite s c = Some o →
  the_admins s !! o.1 = Some o.2 ∧ ft_invite_code (front_of s o.1) = Some c.
Proof.
  intros H. apply head_Some_elem_of, list_elem_of_filter in H as [Hc Hin]. destruct o as [i a].
  by apply elem_of_map_to_list in Hin.
Qed.

Definition with_front (aid : Z) (f : Front) (s : ShopDB) : ShopDB := s <| sh_fronts := <[aid := f]> (sh_fronts s) |>.
Lemma front_with aid f s j : front_of (with_front aid f s) j = if decide (j = aid) then f else front_of s j.
Proof. unfold front_of, with_front. cbn. rewrite lookup_insert. repeat case_decide; by subst. Qed.

Lemma ensure_saved codes aid s :
  saved (ensure_invite_code codes aid (mkSession s s)).2 = s ∨
  ∃ c, admin_by_invite s c = None ∧ saved (ensure_invite_code codes aid (mkSession s s)).2 = with_front aid ((front_of s aid) <| ft_invite_code := Some c |>) s.
Proof.
  unfold ensure_invite_code. rewrite bind_gets. cbn [work].
  assert (Hgo : let m := (let* free := gets (λ s, head (filter (λ c, admin_by_invite s c = None) (take 12 codes))) in
      match free with
      | Some code => modify (on_front aid (λ f, f <| ft_invite_code := Some code |>)) ;;; commit ;;; ret code
      | None => raise (HTTPException 500 "Could not allocate invite code")
      end) in saved (m (mkSession s s)).2 = s ∨ ∃ c, admin_by_invite s c = None ∧
        saved (m (mkSession s s)).2 = with_front aid ((front_of s aid) <| ft_invite_code := Some c |>) s).
  { cbv zeta. rewrite bind_gets. cbn [work]. destruct (head _) as [c|] eqn:E; [right | by left].
    exists c. split; [|done]. by apply head_Some_elem_of, list_elem_of_filter in E as [? _]. }
  destruct (ft_invite_code (front_of s aid)) as [[|]|]; [exact Hgo | by left | exact Hgo].
Qed.

(** The front columns are written, then a code is made if there is none. *)
Lemma front_written codes aid f s : is_Some (the_admins s !! aid) →
  ft_invite_code f = ft_invite_code (front_of s aid) ∨ ft_invite_code f = None →
  change s ByFront (saved (ensure_invite_code codes aid (mkSession (with_front aid f s) (with_front aid f s))).2).
Proof.
  intros Ha Hf. destruct (ensure_saved codes aid (with_front aid f s)) as [->|(c & Hc & ->)].
  - apply ch_front; [done|]. destruct Hf as [->| ->]; [by left | by right].
  - rewrite front_with, decide_True by done.
    assert (E : ∀ g, with_front aid g (with_front aid f s) = with_front aid g s)
      by (intros g; unfold with_front; cbn; by rewrite insert_insert_eq).
    rewrite E. apply ch_front; [done|]. right. intros c' j [= <-] Hj Hs Hu.
    apply (invite_unused _ c j Hc); [exact Hs|]. rewrite front_with, decide_False by done. exact Hu.
Qed.

(** Signing up touches no account table. *)
Definition other_tables (d d' : DB) : Prop := admins d' = admins d ∧ tenants d' = tenants d.
Lemma create_user_others d0 now n a e dl dv su sd : preserves (other_tables d0) (create_user now n a e dl dv su sd).
Proof. unfold create_user. solve_preserves. by apply preserves_modify. Qed.
Lemma apply_plan_others d0 now uid plan : preserves (other_tables d0) (apply_plan_to_user now uid plan).
Proof. unfold apply_plan_to_user. solve_preserves; by apply preserves_modify. Qed.

Definition others (s : ShopDB) (x : Session ShopDB) : Prop :=
  good (λ y, ∃ r' p', same_accounts (sh_r s) r' ∧ y = s <| sh_r := r' |> <| sh_panels := p' |>) x.

Lemma others_in_db {A} (m : M DB A) s x : (∀ d0, preserves (other_tables d0) m) → others s x → others s (in_shop (in_db m) x).2.
Proof.
  intros Hm [(r1 & p1 & H1 & E1) (r2 & p2 & H2 & E2)]. destruct x as [w sv]. cbn [work saved] in *. subst w sv.
  unfold in_shop, in_db. cbn [work saved].
  change (sh_r (s <| sh_r := r1 |> <| sh_panels := p1 |>)) with r1. change (sh_r (s <| sh_r := r2 |> <| sh_panels := p2 |>)) with r2.
  specialize (Hm (r_db (sh_r s)) (mkSession (r_db r1) (r_db r2))).
  destruct H1 as (A1 & A2 & A3 & A4), H2 as (B1 & B2 & B3 & B4). destruct (m _) as [res [d1 d2]].
  destruct Hm as [[C1 C2] [D1 D2]]; [split; split; done|]. cbn [work saved snd] in *.
  split; cbn [work saved]; [exists (r1 <| r_db := d1 |>), p1 | exists (r2 <| r_db := d2 |>), p2]; split; done.
Qed.

Lemma value_error_others d0 {A} (m : M DB A) : preserves (other_tables d0) m → preserves (other_tables d0) (value_error_400 m).
Proof. intros Hm s Hs. specialize (Hm s Hs). unfold value_error_400. by destruct (m s) as [[r|[]] s']. Qed.

Lemma register_change now ctx username password valid s :
  change s BySignup (saved (register_customer now ctx username password valid (mkSession s s)).2).
Proof.
  assert (H0 : others s (mkSession s s)).
  { split; exists (sh_r s), (sh_panels s); (split; [done | by destruct s]). }
  enough (H : others s (register_customer now ctx username password valid (mkSession s s)).2).
  { destruct H as [_ (r' & p' & H & ->)]. by apply ch_user. }
  unfold register_customer. destruct (negb _); [done|]. destruct (newcomer_name _ _) as [name|]; [|done].
  rewrite bind_gets. cbn [work]. destruct (_ || _); [done|]. destruct (negb valid); [done|].
  set (m := in_shop _). pose proof (others_in_db (value_error_400 (create_user now name (cx_owner ctx) (Some 0) (Some 0) None None None)) s
    (mkSession s s) (λ d0, value_error_others d0 _ (create_user_others d0 _ _ _ _ _ _ _ _)) H0) as H1. fold m in H1.
  unfold bind at 1. destruct (m (mkSession s s)) as [[uid|e] x]; [|exact H1]. cbn [snd] in H1.
  rewrite bind_modify. unfold bind at 1, commit at 1. cbn [work saved].
  set (y := match PanelBalance.default_panel_for_create _ _ with Some _ => _ | None => _ end).
  assert (Hy : others s (mkSession y y)).
  { destruct H1 as [(r' & p' & Hr & E) _]. subst y. rewrite E.
    destruct (PanelBalance.default_panel_for_create _ _); (split; cbn [work saved]; by eexists _, _). }
  clearbody y. rewrite bind_gets. cbn [work]. destruct (filter _ _) as [|plan l]; [exact Hy|].
  pose proof (others_in_db (apply_plan_to_user now uid plan) s (mkSession y y) (λ d0, apply_plan_others d0 _ _ _) Hy) as H2.
  unfold bind, swallow. destruct (in_shop _ _) as [[|] x']; exact H2.
Qed.

(** *** Applications *)
Lemma newcomer_ok username password name : newcomer_name username password = Ok name → (4 ≤ String.length password)%nat.
Proof. unfold newcomer_name. destruct (negb _); [done|]. destruct (Nat.ltb_spec (String.length password) 4); [done|]. done. Qed.

Lemma not_pending_name s name :
  existsb (λ x, String.eqb (ap_username x.2) name && String.eqb (ap_status x.2) "pending") (map_to_list (sh_apps s)) = false →
  ∀ j b, sh_apps s !! j = Some b → is_pending b → ap_username b ≠ name.
Proof.
  intros H j b Hb Hp Hn. apply not_true_iff_false in H. apply H, existsb_exists. exists (j, b).
  split; [by apply list_elem_of_In, elem_of_map_to_list|]. cbn. unfold is_pending in Hp. by rewrite Hn, Hp, !String.eqb_refl.
Qed.

Lemma other_error_400_run {D A} (m : M D A) s a s' : m s = (Ok a, s') → other_error_400 m s = (Ok a, s').
Proof. intros H. unfold other_error_400. by rewrite H. Qed.

(** The account an invitation gives. *)
Definition invited_under (ctx : Ctx) : option Z := fst <$> cx_owner ctx.

Lemma apply_change hash ctx username password s : (∀ o, cx_owner ctx = Some o → the_admins s !! o.1 = Some o.2) →
  let s' := saved (apply_reseller hash ctx username password (mkSession s s)).2 in
  change s BySubmission s' ∨
  (is_Some (cx_ref ctx) ∧ (cx_owner ctx = None → cx_sudo_invite ctx = true) ∧ change s (ByInvite (invited_under ctx)) s').
Proof.
  intros Ho. cbv zeta. unfold apply_reseller, invited_under. destruct (negb _); [left; apply ch_none|].
  destruct (newcomer_name username password) as [name|] eqn:En; [|left; apply ch_none]. apply newcomer_ok in En.
  rewrite bind_gets. cbn [work]. destruct (_ || _) eqn:Et; [left; apply ch_none|]. apply orb_false_iff in Et as [Et _].
  assert (Hfree : get_admin (sh_r s) name = None) by (by destruct (get_admin (sh_r s) name)).
  rewrite bind_gets. cbn [work]. destruct (existsb _ _) eqn:Ep; [left; apply ch_none|]. pose proof (not_pending_name s name Ep) as Hnew. clear Ep.
  destruct (cx_owner ctx) as [o|] eqn:Eo, (cx_ref ctx) as [code|] eqn:Er.
  - right. split_and!; [done..|]. destruct (joined_child o name (hash password) (sh_r s) (Ho o eq_refl) Hfree) as [(st & msg & Hr)|(aid & r' & Hr & Hj)].
    + unfold bind. rewrite (in_shop_run _ s (Raise (HTTPException st msg)) (sh_r s) (sh_r s)) by (unfold other_error_400; by rewrite Hr).
      cbn [snd saved]. rewrite same_r. apply ch_none.
    + unfold bind. rewrite (in_shop_run _ s _ _ _ (other_error_400_run _ _ _ _ Hr)). cbn [snd saved]. by eapply ch_invited.
  - left. rewrite bind_gets, bind_modify. cbn [work saved]. eapply ch_submitted; [apply next_key_fresh|done|done|done|exact Hnew].
  - destruct (cx_sudo_invite ctx) eqn:Es.
    + right. split_and!; [done..|]. destruct (joined_top hash name password (sh_r s) Hfree) as (aid & r' & Hr & Hj).
      unfold bind. rewrite (in_shop_run _ s _ _ _ Hr). cbn [snd saved]. by eapply ch_invited.
    + left. rewrite bind_gets, bind_modify. cbn [work saved]. eapply ch_submitted; [apply next_key_fresh|done|done|done|exact Hnew].
  - left. rewrite bind_gets, bind_modify. cbn [work saved]. eapply ch_submitted; [apply next_key_fresh|done|done|done|exact Hnew].
Qed.

Lemma alter_present {A} (f : A → A) i (m : gmap Z A) a : m !! i = Some a → alter f i m = <[i := f a]> m.
Proof.
  intros H. apply map_eq. intros j. rewrite lookup_insert. case_decide as E.
  - subst. by rewrite lookup_alter_eq, H.
  - by rewrite lookup_alter_ne.
Qed.

Lemma open_ok actor i s : (∃ st msg, open_application actor i (mkSession s s) = (Raise (HTTPException st msg), mkSession s s)) ∨
  ∃ a, sh_apps s !! i = Some a ∧ is_pending a ∧ may_decide actor a ∧ open_application actor i (mkSession s s) = (Ok a, mkSession s s).
Proof.
  unfold open_application. rewrite bind_gets. cbn [work]. destruct (sh_apps s !! i) as [a|]; [|left; by eexists _, _].
  destruct (String.eqb_spec (ap_status a) "pending") as [Hp|]; cbn [negb]; [|left; by eexists _, _].
  destruct (negb (rv_is_sudo actor) && _) eqn:E; [left; by eexists _, _|]. right. exists a. split_and!; [done|done| |done].
  unfold may_decide. destruct (rv_is_sudo actor); [by left|]. right. cbn in E. apply negb_false_iff, bool_decide_eq_true in E. done.
Qed.

(** Whether a decision of this reviewer can be committed. *)
Definition commits (enforced : bool) (actor : Reviewer) (s : ShopDB) : bool :=
  negb (enforced && is_none (the_admins s !! rv_id actor)).

Lemma commit_decision_run enforced actor i f s a : sh_apps s !! i = Some a →
  let s' := s <| sh_apps := <[i := f a]> (sh_apps s) |> in
  commit_decision enforced actor i f (mkSession s s) =
  if commits enforced actor s then (Ok tt, mkSession s' s') else (Raise integrity_error, mkSession s' s).
Proof.
  intros Ha. cbv zeta. unfold commit_decision, commits. rewrite bind_modify. cbn [work saved]. rewrite (alter_present f i _ a Ha).
  rewrite bind_gets. cbn [work]. change (the_admins (s <| sh_apps := _ |>)) with (the_admins s).
  rewrite negb_involutive. by destruct (enforced && _).
Qed.

(** What an approval does with an application that is open to the reviewer. *)
Lemma approve_application_run hash enforced now actor i s a pw : sh_apps s !! i = Some a → is_pending a →
  may_decide actor a → ap_password_plain a = Some pw → pw ≠ ""%string → get_admin (sh_r s) (ap_username a) = None →
  (∃ st msg, approve_application hash enforced now actor i (mkSession s s) = (Raise (HTTPException st msg), mkSession s s)) ∨
  ∃ aid r', joined (sh_r s) (parent_of a) (ap_username a) aid r' ∧ (parent_of a = None → rv_is_sudo actor = true) ∧
    let s1 := s <| sh_r := r' |> in
    let s2 := s1 <| sh_apps := <[i := approved_with now actor aid a]> (sh_apps s) |> in
    approve_application hash enforced now actor i (mkSession s s) =
      if commits enforced actor s1 then (Ok aid, mkSession s2 s2) else (Raise integrity_error, mkSession s2 s1).
Proof.
  intros Ha Hp Hd Hpw Hne Hfree. unfold approve_application.
  destruct (open_ok actor i s) as [(st & msg & Ho)|(b & Hb & _ & _ & Ho)].
  { left. eexists st, msg. by apply bind_raise. }
  assert (b = a) as -> by congruence. rewrite (bind_ok _ _ _ _ _ Ho), Hpw. destruct pw as [|c pw]; [done|].
  rewrite bind_gets. cbn [work]. rewrite Hfree. cbn [is_none negb]. unfold parent_of.
  assert (Hfin : ∀ (aid : Z) (r' : ResellerDB), joined (sh_r s) (if truthy (ap_parent_admin_id a) then ap_parent_admin_id a else None) (ap_username a) aid r' →
    (commit_decision enforced actor i (approved_with now actor aid) ;;; ret aid) (mkSession (s <| sh_r := r' |>) (s <| sh_r := r' |>)) =
    if commits enforced actor (s <| sh_r := r' |>)
    then (Ok aid, mkSession (s <| sh_r := r' |> <| sh_apps := <[i := approved_with now actor aid a]> (sh_apps s) |>)
                            (s <| sh_r := r' |> <| sh_apps := <[i := approved_with now actor aid a]> (sh_apps s) |>))
    else (Raise integrity_error, mkSession (s <| sh_r := r' |> <| sh_apps := <[i := approved_with now actor aid a]> (sh_apps s) |>) (s <| sh_r := r' |>))).
  { intros aid r' _. set (s1 := s <| sh_r := r' |>). unfold bind. rewrite (commit_decision_run enforced actor i _ s1 a Ha).
    by destruct (commits enforced actor _). }
  destruct (truthy (ap_parent_admin_id a)) eqn:Et.
  - set (creating := let* parent := gets _ in _).
    assert (Hin : creating (mkSession s s) = match admin_at s (ap_parent_admin_id a) with
      | None => raise (HTTPException 400 "Parent reseller missing") (mkSession s s)
      | Some parent => in_shop (create_sub_reseller parent (ap_username a) (hash (String c pw)) None None None) (mkSession s s)
      end) by (unfold creating; rewrite bind_gets; cbn [work]; by destruct (admin_at _ _)).
    unfold admin_at in Hin. rewrite Et in Hin. clearbody creating.
    destruct (the_admins s !! or0 (ap_parent_admin_id a)) as [p|] eqn:Epar; cbn [fmap option_fmap option_map] in Hin.
    2:{ left. eexists _, _. exact (bind_raise _ _ _ _ _ Hin). }
    destruct (joined_child (or0 (ap_parent_admin_id a), p) (ap_username a) (hash (String c pw)) (sh_r s) Epar Hfree)
      as [(st & msg & Hr)|(aid & r' & Hr & Hj)]; rewrite (in_shop_run _ s _ _ _ Hr) in Hin.
    + left. eexists st, msg. rewrite (bind_raise _ _ _ _ _ Hin), !same_r. done.
    + right. exists aid, r'. assert (Eid : Some (or0 (ap_parent_admin_id a)) = ap_parent_admin_id a) by (by destruct (ap_parent_admin_id a)).
      cbn [fst] in Hj. rewrite Eid in Hj. split_and!; [exact Hj | intros E; by rewrite E in Et |].
      cbv zeta. rewrite (bind_ok _ _ _ _ _ Hin). exact (Hfin aid r' Hj).
  - destruct (rv_is_sudo actor) eqn:Es; cbn [negb]; [|left; by eexists _, _].
    destruct (joined_top hash (ap_username a) (String c pw) (sh_r s) Hfree) as (aid & r' & Hr & Hj).
    right. exists aid, r'. split_and!; [exact Hj|done|]. cbv zeta. rewrite (bind_ok _ _ _ _ _ (in_shop_run _ s _ _ _ Hr)). exact (Hfin aid r' Hj).
Qed.

Lemma approve_change hash enforced now actor i s :
  change s (ByApproval actor i) (saved (approve_application hash enforced now actor i (mkSession s s)).2).
Proof.
  destruct (open_ok actor i s) as [(st & msg & Ho)|(a & Ha & Hp & Hd & Ho)].
  { unfold approve_application. rewrite (bind_raise _ _ _ _ _ Ho). apply ch_none. }
  destruct (ap_password_plain a) as [pw|] eqn:Hpw.
  2:{ unfold approve_application. rewrite (bind_ok _ _ _ _ _ Ho), Hpw. apply ch_none. }
  destruct (decide (pw = ""%string)) as [->|Hne].
  { unfold approve_application. rewrite (bind_ok _ _ _ _ _ Ho), Hpw. apply ch_none. }
  destruct (get_admin (sh_r s) (ap_username a)) eqn:Hg.
  { unfold approve_application. rewrite (bind_ok _ _ _ _ _ Ho), Hpw. destruct pw; [done|]. rewrite bind_gets. cbn [work].
    rewrite Hg. apply ch_none. }
  destruct (approve_application_run hash enforced now actor i s a pw Ha Hp Hd Hpw Hne Hg) as [(st & msg & ->)|(aid & r' & Hj & Hsu & ->)].
  - apply ch_none.
  - destruct (commits enforced actor _); cbn [snd saved]; [by eapply ch_approved | by eapply ch_approval_lost].
Qed.

Lemma reject_change enforced now actor i reason s :
  change s (ByRejection actor i) (saved (reject_application enforced now actor i reason (mkSession s s)).2).
Proof.
  unfold reject_application. destruct (open_ok actor i s) as [(st & msg & Ho)|(a & Ha & Hp & Hd & Ho)].
  - rewrite (bind_raise _ _ _ _ _ Ho). apply ch_none.
  - rewrite (bind_ok _ _ _ _ _ Ho), (commit_decision_run enforced actor i _ s a Ha).
    destruct (commits enforced actor s); cbn [snd saved]; [by eapply ch_rejected | apply ch_none].
Qed.

(** *** The requests *)
Inductive ShopOp :=
  | OpRegister (cfg : StoreSettings) (host tenant ref : option string) (now : Z) (username password : string) (valid : bool)
  | OpApply (cfg : StoreSettings) (host tenant ref : option string) (username password : string)
  | OpApprove (f : OverridesFile) (who : Actor) (now app : Z)
  | OpReject (f : OverridesFile) (who : Actor) (now app : Z) (reason : option string)
  | OpMine (f : OverridesFile) (who : Actor) (codes : list string)
  | OpRotate (f : OverridesFile) (who : Actor) (codes : list string)
  | OpUpdate (f : OverridesFile) (who : Actor) (codes : list string) (signup apply : option bool)
      (headline tagline : option (option string)).

Section shop.
Context (hash : string → string) (enforced : bool).

Definition run_op (o : ShopOp) : Shop unit :=
  match o with
  | OpRegister cfg host tenant ref now u p v => public_register cfg host tenant ref now u p v ;;; ret tt
  | OpApply cfg host tenant ref u p => public_reseller_apply hash cfg host tenant ref u p ;;; ret tt
  | OpApprove f who now app => approve_reseller_application hash enforced f who now app ;;; ret tt
  | OpReject f who now app reason => reject_reseller_application enforced f who now app reason
  | OpMine f who codes => get_my_storefront f who codes ;;; ret tt
  | OpRotate f who codes => rotate_my_invite f who codes ;;; ret tt
  | OpUpdate f who codes s a h t => put_my_storefront f who codes s a h t ;;; ret tt
  end.

(** The row of the caller, or the owner of the environment. *)
Definition acts_as (s : ShopDB) (who : Actor) (actor : Reviewer) : Prop :=
  match get_admin (sh_r s) (ac_username who) with
  | Some (aid, a) => actor = mkReviewer aid (a_is_sudo a)
  | None => ac_is_sudo who = true ∧ actor = mkReviewer 0 true
  end.

(** What may cause a change by a request. *)
Definition caused (s : ShopDB) (o : ShopOp) (c : Cause) : Prop :=
  match o with
  | OpRegister _ _ _ _ _ _ _ _ => c = BySignup
  | OpApply _ _ _ ref _ _ => c = BySubmission ∨
      ∃ code i a, given ref = Some code ∧ admin_by_invite s code = Some (i, a) ∧
        c = ByInvite (if a_is_sudo a then None else Some i)
  | OpApprove f who _ app => has_permission f who "users:write" = true ∧ ∃ actor, acts_as s who actor ∧ c = ByApproval actor app
  | OpReject f who _ app _ => has_permission f who "users:write" = true ∧ ∃ actor, acts_as s who actor ∧ c = ByRejection actor app
  | OpMine _ _ _ | OpRotate _ _ _ | OpUpdate _ _ _ _ _ _ _ => c = ByFront
  end.

(** The owner of a resolved store is an admin, and an invite names its owner. *)
Lemma admin_at_row s aid o : admin_at s aid = Some o → the_admins s !! o.1 = Some o.2.
Proof.
  unfold admin_at. destruct (truthy aid); [|done]. destruct (the_admins s !! or0 aid) eqn:E; [|done]. by intros [= <-].
Qed.

Lemma resolved cfg host tenant domain ref s c : resolve_context cfg host tenant domain ref s = Ok c →
  (∀ o, cx_owner c = Some o → the_admins s !! o.1 = Some o.2) ∧
  (is_Some (cx_ref c) → ∃ code i a, given ref = Some code ∧ admin_by_invite s code = Some (i, a) ∧
     cx_owner c = if a_is_sudo a then None else Some (i, a)).
Proof.
  unfold resolve_context. set (h := lower _). destruct (given ref) as [code|].
  - destruct (admin_by_invite s code) as [[i a]|] eqn:Ei; [|done]. destruct (invite_owner _ _ _ Ei) as [Ho _]. cbn [snd].
    destruct (a_is_sudo a) eqn:Es; intros [= <-]; cbn [cx_owner cx_ref ctx_of].
    + split; [done|]. intros _. exists code, i, a. by rewrite Es.
    + split; [intros o [= <-]; exact Ho|]. intros _. exists code, i, a. by rewrite Es.
  - set (bs := match given tenant with None => _ | Some _ => _ end).
    assert (Hbs : ∀ o t, bs = Ok (Some o, t) → the_admins s !! o.1 = Some o.2).
    { intros o t. unfold bs. destruct (given tenant); [|done]. destruct (tenant_by_slug s _); [|done].
      intros [= H _]. by eapply admin_at_row. }
    destruct bs as [[[o|] t]|]; [..|done].
    + intros [= <-]. cbn [cx_owner cx_ref ctx_of]. split; [|by intros [? [=]]]. intros o' [= <-]. by eapply Hbs.
    + set (y := if String.eqb h "" then _ else _).
      assert (Hy : ∀ o, y.1 = Some o → the_admins s !! o.1 = Some o.2).
      { intros o. unfold y. destruct (String.eqb h ""); [done|]. unfold by_domain.
        destruct (head _) as [b|]; [|done]. destruct (br_tenant_id b) as [tid|]; [|done]. cbn [default from_option id fst].
        destruct (truthy (br_admin_id b)); [apply admin_at_row|]. destruct (tenant_at s tid); [apply admin_at_row | done]. }
      destruct y as [o t']. intros [= <-]. cbn [cx_owner cx_ref ctx_of]. split; [exact Hy | by intros [? [=]]].
Qed.

Lemma reviewer_run who s :
  (reviewer_of who (mkSession s s) = (Raise (HTTPException 400 "Admin not found"), mkSession s s)) ∨
  ∃ actor, acts_as s who actor ∧ reviewer_of who (mkSession s s) = (Ok actor, mkSession s s).
Proof.
  unfold reviewer_of, acts_as. rewrite bind_gets. cbn [work]. destruct (get_admin _ _) as [[aid a]|]; [right; by eexists|].
  destruct (ac_is_sudo who); [right; by eexists | by left].
Qed.

Lemma my_row_run who s :
  my_row who (mkSession s s) = (Raise (HTTPException 400 "Admin not found"), mkSession s s) ∨
  ∃ aid, is_Some (the_admins s !! aid) ∧ my_row who (mkSession s s) = (Ok aid, mkSession s s).
Proof.
  unfold my_row. rewrite bind_gets. cbn [work]. destruct (get_admin _ _) as [[aid a]|] eqn:E; [right | by left].
  exists aid. split; [|done]. apply get_admin_some in E as [E _]. by exists a.
Qed.

Lemma saved_ret {A} (m : Shop A) x : saved ((m ;;; ret tt) x).2 = saved (m x).2.
Proof. unfold bind. by destruct (m x) as [[|] ?]. Qed.

Lemma op_changes o s : let s' := (run_session (run_op o) s).2 in s' = s ∨ ∃ c, caused s o c ∧ change s c s'.
Proof.
  cbv zeta. assert (Hrun : (run_session (run_op o) s).2 = saved (run_op o (mkSession s s)).2)
    by (unfold run_session; by destruct (run_op o _)). rewrite Hrun. clear Hrun.
  destruct o as [cfg host tenant ref now u p v|cfg host tenant ref u p|f who now i|f who now i reason|f who codes|f who codes|f who codes sg ap hl tl];
    cbn [run_op]; rewrite ?saved_ret.
  - unfold public_register, with_ctx. rewrite bind_gets. cbn [work]. destruct (resolve_context _ _ _ _ _ _); [|by left].
    right. eexists. split; [done|]. apply register_change.
  - unfold public_reseller_apply, with_ctx. rewrite bind_gets. cbn [work]. destruct (resolve_context _ _ _ _ _ _) as [c|] eqn:Ec; [|by left].
    right. destruct (resolved _ _ _ _ _ _ _ Ec) as [Ho Hi]. destruct (apply_change hash c u p s Ho) as [Hc|(Hr & _ & Hc)].
    + eexists. split; [by left | exact Hc].
    + eexists. split; [right|exact Hc]. destruct (Hi Hr) as (code & j & a & Hg & Hb & Ha). exists code, j, a.
      split_and!; [done|done|]. unfold invited_under. rewrite Ha. by destruct (a_is_sudo a).
  - unfold approve_reseller_application, permitted. destruct (require_permission _ _ _) as [w|] eqn:Ep; [|by left].
    apply permission_ok in Ep. destruct (reviewer_run who s) as [Hr|(actor & Ha & Hr)]; [rewrite (bind_raise _ _ _ _ _ Hr); by left|].
    rewrite (bind_ok _ _ _ _ _ Hr). right. exists (ByApproval actor i). split; [split; [done | by exists actor]|]. apply approve_change.
  - unfold reject_reseller_application, permitted. destruct (require_permission _ _ _) as [w|] eqn:Ep; [|by left].
    apply permission_ok in Ep. destruct (reviewer_run who s) as [Hr|(actor & Ha & Hr)]; [rewrite (bind_raise _ _ _ _ _ Hr); by left|].
    rewrite (bind_ok _ _ _ _ _ Hr). right. exists (ByRejection actor i). split; [split; [done | by exists actor]|]. apply reject_change.
  - unfold get_my_storefront, permitted. destruct (require_permission _ _ _); [|by left].
    destruct (my_row_run who s) as [Hr|(aid & Ha & Hr)]; [rewrite (bind_raise _ _ _ _ _ Hr); by left|].
    rewrite (bind_ok _ _ _ _ _ Hr). destruct (ensure_saved codes aid s) as [->|(c & Hc & ->)]; [by left|].
    right. eexists. split; [done|]. apply ch_front; [done|]. right. intros c' j [= <-] _ Hs. by apply invite_unused.
  - unfold rotate_my_invite, permitted. destruct (require_permission _ _ _); [|by left].
    destruct (my_row_run who s) as [Hr|(aid & Ha & Hr)]; [rewrite (bind_raise _ _ _ _ _ Hr); by left|].
    rewrite (bind_ok _ _ _ _ _ Hr). right. eexists. split; [done|]. apply (front_written codes aid); [done | by right].
  - unfold put_my_storefront, permitted. destruct (require_permission _ _ _); [|by left].
    destruct (my_row_run who s) as [Hr|(aid & Ha & Hr)]; [rewrite (bind_raise _ _ _ _ _ Hr); by left|].
    rewrite (bind_ok _ _ _ _ _ Hr). right. eexists. split; [done|]. apply (front_written codes aid); [done | by left].
Qed.

(** *** The tables stay well formed *)
Definition has_code (s : ShopDB) (i : Z) (c : string) : Prop := ft_invite_code (front_of s i) = Some c.

(** Open with a password to hand over, or decided: the password is gone and the
    decision recorded. *)
Definition application_ok (s : ShopDB) (a : ResellerApplication) : Prop :=
  (is_pending a ∧ ∃ pw, ap_password_plain a = Some pw ∧ (4 ≤ String.length pw)%nat) ∨
  (ap_password_plain a = None ∧ is_Some (ap_reviewed_by_admin_id a) ∧
   (ap_status a = "rejected"%string ∨
    ap_status a = "approved"%string ∧ ∃ c, ap_created_admin_id a = Some c ∧ is_Some (the_admins s !! c))).

Record store_wf (s : ShopDB) : Prop := {
  sw_accounts : accounts_wf (sh_r s);
  sw_fronts : ∀ i, is_Some (sh_fronts s !! i) → is_Some (the_admins s !! i);
  sw_codes : ∀ i j c, has_code s i c → has_code s j c → i = j;
  sw_one : ∀ i j a b, sh_apps s !! i = Some a → sh_apps s !! j = Some b → is_pending a → is_pending b →
             ap_username a = ap_username b → i = j;
  sw_apps : ∀ i a, sh_apps s !! i = Some a → application_ok s a }.

(** The accounts only grow. *)
Definition grown (s s' : ShopDB) : Prop := ∀ i a, the_admins s !! i = Some a → the_admins s' !! i = Some a.

Lemma joined_grown s parent name aid r' : joined (sh_r s) parent name aid r' → grown s (s <| sh_r := r' |>).
Proof.
  intros [Hf _ _ (a & Ha & _) _] i b Hb. change (admins (r_db r') !! i = Some b). rewrite Ha, lookup_insert_ne; [exact Hb|].
  intros ->. unfold the_admins in Hb. congruence.
Qed.

Lemma change_grown s c s' : change s c s' → grown s s'.
Proof.
  intros Hc. destruct Hc as [c0|r' p' [H _]|aid f _ _|i a pw _ _ _ _ _|parent name aid r' Hj|now actor i a aid r' _ _ _ _ Hj|actor i a aid r' _ _ _ _ Hj|now actor i a reason _ _ _].
  2:{ intros i a Ha. change (admins (r_db r') !! i = Some a). by rewrite H. }
  4,6: by eapply joined_grown.
  4:{ intros j b Hb. exact (joined_grown s _ _ _ _ Hj j b Hb). }
  all: by intros j b Hb.
Qed.

Lemma application_ok_grown s s' a : grown s s' → application_ok s a → application_ok s' a.
Proof.
  intros Hg [H|(H1 & H2 & [H3|(H3 & c & Hc & [b Hb])])]; [by left | right; by split_and!; [..|left] |].
  right. split_and!; [done|done|]. right. split; [done|]. exists c. split; [done|]. exists b. by apply Hg.
Qed.

Lemma has_code_admin s i c : (∀ i, is_Some (sh_fronts s !! i) → is_Some (the_admins s !! i)) → has_code s i c → is_Some (the_admins s !! i).
Proof. intros Hf Hc. apply Hf. unfold has_code, front_of in Hc. destruct (sh_fronts s !! i); [done|]. done. Qed.

Lemma same_accounts_wf r r' : same_accounts r r' → accounts_wf r → accounts_wf r'.
Proof.
  intros (E1 & E2 & E3 & E4) [H1 H2 H3 H4 H5]. constructor; unfold slugs_unique in *; rewrite ?E1, ?E2, ?E3, ?E4 in *; done.
Qed.

(** The part of the invariant on the tables that grow. *)
Lemma wf_grow s r' : store_wf s → (accounts_wf (sh_r s) → accounts_wf r') → grown s (s <| sh_r := r' |>) → store_wf (s <| sh_r := r' |>).
Proof.
  intros [H1 H2 H3 H4 H5] Hw Hg. constructor; [exact (Hw H1)| |exact H3|exact H4|].
  - intros i Hi. destruct (H2 i Hi) as [a Ha]. exists a. by apply Hg.
  - intros i a Ha. eapply application_ok_grown; [exact Hg|]. by eapply H5.
Qed.

(** One application more, or one changed to an application that is not open. *)
Lemma wf_app_insert s i a : store_wf s → application_ok s a →
  (is_pending a → ∀ j b, sh_apps s !! j = Some b → is_pending b → ap_username b ≠ ap_username a) →
  store_wf (s <| sh_apps := <[i := a]> (sh_apps s) |>).
Proof.
  intros [H1 H2 H3 H4 H5] Ha Hn. constructor; [exact H1|exact H2|exact H3| |].
  - intros j k x y. cbn. rewrite !lookup_insert. repeat case_decide; subst; intros; simplify_eq; try done.
    + exfalso. by eapply (Hn ltac:(done) k y).
    + exfalso. by eapply (Hn ltac:(done) j x).
    + by eapply H4.
  - intros j x. cbn. rewrite lookup_insert. case_decide; [intros [= <-]; exact Ha | apply H5].
Qed.

Lemma change_wf s c s' : change s c s' → store_wf s → store_wf s'.
Proof.
  intros Hc Hwf. pose proof (change_grown _ _ _ Hc) as Hg.
  destruct Hc as [c0|r' p' H|aid f Ha Hf|i a pw Hi Hp Hpw Hl Hnew|parent name aid r' Hj|now actor i a aid r' Hi Hp Hd Hsu Hj|actor i a aid r' Hi Hp Hd Hsu Hj|now actor i a reason Hi Hp Hd].
  - done.
  - destruct (wf_grow s r' Hwf (same_accounts_wf _ _ H)) as [H1 H2 H3 H4 H5]; [exact Hg|]. by constructor.
  - destruct Hwf as [H1 H2 H3 H4 H5]. change (store_wf (with_front aid f s)). constructor; [exact H1| | |exact H4|exact H5].
    + intros i. cbn. rewrite lookup_insert. case_decide; [by subst|apply H2].
    + assert (Hnew : ∀ c j, ft_invite_code f = Some c → has_code s j c → j = aid).
      { intros c j Hc Hj. destruct Hf as [Hf|Hf]; [eapply H3; [exact Hj|]; unfold has_code; congruence|].
        destruct (decide (j = aid)) as [|Hne]; [done|]. exfalso. eapply (Hf c j Hc Hne); [|exact Hj]. by eapply has_code_admin. }
      intros i j c. unfold has_code. rewrite !front_with. repeat case_decide; subst; try done.
      * intros Hc Hj. symmetry. by eapply Hnew.
      * intros Hi Hc. by eapply Hnew.
      * apply H3.
  - apply wf_app_insert; [done| |done]. left. eauto.
  - destruct Hj as [? ? ? ? Hw] eqn:E. by apply wf_grow.
  - assert (Hw1 : store_wf (s <| sh_r := r' |>)) by (apply wf_grow; [done|exact (jn_wf _ _ _ _ _ Hj)|by eapply joined_grown]).
    set (s1 := s <| sh_r := r' |>) in *. change (store_wf (s1 <| sh_apps := <[i := approved_with now actor aid a]> (sh_apps s1) |>)).
    apply wf_app_insert; [exact Hw1| |done]. right. split_and!; [done|by eexists|]. right. split; [done|]. exists aid. split; [done|].
    destruct (jn_row _ _ _ _ _ Hj) as (b & Hb & _). exists b. change (admins (r_db r') !! aid = Some b). by rewrite Hb, lookup_insert_eq.
  - apply wf_grow; [done|exact (jn_wf _ _ _ _ _ Hj)|exact Hg].
  - apply wf_app_insert; [done| |done]. right. split_and!; [done|by eexists|by left].
Qed.

(** What happens to an application. *)
Lemma change_apps s c s' i a : change s c s' → sh_apps s !! i = Some a →
  ∃ a', sh_apps s' !! i = Some a' ∧ ap_username a' = ap_username a ∧ ap_parent_admin_id a' = ap_parent_admin_id a ∧
        (ap_status a ≠ "pending"%string → a' = a).
Proof.
  intros Hc Ha. destruct Hc as [c0|r' p' H|aid f Hs Hf|j b pw Hi Hp Hpw Hl Hnew|parent name aid r' Hj|now actor j b aid r' Hi Hp Hd Hsu Hj|actor j b aid r' Hi Hp Hd Hsu Hj|now actor j b reason Hi Hp Hd];
    try (by exists a); cbn; rewrite lookup_insert; case_decide; subst; try (by exists a).
  - congruence.
  - assert (b = a) as -> by congruence. by eexists.
  - assert (b = a) as -> by congruence. by eexists.
Qed.

Definition run_ops (ops : list ShopOp) (s : ShopDB) : ShopDB := foldl (λ s o, (run_session (run_op o) s).2) s ops.

(** C26. An application is decided once.  Whatever sequence of sign-ups, applications,
    decisions and storefront requests is served, a decided application never changes
    again and an open one keeps its name and its parent; no name has two open
    applications; a password is kept exactly as long as the application is open;
    every decision names its reviewer and an approval an account that exists; and
    invite codes stay unique and the account tables well formed. *)
Theorem applications_decided_once (ops : list ShopOp) s : store_wf s →
  let s' := run_ops ops s in
  store_wf s' ∧
  ∀ i a, sh_apps s !! i = Some a →
    ∃ a', sh_apps s' !! i = Some a' ∧ ap_username a' = ap_username a ∧ ap_parent_admin_id a' = ap_parent_admin_id a ∧
          (ap_status a ≠ "pending"%string → a' = a).
Proof.
  revert s. induction ops as [|o ops IH]; intros s Hwf; [by split; [|eauto]|]. cbv zeta. cbn [run_ops foldl].
  set (s1 := (run_session (run_op o) s).2). change (foldl _ s1 ops) with (run_ops ops s1).
  assert (H1 : store_wf s1 ∧ ∀ i a, sh_apps s !! i = Some a → ∃ a', sh_apps s1 !! i = Some a' ∧ ap_username a' = ap_username a ∧
    ap_parent_admin_id a' = ap_parent_admin_id a ∧ (ap_status a ≠ "pending"%string → a' = a)).
  { pose proof (op_changes o s) as Hop. cbv zeta in Hop. fold s1 in Hop. destruct Hop as [->|(c & _ & Hc)]; [by split; [|eauto]|].
    split; [by eapply change_wf|]. intros i a Ha. by eapply change_apps. }
  destruct H1 as [Hwf1 H1]. destruct (IH s1 Hwf1) as [Hwf' H2]. split; [done|]. intros i a Ha.
  destruct (H1 i a Ha) as (b & Hb & E1 & E2 & E3). destruct (H2 i b Hb) as (c & Hc & F1 & F2 & F3).
  exists c. split_and!; [done|congruence|congruence|]. intros Hs. rewrite <- (E3 Hs). apply F3. by rewrite (E3 Hs).
Qed.

(** Who stands behind a new reseller account. *)
Definition vouched_for (s : ShopDB) (o : ShopOp) (a : Admin) : Prop :=
  match o with
  | OpApply _ _ _ ref _ _ =>
      ∃ code i b, given ref = Some code ∧ admin_by_invite s code = Some (i, b) ∧
        a_parent_admin_id a = if a_is_sudo b then None else Some i
  | OpApprove f who _ app =>
      has_permission f who "users:write" = true ∧
      ∃ actor x, acts_as s who actor ∧ sh_apps s !! app = Some x ∧ is_pending x ∧ a_username a = ap_username x ∧
        a_parent_admin_id a = parent_of x ∧ (rv_is_sudo actor = true ∨ parent_of x = Some (rv_id actor))
  | _ => False
  end.

Lemma new_row r parent name aid r' i a : joined r parent name aid r' → admins (r_db r) !! i = None → admins (r_db r') !! i = Some a →
  a_is_sudo a = false ∧ a_username a = name ∧ a_parent_admin_id a = parent.
Proof.
  intros Hj Hn. destruct (jn_row _ _ _ _ _ Hj) as (b & -> & H). rewrite lookup_insert. case_decide; [|congruence].
  intros [= <-]. tauto.
Qed.

Lemma approval_vouched s o actor j b a : caused s o (ByApproval actor j) → sh_apps s !! j = Some b → is_pending b → may_decide actor b →
  (parent_of b = None → rv_is_sudo actor = true) → a_username a = ap_username b → a_parent_admin_id a = parent_of b → vouched_for s o a.
Proof.
  intros Hc Hj Hp Hd Hsu Hname Hpar. destruct o; cbn in Hc; try done.
  - by destruct Hc as [?|(? & ? & ? & _ & _ & ?)].
  - destruct Hc as (Hperm & actor' & Hact & [= <- <-]). split; [done|]. exists actor, b. split_and!; try done.
    destruct Hd as [?|Hd]; [by left|]. unfold parent_of in *. destruct (truthy _) eqn:Et; [by right|]. left. by apply Hsu.
  - by destruct Hc as (_ & ? & _ & ?).
Qed.

Lemma invite_vouched s o parent a : caused s o (ByInvite parent) → a_parent_admin_id a = parent → vouched_for s o a.
Proof.
  intros Hc Hp. destruct o; cbn in Hc; try done; try (by destruct Hc as (_ & ? & _ & ?)).
  destruct Hc as [?|(code & k & x & Hg & Hi & [= ->])]; [done|]. by exists code, k, x.
Qed.


(** An application whose name is in use is approved by nobody. *)
Lemma taken_name_refused f who now i s a : sh_apps s !! i = Some a → get_admin (sh_r s) (ap_username a) ≠ None →
  ∃ e, run_session (approve_reseller_application hash enforced f who now i) s = (Raise e, s).
Proof.
  intros Ha Hg. unfold run_session, approve_reseller_application, permitted. destruct (require_permission f _ who); [|by eexists].
  destruct (reviewer_run who s) as [Hr|(actor & _ & Hr)]; [rewrite (bind_raise _ _ _ _ _ Hr); by eexists|].
  rewrite (bind_ok _ _ _ _ _ Hr). unfold approve_application.
  destruct (open_ok actor i s) as [(st & msg & Ho)|(x & Hx & _ & _ & Ho)]; [rewrite (bind_raise _ _ _ _ _ Ho); by eexists|].
  assert (x = a) as -> by congruence. rewrite (bind_ok _ _ _ _ _ Ho). destruct (ap_password_plain a) as [[|c pw]|]; [by eexists| |by eexists].
  rewrite bind_gets. cbn [work]. by destruct (get_admin (sh_r s) (ap_username a)); [eexists|].
Qed.

(** A sudo reviewer's approval of an open top-level application: the account is opened,
    and the decision is committed or lost. *)
Lemma approve_top now actor i s a pw : rv_is_sudo actor = true → sh_apps s !! i = Some a → is_pending a →
  ap_parent_admin_id a = None → ap_password_plain a = Some pw → pw ≠ ""%string → get_admin (sh_r s) (ap_username a) = None →
  ∃ aid r', joined (sh_r s) None (ap_username a) aid r' ∧
    let s1 := s <| sh_r := r' |> in
    let s2 := s1 <| sh_apps := <[i := approved_with now actor aid a]> (sh_apps s) |> in
    approve_application hash enforced now actor i (mkSession s s) =
      if commits enforced actor s1 then (Ok aid, mkSession s2 s2) else (Raise integrity_error, mkSession s2 s1).
Proof.
  intros Hs Ha Hp Hpar Hpw Hne Hfree.
  assert (Ho : open_application actor i (mkSession s s) = (Ok a, mkSession s s)).
  { unfold open_application. rewrite bind_gets. cbn [work]. unfold is_pending in Hp. by rewrite Ha, Hp, Hs. }
  destruct (joined_top hash (ap_username a) pw (sh_r s) Hfree) as (aid & r' & Hc & Hj). exists aid, r'. split; [done|]. cbv zeta.
  unfold approve_application. rewrite (bind_ok _ _ _ _ _ Ho), Hpw. destruct pw as [|c pw]; [done|].
  rewrite bind_gets. cbn [work]. rewrite Hfree, Hpar. cbn [is_none negb truthy]. rewrite Hs. cbn [negb].
  rewrite (bind_ok _ _ _ _ _ (in_shop_run _ s _ _ _ Hc)). set (s1 := s <| sh_r := r' |>). unfold bind.
  rewrite (commit_decision_run enforced actor i _ s1 a Ha). by destruct (commits enforced actor s1).
Qed.

(** The owner of the environment has no row: where foreign keys are enforced its
    approval opens the account and then fails, the application stays open with its
    password, and nobody can approve it any more; a rejection by it fails as well. *)
Theorem ownerless_decision_fails f who now i s a pw : enforced = true →
  ac_is_sudo who = true → get_admin (sh_r s) (ac_username who) = None → the_admins s !! 0 = None →
  sh_apps s !! i = Some a → is_pending a → ap_parent_admin_id a = None → ap_password_plain a = Some pw → pw ≠ ""%string →
  get_admin (sh_r s) (ap_username a) = None →
  let '(res, s') := run_session (approve_reseller_application hash enforced f who now i) s in
  res = Raise integrity_error ∧ sh_apps s' = sh_apps s ∧
  (∃ aid b, the_admins s !! aid = None ∧ the_admins s' !! aid = Some b ∧ a_username b = ap_username a) ∧
  (∀ f' who' now', ∃ e, run_session (approve_reseller_application hash enforced f' who' now' i) s' = (Raise e, s')) ∧
  (∀ reason, run_session (reject_reseller_application enforced f who now i reason) s = (Raise integrity_error, s)).
Proof.
  intros Hen Hsudo Hrow H0 Ha Hp Hpar Hpw Hne Hfree.
  assert (Hperm : require_permission f "users:write" who = Ok who) by (unfold require_permission, has_permission; by rewrite Hsudo).
  assert (Hrev : reviewer_of who (mkSession s s) = (Ok (mkReviewer 0 true), mkSession s s)).
  { unfold reviewer_of. rewrite bind_gets. cbn [work]. by rewrite Hrow, Hsudo. }
  destruct (approve_top now (mkReviewer 0 true) i s a pw eq_refl Ha Hp Hpar Hpw Hne Hfree) as (aid & r' & Hj & Hrun).
  destruct (jn_row _ _ _ _ _ Hj) as (b & Hb & Hname & _). set (s1 := s <| sh_r := r' |>) in *.
  assert (Hadm : the_admins s1 = <[aid := b]> (the_admins s)) by exact Hb.
  assert (Hno : commits enforced (mkReviewer 0 true) s1 = false).
  { unfold commits. cbn [rv_id]. pose proof (jn_id _ _ _ _ _ Hj). rewrite Hadm, lookup_insert_ne, H0, Hen by lia. done. }
  cbv zeta in Hrun. rewrite Hno in Hrun. unfold run_session at 1. unfold approve_reseller_application at 1, permitted at 1.
  rewrite Hperm, (bind_ok _ _ _ _ _ Hrev), Hrun. cbn [saved]. split_and!; [done|done| | |].
  - exists aid, b. split_and!; [exact (jn_fresh _ _ _ _ _ Hj)|by rewrite Hadm, lookup_insert_eq|done].
  - intros f' who' now'. apply (taken_name_refused f' who' now' i s1 a Ha). intros Eg.
    eapply (proj1 (get_admin_none _ _) Eg aid b); [|exact Hname]. change (the_admins s1 !! aid = Some b). by rewrite Hadm, lookup_insert_eq.
  - intros reason. unfold run_session, reject_reseller_application, permitted. rewrite Hperm, (bind_ok _ _ _ _ _ Hrev).
    unfold reject_application. destruct (open_ok (mkReviewer 0 true) i s) as [(st & msg & Ho)|(x & Hx & _ & _ & Ho)].
    { unfold open_application in Ho. rewrite bind_gets in Ho. cbn [work] in Ho. unfold is_pending in Hp. by rewrite Ha, Hp in Ho. }
    assert (x = a) as -> by congruence. rewrite (bind_ok _ _ _ _ _ Ho), (commit_decision_run enforced _ i _ s a Ha).
    unfold commits. cbn [rv_id]. by rewrite H0, Hen.
Qed.
End shop.

(** A sign-up where no plan is free makes an active account without a data limit and
    without an expiry. *)
Lemma signup_without_free_plan now ctx username password valid s :
  filter (λ p, p_price p = 0) (public_plans_for_owner (r_db (sh_r s)) (cx_owner ctx)) = [] →
  let '(res, s') := run_session (register_customer now ctx username password valid) s in
  ∀ uid, res = Ok uid → ∃ u, users (r_db (sh_r s')) !! uid = Some u ∧
    u_status u = active ∧ u_data_limit u = None ∧ u_expire u = None ∧ u_admin_id u = fst <$> cx_owner ctx.
Proof.
  intros Hfree. unfold run_session, register_customer. destruct (negb _); [done|]. destruct (newcomer_name _ _) as [name|]; [|done].
  rewrite bind_gets. cbn [work]. destruct (_ || _); [done|]. destruct (negb valid); [done|].
  set (m := value_error_400 _). assert (Hm : (∃ e, m (mkSession (r_db (sh_r s)) (r_db (sh_r s))) = (Raise e, mkSession (r_db (sh_r s)) (r_db (sh_r s)))) ∨
    let d1 := (r_db (sh_r s)) <| users := <[next_key (users (r_db (sh_r s))) :=
      new_user_row now name (fst <$> cx_owner ctx) (Some 0) (Some 0) None None None]> (users (r_db (sh_r s))) |> in
    m (mkSession (r_db (sh_r s)) (r_db (sh_r s))) = (Ok (next_key (users (r_db (sh_r s)))), mkSession d1 d1)).
  { unfold m, value_error_400. destruct (PortalFacts.create_user_run now name (cx_owner ctx) (Some 0) (Some 0) None None None (r_db (sh_r s))) as [[msg ->]| ->];
      [left; by eexists | by right]. }
  clearbody m. destruct Hm as [[e Hm]|Hm].
  { rewrite (bind_raise _ _ _ _ _ (in_shop_run _ s _ _ _ (in_db_run _ _ _ _ _ Hm))). done. }
  cbv zeta in Hm. set (d1 := (r_db (sh_r s)) <| users := _ |>) in Hm.
  rewrite (bind_ok _ _ _ _ _ (in_shop_run _ s _ _ _ (in_db_run _ _ _ _ _ Hm))), bind_modify. unfold bind at 1, commit at 1. cbn [work saved].
  set (s1 := s <| sh_r := _ |>). set (y := match PanelBalance.default_panel_for_create _ _ with Some _ => _ | None => _ end).
  assert (Hy : sh_r y = sh_r s1) by (unfold y; by destruct (PanelBalance.default_panel_for_create _ _)).
  clearbody y. rewrite bind_gets. cbn [work]. rewrite Hy. change (filter _ (public_plans_for_owner (r_db (sh_r s1)) _))
    with (filter (λ p, p_price p = 0) (public_plans_for_owner (r_db (sh_r s)) (cx_owner ctx))). rewrite Hfree.
  unfold bind, ret. cbn [saved]. intros uid [= <-]. rewrite Hy. eexists. split; [apply lookup_insert_eq|]. done.
Qed.
End StorefrontFacts.

Module StorefrontExamples.
Import Lifecycle Wallet Tariffs Portal Rbac Resellers ResellersFacts Storefront StorefrontFacts.

Definition boss_front : Front := mkFront (Some "welcome"%string) true true None None.
Definition open_app : ResellerApplication :=
  mkApplication "ann" (Some "pass"%string) "pending" (Some 1) (Some 1) None None None None None.
Definition store : ShopDB := mkShop ResellersExamples.shop {[1 := boss_front]} {[5 := open_app]}
  [mkBranding "vpn.example" (Some 1) None] (SubLinks.mkSubDB [] ∅ [] []).
Definition settings_on : StoreSettings := mkStoreSettings true true true.
Definition to_hash (s : string) : string := ("#" ++ s)%string.

Lemma store_ok : store_wf store.
Proof.
  assert (Hf : ∀ i c, has_code store i c → i = 1).
  { intros i c. unfold has_code, front_of. cbn. rewrite lookup_singleton. by case_decide. }
  constructor.
  - exact ResellersExamples.shop_wf.
  - intros i [f Hi]. cbn in Hi. apply lookup_singleton_Some in Hi as [<- _]. by eexists.
  - intros i j c Hi Hj. by rewrite (Hf _ _ Hi), (Hf _ _ Hj).
  - intros i j a b Ha Hb _ _ _. cbn in Ha, Hb. apply lookup_singleton_Some in Ha as [<- _], Hb as [<- _]. done.
  - intros i a Ha. cbn in Ha. apply lookup_singleton_Some in Ha as [_ <-]. left. split; [done|]. eexists. split; [done|]. cbn. lia.
Qed.

(** The boss approves Ann, whom somebody else cannot reject any more; Bob joins with the
    boss's code, and Eve applies at the boss's domain. *)
Definition day : list ShopOp :=
  [OpApprove Unreadable ResellersExamples.the_boss 10 5;
   OpReject Unreadable (mkActor "root" true None) 11 5 None;
   OpApply settings_on None None (Some " WELCOME "%string) "Bob" "pass";
   OpApply settings_on (Some "vpn.example:443"%string) None None "eve" "pass"].

Lemma applications_decided_once_witness : store_wf (run_ops to_hash false day store) ∧ length (map_to_list (sh_apps (run_ops to_hash false day store))) = 2%nat.
Proof.
  split; [exact (proj1 (applications_decided_once to_hash false day store store_ok))|]. vm_compute. reflexivity.
Defined.

Example after_the_day :
  let s := run_ops to_hash false day store in
  (ap_status <$> sh_apps s !! 5, ap_created_admin_id <$> sh_apps s !! 5, ap_parent_admin_id <$> sh_apps s !! 6,
   (λ a, (a_username a, a_parent_admin_id a)) <$> the_admins s !! 5) =
  (Some "approved"%string, Some (Some 4), Some (Some 1), Some ("bob"%string, Some 1)).
Proof. vm_compute. reflexivity. Qed.

(** The owner of the environment approves an application at the top. *)
Definition top_app : ResellerApplication :=
  mkApplication "zed" (Some "pass"%string) "pending" None None None None None None None.
Example ownerless :
  let s := store <| sh_apps := {[7 := top_app]} |> in
  let '(res, s') := run_session (approve_reseller_application to_hash true Unreadable (mkActor "root" true None) 10 7) s in
  res = Raise integrity_error ∧ sh_apps s' = sh_apps s ∧ a_username <$> the_admins s' !! 4 = Some "zed"%string.
Proof. vm_compute. split_and!; reflexivity. Qed.

Example free_for_all :
  let '(res, s') := run_session (public_register settings_on None None None 100 "guest1" "pass" true) store in
  res = Ok 1 ∧ (λ u, (u_status u, u_data_limit u, u_expire u)) <$> users (r_db (sh_r s')) !! 1 = Some (active, None, None).
Proof. vm_compute. split_and!; reflexivity. Qed.
End StorefrontExamples.
