(* ===== verification/Edge.v ===== *)
(** * Edge: CDN hosts in front of the core

    The part of [app/services/edge_proxy.py] that decides: which inbounds sit behind a
    CDN domain, the routes of the nginx vhosts on the origin, and the override of the
    running configuration that makes the core a plain backend on the loopback; with
    [is_product_inbound] and [inbound_port] of [app/xray/inbound_ports.py].

    An inbound is an object of the configuration, a host row the four columns that are
    read.  Whether a text is an IP address is an argument ([ipaddress]).  The text of a
    vhost is reduced to what distinguishes it: listening port, name and locations.
    Files, certificates and the reload of nginx are left out. *)
From stdpp Require Import pretty.
From S2P Require Import Prelude.
From S2P Require Import Json.
From S2P Require Import Ipv4.
Open Scope Z_scope.

Module Edge.
Import Py.

Record ProxyHost := mkHost {
  h_address : string;
  h_port : option Z;
  h_path : option string;
  h_is_disabled : bool }.

Record EdgeRoute := mkRoute {
  inbound_tag : string;
  domain : string;
  public_port : Z;
  backend_port : Z;
  network : string;
  service_name : string;
  ws_path : string;
  backend_tls : bool }.
#[export] Instance eta_EdgeRoute : Eta EdgeRoute := λ r, mkRoute (inbound_tag r) (domain r) (public_port r)
  (backend_port r) (network r) (service_name r) (ws_path r) (backend_tls r).

Definition CDN_NGINX_NETWORKS : list string := ["grpc"; "ws"; "httpupgrade"; "splithttp"; "xhttp"]%string.
Definition SYSTEM_TAGS : list string := ["API_INBOUND"; "TUNNEL_IN"; "TUNNEL_OUT"]%string.

(** The text up to a character. *)
Fixpoint upto (stop : Ascii.ascii) (l : list Ascii.ascii) : list Ascii.ascii :=
  match l with
  | [] => []
  | c :: l => if bool_decide (c = stop) then [] else c :: upto stop l
  end.
Definition before (stop : nat) (s : string) : string :=
  String.string_of_list_ascii (upto (Ascii.ascii_of_nat stop) (String.list_ascii_of_string s)).

(** [path if path.startswith("/") else f"/{path}"] *)
Definition rooted (path : string) : string := if startswith "/" path then path else ("/" ++ path)%string.

Section edge.
Context {R : Repr} (is_ip_literal : string → bool).

(** ** Inbounds *)

(** [str(d.get(k) or dflt)] *)
Definition text_or (dflt k : string) (d : obj) : string := if has k d then str (get k d) else dflt.

Definition _inbound_listen (ib : obj) : string :=
  let listen := strip (text_or "0.0.0.0" "listen" ib) in
  if String.eqb listen "" then "0.0.0.0" else listen.
Definition _is_loopback_listen (ib : obj) : bool :=
  bool_decide (lower (_inbound_listen ib) ∈ ["127.0.0.1"; "localhost"; "::1"]%string).

(** [d.get(k) or {}], [None] if that is no object. *)
Definition sub_dict (k : string) (d : obj) : option obj :=
  if has k d then is_dict (get k d) else Some ∅.
Definition stream_of (ib : obj) : option obj := sub_dict "streamSettings" ib.

Definition _inbound_network (ib : obj) : string :=
  match stream_of ib with None => "tcp" | Some stream => lower (strip (text_or "tcp" "network" stream)) end.
Definition _inbound_security (ib : obj) : string :=
  match stream_of ib with None => "none" | Some stream => lower (strip (text_or "none" "security" stream)) end.
Definition _grpc_service_name (ib : obj) : string :=
  match stream_of ib ≫= sub_dict "grpcSettings" with None => "" | Some gs => strip (text "serviceName" gs) end.

(** The path of a transport block, if it has one. *)
Definition block_path (key : string) (stream : obj) : option string :=
  match sub_dict key stream with
  | None => None
  | Some block => let path := strip (text "path" block) in if String.eqb path "" then None else Some (rooted path)
  end.
Definition _ws_path (ib : obj) : string :=
  match stream_of ib with None => "/" | Some stream => default "/"%string (block_path "wsSettings" stream) end.
Definition transport_key (network : string) : string :=
  if String.eqb network "httpupgrade" then "httpupgradeSettings"
  else if String.eqb network "splithttp" then "splithttpSettings"
  else if String.eqb network "xhttp" then "xhttpSettings" else "wsSettings".
Definition _transport_path (ib : obj) (network : string) : string :=
  match stream_of ib with
  | None => "/"
  | Some stream => default (_ws_path ib) (block_path (transport_key network) stream)
  end.

Definition is_product_inbound (ib : obj) : bool :=
  let tag := strip (text "tag" ib) in
  if String.eqb tag "" || bool_decide (tag ∈ SYSTEM_TAGS) then false else has "protocol" ib.

Definition port_in_range (n : Z) : option Z := if (1 <=? n) && (n <=? 65535) then Some n else None.
Definition inbound_port (ib : obj) : option Z :=
  match get "port" ib with
  | JNull => None
  | JNum n => port_in_range n
  | JBool b => port_in_range (if b then 1 else 0)
  | v => match String.list_ascii_of_string (strip (str v)) with
         | [] => None
         | l => Ipv4.digits_value 0 l ≫= port_in_range
         end
  end.

Definition _nginx_bridgeable_inbound (ib : obj) : bool :=
  negb (String.eqb (_inbound_security ib) "reality") && bool_decide (_inbound_network ib ∈ CDN_NGINX_NETWORKS).

(** ** Hosts *)
Definition _static_domain (address : string) : option string :=
  let addr := strip address in
  if String.eqb addr "" || contains "{" addr || contains "}" addr then None
  else
    let host := strip (before 58 (strip (before 44 addr))) in
    if String.eqb host "" || is_ip_literal host then None else Some (lower host).

Definition _host_public_port (h : ProxyHost) (ib : obj) : option Z :=
  match h_port h with Some p => Some p | None => inbound_port ib end.

Definition is_cdn_fronted_host (h : ProxyHost) (ib : obj) : bool :=
  if h_is_disabled h then false
  else match _static_domain (h_address h), inbound_port ib, _host_public_port h ib with
       | Some _, Some in_port, Some pub_port => negb (pub_port =? in_port)
       | _, _, _ => false
       end.

Definition _has_direct_domain_hosts (hosts : list ProxyHost) (ib : obj) : bool :=
  existsb (λ h, negb (h_is_disabled h) && negb (is_none (_static_domain (h_address h))) && negb (is_cdn_fronted_host h ib)) hosts.

(** ** Routes *)

(** [{str(ib["tag"]): ib ...}.get(tag)]: the last one of a tag. *)
Definition inbound_by_tag (inbounds : list obj) (tag : string) : option obj :=
  last (filter (λ ib, has "tag" ib = true ∧ str (get "tag" ib) = tag) inbounds).

(** The inbound of a tag, if it is one nginx can stand in front of. *)
Definition bridged (inbounds : list obj) (tag : string) : option obj :=
  match inbound_by_tag inbounds tag with
  | Some ib => if negb (bool_decide (ib = ∅)) && is_product_inbound ib && _nginx_bridgeable_inbound ib then Some ib else None
  | None => None
  end.

Notation HostsByTag := (list (string * list ProxyHost)).

Definition cdn_runtime_inbound_tags (hosts_by_tag : HostsByTag) (inbounds : list obj) : list string :=
  (filter (λ x, match bridged inbounds x.1 with
                | Some ib => existsb (λ h, is_cdn_fronted_host h ib) x.2
                | None => false
                end = true) hosts_by_tag).*1.

Definition route_of (tag : string) (ib : obj) (h : ProxyHost) : option EdgeRoute :=
  if negb (is_cdn_fronted_host h ib) then None
  else match _static_domain (h_address h), _host_public_port h ib, inbound_port ib with
       | Some d, Some pub_port, Some in_port =>
           let network := _inbound_network ib in
           let own := strip (default ""%string (h_path h)) in
           let path := if String.eqb own "" then _transport_path ib network else own in
           let path := if negb (String.eqb path "") && negb (startswith "/" path) then ("/" ++ path)%string else path in
           Some (mkRoute tag d pub_port in_port network (_grpc_service_name ib) path false)
       | _, _, _ => None
       end.

Definition route_key (r : EdgeRoute) : string * string * Z := (inbound_tag r, domain r, public_port r).

(** The first route of a key. *)
Fixpoint first_of_key (seen : list (string * string * Z)) (l : list EdgeRoute) : list EdgeRoute :=
  match l with
  | [] => []
  | r :: l => if bool_decide (route_key r ∈ seen) then first_of_key seen l
              else r :: first_of_key (route_key r :: seen) l
  end.

Definition compute_edge_routes (hosts_by_tag : HostsByTag) (inbounds : list obj) : list EdgeRoute :=
  first_of_key [] (flat_map (λ x, match bridged inbounds x.1 with
                                  | Some ib => omap (route_of x.1 ib) x.2
                                  | None => []
                                  end) hosts_by_tag).

(** [hosts_by_tag.get(tag) or []] *)
Definition hosts_of (hosts_by_tag : HostsByTag) (tag : string) : list ProxyHost :=
  default [] (snd <$> head (filter (λ x, x.1 = tag) hosts_by_tag)).

(** [next((ib for ib in inbounds if str(ib.get("tag") or "") == tag), None)] *)
Definition first_inbound (inbounds : list obj) (tag : string) : option obj :=
  head (filter (λ ib, text "tag" ib = tag) inbounds).

(** The routes of [sync_edge_nginx]. *)
Definition sync_routes (hosts_by_tag : HostsByTag) (inbounds : list obj) : list EdgeRoute :=
  (λ r, match first_inbound inbounds (inbound_tag r) with
        | Some ib => if negb (bool_decide (ib = ∅)) && _has_direct_domain_hosts (hosts_of hosts_by_tag (inbound_tag r)) ib
                     then r <| backend_tls := true |> else r
        | None => r
        end) <$> compute_edge_routes hosts_by_tag inbounds.

(** ** The running configuration *)
Definition direct_tags (hosts_by_tag : HostsByTag) (inbounds : list obj) (tags : list string) : list string :=
  filter (λ tag, match first_inbound inbounds tag with
                 | Some ib => negb (bool_decide (ib = ∅)) && _has_direct_domain_hosts (hosts_of hosts_by_tag tag) ib
                 | None => false
                 end = true) tags.

(** Is the security of the stream literally [none]? *)
Definition plain_stream (ib : obj) : bool :=
  match stream_of ib with Some stream => String.eqb (lower (text "security" stream)) "none" | None => false end.

(** Plain on the loopback. *)
Definition make_plain (ib : obj) : obj :=
  let ib := <["listen"%string := JStr "127.0.0.1"]> ib in
  match default (JObj ∅) (ib !! "streamSettings"%string) with
  | JObj stream =>
      <["streamSettings"%string := JObj (delete "realitySettings"%string (delete "tlsSettings"%string
         (<["security"%string := JStr "none"]> stream)))]> ib
  | _ => ib
  end.

(** The inbounds of [apply_edge_runtime_to_config]; [enabled] is XRAY_CDN_RUNTIME_ENABLED. *)
Definition apply_edge_runtime (enabled : bool) (hosts_by_tag : HostsByTag) (inbounds : list obj) : list obj :=
  let runtime_tags := cdn_runtime_inbound_tags hosts_by_tag inbounds in
  if negb enabled || bool_decide (runtime_tags = []) then inbounds
  else
    let direct := direct_tags hosts_by_tag inbounds runtime_tags in
    (λ ib, let tag := text "tag" ib in
           if bool_decide (tag ∉ runtime_tags) || bool_decide (tag ∈ direct) then ib
           else if _is_loopback_listen ib && plain_stream ib then ib
           else make_plain ib) <$> inbounds.

(** ** The vhosts *)
Definition _origin_tls_listen_port (public_port : Z) : Z := if public_port =? 80 then 443 else public_port.

(** [route.ws_path.rstrip("/") or "/"] *)
Fixpoint drop_slashes (l : list Ascii.ascii) : list Ascii.ascii :=
  match l with
  | c :: m => if bool_decide (c = Ascii.ascii_of_nat 47) then drop_slashes m else l
  | [] => []
  end.
Definition ws_location (r : EdgeRoute) : string :=
  let loc := String.string_of_list_ascii (rev (drop_slashes (rev (String.list_ascii_of_string (ws_path r))))) in
  if String.eqb loc "" then "/" else loc.

Inductive Location := Grpc (service : string) | Prefix (path : string).
#[export] Instance Location_eq_dec : EqDecision Location.
Proof. solve_decision. Defined.

(** The location of a route, and the scheme and port nginx passes it to. *)
Definition _nginx_proxy_block (r : EdgeRoute) : Location * bool * Z :=
  (if String.eqb (network r) "grpc" then Grpc (if String.eqb (service_name r) "" then "grpc" else service_name r)
   else Prefix (ws_location r), backend_tls r, backend_port r).

(** The groups of [build_desired_state], in the order of their first route.  A site is
    known by its domain; the file name made of it is left out. *)
Definition site_key (r : EdgeRoute) : string * Z := (domain r, public_port r).
Fixpoint site_keys (seen : list (string * Z)) (l : list EdgeRoute) : list (string * Z) :=
  match l with
  | [] => []
  | r :: l => if bool_decide (site_key r ∈ seen) then site_keys seen l else site_key r :: site_keys (site_key r :: seen) l
  end.
Record Site := mkSite { site_name : string; site_port : Z; site_locations : list (Location * bool * Z) }.
Definition build_desired_state (routes : list EdgeRoute) : list Site :=
  (λ k, mkSite k.1 (_origin_tls_listen_port k.2) (_nginx_proxy_block <$> filter (λ r, site_key r = k) routes)) <$> site_keys [] routes.

(** The locations of the TLS server of [render_nginx_site]: the routes', and the rest. *)
Definition vhost_locations (s : Site) : list Location := ((λ l, l.1.1) <$> site_locations s) ++ [Prefix "/"].

End edge.
End Edge.

(** ** Facts *)
Module EdgeFacts.
Import Py Edge.

Section edge.
Context {R : Repr} (ip : string → bool).

Notation HostsByTag := (list (string * list ProxyHost)).
Notation fronted := (is_cdn_fronted_host ip).

(** Tags are unique, as the core demands, and the tags of the hosts are keys. *)
Definition tags_unique (inbounds : list obj) : Prop :=
  ∀ x y, x ∈ inbounds → y ∈ inbounds → text "tag" x = text "tag" y → text "tag" x ≠ ""%string → x = y.

Lemma text_has_eq k d : has k d = true → text k d = str (get k d).
Proof. unfold text. by intros ->. Qed.
Lemma text_nonempty k d : text k d ≠ ""%string → has k d = true.
Proof. unfold text. by destruct (has k d). Qed.

(** *** Lookups by tag *)
Lemma by_tag_some inbounds tag ib : inbound_by_tag inbounds tag = Some ib → ib ∈ inbounds ∧ text "tag" ib = tag.
Proof.
  intros H. apply last_Some_elem_of, list_elem_of_filter in H as [[Ht <-] Hin]. split; [done|]. by rewrite text_has_eq.
Qed.

Lemma bridged_some inbounds tag ib : bridged inbounds tag = Some ib →
  ib ∈ inbounds ∧ text "tag" ib = tag ∧ tag ≠ ""%string ∧ ib ≠ ∅ ∧ _nginx_bridgeable_inbound ib = true.
Proof.
  unfold bridged. destruct (inbound_by_tag inbounds tag) as [x|] eqn:E; [|done]. apply by_tag_some in E as [Hin Ht].
  destruct (negb (bool_decide (x = ∅)) && _ && _) eqn:Hb; [|done]. intros [= <-]. boolp. split_and!; try done.
  intros ->. unfold is_product_inbound in *. rewrite Ht in *. done.
Qed.

Lemma first_by_tag inbounds ib : tags_unique inbounds → ib ∈ inbounds → text "tag" ib ≠ ""%string →
  first_inbound inbounds (text "tag" ib) = Some ib.
Proof.
  intros Hu Hin Hne. unfold first_inbound.
  destruct (filter (λ x, text "tag" x = text "tag" ib) inbounds) as [|x l] eqn:E.
  - exfalso. eapply (filter_nil_not_elem_of _ _ ib) in E; [|done]. done.
  - cbn. assert (Hx : x ∈ filter (λ x, text "tag" x = text "tag" ib) inbounds) by (rewrite E; left).
    apply list_elem_of_filter in Hx as [Hx Hxin]. f_equal. apply Hu; [done..|]. by rewrite Hx.
Qed.

Lemma hosts_by_key (hosts_by_tag : HostsByTag) tag hosts : NoDup hosts_by_tag.*1 → (tag, hosts) ∈ hosts_by_tag →
  hosts_of hosts_by_tag tag = hosts.
Proof.
  intros Hnd Hin. unfold hosts_of. destruct (filter (λ x, x.1 = tag) hosts_by_tag) as [|[t hs] l] eqn:E.
  - exfalso. eapply (filter_nil_not_elem_of _ _ (tag, hosts)) in E; [|done]. done.
  - assert (Hx : (t, hs) ∈ filter (λ x, x.1 = tag) hosts_by_tag) by (rewrite E; left).
    apply list_elem_of_filter in Hx as [Ht Hxin]. cbn in Ht |- *. subst t.
    apply list_elem_of_lookup in Hin as [i Hi], Hxin as [j Hj].
    assert (i = j) as ->; [|congruence]. eapply NoDup_lookup; [exact Hnd|..]; rewrite list_lookup_fmap.
    + by rewrite Hi.
    + by rewrite Hj.
Qed.

(** *** Routes *)
Lemma elem_of_first_of_key l : ∀ seen r, r ∈ first_of_key seen l → r ∈ l ∧ route_key r ∉ seen.
Proof.
  induction l as [|x l IH]; intros seen r; cbn [first_of_key]; [intros H; by apply not_elem_of_nil in H|].
  case_bool_decide as Hs.
  - intros [H1 H2]%IH. split; [by right|done].
  - rewrite elem_of_cons. intros [->|[H1 H2]%IH]; [split; [left|done]|]. apply not_elem_of_cons in H2 as [_ H2].
    split; [by right|done].
Qed.

Lemma first_of_key_NoDup l : ∀ seen, NoDup (route_key <$> first_of_key seen l).
Proof.
  induction l as [|x l IH]; intros seen; cbn [first_of_key]; [constructor|]. case_bool_decide; [apply IH|].
  cbn [fmap list_fmap]. constructor; [|apply IH]. intros Hin. apply list_elem_of_fmap in Hin as (r & Hk & Hr).
  apply elem_of_first_of_key in Hr as [_ Hr]. apply Hr. rewrite <- Hk. left.
Qed.

Lemma first_of_key_covers l : ∀ seen r, r ∈ l → route_key r ∉ seen → route_key r ∈ route_key <$> first_of_key seen l.
Proof.
  induction l as [|x l IH]; intros seen r Hin Hs; [by apply not_elem_of_nil in Hin|]. cbn [first_of_key].
  apply elem_of_cons in Hin. case_bool_decide as Hx.
  - destruct Hin as [-> | Hin]; [done | by apply IH].
  - cbn [fmap list_fmap]. destruct (decide (route_key r = route_key x)) as [E|Hne]; [rewrite E; left|].
    destruct Hin as [-> | Hin]; [done|]. right. apply IH; [done|]. by apply not_elem_of_cons.
Qed.

Lemma route_of_some tag ib h r : route_of ip tag ib h = Some r →
  fronted h ib = true ∧ inbound_tag r = tag ∧ _static_domain ip (h_address h) = Some (domain r) ∧
  _host_public_port h ib = Some (public_port r) ∧ inbound_port ib = Some (backend_port r) ∧ backend_tls r = false.
Proof.
  unfold route_of. destruct (fronted h ib); cbn [negb]; [|done].
  destruct (_static_domain ip (h_address h)), (_host_public_port h ib), (inbound_port ib); try done. by intros [= <-].
Qed.

Lemma computed_route hosts_by_tag inbounds r : r ∈ compute_edge_routes ip hosts_by_tag inbounds →
  ∃ ib hosts h, (inbound_tag r, hosts) ∈ hosts_by_tag ∧ bridged inbounds (inbound_tag r) = Some ib ∧ h ∈ hosts ∧
    route_of ip (inbound_tag r) ib h = Some r.
Proof.
  intros H. apply elem_of_first_of_key in H as [H _]. apply list_elem_of_In, in_flat_map in H as ([tag hosts] & Hin & Hr).
  apply list_elem_of_In in Hin, Hr. cbn [fst snd] in Hr. destruct (bridged inbounds tag) as [ib|] eqn:Hb; [|by apply not_elem_of_nil in Hr].
  apply list_elem_of_omap in Hr as (h & Hh & Hr). pose proof (route_of_some _ _ _ _ Hr) as (_ & <- & _). by exists ib, hosts, h.
Qed.

(** Every host behind a CDN has its route, one per domain and port. *)
Lemma routes_complete hosts_by_tag inbounds tag hosts h ib :
  (tag, hosts) ∈ hosts_by_tag → bridged inbounds tag = Some ib → h ∈ hosts → fronted h ib = true →
  NoDup (route_key <$> compute_edge_routes ip hosts_by_tag inbounds) ∧
  ∃ r, r ∈ compute_edge_routes ip hosts_by_tag inbounds ∧ inbound_tag r = tag ∧
    _static_domain ip (h_address h) = Some (domain r) ∧ _host_public_port h ib = Some (public_port r) ∧
    inbound_port ib = Some (backend_port r).
Proof.
  intros Hin Hb Hh Hf. split; [apply first_of_key_NoDup|].
  assert (Hr : ∃ r, route_of ip tag ib h = Some r).
  { unfold route_of. rewrite Hf. cbn [negb]. unfold is_cdn_fronted_host in Hf. destruct (h_is_disabled h); [done|].
    destruct (_static_domain ip (h_address h)), (inbound_port ib), (_host_public_port h ib); try done. by eexists. }
  destruct Hr as [r Hr]. destruct (route_of_some _ _ _ _ Hr) as (_ & Htag & Hd & Hp & Hbp & _).
  assert (Hk : route_key r ∈ route_key <$> compute_edge_routes ip hosts_by_tag inbounds).
  { apply first_of_key_covers; [|by apply not_elem_of_nil]. apply list_elem_of_In, in_flat_map. exists (tag, hosts).
    split; [by apply list_elem_of_In|]. cbn [fst snd]. rewrite Hb. apply list_elem_of_In, list_elem_of_omap. by exists h. }
  apply list_elem_of_fmap in Hk as (r' & Hk & Hr'). exists r'. injection Hk as E1 E2 E3.
  split_and!; [done|congruence|congruence|congruence|].
  destruct (computed_route _ _ _ Hr') as (ib' & hosts' & h' & _ & Hb' & _ & Hro). rewrite <- E1, Htag, Hb in Hb'. injection Hb' as <-.
  by destruct (route_of_some _ _ _ _ Hro) as (_ & _ & _ & _ & ? & _).
Qed.

(** *** The plain backend *)
Lemma get_insert k k' v (d : obj) : get k (<[k' := v]> d) = if decide (k' = k) then v else get k d.
Proof. unfold get. rewrite lookup_insert. by case_decide. Qed.

Lemma make_plain_other k ib : k ≠ "listen"%string → k ≠ "streamSettings"%string → get k (make_plain ib) = get k ib.
Proof.
  intros H1 H2. unfold make_plain. destruct (default _ _); rewrite ?get_insert, ?decide_False by done; done.
Qed.

Lemma make_plain_listen ib : _is_loopback_listen (make_plain ib) = true.
Proof.
  assert (H : get "listen" (make_plain ib) = JStr "127.0.0.1").
  { unfold make_plain. destruct (default _ _); rewrite ?get_insert; cbn; done. }
  unfold _is_loopback_listen, _inbound_listen, text_or, has. rewrite H. reflexivity.
Qed.

Lemma make_plain_tag ib : text "tag" (make_plain ib) = text "tag" ib.
Proof. unfold text, has. by rewrite make_plain_other. Qed.
Lemma make_plain_port ib : inbound_port (make_plain ib) = inbound_port ib.
Proof. unfold inbound_port. by rewrite make_plain_other. Qed.

Lemma bridgeable_stream ib : _nginx_bridgeable_inbound ib = true → ∃ m, ib !! "streamSettings"%string = Some (JObj m).
Proof.
  unfold _nginx_bridgeable_inbound, _inbound_network, stream_of, sub_dict, has, get. intros H. boolp.
  destruct (ib !! "streamSettings"%string) as [v|]; cbn [default from_option id truth] in *.
  - destruct v as [| | | | |m]; try (exfalso; repeat case_match; by set_solver). by exists m.
  - exfalso. set_solver.
Qed.

Lemma make_plain_security ib : _nginx_bridgeable_inbound ib = true → _inbound_security (make_plain ib) = "none"%string.
Proof.
  intros [m Hm]%bridgeable_stream. unfold make_plain. rewrite lookup_insert_ne, Hm by done. cbn [default from_option id].
  unfold _inbound_security, stream_of, sub_dict, has. rewrite get_insert, decide_True by done.
  set (st := delete _ _). assert (Hs : get "security" st = JStr "none").
  { unfold st, get. rewrite !lookup_delete_ne, lookup_insert_eq by done. done. }
  assert (Ht : truth (JObj st) = true).
  { cbn. apply negb_true_iff, bool_decide_eq_false. intros E. unfold get in Hs. by rewrite E in Hs. }
  rewrite Ht. cbn [is_dict]. unfold text_or, has. rewrite Hs. reflexivity.
Qed.

(** Case does not make or unmake a blank. *)
Lemma lower_ascii_space c : is_space (lower_ascii c) = is_space c.
Proof. destruct c as [[] [] [] [] [] [] [] []]; reflexivity. Qed.

Lemma strip_no_spaces s : forallb (λ c, negb (is_space c)) (String.list_ascii_of_string s) = true → strip s = s.
Proof.
  intros H. rewrite forallb_forall in H. unfold strip.
  assert (Hd : ∀ l, (∀ c, In c l → negb (is_space c) = true) → drop_spaces l = l).
  { intros [|c l] Hl; [done|]. cbn. specialize (Hl c (or_introl eq_refl)). by destruct (is_space c). }
  rewrite (Hd _ H), Hd, rev_involutive by (intros c Hc; apply H; by apply in_rev in Hc).
  apply String.string_of_list_ascii_of_string.
Qed.

Lemma lower_strip_none t : lower t = "none"%string → lower (strip t) = "none"%string.
Proof.
  intros H. rewrite strip_no_spaces; [done|]. apply (f_equal String.list_ascii_of_string) in H. unfold lower in H.
  rewrite String.list_ascii_of_string_of_list_ascii in H. apply forallb_forall. intros c Hc.
  apply (in_map lower_ascii) in Hc. rewrite H in Hc. rewrite <- (lower_ascii_space c). cbn in Hc.
  repeat destruct Hc as [<-|Hc]; done.
Qed.

Lemma plain_stream_security ib : plain_stream ib = true → _inbound_security ib = "none"%string.
Proof.
  unfold plain_stream, _inbound_security. destruct (stream_of ib) as [st|]; [|done]. intros H%String.eqb_eq.
  assert (Hh : has "security" st = true) by (destruct (has "security" st) eqn:E; [done|]; unfold text in H; by rewrite E in H).
  unfold text_or. rewrite Hh. apply lower_strip_none. by rewrite <- text_has_eq.
Qed.

(** What the override does with one inbound. *)
Lemma runtime_inbound enabled hosts_by_tag inbounds ib : ib ∈ apply_edge_runtime ip enabled hosts_by_tag inbounds →
  ib ∈ inbounds ∨ ∃ x, x ∈ inbounds ∧ ib = make_plain x.
Proof.
  unfold apply_edge_runtime. destruct (negb enabled || _); [by left|]. intros H. apply list_elem_of_fmap in H as (x & -> & Hx).
  cbv zeta. destruct (_ || _); [by left|]. destruct (_ && _); [by left|]. right. by exists x.
Qed.

(** The core is never left open without TLS: whatever hosts and inbounds there are, the
    override of the running configuration leaves an inbound as it is or binds it to
    the loopback, keeping its tag and port; and where its stream is one nginx can
    stand in front of, the stream it leaves is plain. *)
Theorem runtime_never_exposes enabled hosts_by_tag inbounds ib : ib ∈ apply_edge_runtime ip enabled hosts_by_tag inbounds →
  ib ∈ inbounds ∨
  ∃ x, x ∈ inbounds ∧ text "tag" ib = text "tag" x ∧ inbound_port ib = inbound_port x ∧ _is_loopback_listen ib = true ∧
       (_nginx_bridgeable_inbound x = true → _inbound_security ib = "none"%string).
Proof.
  intros [?|(x & Hx & ->)]%runtime_inbound; [by left | right]. exists x.
  split_and!; [done|apply make_plain_tag|apply make_plain_port|apply make_plain_listen|apply make_plain_security].
Qed.

(** *** nginx and the core agree *)

(** The inbound and the hosts a synchronised route stands for. *)
Lemma synced_route hosts_by_tag inbounds r : tags_unique inbounds → NoDup hosts_by_tag.*1 → r ∈ sync_routes ip hosts_by_tag inbounds →
  ∃ ib hosts, (inbound_tag r, hosts) ∈ hosts_by_tag ∧ bridged inbounds (inbound_tag r) = Some ib ∧ ib ∈ inbounds ∧
    text "tag" ib = inbound_tag r ∧ first_inbound inbounds (inbound_tag r) = Some ib ∧ ib ≠ ∅ ∧
    _nginx_bridgeable_inbound ib = true ∧ inbound_port ib = Some (backend_port r) ∧ existsb (λ h, fronted h ib) hosts = true ∧
    hosts_of hosts_by_tag (inbound_tag r) = hosts ∧ backend_tls r = _has_direct_domain_hosts ip hosts ib.
Proof.
  intros Hu Hnd Hr. unfold sync_routes in Hr. apply list_elem_of_fmap in Hr as (r0 & -> & Hr).
  destruct (computed_route _ _ _ Hr) as (ib & hosts & h & Hin & Hb & Hh & Hro).
  destruct (bridged_some _ _ _ Hb) as (Hib & Htag & Hne & Hnempty & Hbr).
  destruct (route_of_some _ _ _ _ Hro) as (Hf & _ & _ & _ & Hport & Htls).
  assert (Hfirst : first_inbound inbounds (inbound_tag r0) = Some ib) by (rewrite <- Htag; apply first_by_tag; [done|done|by rewrite Htag]).
  pose proof (hosts_by_key _ _ _ Hnd Hin) as Hhosts.
  set (d := _has_direct_domain_hosts ip hosts ib).
  assert (E : (match first_inbound inbounds (inbound_tag r0) with
        | Some ib => if negb (bool_decide (ib = ∅)) && _has_direct_domain_hosts ip (hosts_of hosts_by_tag (inbound_tag r0)) ib
                     then r0 <| backend_tls := true |> else r0
        | None => r0
        end) = if d then r0 <| backend_tls := true |> else r0).
  { rewrite Hfirst, Hhosts, bool_decide_eq_false_2 by done. done. }
  rewrite E. assert (Ek : inbound_tag (if d then r0 <| backend_tls := true |> else r0) = inbound_tag r0 ∧
    backend_port (if d then r0 <| backend_tls := true |> else r0) = backend_port r0 ∧
    backend_tls (if d then r0 <| backend_tls := true |> else r0) = d) by (by destruct d).
  destruct Ek as (-> & -> & ->). exists ib, hosts. split_and!; try done.
  apply existsb_exists. exists h. split; [by apply list_elem_of_In|done].
Qed.

(** C28. With the override on, nginx and the core agree on every route: the running
    configuration has the inbound of the route on the route's backend port; a route
    nginx passes on in plain leads to a plain inbound on the loopback, and one it
    passes on with TLS to an inbound that is as the operator configured it. *)
Theorem routes_meet_backends hosts_by_tag inbounds r :
  tags_unique inbounds → NoDup hosts_by_tag.*1 → r ∈ sync_routes ip hosts_by_tag inbounds →
  ∃ ib, ib ∈ apply_edge_runtime ip true hosts_by_tag inbounds ∧ text "tag" ib = inbound_tag r ∧
    inbound_port ib = Some (backend_port r) ∧
    if backend_tls r then ib ∈ inbounds
    else _is_loopback_listen ib = true ∧ _inbound_security ib = "none"%string.
Proof.
  intros Hu Hnd Hr. destruct (synced_route _ _ _ Hu Hnd Hr) as (ib & hosts & Hin & Hb & Hib & Htag & Hfirst & Hne & Hbr & Hport & Hf & Hhosts & Htls).
  set (tags := cdn_runtime_inbound_tags ip hosts_by_tag inbounds).
  assert (Ht : inbound_tag r ∈ tags).
  { apply (list_elem_of_fmap_2 fst _ (inbound_tag r, hosts)). apply list_elem_of_filter. split; [|done]. cbn [fst snd]. by rewrite Hb. }
  assert (Hd : inbound_tag r ∈ direct_tags ip hosts_by_tag inbounds tags ↔ backend_tls r = true).
  { unfold direct_tags. rewrite list_elem_of_filter, Hfirst, Hhosts, Htls, bool_decide_eq_false_2 by done. cbn [negb andb]. tauto. }
  set (step := λ ib : obj, let tag := text "tag" ib in
    if bool_decide (tag ∉ tags) || bool_decide (tag ∈ direct_tags ip hosts_by_tag inbounds tags) then ib
    else if _is_loopback_listen ib && plain_stream ib then ib else make_plain ib).
  assert (Hrun : apply_edge_runtime ip true hosts_by_tag inbounds = step <$> inbounds).
  { unfold apply_edge_runtime. fold tags. rewrite bool_decide_eq_false_2; [done|]. intros E. rewrite E in Ht. by apply not_elem_of_nil in Ht. }
  exists (step ib). rewrite Hrun. split; [by apply list_elem_of_fmap_2|]. unfold step. cbv zeta. rewrite Htag.
  rewrite (bool_decide_eq_false_2 (inbound_tag r ∉ tags)) by tauto. cbn [orb].
  destruct (backend_tls r) eqn:Etls.
  - rewrite bool_decide_eq_true_2 by tauto. done.
  - rewrite bool_decide_eq_false_2 by (rewrite Hd; done). destruct (_is_loopback_listen ib && plain_stream ib) eqn:Ep.
    + apply andb_true_iff in Ep as [E1 E2]. split_and!; [done|done|done|]. by apply plain_stream_security.
    + rewrite make_plain_tag, make_plain_port. split_and!; [done|done|apply make_plain_listen|by apply make_plain_security].
Qed.

(** With the default settings, override off and vhosts on, a TLS inbound that only CDN
    hosts name is passed on in plain. *)
Lemma default_settings_plain_to_tls hosts_by_tag inbounds r ib : tags_unique inbounds → NoDup hosts_by_tag.*1 →
  r ∈ sync_routes ip hosts_by_tag inbounds → ib ∈ inbounds → text "tag" ib = inbound_tag r →
  _has_direct_domain_hosts ip (hosts_of hosts_by_tag (inbound_tag r)) ib = false →
  backend_tls r = false ∧ ib ∈ apply_edge_runtime ip false hosts_by_tag inbounds.
Proof.
  intros Hu Hnd Hr Hib Htag Hd. split; [|done].
  destruct (synced_route _ _ _ Hu Hnd Hr) as (x & hosts & _ & Hb & Hx & Hxt & _ & _ & _ & _ & _ & Hhosts & ->).
  destruct (bridged_some _ _ _ Hb) as (_ & _ & Hne & _). assert (x = ib) as -> by (apply Hu; [done|done|congruence|congruence]). by rewrite <- Hhosts.
Qed.

(** *** The vhosts *)
Lemma site_keys_cover l : ∀ seen r, r ∈ l → site_key r ∉ seen → site_key r ∈ site_keys seen l.
Proof.
  induction l as [|x l IH]; intros seen r Hin Hs; [by apply not_elem_of_nil in Hin|]. cbn [site_keys].
  apply elem_of_cons in Hin. case_bool_decide as Hx.
  - destruct Hin as [-> | Hin]; [done | by apply IH].
  - destruct (decide (site_key r = site_key x)) as [E|Hne]; [rewrite E; left|].
    destruct Hin as [-> | Hin]; [done|]. right. apply IH; [done|]. by apply not_elem_of_cons.
Qed.

(** A route at the root path repeats the location that closes the vhost, and nginx
    refuses a server with a location twice. *)
Lemma root_path_twice routes r : r ∈ routes → network r ≠ "grpc"%string → ws_location r = "/"%string →
  ∃ s, s ∈ build_desired_state routes ∧ site_name s = domain r ∧ ¬ NoDup (vhost_locations s).
Proof.
  intros Hr Hn Hl. eexists. split; [apply list_elem_of_fmap_2, (site_keys_cover routes [] r Hr); by apply not_elem_of_nil|].
  split; [done|]. unfold vhost_locations. cbn [site_locations]. intros Hnd. apply NoDup_app in Hnd as (_ & Hd & _).
  apply (Hd (Prefix "/")); [|left]. apply list_elem_of_fmap. exists (_nginx_proxy_block r). split.
  - unfold _nginx_proxy_block. cbn [fst]. rewrite Hl. by destruct (String.eqb_spec (network r) "grpc").
  - apply list_elem_of_fmap_2, list_elem_of_filter. done.
Qed.
End edge.
End EdgeFacts.

Module EdgeExamples.
Import Py Edge EdgeFacts.

#[local] Instance no_repr : Repr := λ _, ""%string.
(** Domains only. *)
Definition no_ip (_ : string) : bool := false.

Definition ws_inbound (tag : string) (port : Z) (security : string) : obj := list_to_map
  [("tag", JStr tag); ("protocol", JStr "vless"); ("port", JNum port);
   ("streamSettings", JObj (list_to_map [("network", JStr "ws"); ("security", JStr security);
     ("tlsSettings", JObj (list_to_map [("certificates", JArr [])]%string))]%string))]%string.
Definition cdn : ProxyHost := mkHost "cdn.example.com" (Some 443) None false.
Definition direct : ProxyHost := mkHost "go.example.com" None None false.

Definition two : list obj := [ws_inbound "a" 8443 "tls"; ws_inbound "b" 9443 "tls"].
Definition hosts_two : list (string * list ProxyHost) := [("a"%string, [cdn]); ("b"%string, [direct; cdn])].

Lemma two_unique : tags_unique two.
Proof.
  intros x y Hx Hy. apply elem_of_cons in Hx as [-> | [-> | []%not_elem_of_nil]%elem_of_cons], Hy as [-> | [-> | []%not_elem_of_nil]%elem_of_cons];
    try done; intros E; vm_compute in E; discriminate E.
Qed.
Lemma hosts_two_keys : NoDup hosts_two.*1.
Proof. apply (bool_decide_eq_true_1 _). vm_compute. reflexivity. Qed.

Definition route_a : EdgeRoute := mkRoute "a" "cdn.example.com" 443 8443 "ws" "" "/" false.

Lemma routes_meet_backends_witness :
  ∃ ib, ib ∈ apply_edge_runtime no_ip true hosts_two two ∧ text "tag" ib = "a"%string ∧
    inbound_port ib = Some 8443 ∧ _is_loopback_listen ib = true ∧ _inbound_security ib = "none"%string.
Proof.
  assert (Hr : route_a ∈ sync_routes no_ip hosts_two two) by (vm_compute; left).
  exact (routes_meet_backends no_ip hosts_two two route_a two_unique hosts_two_keys Hr).
Defined.

(** Neither inbound has a path: the location of the root three times. *)
Example root_location_thrice :
  (λ s, (site_name s, vhost_locations s)) <$> build_desired_state (sync_routes no_ip hosts_two two) =
  [("cdn.example.com"%string, [Prefix "/"; Prefix "/"; Prefix "/"])].
Proof. vm_compute. reflexivity. Qed.

(** A direct host makes nginx speak TLS to the backend, also where the inbound is plain. *)
Example tls_to_plain :
  let inbounds := [ws_inbound "b" 9443 "none"] in
  let hosts := [("b"%string, [direct; cdn])] in
  (backend_tls <$> sync_routes no_ip hosts inbounds, _inbound_security <$> apply_edge_runtime no_ip true hosts inbounds) =
  ([true], ["none"%string]).
Proof. vm_compute. reflexivity. Qed.

(** The default settings. *)
Example plain_to_tls :
  let inbounds := [ws_inbound "a" 8443 "tls"] in
  let hosts := [("a"%string, [cdn])] in
  (backend_tls <$> sync_routes no_ip hosts inbounds, _inbound_security <$> apply_edge_runtime no_ip false hosts inbounds) =
  ([false], ["tls"%string]).
Proof. vm_compute. reflexivity. Qed.
End EdgeExamples.
